(* ===== verification/_CoqProject ===== *)
-Q . S2P
Prelude.v
Layout.v
KString.v
PageAlloc.v
PageAllocInv.v
PageAllocSpec.v
PageIface.v
PageAllocProps.v
Vm.v
VmSpec.v
VmBoot.v
VmProps.v
Proc.v
ProcessVm.v
ProcessVmSpec.v
ProcessVmPages.v
ProcessVmProps.v
ProcessVmRelease.v
ProcessVmClone.v
Sched.v
WaitQ.v
Ring.v
Event.v
Printf.v
Fs.v
FsSpec.v
FsOps.v
FsProps.v
UserCopy.v
Process.v
ProcessSpec.v
ProcessLife.v
ProcessProps.v
ProcessFork.v
GpuIface.v
Syscall.v
SyscallProps.v
SelSort.v
Virtq.v
VirtioInput.v
Wm.v
WmEvents.v
WmDraw.v
WmOrder.v
WmScene.v
WmInv.v
WmOps.v
WmLife.v
WmImage.v
WmRender.v
VirtioGpu.v
VirtioGpuSpec.v
VirtioGpuProps.v
WmProps.v
VirtioInputProps.v
Bytes.v
VirtioBlk.v
VirtioBlkInv.v
VirtioBlkProps.v
Trap.v
TrapProps.v
Boot.v
BootProps.v
Ext4.v
Ext4Spec.v
Ext4Read.v
Ext4Inode.v
Ext4Dir.v
Ext4Mount.v
Ext4Ops.v
Ext4Props.v
UserUtil.v
Shell.v
ShellInv.v
ShellCmds.v
ShellFiles.v
ShellLoop.v
ShellProps.v
Asm.v
AsmProps.v
