(* ===== verification/Prelude.v ===== *)
(** * Sugimotos, a small RISC-V kernel: a model of its core and what it does right

    The program is a monolithic 32-bit RISC-V kernel in C: a page allocator, Sv32
    page tables, processes with copy-on-write address spaces, a scheduler, wait
    queues, an in-memory file system, an event queue, system calls, virtio
    drivers and a window manager.  This library models the parts listed below
    as executable functions on explicit states and proves what they promise
    each other.

    ** Reading guide

    - [Prelude] (this file): 32-bit arithmetic on [Z], the outcome of kernel code
      ([Done], [Panic], [Spin] on a lock that is held, [Fault] on a pointer to no
      object, [NoFuel]), the state monad [km] with its notations [let!] and
      [do!], total ([wp]) and partial ([wlp]) correctness with their stepping
      tactics, arrays indexed by machine integers.
    - [Layout]: the symbols of [src/arch/riscv32/kernel.ld] as a class, with what
      the linker script guarantees ([LayoutOk]).
    - [KString]: byte memory and [src/lib/string.c].
    - [Printf]: [src/lib/printf.c].
    - [PageAlloc], [PageAllocInv], [PageAllocSpec], [PageAllocProps]:
      [src/mm/page_alloc.c].  The free list is a chain of nodes in memory, the
      reference counts and all contents are part of the state.
    - [PageIface]: what the allocator promises to its clients, as the classes
      [PageOps] (operations) and [PageOpsOk] (laws), with the instance that the
      theorems on the allocator discharge.  Everything below is stated against
      these classes.  [Refusals] is a mark that a refused request leaves, with an
      allocator that has it; it names the cause of a failed fork.
    - [Vm], [VmSpec], [VmBoot], [VmProps]: [src/mm/vm.c].  Tables are words in the
      byte memory; [query_page] is the translation the hardware performs.
    - [Proc]: the records of [kernel/proc.h] and [arch/trap.h].
    - [ProcessVm], [ProcessVmSpec], [ProcessVmPages], [ProcessVmProps]:
      [src/mm/process_vm.c], areas and pages of a process; [ProcessVmRelease] and
      [ProcessVmClone]: giving a space back, and sharing it with a child.
    - [UserCopy]: [src/mm/usercopy.c].
    - [Sched], [WaitQ]: [src/kernel/process/sched.c] and [waitq.c].
    - [Ring], [Event]: [src/kernel/event/event.c] and the keyboard queue of
      [src/kernel/sbi/sbi.c], on one theory of ring buffers.
    - [Fs], [FsSpec], [FsOps], [FsProps]: [src/fs/fs.c] with the descriptor tables.
    - [Process], [ProcessSpec], [ProcessLife], [ProcessProps]:
      [src/kernel/process/process.c] and [src/arch/riscv32/process.c] on the
      state that joins page tables, file system, process table and scheduler;
      [ProcessFork]: the memory of parent and child through fork and wait.
    - [Syscall], [SyscallProps]: [src/kernel/syscall/] and
      [src/arch/riscv32/trap/syscall.c], from the trap frame of an [ecall] to
      the frame that is restored, on the state that joins all the above.

    - [SelSort]: the selection sort that the window manager and the input driver
      both contain.
    - [Virtq]: descriptor tables, available and used rings and device registers
      of the three virtio drivers; [Bytes]: stretches of memory.
    - [VirtioBlk], [VirtioBlkInv], [VirtioBlkProps]:
      [src/drivers/virtio/virtio_blk.c].  Each call of [blk_read] is a machine of
      its own ([br_pc]); [blk_step] interleaves the calls, the device and its
      interrupts.
    - [VirtioInput], [VirtioInputProps]: [src/drivers/virtio/virtio_input.c].
    - [GpuIface]: what a display promises the window manager and the system
      calls, as a class with its laws; [VirtioGpu], [VirtioGpuSpec],
      [VirtioGpuProps]: [src/drivers/virtio/virtio_gpu.c], which discharges it.
    - [Wm] (the code of [src/kernel/gui/wm.c]), [WmEvents] (event rings), [WmDraw]
      and [WmScene] (pixels and what they should be), [WmOrder] (stacking),
      [WmInv], [WmOps], [WmLife], [WmImage], [WmRender] (the invariant and each
      operation), [WmProps] (theorems).
    - [Trap], [TrapProps]: [src/arch/riscv32/trap/trap.c] and
      [src/arch/riscv32/plic.c], on the state that joins the system calls with
      the drivers; [Boot], [BootProps]: [src/kernel/main.c].
    - [Ext4] (the code of [src/fs/ext4.c], on a byte memory with [blk_read] as an
      interface), [Ext4Spec] (the structures as they lie in memory),
      [Ext4Read] (extent trees and file data), [Ext4Inode], [Ext4Dir] (the scan of
      the root directory, and directory blocks as they are written),
      [Ext4Mount], [Ext4Ops], [Ext4Props].
    - [UserUtil]: [src/kernel/apps/user_util.c] and the table of
      files of [user_fm.c]; [Shell]: [user_init.c], [fm_run] and [user_img.c], on the
      state that joins the system calls, the input driver and the window manager;
      [ShellInv] (the queue of characters, the invariant), [ShellCmds]
      (windows), [ShellFiles] (commands on files), [ShellLoop] (line and Enter),
      [ShellProps].
    - [Asm], [AsmProps]: the assembly of [src/arch/riscv32/trap/entry.c],
      [src/arch/riscv32/trap/resume.c] and [src/arch/riscv32/context.c] on the
      registers, CSRs and memory of the hart.

    In each group the file with the name of the component holds the code, one
    definition per C function with the name of the function and one more for
    each loop; the [Inv], [Spec] and [Ops] files hold the invariant and the
    behaviour of each operation; the [Props] file, or the end of the only file,
    holds the theorems, numbered C1, C2, ..., and concrete instances.

    ** What the theorems show

    - Memory: the allocator never hands out a page in use, never loses or
      doubles a page, refuses only when no run of pages is free, detects double
      frees, and always returns with its lock released.
    - Page tables: mapping and unmapping change the translation of one page and
      of no other, splitting superpages on the way; the kernel map and fresh
      user spaces are exactly what they are meant to be; a fresh user space reaches
      the read-only data of kernel and programs, the programs' own segments and its
      stack, and no other physical memory.
    - Processes' memory: areas stay disjoint and page aligned; mmap, munmap and
      page faults (demand zero and copy on write) have exactly their effect;
      the access checks of the system calls accept a range if and only if
      every byte of it may be accessed, and the copies to and from user memory
      touch nothing else.
    - Scheduling: how budgets are charged and refilled and which process is chosen,
      the absence of starvation with an
      explicit bound, sleeping and waking; a wake-up that can be lost.
    - Files: the inode and descriptor tables stay consistent under every sequence
      of calls of every process; each operation is described by its effect on
      the map from names to contents and on the open descriptors.
    - Life cycle: pids are unique in every reachable state; fork, exit and wait
      do what they promise, and the exit status reaches the parent.  A fork
      returns with two spaces that share their pages copy on write, or fails for a
      stated cause; neither process sees what the other writes; the memory of a process that is waited for comes back.
    - System calls: fork as the two processes see it through their registers;
      no event is lost on its way to a user process.
    - Disk: whatever the order of calls, completions and interrupts, slots are
      exclusive, the rings do not overflow, and a read that returns 0 has its own
      sector in its buffer; a waiting call returns once its request is answered, but
      a wake-up can be lost.
    - Input: devices are served in turn and none starves; an interrupt passes on
      every event in order, and its loop ends.
    - Display and desktop: a command gets its own answer or times out; the
      window manager keeps its tables consistent under all calls but those that
      change the scene without marking it dirty, and draws exactly the scene; a click goes
      to the window that is seen; event rings refine bounded queues.
    - Traps and start: an interrupt is handled to its end, every pending source is
      claimed and completed, the drivers run once for each source of the bus, and
      nothing changes but the drivers, the event queue and sleepers they wake; a
      fault of a user process is served where the areas allow it and there is
      memory, and otherwise ends that process, never the kernel; the kernel always
      starts, in a state that satisfies the invariants of its parts.
    - Assembly: a trap that the handler does not answer is invisible to the code it
      interrupts, in both modes, unless user code has set its stack pointer to zero; a process that switches away goes on later as if
      its call had returned, and a new one starts at its entry.
    - ext4, on disks whose superblock and extent trees stay inside their buffers:
      mounting gives the result the superblock calls for; from then on every call
      returns and keeps the reader mounted; looking a file up and reading it gives
      the bytes the disk holds for it; the search in an extent tree agrees with
      the map the tree stands for; directory blocks are read back as written.
    - Shell: outside a few screen sizes, and but for [fm] on the focused window, no
      key, console character or command makes it fault or hang, whatever other code
      does between two rounds within the invariants; characters come
      in the order of the keys; what [write] stores [cat] prints.
    - Queues refine bounded first-in first-out buffers; formatted output prints
      canonical numerals; string functions, one of which writes too much.

    ** Loops and bounds

    Loops over a table recurse on its length.  A loop with another bound takes
    fuel and has a theorem that the fuel is enough: the free list is walked
    with one step per node and more ([list_fuel_enough]), address ranges with
    one step per page, the area search with one round per area, the digits of
    a 32-bit number with ten, the input handler with one round per element on
    the rings, reading a file of the ext4 reader with one round per block and the
    scan of a directory block with one per byte.  [cat] has 1026 rounds for
    a file of at most 1024 bytes, [split_args] one per character of the line.
    The 20000000 polls of the display driver are counted by the
    digits of that number ([until_pos]).  Running out is the outcome [NoFuel] (or
    [None]), which no total statement allows.

    ** What is not modelled

    The jump from the firmware to [kernel_main] in [boot.c], CSR access macros and
    TLB fences, what devices do inside (they are parameters or steps with the behaviour the
    virtio and PLIC specifications promise), the firmware behind SBI, and the test
    program.  The file system reaches the ext4 reader through an interface, since
    [fs_init] of this commit never mounts it.  There is one hart; interrupts are
    explicit interleavings where a theorem is about them.  A fork is
    described for processes whose data segments still have the pages of the image
    ([image_data]), since a fork after a write to one of them can panic
    ([second_fork_panics] is a run that does). *)

From Stdlib Require Export ZArith Lia.
From stdpp Require Export base tactics option numbers strings gmap list.

#[export] Set Default Goal Selector "!".
Open Scope Z_scope.
Coercion Z.of_nat : nat >-> Z.

(* ================================================================== *)
(** ** Machine integers *)

(** A [uint32_t] is a [Z] in [0, 2^32); every arithmetic result is reduced. *)
Definition wrap32 (x : Z) : Z := x mod 4294967296.
Definition add32 (a b : Z) : Z := wrap32 (a + b).
Definition sub32 (a b : Z) : Z := wrap32 (a - b).
Definition mul32 (a b : Z) : Z := wrap32 (a * b).
(** [~x] on 32 bits. *)
Definition not32 (x : Z) : Z := 4294967295 - x.
Definition is_u32 (x : Z) : Prop := 0 ≤ x < 4294967296.

(** [(int) x] for a 32-bit [x], and the way back. *)
Definition to_int (x : Z) : Z :=
  let u := wrap32 x in if u <? 2147483648 then u else u - 4294967296.
Definition is_int (x : Z) : Prop := -2147483648 ≤ x < 2147483648.

(** [x & m] used as a truth value. *)
Definition has_bits (x m : Z) : bool := negb (Z.land x m =? 0).

Definition PAGE_SIZE : Z := 4096.

(** [is_aligned(value, align)], clang's [__builtin_is_aligned]. *)
Definition is_aligned (value align : Z) : bool := value mod align =? 0.

(** The arithmetic closer: unfolds the machine operations and turns
    quotients and remainders into linear facts. *)
Ltac word_lia :=
  unfold is_u32, is_int, to_int, add32, sub32, mul32, not32, wrap32, is_aligned, PAGE_SIZE in *;
  try rewrite Z.eqb_eq in *; Z.div_mod_to_equations; lia.

(** Case analysis on every integer test of the goal; arithmetic closes the
    impossible combinations. *)
Ltac zcase :=
  match goal with
  | |- context [?x <? ?y] => destruct (Z.ltb_spec x y)
  | |- context [?x <=? ?y] => destruct (Z.leb_spec x y)
  | |- context [?x =? ?y] => destruct (Z.eqb_spec x y)
  end; cbn [andb orb negb] in *; try (exfalso; lia).
Ltac zcases := repeat zcase.

Lemma wrap32_small x : is_u32 x → wrap32 x = x.
Proof. unfold is_u32, wrap32. intros. by apply Z.mod_small. Qed.

Lemma wrap32_range x : is_u32 (wrap32 x).
Proof. unfold is_u32, wrap32. apply Z.mod_pos_bound. lia. Qed.

Lemma add32_small a b : 0 ≤ a + b < 4294967296 → add32 a b = a + b.
Proof. intros. by apply wrap32_small. Qed.

Lemma sub32_small a b : 0 ≤ a - b < 4294967296 → sub32 a b = a - b.
Proof. intros. by apply wrap32_small. Qed.

Lemma mul32_small a b : 0 ≤ a * b < 4294967296 → mul32 a b = a * b.
Proof. intros. by apply wrap32_small. Qed.

Lemma to_int_range x : is_int (to_int x).
Proof.
  unfold to_int, is_int. pose proof (wrap32_range x) as Hw. unfold is_u32 in Hw.
  destruct (Z.ltb_spec (wrap32 x) 2147483648); lia.
Qed.

Lemma to_int_id x : is_int x → to_int x = x.
Proof.
  unfold is_int, to_int, wrap32. intros.
  destruct (Z.ltb_spec (x mod 4294967296) 2147483648); Z.div_mod_to_equations; lia.
Qed.

(** Masking with a complement clears the bits of the mask. *)
Lemma land_not32 x m : is_u32 x → is_u32 m → Z.land x (not32 m) = Z.ldiff x m.
Proof.
  unfold is_u32, not32. intros Hx Hm.
  replace (4294967295 - m) with (Z.land (Z.lnot m) (Z.ones 32)).
  - rewrite (Z.land_comm (Z.lnot m)), Z.land_assoc, <-Z.ldiff_land.
    by rewrite Z.land_ones, Z.mod_small by lia.
  - rewrite Z.land_ones by lia. unfold Z.lnot. change (2 ^ 32) with 4294967296.
    Z.div_mod_to_equations. lia.
Qed.

(** [x & ~(2^k - 1)] rounds down to a multiple of [2^k]. *)
Lemma land_not32_ones x k :
  is_u32 x → 0 ≤ k ≤ 32 → Z.land x (not32 (2 ^ k - 1)) = x - x mod 2 ^ k.
Proof.
  intros Hx Hk. rewrite land_not32; [|done|].
  - replace (2 ^ k - 1) with (Z.ones k) by (rewrite Z.ones_equiv; lia).
    rewrite Z.ldiff_ones_r by lia. rewrite Z.shiftl_mul_pow2, Z.shiftr_div_pow2 by lia.
    pose proof (Z.div_mod x (2 ^ k)). lia.
  - unfold is_u32. assert (2 ^ k ≤ 2 ^ 32) by (apply Z.pow_le_mono_r; lia). lia.
Qed.

(** Disjoint bit fields: a multiple of [2^k] and a [k]-bit number. *)
Lemma lor_fields hi lo k :
  0 ≤ k → hi mod 2 ^ k = 0 → 0 ≤ lo < 2 ^ k → Z.lor hi lo = hi + lo.
Proof.
  intros Hk Hhi Hlo. symmetry. apply Z.add_nocarry_lor.
  rewrite <-(Z.mod_small lo (2 ^ k)), <-Z.land_ones by lia.
  rewrite (Z.land_comm lo), Z.land_assoc, Z.land_ones, Hhi by lia. apply Z.land_0_l.
Qed.

Lemma land_fields hi lo m k :
  0 ≤ k → hi mod 2 ^ k = 0 → 0 ≤ lo < 2 ^ k → 0 ≤ m < 2 ^ k →
  Z.land (hi + lo) m = Z.land lo m.
Proof.
  intros Hk Hhi Hlo Hm.
  rewrite <-(Z.mod_small m (2 ^ k)) at 1 by lia.
  rewrite <-Z.land_ones, (Z.land_comm m), Z.land_assoc, Z.land_ones by lia.
  f_equal. rewrite Z.add_mod, Hhi, Z.add_0_l, Z.mod_mod by lia. by apply Z.mod_small.
Qed.

(* ================================================================== *)
(** ** Outcomes and the kernel monad *)

(** How a piece of kernel code ends: it returns, it reaches [PANIC] (which
    never returns), it spins on a lock that nobody will release, it
    dereferences a pointer to no object, or the fuel of a loop runs out. *)
Inductive outcome (A : Type) : Type :=
| Done (a : A)
| Panic (msg : string)
| Spin
| Fault
| NoFuel.
Arguments Done {A} a.
Arguments Panic {A} msg.
Arguments Spin {A}.
Arguments Fault {A}.
Arguments NoFuel {A}.

(** Stateful, fallible code over a state [S]. *)
Definition km (S A : Type) : Type := S → outcome (A * S).

Declare Scope kernel_scope.
Delimit Scope kernel_scope with kernel.

Section monad.
Context {S : Type}.

Definition kret {A} (a : A) : km S A := λ s, Done (a, s).
Definition kbind {A B} (c : km S A) (f : A → km S B) : km S B := λ s,
  match c s with
  | Done (a, s') => f a s'
  | Panic msg => Panic msg
  | Spin => Spin
  | Fault => Fault
  | NoFuel => NoFuel
  end.
Definition kget : km S S := λ s, Done (s, s).
Definition kput (s' : S) : km S unit := λ _, Done (tt, s').
Definition kmodify (f : S → S) : km S unit := λ s, Done (tt, f s).
Definition kpanic {A} (msg : string) : km S A := λ _, Panic msg.
Definition kspin {A} : km S A := λ _, Spin.
Definition kfault {A} : km S A := λ _, Fault.
Definition knofuel {A} : km S A := λ _, NoFuel.

(** Total correctness: the code returns, and its result satisfies [Q]. *)
Definition wp {A} (c : km S A) (Q : A → S → Prop) (s : S) : Prop :=
  match c s with Done (a, s') => Q a s' | _ => False end.

(** Total correctness up to faults: the code returns, or it faults and [F] holds. *)
Definition wpf {A} (c : km S A) (Q : A → S → Prop) (F : Prop) (s : S) : Prop :=
  match c s with Done (a, s') => Q a s' | Fault => F | _ => False end.

(** Partial correctness: if the code returns, its result satisfies [Q]. *)
Definition wlp {A} (c : km S A) (Q : A → S → Prop) (s : S) : Prop :=
  match c s with Done (a, s') => Q a s' | _ => True end.
End monad.

Notation "'let!' x ':=' c 'in' k" := (kbind c (λ x, k))
  (at level 10, x pattern, c at level 100, k at level 200) : kernel_scope.
Notation "'do!' c 'in' k" := (kbind c (λ _, k))
  (at level 10, c at level 100, k at level 200) : kernel_scope.
Open Scope kernel_scope.

(** Run code of a component inside the larger state that contains it. *)
Definition zoom {S T A} (get : S → T) (put : T → S → S) (c : km T A) : km S A := λ s,
  match c (get s) with
  | Done (a, t) => Done (a, put t s)
  | Panic msg => Panic msg
  | Spin => Spin
  | Fault => Fault
  | NoFuel => NoFuel
  end.

Section wp.
Context {S : Type}.
Implicit Types s : S.

Lemma wp_ret {A} (a : A) (Q : A → S → Prop) s : Q a s → wp (kret a) Q s.
Proof. done. Qed.

Lemma wp_bind {A B} (c : km S A) (f : A → km S B) Q s :
  wp c (λ a s', wp (f a) Q s') s → wp (kbind c f) Q s.
Proof. unfold wp, kbind. by destruct (c s) as [[a s']| | | |]. Qed.

Lemma wp_bind_iff {A B} (c : km S A) (f : A → km S B) Q s :
  wp (kbind c f) Q s ↔ wp c (λ a s', wp (f a) Q s') s.
Proof. unfold wp, kbind. by destruct (c s) as [[a s']| | | |]. Qed.

Lemma wp_mono {A} (c : km S A) (Q R : A → S → Prop) s :
  wp c Q s → (∀ a s', Q a s' → R a s') → wp c R s.
Proof. unfold wp. destruct (c s) as [[a s']| | | |]; eauto. Qed.

Lemma wp_get (Q : S → S → Prop) s : Q s s → wp kget Q s.
Proof. done. Qed.

Lemma wp_put (Q : unit → S → Prop) s s' : Q tt s' → wp (kput s') Q s.
Proof. done. Qed.

Lemma wp_modify (f : S → S) (Q : unit → S → Prop) s : Q tt (f s) → wp (kmodify f) Q s.
Proof. done. Qed.

Lemma wp_done {A} (c : km S A) (Q : A → S → Prop) s a s' :
  c s = Done (a, s') → Q a s' → wp c Q s.
Proof. unfold wp. by intros ->. Qed.

Lemma wp_elim {A} (c : km S A) (Q : A → S → Prop) s :
  wp c Q s → ∃ a s', c s = Done (a, s') ∧ Q a s'.
Proof. unfold wp. destruct (c s) as [[a s']| | | |]; [eauto|done..]. Qed.

Lemma wp_and {A} (c : km S A) (Q R : A → S → Prop) s :
  wp c Q s → wp c R s → wp c (λ a s', Q a s' ∧ R a s') s.
Proof. unfold wp. destruct (c s) as [[a s']| | | |]; [done|done..]. Qed.

Lemma wp_run {A} (c : km S A) (Q : A → S → Prop) s : wp c Q s → wp c (λ a s', c s = Done (a, s') ∧ Q a s') s.
Proof. unfold wp. by destruct (c s) as [[a s']| | | |]. Qed.

Lemma wpf_bind {A B} (c : km S A) (f : A → km S B) Q F s :
  wp c (λ a s', wpf (f a) Q F s') s → wpf (kbind c f) Q F s.
Proof. unfold wp, wpf, kbind. by destruct (c s) as [[a s']| | | |]. Qed.

Lemma wp_wpf {A} (c : km S A) (Q : A → S → Prop) F s : wp c Q s → wpf c Q F s.
Proof. unfold wp, wpf. by destruct (c s) as [[a s']| | | |]. Qed.

Lemma wpf_mono {A} (c : km S A) (Q R : A → S → Prop) (F F' : Prop) s :
  wpf c Q F s → (∀ a s', Q a s' → R a s') → (F → F') → wpf c R F' s.
Proof. unfold wpf. destruct (c s) as [[a s']| | | |]; eauto. Qed.

Lemma wlp_ret {A} (a : A) (Q : A → S → Prop) s : Q a s → wlp (kret a) Q s.
Proof. done. Qed.

Lemma wlp_bind {A B} (c : km S A) (f : A → km S B) Q s :
  wlp c (λ a s', wlp (f a) Q s') s → wlp (kbind c f) Q s.
Proof. unfold wlp, kbind. by destruct (c s) as [[a s']| | | |]. Qed.

Lemma wlp_mono {A} (c : km S A) (Q R : A → S → Prop) s :
  wlp c Q s → (∀ a s', Q a s' → R a s') → wlp c R s.
Proof. unfold wlp. destruct (c s) as [[a s']| | | |]; eauto. Qed.

Lemma wlp_get (Q : S → S → Prop) s : Q s s → wlp kget Q s.
Proof. done. Qed.

Lemma wlp_modify (f : S → S) (Q : unit → S → Prop) s : Q tt (f s) → wlp (kmodify f) Q s.
Proof. done. Qed.

Lemma wlp_run {A} (c : km S A) (Q : A → S → Prop) s a s' : wlp c Q s → c s = Done (a, s') → Q a s'.
Proof. unfold wlp. intros H Hc. by rewrite Hc in H. Qed.

Lemma wp_wlp {A} (c : km S A) (Q : A → S → Prop) s : wp c Q s → wlp c Q s.
Proof. unfold wp, wlp. by destruct (c s) as [[a s']| | | |]. Qed.

Lemma kbind_done {A B} (c : km S A) (f : A → km S B) s a s' :
  c s = Done (a, s') → kbind c f s = f a s'.
Proof. unfold kbind. by intros ->. Qed.
End wp.

Lemma wp_zoom {S T A} (get : S → T) (put : T → S → S) (c : km T A) Q s :
  wp c (λ a t, Q a (put t s)) (get s) → wp (zoom get put c) Q s.
Proof. unfold wp, zoom. by destruct (c (get s)) as [[a t]| | | |]. Qed.

Create HintDb kernel.
#[export] Hint Resolve wp_ret wp_get wp_put wp_modify : kernel.

(** One symbolic execution step of a [wp] goal. *)
Ltac wp_step :=
  lazymatch goal with
  | |- wp (kbind _ _) _ _ => apply wp_bind
  | |- wp (kret _) _ _ => apply wp_ret
  | |- wp kget _ _ => apply wp_get
  | |- wp (kput _) _ _ => apply wp_put
  | |- wp (kmodify _) _ _ => apply wp_modify
  end; cbn beta.
Ltac wp_steps := repeat wp_step.

(** The same for partial correctness. *)
Ltac wlp_step :=
  lazymatch goal with
  | |- wlp (kbind _ _) _ _ => apply wlp_bind
  | |- wlp (kret _) _ _ => apply wlp_ret
  | |- wlp kget _ _ => apply wlp_get
  | |- wlp (kmodify _) _ _ => apply wlp_modify
  end; cbn beta.
Ltac wlp_steps := repeat wlp_step.

(* ================================================================== *)
(** ** Arrays: lists indexed by machine integers *)

(** [a[i]] for an in-range [i]; [None] models the out-of-bounds access. *)
Definition aget {A} (a : list A) (i : Z) : option A :=
  if i <? 0 then None else a !! Z.to_nat i.
Definition aset {A} (a : list A) (i : Z) (x : A) : list A :=
  if i <? 0 then a else <[Z.to_nat i := x]> a.

Lemma aget_of_nat {A} (l : list A) (i : nat) : aget l i = l !! i.
Proof. unfold aget. destruct (Z.ltb_spec i 0); [lia|]. by rewrite Nat2Z.id. Qed.

Lemma aset_of_nat {A} (l : list A) (i : nat) x : aset l i x = <[i := x]> l.
Proof. unfold aset. destruct (Z.ltb_spec i 0); [lia|]. by rewrite Nat2Z.id. Qed.

Section arrays.
Context {A : Type}.
Implicit Types (a : list A) (x y : A).

Lemma length_aset a i x : length (aset a i x) = length a.
Proof. unfold aset. destruct (i <? 0); [done|apply length_insert]. Qed.

Lemma aget_aset_eq a i x : 0 ≤ i < Z.of_nat (length a) → aget (aset a i x) i = Some x.
Proof.
  intros Hi. unfold aget, aset. destruct (Z.ltb_spec i 0); [lia|].
  apply list_lookup_insert_eq. lia.
Qed.

Lemma aget_aset_ne a i j x : i ≠ j → aget (aset a i x) j = aget a j.
Proof.
  intros Hij. unfold aget, aset. destruct (Z.ltb_spec j 0); [done|].
  destruct (Z.ltb_spec i 0); [done|]. apply list_lookup_insert_ne. lia.
Qed.

Lemma aget_in a i : 0 ≤ i < Z.of_nat (length a) → ∃ x, aget a i = Some x.
Proof.
  intros Hi. unfold aget. destruct (Z.ltb_spec i 0); [lia|].
  apply lookup_lt_is_Some. lia.
Qed.

Lemma aget_Some a i x : aget a i = Some x → 0 ≤ i < Z.of_nat (length a).
Proof.
  unfold aget. destruct (Z.ltb_spec i 0); [done|].
  intros Hl%lookup_lt_Some. lia.
Qed.

Lemma aset_aset a i x y : aset (aset a i x) i y = aset a i y.
Proof. unfold aset. destruct (i <? 0); [done|]. apply list_insert_insert_eq. Qed.

Lemma aset_aget_id a i x : aget a i = Some x → aset a i x = a.
Proof.
  unfold aget, aset. destruct (Z.ltb_spec i 0); [done|]. apply list_insert_id.
Qed.

(** Index of the first element that satisfies [f], as the search loops of the
    tables find it. *)
Fixpoint find_index (f : A → bool) (l : list A) : option nat :=
  match l with
  | [] => None
  | x :: l' => if f x then Some 0%nat else S <$> find_index f l'
  end.

Lemma find_index_Some f l i :
  find_index f l = Some i → ∃ v, l !! i = Some v ∧ f v = true ∧ ∀ j w, (j < i)%nat → l !! j = Some w → f w = false.
Proof.
  revert i. induction l as [|v l IH]; intros i; simpl; [done|]. destruct (f v) eqn:E.
  - intros [= <-]. exists v. split_and!; try done. intros j w Hj. lia.
  - intros (i' & Hi & ->)%fmap_Some. destruct (IH i' Hi) as (w & Hw & Hfw & Hmin).
    exists w. split_and!; try done. intros [|j] u Hj; simpl; [by intros [= <-]|]. apply Hmin. lia.
Qed.

Lemma find_index_None f l i v : find_index f l = None → l !! i = Some v → f v = false.
Proof.
  revert i. induction l as [|w l IH]; intros i; simpl; [done|]. destruct (f w) eqn:E; [done|].
  intros Hn%fmap_None. destruct i as [|i]; simpl; [by intros [= <-]|]. by apply IH.
Qed.
End arrays.
