(* ===== verification/Layout.v ===== *)
(** * The linker's symbols, [src/arch/riscv32/kernel.ld]

    The addresses the linker script defines are parameters of the model;
    [LayoutOk] states what the script guarantees about them. *)

From S2P Require Import Prelude.

Class Layout := {
  (** [__rodata_start], [__rodata_end] *)
  rodata_start : Z; rodata_end : Z;
  (** [__user_text_start], [__user_text_end], ... *)
  user_text_start : Z; user_text_end : Z;
  user_rodata_start : Z; user_rodata_end : Z;
  user_data_start : Z; user_data_end : Z;
  user_bss_start : Z; user_bss_end : Z;
  (** [__free_ram] *)
  free_ram : Z;
}.

(** [. += 32 * 1024 * 1024; __free_ram_end = .;] *)
Definition free_ram_end `{Layout} : Z := free_ram + 32 * 1024 * 1024.

(** The pages between [__free_ram] and [__free_ram_end]. *)
Definition NPAGES : Z := 8192.

(** The sections follow one another in the order of the script, every
    boundary used here is page aligned ([. = ALIGN(4096)]), the image starts
    at [0x80200000], and the image with its 32 MiB of free memory fits in the
    64 MiB at [0x80000000] that [vm_init] maps. *)
Class LayoutOk `{Layout} : Prop := {
  lo_text : 2149580800 ≤ user_text_start ≤ user_text_end;
  lo_rodata : user_text_end ≤ rodata_start;
  lo_user_rodata : rodata_start ≤ user_rodata_start ≤ user_rodata_end;
  lo_rodata_end : user_rodata_end = rodata_end;
  lo_data : rodata_end ≤ user_data_start ≤ user_data_end;
  lo_bss : user_data_end ≤ user_bss_start ≤ user_bss_end;
  lo_free : user_bss_end + 262144 ≤ free_ram;
  lo_fits : free_ram + 32 * 1024 * 1024 ≤ 2214592512;
  lo_aligned : Forall (λ a, a mod 4096 = 0)
    [user_text_start; user_text_end; rodata_start; rodata_end; user_rodata_start;
     user_rodata_end; user_data_start; user_data_end; user_bss_start; user_bss_end; free_ram];
}.

Section facts.
Context {L : Layout} {LOK : LayoutOk}.

Lemma free_ram_aligned : free_ram mod 4096 = 0.
Proof. apply (proj1 (Forall_forall _ _) lo_aligned free_ram). set_solver. Qed.

Lemma free_ram_bounds : 2149580800 + 262144 ≤ free_ram ∧ free_ram_end ≤ 2214592512.
Proof.
  pose proof lo_text. pose proof lo_rodata. pose proof lo_user_rodata.
  pose proof lo_rodata_end. pose proof lo_data. pose proof lo_bss. pose proof lo_free.
  pose proof lo_fits. unfold free_ram_end. lia.
Qed.

Lemma free_ram_end_eq : free_ram_end = free_ram + NPAGES * 4096.
Proof. unfold free_ram_end, NPAGES. lia. Qed.
End facts.

(** A concrete image: 64 KiB of kernel text, one page of user text, no user
    rodata, one page each of user data and bss. *)
Definition demo_layout : Layout := {|
  user_text_start := 2149580800 + 65536; user_text_end := 2149580800 + 69632;
  rodata_start := 2149580800 + 69632; rodata_end := 2149580800 + 77824;
  user_rodata_start := 2149580800 + 77824; user_rodata_end := 2149580800 + 77824;
  user_data_start := 2149580800 + 81920; user_data_end := 2149580800 + 86016;
  user_bss_start := 2149580800 + 110592; user_bss_end := 2149580800 + 114688;
  free_ram := 2149580800 + 409600;
|}.

Lemma demo_layout_ok : @LayoutOk demo_layout.
Proof. split; unfold demo_layout; simpl; try lia. repeat constructor. Qed.
