(* ===== verification/KString.v ===== *)
(** * Byte memory and [lib/string.c]

    Physical memory is a finite map from addresses to bytes; an address
    never written reads as zero.  [memcpy], [memset], [strcpy], [strncpy]
    and [strcmp] are the loops of [src/lib/string.c] over that memory. *)

From S2P Require Import Prelude.

(** ** Memory *)

Abbreviation mem := (gmap Z Z).

(** The byte at [a]; memory cells hold bytes by construction of [rd]. *)
Definition rd (m : mem) (a : Z) : Z := default 0 (m !! a) mod 256.
Definition wr (m : mem) (a v : Z) : mem := <[a := v mod 256]> m.

(** Little-endian 32-bit accesses, as the hart performs them. *)
Definition load32 (m : mem) (a : Z) : Z :=
  rd m a + 256 * rd m (a + 1) + 65536 * rd m (a + 2) + 16777216 * rd m (a + 3).
Definition store32 (m : mem) (a v : Z) : mem :=
  wr (wr (wr (wr m a v) (a + 1) (v / 256)) (a + 2) (v / 65536)) (a + 3) (v / 16777216).

(** ** lib/string.c *)

(** [while (n--) *d++ = *s++;] *)
Fixpoint memcpy_loop (n : nat) (d s : Z) (m : mem) : mem :=
  match n with
  | O => m
  | S n' => memcpy_loop n' (add32 d 1) (add32 s 1) (wr m d (rd m s))
  end.
Definition memcpy (m : mem) (dst src n : Z) : mem := memcpy_loop (Z.to_nat n) dst src m.

(** [while (n--) *p++ = c;] *)
Fixpoint memset_loop (n : nat) (p c : Z) (m : mem) : mem :=
  match n with
  | O => m
  | S n' => memset_loop n' (add32 p 1) c (wr m p c)
  end.
Definition memset (m : mem) (buf c n : Z) : mem := memset_loop (Z.to_nat n) buf c m.

(** [while ( *p++ = *src++) ;]; the fuel bounds the length of the string. *)
Fixpoint strcpy (fuel : nat) (p src : Z) (m : mem) : option mem :=
  match fuel with
  | O => None
  | S fuel' =>
      let c := rd m src in
      let m' := wr m p c in
      if c =? 0 then Some m' else strcpy fuel' (add32 p 1) (add32 src 1) m'
  end.

(** First loop of [strncpy]: [while (n > 0 && ( *p++ = *src++)) n--;].
    Returns the pointer, the remaining count and the memory. *)
Fixpoint strncpy_copy (fuel : nat) (p src n : Z) (m : mem) : option (Z * Z * mem) :=
  match fuel with
  | O => None
  | S fuel' =>
      if n <=? 0 then Some (p, n, m)
      else
        let c := rd m src in
        let m' := wr m p c in
        if c =? 0 then Some (add32 p 1, n, m')
        else strncpy_copy fuel' (add32 p 1) (add32 src 1) (n - 1) m'
  end.
(** Second loop: [while (n > 0) { *p++ = '\0'; n--; }]. *)
Fixpoint strncpy_pad (n : nat) (p : Z) (m : mem) : mem :=
  match n with
  | O => m
  | S n' => strncpy_pad n' (add32 p 1) (wr m p 0)
  end.
(** The first loop runs at most [n] times and tests the guard once more. *)
Definition strncpy (dst src n : Z) (m : mem) : option mem :=
  match strncpy_copy (S (Z.to_nat n)) dst src n m with
  | Some (p, n', m') => Some (strncpy_pad (Z.to_nat n') p m')
  | None => None
  end.

(** [strcmp]: the difference of the first differing bytes. *)
Fixpoint strcmp (fuel : nat) (s1 s2 : Z) (m : mem) : option Z :=
  match fuel with
  | O => None
  | S fuel' =>
      let c1 := rd m s1 in
      let c2 := rd m s2 in
      if negb (c1 =? 0) && negb (c2 =? 0) && (c1 =? c2)
      then strcmp fuel' (add32 s1 1) (add32 s2 1) m
      else Some (c1 - c2)
  end.

(** The bytes [l] are stored at [p] and followed by a NUL. *)
Fixpoint cstring (m : mem) (p : Z) (l : list Z) : Prop :=
  match l with
  | [] => rd m p = 0
  | c :: l' => rd m p = c ∧ c ≠ 0 ∧ cstring m (p + 1) l'
  end.

(** ** Reading back what was written *)
Lemma rd_range m a : 0 ≤ rd m a < 256.
Proof. unfold rd. apply Z.mod_pos_bound. lia. Qed.

Lemma rd_wr_eq m a v : rd (wr m a v) a = v mod 256.
Proof. unfold rd, wr. rewrite lookup_insert_eq. simpl. by rewrite Z.mod_mod by lia. Qed.

Lemma rd_wr_ne m a b v : a ≠ b → rd (wr m a v) b = rd m b.
Proof. intros. unfold rd, wr. by rewrite lookup_insert_ne. Qed.

Lemma rd_wr m a b v : rd (wr m a v) b = if a =? b then v mod 256 else rd m b.
Proof.
  destruct (Z.eqb_spec a b) as [->|]; [apply rd_wr_eq|by apply rd_wr_ne].
Qed.

Lemma rd_mod m a : rd m a mod 256 = rd m a.
Proof. apply Z.mod_small, rd_range. Qed.

Lemma load32_range m a : is_u32 (load32 m a).
Proof.
  unfold load32, is_u32.
  pose proof (rd_range m a). pose proof (rd_range m (a + 1)).
  pose proof (rd_range m (a + 2)). pose proof (rd_range m (a + 3)). lia.
Qed.

Lemma rd_store32 m a v b :
  rd (store32 m a v) b =
  if (a <=? b) && (b <? a + 4) then (v / 256 ^ (b - a)) mod 256 else rd m b.
Proof.
  unfold store32. rewrite !rd_wr. zcases; subst.
  - by replace (a + 3 - a) with 3 by lia.
  - by replace (a + 2 - a) with 2 by lia.
  - by replace (a + 1 - a) with 1 by lia.
  - replace (b - b) with 0 by lia. by rewrite Z.pow_0_r, Z.div_1_r.
  - done.
  - done.
Qed.

Lemma load32_store32_eq m a v : is_u32 v → load32 (store32 m a v) a = v.
Proof.
  unfold is_u32. intros Hv. unfold load32. rewrite !rd_store32.
  repeat (rewrite (proj2 (Z.leb_le _ _)), (proj2 (Z.ltb_lt _ _)) by lia; simpl).
  replace (a - a) with 0 by lia. replace (a + 1 - a) with 1 by lia.
  replace (a + 2 - a) with 2 by lia. replace (a + 3 - a) with 3 by lia.
  change (256 ^ 0) with 1. change (256 ^ 1) with 256.
  change (256 ^ 2) with 65536. change (256 ^ 3) with 16777216.
  Z.div_mod_to_equations. lia.
Qed.

Lemma load32_ext m m' a :
  (∀ b, a ≤ b < a + 4 → rd m' b = rd m b) → load32 m' a = load32 m a.
Proof. intros He. unfold load32. by rewrite !He by lia. Qed.

(** The same four bytes at another place. *)
Lemma load32_shift m m' a a' :
  (∀ b, 0 ≤ b < 4 → rd m' (a' + b) = rd m (a + b)) → load32 m' a' = load32 m a.
Proof.
  intros He. pose proof (He 0) as H0. rewrite !Z.add_0_r in H0.
  unfold load32. by rewrite H0, !He by lia.
Qed.

Lemma load32_store32_ne m a b v :
  a + 4 ≤ b ∨ b + 4 ≤ a → load32 (store32 m a v) b = load32 m b.
Proof.
  intros Hab. apply load32_ext. intros c Hc. rewrite rd_store32.
  destruct (Z.leb_spec a c), (Z.ltb_spec c (a + 4)); simpl; (lia || done).
Qed.

(** ** The copy and fill loops *)
Lemma memset_rd m buf c n a :
  0 ≤ buf → 0 ≤ n → buf + n ≤ 4294967296 →
  rd (memset m buf c n) a =
  if (buf <=? a) && (a <? buf + n) then c mod 256 else rd m a.
Proof.
  unfold memset. intros Hb Hn He. rewrite <-(Z2Nat.id n) in He |- * by done.
  rewrite Nat2Z.id. generalize dependent (Z.to_nat n). clear Hn n.
  intros n. revert buf m Hb. induction n as [|n IH]; intros buf m Hb He; simpl.
  - zcases; done.
  - destruct (decide (n = 0%nat)) as [->|].
    + simpl. rewrite rd_wr. zcases; done.
    + rewrite add32_small by lia. rewrite IH by lia. rewrite rd_wr. zcases; done.
Qed.

(** A forward copy is right when the regions do not overlap, and also when
    the destination starts below the source. *)
Lemma memcpy_rd m dst src n a :
  0 ≤ dst → 0 ≤ src → 0 ≤ n → dst + n ≤ 4294967296 → src + n ≤ 4294967296 →
  dst ≤ src ∨ src + n ≤ dst →
  rd (memcpy m dst src n) a =
  if (dst <=? a) && (a <? dst + n) then rd m (src + (a - dst)) else rd m a.
Proof.
  unfold memcpy. intros Hd Hs Hn Hde Hse Hov.
  rewrite <-(Z2Nat.id n) in Hde, Hse, Hov |- * by done.
  rewrite Nat2Z.id. generalize dependent (Z.to_nat n). clear Hn n.
  intros n. revert dst src m Hd Hs.
  induction n as [|n IH]; intros dst src m Hd Hs Hde Hse Hov; simpl.
  - zcases; done.
  - destruct (decide (n = 0%nat)) as [->|].
    + simpl. rewrite rd_wr. zcases; rewrite ?rd_mod; try done; f_equal; lia.
    + rewrite !add32_small by lia. rewrite IH by lia. rewrite !rd_wr, !rd_mod.
      zcases; subst; try done; f_equal; lia.
Qed.

(** ** Strings *)
Lemma cstring_ext m m' p l :
  cstring m p l → (∀ a, p ≤ a ≤ p + length l → rd m' a = rd m a) → cstring m' p l.
Proof.
  revert p. induction l as [|c l IH]; intros p; simpl.
  - intros <- He. apply He. lia.
  - intros (Hc & Hn & Hl) He. split_and!; [|done|].
    + by rewrite He by lia.
    + apply IH; [done|]. intros a Ha. apply He. lia.
Qed.

Lemma cstring_shift m m' p p' l :
  cstring m p l → (∀ i, 0 ≤ i ≤ length l → rd m' (p' + i) = rd m (p + i)) → cstring m' p' l.
Proof.
  revert p p'. induction l as [|c l IH]; intros p p'; simpl.
  - intros Hp He. specialize (He 0). rewrite !Z.add_0_r in He. rewrite He by lia. done.
  - intros (Hc & Hn & Hl) He. split_and!; [|done|].
    + specialize (He 0). rewrite !Z.add_0_r in He. rewrite He by lia. done.
    + apply (IH (p + 1)); [done|]. intros i Hi. rewrite <-!Z.add_assoc. apply He. lia.
Qed.

Lemma cstring_rd m p l i :
  cstring m p l → 0 ≤ i < length l → rd m (p + i) ≠ 0.
Proof.
  revert p i. induction l as [|c l IH]; intros p i; simpl; [lia|].
  intros (Hc & Hn & Hl) Hi. destruct (decide (i = 0)) as [->|].
  - by rewrite Z.add_0_r, Hc.
  - replace (p + i) with (p + 1 + (i - 1)) by lia. apply IH; [done|lia].
Qed.

Lemma cstring_end m p l : cstring m p l → rd m (p + length l) = 0.
Proof.
  revert p. induction l as [|c l IH]; intros p; simpl.
  - by rewrite Z.add_0_r.
  - intros (_ & _ & Hl). replace (p + S (length l)) with (p + 1 + length l) by lia. by apply IH.
Qed.

Lemma strncpy_pad_rd n p m a :
  0 ≤ p → p + Z.of_nat n ≤ 4294967296 →
  rd (strncpy_pad n p m) a = if (p <=? a) && (a <? p + n) then 0 else rd m a.
Proof.
  revert p m. induction n as [|n IH]; intros p m Hp He; simpl.
  - zcases; done.
  - destruct (decide (n = 0%nat)) as [->|].
    + simpl. rewrite rd_wr. zcases; done.
    + rewrite add32_small by lia. rewrite IH by lia. rewrite rd_wr. zcases; done.
Qed.

(** Bytes [dst, dst + k) of [m'] are the bytes at [src] of [m]; the rest is
    unchanged. *)
Definition copied (m m' : mem) (dst src k : Z) : Prop :=
  ∀ a, rd m' a = if (dst <=? a) && (a <? dst + k) then rd m (src + (a - dst)) else rd m a.

Lemma copied_cons m m' m1 dst src k :
  0 ≤ k → dst + k < src ∨ src + k < dst →
  m1 = wr m dst (rd m src) → copied m1 m' (dst + 1) (src + 1) k → copied m m' dst src (k + 1).
Proof.
  intros Hk Hov -> Hc a. rewrite Hc, !rd_wr, !rd_mod. zcases; subst; try done; f_equal; lia.
Qed.

Lemma strncpy_copy_spec l : ∀ fuel dst src n m,
  cstring m src l → 0 ≤ dst → 0 ≤ src → 0 ≤ n →
  dst + n < 4294967296 → src + length l < 4294967296 →
  dst + n < src ∨ src + length l < dst →
  (Z.to_nat n < fuel)%nat →
  ∃ m', strncpy_copy fuel dst src n m =
          Some (if length l <? n then (dst + length l + 1, n - length l, m')
                else (dst + n, 0, m')) ∧
        copied m m' dst src (Z.min n (length l + 1)).
Proof.
  induction l as [|c l IH]; intros fuel dst src n m Hs Hd Hsr Hn Hde Hse Hov Hf;
    destruct fuel as [|fuel]; simpl in *; try lia.
  - destruct (Z.leb_spec n 0) as [Hn0|Hn0].
    + exists m. split; [zcases; do 3 f_equal; lia|].
      intros a. zcases; done.
    + rewrite Hs. simpl. exists (wr m dst 0). split.
      * rewrite add32_small by lia. zcases. do 3 f_equal; lia.
      * intros a. rewrite rd_wr. zcases; subst; try done.
        by replace (src + (a - a)) with src by lia.
  - destruct Hs as (Hc & Hc0 & Hs). destruct (Z.leb_spec n 0) as [Hn0|Hn0].
    + exists m. split; [zcases; do 3 f_equal; lia|]. intros a. zcases; done.
    + destruct (Z.eqb_spec (rd m src) 0) as [|_]; [congruence|].
      rewrite !add32_small by lia.
      destruct (IH fuel (dst + 1) (src + 1) (n - 1) (wr m dst (rd m src)))
        as (m' & Heq & Hm'); try lia.
      { apply cstring_ext with m; [done|]. intros a Ha. apply rd_wr_ne. lia. }
      exists m'. rewrite Heq. split.
      * zcases; do 3 f_equal; lia.
      * replace (Z.min n (S (length l) + 1)) with (Z.min (n - 1) (length l + 1) + 1) by lia.
        eapply copied_cons; [lia|lia|done|done].
Qed.

(** What [strncpy] writes: the string, the padding, and one more byte. *)
Lemma strncpy_spec m dst src n l :
  cstring m src l → 0 ≤ dst → 0 ≤ src → 0 ≤ n →
  dst + n < 4294967296 → src + length l < 4294967296 →
  dst + n < src ∨ src + length l < dst →
  ∃ m', strncpy dst src n m = Some m' ∧
    ∀ a, rd m' a =
      if (dst <=? a) && (a <? dst + Z.min n (length l)) then rd m (src + (a - dst))
      else if (length l <? n) && (dst + length l <=? a) && (a <=? dst + n) then 0
      else rd m a.
Proof.
  intros Hs Hd Hsr Hn Hde Hse Hov. unfold strncpy.
  destruct (strncpy_copy_spec l (S (Z.to_nat n)) dst src n m) as (m' & -> & Hm'); try done; [lia|].
  pose proof (cstring_end _ _ _ Hs) as He.
  destruct (Z.ltb_spec (length l) n) as [Hlt|Hge].
  - eexists. split; [done|]. intros a. rewrite strncpy_pad_rd by lia. rewrite Hm'.
    zcases; try done. subst.
    replace a with (dst + length l) by lia.
    by replace (src + (dst + length l - dst)) with (src + length l) by lia.
  - exists m'. split; [done|]. intros a. rewrite Hm'. zcases; done.
Qed.

Lemma strcpy_spec l : ∀ fuel dst src m,
  cstring m src l → 0 ≤ dst → 0 ≤ src →
  dst + length l < 4294967296 → src + length l < 4294967296 →
  dst + length l < src ∨ src + length l < dst → (length l < fuel)%nat →
  ∃ m', strcpy fuel dst src m = Some m' ∧ copied m m' dst src (length l + 1).
Proof.
  induction l as [|c l IH]; intros fuel dst src m Hs Hd Hsr Hde Hse Hov Hf;
    destruct fuel as [|fuel]; simpl in *; try lia.
  - rewrite Hs. simpl. eexists. split; [done|]. intros a. rewrite rd_wr.
    zcases; subst; try done. by replace (src + (a - a)) with src by lia.
  - destruct Hs as (Hc & Hc0 & Hs).
    destruct (Z.eqb_spec (rd m src) 0) as [|_]; [congruence|].
    rewrite !add32_small by lia.
    destruct (IH fuel (dst + 1) (src + 1) (wr m dst (rd m src))) as (m' & Heq & Hm'); try lia.
    { apply cstring_ext with m; [done|]. intros a Ha. apply rd_wr_ne. lia. }
    exists m'. split; [done|].
    replace (S (length l) + 1) with (length l + 1 + 1) by lia.
    eapply copied_cons; [lia|lia|done|done].
Qed.

Lemma strcmp_spec l1 : ∀ l2 fuel p1 p2 m,
  cstring m p1 l1 → cstring m p2 l2 → 0 ≤ p1 → 0 ≤ p2 →
  p1 + length l1 < 4294967296 → p2 + length l2 < 4294967296 → (length l1 < fuel)%nat →
  ∃ r, strcmp fuel p1 p2 m = Some r ∧ (r = 0 ↔ l1 = l2).
Proof.
  induction l1 as [|c1 l1 IH]; intros l2 fuel p1 p2 m H1 H2 Hp1 Hp2 Hb1 Hb2 Hf;
    destruct fuel as [|fuel]; simpl in *; try lia.
  - rewrite H1. simpl. eexists. split; [done|]. destruct l2 as [|c2 l2]; simpl in *.
    + split; [done|lia].
    + destruct H2 as (-> & Hn & _). split; [lia|done].
  - destruct H1 as (Hc1 & Hn1 & H1). destruct (Z.eqb_spec (rd m p1) 0); [congruence|]. simpl.
    destruct l2 as [|c2 l2]; simpl in *.
    + rewrite H2. simpl. eexists. split; [done|]. split; [lia|done].
    + destruct H2 as (Hc2 & Hn2 & H2). destruct (Z.eqb_spec (rd m p2) 0); [congruence|]. simpl.
      destruct (Z.eqb_spec (rd m p1) (rd m p2)) as [He|He].
      * rewrite !add32_small by lia.
        destruct (IH l2 fuel (p1 + 1) (p2 + 1) m) as (r & -> & Hr); try done; try lia.
        eexists. split; [done|]. rewrite Hr. split; [congruence|by intros [= _ ->]].
      * eexists. split; [done|]. split; [lia|]. intros [= ]. congruence.
Qed.

(** ** The theorems *)

(** [strncpy] of a string shorter than [n] writes [n + 1] bytes: the string,
    zeros up to [dst + n - 1], and one more zero at [dst + n], outside the
    array of [n] bytes the caller passed; a string of [n] or more bytes is
    cut to [n] bytes with no terminator.  Nothing else is written. *)
Theorem strncpy_writes m dst src n l :
  cstring m src l → 0 ≤ dst → 0 ≤ src → 0 ≤ n →
  dst + n < 4294967296 → src + length l < 4294967296 →
  dst + n < src ∨ src + length l < dst →
  ∃ m', strncpy dst src n m = Some m' ∧
    (∀ a, dst ≤ a < dst + Z.min n (length l) → rd m' a = rd m (src + (a - dst))) ∧
    (length l < n → ∀ a, dst + length l ≤ a ≤ dst + n → rd m' a = 0) ∧
    (∀ a, ¬ (dst ≤ a < dst + n) → (a = dst + n → n ≤ length l) → rd m' a = rd m a).
Proof.
  intros Hs Hd Hsr Hn Hde Hse Hov. destruct (strncpy_spec m dst src n l) as (m' & Hrun & Hm'); try done.
  exists m'. split; [done|]. split_and!; intros; rewrite Hm'; zcases; done.
Qed.

(** [strcpy] returns, and leaves at the destination the string that was at
    the source, so that [strcmp] of the two is 0, changing nothing outside its
    [strlen + 1] bytes. *)
Theorem strcpy_strcmp_roundtrip m dst src l fuel :
  cstring m src l → 0 ≤ dst → 0 ≤ src →
  dst + length l < 4294967296 → src + length l < 4294967296 →
  dst + length l < src ∨ src + length l < dst → (length l < fuel)%nat →
  ∃ m', strcpy fuel dst src m = Some m' ∧ cstring m' dst l ∧ strcmp fuel dst src m' = Some 0 ∧
    ∀ a, ¬ (dst ≤ a ≤ dst + length l) → rd m' a = rd m a.
Proof.
  intros Hs Hd Hsr Hde Hse Hov Hf.
  destruct (strcpy_spec l fuel dst src m) as (m' & Hrun & Hc); try done.
  assert (Hd' : cstring m' dst l).
  { apply (cstring_shift m m' src dst); [done|]. intros i Hi. rewrite Hc. zcases; [f_equal; lia|lia..]. }
  assert (Hs' : cstring m' src l).
  { apply (cstring_ext m); [done|]. intros a Ha. rewrite Hc. zcases; done. }
  exists m'. split_and!; try done.
  - destruct (strcmp_spec l l fuel dst src m') as (r & -> & Hr); try done. f_equal. by apply Hr.
  - intros a Ha. rewrite Hc. zcases; done.
Qed.

(** ** Concrete instances *)

(** The string [OK] at address 100. *)
Definition demo_string : mem := wr (wr (wr ∅ 100 79) 101 75) 102 0.

Lemma strncpy_writes_witness :
  ∃ m', strncpy 200 100 4 demo_string = Some m' ∧
    (∀ a, 200 ≤ a < 200 + Z.min 4 (length [79; 75]) → rd m' a = rd demo_string (100 + (a - 200))) ∧
    (length [79; 75] < 4 → ∀ a, 200 + length [79; 75] ≤ a ≤ 200 + 4 → rd m' a = 0) ∧
    (∀ a, ¬ (200 ≤ a < 200 + 4) → (a = 200 + 4 → 4 ≤ length [79; 75]) → rd m' a = rd demo_string a).
Proof. apply strncpy_writes; simpl; try lia. by vm_compute. Defined.

Lemma strcpy_strcmp_roundtrip_witness :
  ∃ m', strcpy 3 200 100 demo_string = Some m' ∧ cstring m' 200 [79; 75] ∧ strcmp 3 200 100 m' = Some 0 ∧
    ∀ a, ¬ (200 ≤ a ≤ 200 + length [79; 75]) → rd m' a = rd demo_string a.
Proof. apply strcpy_strcmp_roundtrip; simpl; try lia. by vm_compute. Defined.
