(* ===== verification/PageAlloc.v ===== *)
(** * The physical page allocator, [src/mm/page_alloc.c] *)

From S2P Require Import Prelude Layout KString.

(** [struct page_run]: a maximal run of free pages, linked by [next]; a null
    pointer is 0. *)
Record page_run := PageRun { base : Z; pages : Z; next : Z }.

(** [sizeof(struct page_run)] on riscv32. *)
Definition SIZEOF_PAGE_RUN : Z := 12.

(** The allocator's globals.  [run_heap] holds the [page_run] objects carved
    from the metadata area at the top of free memory, by address;
    [page_refcnt] is the [uint16_t] array placed above them, and [pmem] is the
    memory of the page frames themselves. *)
Record alloc_state := AllocState {
  run_heap : gmap Z page_run;
  free_runs : Z;
  free_meta_nodes : Z;
  next_paddr : Z;
  meta_top : Z;
  allocator_initialized : bool;
  alloc_lock : Z;
  page_refcnt : list Z;
  managed_page_count : Z;
  free_meta_oom_warned : Z;
  pmem : mem;
}.

Definition set_run_heap v s := AllocState v (free_runs s) (free_meta_nodes s) (next_paddr s)
  (meta_top s) (allocator_initialized s) (alloc_lock s) (page_refcnt s) (managed_page_count s)
  (free_meta_oom_warned s) (pmem s).
Definition set_free_runs v s := AllocState (run_heap s) v (free_meta_nodes s) (next_paddr s)
  (meta_top s) (allocator_initialized s) (alloc_lock s) (page_refcnt s) (managed_page_count s)
  (free_meta_oom_warned s) (pmem s).
Definition set_free_meta_nodes v s := AllocState (run_heap s) (free_runs s) v (next_paddr s)
  (meta_top s) (allocator_initialized s) (alloc_lock s) (page_refcnt s) (managed_page_count s)
  (free_meta_oom_warned s) (pmem s).
Definition set_next_paddr v s := AllocState (run_heap s) (free_runs s) (free_meta_nodes s) v
  (meta_top s) (allocator_initialized s) (alloc_lock s) (page_refcnt s) (managed_page_count s)
  (free_meta_oom_warned s) (pmem s).
Definition set_meta_top v s := AllocState (run_heap s) (free_runs s) (free_meta_nodes s)
  (next_paddr s) v (allocator_initialized s) (alloc_lock s) (page_refcnt s)
  (managed_page_count s) (free_meta_oom_warned s) (pmem s).
Definition set_alloc_lock v s := AllocState (run_heap s) (free_runs s) (free_meta_nodes s)
  (next_paddr s) (meta_top s) (allocator_initialized s) v (page_refcnt s)
  (managed_page_count s) (free_meta_oom_warned s) (pmem s).
Definition set_page_refcnt v s := AllocState (run_heap s) (free_runs s) (free_meta_nodes s)
  (next_paddr s) (meta_top s) (allocator_initialized s) (alloc_lock s) v
  (managed_page_count s) (free_meta_oom_warned s) (pmem s).
Definition set_oom_warned v s := AllocState (run_heap s) (free_runs s) (free_meta_nodes s)
  (next_paddr s) (meta_top s) (allocator_initialized s) (alloc_lock s) (page_refcnt s)
  (managed_page_count s) v (pmem s).
Definition set_pmem v s := AllocState (run_heap s) (free_runs s) (free_meta_nodes s)
  (next_paddr s) (meta_top s) (allocator_initialized s) (alloc_lock s) (page_refcnt s)
  (managed_page_count s) (free_meta_oom_warned s) v.

(** The zeroed [.bss] and the static initialisers. *)
Definition boot_alloc_state `{Layout} (m : mem) : alloc_state :=
  AllocState ∅ 0 0 free_ram free_ram_end false 0 [] 0 0 m.

Abbreviation AM := (km alloc_state).

Section ops.
Context {L : Layout}.

(** [spin_lock(&alloc_lock)]: with the lock held the loop never ends. *)
Definition spin_lock : AM unit := λ s,
  if alloc_lock s =? 0 then Done (tt, set_alloc_lock 1 s) else Spin.
Definition spin_unlock : AM unit := kmodify (set_alloc_lock 0).

(** [p->...] reads and writes through a [struct page_run *]. *)
Definition load_run (p : Z) : AM page_run := λ s,
  match run_heap s !! p with Some r => Done (r, s) | None => Fault end.
Definition store_run (p : Z) (r : page_run) : AM unit := λ s,
  match run_heap s !! p with
  | Some _ => Done (tt, set_run_heap (<[p := r]> (run_heap s)) s)
  | None => Fault
  end.

(** Nothing is reachable from the two null list heads, so the metadata heap
    restarts empty. *)
Definition init_allocator_if_needed : AM Z := λ s,
  if allocator_initialized s then Done (0, s)
  else
    let count := sub32 free_ram_end free_ram / PAGE_SIZE in
    let ref_bytes := mul32 count 2 in
    let ref_top := Z.land (sub32 free_ram_end ref_bytes) (not32 3) in
    if ref_top <=? free_ram then
      Done (-1, AllocState ∅ 0 0 free_ram free_ram_end false (alloc_lock s) (page_refcnt s)
                  count (free_meta_oom_warned s) (pmem s))
    else
      Done (0, AllocState ∅ 0 0 free_ram ref_top true (alloc_lock s)
                 (replicate (Z.to_nat count) 0) count (free_meta_oom_warned s) (pmem s)).

(** The index of a managed page, [None] where the source returns 0. *)
Definition page_idx_if_managed (s : alloc_state) (paddr : Z) : option Z :=
  if (paddr <? free_ram) || (free_ram_end <=? paddr) then None
  else if negb (is_aligned paddr PAGE_SIZE) then None
  else
    let idx := sub32 paddr free_ram / PAGE_SIZE in
    if managed_page_count s <=? idx then None else Some idx.

(** Returns 0 for NULL. *)
Definition alloc_run_node : AM Z :=
  let! s := kget in
  if negb (free_meta_nodes s =? 0) then
    let n := free_meta_nodes s in
    let! r := load_run n in
    do! kmodify (set_free_meta_nodes (next r)) in
    do! store_run n (PageRun (base r) (pages r) 0) in
    kret n
  else
    let new_top := Z.land (sub32 (meta_top s) SIZEOF_PAGE_RUN) (not32 3) in
    if new_top <=? next_paddr s then kret 0
    else
      do! kmodify (set_meta_top new_top) in
      do! kmodify (λ s, set_run_heap (<[new_top := PageRun 0 0 0]> (run_heap s)) s) in
      kret new_top.

Definition release_run_node (node : Z) : AM unit :=
  let! s := kget in
  do! store_run node (PageRun 0 0 (free_meta_nodes s)) in
  kmodify (set_free_meta_nodes node).

(** The loop of [coalesce_free_runs]; each iteration merges a node away or
    advances, so the number of nodes bounds it. *)
Fixpoint coalesce_loop (fuel : nat) (cur : Z) : AM unit :=
  match fuel with
  | O => knofuel
  | S fuel' =>
      if cur =? 0 then kret tt
      else
        let! c := load_run cur in
        if next c =? 0 then kret tt
        else
          let! merged := load_run (next c) in
          let cur_end := add32 (base c) (mul32 (pages c) PAGE_SIZE) in
          if cur_end =? base merged then
            do! store_run cur (PageRun (base c) (add32 (pages c) (pages merged)) (next merged)) in
            do! release_run_node (next c) in
            coalesce_loop fuel' cur
          else coalesce_loop fuel' (next c)
  end.
Definition list_fuel (s : alloc_state) : nat := S (size (run_heap s)).
Definition coalesce_free_runs : AM unit :=
  let! s := kget in coalesce_loop (list_fuel s) (free_runs s).

(** [while (cur->next && cur->next->base < paddr) cur = cur->next;] *)
Fixpoint find_run_before (fuel : nat) (cur paddr : Z) : AM Z :=
  match fuel with
  | O => knofuel
  | S fuel' =>
      let! c := load_run cur in
      if next c =? 0 then kret cur
      else
        let! n := load_run (next c) in
        if base n <? paddr then find_run_before fuel' (next c) paddr else kret cur
  end.

Definition OVERLAP : string := "free_pages: overlap/double free".

(** The node taken for a single page: [node->base = paddr; node->pages = 1;
    node->next = nxt;]. *)
Definition fill_run_node (node paddr nxt : Z) : AM unit := store_run node (PageRun paddr 1 nxt).

Definition free_single_page_raw (paddr : Z) : AM Z :=
  let end_ := paddr + PAGE_SIZE in
  let! s := kget in
  if free_runs s =? 0 then
    let! node := alloc_run_node in
    if node =? 0 then kret (-1)
    else
      do! fill_run_node node paddr 0 in
      do! kmodify (set_free_runs node) in
      kret 0
  else
    let! head := load_run (free_runs s) in
    if paddr <? base head then
      if base head <? end_ then kpanic OVERLAP
      else if end_ =? base head then
        do! store_run (free_runs s) (PageRun paddr (add32 (pages head) 1) (next head)) in
        kret 0
      else
        let! node := alloc_run_node in
        if node =? 0 then kret (-1)
        else
          do! fill_run_node node paddr (free_runs s) in
          do! kmodify (set_free_runs node) in
          kret 0
    else
      let! cur := find_run_before (list_fuel s) (free_runs s) paddr in
      let! c := load_run cur in
      let cur_end := base c + pages c * PAGE_SIZE in
      if paddr <? cur_end then kpanic OVERLAP
      else
        let! nxt := (if next c =? 0 then kret None
                     else let! n := load_run (next c) in kret (Some n)) in
        if (match nxt with Some n => base n <? end_ | None => false end) then kpanic OVERLAP
        else if cur_end =? paddr then
          let c1 := PageRun (base c) (add32 (pages c) 1) (next c) in
          do! store_run cur c1 in
          match nxt with
          | Some n =>
              if base c1 + pages c1 * PAGE_SIZE =? base n then
                do! store_run cur (PageRun (base c1) (add32 (pages c1) (pages n)) (next n)) in
                do! release_run_node (next c) in
                kret 0
              else kret 0
          | None => kret 0
          end
        else if (match nxt with Some n => end_ =? base n | None => false end) then
          match nxt with
          | Some n =>
              do! store_run (next c) (PageRun paddr (add32 (pages n) 1) (next n)) in
              kret 0
          | None => kret 0
          end
        else
          let! node := alloc_run_node in
          if node =? 0 then kret (-1)
          else
            do! fill_run_node node paddr (next c) in
            do! store_run cur (PageRun (base c) (pages c) node) in
            do! coalesce_free_runs in
            kret 0.

(** First fit: the first run with enough pages, with its predecessor. *)
Fixpoint find_fit (fuel : nat) (prev cur n : Z) : AM (option (Z * Z)) :=
  match fuel with
  | O => knofuel
  | S fuel' =>
      if cur =? 0 then kret None
      else
        let! c := load_run cur in
        if n <=? pages c then kret (Some (prev, cur)) else find_fit fuel' cur (next c) n
  end.

(** [for (i = 0; i < n; i++) if (page_idx_if_managed(paddr + i * PAGE_SIZE, &idx))
    page_refcnt[idx] = 1;] *)
Fixpoint mark_allocated (k : nat) (i paddr : Z) (s : alloc_state) : alloc_state :=
  match k with
  | O => s
  | S k' =>
      let s' := match page_idx_if_managed s (add32 paddr (mul32 i PAGE_SIZE)) with
                | Some idx => set_page_refcnt (aset (page_refcnt s) idx 1) s
                | None => s
                end in
      mark_allocated k' (i + 1) paddr s'
  end.

(** [memset((void * ) paddr, 0, n * PAGE_SIZE)] and the loop above, then unlock. *)
Definition finish_alloc (paddr n : Z) : AM Z :=
  do! kmodify (λ s, set_pmem (memset (pmem s) paddr 0 (mul32 n PAGE_SIZE)) s) in
  do! kmodify (mark_allocated (Z.to_nat n) 0 paddr) in
  do! spin_unlock in
  kret paddr.

Definition alloc_pages_try (n : Z) : AM Z :=
  do! spin_lock in
  let! rc := init_allocator_if_needed in
  if rc <? 0 then do! spin_unlock in kret 0
  else if n =? 0 then do! spin_unlock in kret 0
  else
    let! s := kget in
    let! found := find_fit (list_fuel s) 0 (free_runs s) n in
    match found with
    | Some (prev, cur) =>
        let! c := load_run cur in
        let paddr := base c in
        let c1 := PageRun (add32 (base c) (mul32 n PAGE_SIZE)) (sub32 (pages c) n) (next c) in
        do! store_run cur c1 in
        do! (if pages c1 =? 0 then
               do! (if negb (prev =? 0) then
                      let! p := load_run prev in
                      store_run prev (PageRun (base p) (pages p) (next c1))
                    else kmodify (set_free_runs (next c1))) in
               release_run_node cur
             else kret tt) in
        finish_alloc paddr n
    | None =>
        let paddr := next_paddr s in
        let new_next := add32 (next_paddr s) (mul32 n PAGE_SIZE) in
        if (meta_top s <? new_next) || (new_next <? next_paddr s) then
          do! spin_unlock in kret 0
        else
          do! kmodify (set_next_paddr new_next) in
          finish_alloc paddr n
    end.

Definition alloc_pages (n : Z) : AM Z := alloc_pages_try n.

(** The page whose count reached zero goes back to the free runs; when no
    metadata node is left it is kept with one reference. *)
Definition drop_last_ref (idx paddr : Z) : AM unit :=
  let! rc := free_single_page_raw paddr in
  if rc <? 0 then
    do! kmodify (λ s, set_page_refcnt (aset (page_refcnt s) idx 1) s) in
    kmodify (λ s, if free_meta_oom_warned s =? 0 then set_oom_warned 1 s else s)
  else kret tt.

(** [page_refcnt[idx]--] and what follows it in [free_pages] and [page_dec_ref]. *)
Definition dec_and_release (idx paddr : Z) : AM unit :=
  let! s := kget in
  match aget (page_refcnt s) idx with
  | None => kfault
  | Some c =>
      let c' := (c - 1) mod 65536 in
      do! kmodify (λ s, set_page_refcnt (aset (page_refcnt s) idx c') s) in
      if c' =? 0 then drop_last_ref idx paddr else kret tt
  end.

(** The loop of [free_pages]: [k] pages left, the [i]-th one next. *)
Fixpoint free_pages_loop (k : nat) (i paddr : Z) : AM unit :=
  match k with
  | O => kret tt
  | S k' =>
      let cur := add32 paddr (mul32 i PAGE_SIZE) in
      let! s := kget in
      match page_idx_if_managed s cur with
      | None => free_pages_loop k' (i + 1) paddr
      | Some idx =>
          match aget (page_refcnt s) idx with
          | None => kfault
          | Some c =>
              if c =? 0 then do! spin_unlock in kpanic "free_pages: double free"
              else
                do! dec_and_release idx cur in
                free_pages_loop k' (i + 1) paddr
          end
      end
  end.

Definition free_pages (paddr n : Z) : AM unit :=
  do! spin_lock in
  let! rc := init_allocator_if_needed in
  if rc <? 0 then do! spin_unlock in kpanic "allocator unavailable"
  else if n =? 0 then do! spin_unlock in kpanic "free_pages: n must be > 0"
  else if negb (is_aligned paddr PAGE_SIZE) then
    do! spin_unlock in kpanic "free_pages: paddr must be page aligned"
  else
    let end_ := paddr + n * PAGE_SIZE in
    if (paddr <? free_ram) || (free_ram_end <? end_) then
      do! spin_unlock in kpanic "free_pages: out of managed range"
    else
      do! free_pages_loop (Z.to_nat n) 0 paddr in
      spin_unlock.

Definition page_inc_ref (paddr : Z) : AM unit :=
  do! spin_lock in
  let! rc := init_allocator_if_needed in
  if rc <? 0 then do! spin_unlock in kpanic "allocator unavailable"
  else
    let! s := kget in
    match page_idx_if_managed s paddr with
    | None => spin_unlock
    | Some idx =>
        match aget (page_refcnt s) idx with
        | None => kfault
        | Some c =>
            if c =? 0 then do! spin_unlock in kpanic "page_inc_ref on free page"
            else
              do! kmodify (λ s, set_page_refcnt (aset (page_refcnt s) idx ((c + 1) mod 65536)) s) in
              spin_unlock
        end
    end.

Definition page_dec_ref (paddr : Z) : AM unit :=
  do! spin_lock in
  let! rc := init_allocator_if_needed in
  if rc <? 0 then do! spin_unlock in kpanic "allocator unavailable"
  else
    let! s := kget in
    match page_idx_if_managed s paddr with
    | None => spin_unlock
    | Some idx =>
        match aget (page_refcnt s) idx with
        | None => kfault
        | Some c =>
            if c =? 0 then do! spin_unlock in kpanic "page_dec_ref on free page"
            else
              do! dec_and_release idx paddr in
              spin_unlock
        end
    end.

End ops.
