(* ===== verification/PageAllocInv.v ===== *)
(** * Correctness of the page allocator

    The free runs and the recycled metadata nodes are linked lists in
    [run_heap]; [run_seg] relates a chain of pointers to the list of nodes it
    represents.  [runs_inv] is the structural invariant of the allocator and
    [alloc_inv] adds the meaning of the reference counts: a page has count
    zero exactly when it is free. *)

From S2P Require Import Prelude Layout KString PageAlloc.

(** A node as the list sees it: address, base, number of pages. *)
Abbreviation node := (Z * Z * Z)%type.
Definition node_addr (x : node) : Z := x.1.1.
Abbreviation addrs l := (node_addr <$> l).
Definition meta_node (a : Z) : node := (a, 0, 0).

Fixpoint run_seg (h : gmap Z page_run) (p : Z) (l : list node) (q : Z) : Prop :=
  match l with
  | [] => p = q
  | (a, b, n) :: l' => p = a ∧ a ≠ 0 ∧ ∃ nx, h !! a = Some (PageRun b n nx) ∧ run_seg h nx l' q
  end.

(** Runs in increasing order, page aligned, not empty, inside [lo, hi), and
    with a gap between neighbours: adjacent runs are always merged. *)
Fixpoint runs_ok (lo hi : Z) (l : list node) : Prop :=
  match l with
  | [] => True
  | (_, b, n) :: l' =>
      lo ≤ b ∧ b mod 4096 = 0 ∧ 0 < n ∧ b + n * 4096 ≤ hi ∧ runs_ok (b + n * 4096 + 1) hi l'
  end.
Fixpoint runs_end (lo : Z) (l : list node) : Z :=
  match l with [] => lo | (_, b, n) :: l' => runs_end (b + n * 4096 + 1) l' end.

(** The addresses covered by the runs. *)
Fixpoint in_runs (l : list node) (x : Z) : Prop :=
  match l with [] => False | (_, b, n) :: l' => b ≤ x < b + n * 4096 ∨ in_runs l' x end.

(** Where the reference counts start: 2 bytes per page below the end. *)
Definition REF_TOP `{Layout} : Z := free_ram_end - 16384.

Record runs_inv `{Layout} (s : alloc_state) (l : list node) (ms : list Z) : Prop := {
  ri_runs : run_seg (run_heap s) (free_runs s) l 0;
  ri_meta : run_seg (run_heap s) (free_meta_nodes s) (meta_node <$> ms) 0;
  ri_nodup : NoDup (addrs l ++ ms);
  ri_area : ∀ a r, run_heap s !! a = Some r → meta_top s ≤ a ∧ a + SIZEOF_PAGE_RUN ≤ REF_TOP;
  ri_apart : ∀ a b, is_Some (run_heap s !! a) → is_Some (run_heap s !! b) → a ≠ b →
    a + SIZEOF_PAGE_RUN ≤ b ∨ b + SIZEOF_PAGE_RUN ≤ a;
  ri_next : free_ram ≤ next_paddr s ≤ meta_top s;
  ri_next_aligned : next_paddr s mod 4096 = 0;
  ri_top : meta_top s ≤ REF_TOP;
  ri_top_aligned : meta_top s mod 4 = 0;
  ri_ok : runs_ok free_ram (next_paddr s) l;
}.

(** A page address is free when a run covers it or it was never handed out. *)
Definition is_free (s : alloc_state) (l : list node) (x : Z) : Prop :=
  in_runs l x ∨ next_paddr s ≤ x.

Record alloc_inv `{Layout} (s : alloc_state) (l : list node) (ms : list Z) : Prop := {
  ai_init : allocator_initialized s = true;
  ai_count : managed_page_count s = NPAGES;
  ai_len : length (page_refcnt s) = Z.to_nat NPAGES;
  ai_struct : runs_inv s l ms;
  ai_ref : ∀ i, 0 ≤ i < NPAGES → ∃ c, aget (page_refcnt s) i = Some c ∧ 0 ≤ c < 65536 ∧
    (c = 0 ↔ is_free s l (free_ram + i * 4096));
}.

(** ** Segments *)
Lemma seg_app h p l1 l2 q :
  run_seg h p (l1 ++ l2) q ↔ ∃ r, run_seg h p l1 r ∧ run_seg h r l2 q.
Proof.
  revert p. induction l1 as [|[[a b] n] l1 IH]; intros p; simpl.
  - split; [eauto|]. by intros (r & -> & ?).
  - setoid_rewrite IH. split.
    + intros (-> & ? & nx & ? & r & ? & ?). eauto 10.
    + intros (r & (-> & ? & nx & ? & ?) & ?). eauto 10.
Qed.

Lemma seg_insert_ne h p l q a r :
  a ∉ addrs l → run_seg h p l q → run_seg (<[a := r]> h) p l q.
Proof.
  revert p. induction l as [|[[a' b] n] l IH]; intros p Hn; simpl; [done|].
  rewrite fmap_cons, not_elem_of_cons in Hn. destruct Hn as [Hne Hn]. unfold node_addr in Hne; simpl in Hne.
  intros (-> & ? & nx & Hl & Hs). split_and!; [done..|].
  exists nx. rewrite lookup_insert_ne by done. eauto.
Qed.

Lemma seg_store h p l1 a b n nx l2 q :
  run_seg h p l1 a → a ∉ addrs l1 → a ≠ 0 → run_seg h nx l2 q → a ∉ addrs l2 →
  run_seg (<[a := PageRun b n nx]> h) p (l1 ++ (a, b, n) :: l2) q.
Proof.
  intros H1 Hn1 Ha H2 Hn2. apply seg_app. exists a. split; [by apply seg_insert_ne|].
  simpl. split_and!; [done..|]. exists nx. rewrite lookup_insert_eq.
  split; [done|by apply seg_insert_ne].
Qed.

Lemma seg_in_heap h p l q a : run_seg h p l q → a ∈ addrs l → is_Some (h !! a).
Proof.
  revert p. induction l as [|[[a' b] n] l IH]; intros p; simpl; [set_solver|].
  intros (-> & ? & nx & Hl & Hs) [->|Hin]%elem_of_cons; [eauto|by eapply IH].
Qed.

Lemma seg_nonzero h p l q a : run_seg h p l q → a ∈ addrs l → a ≠ 0.
Proof.
  revert p. induction l as [|[[a' b] n] l IH]; intros p; simpl; [set_solver|].
  intros (-> & ? & nx & Hl & Hs) [->|Hin]%elem_of_cons; [done|by eapply IH].
Qed.

Lemma seg_length h p l q : run_seg h p l q → NoDup (addrs l) → (length l ≤ size h)%nat.
Proof.
  intros Hs Hnd. rewrite <-(length_fmap node_addr l), <-(size_list_to_set (C := gset Z)) by done.
  rewrite <-size_dom. apply subseteq_size. intros a Ha%elem_of_list_to_set.
  apply elem_of_dom. by eapply seg_in_heap.
Qed.

Lemma seg_nil_iff h p l : run_seg h p l 0 → p = 0 ↔ l = [].
Proof. destruct l as [|[[a b] n] l]; simpl; [done|]. intros (-> & ? & _). done. Qed.

(** ** Ordered runs *)
Lemma runs_ok_app lo hi l1 l2 :
  runs_ok lo hi (l1 ++ l2) ↔ runs_ok lo hi l1 ∧ runs_ok (runs_end lo l1) hi l2.
Proof.
  revert lo. induction l1 as [|[[a b] n] l1 IH]; intros lo; simpl; [tauto|].
  rewrite IH. tauto.
Qed.

Lemma runs_ok_lo lo lo' hi l : lo' ≤ lo → runs_ok lo hi l → runs_ok lo' hi l.
Proof. destruct l as [|[[a b] n] l]; simpl; [done|]. intuition lia. Qed.

Lemma runs_ok_hi lo hi hi' l : hi ≤ hi' → runs_ok lo hi l → runs_ok lo hi' l.
Proof.
  intros Hh. revert lo. induction l as [|[[a b] n] l IH]; intros lo; simpl; [done|].
  intros (?&?&?&?&?). split_and!; try lia. by apply IH.
Qed.

Lemma in_runs_app l1 l2 x : in_runs (l1 ++ l2) x ↔ in_runs l1 x ∨ in_runs l2 x.
Proof. induction l1 as [|[[a b] n] l1 IH]; simpl; [tauto|]. rewrite IH. tauto. Qed.

Lemma in_runs_bounds lo hi l x : runs_ok lo hi l → in_runs l x → lo ≤ x < hi.
Proof.
  revert lo. induction l as [|[[a b] n] l IH]; intros lo; simpl; [done|].
  intros (?&?&?&?&Hl) [?|Hx]; [lia|]. specialize (IH _ Hl Hx). lia.
Qed.

Lemma runs_end_ge lo hi l : runs_ok lo hi l → lo ≤ runs_end lo l.
Proof.
  revert lo. induction l as [|[[a b] n] l IH]; intros lo; simpl; [done|].
  intros (?&?&?&?&Hl). specialize (IH _ Hl). lia.
Qed.

Lemma runs_end_snoc lo l a b n : runs_end lo (l ++ [(a, b, n)]) = b + n * 4096 + 1.
Proof. revert lo. induction l as [|[[? ?] ?] l IH]; intros lo; simpl; [done|apply IH]. Qed.

(** Page aligned addresses fall into a run as a whole page. *)
Lemma in_runs_page lo hi l x y :
  runs_ok lo hi l → x mod 4096 = 0 → x ≤ y < x + 4096 → in_runs l y → in_runs l x.
Proof.
  intros Hok Hx Hy. revert lo Hok. induction l as [|[[a b] n] l IH]; intros lo; simpl; [done|].
  intros (?&Hb&?&?&Hl) [Hin|Hin]; [left|right; by eapply IH].
  Z.div_mod_to_equations. nia.
Qed.

(** ** Node operations *)

(** The fields that the list operations leave alone. *)
Record same_rest (s s' : alloc_state) : Prop := {
  sr_next : next_paddr s' = next_paddr s;
  sr_init : allocator_initialized s' = allocator_initialized s;
  sr_lock : alloc_lock s' = alloc_lock s;
  sr_refcnt : page_refcnt s' = page_refcnt s;
  sr_count : managed_page_count s' = managed_page_count s;
  sr_warned : free_meta_oom_warned s' = free_meta_oom_warned s;
  sr_pmem : pmem s' = pmem s;
}.

#[export] Instance same_rest_preorder : PreOrder same_rest.
Proof.
  split; [by intros s; split|].
  intros s1 s2 s3 [] []. split; congruence.
Qed.
#[export] Hint Extern 1 (same_rest _ _) => (by split) : kernel.

Lemma wp_load_run p r Q s : run_heap s !! p = Some r → Q r s → wp (load_run p) Q s.
Proof. intros Hl HQ. unfold wp, load_run. by rewrite Hl. Qed.

Lemma wp_store_run p r Q s :
  is_Some (run_heap s !! p) → Q tt (set_run_heap (<[p := r]> (run_heap s)) s) →
  wp (store_run p r) Q s.
Proof. intros [r' Hl] HQ. unfold wp, store_run. by rewrite Hl. Qed.

(** Arithmetic over the metadata area. *)
Ltac area_lia := unfold REF_TOP, SIZEOF_PAGE_RUN in *; lia.

Section node_ops.
Context {L : Layout} {LOK : LayoutOk}.
Implicit Types (s : alloc_state) (l : list node) (ms : list Z).

Lemma runs_inv_nodup_runs s l ms : runs_inv s l ms → NoDup (addrs l).
Proof. intros Hi. pose proof (ri_nodup _ _ _ Hi) as Hnd. by apply NoDup_app in Hnd as (?&_&_). Qed.

(** Overwriting a node of the heap keeps the metadata area in shape. *)
Lemma seg_area_insert s p r :
  is_Some (run_heap s !! p) →
  (∀ a r, run_heap s !! a = Some r → meta_top s ≤ a ∧ a + SIZEOF_PAGE_RUN ≤ REF_TOP) →
  ∀ a r', <[p := r]> (run_heap s) !! a = Some r' → meta_top s ≤ a ∧ a + SIZEOF_PAGE_RUN ≤ REF_TOP.
Proof.
  intros [r0 Hp] Ha a r' [[-> _]|[_ Hl]]%lookup_insert_Some; eauto.
Qed.

Lemma apart_insert s p r :
  is_Some (run_heap s !! p) →
  (∀ a b, is_Some (run_heap s !! a) → is_Some (run_heap s !! b) → a ≠ b →
    a + SIZEOF_PAGE_RUN ≤ b ∨ b + SIZEOF_PAGE_RUN ≤ a) →
  ∀ a b, is_Some (<[p := r]> (run_heap s) !! a) → is_Some (<[p := r]> (run_heap s) !! b) → a ≠ b →
    a + SIZEOF_PAGE_RUN ≤ b ∨ b + SIZEOF_PAGE_RUN ≤ a.
Proof.
  intros Hp Ha a b Hla Hlb Hne. apply Ha; [| |done].
  - destruct (decide (p = a)) as [->|]; [done|]. by rewrite lookup_insert_ne in Hla.
  - destruct (decide (p = b)) as [->|]; [done|]. by rewrite lookup_insert_ne in Hlb.
Qed.

(** The general shape of a step on the lists: one node is overwritten, and
    the two list heads may change. *)
Lemma runs_inv_store s l ms p r fr fm l' ms' :
  runs_inv s l ms → is_Some (run_heap s !! p) →
  run_seg (<[p := r]> (run_heap s)) fr l' 0 →
  run_seg (<[p := r]> (run_heap s)) fm (meta_node <$> ms') 0 →
  NoDup (addrs l' ++ ms') → runs_ok free_ram (next_paddr s) l' →
  runs_inv (set_free_meta_nodes fm (set_free_runs fr (set_run_heap (<[p := r]> (run_heap s)) s))) l' ms'.
Proof.
  intros [] Hp Hr Hm Hnd Hok. split; simpl; try done.
  - by apply seg_area_insert.
  - by apply apart_insert.
Qed.


Lemma addrs_meta ms : addrs (meta_node <$> ms) = ms.
Proof. induction ms as [|m ms IH]; [done|]. by rewrite !fmap_cons, IH. Qed.

Lemma meta_top_round s l ms :
  runs_inv s l ms → next_paddr s < Z.land (sub32 (meta_top s) SIZEOF_PAGE_RUN) (not32 3) →
  Z.land (sub32 (meta_top s) SIZEOF_PAGE_RUN) (not32 3) = meta_top s - 12.
Proof.
  intros Hi Hlt. pose proof free_ram_bounds as [Hb1 Hb2].
  pose proof (ri_top _ _ _ Hi) as Ht. pose proof (ri_next _ _ _ Hi) as Hn.
  pose proof (ri_top_aligned _ _ _ Hi) as Hal. unfold REF_TOP, SIZEOF_PAGE_RUN in *.
  rewrite sub32_small by lia. change 3 with (2 ^ 2 - 1).
  rewrite land_not32_ones by (unfold is_u32; lia). change (2 ^ 2) with 4.
  Z.div_mod_to_equations. lia.
Qed.

(** [alloc_run_node] hands out a node that is on neither list, or NULL with
    nothing changed when the metadata area has met the allocated pages. *)
Lemma alloc_run_node_spec s l ms :
  runs_inv s l ms →
  wp alloc_run_node (λ a s',
    (a = 0 ∧ s' = s ∧ ms = [] ∧ meta_top s - 12 ≤ next_paddr s) ∨
    (a ≠ 0 ∧ is_Some (run_heap s' !! a) ∧ same_rest s s' ∧ free_runs s' = free_runs s ∧
     ∃ ms', runs_inv s' l ms' ∧ a ∉ addrs l ++ ms')) s.
Proof.
  intros Hi. unfold alloc_run_node. do 2 wp_step.
  pose proof (ri_meta _ _ _ Hi) as Hm. pose proof (seg_nil_iff _ _ _ Hm) as Hnil.
  destruct (Z.eqb_spec (free_meta_nodes s) 0) as [H0|H0]; cbn [negb].
  - apply Hnil, fmap_nil_inv in H0 as ->.
    pose proof free_ram_bounds. pose proof (ri_next _ _ _ Hi). pose proof (ri_top _ _ _ Hi).
    destruct (Z.leb_spec (Z.land (sub32 (meta_top s) SIZEOF_PAGE_RUN) (not32 3)) (next_paddr s)) as [Hle|Hgt].
    + wp_steps. left. split_and!; try done.
      unfold REF_TOP, SIZEOF_PAGE_RUN in *. pose proof (ri_top_aligned _ _ _ Hi).
      rewrite sub32_small in Hle by lia. change 3 with (2 ^ 2 - 1) in Hle.
      rewrite land_not32_ones in Hle by (unfold is_u32; lia). change (2 ^ 2) with 4 in Hle.
      Z.div_mod_to_equations. lia.
    + rewrite (meta_top_round _ _ _ Hi) in Hgt |- * by done.
      assert (Hfresh : run_heap s !! (meta_top s - 12) = None).
      { apply eq_None_not_Some. intros [r Hr]. apply (ri_area _ _ _ Hi) in Hr. lia. }
      assert (Hnot : meta_top s - 12 ∉ addrs l).
      { intros Hin. eapply seg_in_heap in Hin as [r Hr]; [|apply (ri_runs _ _ _ Hi)]. congruence. }
      wp_steps. right. split_and!; try done.
      * lia.
      * simpl. by rewrite lookup_insert_eq.
      * exists []. split; [|by rewrite app_nil_r].
        destruct Hi. split; simpl; try done; try area_lia.
        -- by apply seg_insert_ne.
        -- intros a r [[<- _]|[Hne Hl]]%lookup_insert_Some; [area_lia|].
           specialize (ri_area0 _ _ Hl). area_lia.
        -- intros a b [ra Ha] [rb Hb] Hne.
           apply lookup_insert_Some in Ha as [[<- _]|[_ Ha]];
             apply lookup_insert_Some in Hb as [[<- _]|[_ Hb]]; try done.
           ++ apply ri_area0 in Hb. area_lia.
           ++ apply ri_area0 in Ha. area_lia.
           ++ by apply ri_apart0.
        -- Z.div_mod_to_equations. lia.
  - destruct ms as [|m ms]; [by destruct H0; apply Hnil|].
    destruct Hm as (Hfm & Hm0 & nx & Hl & Hm). rewrite Hfm.
    pose proof (ri_nodup _ _ _ Hi) as Hnd.
    assert (m ∉ addrs l ++ ms) as Hnot.
    { rewrite <-Permutation_middle, NoDup_cons in Hnd. tauto. }
    wp_step. eapply wp_load_run; [done|]. wp_steps. apply wp_store_run; [done|]. simpl.
    wp_steps. right. split_and!; try done.
    + simpl. by rewrite lookup_insert_eq.
    + exists ms. split; [|done].
      eapply (runs_inv_store s l (m :: ms) m _ (free_runs s) nx); try done.
      * apply seg_insert_ne; [set_solver|]. apply Hi.
      * apply seg_insert_ne; [rewrite addrs_meta; set_solver|done].
      * rewrite <-Permutation_middle, NoDup_cons in Hnd. tauto.
      * apply Hi.
Qed.

(** [release_run_node] pushes a node that is on neither list. *)
Lemma release_run_node_spec s l ms a :
  runs_inv s l ms → is_Some (run_heap s !! a) → a ≠ 0 → a ∉ addrs l ++ ms →
  wp (release_run_node a) (λ _ s',
    runs_inv s' l (a :: ms) ∧ same_rest s s' ∧ meta_top s' = meta_top s) s.
Proof.
  intros Hi Ha Ha0 Hn. unfold release_run_node. do 2 wp_step. wp_step.
  apply wp_store_run; [done|]. wp_steps. split_and!; [|done..].
  eapply (runs_inv_store s l ms a _ (free_runs s) a); try done.
  - apply seg_insert_ne; [set_solver|]. apply Hi.
  - simpl. split_and!; [done..|]. exists (free_meta_nodes s). rewrite lookup_insert_eq.
    split; [done|]. apply seg_insert_ne; [rewrite addrs_meta; set_solver|]. apply Hi.
  - rewrite <-Permutation_middle, NoDup_cons. split; [done|]. apply Hi.
  - apply Hi.
Qed.

(** ** Walking the list of runs *)
Lemma find_run_before_spec s p l : ∀ fuel a b n,
  run_seg (run_heap s) a ((a, b, n) :: l) 0 → (length l < fuel)%nat → b ≤ p →
  ∃ l1 a' b' n' l2, (a, b, n) :: l = l1 ++ (a', b', n') :: l2 ∧
    find_run_before fuel a p s = Done (a', s) ∧ b' ≤ p ∧
    (∀ x l3, l2 = x :: l3 → p ≤ x.1.2).
Proof.
  induction l as [|[[a1 b1] n1] l IH]; intros fuel a b n Hs Hf Hb;
    destruct fuel as [|fuel]; simpl in *; try lia;
    destruct Hs as (_ & Ha & nx & Hl & Hs); unfold kbind at 1, load_run at 1; rewrite Hl; simpl.
  - subst nx. simpl. exists [], a, b, n, []. split_and!; done.
  - destruct Hs as (-> & Ha1 & nx1 & Hl1 & Hs). destruct (Z.eqb_spec a1 0); [done|].
    unfold kbind at 1, load_run at 1. rewrite Hl1. simpl.
    destruct (Z.ltb_spec b1 p).
    + destruct (IH fuel a1 b1 n1) as (l1 & a' & b' & n' & l2 & Heq & Hrun & Hb' & Hnext);
        [simpl; eauto 10|lia|lia|].
      exists ((a, b, n) :: l1), a', b', n', l2. rewrite Heq. split_and!; done.
    + exists [], a, b, n, ((a1, b1, n1) :: l). split_and!; [done..|].
      intros x l3 [= <- _]. done.
Qed.

(** On runs that already have gaps between them there is nothing to merge. *)
Lemma coalesce_loop_noop s lo hi l : ∀ fuel cur,
  run_seg (run_heap s) cur l 0 → runs_ok lo hi l → 0 ≤ lo → hi < 4294967296 →
  (length l < fuel)%nat → coalesce_loop fuel cur s = Done (tt, s).
Proof.
  revert lo. induction l as [|[[a b] n] l IH]; intros lo fuel cur Hs Hok Hlo Hhi Hf;
    destruct fuel as [|fuel]; simpl in *; try lia.
  - by subst cur.
  - destruct Hs as (-> & Ha & nx & Hl & Hs). destruct (Z.eqb_spec a 0); [done|].
    unfold kbind at 1, load_run at 1. rewrite Hl. simpl.
    destruct Hok as (Hb & Hal & Hn & Hend & Hok).
    destruct (Z.eqb_spec nx 0); [done|].
    destruct l as [|[[a1 b1] k1] l]; [done|]. pose proof Hs as (Hnx & _ & nx' & Hl1 & _). subst nx.
    unfold kbind at 1, load_run at 1. rewrite Hl1. simpl.
    unfold PAGE_SIZE. rewrite mul32_small, add32_small by lia.
    simpl in Hok. destruct (Z.eqb_spec (b + n * 4096) b1); [lia|].
    apply (IH (b + n * 4096 + 1)); simpl in *; (done || lia).
Qed.

Lemma list_fuel_enough s l ms : runs_inv s l ms → (length l < list_fuel s)%nat.
Proof.
  intros Hi. unfold list_fuel. apply Nat.lt_succ_r.
  eapply seg_length; [apply Hi|by eapply runs_inv_nodup_runs].
Qed.

Lemma coalesce_free_runs_noop s l ms :
  runs_inv s l ms → coalesce_free_runs s = Done (tt, s).
Proof.
  intros Hi. unfold coalesce_free_runs, kbind, kget.
  pose proof free_ram_bounds. pose proof (ri_next _ _ _ Hi). pose proof (ri_top _ _ _ Hi).
  eapply coalesce_loop_noop; [apply Hi|apply Hi|lia|area_lia|by eapply list_fuel_enough].
Qed.

(** ** Returning one page *)

(** What [free_single_page_raw] achieves when it returns 0. *)
Definition page_returned (s s' : alloc_state) (l : list node) (p : Z) : Prop :=
  same_rest s s' ∧ ∃ l' ms', runs_inv s' l' ms' ∧
    ∀ x, in_runs l' x ↔ in_runs l x ∨ p ≤ x < p + 4096.

(** Linking a fresh node into the list, between the segments [l1] and [l2]. *)
Lemma runs_ok_link lo hi l1 l2 a p :
  runs_ok lo hi (l1 ++ l2) → p mod 4096 = 0 → runs_end lo l1 ≤ p → p + 4096 ≤ hi →
  (∀ x l3, l2 = x :: l3 → p + 4096 < x.1.2) →
  runs_ok lo hi (l1 ++ (a, p, 1) :: l2).
Proof.
  rewrite !runs_ok_app. simpl. intros [H1 H2] Hp Hlo Hhi Hn. split_and!; try done; try lia.
  destruct l2 as [|[[a2 b2] n2] l2]; [done|]. specialize (Hn _ _ eq_refl). simpl in *.
  intuition lia.
Qed.

Lemma in_runs_link l1 l2 a p x :
  in_runs (l1 ++ (a, p, 1) :: l2) x ↔ in_runs (l1 ++ l2) x ∨ p ≤ x < p + 4096.
Proof. rewrite !in_runs_app. simpl. replace (p + 1 * 4096) with (p + 4096) by lia. tauto. Qed.

Lemma seg_mid h p l1 a b n l2 q :
  run_seg h p (l1 ++ (a, b, n) :: l2) q →
  run_seg h p l1 a ∧ a ≠ 0 ∧ ∃ nx, h !! a = Some (PageRun b n nx) ∧ run_seg h nx l2 q.
Proof. rewrite seg_app. intros (r & H1 & -> & ? & nx & ? & ?). eauto. Qed.

Lemma addrs_mid l1 a b n l2 : addrs (l1 ++ (a, b, n) :: l2) = addrs l1 ++ a :: addrs l2.
Proof. by rewrite fmap_app, fmap_cons. Qed.

Lemma runs_inv_mid_notin s l1 a b n l2 ms :
  runs_inv s (l1 ++ (a, b, n) :: l2) ms → (a ∉ addrs l1) ∧ (a ∉ addrs l2) ∧ a ∉ ms.
Proof.
  intros Hi. pose proof (ri_nodup _ _ _ Hi) as Hnd.
  rewrite addrs_mid, <-app_assoc in Hnd. simpl in Hnd.
  rewrite <-Permutation_middle, NoDup_cons, !not_elem_of_app in Hnd. tauto.
Qed.

(** Overwriting a node of the list: its fields change and its [next] may skip
    the nodes [lx] that followed it. *)
Lemma runs_inv_relink s l1 a b n lx l2 ms b' n' nx :
  runs_inv s (l1 ++ (a, b, n) :: lx ++ l2) ms →
  run_seg (run_heap s) nx l2 0 →
  runs_ok free_ram (next_paddr s) (l1 ++ (a, b', n') :: l2) →
  runs_inv (set_run_heap (<[a := PageRun b' n' nx]> (run_heap s)) s) (l1 ++ (a, b', n') :: l2) ms.
Proof.
  intros Hi Hnx Hok. pose proof (runs_inv_mid_notin _ _ _ _ _ _ _ Hi) as (Hn1 & Hn2 & Hnm).
  pose proof (seg_mid _ _ _ _ _ _ _ _ (ri_runs _ _ _ Hi)) as (Hs1 & Ha & nx0 & Hl & Hs2).
  rewrite fmap_app, not_elem_of_app in Hn2. pose proof (ri_nodup _ _ _ Hi) as Hnd.
  eapply (runs_inv_store s _ ms a _ (free_runs s) (free_meta_nodes s)); try done.
  - apply seg_store; tauto.
  - apply seg_insert_ne; [by rewrite addrs_meta|]. apply Hi.
  - eapply sublist_NoDup; [done|]. apply sublist_app; [|done]. rewrite !addrs_mid, fmap_app.
    apply sublist_app; [done|]. apply sublist_skip. by apply sublist_inserts_l.
Qed.

(** Writing into a node that is on neither list. *)
Lemma runs_inv_fill s l ms a r :
  runs_inv s l ms → is_Some (run_heap s !! a) → a ∉ addrs l ++ ms →
  runs_inv (set_run_heap (<[a := r]> (run_heap s)) s) l ms.
Proof.
  intros Hi Ha Hn. eapply (runs_inv_store s _ ms a _ (free_runs s) (free_meta_nodes s)); try done.
  - apply seg_insert_ne; [set_solver|apply Hi].
  - apply seg_insert_ne; [rewrite addrs_meta; set_solver|apply Hi].
  - apply Hi.
  - apply Hi.
Qed.

(** Moving the head of the list past the nodes [lx]. *)
Lemma runs_inv_head s lx l2 ms nx :
  runs_inv s (lx ++ l2) ms → run_seg (run_heap s) nx l2 0 →
  runs_inv (set_free_runs nx s) l2 ms.
Proof.
  intros Hi Hnx. destruct Hi. split; simpl; try done.
  - eapply sublist_NoDup; [done|]. apply sublist_app; [|done]. rewrite fmap_app. by apply sublist_inserts_l.
  - apply runs_ok_app in ri_ok0 as [Hx H2]. eapply runs_ok_lo; [|exact H2].
    by eapply runs_end_ge.
Qed.

(** Linking a filled node in front of the list. *)
Lemma runs_inv_push s l ms a p :
  runs_inv s l ms → run_heap s !! a = Some (PageRun p 1 (free_runs s)) → a ≠ 0 →
  a ∉ addrs l ++ ms → runs_ok free_ram (next_paddr s) ((a, p, 1) :: l) →
  runs_inv (set_free_runs a s) ((a, p, 1) :: l) ms.
Proof.
  intros Hi Ha Ha0 Hn Hok. destruct Hi. split; simpl; try done.
  - split_and!; try done. eauto.
  - rewrite NoDup_cons. done.
Qed.

(** Linking a filled node behind the node [c]. *)
Lemma runs_inv_link s l1 c b n l2 ms a p nx :
  runs_inv s (l1 ++ (c, b, n) :: l2) ms →
  run_seg (run_heap s) nx l2 0 → run_heap s !! a = Some (PageRun p 1 nx) → a ≠ 0 →
  a ∉ addrs (l1 ++ (c, b, n) :: l2) ++ ms →
  runs_ok free_ram (next_paddr s) ((l1 ++ [(c, b, n)]) ++ (a, p, 1) :: l2) →
  runs_inv (set_run_heap (<[c := PageRun b n a]> (run_heap s)) s) (l1 ++ (c, b, n) :: (a, p, 1) :: l2) ms.
Proof.
  intros Hi Hnx Ha Ha0 Hn Hok. pose proof (runs_inv_mid_notin _ _ _ _ _ _ _ Hi) as (Hn1 & Hn2 & Hnm).
  pose proof (seg_mid _ _ _ _ _ _ _ _ (ri_runs _ _ _ Hi)) as (Hs1 & Hc & nx0 & Hl & Hs2).
  rewrite addrs_mid, <-app_assoc in Hn. simpl in Hn.
  rewrite !not_elem_of_app, not_elem_of_cons, not_elem_of_app in Hn.
  eapply (runs_inv_store s _ ms c _ (free_runs s) (free_meta_nodes s)); try done.
  - apply seg_store; try done.
    + simpl. split_and!; eauto.
    + rewrite fmap_cons, not_elem_of_cons. unfold node_addr at 1; simpl. split; [naive_solver|done].
  - apply seg_insert_ne; [by rewrite addrs_meta|]. apply Hi.
  - pose proof (ri_nodup _ _ _ Hi) as Hnd.
    replace (addrs (l1 ++ (c, b, n) :: (a, p, 1) :: l2) ++ ms)
      with ((addrs l1 ++ [c]) ++ a :: (addrs l2 ++ ms))
      by (rewrite addrs_mid, fmap_cons, <-!app_assoc; done).
    rewrite <-Permutation_middle, NoDup_cons.
    rewrite addrs_mid, <-app_assoc in Hnd. rewrite <-app_assoc.
    split; [|done]. rewrite !not_elem_of_app, list_elem_of_singleton. tauto.
  - by rewrite <-app_assoc in Hok.
Qed.

Lemma seg_head_unique h h' p q l : run_seg h p l 0 → run_seg h' q l 0 → p = q.
Proof. destruct l as [|[[a b] n] l]; simpl; [congruence|]. by intros (-> & _) (-> & _). Qed.

(** Taking a node from the metadata area and filling it in. *)
Lemma wp_take_node s l ms p nx (K : Z → AM Z) Q :
  runs_inv s l ms → Q (-1) s →
  (∀ a s1 ms1, a ≠ 0 → same_rest s s1 → free_runs s1 = free_runs s → runs_inv s1 l ms1 →
     run_heap s1 !! a = Some (PageRun p 1 nx) → a ∉ addrs l ++ ms1 → wp (K a) Q s1) →
  wp (let! a := alloc_run_node in
      if a =? 0 then kret (-1) else do! fill_run_node a p nx in K a) Q s.
Proof.
  intros Hi Hfail Hok. apply wp_bind. eapply wp_mono; [by eapply alloc_run_node_spec|].
  cbn beta. intros a s1 [(-> & -> & _)|(Ha & Hsome & Hsr & Hfr & ms1 & Hi1 & Hna)]; [done|].
  destruct (Z.eqb_spec a 0); [done|]. wp_step. apply wp_store_run; [done|].
  apply (Hok a _ ms1); simpl; try done.
  - etrans; [exact Hsr|by split].
  - by apply runs_inv_fill.
  - by rewrite lookup_insert_eq.
Qed.

Section free_single.
Context (s : alloc_state) (l : list node) (ms : list Z) (p : Z).
Context (Hi : runs_inv s l ms) (Hp : p mod 4096 = 0) (Hlo : free_ram ≤ p)
  (Hhi : p + 4096 ≤ next_paddr s) (Hnin : ¬ in_runs l p).

Definition freed_post (r : Z) (s' : alloc_state) : Prop :=
  (r = 0 ∧ page_returned s s' l p) ∨ (r = -1 ∧ s' = s).

Lemma runs_hi_bound : 0 < free_ram ∧ next_paddr s < 4294967296.
Proof.
  pose proof free_ram_bounds. pose proof (ri_next _ _ _ Hi). pose proof (ri_top _ _ _ Hi). area_lia.
Qed.

(** The page goes in front of the list in a node of its own. *)
Lemma free_single_push :
  (∀ x l3, l = x :: l3 → p + 4096 < x.1.2) →
  wp (let! node := alloc_run_node in
      if node =? 0 then kret (-1)
      else
        do! fill_run_node node p (free_runs s) in
        do! kmodify (set_free_runs node) in
        kret 0) freed_post s.
Proof using All.
  intros Hgap. eapply wp_take_node; [exact Hi|by right|].
  intros a s1 ms1 Ha Hsr Hfr Hi1 Hl Hna. wp_steps. left. split; [done|].
  split; [etrans; [exact Hsr|by split]|].
  exists ((a, p, 1) :: l), ms1. split.
  - apply runs_inv_push; try done; [by rewrite Hfr|]. rewrite (sr_next _ _ Hsr).
    by apply (runs_ok_link _ _ [] l); [apply Hi| |simpl; lia| |].
  - intros x. apply (in_runs_link [] l).
Qed.

(** The page extends the first run downwards. *)
Lemma free_single_extend_head a b n l2 nx :
  l = (a, b, n) :: l2 → run_heap s !! a = Some (PageRun b n nx) → p + 4096 = b →
  wp (do! store_run a (PageRun p (add32 n 1) nx) in kret 0) freed_post s.
Proof using All.
  intros Heq Hl Hb. wp_step. apply wp_store_run; [done|]. wp_steps. left. split; [done|].
  pose proof Hi as Hi'. rewrite Heq in Hi'. unfold page_returned. rewrite Heq.
  pose proof (ri_ok _ _ _ Hi') as Hok. simpl in Hok. pose proof runs_hi_bound.
  rewrite add32_small by lia. split; [by split|]. exists ((a, p, n + 1) :: l2), ms. split.
  - pose proof (ri_runs _ _ _ Hi') as (_ & _ & nx' & Hl' & Hs2). rewrite Hl in Hl'.
    injection Hl' as <-. apply (runs_inv_relink s [] a b n [] l2); try done.
    simpl. replace (p + (n + 1) * 4096) with (b + n * 4096) by lia. intuition lia.
  - intros x. simpl. intuition lia.
Qed.

(** The page follows the run [c] and extends it, merging it with the next run
    when they now touch. *)
Lemma free_single_extend_cur l1 c b n l2 nx nxt :
  l = l1 ++ (c, b, n) :: l2 → run_heap s !! c = Some (PageRun b n nx) → b + n * 4096 = p →
  match nxt with
  | None => l2 = []
  | Some r => ∃ l3, l2 = (nx, base r, pages r) :: l3 ∧ run_heap s !! nx = Some r ∧ p + 4096 ≤ base r
  end →
  wp (do! store_run c (PageRun b (add32 n 1) nx) in
      match nxt with
      | Some r =>
          if b + add32 n 1 * PAGE_SIZE =? base r then
            do! store_run c (PageRun b (add32 (add32 n 1) (pages r)) (next r)) in
            do! release_run_node nx in
            kret 0
          else kret 0
      | None => kret 0
      end) freed_post s.
Proof using All.
  intros Heq Hl Hb Hnxt. pose proof Hi as Hi'. rewrite Heq in Hi'.
  pose proof (seg_mid _ _ _ _ _ _ _ _ (ri_runs _ _ _ Hi')) as (Hs1 & Hc & nx' & Hl' & Hs2).
  rewrite Hl in Hl'. injection Hl' as <-.
  pose proof (ri_ok _ _ _ Hi') as Hok. apply runs_ok_app in Hok as [Hok1 Hok2]. simpl in Hok2.
  pose proof runs_hi_bound. pose proof (runs_end_ge _ _ _ Hok1).
  rewrite (add32_small n 1) by lia.
  wp_step. apply wp_store_run; [done|].
  set (s1 := set_run_heap _ s).
  destruct nxt as [r|].
  2: { subst l2. wp_steps. left. split; [done|]. split; [by split|]. rewrite Heq.
       exists (l1 ++ [(c, b, n + 1)]), ms. split.
       - apply (runs_inv_relink s l1 c b n [] []); [done..|].
         apply runs_ok_app. simpl. intuition lia.
       - intros x. rewrite !in_runs_app. simpl. intuition lia. }
  destruct r as [b2 n2 nx2]. destruct Hnxt as (l3 & -> & Hr & Hgap). simpl in *.
  pose proof (runs_inv_mid_notin _ _ _ _ _ _ _ Hi') as (Hn1 & Hn2 & Hnm).
  rewrite fmap_cons, not_elem_of_cons in Hn2. destruct Hn2 as [Hne Hn2]. unfold node_addr in Hne. simpl in Hne.
  destruct Hs2 as (_ & Hnx0 & nx2' & Hr' & Hs3). rewrite Hr in Hr'. injection Hr' as <-.
  unfold PAGE_SIZE. destruct (Z.eqb_spec (b + (n + 1) * 4096) b2) as [Ht|Ht].
  - wp_step. apply wp_store_run; [simpl; by rewrite lookup_insert_eq|]. wp_step.
    rewrite add32_small by lia. simpl. rewrite insert_insert_eq.
    eapply wp_mono; [eapply (release_run_node_spec _ (l1 ++ (c, b, n + 1 + n2) :: l3) ms)|].
    + apply (runs_inv_relink s l1 c b n [(nx, b2, n2)] l3); [done..|].
      apply runs_ok_app. simpl. split; [done|]. split_and!; try (done || lia).
      replace (b + (n + 1 + n2) * 4096) with (b2 + n2 * 4096) by lia. tauto.
    + simpl. by rewrite lookup_insert_ne.
    + done.
    + replace (l1 ++ (c, b, n) :: (nx, b2, n2) :: l3) with ((l1 ++ [(c, b, n)]) ++ (nx, b2, n2) :: l3)
        in Hi' by (by rewrite <-app_assoc).
      pose proof (runs_inv_mid_notin _ _ _ _ _ _ _ Hi') as (Hm1 & Hm2 & Hm3).
      rewrite fmap_app, not_elem_of_app in Hm1.
      rewrite addrs_mid, !not_elem_of_app, not_elem_of_cons. naive_solver.
    + intros _ s' (Hi2 & Hsr & _). wp_steps. left. split; [done|]. rewrite Heq.
      split; [etrans; [|exact Hsr]; by split|]. exists (l1 ++ (c, b, n + 1 + n2) :: l3), (nx :: ms).
      split; [done|]. intros x. rewrite !in_runs_app. simpl. intuition lia.
  - wp_steps. left. split; [done|]. split; [by split|]. rewrite Heq.
    exists (l1 ++ (c, b, n + 1) :: (nx, b2, n2) :: l3), ms. split.
    + apply (runs_inv_relink s l1 c b n [] ((nx, b2, n2) :: l3)); simpl; [done|eauto 10|].
      apply runs_ok_app. simpl. intuition (Z.div_mod_to_equations; lia).
    + intros x. rewrite !in_runs_app. simpl. intuition lia.
Qed.

(** The page extends the run behind [c] downwards. *)
Lemma free_single_extend_next l1 c b n nx b2 n2 nx2 l3 :
  l = l1 ++ (c, b, n) :: (nx, b2, n2) :: l3 → run_heap s !! nx = Some (PageRun b2 n2 nx2) →
  b + n * 4096 < p → p + 4096 = b2 →
  wp (do! store_run nx (PageRun p (add32 n2 1) nx2) in kret 0) freed_post s.
Proof using All.
  intros Heq Hl Hb Hb2. pose proof Hi as Hi'. rewrite Heq in Hi'.
  replace (l1 ++ (c, b, n) :: (nx, b2, n2) :: l3) with ((l1 ++ [(c, b, n)]) ++ (nx, b2, n2) :: l3)
    in Hi', Heq by (by rewrite <-app_assoc).
  pose proof (seg_mid _ _ _ _ _ _ _ _ (ri_runs _ _ _ Hi')) as (Hs1 & Hc & nx' & Hl' & Hs2).
  rewrite Hl in Hl'. injection Hl' as <-.
  pose proof (ri_ok _ _ _ Hi') as Hok. pose proof Hok as Hok0.
  apply runs_ok_app in Hok as [Hok1 Hok2]. pose proof (runs_end_ge _ _ _ Hok1). simpl in Hok2.
  pose proof runs_hi_bound. rewrite add32_small by lia. wp_step. apply wp_store_run; [done|].
  wp_steps. left. split; [done|]. split; [by split|]. rewrite Heq.
  exists ((l1 ++ [(c, b, n)]) ++ (nx, p, n2 + 1) :: l3), ms. split.
  - apply (runs_inv_relink s (l1 ++ [(c, b, n)]) nx b2 n2 [] l3); [done..|].
    apply runs_ok_app. split; [done|]. simpl.
    replace (p + (n2 + 1) * 4096) with (b2 + n2 * 4096) by lia.
    rewrite runs_end_snoc in *. intuition lia.
  - intros x. rewrite !in_runs_app. simpl. intuition lia.
Qed.

(** The page goes behind [c] in a node of its own. *)
Lemma free_single_link l1 c b n l2 nx :
  l = l1 ++ (c, b, n) :: l2 → run_heap s !! c = Some (PageRun b n nx) →
  b + n * 4096 < p → (∀ x l3, l2 = x :: l3 → p + 4096 < x.1.2) →
  wp (let! node := alloc_run_node in
      if node =? 0 then kret (-1)
      else
        do! fill_run_node node p nx in
        do! store_run c (PageRun b n node) in
        do! coalesce_free_runs in
        kret 0) freed_post s.
Proof using All.
  intros Heq Hl Hb Hgap. pose proof Hi as Hi'. rewrite Heq in Hi'.
  pose proof (seg_mid _ _ _ _ _ _ _ _ (ri_runs _ _ _ Hi')) as (_ & _ & nx' & Hl' & Hs2).
  rewrite Hl in Hl'. injection Hl' as <-.
  eapply wp_take_node; [exact Hi'|by right|].
  intros a s1 ms1 Ha Hsr Hfr Hi1 Hla Hna.
  pose proof (seg_mid _ _ _ _ _ _ _ _ (ri_runs _ _ _ Hi1)) as (_ & _ & nx' & Hl' & Hs2').
  pose proof (seg_head_unique _ _ _ _ _ Hs2 Hs2') as <-.
  assert (Hi2 : runs_inv (set_run_heap (<[c := PageRun b n a]> (run_heap s1)) s1)
                  (l1 ++ (c, b, n) :: (a, p, 1) :: l2) ms1).
  { eapply runs_inv_link; try done. rewrite (sr_next _ _ Hsr). apply runs_ok_link; try done.
    - rewrite <-app_assoc. apply (ri_ok _ _ _ Hi').
    - rewrite runs_end_snoc. lia. }
  wp_step. apply wp_store_run; [done|]. wp_step.
  eapply wp_done; [by eapply coalesce_free_runs_noop|]. wp_steps. left. split; [done|].
  split; [etrans; [exact Hsr|by split]|]. rewrite Heq. eexists _, ms1. split; [exact Hi2|].
  intros x. rewrite !in_runs_app. simpl. replace (p + 1 * 4096) with (p + 4096) by lia. tauto.
Qed.

(** A page in no run is away from every run. *)
Lemma page_apart l1 a b n l2 :
  l = l1 ++ (a, b, n) :: l2 → 0 < n ∧ (b + n * 4096 ≤ p ∨ p + 4096 ≤ b).
Proof using All.
  intros Heq. pose proof (ri_ok _ _ _ Hi) as Hok. rewrite Heq in Hok, Hnin.
  apply runs_ok_app in Hok as [_ Hok]. simpl in Hok. destruct Hok as (_ & Hal & Hn & _).
  rewrite in_runs_app in Hnin. simpl in Hnin. clear -Hnin Hal Hn Hp.
  split; [done|]. Z.div_mod_to_equations. lia.
Qed.

(** The checks of [free_single_page_raw] never fire for a page that is in no
    run, and no loop runs out: the page joins the runs, or, when the metadata
    area is exhausted, nothing changes. *)
Lemma free_single_page_raw_spec : wp (free_single_page_raw p) freed_post s.
Proof using All.
  unfold free_single_page_raw. do 2 wp_step.
  pose proof (ri_runs _ _ _ Hi) as Hruns. pose proof (seg_nil_iff _ _ _ Hruns) as Hnil.
  destruct (Z.eqb_spec (free_runs s) 0) as [H0|H0].
  { pose proof (proj1 Hnil H0) as Hl. pose proof free_single_push as Hpush.
    rewrite H0 in Hpush. apply Hpush. intros x l3. by rewrite Hl. }
  assert (∃ a b n l2, l = (a, b, n) :: l2) as (a & b & n & l2 & Hl).
  { destruct l as [|[[a b] n] l2]; [by destruct H0; apply Hnil|]. eauto. }
  pose proof Hruns as Hr. rewrite Hl in Hr. pose proof Hr as (Hfr & Ha & nx & Hla & _).
  pose proof (page_apart [] a b n l2 Hl) as Hap. rewrite Hfr.
  wp_step. eapply wp_load_run; [done|]. simpl. unfold PAGE_SIZE.
  destruct (Z.ltb_spec p b) as [Hpb|Hpb].
  { destruct (Z.ltb_spec b (p + 4096)); [lia|].
    destruct (Z.eqb_spec (p + 4096) b).
    - by apply (free_single_extend_head a b n l2 nx).
    - rewrite <-Hfr. apply free_single_push. intros x l3 Hx. rewrite Hl in Hx.
      injection Hx as <- _. simpl. lia. }
  rewrite Hfr in Hr. pose proof (list_fuel_enough _ _ _ Hi) as Hfuel. rewrite Hl in Hfuel.
  destruct (find_run_before_spec s p l2 (list_fuel s) a b n Hr) as
    (l1 & c & b' & n' & l2' & Heq & Hrun & Hb' & Hnext); [simpl in *; lia|lia|].
  wp_step. eapply wp_done; [exact Hrun|]. rewrite <-Hl in Heq.
  rewrite Hl, <-Hl, Heq in Hruns.
  destruct (seg_mid _ _ _ _ _ _ _ _ Hruns) as (_ & Hc & nx' & Hlc & Hs2).
  pose proof (page_apart _ _ _ _ _ Heq) as Hap'.
  wp_step. eapply wp_load_run; [done|]. simpl.
  destruct (Z.ltb_spec p (b' + n' * 4096)); [lia|].
  destruct l2' as [|[[a2 b2] n2] l3].
  - simpl in Hs2. subst nx'. simpl. wp_steps. simpl.
    destruct (Z.eqb_spec (b' + n' * 4096) p).
    + by apply (free_single_extend_cur l1 c b' n' [] 0 None).
    + by apply (free_single_link l1 c b' n' [] 0); [..|lia|].
  - destruct Hs2 as (-> & Ha2 & nx2 & Hl2 & _). destruct (Z.eqb_spec a2 0); [done|].
    specialize (Hnext _ _ eq_refl). simpl in Hnext.
    pose proof (page_apart (l1 ++ [(c, b', n')]) a2 b2 n2 l3) as Hap2.
    rewrite <-app_assoc in Hap2. specialize (Hap2 Heq).
    pose proof (ri_ok _ _ _ Hi) as Hok. rewrite Heq in Hok. apply runs_ok_app in Hok as [_ Hok].
    simpl in Hok. do 2 wp_step. eapply wp_load_run; [done|]. wp_steps. simpl.
    destruct (Z.ltb_spec b2 (p + 4096)); [lia|].
    destruct (Z.eqb_spec (b' + n' * 4096) p).
    + apply (free_single_extend_cur l1 c b' n' ((a2, b2, n2) :: l3) a2 (Some (PageRun b2 n2 nx2)));
        simpl; eauto 10.
    + destruct (Z.eqb_spec (p + 4096) b2).
      * by apply (free_single_extend_next l1 c b' n' a2 b2 n2 nx2 l3); [..|lia|].
      * apply (free_single_link l1 c b' n' ((a2, b2, n2) :: l3) a2); [done..|lia|].
        intros x l4 [= <- _]. simpl. lia.
Qed.
End free_single.

End node_ops.
