(* ===== verification/PageAllocSpec.v ===== *)
(** * What the page allocator promises

    The abstract view of the allocator is the reference count of every
    managed page; [alloc_ok] is the invariant between calls.  The theorems
    describe each operation of [src/mm/page_alloc.c] in terms of that view. *)

From S2P Require Import Prelude Layout KString PageAlloc PageAllocInv.

(** The pages the allocator manages. *)
Definition managed `{Layout} (p : Z) : Prop := p mod 4096 = 0 ∧ free_ram ≤ p < free_ram_end.

(** The reference count of a managed page; before initialisation all are 0. *)
Definition refs `{Layout} (s : alloc_state) (p : Z) : Z :=
  if allocator_initialized s then default 0 (aget (page_refcnt s) ((p - free_ram) / 4096)) else 0.

(** Between calls: the lock is free, and the invariant holds as soon as the
    allocator is initialised. *)
Definition alloc_ok `{Layout} (s : alloc_state) : Prop :=
  alloc_lock s = 0 ∧ (allocator_initialized s = false ∨ ∃ l ms, alloc_inv s l ms).

Definition in_block (r n x : Z) : Prop := r ≤ x < r + n * 4096.

Section spec.
Context {L : Layout} {LOK : LayoutOk}.
Implicit Types (s : alloc_state) (l : list node) (ms : list Z).

Lemma managed_idx p : managed p →
  0 ≤ (p - free_ram) / 4096 < NPAGES ∧ p = free_ram + (p - free_ram) / 4096 * 4096.
Proof.
  intros [Hp Hb]. pose proof free_ram_aligned. rewrite free_ram_end_eq in Hb.
  unfold NPAGES in *. Z.div_mod_to_equations. lia.
Qed.

Lemma idx_managed i : 0 ≤ i < NPAGES → managed (free_ram + i * 4096).
Proof.
  intros Hi. pose proof free_ram_aligned. unfold managed. rewrite free_ram_end_eq.
  unfold NPAGES in *. Z.div_mod_to_equations. lia.
Qed.

Lemma page_idx_managed s p :
  managed_page_count s = NPAGES → managed p →
  page_idx_if_managed s p = Some ((p - free_ram) / 4096).
Proof.
  intros Hc Hm. pose proof (managed_idx p Hm) as [Hi _]. destruct Hm as [Hp Hb].
  pose proof free_ram_bounds. unfold page_idx_if_managed, is_aligned, PAGE_SIZE.
  rewrite Hc, sub32_small by lia. zcases; (done || lia).
Qed.

Lemma page_idx_unmanaged s p : ¬ managed p → page_idx_if_managed s p = None.
Proof.
  intros Hm. unfold page_idx_if_managed, is_aligned, PAGE_SIZE, managed in *.
  zcases; done.
Qed.

Lemma refs_inv s l ms p :
  alloc_inv s l ms → managed p →
  aget (page_refcnt s) ((p - free_ram) / 4096) = Some (refs s p) ∧
  0 ≤ refs s p < 65536 ∧ (refs s p = 0 ↔ is_free s l p).
Proof.
  intros Hi Hm. pose proof (managed_idx p Hm) as [Hb Hp].
  destruct (ai_ref _ _ _ Hi _ Hb) as (c & Hc & Hr & Hf). rewrite <-Hp in Hf.
  unfold refs. by rewrite (ai_init _ _ _ Hi), Hc.
Qed.

(** ** Entering an operation *)
Lemma init_establishes s :
  allocator_initialized s = false →
  ∃ s', init_allocator_if_needed s = Done (0, s') ∧ alloc_inv s' [] [] ∧
    alloc_lock s' = alloc_lock s ∧ pmem s' = pmem s ∧
    next_paddr s' = free_ram ∧ meta_top s' = REF_TOP ∧ ∀ p, managed p → refs s' p = 0.
Proof.
  intros Hf. pose proof free_ram_bounds as [Hb1 Hb2]. pose proof free_ram_end_eq as He.
  pose proof free_ram_aligned as Hal. unfold NPAGES in He.
  unfold init_allocator_if_needed. rewrite Hf.
  assert (Hcnt : sub32 free_ram_end free_ram / PAGE_SIZE = NPAGES).
  { unfold PAGE_SIZE, NPAGES. rewrite sub32_small by lia. rewrite He.
    Z.div_mod_to_equations. lia. }
  assert (Htop : Z.land (sub32 free_ram_end (mul32 NPAGES 2)) (not32 3) = REF_TOP).
  { unfold REF_TOP, NPAGES. rewrite mul32_small, sub32_small by lia.
    change 3 with (2 ^ 2 - 1). rewrite land_not32_ones by (unfold is_u32; lia).
    change (2 ^ 2) with 4. Z.div_mod_to_equations. lia. }
  rewrite Hcnt, Htop. destruct (Z.leb_spec REF_TOP free_ram); [unfold REF_TOP in *; lia|].
  assert (Hta : REF_TOP mod 4 = 0) by (unfold REF_TOP; Z.div_mod_to_equations; lia).
  assert (Hlen : length (replicate (Z.to_nat NPAGES) 0) = Z.to_nat NPAGES) by apply length_replicate.
  assert (Hget : ∀ i, 0 ≤ i < NPAGES → aget (replicate (Z.to_nat NPAGES) 0) i = Some 0).
  { intros i Hi. unfold aget. destruct (Z.ltb_spec i 0); [lia|]. apply lookup_replicate_2. lia. }
  generalize dependent (replicate (Z.to_nat NPAGES) 0). intros rc Hlen Hget.
  eexists. split; [reflexivity|]. split_and!; try reflexivity.
  - split; try reflexivity; [exact Hlen| |].
    + split; simpl; try done; try lia; [apply NoDup_nil_2|].
      intros a b [r Hr] _ _. by rewrite lookup_empty in Hr.
    + intros i Hi. exists 0. cbn [page_refcnt]. rewrite (Hget i Hi). split_and!; try lia; [done|].
      split; [|done]. intros _. right. simpl. lia.
  - intros p Hp. pose proof (managed_idx p Hp) as [Hi _]. unfold refs.
    cbn [allocator_initialized page_refcnt]. by rewrite (Hget _ Hi).
Qed.

(** The lock is taken and the allocator initialised on first use. *)
Lemma init_warned s r s' : init_allocator_if_needed s = Done (r, s') → free_meta_oom_warned s' = free_meta_oom_warned s.
Proof. unfold init_allocator_if_needed. intros H. repeat case_match; by simplify_eq. Qed.

Lemma enter_run s :
  alloc_ok s →
  ∃ s1 l ms, alloc_inv s1 l ms ∧ (alloc_lock s1 = 1 ∧ free_meta_oom_warned s1 = free_meta_oom_warned s) ∧ pmem s1 = pmem s ∧
    (∀ p, managed p → refs s1 p = refs s p) ∧
    ∀ A (K : Z → AM A), (do! spin_lock in let! rc := init_allocator_if_needed in K rc) s = K 0 s1.
Proof.
  intros [Hlock Hok].
  assert (Hsl : spin_lock s = Done (tt, set_alloc_lock 1 s)) by (unfold spin_lock; by rewrite Hlock).
  destruct Hok as [Hf|(l & ms & Hi)].
  - destruct (init_establishes (set_alloc_lock 1 s)) as (s' & Hrun & Hinv & Hl & Hm & _ & _ & Hr); [done|].
    exists s', [], []. split_and!; try done.
    + by rewrite (init_warned _ _ _ Hrun).
    + intros p Hp. rewrite Hr by done. unfold refs. by rewrite Hf.
    + intros A K. erewrite kbind_done by exact Hsl. by erewrite kbind_done by exact Hrun.
  - exists (set_alloc_lock 1 s), l, ms. split_and!; try done.
    + destruct Hi as [? ? ? Hs ?]. split; try done. by destruct Hs.
    + intros A K. erewrite kbind_done by exact Hsl.
      by erewrite kbind_done by (unfold init_allocator_if_needed; simpl; by rewrite (ai_init _ _ _ Hi)).
Qed.

Lemma wp_enter {A} s (K : Z → AM A) Q :
  alloc_ok s →
  (∀ s1 l ms, alloc_inv s1 l ms → alloc_lock s1 = 1 ∧ free_meta_oom_warned s1 = free_meta_oom_warned s → pmem s1 = pmem s →
     (∀ p, managed p → refs s1 p = refs s p) → wp (K 0) Q s1) →
  wp (do! spin_lock in let! rc := init_allocator_if_needed in K rc) Q s.
Proof.
  intros Hok HK. destruct (enter_run s Hok) as (s1 & l & ms & Hi & Hl & Hm & Hr & Hrun).
  unfold wp. rewrite Hrun. by eapply HK.
Qed.

Lemma unlock_ok s l ms : alloc_inv s l ms → alloc_ok (set_alloc_lock 0 s).
Proof.
  intros Hi. split; [done|]. right. exists l, ms.
  destruct Hi as [? ? ? Hs ?]. split; try done. by destruct Hs.
Qed.

Lemma refs_lock s v p : refs (set_alloc_lock v s) p = refs s p.
Proof. done. Qed.

(** ** Reference counts *)
Lemma refs_set s l ms p q v :
  alloc_inv s l ms → managed p → managed q →
  refs (set_page_refcnt (aset (page_refcnt s) ((p - free_ram) / 4096) v) s) q =
  if decide (p = q) then v else refs s q.
Proof.
  intros Hi Hp Hq. unfold refs. cbn [allocator_initialized set_page_refcnt page_refcnt].
  rewrite (ai_init _ _ _ Hi).
  pose proof (managed_idx p Hp) as [Hbp Hep]. pose proof (managed_idx q Hq) as [Hbq Heq].
  destruct (decide (p = q)) as [->|Hne].
  - by rewrite aget_aset_eq by (rewrite (ai_len _ _ _ Hi); lia).
  - rewrite aget_aset_ne; [done|]. intros He. rewrite He in Hep. lia.
Qed.

(** Changing the count of one page keeps the invariant when the new count
    agrees with the page being free or not. *)
Lemma alloc_inv_set_ref s s' l l' ms' p v :
  runs_inv s' l' ms' → same_rest (set_page_refcnt (aset (page_refcnt s) ((p - free_ram) / 4096) v) s) s' →
  (∃ ms, alloc_inv s l ms) → managed p → 0 ≤ v < 65536 → (v = 0 ↔ is_free s' l' p) →
  (∀ q, managed q → q ≠ p → (is_free s' l' q ↔ is_free s l q)) →
  alloc_inv s' l' ms'.
Proof.
  intros Hr Hsr [ms Hi] Hp Hv Hz Hq. destruct Hsr as [Hn Hin Hlk Hrc Hct Hw Hm].
  cbn [set_page_refcnt page_refcnt allocator_initialized managed_page_count] in *.
  pose proof (managed_idx p Hp) as [Hbp Hep]. split.
  - rewrite Hin. apply Hi.
  - rewrite Hct. apply Hi.
  - rewrite Hrc, length_aset. apply Hi.
  - done.
  - intros i Hb. rewrite Hrc. destruct (decide (i = (p - free_ram) / 4096)) as [->|Hne].
    + exists v. rewrite aget_aset_eq by (rewrite (ai_len _ _ _ Hi); lia). by rewrite <-Hep.
    + rewrite aget_aset_ne by done. destruct (ai_ref _ _ _ Hi _ Hb) as (c & Hc & Hcb & Hf).
      exists c. split; [done|]. split; [done|]. rewrite Hf. symmetry. apply Hq; [by apply idx_managed|].
      intros He. apply Hne. rewrite <-He. Z.div_mod_to_equations. lia.
Qed.

Lemma refs_same s s' q : same_rest s s' → refs s' q = refs s q.
Proof. intros Hsr. unfold refs. by rewrite (sr_init _ _ Hsr), (sr_refcnt _ _ Hsr). Qed.

(** Two managed pages are equal or do not overlap. *)
Lemma managed_apart p q : managed p → managed q → p ≠ q → p + 4096 ≤ q ∨ q + 4096 ≤ p.
Proof. intros [] [] ?. Z.div_mod_to_equations. lia. Qed.

(** Dropping one reference.  The last one returns the page; only when no
    metadata node can be had does the page keep its last reference, and the
    warning flag is then set. *)
Definition ref_dropped (s s' : alloc_state) (p : Z) : Prop :=
  (refs s' p = refs s p - 1 ∨ (refs s p = 1 ∧ refs s' p = 1 ∧ free_meta_oom_warned s' ≠ 0)) ∧
  (∀ q, managed q → q ≠ p → refs s' q = refs s q) ∧
  pmem s' = pmem s ∧ alloc_lock s' = alloc_lock s ∧ next_paddr s' = next_paddr s ∧
  (free_meta_oom_warned s ≠ 0 → free_meta_oom_warned s' ≠ 0).

Lemma is_free_below s l ms p :
  runs_inv s l ms → managed p → ¬ is_free s l p → p + 4096 ≤ next_paddr s ∧ ¬ in_runs l p.
Proof.
  intros Hi [Hp Hb] Hn. unfold is_free in Hn. pose proof (ri_next_aligned _ _ _ Hi).
  split; [|tauto]. Z.div_mod_to_equations. lia.
Qed.

Lemma dec_and_release_spec s l ms p :
  alloc_inv s l ms → managed p → refs s p ≠ 0 →
  wp (dec_and_release ((p - free_ram) / 4096) p)
    (λ _ s', ∃ l' ms', alloc_inv s' l' ms' ∧ ref_dropped s s' p) s.
Proof.
  intros Hi Hp Hnz. destruct (refs_inv _ _ _ _ Hi Hp) as (Hget & Hbound & Hfree).
  unfold dec_and_release. do 2 wp_step. rewrite Hget. wp_step. wp_step.
  rewrite (Z.mod_small (refs s p - 1)) by lia.
  set (s1 := set_page_refcnt _ s).
  assert (Hr1 : runs_inv s1 l ms) by (destruct (ai_struct _ _ _ Hi); by split).
  destruct (Z.eqb_spec (refs s p - 1) 0) as [Hone|Hmany].
  2: { wp_steps. exists l, ms. split.
       - apply (alloc_inv_set_ref s s1 l l ms p (refs s p - 1)); eauto; [reflexivity|lia|].
         unfold is_free in *. simpl. rewrite <-Hfree. lia.
       - split_and!; try done.
         + left. unfold s1. rewrite (refs_set _ l ms) by done. by rewrite decide_True.
         + intros q Hq Hne. unfold s1. rewrite (refs_set _ l ms) by done. by rewrite decide_False. }
  assert (Hbelow : p + 4096 ≤ next_paddr s ∧ ¬ in_runs l p).
  { eapply is_free_below; [apply Hi|done|]. by rewrite <-Hfree. }
  destruct Hbelow as [Hbelow Hnin]. unfold drop_last_ref. wp_step.
  eapply wp_mono; [apply (free_single_page_raw_spec s1 l ms p); try done; apply Hp|].
  intros r s2 [[-> (Hsr & l' & ms' & Hi2 & Hin)]|[-> ->]].
  - simpl. wp_steps. exists l', ms'. split.
    + eapply (alloc_inv_set_ref s s2 l l' ms' p 0); eauto; [|lia| |].
      * etrans; [|exact Hsr]. unfold s1. by rewrite Hone.
      * split; [|done]. intros _. left. apply Hin. lia.
      * intros q Hq Hne. unfold is_free. rewrite Hin, (sr_next _ _ Hsr). simpl.
        pose proof (managed_apart _ _ Hp Hq). intuition lia.
    + assert (Hrefs : ∀ q, managed q → refs s2 q = if decide (p = q) then 0 else refs s q).
      { intros q Hq. rewrite (refs_same _ _ _ Hsr). unfold s1. by rewrite (refs_set _ l ms), Hone. }
      destruct Hsr. split_and!; try done.
      * left. rewrite Hrefs, decide_True by done. lia.
      * intros q Hq Hne. by rewrite Hrefs, decide_False by done.
      * by rewrite sr_warned.
  - (* no metadata node: the count is put back *)
    simpl. wp_steps.
    assert (Hs : set_page_refcnt (aset (page_refcnt s1) ((p - free_ram) / 4096) 1) s1 = s).
    { unfold s1. cbn [set_page_refcnt page_refcnt]. rewrite aset_aset.
      replace 1 with (refs s p) by lia. rewrite (aset_aget_id _ _ _ Hget). by destruct s. }
    rewrite Hs. exists l, ms. destruct (Z.eqb_spec (free_meta_oom_warned s) 0) as [Hw|Hw].
    + split; [|split_and!; try done; right; simpl; unfold refs in *; simpl; lia].
      destruct Hi as [? ? ? Hs' ?]. split; try done. by destruct Hs'.
    + split; [done|]. split_and!; try done. right. lia.
Qed.

(** ** Taking pages from a run *)
Lemma in_runs_below lo hi l x : runs_ok lo hi l → in_runs l x → x < runs_end lo l.
Proof.
  revert lo. induction l as [|[[a b] n] l IH]; intros lo Hok; simpl in *; [done|].
  destruct Hok as (? & ? & ? & ? & Hok). intros [Hx|Hx]; [|by eapply IH].
  pose proof (runs_end_ge _ _ _ Hok). lia.
Qed.

Lemma find_fit_spec s n l : ∀ fuel prev cur,
  run_seg (run_heap s) cur l 0 → (length l < fuel)%nat →
  (find_fit fuel prev cur n s = Done (None, s) ∧ Forall (λ x, x.2 < n) l) ∨
  ∃ l1 a b k l2, l = l1 ++ (a, b, k) :: l2 ∧ n ≤ k ∧
    find_fit fuel prev cur n s = Done (Some (default prev (node_addr <$> last l1), a), s).
Proof.
  induction l as [|[[a b] k] l IH]; intros [|fuel] prev cur Hs Hf; simpl in *; try lia.
  - subst cur. left. split; [done|constructor].
  - destruct Hs as (-> & Ha & nx & Hl & Hs). destruct (Z.eqb_spec a 0); [done|].
    erewrite kbind_done by (unfold load_run; by rewrite Hl). simpl.
    destruct (Z.leb_spec n k).
    + right. by exists [], a, b, k, l.
    + destruct (IH fuel a nx Hs) as [[-> HF]|(l1 & a' & b' & k' & l2 & -> & Hk & ->)]; [lia| |].
      * left. split; [done|]. constructor; [simpl; lia|done].
      * right. exists ((a, b, k) :: l1), a', b', k', l2. split_and!; [done..|].
        rewrite last_cons. by destruct (last l1).
Qed.

Lemma in_runs_split lo hi l1 a b k l2 x :
  runs_ok lo hi (l1 ++ (a, b, k) :: l2) →
  (in_runs l1 x → x < b) ∧ (in_runs l2 x → b + k * 4096 < x).
Proof.
  intros [Hok1 Hok2]%runs_ok_app. simpl in Hok2. split; intros Hx.
  - pose proof (in_runs_below _ _ _ _ Hok1 Hx). lia.
  - destruct Hok2 as (_ & _ & _ & _ & Hok2). pose proof (in_runs_bounds _ _ _ _ Hok2 Hx). lia.
Qed.

(** The pages of [in_block b n] left the runs. *)
Definition pages_taken (s s' : alloc_state) (l : list node) (b n : Z) : Prop :=
  same_rest s s' ∧ meta_top s' = meta_top s ∧ ∃ l' ms', runs_inv s' l' ms' ∧
    ∀ x, in_runs l' x ↔ in_runs l x ∧ ¬ in_block b n x.

(** The run shrinks. *)
Lemma shrink_run s l1 a b k l2 ms nx n :
  runs_inv s (l1 ++ (a, b, k) :: l2) ms → run_seg (run_heap s) nx l2 0 → 0 < n < k →
  pages_taken s (set_run_heap (<[a := PageRun (b + n * 4096) (k - n) nx]> (run_heap s)) s)
    (l1 ++ (a, b, k) :: l2) b n.
Proof.
  intros Hi Hs Hn. split; [by split|]. split; [done|].
  pose proof (ri_ok _ _ _ Hi) as Hok. pose proof Hok as [Hok1 Hok2]%runs_ok_app. simpl in Hok2.
  exists (l1 ++ (a, b + n * 4096, k - n) :: l2), ms. split.
  - apply (runs_inv_relink s l1 a b k [] l2); [done..|]. apply runs_ok_app. split; [done|]. simpl.
    replace (b + n * 4096 + (k - n) * 4096) with (b + k * 4096) by lia.
    intuition (Z.div_mod_to_equations; lia).
  - intros x. pose proof (in_runs_split _ _ _ _ _ _ _ x Hok).
    rewrite !in_runs_app. unfold in_block. simpl. intuition lia.
Qed.

(** The run is used up: it is unlinked, from its predecessor or from the
    head of the list, and its node is recycled. *)
Lemma unlink_run s l1 a b k l2 ms nx r :
  runs_inv s (l1 ++ (a, b, k) :: l2) ms → run_seg (run_heap s) nx l2 0 →
  let prev := default 0 (node_addr <$> last l1) in
  wp (do! (if negb (prev =? 0) then
             let! p := load_run prev in store_run prev (PageRun (base p) (pages p) nx)
           else kmodify (set_free_runs nx)) in
      release_run_node a)
    (λ _ s', pages_taken s s' (l1 ++ (a, b, k) :: l2) b k)
    (set_run_heap (<[a := r]> (run_heap s)) s).
Proof.
  intros Hi Hs prev. pose proof (ri_ok _ _ _ Hi) as Hok.
  pose proof (seg_mid _ _ _ _ _ _ _ _ (ri_runs _ _ _ Hi)) as (Hs1 & Ha & nx' & Hl & _).
  pose proof (runs_inv_mid_notin _ _ _ _ _ _ _ Hi) as (Hn1 & Hn2 & Hnm).
  assert (Hout : a ∉ addrs (l1 ++ l2) ++ ms).
  { rewrite fmap_app, !not_elem_of_app. tauto. }
  set (Q := λ (_ : unit) s', pages_taken s s' (l1 ++ (a, b, k) :: l2) b k).
  assert (Hend : ∀ s1, runs_inv s1 (l1 ++ l2) ms → is_Some (run_heap s1 !! a) → same_rest s s1 →
    meta_top s1 = meta_top s → wp (release_run_node a) Q s1).
  { intros s1 Hi1 Hl1 Hsr Hmt.
    eapply wp_mono; [by apply (release_run_node_spec s1 (l1 ++ l2) ms a)|].
    intros ? s' (Hi2 & Hsr2 & Hmt2). split; [by etrans|]. split; [congruence|].
    exists (l1 ++ l2), (a :: ms). split; [exact Hi2|].
    intros x. pose proof (in_runs_split _ _ _ _ _ _ _ x Hok).
    rewrite !in_runs_app. unfold in_block. simpl. intuition lia. }
  clearbody Q. wp_step. unfold prev. clear prev. destruct (last l1) as [[[p pb] pk]|] eqn:Hlast.
  - apply last_Some in Hlast as [l0 ->].
    rewrite <-app_assoc in *. simpl in *.
    pose proof (seg_mid _ _ _ _ _ _ _ _ (ri_runs _ _ _ Hi)) as (_ & Hp & nxp & Hlp & _).
    rewrite fmap_app, not_elem_of_app in Hn1. destruct Hn1 as [_ Hpa].
    assert (a ≠ p) as Hap. { intros ->. apply Hpa. simpl. by constructor. }
    simpl. unfold node_addr; simpl. destruct (Z.eqb_spec p 0); [done|]. simpl.
    wp_step. eapply wp_load_run; [simpl; by rewrite lookup_insert_ne|].
    apply wp_store_run; [simpl; by rewrite lookup_insert_ne|]. simpl.
    rewrite insert_insert_ne by done.
    set (s1 := set_run_heap (<[p := PageRun pb pk nx]> (run_heap s)) s).
    apply Hend; [|simpl; by rewrite lookup_insert_eq|by split|done].
    apply (runs_inv_fill s1 (l0 ++ (p, pb, pk) :: l2) ms a).
    + apply (runs_inv_relink s l0 p pb pk [(a, b, k)] l2); [done..|].
      apply runs_ok_app in Hok as [? Hok]. apply runs_ok_app. split; [done|]. simpl in Hok |- *.
      destruct Hok as (? & ? & ? & ? & ? & ? & ? & ? & Hok). split_and!; try done.
      eapply runs_ok_lo; [|exact Hok]. lia.
    + simpl. by rewrite lookup_insert_ne.
    + done.
  - apply last_None in Hlast as ->. simpl. wp_step. apply Hend; simpl.
    + apply (runs_inv_fill (set_free_runs nx s) l2 ms a); [|done|done].
      by apply (runs_inv_head s [(a, b, k)] l2).
    + by rewrite lookup_insert_eq.
    + by split.
    + done.
Qed.

(** ** Handing out a block *)
Lemma mark_allocated_spec p s : ∀ (k : nat) i rc,
  managed_page_count s = NPAGES → length rc = Z.to_nat NPAGES → p mod 4096 = 0 → free_ram ≤ p →
  0 ≤ i → p + (i + k) * 4096 ≤ free_ram_end →
  ∃ rc', mark_allocated k i p (set_page_refcnt rc s) = set_page_refcnt rc' s ∧
    length rc' = length rc ∧
    ∀ j, 0 ≤ j < NPAGES → aget rc' j =
      if decide (p + i * 4096 ≤ free_ram + j * 4096 < p + (i + k) * 4096) then Some 1 else aget rc j.
Proof.
  intros k. induction k as [|k IH]; intros i rc Hc Hlen Hp Hlo Hi Hhi; cbn [mark_allocated].
  - exists rc. split_and!; [done..|]. intros j Hj. rewrite decide_False by lia. done.
  - pose proof free_ram_bounds. unfold PAGE_SIZE.
    rewrite mul32_small, add32_small by lia.
    assert (Hm : managed (p + i * 4096)).
    { unfold managed. Z.div_mod_to_equations. lia. }
    rewrite page_idx_managed by done. cbn [page_refcnt set_page_refcnt].
    pose proof (managed_idx _ Hm) as [Hb He]. set (d := (p + i * 4096 - free_ram) / 4096) in *.
    destruct (IH (i + 1) (aset rc d 1) Hc) as (rc' & Hrun & Hl' & Hg); try lia.
    { by rewrite length_aset. }
    exists rc'. split; [exact Hrun|]. split; [by rewrite Hl', length_aset|].
    intros j Hj. rewrite Hg by done. destruct (decide (j = d)) as [->|Hne].
    + rewrite (decide_True (P := p + i * 4096 ≤ _ < _)) by lia.
      case_decide; [done|]. apply aget_aset_eq. lia.
    + rewrite aget_aset_ne by done. repeat case_decide; (done || lia).
Qed.

(** What the caller of [alloc_pages] sees of a successful call. *)
Record block_given (s s' : alloc_state) (r n : Z) : Prop := {
  bg_aligned : r mod 4096 = 0;
  bg_low : free_ram ≤ r;
  bg_high : r + n * 4096 ≤ next_paddr s' ∧ next_paddr s' ≤ meta_top s' ≤ REF_TOP;
  bg_fresh : ∀ q, managed q → in_block r n q → refs s q = 0 ∧ refs s' q = 1;
  bg_others : ∀ q, managed q → ¬ in_block r n q → refs s' q = refs s q;
  bg_zeroed : ∀ x, in_block r n x → rd (pmem s') x = 0;
  bg_frame : ∀ x, ¬ in_block r n x → rd (pmem s') x = rd (pmem s) x;
}.

Lemma alloc_inv_mark s s1 l ms l' ms' r n :
  alloc_inv s l ms → runs_inv s1 l' ms' →
  allocator_initialized s1 = true → page_refcnt s1 = page_refcnt s → managed_page_count s1 = NPAGES →
  r mod 4096 = 0 → free_ram ≤ r → 0 ≤ n → r + n * 4096 ≤ next_paddr s1 →
  (∀ x, is_free s1 l' x ↔ is_free s l x ∧ ¬ in_block r n x) →
  let s' := mark_allocated (Z.to_nat n) 0 r s1 in
  alloc_inv s' l' ms' ∧ next_paddr s' = next_paddr s1 ∧ meta_top s' = meta_top s1 ∧
  pmem s' = pmem s1 ∧ ∀ q, managed q → refs s' q = if decide (in_block r n q) then 1 else refs s q.
Proof.
  intros Hi Hi1 Hin Hrc Hct Hal Hlo Hn Hhi Hf. cbn zeta.
  pose proof (ri_next _ _ _ Hi1) as Hnx. pose proof (ri_top _ _ _ Hi1) as Htop.
  destruct (mark_allocated_spec r s1 (Z.to_nat n) 0 (page_refcnt s1)) as (rc' & Hrun & Hlen & Hg);
    [done|by rewrite Hrc, (ai_len _ _ _ Hi)|done..|lia|area_lia|].
  replace (set_page_refcnt (page_refcnt s1) s1) with s1 in Hrun by (by destruct s1).
  rewrite Hrun, !Z.add_0_l, !Z2Nat.id in * by done. rewrite Z.add_0_r in Hg. unfold in_block in *.
  split_and!; try done.
  - split; try done.
    + by rewrite <-(ai_len _ _ _ Hi), <-Hrc, <-Hlen.
    + by destruct Hi1.
    + intros j Hj. cbn [set_page_refcnt page_refcnt]. rewrite Hg by done.
      pose proof (Hf (free_ram + j * 4096)) as Hfj. unfold is_free in *.
      cbn [set_page_refcnt next_paddr].
      destruct (ai_ref _ _ _ Hi j Hj) as (c & Hc & Hcb & Hcf). unfold is_free in Hcf.
      case_decide; [exists 1|exists c; rewrite Hrc]; intuition lia.
  - intros q Hq. pose proof (managed_idx _ Hq) as [Hb He]. unfold refs at 1.
    cbn [set_page_refcnt page_refcnt allocator_initialized]. rewrite Hin, Hg by done.
    rewrite <-He. case_decide; [done|]. unfold refs. by rewrite (ai_init _ _ _ Hi), Hrc.
Qed.

Lemma finish_alloc_spec s s1 l ms l' ms' r n :
  alloc_inv s l ms → runs_inv s1 l' ms' →
  allocator_initialized s1 = true → page_refcnt s1 = page_refcnt s → managed_page_count s1 = NPAGES →
  pmem s1 = pmem s → r mod 4096 = 0 → free_ram ≤ r → 0 < n → r + n * 4096 ≤ next_paddr s1 →
  (∀ x, is_free s1 l' x ↔ is_free s l x ∧ ¬ in_block r n x) →
  (∀ x, in_block r n x → is_free s l x) →
  wp (finish_alloc r n) (λ a s', a = r ∧ alloc_ok s' ∧ block_given s s' r n) s1.
Proof.
  intros Hi Hi1 Hin Hrc Hct Hpm Hal Hlo Hn Hhi Hf Hwas.
  pose proof (ri_next _ _ _ Hi1) as Hnx. pose proof (ri_top _ _ _ Hi1) as Htop.
  pose proof free_ram_bounds. unfold finish_alloc, spin_unlock. wp_steps.
  unfold PAGE_SIZE. rewrite mul32_small by area_lia.
  set (s2 := set_pmem _ s1).
  assert (Hi2 : runs_inv s2 l' ms') by (by destruct Hi1).
  destruct (alloc_inv_mark s s2 l ms l' ms' r n) as (Hi3 & Hn3 & Ht3 & Hm3 & Hr3); try done; [lia|].
  split; [done|]. split; [by eapply unlock_ok|].
  split; try done; cbn [set_alloc_lock next_paddr meta_top pmem].
  - rewrite Hn3, Ht3. simpl. lia.
  - intros q Hq Hb. rewrite refs_lock, Hr3, decide_True by done. split; [|done].
    by apply (refs_inv _ _ _ _ Hi Hq), Hwas.
  - intros q Hq Hb. by rewrite refs_lock, Hr3, decide_False.
  - intros x Hx. rewrite Hm3. unfold s2. cbn [set_pmem pmem]. unfold in_block in Hx.
    rewrite memset_rd by area_lia. by zcases.
  - intros x Hx. rewrite Hm3. unfold s2. cbn [set_pmem pmem]. unfold in_block in Hx.
    rewrite memset_rd, Hpm by area_lia. by zcases.
Qed.

(** [n] consecutive pages inside the runs lie in one run: neighbouring runs
    never touch. *)
Lemma consecutive_in_one lo hi l p n :
  runs_ok lo hi l → p mod 4096 = 0 → 0 < n →
  (∀ i, 0 ≤ i < n → in_runs l (p + i * 4096)) → Exists (λ x, n ≤ x.2) l.
Proof.
  revert lo. induction l as [|[[a b] k] l IH]; intros lo Hok Hp Hn Hin; simpl in *.
  - by destruct (Hin 0); lia.
  - destruct Hok as (Hlo & Hb & Hk & Hhi & Hok).
    assert (Hl : ∀ x, in_runs l x → b + k * 4096 < x).
    { intros x Hx. pose proof (in_runs_bounds _ _ _ _ Hok Hx). lia. }
    destruct (Hin 0) as [H0|H0]; [lia| |].
    + apply Exists_cons_hd. simpl. destruct (Z.le_gt_cases n k) as [|Hgt]; [done|]. exfalso.
      destruct (Hin ((b + k * 4096 - p) / 4096)) as [H1|H1].
      * Z.div_mod_to_equations. lia.
      * Z.div_mod_to_equations. lia.
      * apply Hl in H1. Z.div_mod_to_equations. lia.
    + apply Exists_cons_tl. apply (IH _ Hok Hp Hn). intros i Hi.
      destruct (Hin i Hi) as [H1|H1]; [|done]. apply Hl in H0. lia.
Qed.

(** A call that gives nothing: nothing changes, and there was nothing to give. *)
Record alloc_refused (s s' : alloc_state) (n : Z) : Prop := {
  ar_refs : ∀ q, managed q → refs s' q = refs s q;
  ar_mem : pmem s' = pmem s;
  ar_bump : n = 0 ∨ meta_top s' < next_paddr s' + n * 4096;
  ar_blocks : ∀ p, 0 < n → managed p → p + n * 4096 ≤ next_paddr s' →
    ∃ q, managed q ∧ in_block p n q ∧ refs s q ≠ 0;
}.

Lemma no_fit_refused s l ms n :
  alloc_inv s l ms → 0 < n → Forall (λ x, x.2 < n) l →
  ∀ p, managed p → p + n * 4096 ≤ next_paddr s →
  ∃ q, managed q ∧ in_block p n q ∧ refs s q ≠ 0.
Proof.
  intros Hi Hn HF p Hp Hhi. pose proof (ri_ok _ _ _ (ai_struct _ _ _ Hi)) as Hok.
  pose proof (ri_next _ _ _ (ai_struct _ _ _ Hi)). pose proof (ri_top _ _ _ (ai_struct _ _ _ Hi)).
  set (P := λ i : nat, refs s (p + i * 4096) ≠ 0).
  destruct (decide (Exists P (seq 0 (Z.to_nat n)))) as [HE|HE].
  - apply Exists_exists in HE as (i & Hi'%elem_of_seq & HPi). exists (p + i * 4096).
    unfold managed, in_block in *. split_and!; try done; try area_lia.
    destruct Hp. Z.div_mod_to_equations. lia.
  - exfalso. rewrite <-Forall_Exists_neg, Forall_forall in HE.
    assert (Hcon : Exists (λ x : node, n ≤ x.2) l).
    { destruct Hp as [Hp Hb]. eapply consecutive_in_one; [exact Hok|exact Hp|done|].
      intros i Hi'. specialize (HE (Z.to_nat i)). unfold P in HE. rewrite Z2Nat.id in HE by lia.
      assert (Hm : managed (p + i * 4096)).
      { unfold managed. split; [Z.div_mod_to_equations; lia|area_lia]. }
      destruct (refs_inv _ _ _ _ Hi Hm) as (_ & _ & Hf).
      destruct (decide (refs s (p + i * 4096) = 0)) as [Hz|Hz].
      - apply Hf in Hz as [?|?]; [done|lia].
      - exfalso. apply HE; [apply elem_of_seq; lia|done]. }
    apply Exists_exists in Hcon as (x & Hx & Hle).
    rewrite Forall_forall in HF. specialize (HF x Hx). simpl in *. lia.
Qed.

Lemma block_given_enter s s1 s' r n :
  (∀ p, managed p → refs s1 p = refs s p) → pmem s1 = pmem s →
  block_given s1 s' r n → block_given s s' r n.
Proof.
  intros Hr Hm [Ha Hl Hh Hf Ho Hz Hfr]. split; try done.
  - intros q Hq. rewrite <-Hr by done. by apply Hf.
  - intros q Hq. rewrite <-Hr by done. by apply Ho.
  - intros x. rewrite <-Hm. apply Hfr.
Qed.

Lemma alloc_from_run s l1 a b k l2 ms n :
  alloc_inv s (l1 ++ (a, b, k) :: l2) ms → 0 < n ≤ k →
  wp (let! c := load_run a in
      let paddr := base c in
      let c1 := PageRun (add32 (base c) (mul32 n PAGE_SIZE)) (sub32 (pages c) n) (next c) in
      do! store_run a c1 in
      do! (if pages c1 =? 0 then
             do! (if negb (default 0 (node_addr <$> last l1) =? 0) then
                    let! p := load_run (default 0 (node_addr <$> last l1)) in
                    store_run (default 0 (node_addr <$> last l1)) (PageRun (base p) (pages p) (next c1))
                  else kmodify (set_free_runs (next c1))) in
             release_run_node a
           else kret tt) in
      finish_alloc paddr n)
    (λ r s', alloc_ok s' ∧ r ≠ 0 ∧ block_given s s' r n) s.
Proof.
  intros Hi Hn. pose proof (ai_struct _ _ _ Hi) as Hri. pose proof (ri_ok _ _ _ Hri) as Hok.
  pose proof (seg_mid _ _ _ _ _ _ _ _ (ri_runs _ _ _ Hri)) as (_ & Ha & nx & Hl & Hs2).
  apply runs_ok_app in Hok as [Hok1 Hok2]. simpl in Hok2. pose proof (runs_end_ge _ _ _ Hok1).
  pose proof (ri_next _ _ _ Hri). pose proof (ri_top _ _ _ Hri). pose proof free_ram_bounds.
  wp_step. eapply wp_load_run; [done|]. cbn [base pages next]. cbn zeta. unfold PAGE_SIZE.
  rewrite mul32_small, add32_small, sub32_small by area_lia.
  wp_step. apply wp_store_run; [done|]. wp_step.
  assert (Hfin : ∀ s1, pages_taken s s1 (l1 ++ (a, b, k) :: l2) b n →
    wp (finish_alloc b n) (λ r s', alloc_ok s' ∧ r ≠ 0 ∧ block_given s s' r n) s1).
  { intros s1 (Hsr & Hmt & l' & ms' & Hi1 & Hin). eapply wp_mono.
    - apply (finish_alloc_spec s s1 (l1 ++ (a, b, k) :: l2) ms l' ms' b n); try done; try lia.
      + rewrite (sr_init _ _ Hsr). apply Hi.
      + apply Hsr.
      + rewrite (sr_count _ _ Hsr). apply Hi.
      + apply Hsr.
      + rewrite (sr_next _ _ Hsr). lia.
      + intros x. unfold is_free, in_block in *. rewrite Hin, (sr_next _ _ Hsr). intuition lia.
      + intros x Hx. left. rewrite in_runs_app. simpl. unfold in_block in Hx. lia.
    - intros r s' (-> & Hok' & Hg). split_and!; try done. lia. }
  destruct (Z.eqb_spec (k - n) 0) as [Hk|Hk].
  - eapply wp_mono; [by apply (unlink_run s l1 a b k l2 ms nx)|].
    intros ? s1 Ht. apply Hfin. by replace n with k by lia.
  - wp_step. apply Hfin. apply (shrink_run s l1 a b k l2 ms nx n); [done..|lia].
Qed.

(** [new_next > meta_top || new_next < next_paddr] with the sum wrapping. *)
Lemma bump_check s l ms n :
  alloc_inv s l ms → 0 ≤ n < 1048576 →
  let new_next := add32 (next_paddr s) (n * 4096) in
  (meta_top s < next_paddr s + n * 4096 ∧
   (meta_top s <? new_next) || (new_next <? next_paddr s) = true) ∨
  (next_paddr s + n * 4096 ≤ meta_top s ∧
   (meta_top s <? new_next) || (new_next <? next_paddr s) = false ∧
   new_next = next_paddr s + n * 4096).
Proof.
  intros Hi Hn. pose proof (ri_next _ _ _ (ai_struct _ _ _ Hi)).
  pose proof (ri_top _ _ _ (ai_struct _ _ _ Hi)). pose proof free_ram_bounds. cbn zeta.
  assert (Hcase : add32 (next_paddr s) (n * 4096) = next_paddr s + n * 4096 ∨
    add32 (next_paddr s) (n * 4096) = next_paddr s + n * 4096 - 4294967296 ∧
    4294967296 ≤ next_paddr s + n * 4096).
  { unfold REF_TOP in *. unfold add32, wrap32. Z.div_mod_to_equations. lia. }
  unfold REF_TOP in *. destruct Hcase as [->|[-> ?]]; zcases; intuition lia.
Qed.

Lemma alloc_pages_try_spec s n :
  alloc_ok s → 0 ≤ n < 1048576 →
  wp (alloc_pages_try n) (λ r s', alloc_ok s' ∧
    if decide (r = 0) then alloc_refused s s' n else block_given s s' r n) s.
Proof.
  intros Hok Hn. unfold alloc_pages_try. apply wp_enter; [done|].
  intros s1 l ms Hi Hlk Hm Hr. simpl.
  destruct (Z.eqb_spec n 0) as [->|Hn0].
  { unfold spin_unlock. wp_steps. split; [by eapply unlock_ok|]. simpl.
    split; try done; by left. }
  pose proof (ai_struct _ _ _ Hi) as Hri.
  do 2 wp_step.
  destruct (find_fit_spec s1 n l (list_fuel s1) 0 (free_runs s1)) as
    [[Hf HF]|(l1 & a & b & k & l2 & -> & Hk & Hf)]; [apply Hri|by eapply list_fuel_enough|..].
  - wp_step. eapply wp_done; [exact Hf|]. cbn zeta.
    pose proof (ri_next _ _ _ Hri). pose proof (ri_top _ _ _ Hri). pose proof free_ram_bounds.
    unfold PAGE_SIZE. rewrite mul32_small by area_lia.
    destruct (bump_check s1 l ms n Hi) as [[Hb ->]|(Hb & -> & ->)]; [lia|..]; simpl.
    + unfold spin_unlock. wp_steps. split; [by eapply unlock_ok|]. simpl.
      split; simpl; try done; [by right|]. intros p Hn1 Hp Hhi.
      destruct (no_fit_refused s1 l ms n Hi Hn1 HF p Hp Hhi) as (q & Hq & Hqb & Hz).
      exists q. by rewrite <-Hr.
    + wp_steps.
      set (s2 := set_next_paddr _ s1).
      assert (Hi2 : runs_inv s2 l ms).
      { destruct Hri as [? ? ? ? ? ? Hal ? ? Hro]. split; try done; simpl.
        - lia.
        - Z.div_mod_to_equations. lia.
        - eapply runs_ok_hi; [|done]. lia. }
      eapply wp_mono.
      * apply (finish_alloc_spec s1 s2 l ms l ms (next_paddr s1) n); try done; try apply Hi; try lia.
        -- intros x. unfold is_free, in_block. simpl. pose proof (in_runs_bounds _ _ _ x (ri_ok _ _ _ Hri)).
           intuition lia.
        -- intros x Hx. right. unfold in_block in Hx. lia.
      * intros r s' (-> & Hok' & Hg). split; [done|]. rewrite decide_False by lia.
        by eapply block_given_enter.
  - wp_step. eapply wp_done; [exact Hf|]. cbv beta iota.
    eapply wp_mono; [apply (alloc_from_run s1 l1 a b k l2 ms n Hi); lia|].
    intros r s' (Hok' & Hr0 & Hg). split; [done|]. rewrite decide_False by done.
    by eapply block_given_enter.
Qed.

(** ** Giving pages back *)

(** What [free_pages] does to the count of every page of the block; the warning stays once it is set. *)
Definition block_dropped (s s' : alloc_state) (r n : Z) : Prop :=
  (∀ q, managed q → in_block r n q →
     refs s' q = refs s q - 1 ∨ (refs s q = 1 ∧ refs s' q = 1 ∧ free_meta_oom_warned s' ≠ 0)) ∧
  (∀ q, managed q → ¬ in_block r n q → refs s' q = refs s q) ∧
  pmem s' = pmem s ∧ (free_meta_oom_warned s ≠ 0 → free_meta_oom_warned s' ≠ 0).

Lemma page_of_block p i n :
  p mod 4096 = 0 → free_ram ≤ p → p + n * 4096 ≤ free_ram_end → 0 ≤ i < n → managed (p + i * 4096).
Proof. intros. unfold managed. Z.div_mod_to_equations. lia. Qed.

Lemma free_loop_cur s l ms p n i :
  alloc_inv s l ms → p mod 4096 = 0 → free_ram ≤ p → p + n * 4096 ≤ free_ram_end → 0 ≤ i < n →
  let cur := p + i * 4096 in
  add32 p (mul32 i PAGE_SIZE) = cur ∧
  page_idx_if_managed s cur = Some ((cur - free_ram) / 4096) ∧
  aget (page_refcnt s) ((cur - free_ram) / 4096) = Some (refs s cur).
Proof.
  intros Hi Hp Hlo Hhi Hb. pose proof (page_of_block p i n Hp Hlo Hhi Hb) as Hm.
  pose proof free_ram_bounds. unfold PAGE_SIZE. rewrite mul32_small, add32_small by lia.
  split; [done|]. split; [apply page_idx_managed; [apply Hi|done]|]. by eapply refs_inv.
Qed.

(** The page of index [i] is [p + i * 4096]; one round of the loop. *)
Lemma free_loop_step s l ms p n i k :
  alloc_inv s l ms → p mod 4096 = 0 → free_ram ≤ p → p + n * 4096 ≤ free_ram_end → 0 ≤ i < n →
  refs s (p + i * 4096) ≠ 0 →
  ∃ s' l' ms', free_pages_loop (S k) i p s = free_pages_loop k (i + 1) p s' ∧
    alloc_inv s' l' ms' ∧ ref_dropped s s' (p + i * 4096).
Proof.
  intros Hi Hp Hlo Hhi Hb Hnz. pose proof (page_of_block p i n Hp Hlo Hhi Hb) as Hm.
  destruct (free_loop_cur s l ms p n i Hi Hp Hlo Hhi Hb) as (Hc & Hidx & Hget).
  cbn [free_pages_loop]. rewrite Hc. erewrite kbind_done by done. rewrite Hidx, Hget.
  destruct (Z.eqb_spec (refs s (p + i * 4096)) 0); [done|].
  destruct (wp_elim _ _ _ (dec_and_release_spec s l ms _ Hi Hm Hnz)) as
    ([] & s' & Hrun & l' & ms' & Hi' & Hd).
  erewrite kbind_done by exact Hrun. by exists s', l', ms'.
Qed.

Lemma free_pages_loop_spec p n : ∀ k s l ms i,
  alloc_inv s l ms → p mod 4096 = 0 → free_ram ≤ p → p + n * 4096 ≤ free_ram_end →
  0 ≤ i → i + Z.of_nat k = n → (∀ j, i ≤ j < n → refs s (p + j * 4096) ≠ 0) →
  wp (free_pages_loop k i p) (λ _ s', (∃ l' ms', alloc_inv s' l' ms') ∧
    block_dropped s s' (p + i * 4096) k) s.
Proof.
  induction k as [|k IH]; intros s l ms i Hi Hp Hlo Hhi Hi0 Hk Hnz.
  - cbn. wp_steps. split; [eauto|]. unfold block_dropped, in_block.
    split; [intros; lia|done].
  - destruct (free_loop_step s l ms p n i k) as (s' & l' & ms' & Hrun & Hi' & Hd);
      try done; [lia|apply Hnz; lia|].
    unfold wp. rewrite Hrun. destruct Hd as (Hcur & Hoth & Hmem & _ & _ & Hw).
    assert (Hmp : ∀ j, i ≤ j < n → managed (p + j * 4096)).
    { intros j Hj. apply (page_of_block p j n); try done. lia. }
    eapply wp_mono; [eapply (IH s' l' ms' (i + 1)); try done; try lia|].
    + intros j Hj. rewrite Hoth; [|apply Hmp; lia|lia]. apply Hnz. lia.
    + intros [] s2 (Hok2 & Hb & Ho & Hm2 & Hw2). split; [done|].
      unfold block_dropped, in_block in *. split_and!.
      * intros q Hq Hqb. destruct (decide (q = p + i * 4096)) as [->|Hne].
        -- rewrite Ho; [|done|lia]. intuition lia.
        -- rewrite <-(Hoth q) by done. apply Hb; [done|].
           destruct (managed_apart _ _ Hq (Hmp i ltac:(lia)) Hne); lia.
      * intros q Hq Hqb. rewrite Ho; [|done|lia]. apply Hoth; [done|]. lia.
      * congruence.
      * tauto.
Qed.

(** A free page of the block is found before the loop is over. *)
Lemma free_pages_loop_double p n : ∀ k s l ms i,
  alloc_inv s l ms → p mod 4096 = 0 → free_ram ≤ p → p + n * 4096 ≤ free_ram_end →
  0 ≤ i → i + Z.of_nat k = n → (∃ j, i ≤ j < n ∧ refs s (p + j * 4096) = 0) →
  free_pages_loop k i p s = Panic "free_pages: double free".
Proof.
  induction k as [|k IH]; intros s l ms i Hi Hp Hlo Hhi Hi0 Hk (j & Hj & Hz); [lia|].
  destruct (decide (refs s (p + i * 4096) = 0)) as [Hcur|Hcur].
  - destruct (free_loop_cur s l ms p n i) as (Hc & Hidx & Hget); try done; [lia|].
    cbn [free_pages_loop]. rewrite Hc. erewrite kbind_done by done. by rewrite Hidx, Hget, Hcur.
  - destruct (free_loop_step s l ms p n i k) as (s' & l' & ms' & Hrun & Hi' & Hd); try done; [lia|].
    rewrite Hrun. destruct Hd as (_ & Hoth & _). eapply IH; try done; try lia.
    exists j. assert (j ≠ i) by (by intros ->). split; [lia|].
    rewrite Hoth; [done| |lia]. apply (page_of_block p j n); try done. lia.
Qed.

(** ** The public operations *)

(** The blocks [free_pages] accepts. *)
Definition freeable (s : alloc_state) (p n : Z) : Prop :=
  0 < n ∧ p mod 4096 = 0 ∧ free_ram ≤ p ∧ p + n * 4096 ≤ free_ram_end ∧
  ∀ q, managed q → in_block p n q → refs s q ≠ 0.

Lemma freeable_same s s' p n :
  (∀ q, managed q → refs s' q = refs s q) → freeable s p n → freeable s' p n.
Proof. intros Hr (? & ? & ? & ? & Hq). split_and!; try done. intros q Hm. rewrite Hr; auto. Qed.

Lemma free_pages_spec s p n :
  alloc_ok s → freeable s p n →
  wp (free_pages p n) (λ _ s', alloc_ok s' ∧ block_dropped s s' p n) s.
Proof.
  intros Hok Hfr. unfold free_pages. apply wp_enter; [done|].
  intros s1 l ms Hi Hlk Hm Hr. apply (freeable_same s s1) in Hfr; [|done].
  destruct Hfr as (Hn & Hp & Hlo & Hhi & Hq). simpl.
  destruct (Z.eqb_spec n 0); [lia|]. unfold is_aligned, PAGE_SIZE. rewrite Hp. simpl.
  destruct (Z.ltb_spec p free_ram); [lia|]. simpl.
  destruct (Z.ltb_spec free_ram_end (p + n * 4096)); [lia|]. wp_step.
  eapply wp_mono; [eapply (free_pages_loop_spec p n (Z.to_nat n) s1 l ms 0); try done; try lia|].
  - intros j Hj. apply Hq; [by apply (page_of_block p j n)|]. unfold in_block. lia.
  - rewrite Z2Nat.id, Z.mul_0_l, Z.add_0_r by lia. intros [] s' ((l' & ms' & Hi') & Hb & Ho & Hmem & Hw).
    unfold spin_unlock. wp_steps. split; [by eapply unlock_ok|]. split_and!.
    + intros q Hqm. rewrite <-Hr by done. apply Hb. done.
    + intros q Hqm. rewrite <-Hr by done. apply Ho. done.
    + simpl. congruence.
    + simpl. by rewrite <-(proj2 Hlk).
Qed.

Lemma not_freeable s p n :
  is_u32 p → 0 ≤ n → ¬ freeable s p n →
  n = 0 ∨ p mod 4096 ≠ 0 ∨ p < free_ram ∨ free_ram_end < p + n * 4096 ∨
  (0 < n ∧ p mod 4096 = 0 ∧ free_ram ≤ p ∧ p + n * 4096 ≤ free_ram_end ∧
   ∃ j, 0 ≤ j < n ∧ refs s (p + j * 4096) = 0).
Proof.
  intros Hu Hn Hfr. destruct (decide (n = 0)); [by left|right].
  destruct (decide (p mod 4096 = 0)) as [Hp|]; [right|by left].
  destruct (decide (free_ram ≤ p)); [right|left; lia].
  destruct (decide (p + n * 4096 ≤ free_ram_end)); [right|left; lia].
  split_and!; try done; try lia.
  destruct (decide (Exists (λ i : nat, refs s (p + i * 4096) = 0) (seq 0 (Z.to_nat n)))) as [HE|HE].
  - apply Exists_exists in HE as (i & Hi%elem_of_seq & Hz). exists i. split; [lia|done].
  - destruct Hfr. split_and!; try done; try lia. intros q Hq Hb Hz. apply HE, Exists_exists.
    unfold in_block in Hb. destruct Hq as [Hq _]. exists (Z.to_nat ((q - p) / 4096)).
    rewrite elem_of_seq, Z2Nat.id by (Z.div_mod_to_equations; lia).
    replace (p + (q - p) / 4096 * 4096) with q by (Z.div_mod_to_equations; lia).
    split; [Z.div_mod_to_equations; lia|done].
Qed.

Lemma free_pages_rejects s p n :
  alloc_ok s → is_u32 p → 0 ≤ n → ¬ freeable s p n → ∃ msg, free_pages p n s = Panic msg.
Proof.
  intros Hok Hp Hn Hfr. apply not_freeable in Hfr; [|done..]. unfold free_pages.
  destruct (enter_run s Hok) as (s1 & l & ms & Hi & _ & _ & Hr & ->). simpl.
  destruct (Z.eqb_spec n 0) as [|Hn0]; [by eexists|]. unfold is_aligned, PAGE_SIZE.
  destruct (Z.eqb_spec (p mod 4096) 0) as [Hal|]; [simpl|by eexists].
  destruct (Z.ltb_spec p free_ram) as [|Hlo]; [by eexists|].
  destruct (Z.ltb_spec free_ram_end (p + n * 4096)) as [|Hhi]; [by eexists|]. simpl.
  exists "free_pages: double free". unfold kbind at 1.
  rewrite (free_pages_loop_double p n (Z.to_nat n) s1 l ms 0); try (done || lia).
  destruct Hfr as [?|[?|[?|[?|(_ & _ & _ & _ & j & Hj & Hz)]]]]; [lia..|].
  exists j. split; [done|]. rewrite Hr; [done|]. by apply (page_of_block p j n).
Qed.

(** A page that is not managed is left alone; a free page is refused; any
    other page gains one reference, the [uint16_t] counter wrapping. *)
Lemma page_inc_ref_spec s p :
  alloc_ok s → (managed p → 0 < refs s p < 65535) →
  wp (page_inc_ref p) (λ _ s', alloc_ok s' ∧ pmem s' = pmem s ∧
    ∀ q, managed q → refs s' q = if decide (q = p) then refs s q + 1 else refs s q) s.
Proof.
  intros Hok Hc. unfold page_inc_ref. apply wp_enter; [done|].
  intros s1 l ms Hi Hlk Hm Hr. simpl. do 2 wp_step. unfold spin_unlock.
  destruct (decide (managed p)) as [Hp|Hp].
  - specialize (Hc Hp). rewrite <-Hr in Hc by done.
    destruct (refs_inv _ _ _ _ Hi Hp) as (Hget & Hb & Hf).
    rewrite page_idx_managed, Hget by (done || apply Hi).
    destruct (Z.eqb_spec (refs s1 p) 0); [lia|]. rewrite Z.mod_small by lia. wp_steps.
    set (s2 := set_page_refcnt _ s1).
    assert (Hi2 : alloc_inv s2 l ms).
    { eapply (alloc_inv_set_ref s1 s2 l l ms p (refs s1 p + 1)); eauto; try lia.
      - destruct (ai_struct _ _ _ Hi). by split.
      - reflexivity.
      - change (is_free s2 l p) with (is_free s1 l p). rewrite <-Hf. lia. }
    split; [by eapply unlock_ok|]. split; [done|]. intros q Hq. rewrite refs_lock. unfold s2.
    rewrite (refs_set s1 l ms) by done. rewrite <-Hr by done.
    destruct (decide (p = q)) as [->|]; [by rewrite decide_True|by rewrite decide_False].
  - rewrite page_idx_unmanaged by done. wp_steps. split; [by eapply unlock_ok|]. split; [done|].
    intros q Hq. rewrite refs_lock, Hr by done. rewrite decide_False; [done|]. by intros ->.
Qed.

Lemma page_dec_ref_spec s p :
  alloc_ok s → (managed p → refs s p ≠ 0) →
  wp (page_dec_ref p) (λ _ s', alloc_ok s' ∧
    if decide (managed p) then block_dropped s s' p 1
    else pmem s' = pmem s ∧ (∀ q, managed q → refs s' q = refs s q) ∧
      (free_meta_oom_warned s ≠ 0 → free_meta_oom_warned s' ≠ 0)) s.
Proof.
  intros Hok Hc. unfold page_dec_ref. apply wp_enter; [done|].
  intros s1 l ms Hi Hlk Hm Hr. simpl. do 2 wp_step. unfold spin_unlock.
  destruct (decide (managed p)) as [Hp|Hp].
  - specialize (Hc Hp). rewrite <-Hr in Hc by done.
    destruct (refs_inv _ _ _ _ Hi Hp) as (Hget & Hb & Hf).
    rewrite page_idx_managed, Hget by (done || apply Hi).
    destruct (Z.eqb_spec (refs s1 p) 0); [lia|]. wp_step.
    eapply wp_mono; [by apply (dec_and_release_spec s1 l ms p)|].
    intros [] s2 (l' & ms' & Hi2 & Hd & Ho & Hmem & _ & _ & Hw). wp_steps. split; [by eapply unlock_ok|].
    unfold block_dropped. cbn [set_alloc_lock free_meta_oom_warned pmem].
    split_and!; [| |congruence|by rewrite <-(proj2 Hlk)]; intros q Hq Hqb; rewrite refs_lock, <-Hr by done; unfold in_block in Hqb.
    + assert (q = p) as ->; [|done].
      destruct (decide (q = p)) as [|Hne]; [done|]. destruct (managed_apart _ _ Hq Hp Hne); lia.
    + apply Ho; [done|]. intros ->. lia.
  - rewrite page_idx_unmanaged by done. wp_steps. split; [by eapply unlock_ok|]. split; [done|].
    split; [intros q Hq; by rewrite refs_lock, Hr|]. simpl. by rewrite (proj2 Hlk).
Qed.

(** ** Taking pages and references does not touch the warning *)
Definition quiet {A} (c : AM A) : Prop := ∀ s, wlp c (λ _ s', free_meta_oom_warned s' = free_meta_oom_warned s) s.

Lemma quiet_ret {A} (a : A) : quiet (kret a).
Proof. done. Qed.
Lemma quiet_bind {A B} (c : AM A) (f : A → AM B) : quiet c → (∀ a, quiet (f a)) → quiet (kbind c f).
Proof.
  intros Hc Hf s. apply wlp_bind. eapply wlp_mono; [apply Hc|]. intros a s1 H1. eapply wlp_mono; [apply Hf|]. congruence.
Qed.
Lemma quiet_get : quiet kget.
Proof. done. Qed.
Lemma quiet_modify f : (∀ s, free_meta_oom_warned (f s) = free_meta_oom_warned s) → quiet (kmodify f).
Proof. intros H s. apply H. Qed.
Lemma quiet_panic {A} msg : quiet (kpanic msg : AM A).
Proof. done. Qed.
Lemma quiet_fault {A} : quiet (kfault : AM A).
Proof. done. Qed.
Lemma quiet_load p : quiet (load_run p).
Proof. intros s. unfold wlp, load_run. by destruct (run_heap s !! p). Qed.
Lemma quiet_store p r : quiet (store_run p r).
Proof. intros s. unfold wlp, store_run. by destruct (run_heap s !! p). Qed.
Lemma quiet_lock : quiet spin_lock.
Proof. intros s. unfold wlp, spin_lock. by destruct (_ =? _). Qed.
Lemma quiet_init : quiet init_allocator_if_needed.
Proof. intros s. unfold wlp. destruct (init_allocator_if_needed s) as [[r s']| | | |] eqn:E; try done. by eapply init_warned. Qed.
Create HintDb quiet discriminated.
#[local] Hint Resolve quiet_ret quiet_bind quiet_get quiet_modify quiet_panic quiet_fault quiet_load quiet_store quiet_lock quiet_init : quiet.

Lemma quiet_find_fit n : ∀ fuel prev cur, quiet (find_fit fuel prev cur n).
Proof.
  induction fuel as [|fuel IH]; intros prev cur; cbn [find_fit]; [done|]. case_match; auto with quiet.
  apply quiet_bind; [auto with quiet|]. intros c. case_match; auto with quiet.
Qed.
Lemma quiet_mark k : ∀ i p s, free_meta_oom_warned (mark_allocated k i p s) = free_meta_oom_warned s.
Proof. induction k as [|k IH]; intros i p s; cbn [mark_allocated]; [done|]. rewrite IH. by case_match. Qed.
#[local] Hint Resolve quiet_find_fit quiet_mark : quiet.

Lemma quiet_alloc n : quiet (alloc_pages_try n).
Proof.
  unfold alloc_pages_try, finish_alloc, spin_unlock, release_run_node.
  repeat (first [apply quiet_bind; [|intros ?]|case_match]; auto with quiet).
Qed.
Lemma quiet_inc p : quiet (page_inc_ref p).
Proof.
  unfold page_inc_ref, spin_unlock. repeat (first [apply quiet_bind; [|intros ?]|case_match]; auto with quiet).
Qed.
End spec.
