(* ===== verification/PageIface.v ===== *)
(** * The interface of the page allocator

    [PageOps] names the operations of [kernel/page_alloc.h] with the memory
    behind them, and [PageOpsOk] states what the rest of the kernel may rely
    on.  The memory manager is modelled and verified against this interface;
    [page_alloc_ops] and [page_alloc_ops_ok] show that [src/mm/page_alloc.c]
    implements it. *)

From S2P Require Import Prelude Layout KString PageAlloc PageAllocInv PageAllocSpec.

Class PageOps (P : Type) := {
  pg_alloc : Z → km P Z;            (* alloc_pages, alloc_pages_try *)
  pg_free : Z → Z → km P unit;      (* free_pages *)
  pg_inc : Z → km P unit;           (* page_inc_ref *)
  pg_dec : Z → km P unit;           (* page_dec_ref *)
  pg_mem : P → mem;                 (* the bytes of physical memory *)
  pg_set_mem : mem → P → P;
}.

(** A block of [n] pages at [r], fresh, zeroed and counted once. *)
Record pg_given `{Layout} (refs refs' : Z → Z) (m m' : mem) (r n : Z) : Prop := {
  given_aligned : r mod 4096 = 0;
  given_range : free_ram ≤ r ∧ r + n * 4096 ≤ free_ram_end;
  given_fresh : ∀ q, managed q → in_block r n q → refs q = 0 ∧ refs' q = 1;
  given_others : ∀ q, managed q → ¬ in_block r n q → refs' q = refs q;
  given_zeroed : ∀ x, in_block r n x → rd m' x = 0;
  given_frame : ∀ x, ¬ in_block r n x → rd m' x = rd m x;
}.

(** One reference less on every page of the block; a page keeps its last
    reference only when the allocator cannot record it as free and has warned
    of that ([warned'], from then on). *)
Record pg_dropped `{Layout} (refs refs' : Z → Z) (warned warned' : Prop) (r n : Z) : Prop := {
  dropped_block : ∀ q, managed q → in_block r n q →
    refs' q = refs q - 1 ∨ (refs q = 1 ∧ refs' q = 1 ∧ warned');
  dropped_others : ∀ q, managed q → ¬ in_block r n q → refs' q = refs q;
  dropped_warned : warned → warned';
}.

Class PageOpsOk `{Layout} (P : Type) `{PageOps P} := {
  pg_ok : P → Prop;
  pg_refs : P → Z → Z;
  pg_warned : P → Prop;             (* the warning that a page could not be recorded as free *)
  pg_refs_bound s q : pg_ok s → managed q → 0 ≤ pg_refs s q < 65536;
  pg_mem_set m s : pg_mem (pg_set_mem m s) = m;
  pg_set_mem_ok m s : pg_ok s → pg_ok (pg_set_mem m s);
  pg_refs_set_mem m s q : pg_refs (pg_set_mem m s) q = pg_refs s q;
  pg_warned_set_mem m s : pg_warned (pg_set_mem m s) ↔ pg_warned s;
  pg_alloc_spec s n : pg_ok s → 0 ≤ n < 1048576 →
    wp (pg_alloc n) (λ r s', pg_ok s' ∧
      if decide (r = 0) then pg_mem s' = pg_mem s ∧ (∀ q, managed q → pg_refs s' q = pg_refs s q)
      else pg_given (pg_refs s) (pg_refs s') (pg_mem s) (pg_mem s') r n) s;
  pg_alloc_warned s n : wlp (pg_alloc n) (λ _ s', pg_warned s → pg_warned s') s;
  pg_inc_warned s p : wlp (pg_inc p) (λ _ s', pg_warned s → pg_warned s') s;
  pg_free_spec s p n : pg_ok s → 0 < n → p mod 4096 = 0 → free_ram ≤ p → p + n * 4096 ≤ free_ram_end →
    (∀ q, managed q → in_block p n q → pg_refs s q ≠ 0) →
    wp (pg_free p n) (λ _ s', pg_ok s' ∧ pg_mem s' = pg_mem s ∧
      pg_dropped (pg_refs s) (pg_refs s') (pg_warned s) (pg_warned s') p n) s;
  pg_inc_spec s p : pg_ok s → (managed p → 0 < pg_refs s p < 65535) →
    wp (pg_inc p) (λ _ s', pg_ok s' ∧ pg_mem s' = pg_mem s ∧
      ∀ q, managed q → pg_refs s' q = if decide (q = p) then pg_refs s q + 1 else pg_refs s q) s;
  pg_dec_spec s p : pg_ok s → (managed p → pg_refs s p ≠ 0) →
    wp (pg_dec p) (λ _ s', pg_ok s' ∧ pg_mem s' = pg_mem s ∧
      if decide (managed p) then pg_dropped (pg_refs s) (pg_refs s') (pg_warned s) (pg_warned s') p 1
      else (∀ q, managed q → pg_refs s' q = pg_refs s q) ∧ (pg_warned s → pg_warned s')) s;
}.
#[global] Hint Mode PageOps ! : typeclass_instances.

#[export] Instance page_alloc_ops `{Layout} : PageOps alloc_state := {
  pg_alloc := alloc_pages;
  pg_free := free_pages;
  pg_inc := page_inc_ref;
  pg_dec := page_dec_ref;
  pg_mem := pmem;
  pg_set_mem := set_pmem;
}.

Section instance.
Context {L : Layout} {LOK : LayoutOk}.

Lemma refs_bound s q : alloc_ok s → managed q → 0 ≤ refs s q < 65536.
Proof.
  intros [_ [Hf|(l & ms & Hi)]] Hq; [unfold refs; rewrite Hf; lia|]. by eapply refs_inv.
Qed.

Lemma set_pmem_ok m s : alloc_ok s → alloc_ok (set_pmem m s).
Proof.
  intros [Hl [Hf|(l & ms & Hi)]]; (split; [done|]); [by left|right].
  exists l, ms. destruct Hi as [? ? ? Hs ?]. split; try done. by destruct Hs.
Qed.

Lemma block_given_iface s s' r n :
  block_given s s' r n → pg_given (refs s) (refs s') (pmem s) (pmem s') r n.
Proof. intros [Ha Hl [Hh Ht] ? ? ? ?]. split; try done. area_lia. Qed.

#[export] Program Instance page_alloc_ops_ok : PageOpsOk alloc_state := {
  pg_ok := alloc_ok;
  pg_refs := refs;
  pg_warned s := free_meta_oom_warned s ≠ 0;
}.
Next Obligation. apply refs_bound. Qed.
Next Obligation. done. Qed.
Next Obligation. apply set_pmem_ok. Qed.
Next Obligation. done. Qed.
Next Obligation. done. Qed.
Next Obligation.
  intros s n Hok Hn. eapply wp_mono; [by apply alloc_pages_try_spec|].
  intros r s' [Hok' Hr]. split; [done|]. case_decide.
  - destruct Hr. done.
  - by apply block_given_iface.
Qed.
Next Obligation. intros s n. eapply wlp_mono; [apply quiet_alloc|]. simpl. by intros _ s' ->. Qed.
Next Obligation. intros s p. eapply wlp_mono; [apply quiet_inc|]. simpl. by intros _ s' ->. Qed.
Next Obligation.
  intros s p n Hok Hn Hp Hlo Hhi Hq. eapply wp_mono; [by apply free_pages_spec|].
  intros [] s' (Hok' & Hb & Ho & Hm & Hw). split_and!; try done.
Qed.
Next Obligation. apply page_inc_ref_spec. Qed.
Next Obligation.
  intros s p Hok Hp. eapply wp_mono; [by apply page_dec_ref_spec|].
  intros [] s' [Hok' Hd]. case_decide as Hmp.
  - destruct Hd as (Hb & Ho & Hm & Hw). split_and!; try done.
  - destruct Hd. done.
Qed.
End instance.

(** ** Refusals

    A mark on the states of the allocator that a refused request sets and that no
    operation removes.  It says of a run whether a request in it was refused. *)
Class Refusals (P : Type) `{PageOps P} := {
  refused : P → Prop;
  rf_alloc n s : wlp (pg_alloc n) (λ r s', refused s ∨ r = 0 → refused s') s;
  rf_free p n s : wlp (pg_free p n) (λ _ s', refused s → refused s') s;
  rf_inc p s : wlp (pg_inc p) (λ _ s', refused s → refused s') s;
  rf_dec p s : wlp (pg_dec p) (λ _ s', refused s → refused s') s;
  rf_set_mem m s : refused s → refused (pg_set_mem m s);
}.

(** Any allocator, with a flag that records refusals and changes nothing else. *)
Section logged.
Context {L : Layout} {P : Type} {PO : PageOps P} {POK : PageOpsOk P}.

Definition under_log {A} (c : km P A) : km (P * bool) A := zoom fst (λ p q, (p, q.2)) c.

#[local] Instance logged_ops : PageOps (P * bool) := {
  pg_alloc n := let! r := under_log (pg_alloc n) in do! kmodify (λ q, (q.1, q.2 || (r =? 0))) in kret r;
  pg_free p n := under_log (pg_free p n);
  pg_inc p := under_log (pg_inc p);
  pg_dec p := under_log (pg_dec p);
  pg_mem q := pg_mem q.1;
  pg_set_mem m q := (pg_set_mem m q.1, q.2);
}.

Lemma wp_under_log {A} (c : km P A) (Q : A → P → Prop) q : wp c Q q.1 → wp (under_log c) (λ a q', Q a q'.1) q.
Proof. intros H. apply wp_zoom. eapply wp_mono; [exact H|]. done. Qed.

Lemma wlp_under_log {A} (c : km P A) (Q : A → P → Prop) q : wlp c Q q.1 → wlp (under_log c) (λ a q', Q a q'.1 ∧ q'.2 = q.2) q.
Proof. unfold wlp, under_log, zoom. by destruct (c q.1) as [[a p]| | | |]. Qed.

Lemma logged_alloc (Q : Z → P → Prop) n q : wp (pg_alloc n) Q q.1 → wp (pg_alloc n) (λ r q', Q r q'.1) q.
Proof.
  intros H. cbn [pg_alloc logged_ops]. wp_step. eapply wp_mono; [by apply (wp_under_log _ Q)|].
  intros r q' Hq. by wp_steps.
Qed.

#[local] Program Instance logged_ops_ok : PageOpsOk (P * bool) := {
  pg_ok q := pg_ok q.1;
  pg_refs q := pg_refs q.1;
  pg_warned q := pg_warned q.1;
}.
Next Obligation. intros [s b] q. apply (pg_refs_bound (P:=P)). Qed.
Next Obligation. intros m [s b]. apply (pg_mem_set (P:=P)). Qed.
Next Obligation. intros m [s b]. apply (pg_set_mem_ok (P:=P)). Qed.
Next Obligation. intros m [s b] q. apply (pg_refs_set_mem (P:=P)). Qed.
Next Obligation. intros m [s b]. apply (pg_warned_set_mem (P:=P)). Qed.
Next Obligation. intros q n Hok Hn. eapply wp_mono; [by eapply logged_alloc, (pg_alloc_spec (P:=P))|]. done. Qed.
Next Obligation.
  intros q n. apply wlp_bind. eapply wlp_mono; [apply wlp_under_log, (pg_alloc_warned (P:=P))|]. intros r q' [H _]. by wlp_steps.
Qed.
Next Obligation. intros q p. eapply wlp_mono; [apply wlp_under_log, (pg_inc_warned (P:=P))|]. by intros r q' [H _]. Qed.
Next Obligation. intros q p n Hok Hn Hp Hlo Hhi Hq. eapply wp_mono; [by eapply wp_under_log, (pg_free_spec (P:=P))|]. done. Qed.
Next Obligation. intros q p Hok Hr. eapply wp_mono; [by eapply wp_under_log, (pg_inc_spec (P:=P))|]. done. Qed.
Next Obligation. intros q p Hok Hr. eapply wp_mono; [by eapply wp_under_log, (pg_dec_spec (P:=P))|]. done. Qed.

Lemma log_kept {A} (c : km P A) q : wlp (under_log c) (λ _ q', q.2 = true → q'.2 = true) q.
Proof.
  eapply wlp_mono; [apply (wlp_under_log _ (λ _ _, True))|]; [unfold wlp; by destruct (c q.1) as [[]| | | |]|].
  by intros a q' [_ ->].
Qed.

#[local] Program Instance logged_refusals : Refusals (P * bool) := { refused q := q.2 = true }.
Next Obligation.
  intros n q. apply wlp_bind. eapply wlp_mono; [apply (log_kept (pg_alloc n))|]. intros r q' Hq. wlp_steps. cbn [snd].
  rewrite orb_true_iff, Z.eqb_eq. naive_solver.
Qed.
Next Obligation. intros p n q. apply (log_kept (pg_free p n)). Qed.
Next Obligation. intros p q. apply (log_kept (pg_inc p)). Qed.
Next Obligation. intros p q. apply (log_kept (pg_dec p)). Qed.
Next Obligation. done. Qed.
End logged.
