(* ===== verification/PageAllocProps.v ===== *)
(** * The properties of the page allocator

    The theorems a user of [src/mm/page_alloc.c] relies on, with a concrete
    instance of each; the proofs rest on [PageAllocInv] and [PageAllocSpec]. *)

From S2P Require Import Prelude Layout KString PageAlloc PageAllocInv PageAllocSpec.

Section props.
Context {L : Layout} {LOK : LayoutOk}.
Implicit Types s : alloc_state.

(** A request of no pages. *)
Lemma alloc_pages_zero s : alloc_ok s → wp (alloc_pages 0) (λ r _, r = 0) s.
Proof.
  intros Hok. unfold alloc_pages, alloc_pages_try. apply wp_enter; [done|].
  intros s1 l ms _ _ _ _. simpl. unfold spin_unlock. by wp_steps.
Qed.

(** C1: let the allocator be consistent ([alloc_ok], what holds between calls)
    and let [n] be below 2^20, so that [n * PAGE_SIZE] does not wrap.  Then
    [alloc_pages(n)] returns (no panic, no deadlock, no fault, no endless loop)
    and keeps the allocator consistent.  A non-null result is a page-aligned
    block of [n] managed pages that were all free, now have one reference each,
    read as zero and lie below the allocator's own metadata, while no other
    page changes its count or its contents.  A null result changes no count and
    no contents; for [n = 0] the result is null, and for [n > 0] it is null only
    if the bump region has fewer than [n] pages and every block of [n] pages
    below it holds a page in use. *)
Theorem alloc_pages_correct s n :
  alloc_ok s → 0 ≤ n < 1048576 →
  wp (alloc_pages n) (λ r s', alloc_ok s' ∧ (n = 0 → r = 0) ∧
    if decide (r = 0) then alloc_refused s s' n else block_given s s' r n) s.
Proof.
  intros Hok Hn. destruct (decide (n = 0)) as [->|Hn0].
  - eapply wp_mono; [apply wp_and; [by apply alloc_pages_try_spec|by apply alloc_pages_zero]|].
    by intros r s' [[? ?] ?].
  - eapply wp_mono; [by apply alloc_pages_try_spec|]. by intros r s' [? ?].
Qed.

(** C5: [free_pages(paddr, n)] returns exactly for a non-empty, page-aligned
    block inside the managed range none of whose pages is free: then every page
    of it loses one reference (a last reference is kept only with the metadata
    warning set), and nothing else changes.  Every other call, a double free
    included, ends in a panic. *)
Theorem free_pages_correct s p n :
  alloc_ok s → is_u32 p → 0 ≤ n →
  (freeable s p n → wp (free_pages p n) (λ _ s', alloc_ok s' ∧ block_dropped s s' p n) s) ∧
  (¬ freeable s p n → ∃ msg, free_pages p n s = Panic msg).
Proof. split; intros; [by apply free_pages_spec|by apply free_pages_rejects]. Qed.

(** allocating a block and freeing it gives every page its old reference
    count back, unless the metadata area is exhausted. *)
Theorem alloc_free_roundtrip s n :
  alloc_ok s → 0 < n < 1048576 →
  wp (let! r := alloc_pages n in if r =? 0 then kret tt else free_pages r n)
    (λ _ s', alloc_ok s' ∧
      (free_meta_oom_warned s' = 0 → ∀ q, managed q → refs s' q = refs s q)) s.
Proof.
  intros Hok Hn. wp_step. eapply wp_mono; [apply alloc_pages_try_spec; [done|lia]|].
  intros r s1 [Hok1 Hr]. destruct (Z.eqb_spec r 0) as [->|Hr0].
  - wp_steps. split; [done|]. intros _. apply Hr.
  - rewrite decide_False in Hr by done. destruct Hr as [Ha Hl Hh Hf Ho _ _].
    eapply wp_mono; [apply free_pages_spec; [done|]|].
    + split_and!; try done; try lia; [area_lia|]. intros q Hq Hb. destruct (Hf q Hq Hb). lia.
    + intros [] s2 (Hok2 & Hb2 & Ho2 & _). split; [done|]. intros Hw q Hq.
      destruct (decide (in_block r n q)) as [Hb|Hb].
      * destruct (Hf q Hq Hb) as [-> Hone]. destruct (Hb2 q Hq Hb) as [?|(_ & _ & ?)]; lia.
      * by rewrite Ho2, Ho by done.
Qed.

(** on a page in use, [page_inc_ref] followed by [page_dec_ref] returns and
    leaves every count and all memory as they were. *)
Theorem page_inc_dec_roundtrip s p :
  alloc_ok s → managed p → 0 < refs s p < 65535 →
  wp (do! page_inc_ref p in page_dec_ref p)
    (λ _ s', alloc_ok s' ∧ pmem s' = pmem s ∧ ∀ q, managed q → refs s' q = refs s q) s.
Proof.
  intros Hok Hp Hr. wp_step. eapply wp_mono; [by apply page_inc_ref_spec|].
  intros [] s1 (Hok1 & Hm1 & Hr1). pose proof (Hr1 p Hp) as Hp1. rewrite decide_True in Hp1 by done.
  eapply wp_mono; [apply page_dec_ref_spec; [done|lia]|].
  intros [] s2 (Hok2 & Hd). rewrite decide_True in Hd by done. destruct Hd as (Hb & Ho & Hm2 & _).
  split; [done|]. split; [congruence|]. intros q Hq. destruct (decide (q = p)) as [->|Hne].
  - destruct (Hb p Hp) as [?|(? & ? & _)]; unfold in_block; lia.
  - rewrite Ho, Hr1, decide_False; try done. unfold in_block.
    destruct (managed_apart _ _ Hq Hp Hne); lia.
Qed.

Lemma mark_allocated_only_refs p : ∀ k i s, ∃ rc, mark_allocated k i p s = set_page_refcnt rc s.
Proof.
  induction k as [|k IH]; intros i s; cbn [mark_allocated].
  - exists (page_refcnt s). by destruct s.
  - destruct (page_idx_if_managed s _) as [idx|]; [|apply IH].
    destruct (IH (i + 1) (set_page_refcnt (aset (page_refcnt s) idx 1) s)) as [rc ->]. by exists rc.
Qed.

(** With no free run the block comes from the bump pointer. *)
Lemma bump_alloc_run s s0 n new_next :
  alloc_lock s = 0 → init_allocator_if_needed (set_alloc_lock 1 s) = Done (0, s0) →
  free_runs s0 = 0 → n ≠ 0 → new_next = add32 (next_paddr s0) (mul32 n PAGE_SIZE) →
  next_paddr s0 ≤ new_next ≤ meta_top s0 →
  ∃ rc, alloc_pages n s = Done (next_paddr s0, set_alloc_lock 0 (set_page_refcnt rc
    (set_pmem (memset (pmem s0) (next_paddr s0) 0 (mul32 n PAGE_SIZE)) (set_next_paddr new_next s0)))).
Proof.
  intros Hl Hinit Hfr Hn Hnew Hb. unfold alloc_pages, alloc_pages_try.
  erewrite kbind_done by (unfold spin_lock; by rewrite Hl).
  erewrite kbind_done by exact Hinit. simpl. destruct (Z.eqb_spec n 0); [done|].
  erewrite kbind_done by done. erewrite kbind_done by (unfold list_fuel; simpl; by rewrite Hfr).
  cbv beta iota zeta. rewrite <-Hnew.
  destruct (Z.ltb_spec (meta_top s0) new_next); [lia|].
  destruct (Z.ltb_spec new_next (next_paddr s0)); [lia|]. simpl.
  unfold finish_alloc, spin_unlock, kmodify, kbind. simpl.
  destruct (mark_allocated_only_refs (next_paddr s0) (Z.to_nat n) 0
    (set_pmem (memset (pmem s0) (next_paddr s0) 0 (mul32 n PAGE_SIZE)) (set_next_paddr new_next s0)))
    as [rc Hrc].
  exists rc. by rewrite <-Hrc.
Qed.

(** The overflow check of [alloc_pages] does not see [n * PAGE_SIZE] wrap:
    with [n = 2^20] the request counts as zero bytes and succeeds, nothing is
    reserved, and the next request is given the same address. *)
Theorem alloc_pages_size_wraps m :
  ∃ s1 s2, alloc_pages 1048576 (boot_alloc_state m) = Done (free_ram, s1) ∧
    pmem s1 = m ∧ alloc_pages 1 s1 = Done (free_ram, s2).
Proof.
  pose proof free_ram_bounds. pose proof free_ram_end_eq as He. unfold NPAGES in He.
  destruct (init_establishes (set_alloc_lock 1 (boot_alloc_state m))) as
    (s0 & Hrun & Hi & Hl & Hm & Hn & Hmt & _); [done|].
  pose proof (ai_struct _ _ _ Hi) as Hri.
  assert (Hfr : free_runs s0 = 0) by (by apply (seg_nil_iff _ _ [] (ri_runs _ _ _ Hri))).
  assert (Hz : mul32 1048576 PAGE_SIZE = 0) by done.
  destruct (bump_alloc_run (boot_alloc_state m) s0 1048576 free_ram) as [rc Hrc]; try done.
  { rewrite Hn, Hz, add32_small; lia. }
  { rewrite Hn, Hmt. area_lia. }
  rewrite Hn, Hz in Hrc. eexists _. rewrite Hrc. set (s1 := set_alloc_lock 0 _).
  destruct (bump_alloc_run s1 (set_alloc_lock 1 s1) 1 (free_ram + 4096)) as [rc2 Hrc2]; try done.
  { unfold init_allocator_if_needed. simpl. by rewrite (ai_init _ _ _ Hi). }
  { simpl. unfold PAGE_SIZE. rewrite mul32_small, add32_small; lia. }
  { simpl. rewrite Hmt. area_lia. }
  simpl in Hrc2. eexists _. split; [done|]. split; [|exact Hrc2]. exact Hm.
Qed.
End props.

(** ** Concrete instances *)

Section demo.
#[local] Existing Instance demo_layout.
#[local] Existing Instance demo_layout_ok.

Lemma boot_ok m : alloc_ok (boot_alloc_state m).
Proof. split; [done|by left]. Qed.

(** The state after two pages were handed out at boot. *)
Definition demo_two : outcome (Z * alloc_state) := alloc_pages 2 (boot_alloc_state ∅).

Lemma demo_two_facts :
  ∃ s, demo_two = Done (free_ram, s) ∧ alloc_ok s ∧ block_given (boot_alloc_state ∅) s free_ram 2.
Proof.
  pose proof (alloc_pages_try_spec (boot_alloc_state ∅) 2 (boot_ok ∅) ltac:(lia)) as Hs.
  assert (Hr : match demo_two with Done (r, _) => r | _ => 0 end = free_ram) by (vm_compute; done).
  unfold wp in Hs. unfold demo_two, alloc_pages in *.
  destruct (alloc_pages_try 2 (boot_alloc_state ∅)) as [[r s]| | | |]; try done.
  subst r. by exists s.
Qed.

Lemma demo_managed : managed free_ram.
Proof. split; [reflexivity|]. split; [lia|reflexivity]. Qed.

Lemma alloc_pages_correct_witness :
  wp (alloc_pages 3) (λ r s', alloc_ok s' ∧ (3 = 0 → r = 0) ∧
    if decide (r = 0) then alloc_refused (boot_alloc_state ∅) s' 3
    else block_given (boot_alloc_state ∅) s' r 3) (boot_alloc_state ∅).
Proof. apply alloc_pages_correct; [apply boot_ok|lia]. Defined.

Lemma free_pages_correct_witness :
  ∃ s, alloc_ok s ∧ freeable s free_ram 2 ∧
    wp (free_pages free_ram 2) (λ _ s', alloc_ok s' ∧ block_dropped s s' free_ram 2) s.
Proof.
  destruct demo_two_facts as (s & _ & Hok & Hg). exists s. split; [exact Hok|].
  assert (Hf : freeable s free_ram 2).
  { split; [lia|]. split; [reflexivity|]. split; [lia|]. split; [unfold free_ram_end; lia|].
    intros q Hq Hb. destruct (bg_fresh _ _ _ _ Hg q Hq Hb). lia. }
  split; [exact Hf|].
  apply (free_pages_correct s free_ram 2); [exact Hok|split; [by vm_compute|reflexivity]|lia|exact Hf].
Defined.

Lemma alloc_free_roundtrip_witness :
  wp (let! r := alloc_pages 3 in if r =? 0 then kret tt else free_pages r 3)
    (λ _ s', alloc_ok s' ∧ (free_meta_oom_warned s' = 0 →
      ∀ q, managed q → refs s' q = refs (boot_alloc_state ∅) q)) (boot_alloc_state ∅).
Proof. apply alloc_free_roundtrip; [apply boot_ok|lia]. Defined.

Lemma page_inc_dec_roundtrip_witness :
  ∃ s, alloc_ok s ∧ refs s free_ram = 1 ∧
    wp (do! page_inc_ref free_ram in page_dec_ref free_ram)
      (λ _ s', alloc_ok s' ∧ pmem s' = pmem s ∧ ∀ q, managed q → refs s' q = refs s q) s.
Proof.
  destruct demo_two_facts as (s & _ & Hok & Hg). exists s. split; [exact Hok|].
  destruct (bg_fresh _ _ _ _ Hg free_ram demo_managed) as [_ H1]; [unfold in_block; lia|].
  split; [exact H1|].
  apply page_inc_dec_roundtrip; [exact Hok|exact demo_managed|lia].
Defined.

Lemma alloc_pages_size_wraps_witness :
  ∃ s1 s2, alloc_pages 1048576 (boot_alloc_state ∅) = Done (free_ram, s1) ∧
    pmem s1 = ∅ ∧ alloc_pages 1 s1 = Done (free_ram, s2).
Proof. apply alloc_pages_size_wraps. Defined.
End demo.
