(* ===== verification/Vm.v ===== *)
(** * Sv32 page tables, [src/mm/vm.c]

    The tables live in the byte memory of the page allocator; every [uint32_t]
    entry is read and written with [load32] and [store32]. *)

From S2P Require Import Prelude Layout KString PageAlloc PageAllocSpec PageIface.

Definition SATP_MODE_SV32 : Z := 2147483648.
Definition SATP_PPN_MASK : Z := 4194303.

Definition PTE_V : Z := 1.
Definition PTE_R : Z := 2.
Definition PTE_W : Z := 4.
Definition PTE_X : Z := 8.
Definition PTE_U : Z := 16.
Definition PTE_A : Z := 64.
Definition PTE_D : Z := 128.
Definition PTE_RWX : Z := Z.lor (Z.lor PTE_R PTE_W) PTE_X.

Definition VM_FLG_R : Z := 1.
Definition VM_FLG_W : Z := 2.
Definition VM_FLG_X : Z := 4.
Definition VM_FLG_U : Z := 8.

Definition VMA_PROT_R : Z := 1.
Definition VMA_PROT_W : Z := 2.
Definition VMA_PROT_X : Z := 4.

(** The globals of [vm.c], the allocator and memory they use, and the [satp]
    register of the hart. *)
Record vm_state (P : Type) := VmState {
  vm_pages : P;
  kernel_root_pt : Z;
  kernel_satp_value : Z;
  csr_satp : Z;
}.
Arguments VmState {P}.
Arguments vm_pages {P}.
Arguments kernel_root_pt {P}.
Arguments kernel_satp_value {P}.
Arguments csr_satp {P}.

Definition set_vm_pages {P} (p : P) (s : vm_state P) :=
  VmState p (kernel_root_pt s) (kernel_satp_value s) (csr_satp s).
Definition set_kernel_root_pt {P} v (s : vm_state P) :=
  VmState (vm_pages s) v (kernel_satp_value s) (csr_satp s).
Definition set_kernel_satp_value {P} v (s : vm_state P) :=
  VmState (vm_pages s) (kernel_root_pt s) v (csr_satp s).
Definition set_csr_satp {P} v (s : vm_state P) :=
  VmState (vm_pages s) (kernel_root_pt s) (kernel_satp_value s) v.

(** ** Arithmetic on addresses and entries *)

Definition page_floor (value : Z) : Z := Z.land value (not32 (PAGE_SIZE - 1)).
Definition page_ceil (value : Z) : Z := Z.land (add32 value (PAGE_SIZE - 1)) (not32 (PAGE_SIZE - 1)).

(** [(x >> 12) << 10] and [(pte >> 10) << 12] on 32 bits. *)
Definition ppn_field (pa : Z) : Z := wrap32 (Z.shiftl (Z.shiftr pa 12) 10).
Definition pte_addr (pte : Z) : Z := wrap32 (Z.shiftl (Z.shiftr pte 10) 12).

Definition pte_from_pa (pa perm : Z) : Z :=
  Z.lor (Z.lor (Z.lor (Z.lor (ppn_field pa) perm) PTE_V) PTE_A) PTE_D.

Definition pte_perm_from_flags (flags : Z) : Z :=
  let p := 0 in
  let p := if has_bits flags VM_FLG_R then Z.lor p PTE_R else p in
  let p := if has_bits flags VM_FLG_W then Z.lor p PTE_W else p in
  let p := if has_bits flags VM_FLG_X then Z.lor p PTE_X else p in
  let p := if has_bits flags VM_FLG_U then Z.lor p PTE_U else p in
  p.

Definition vpn1 (va : Z) : Z := Z.land (Z.shiftr va 22) 1023.
Definition vpn0 (va : Z) : Z := Z.land (Z.shiftr va 12) 1023.

Definition vm_make_satp (root_pa : Z) : Z := Z.lor SATP_MODE_SV32 (Z.shiftr root_pa 12).
Definition vm_root_from_satp (satp_value : Z) : Z :=
  wrap32 (Z.shiftl (Z.land satp_value SATP_PPN_MASK) 12).

(** [table[i]] *)
Definition get_pte (m : mem) (table i : Z) : Z := load32 m (table + 4 * i).
Definition set_pte (m : mem) (table i v : Z) : mem := store32 m (table + 4 * i) v.

(** [for (i = 0; i < 1024; i++) init_l0[i] = pte_from_pa(pa4m + i * PAGE_SIZE, perm);]
    with [k] iterations left. *)
Fixpoint fill_l0 (k : nat) (i l0 pa4m perm : Z) (m : mem) : mem :=
  match k with
  | O => m
  | S k' =>
      fill_l0 k' (i + 1) l0 pa4m perm
        (set_pte m l0 i (pte_from_pa (add32 pa4m (mul32 i PAGE_SIZE)) perm))
  end.

#[global] Arguments fill_l0 : simpl never.

(** [vm_query_user_page]: [None] where it returns 0, otherwise [*pa_out] and
    [*prot_out]. *)
Definition query_page (m : mem) (root va : Z) : option (Z * Z) :=
  let pte1 := get_pte m root (vpn1 va) in
  if negb (has_bits pte1 PTE_V) then None
  else if has_bits pte1 PTE_RWX then
    Some (Z.lor (pte_addr pte1) (Z.land va 4194303), Z.land pte1 (Z.lor PTE_RWX PTE_U))
  else
    let pte0 := get_pte m (pte_addr pte1) (vpn0 va) in
    if negb (has_bits pte0 PTE_V) || negb (has_bits pte0 PTE_RWX) then None
    else Some (Z.lor (pte_addr pte0) (Z.land va 4095), Z.land pte0 (Z.lor PTE_RWX PTE_U)).

Section ops.
Context {L : Layout} {P : Type} {PO : PageOps P}.

Abbreviation VM := (km (vm_state P)).
Definition on_pages {A} (c : km P A) : VM A := zoom vm_pages set_vm_pages c.

Definition vmem (s : vm_state P) : mem := pg_mem (vm_pages s).
Definition set_vmem (m : mem) (s : vm_state P) : vm_state P :=
  set_vm_pages (pg_set_mem m (vm_pages s)) s.
Definition upd_vmem (f : mem → mem) : VM unit := kmodify (λ s, set_vmem (f (vmem s)) s).

(** The level-0 table for [pte1], made when there is none and filled with
    the 4 KiB pages of the superpage it replaces; [None] when memory is out. *)
Definition vm_get_l0 (root va pte1 : Z) : VM (option Z) :=
  if negb (has_bits pte1 PTE_V) || has_bits pte1 PTE_RWX then
    let! l0_pa := on_pages (pg_alloc 1) in
    if l0_pa =? 0 then kret None
    else
      do! upd_vmem (λ m, memset m l0_pa 0 PAGE_SIZE) in
      do! (if has_bits pte1 PTE_V && has_bits pte1 PTE_RWX then
             let perm := Z.land pte1 (Z.lor (Z.lor (Z.lor PTE_RWX PTE_U) PTE_A) PTE_D) in
             let pa4m := Z.land (pte_addr pte1) (not32 4194303) in
             upd_vmem (fill_l0 1024 0 l0_pa pa4m perm)
           else kret tt) in
      do! upd_vmem (λ m, set_pte m root (vpn1 va) (Z.lor (ppn_field l0_pa) PTE_V)) in
      kret (Some l0_pa)
  else kret (Some (pte_addr pte1)).

Definition vm_map_page (root va pa flags : Z) : VM Z :=
  let! s := kget in
  let! l0 := vm_get_l0 root va (get_pte (vmem s) root (vpn1 va)) in
  match l0 with
  | None => kret (-1)
  | Some l0 =>
      do! upd_vmem (λ m, set_pte m l0 (vpn0 va) (pte_from_pa pa (pte_perm_from_flags flags))) in
      kret 0
  end.

(** The loop of [vm_map_range_4k] from [off]. *)
Fixpoint map_range_4k_loop (fuel : nat) (root va pa len flags off : Z) : VM Z :=
  if off <? len then
    match fuel with
    | O => knofuel
    | S fuel' =>
        let! rc := vm_map_page root (add32 va off) (add32 pa off) flags in
        if rc <? 0 then kret (-1)
        else map_range_4k_loop fuel' root va pa len flags (add32 off PAGE_SIZE)
    end
  else kret 0.
Definition vm_map_range_4k (root va pa len flags : Z) : VM Z :=
  map_range_4k_loop (Z.to_nat (len / PAGE_SIZE + 1)) root va pa len flags 0.

Fixpoint map_range_4m_loop (fuel : nat) (root va pa len perm off : Z) : VM unit :=
  if off <? len then
    match fuel with
    | O => knofuel
    | S fuel' =>
        do! upd_vmem (λ m, set_pte m root (vpn1 (add32 va off)) (pte_from_pa (add32 pa off) perm)) in
        map_range_4m_loop fuel' root va pa len perm (add32 off 4194304)
    end
  else kret tt.
Definition vm_map_range_4m (root va pa len flags : Z) : VM unit :=
  map_range_4m_loop (Z.to_nat (len / 4194304 + 1)) root va pa len (pte_perm_from_flags flags) 0.

Definition vm_map_identity_segment (root start end_ flags : Z) : VM Z :=
  if end_ <=? start then kret 0
  else vm_map_range_4k root start start (sub32 end_ start) flags.

Definition vm_activate (satp_value : Z) : VM unit := kmodify (set_csr_satp satp_value).

Definition vm_query_user_page (satp_value va : Z) : VM (option (Z * Z)) :=
  let! s := kget in kret (query_page (vmem s) (vm_root_from_satp satp_value) va).

(** The [VM_FLG_*] bits of a user mapping. *)
Definition user_flags (prot : Z) : Z :=
  let flags := 0 in
  let flags := if has_bits prot VMA_PROT_R then Z.lor flags VM_FLG_R else flags in
  let flags := if has_bits prot VMA_PROT_W then Z.lor flags VM_FLG_W else flags in
  let flags := if has_bits prot VMA_PROT_X then Z.lor flags VM_FLG_X else flags in
  Z.lor flags VM_FLG_U.

Definition vm_map_user_page (satp_value va pa prot : Z) : VM Z :=
  if negb (is_aligned va PAGE_SIZE) || negb (is_aligned pa PAGE_SIZE) then kret (-1)
  else vm_map_page (vm_root_from_satp satp_value) va pa (user_flags prot).

Definition vm_unmap_user_page (satp_value va : Z) : VM Z :=
  if negb (is_aligned va PAGE_SIZE) then kret (-1)
  else
    let root := vm_root_from_satp satp_value in
    let! s := kget in
    let pte1 := get_pte (vmem s) root (vpn1 va) in
    if negb (has_bits pte1 PTE_V) then kret 0
    else if has_bits pte1 PTE_RWX then kret (-1)
    else
      do! upd_vmem (λ m, set_pte m (pte_addr pte1) (vpn0 va) 0) in
      kret 0.

Definition vm_init : VM Z :=
  let! root_pa := on_pages (pg_alloc 1) in
  if root_pa =? 0 then kret (-1)
  else
    do! kmodify (set_kernel_root_pt root_pa) in
    do! upd_vmem (λ m, memset m root_pa 0 PAGE_SIZE) in
    let rw := Z.lor VM_FLG_R VM_FLG_W in
    do! vm_map_range_4m root_pa 33554432 33554432 4194304 rw in
    do! vm_map_range_4m root_pa 201326592 201326592 4194304 rw in
    do! vm_map_range_4m root_pa 268435456 268435456 33554432 rw in
    do! vm_map_range_4m root_pa 2147483648 2147483648 67108864 (Z.lor rw VM_FLG_X) in
    do! kmodify (set_kernel_satp_value (vm_make_satp root_pa)) in
    do! vm_activate (vm_make_satp root_pa) in
    kret 0.

Definition vm_kernel_satp (s : vm_state P) : Z := kernel_satp_value s.

(** [struct vm_identity_segment segments[]] *)
Definition user_segments : list (Z * Z * Z) :=
  let r := VM_FLG_R in let w := VM_FLG_W in let x := VM_FLG_X in let u := VM_FLG_U in
  [ (page_floor rodata_start, page_ceil rodata_end, Z.lor r u);
    (page_floor user_text_start, page_ceil user_text_end, Z.lor (Z.lor r x) u);
    (page_floor user_rodata_start, page_ceil user_rodata_end, Z.lor r u);
    (page_floor user_data_start, page_ceil user_data_end, Z.lor (Z.lor r w) u);
    (page_floor user_bss_start, page_ceil user_bss_end, Z.lor (Z.lor r w) u) ].

Fixpoint map_segments (root : Z) (l : list (Z * Z * Z)) : VM Z :=
  match l with
  | [] => kret 0
  | (st, en, fl) :: l' =>
      let! rc := vm_map_identity_segment root st en fl in
      if rc <? 0 then kret (-1) else map_segments root l'
  end.

(** The label [fail:]. *)
Definition build_fail (root : Z) : VM Z := do! on_pages (pg_free root 1) in kret 0.

Definition vm_build_user_satp (user_stack_base user_stack_paddr user_stack_pages : Z) : VM Z :=
  let! root := on_pages (pg_alloc 1) in
  if root =? 0 then kret 0
  else
    do! upd_vmem (λ m, memset m root 0 PAGE_SIZE) in
    let! s := kget in
    do! upd_vmem (λ m, memcpy m root (kernel_root_pt s) PAGE_SIZE) in
    let! rc := map_segments root user_segments in
    if rc <? 0 then build_fail root
    else
      let! rc := (if 0 <? user_stack_pages then
                    vm_map_range_4k root user_stack_base user_stack_paddr
                      (mul32 user_stack_pages PAGE_SIZE) (Z.lor (Z.lor VM_FLG_R VM_FLG_W) VM_FLG_U)
                  else kret 0) in
      if rc <? 0 then build_fail root else kret (vm_make_satp root).

End ops.
