(* ===== verification/VmSpec.v ===== *)
(** * Correctness of the page tables

    [pt_ok] says that a root and its level-0 tables are pages in use, that no
    two entries share a table and that superpages are aligned.  [vm_map_page]
    keeps it, changes one translation and preserves all others. *)

From S2P Require Import Prelude Layout KString PageAlloc PageAllocSpec PageIface Vm.

(** ** Entries *)
Lemma ppn_field_eq pa : is_u32 pa → pa mod 4096 = 0 → ppn_field pa = pa / 4.
Proof.
  unfold is_u32, ppn_field. intros Hu Hp.
  rewrite Z.shiftr_div_pow2, Z.shiftl_mul_pow2 by lia.
  change (2 ^ 12) with 4096. change (2 ^ 10) with 1024.
  rewrite wrap32_small; unfold is_u32; Z.div_mod_to_equations; lia.
Qed.

Lemma pte_addr_eq pa lo : is_u32 pa → pa mod 4096 = 0 → 0 ≤ lo < 1024 → pte_addr (pa / 4 + lo) = pa.
Proof.
  unfold is_u32, pte_addr. intros Hu Hp Hlo.
  rewrite Z.shiftr_div_pow2, Z.shiftl_mul_pow2 by lia.
  change (2 ^ 12) with 4096. change (2 ^ 10) with 1024.
  rewrite wrap32_small; unfold is_u32; Z.div_mod_to_equations; lia.
Qed.

Lemma pte_addr_props pte : is_u32 pte → is_u32 (pte_addr pte) ∧ pte_addr pte mod 4096 = 0.
Proof.
  unfold is_u32, pte_addr. intros Hu. split; [apply wrap32_range|].
  rewrite Z.shiftr_div_pow2, Z.shiftl_mul_pow2 by lia. unfold wrap32.
  change (2 ^ 12) with 4096. change (2 ^ 10) with 1024. Z.div_mod_to_equations. lia.
Qed.

Lemma lor_bound k a b : 0 ≤ k → 0 ≤ a < 2 ^ k → 0 ≤ b < 2 ^ k → 0 ≤ Z.lor a b < 2 ^ k.
Proof.
  intros Hk Ha Hb. split; [apply Z.lor_nonneg; lia|].
  assert (Z.lor a b = Z.lor a b mod 2 ^ k) as ->; [|apply Z.mod_pos_bound; lia].
  rewrite <-Z.land_ones, Z.land_lor_distr_l, !Z.land_ones, !Z.mod_small; lia.
Qed.

Lemma land_bound k a m : 0 ≤ k → 0 ≤ m < 2 ^ k → 0 ≤ Z.land a m < 2 ^ k.
Proof.
  intros Hk Hm. assert (Z.land a m = Z.land a m mod 2 ^ k) as ->; [|apply Z.mod_pos_bound; lia].
  by rewrite <-Z.land_ones, <-Z.land_assoc, Z.land_ones, Z.mod_small.
Qed.

(** The low bits of an entry made by [pte_from_pa]. *)
Definition pte_low (perm : Z) : Z := Z.lor perm 193.

Lemma pte_low_bound perm : 0 ≤ perm < 1024 → 0 ≤ pte_low perm < 1024.
Proof. intros. apply (lor_bound 10); lia. Qed.

Lemma pte_from_pa_eq pa perm :
  is_u32 pa → pa mod 4096 = 0 → 0 ≤ perm < 1024 → pte_from_pa pa perm = pa / 4 + pte_low perm.
Proof.
  intros Hu Hp Hperm. unfold pte_from_pa. rewrite ppn_field_eq by done.
  rewrite <-!Z.lor_assoc. change (Z.lor PTE_V (Z.lor PTE_A PTE_D)) with 193.
  apply (lor_fields _ _ 10); [lia| |by apply pte_low_bound].
  change (2 ^ 10) with 1024. Z.div_mod_to_equations. lia.
Qed.

Lemma pte_from_pa_u32 pa perm :
  is_u32 pa → pa mod 4096 = 0 → 0 ≤ perm < 1024 → is_u32 (pte_from_pa pa perm).
Proof.
  intros Hu Hp Hperm. rewrite pte_from_pa_eq by done. pose proof (pte_low_bound perm Hperm).
  unfold is_u32 in *. Z.div_mod_to_equations. lia.
Qed.

Lemma pte_land pa lo m : is_u32 pa → pa mod 4096 = 0 → 0 ≤ lo < 1024 → 0 ≤ m < 1024 →
  Z.land (pa / 4 + lo) m = Z.land lo m.
Proof.
  intros Hu Hp Hlo Hm. apply (land_fields _ _ _ 10); try done.
  change (2 ^ 10) with 1024. Z.div_mod_to_equations. lia.
Qed.

(** What the hardware and the query see in such an entry. *)
Lemma pte_from_pa_fields pa perm :
  is_u32 pa → pa mod 4096 = 0 → 0 ≤ perm < 1024 →
  let pte := pte_from_pa pa perm in
  has_bits pte PTE_V = true ∧ has_bits pte PTE_RWX = has_bits perm PTE_RWX ∧
  pte_addr pte = pa ∧ Z.land pte (Z.lor PTE_RWX PTE_U) = Z.land perm (Z.lor PTE_RWX PTE_U).
Proof.
  intros Hu Hp Hperm. cbn zeta. rewrite pte_from_pa_eq by done.
  pose proof (pte_low_bound perm Hperm) as Hlo. unfold has_bits.
  change (Z.lor PTE_RWX PTE_U) with 30. change PTE_RWX with 14. change PTE_V with 1.
  rewrite !pte_land by (done || lia). rewrite pte_addr_eq by done. unfold pte_low.
  rewrite !Z.land_lor_distr_l. change (Z.land 193 1) with 1.
  change (Z.land 193 14) with 0. change (Z.land 193 30) with 0. rewrite !Z.lor_0_r.
  split_and!; try done. destruct (Z.eqb_spec (Z.lor (Z.land perm 1) 1) 0) as [He|]; [|done].
  apply Z.lor_eq_0_iff in He. lia.
Qed.

(** A pointer entry, [((l0_pa >> 12) << 10) | PTE_V]. *)
Lemma pte_table_fields t :
  is_u32 t → t mod 4096 = 0 →
  let pte := Z.lor (ppn_field t) PTE_V in
  is_u32 pte ∧ has_bits pte PTE_V = true ∧ has_bits pte PTE_RWX = false ∧ pte_addr pte = t.
Proof.
  intros Hu Hp. cbn zeta. rewrite ppn_field_eq by done.
  rewrite (lor_fields _ _ 10) by (unfold PTE_V; change (2 ^ 10) with 1024; (lia || Z.div_mod_to_equations; lia)).
  unfold has_bits. change PTE_RWX with 14. change PTE_V with 1.
  rewrite !pte_land by (done || lia). rewrite pte_addr_eq by (done || lia).
  split_and!; try done; unfold is_u32 in *; Z.div_mod_to_equations; lia.
Qed.

Lemma perm_flags_bound flags : 0 ≤ pte_perm_from_flags flags < 1024.
Proof. unfold pte_perm_from_flags. by repeat case_match. Qed.

(** ** Addresses *)
Lemma vpn1_eq va : is_u32 va → vpn1 va = va / 4194304.
Proof.
  unfold is_u32, vpn1. intros Hu. change 1023 with (Z.ones 10).
  rewrite Z.shiftr_div_pow2, Z.land_ones by lia. change (2 ^ 22) with 4194304. change (2 ^ 10) with 1024.
  apply Z.mod_small. Z.div_mod_to_equations. lia.
Qed.

Lemma vpn0_eq va : is_u32 va → vpn0 va = va / 4096 mod 1024.
Proof.
  unfold is_u32, vpn0. intros Hu. change 1023 with (Z.ones 10).
  by rewrite Z.shiftr_div_pow2, Z.land_ones by lia.
Qed.

Lemma vpn_range va : is_u32 va → 0 ≤ vpn1 va < 1024 ∧ 0 ≤ vpn0 va < 1024.
Proof.
  intros Hu. rewrite vpn1_eq, vpn0_eq by done. unfold is_u32 in Hu. Z.div_mod_to_equations. lia.
Qed.

(** The two indices determine the page. *)
Lemma vpn_inj va va' :
  is_u32 va → is_u32 va' → vpn1 va = vpn1 va' → vpn0 va = vpn0 va' → va / 4096 = va' / 4096.
Proof.
  intros Hu Hu'. rewrite !vpn1_eq, !vpn0_eq by done. unfold is_u32 in *. Z.div_mod_to_equations. lia.
Qed.

Lemma vpn_page va va' :
  is_u32 va → is_u32 va' → va / 4096 = va' / 4096 → vpn1 va = vpn1 va' ∧ vpn0 va = vpn0 va'.
Proof.
  intros Hu Hu'. rewrite !vpn1_eq, !vpn0_eq by done. unfold is_u32 in *. intros.
  split; [Z.div_mod_to_equations; lia|congruence].
Qed.

Lemma page_offset pa va k : 0 ≤ k → pa mod 2 ^ k = 0 → Z.lor pa (Z.land va (Z.ones k)) = pa + va mod 2 ^ k.
Proof.
  intros Hk Hp. rewrite Z.land_ones by lia. apply (lor_fields _ _ k); try done.
  apply Z.mod_pos_bound. lia.
Qed.

Lemma page_floor_eq v : is_u32 v → page_floor v = v - v mod 4096.
Proof. intros. unfold page_floor, PAGE_SIZE. change (4096 - 1) with (2 ^ 12 - 1). by rewrite land_not32_ones. Qed.

Lemma page_ceil_eq v : is_u32 v → v ≤ 4294963200 → page_ceil v = (v + 4095) / 4096 * 4096.
Proof.
  intros Hu Hv. unfold page_ceil, PAGE_SIZE. change (4096 - 1) with (2 ^ 12 - 1).
  unfold is_u32 in *. rewrite add32_small by lia. rewrite land_not32_ones by (unfold is_u32; lia).
  change (2 ^ 12) with 4096. Z.div_mod_to_equations. lia.
Qed.

Lemma satp_root r : is_u32 r → r mod 4096 = 0 → vm_root_from_satp (vm_make_satp r) = r.
Proof.
  intros Hu Hr. unfold vm_root_from_satp, vm_make_satp, SATP_MODE_SV32, SATP_PPN_MASK.
  rewrite Z.shiftr_div_pow2 by lia. unfold is_u32 in Hu. change (2 ^ 12) with 4096.
  rewrite (lor_fields _ _ 22) by (try done; change (2 ^ 22) with 4194304; Z.div_mod_to_equations; lia).
  rewrite (land_fields _ _ _ 22) by (try done; change (2 ^ 22) with 4194304; Z.div_mod_to_equations; lia).
  change 4194303 with (Z.ones 22). rewrite Z.land_ones, Z.shiftl_mul_pow2 by lia.
  change (2 ^ 22) with 4194304. change (2 ^ 12) with 4096.
  rewrite wrap32_small; unfold is_u32; Z.div_mod_to_equations; lia.
Qed.

(** ** Tables in memory *)
Lemma get_set_pte m t t' i j v :
  t mod 4096 = 0 → t' mod 4096 = 0 → 0 ≤ i < 1024 → 0 ≤ j < 1024 → is_u32 v →
  get_pte (set_pte m t i v) t' j = if (t =? t') && (i =? j) then v else get_pte m t' j.
Proof.
  intros Ht Ht' Hi Hj Hv. unfold get_pte, set_pte. zcases; subst.
  - by apply load32_store32_eq.
  - apply load32_store32_ne. lia.
  - apply load32_store32_ne. Z.div_mod_to_equations. lia.
Qed.

Lemma rd_set_pte m t i v x : 0 ≤ i < 1024 → ¬ in_block t 1 x → rd (set_pte m t i v) x = rd m x.
Proof. intros Hi Hx. unfold set_pte, in_block in *. rewrite rd_store32. by zcases. Qed.

Lemma fill_l0_step k i l0 pa perm m :
  fill_l0 (S k) i l0 pa perm m =
  fill_l0 k (i + 1) l0 pa perm (set_pte m l0 i (pte_from_pa (add32 pa (mul32 i PAGE_SIZE)) perm)).
Proof. done. Qed.

Lemma fill_l0_rd l0 pa perm x : ∀ k i m,
  0 ≤ i → i + Z.of_nat k ≤ 1024 → ¬ in_block l0 1 x → rd (fill_l0 k i l0 pa perm m) x = rd m x.
Proof.
  intros k. induction k as [|k IH]; intros i m Hi Hk Hx; [done|].
  rewrite fill_l0_step, IH by (done || lia). apply rd_set_pte; [lia|done].
Qed.

Lemma fill_l0_get l0 pa perm t j : ∀ k i m,
  l0 mod 4096 = 0 → pa mod 4194304 = 0 → is_u32 pa → 0 ≤ perm < 1024 → 0 ≤ i → i + Z.of_nat k = 1024 →
  t mod 4096 = 0 → 0 ≤ j < 1024 → get_pte (fill_l0 k i l0 pa perm m) t j =
    if (t =? l0) && (i <=? j) then pte_from_pa (pa + j * 4096) perm else get_pte m t j.
Proof.
  intros k. induction k as [|k IH]; intros i m Hl Hpa Hu Hperm Hi Hk Ht Hj.
  - unfold fill_l0. by zcases.
  - rewrite fill_l0_step. unfold PAGE_SIZE, is_u32 in *.
    rewrite mul32_small, add32_small by (Z.div_mod_to_equations; lia).
    rewrite IH by (done || lia). rewrite get_set_pte; try done; try lia.
    + by zcases; subst.
    + apply pte_from_pa_u32; unfold is_u32; (done || Z.div_mod_to_equations; lia).
Qed.

(** ** Well-formed page tables *)

(** The level-0 table entry [i] of the root points to, if it does. *)
Definition l0_of (m : mem) (root i : Z) : option Z :=
  let pte := get_pte m root i in
  if has_bits pte PTE_V && negb (has_bits pte PTE_RWX) then Some (pte_addr pte) else None.

Record pt_ok `{Layout} (refs : Z → Z) (m : mem) (root : Z) : Prop := {
  pt_root : managed root ∧ refs root ≠ 0;
  pt_l0 : ∀ i t, 0 ≤ i < 1024 → l0_of m root i = Some t → managed t ∧ refs t ≠ 0 ∧ t ≠ root;
  pt_inj : ∀ i j t, 0 ≤ i < 1024 → 0 ≤ j < 1024 → l0_of m root i = Some t →
    l0_of m root j = Some t → i = j;
  pt_super : ∀ i, 0 ≤ i < 1024 → has_bits (get_pte m root i) PTE_V = true →
    has_bits (get_pte m root i) PTE_RWX = true → pte_addr (get_pte m root i) mod 4194304 = 0;
}.

(** The pages of a page table. *)
Definition pt_page (m : mem) (root t : Z) : Prop :=
  t = root ∨ ∃ i, 0 ≤ i < 1024 ∧ l0_of m root i = Some t.

(** The translation a level-0 entry gives. *)
Definition leaf_query (pte va : Z) : option (Z * Z) :=
  if negb (has_bits pte PTE_V) || negb (has_bits pte PTE_RWX) then None
  else Some (Z.lor (pte_addr pte) (Z.land va 4095), Z.land pte (Z.lor PTE_RWX PTE_U)).

Lemma query_l0 m root va t :
  l0_of m root (vpn1 va) = Some t → query_page m root va = leaf_query (get_pte m t (vpn0 va)) va.
Proof.
  unfold l0_of, query_page, leaf_query. destruct (has_bits (get_pte m root (vpn1 va)) PTE_V); [|done].
  destruct (has_bits (get_pte m root (vpn1 va)) PTE_RWX); [done|]. by intros [= <-].
Qed.

(** Without a table the translation depends on the root entry only. *)
Lemma query_root m m' root va :
  l0_of m root (vpn1 va) = None → get_pte m' root (vpn1 va) = get_pte m root (vpn1 va) →
  query_page m' root va = query_page m root va.
Proof.
  unfold l0_of, query_page. intros Hl ->.
  destruct (has_bits (get_pte m root (vpn1 va)) PTE_V); [|done].
  by destruct (has_bits (get_pte m root (vpn1 va)) PTE_RWX).
Qed.

Lemma l0_of_ext m m' root i : get_pte m' root i = get_pte m root i → l0_of m' root i = l0_of m root i.
Proof. unfold l0_of. by intros ->. Qed.

Lemma managed_aligned `{Layout} t : managed t → t mod 4096 = 0.
Proof. by intros []. Qed.
#[export] Hint Resolve managed_aligned : kernel.

Lemma managed_u32 `{LayoutOk} t : managed t → is_u32 t.
Proof. intros [_ ?]. pose proof free_ram_bounds. unfold is_u32. lia. Qed.
#[export] Hint Resolve managed_u32 : kernel.

Section tables.
Context {L : Layout} {LOK : LayoutOk}.
Implicit Types (m : mem) (refs : Z → Z).

Lemma pt_page_managed refs m root t : pt_ok refs m root → pt_page m root t → managed t ∧ refs t ≠ 0.
Proof.
  intros Hok [->|(i & Hi & Hl)]; [apply Hok|]. destruct (pt_l0 _ _ _ Hok i t Hi Hl) as (? & ? & _). done.
Qed.

(** Memory that agrees on the pages of a table gives the same table. *)
Lemma get_pte_ext m m' t i :
  0 ≤ i < 1024 → (∀ x, in_block t 1 x → rd m' x = rd m x) → get_pte m' t i = get_pte m t i.
Proof. intros Hi Hx. apply load32_ext. intros b Hb. apply Hx. unfold in_block. lia. Qed.

(** The root page and the counts decide everything but the translations. *)
Lemma pt_root_ext refs refs' m m' root :
  pt_ok refs m root →
  (∀ i, 0 ≤ i < 1024 → get_pte m' root i = get_pte m root i) →
  (∀ t, pt_page m root t → refs' t ≠ 0) →
  pt_ok refs' m' root ∧ (∀ t, pt_page m' root t ↔ pt_page m root t) ∧
  (∀ i, 0 ≤ i < 1024 → l0_of m' root i = l0_of m root i).
Proof.
  intros [[Hm Hrt] H0 Hinj Hsup] Hroot Hr.
  assert (Hl : ∀ i, 0 ≤ i < 1024 → l0_of m' root i = l0_of m root i).
  { intros i Hi. apply l0_of_ext, Hroot, Hi. }
  split; [split|split; [|done]].
  - split; [done|]. apply Hr. by left.
  - intros i t Hi. rewrite Hl by done. intros Hlt. destruct (H0 i t Hi Hlt) as (? & _ & ?).
    split_and!; try done. apply Hr. right. eauto.
  - intros i j t Hi Hj. rewrite !Hl by done. by apply Hinj.
  - intros i Hi. rewrite Hroot by done. by apply Hsup.
  - intros t. unfold pt_page. split; (intros [->|(i & Hi & Hlt)]; [by left|right; exists i]).
    + by rewrite <-Hl.
    + by rewrite Hl.
Qed.

Lemma pt_frame refs refs' m m' root :
  pt_ok refs m root →
  (∀ t x, pt_page m root t → in_block t 1 x → rd m' x = rd m x) →
  (∀ t, pt_page m root t → refs' t ≠ 0) →
  pt_ok refs' m' root ∧ (∀ t, pt_page m' root t ↔ pt_page m root t) ∧
  (∀ va, is_u32 va → query_page m' root va = query_page m root va).
Proof.
  intros Hok Hx Hr.
  assert (Hroot : ∀ i, 0 ≤ i < 1024 → get_pte m' root i = get_pte m root i).
  { intros i Hi. apply get_pte_ext; [done|]. intros x. apply Hx. by left. }
  destruct (pt_root_ext refs refs' m m' root Hok Hroot Hr) as (Hok' & Hpg & Hl).
  split_and!; try done. intros va Hva. destruct (vpn_range va Hva) as [H1 H0].
  destruct (l0_of m root (vpn1 va)) as [t|] eqn:E.
  - rewrite (query_l0 m root va t E). rewrite (query_l0 m' root va t) by (by rewrite Hl).
    f_equal. apply get_pte_ext; [done|]. intros x. apply Hx. right. eauto.
  - apply query_root; [done|]. by apply Hroot.
Qed.

(** Writing one level-0 entry changes the translation of that page only. *)
Lemma set_leaf refs m root l0 va pte :
  pt_ok refs m root → is_u32 va → l0_of m root (vpn1 va) = Some l0 → is_u32 pte →
  let m' := set_pte m l0 (vpn0 va) pte in
  pt_ok refs m' root ∧ (∀ t, pt_page m' root t ↔ pt_page m root t) ∧
  (∀ i, 0 ≤ i < 1024 → l0_of m' root i = l0_of m root i) ∧
  ∀ va', is_u32 va' → query_page m' root va' =
    if decide (va' / 4096 = va / 4096) then leaf_query pte va' else query_page m root va'.
Proof.
  intros Hok Hva Hl0 Hpte m'. destruct (vpn_range va Hva) as [Hv1 Hv0].
  destruct (pt_l0 _ _ _ Hok _ _ Hv1 Hl0) as (Hm & Hr & Hne). pose proof (pt_root _ _ _ Hok) as [Hmr _].
  assert (Hroot : ∀ i, 0 ≤ i < 1024 → get_pte m' root i = get_pte m root i).
  { intros i Hi. unfold m'. rewrite get_set_pte by eauto with kernel. by zcases. }
  destruct (pt_root_ext refs refs m m' root Hok Hroot) as (Hok' & Hpg & Hl).
  { intros t Ht. by apply (pt_page_managed _ _ _ _ Hok). }
  split_and!; try done. intros va' Hva'. destruct (vpn_range va' Hva') as [Hv1' Hv0'].
  destruct (l0_of m root (vpn1 va')) as [t|] eqn:E.
  - destruct (pt_l0 _ _ _ Hok _ _ Hv1' E) as (Hmt & _ & _).
    rewrite (query_l0 m root va' t E), (query_l0 m' root va' t) by (by rewrite Hl).
    unfold m'. rewrite get_set_pte by eauto with kernel. case_decide as Hp.
    + destruct (vpn_page _ _ Hva' Hva Hp) as [He1 He0]. rewrite He1, Hl0 in E. injection E as <-.
      by rewrite Z.eqb_refl, He0, Z.eqb_refl.
    + destruct (Z.eqb_spec l0 t) as [<-|]; [|done]. simpl.
      destruct (Z.eqb_spec (vpn0 va) (vpn0 va')) as [He0|]; [|done]. destruct Hp.
      symmetry. apply vpn_inj; try done. by eapply (pt_inj _ _ _ Hok).
  - rewrite decide_False.
    + apply query_root; [done|]. by apply Hroot.
    + intros Hp. destruct (vpn_page _ _ Hva' Hva Hp) as [He1 _]. congruence.
Qed.

(** A new table [t] behind entry [i], filled with the translations the entry
    gave before, changes no translation. *)
Record new_table (m m1 : mem) (root i t : Z) : Prop := {
  nt_same : ∀ a j, managed a → a ≠ t → 0 ≤ j < 1024 → get_pte m1 a j = get_pte m a j;
  nt_leaf : ∀ va, is_u32 va → vpn1 va = i →
    leaf_query (get_pte m1 t (vpn0 va)) va = query_page m root va;
}.

Lemma install_table refs refs' m m1 root i t :
  pt_ok refs m root → 0 ≤ i < 1024 → l0_of m root i = None → managed t → refs t = 0 →
  refs' t ≠ 0 → (∀ q, managed q → q ≠ t → refs' q = refs q) → new_table m m1 root i t →
  let m2 := set_pte m1 root i (Z.lor (ppn_field t) PTE_V) in
  pt_ok refs' m2 root ∧ l0_of m2 root i = Some t ∧
  (∀ a, pt_page m2 root a ↔ pt_page m root a ∨ a = t) ∧
  ∀ va, is_u32 va → query_page m2 root va = query_page m root va.
Proof.
  intros Hok Hi Hl0 Ht Hz Hr' Hrs [Hsame Hleaf] m2.
  pose proof (pt_root _ _ _ Hok) as [Hmr Hrr]. assert (root ≠ t) by congruence.
  destruct (pte_table_fields t) as (Hpu & HpV & HpR & Hpa); [eauto with kernel..|].
  assert (Hroot : ∀ j, 0 ≤ j < 1024 → get_pte m2 root j =
    if i =? j then Z.lor (ppn_field t) PTE_V else get_pte m root j).
  { intros j Hj. unfold m2. rewrite get_set_pte by eauto with kernel. rewrite Z.eqb_refl. simpl.
    rewrite Hsame by done. done. }
  assert (Hli : l0_of m2 root i = Some t).
  { unfold l0_of. rewrite Hroot, Z.eqb_refl, HpV, HpR, Hpa by done. done. }
  assert (Hlj : ∀ j, 0 ≤ j < 1024 → j ≠ i → l0_of m2 root j = l0_of m root j).
  { intros j Hj Hne. apply l0_of_ext. rewrite Hroot by done. by destruct (Z.eqb_spec i j). }
  assert (Hold : ∀ j a, 0 ≤ j < 1024 → l0_of m root j = Some a → j ≠ i ∧ managed a ∧ refs a ≠ 0 ∧ a ≠ root ∧ a ≠ t).
  { intros j a Hj Ha. destruct (pt_l0 _ _ _ Hok _ _ Hj Ha) as (? & ? & ?). split_and!; try done; congruence. }
  split_and!; [|done|..].
  - split.
    + split; [done|]. by rewrite Hrs.
    + intros j a Hj. destruct (decide (j = i)) as [->|Hne].
      * rewrite Hli. intros [= <-]. done.
      * rewrite Hlj by done. intros Ha. destruct (Hold j a Hj Ha) as (_ & ? & ? & ? & ?).
        by rewrite Hrs.
    + intros j k a Hj Hk. destruct (decide (j = i)) as [->|Hj'], (decide (k = i)) as [->|Hk'];
        rewrite ?Hli, ?Hlj by done; [done|..].
      * intros [= <-] Ha. by destruct (Hold k t Hk Ha) as (_ & _ & _ & _ & ?).
      * intros Ha [= <-]. by destruct (Hold j t Hj Ha) as (_ & _ & _ & _ & ?).
      * by apply (pt_inj _ _ _ Hok).
    + intros j Hj. rewrite Hroot by done. destruct (Z.eqb_spec i j); [congruence|]. by apply (pt_super _ _ _ Hok).
  - intros a. unfold pt_page. split.
    + intros [->|(j & Hj & Ha)]; [by left; left|]. destruct (decide (j = i)) as [->|Hne].
      * right. congruence.
      * rewrite Hlj in Ha by done. left. right. eauto.
    + intros [[->|(j & Hj & Ha)]| ->]; [by left|right..].
      * exists j. rewrite Hlj by (done || by eapply Hold). done.
      * eauto.
  - intros va Hva. destruct (vpn_range va Hva) as [H1 H0]. destruct (decide (vpn1 va = i)) as [He|He].
    + rewrite (query_l0 m2 root va t) by congruence. unfold m2.
      rewrite get_set_pte by eauto with kernel. destruct (Z.eqb_spec root t); [done|]. simpl. by apply Hleaf.
    + destruct (l0_of m root (vpn1 va)) as [a|] eqn:E.
      * destruct (Hold _ _ H1 E) as (_ & Hma & _ & Har & Hat).
        rewrite (query_l0 m root va a E), (query_l0 m2 root va a) by (by rewrite Hlj).
        unfold m2. rewrite get_set_pte by eauto with kernel. destruct (Z.eqb_spec root a); [done|].
        by rewrite Hsame.
      * apply query_root; [done|]. rewrite Hroot by done. by destruct (Z.eqb_spec i (vpn1 va)).
Qed.

End tables.

Lemma leaf_query_made pa perm va :
  is_u32 pa → pa mod 4096 = 0 → 0 ≤ perm < 1024 →
  leaf_query (pte_from_pa pa perm) va =
  if has_bits perm PTE_RWX then Some (pa + va mod 4096, Z.land perm (Z.lor PTE_RWX PTE_U)) else None.
Proof.
  intros Hu Hp Hperm. destruct (pte_from_pa_fields pa perm Hu Hp Hperm) as (HV & HR & Ha & Hl).
  unfold leaf_query. rewrite HV, HR, Ha, Hl. simpl. destruct (has_bits perm PTE_RWX); [simpl|done].
  change 4095 with (Z.ones 12). by rewrite page_offset.
Qed.

Section fresh_table.
Context {L : Layout} {LOK : LayoutOk}.
Variables (refs : Z → Z) (m m1 : mem) (root i t : Z).
Hypothesis Hok : pt_ok refs m root.
Hypothesis Hi : 0 ≤ i < 1024.
Hypothesis Ht : managed t.
Hypothesis Hzero : ∀ x, in_block t 1 x → rd m1 x = 0.
Hypothesis Hframe : ∀ x, ¬ in_block t 1 x → rd m1 x = rd m x.

Lemma fresh_same a j : managed a → a ≠ t → 0 ≤ j < 1024 → get_pte m1 a j = get_pte m a j.
Proof using All.
  intros Ha Hne Hj. apply get_pte_ext; [done|]. intros x Hx. apply Hframe. unfold in_block in *.
  destruct (managed_apart _ _ Ha Ht Hne); lia.
Qed.

(** An empty table behind an invalid entry. *)
Lemma empty_table : has_bits (get_pte m root i) PTE_V = false → new_table m m1 root i t.
Proof using All.
  intros HV. split; [apply fresh_same|]. intros va Hva Hv.
  assert (get_pte m1 t (vpn0 va) = 0) as ->.
  { destruct (vpn_range va Hva) as [_ ?]. unfold get_pte, load32.
    rewrite !Hzero by (unfold in_block; lia). done. }
  unfold query_page. by rewrite Hv, HV.
Qed.

(** The table that replaces a superpage. *)
Lemma split_table pte :
  pte = get_pte m root i → has_bits pte PTE_V = true → has_bits pte PTE_RWX = true →
  new_table m (fill_l0 1024 0 t (Z.land (pte_addr pte) (not32 4194303))
    (Z.land pte (Z.lor (Z.lor (Z.lor PTE_RWX PTE_U) PTE_A) PTE_D)) m1) root i t.
Proof using All.
  intros Hpte HV HR. assert (Hu : is_u32 pte) by (subst; apply load32_range).
  destruct (pte_addr_props pte Hu) as [Hau Hal].
  assert (Hsup : pte_addr pte mod 4194304 = 0).
  { subst pte. by apply (pt_super _ _ _ Hok). }
  assert (Z.land (pte_addr pte) (not32 4194303) = pte_addr pte) as ->.
  { change 4194303 with (2 ^ 22 - 1). rewrite land_not32_ones by (done || lia).
    change (2 ^ 22) with 4194304. lia. }
  change (Z.lor (Z.lor (Z.lor PTE_RWX PTE_U) PTE_A) PTE_D) with 222.
  assert (Hperm : 0 ≤ Z.land pte 222 < 1024) by (apply (land_bound 10); lia).
  pose proof (fill_l0_get t (pte_addr pte) (Z.land pte 222)) as Hg.
  split.
  - intros a j Ha Hne Hj. rewrite Hg by (done || eauto with kernel). destruct (Z.eqb_spec a t); [done|]. by apply fresh_same.
  - intros va Hva Hv. destruct (vpn_range va Hva) as [_ Hv0]. rewrite Hg by (done || eauto with kernel).
    rewrite Z.eqb_refl. destruct (Z.leb_spec 0 (vpn0 va)); [simpl|lia].
    unfold is_u32 in Hau.
    rewrite leaf_query_made by (done || unfold is_u32; Z.div_mod_to_equations; lia).
    unfold has_bits. rewrite <-!Z.land_assoc. change (Z.land 222 PTE_RWX) with PTE_RWX.
    change (Z.land 222 (Z.lor PTE_RWX PTE_U)) with (Z.lor PTE_RWX PTE_U).
    unfold query_page. rewrite Hv, <-Hpte, HV, HR. unfold has_bits in HR. rewrite HR. simpl.
    do 2 f_equal. change 4194303 with (Z.ones 22). rewrite page_offset by done.
    rewrite vpn0_eq by done. change (2 ^ 22) with 4194304. clear. Z.div_mod_to_equations. lia.
Qed.
End fresh_table.

(** ** The operations *)

(** What the memory manager does to tables: only pages of the table change,
    it may gain fresh pages, and no other page changes its count. *)
(** An entry of the root only changes to point to a table. *)
Definition root_grows (m m' : mem) (root : Z) : Prop :=
  ∀ i, 0 ≤ i < 1024 → get_pte m' root i = get_pte m root i ∨ is_Some (l0_of m' root i).
Lemma root_grows_trans m1 m2 m3 root : root_grows m1 m2 root → root_grows m2 m3 root → root_grows m1 m3 root.
Proof.
  intros H1 H2 i Hi. destruct (H2 i Hi) as [E|?]; [|by right]. destruct (H1 i Hi) as [E1|Hs]; [left; congruence|right].
  by rewrite (l0_of_ext m2 m3 root i E).
Qed.

Record tables_grow `{Layout} (refs refs' : Z → Z) (m m' : mem) (root : Z) : Prop := {
  tg_frame : ∀ x, (∀ t, pt_page m' root t → ¬ in_block t 1 x) → rd m' x = rd m x;
  tg_pages : ∀ t, pt_page m root t → pt_page m' root t;
  tg_new : ∀ t, pt_page m' root t → pt_page m root t ∨ (managed t ∧ refs t = 0 ∧ refs' t = 1);
  tg_refs : ∀ q, managed q → refs' q = refs q ∨ (refs q = 0 ∧ refs' q = 1 ∧ pt_page m' root q);
  tg_root : root_grows m m' root;
}.

Section ops_spec.
Context {L : Layout} {LOK : LayoutOk} {P : Type} {PO : PageOps P} {POK : PageOpsOk P}.
Implicit Types s : vm_state P.

Definition vm_refs s : Z → Z := pg_refs (vm_pages s).
Definition vm_ok s : Prop := pg_ok (vm_pages s).
(** The allocator has warned that it could not record a page as free. *)
Definition vm_warned s : Prop := pg_warned (vm_pages s).
(** In this state the allocator has no page to give. *)
Definition no_page s : Prop := ∃ s', on_pages (pg_alloc 1) s = Done (0, s').

(** The globals of [vm.c] are as before, and a warning of the allocator stays. *)
Record same_globals s s' : Prop := {
  sg_root : kernel_root_pt s' = kernel_root_pt s;
  sg_satp : kernel_satp_value s' = kernel_satp_value s;
  sg_csr : csr_satp s' = csr_satp s;
  sg_warned : vm_warned s → vm_warned s';
}.

#[export] Instance same_globals_po : PreOrder same_globals.
Proof. split; [by split|]. intros s1 s2 s3 [] []. split; try congruence. auto. Qed.

(** The step that takes pages. *)
Lemma same_globals_pages p s : (vm_warned s → pg_warned p) → same_globals s (set_vm_pages p s).
Proof. by split. Qed.
Lemma alloc_globals s n r p : pg_alloc n (vm_pages s) = Done (r, p) → same_globals s (set_vm_pages p s).
Proof. intros H. apply same_globals_pages. exact (wlp_run _ _ _ _ _ (pg_alloc_warned _ n) H). Qed.

Lemma vm_warned_set m s : vm_warned (set_vmem m s) ↔ vm_warned s.
Proof. apply pg_warned_set_mem. Qed.

Lemma wp_on_pages {A} (c : km P A) Q s :
  wp c (λ a p, Q a (set_vm_pages p s)) (vm_pages s) → wp (on_pages c) Q s.
Proof. apply wp_zoom. Qed.

Lemma vmem_set m s : vmem (set_vmem m s) = m.
Proof. unfold vmem, set_vmem. simpl. apply pg_mem_set. Qed.

Lemma vm_ok_set m s : vm_ok s → vm_ok (set_vmem m s).
Proof. unfold vm_ok, set_vmem. simpl. apply pg_set_mem_ok. Qed.

Lemma vm_refs_set m s q : vm_refs (set_vmem m s) q = vm_refs s q.
Proof. unfold vm_refs, set_vmem. simpl. apply pg_refs_set_mem. Qed.

Lemma pt_ok_refs_ext refs refs' m root :
  (∀ q, managed q → refs' q = refs q) → pt_ok refs m root → pt_ok refs' m root.
Proof.
  intros Hr Hok. apply (pt_root_ext refs refs' m m root Hok); [done|].
  intros t Ht. destruct (pt_page_managed _ _ _ _ Hok Ht). by rewrite Hr.
Qed.

Lemma tables_grow_refl refs refs' m root :
  (∀ q, managed q → refs' q = refs q) → tables_grow refs refs' m m root.
Proof. intros Hr. split; [done|done|by left| |by left]. intros q Hq. left. auto. Qed.

Lemma wp_upd_vmem f (Q : unit → vm_state P → Prop) s :
  Q tt (set_vmem (f (vmem s)) s) → wp (upd_vmem f) Q s.
Proof. done. Qed.

Lemma same_globals_set m s s2 : same_globals s s2 → same_globals s (set_vmem m s2).
Proof. intros []. split; try done. rewrite vm_warned_set. done. Qed.

Definition l0_post s root va (o : option Z) s' : Prop :=
  vm_ok s' ∧ same_globals s s' ∧ pt_ok (vm_refs s') (vmem s') root ∧
  tables_grow (vm_refs s) (vm_refs s') (vmem s) (vmem s') root ∧
  (∀ va', is_u32 va' → query_page (vmem s') root va' = query_page (vmem s) root va') ∧
  (if o is Some l0 then l0_of (vmem s') root (vpn1 va) = Some l0 else vmem s' = vmem s ∧ no_page s).

Lemma wp_install_root s s2 root va t :
  pt_ok (vm_refs s) (vmem s) root → is_u32 va → l0_of (vmem s) root (vpn1 va) = None →
  managed t → vm_refs s t = 0 → vm_refs s2 t = 1 →
  (∀ q, managed q → q ≠ t → vm_refs s2 q = vm_refs s q) →
  vm_ok s2 → same_globals s s2 → new_table (vmem s) (vmem s2) root (vpn1 va) t →
  (∀ x, ¬ in_block t 1 x → rd (vmem s2) x = rd (vmem s) x) →
  wp (do! upd_vmem (λ m, set_pte m root (vpn1 va) (Z.lor (ppn_field t) PTE_V)) in kret (Some t))
    (l0_post s root va) s2.
Proof.
  intros Hok Hva Hnone Htm Ht1 Ht2 Hoth Hs2 Hsg Hnt Hfr. destruct (vpn_range va Hva) as [H1 _].
  wp_step. apply wp_upd_vmem. wp_step.
  destruct (install_table (vm_refs s) (vm_refs s2) (vmem s) (vmem s2) root (vpn1 va) t)
    as (Hok2 & Hl2 & Hpg & Hq); try done; [lia|].
  unfold l0_post. rewrite vmem_set. set (m2 := set_pte _ _ _ _) in *. split_and!; try done.
  - by apply vm_ok_set.
  - by apply same_globals_set.
  - eapply pt_ok_refs_ext; [|exact Hok2]. intros. apply vm_refs_set.
  - split.
    + intros x Hx. assert (Hxt : ¬ in_block t 1 x) by (apply Hx, Hpg; by right).
      rewrite <-(Hfr x Hxt). apply rd_set_pte; [done|]. apply Hx. by left.
    + intros a Ha. apply Hpg. by left.
    + intros a [Ha| ->]%Hpg; [by left|right]. by rewrite vm_refs_set.
    + intros q Hq'. rewrite vm_refs_set. destruct (decide (q = t)) as [->|]; [right|left; auto].
      split_and!; try done. apply Hpg. by right.
    + intros i Hi. destruct (decide (i = vpn1 va)) as [->|Hne]; [right; by rewrite Hl2|left].
      pose proof (pt_root _ _ _ Hok) as [Hrm Hr0]. assert (Hrt : root ≠ t) by (intros ->; done).
      destruct (pte_table_fields t) as [Hu _]; [eauto with kernel..|].
      unfold m2. rewrite get_set_pte by eauto with kernel. destruct (Z.eqb_spec (vpn1 va) i) as [E|_]; [by destruct Hne|]. rewrite andb_false_r. by apply Hnt.
Qed.

Lemma vm_get_l0_spec s root va :
  vm_ok s → pt_ok (vm_refs s) (vmem s) root → is_u32 va →
  wp (vm_get_l0 root va (get_pte (vmem s) root (vpn1 va))) (l0_post s root va) s.
Proof.
  intros Hs Hok Hva. destruct (vpn_range va Hva) as [H1 _]. unfold vm_get_l0.
  set (pte := get_pte (vmem s) root (vpn1 va)).
  destruct (negb (has_bits pte PTE_V) || has_bits pte PTE_RWX) eqn:Hcase.
  2: { apply orb_false_iff in Hcase as [HV%negb_false_iff HR]. wp_steps. unfold l0_post.
       split_and!; try done.
       - by apply tables_grow_refl.
       - unfold l0_of. fold pte. by rewrite HV, HR. }
  assert (Hnone : l0_of (vmem s) root (vpn1 va) = None).
  { unfold l0_of. fold pte. destruct (has_bits pte PTE_V), (has_bits pte PTE_RWX); done. }
  wp_step. apply wp_on_pages. eapply wp_mono; [apply wp_run, pg_alloc_spec; [done|lia]|].
  intros t p (Hrun & Hp & Hr). destruct (Z.eqb_spec t 0) as [->|Ht0].
  { simpl in Hr. destruct Hr as [Hm Hr]. wp_steps. unfold l0_post, vm_ok, vmem, vm_refs. simpl. rewrite Hm.
    split_and!; try done; [by eapply alloc_globals|by eapply pt_ok_refs_ext|by apply tables_grow_refl|]. exists (set_vm_pages p s). unfold on_pages, zoom. by rewrite Hrun. }
  rewrite decide_False in Hr by done. destruct Hr as [Hal [Hlo Hhi] Hf Ho Hz Hfr].
  assert (Htm : managed t) by (unfold managed; lia).
  destruct (Hf t Htm) as [Ht1 Ht2]; [unfold in_block; lia|].
  assert (Hoth : ∀ q, managed q → q ≠ t → pg_refs p q = vm_refs s q).
  { intros q Hq Hne. apply Ho; [done|]. unfold in_block. destruct (managed_apart _ _ Hq Htm Hne); lia. }
  pose proof (managed_u32 t Htm) as Htu. unfold is_u32 in Htu. pose proof free_ram_bounds.
  pose proof (alloc_globals s 1 t p Hrun) as Hsg.
  set (s1 := set_vm_pages p s) in *. wp_step. apply wp_upd_vmem.
  set (m1 := memset (vmem s1) t 0 PAGE_SIZE).
  assert (Hm1z : ∀ x, in_block t 1 x → rd m1 x = 0).
  { intros x Hx. unfold m1, PAGE_SIZE, in_block in *. rewrite memset_rd by lia. by zcases. }
  assert (Hm1f : ∀ x, ¬ in_block t 1 x → rd m1 x = rd (vmem s) x).
  { intros x Hx. etrans; [|apply (Hfr x Hx)]. unfold m1, PAGE_SIZE, in_block in *.
    rewrite memset_rd by lia. by zcases. }
  clearbody m1. wp_step. destruct (has_bits pte PTE_V && has_bits pte PTE_RWX) eqn:Hleaf.
  - apply andb_true_iff in Hleaf as [HV HR]. cbv zeta. apply wp_upd_vmem. rewrite vmem_set.
    pose proof (split_table (vm_refs s) (vmem s) m1 root (vpn1 va) t Hok H1 Htm Hm1z Hm1f pte
      eq_refl HV HR) as Hnt.
    assert (Hfill : ∀ pa perm x, ¬ in_block t 1 x → rd (fill_l0 1024 0 t pa perm m1) x = rd (vmem s) x).
    { intros pa perm x Hx. rewrite fill_l0_rd by (exact Hx || lia). by apply Hm1f. }
    specialize (Hfill (Z.land (pte_addr pte) (not32 4194303))
      (Z.land pte (Z.lor (Z.lor (Z.lor PTE_RWX PTE_U) PTE_A) PTE_D))).
    generalize dependent (fill_l0 1024 0 t (Z.land (pte_addr pte) (not32 4194303))
      (Z.land pte (Z.lor (Z.lor (Z.lor PTE_RWX PTE_U) PTE_A) PTE_D)) m1).
    intros m2 Hnt Hfill. apply wp_install_root; rewrite ?vmem_set; try done.
    + by rewrite !vm_refs_set.
    + intros q Hq Hne. rewrite !vm_refs_set. by apply Hoth.
    + do 2 apply vm_ok_set. done.
    + by do 2 apply same_globals_set.
  - assert (HV : has_bits pte PTE_V = false).
    { by destruct (has_bits pte PTE_V), (has_bits pte PTE_RWX). }
    wp_step. apply wp_install_root; rewrite ?vmem_set; try done.
    + by rewrite vm_refs_set.
    + intros q Hq Hne. rewrite vm_refs_set. by apply Hoth.
    + by apply vm_ok_set.
    + by apply same_globals_set.
    + by apply (empty_table (vm_refs s)).
Qed.

(** The translations of [s'] are those of [s] but on [va, va + len), which
    goes to [pa, pa + len) with the permissions [perm]. *)
Definition remapped (m m' : mem) (root va pa len perm : Z) : Prop :=
  ∀ va', is_u32 va' → query_page m' root va' =
    if (va <=? va') && (va' <? va + len) then
      (if has_bits perm PTE_RWX then Some (pa + (va' - va), Z.land perm (Z.lor PTE_RWX PTE_U)) else None)
    else query_page m root va'.

Definition grown s root s' : Prop :=
  vm_ok s' ∧ same_globals s s' ∧ pt_ok (vm_refs s') (vmem s') root ∧
  tables_grow (vm_refs s) (vm_refs s') (vmem s) (vmem s') root.

Lemma tables_grow_trans refs1 refs2 refs3 m1 m2 m3 root :
  tables_grow refs1 refs2 m1 m2 root → tables_grow refs2 refs3 m2 m3 root →
  tables_grow refs1 refs3 m1 m3 root.
Proof.
  intros [F1 P1 N1 R1 T1] [F2 P2 N2 R2 T2]. split.
  - intros x Hx. rewrite F2 by done. apply F1. intros t Ht. by apply Hx, P2.
  - auto.
  - intros t Ht. destruct (N2 t Ht) as [H2|(Hm & Hz & Ho)].
    + destruct (N1 t H2) as [|(Hm & Hz & Ho)]; [by left|right].
      destruct (R2 t Hm) as [?|(? & _)]; [|lia]. split_and!; try done. lia.
    + right. destruct (R1 t Hm) as [?|(? & ? & _)]; [|lia]. split_and!; try done. lia.
  - intros q Hq. destruct (R1 q Hq) as [H1|(Hz & Ho & Hp)], (R2 q Hq) as [H2|(Hz' & Ho' & Hp')].
    + left. congruence.
    + right. split_and!; try done. congruence.
    + right. split_and!; [done|congruence|]. by apply P2.
    + lia.
  - by eapply root_grows_trans.
Qed.

Lemma grown_trans s1 s2 s3 root : grown s1 root s2 → grown s2 root s3 → grown s1 root s3.
Proof.
  intros (_ & Hg1 & _ & Ht1) (? & Hg2 & ? & Ht2). split_and!; try done; [by etrans|].
  by eapply tables_grow_trans.
Qed.

Lemma page_range va va' : is_u32 va' → va mod 4096 = 0 →
  (if decide (va' / 4096 = va / 4096) then true else false) = (va <=? va') && (va' <? va + 4096).
Proof. intros Hu Ha. case_decide; zcases; try done; Z.div_mod_to_equations; lia. Qed.

Lemma wp_set_leaf s root l0 va pte :
  vm_ok s → pt_ok (vm_refs s) (vmem s) root → is_u32 va → l0_of (vmem s) root (vpn1 va) = Some l0 →
  is_u32 pte →
  let s' := set_vmem (set_pte (vmem s) l0 (vpn0 va) pte) s in
  grown s root s' ∧ ∀ va', is_u32 va' → query_page (vmem s') root va' =
    if decide (va' / 4096 = va / 4096) then leaf_query pte va' else query_page (vmem s) root va'.
Proof.
  intros Hs Hok Hva Hl Hpte. cbv zeta. rewrite vmem_set. destruct (vpn_range va Hva) as [H1 H0].
  destruct (set_leaf (vm_refs s) (vmem s) root l0 va pte) as (Hok' & Hpg & _ & Hq); try done.
  split; [|done]. unfold grown. rewrite vmem_set. split_and!.
  - by apply vm_ok_set.
  - by apply same_globals_set.
  - eapply pt_ok_refs_ext; [|exact Hok']. intros. apply vm_refs_set.
  - split.
    + intros x Hx. apply rd_set_pte; [done|]. apply Hx, Hpg. right. eauto.
    + intros t. apply Hpg.
    + intros t Ht. left. by apply Hpg.
    + intros q Hq'. left. apply vm_refs_set.
    + intros i Hi. left. pose proof (pt_root _ _ _ Hok) as [Hrm _]. destruct (pt_l0 _ _ _ Hok _ _ H1 Hl) as (Htm & _ & Hne).
      rewrite get_set_pte by eauto with kernel. by rewrite (proj2 (Z.eqb_neq _ _)).
Qed.

Lemma vm_map_page_spec s root va pa flags :
  vm_ok s → pt_ok (vm_refs s) (vmem s) root → is_u32 va → va mod 4096 = 0 →
  is_u32 pa → pa mod 4096 = 0 →
  wp (vm_map_page root va pa flags) (λ r s', grown s root s' ∧
    if decide (r = 0) then remapped (vmem s) (vmem s') root va pa 4096 (pte_perm_from_flags flags)
    else r = -1 ∧ vmem s' = vmem s ∧ no_page s) s.
Proof.
  intros Hs Hok Hva Hval Hpa Hpal. unfold vm_map_page. do 3 wp_step.
  eapply wp_mono; [by apply vm_get_l0_spec|].
  intros o s1 (Hs1 & Hg1 & Hok1 & Ht1 & Hq1 & Ho). destruct o as [l0|].
  2: { wp_steps. done. }
  wp_step. apply wp_upd_vmem. wp_step.
  pose proof (perm_flags_bound flags) as Hperm.
  destruct (wp_set_leaf s1 root l0 va (pte_from_pa pa (pte_perm_from_flags flags)))
    as [Hgr Hq]; try done; [by apply pte_from_pa_u32|].
  split; [eapply grown_trans; [|exact Hgr]; by split_and!|]. simpl.
  intros va' Hva'. rewrite Hq, Hq1 by done. rewrite <-page_range by done.
  case_decide as Hp; [|done]. rewrite leaf_query_made by done.
  replace (va' mod 4096) with (va' - va); [done|]. clear -Hval Hp. Z.div_mod_to_equations. lia.
Qed.

Lemma vm_map_range_4k_spec root va pa len flags : ∀ fuel off s,
  vm_ok s → pt_ok (vm_refs s) (vmem s) root → 0 ≤ va → 0 ≤ pa → va mod 4096 = 0 → pa mod 4096 = 0 →
  len mod 4096 = 0 → va + len ≤ 4294967296 → pa + len ≤ 4294967296 → off mod 4096 = 0 →
  0 ≤ off ≤ len → len < 4294967296 → len - off ≤ Z.of_nat fuel * 4096 →
  wp (map_range_4k_loop fuel root va pa len flags off) (λ r s', grown s root s' ∧
    if decide (r = 0)
    then remapped (vmem s) (vmem s') root (va + off) (pa + off) (len - off) (pte_perm_from_flags flags)
    else r = -1) s.
Proof.
  intros fuel. induction fuel as [|fuel IH];
    intros off s Hs Hok Hva Hpa Hval Hpal Hlen Hve Hpe Hoff Hob Hl32 Hfuel; simpl.
  all: destruct (Z.ltb_spec off len) as [Hlt|Hge]; [|wp_steps; split;
    [split_and!; try done; by apply tables_grow_refl|];
    simpl; intros va' Hva'; replace (len - off) with 0 by lia; by zcases].
  - lia.
  - unfold PAGE_SIZE. rewrite !add32_small by (Z.div_mod_to_equations; lia). wp_step.
    eapply wp_mono; [apply vm_map_page_spec; try done; unfold is_u32; Z.div_mod_to_equations; lia|].
    intros r s1 [Hg1 Hr]. destruct Hg1 as (Hs1 & Hsg1 & Hok1 & Htg1).
    case_decide as Hr0; [subst r|destruct Hr as [-> _]]; simpl.
    2: { wp_steps. done. }
    assert (off + 4096 ≤ len) by (Z.div_mod_to_equations; lia).
    eapply wp_mono; [apply IH; try done; (lia || Z.div_mod_to_equations; lia)|].
    intros r s2 [Hg2 Hr2]. split; [by eapply grown_trans|]. case_decide; [|done].
    intros va' Hva'. rewrite Hr2, Hr by done. zcases; try done.
    all: destruct (has_bits _ _); [|done]; do 2 f_equal; lia.
Qed.

Lemma map_range_4k_spec s root va pa len flags :
  vm_ok s → pt_ok (vm_refs s) (vmem s) root → 0 ≤ va → 0 ≤ pa → va mod 4096 = 0 → pa mod 4096 = 0 →
  0 ≤ len → len mod 4096 = 0 → va + len ≤ 4294967296 → pa + len ≤ 4294967296 → len < 4294967296 →
  wp (vm_map_range_4k root va pa len flags) (λ r s', grown s root s' ∧
    if decide (r = 0) then remapped (vmem s) (vmem s') root va pa len (pte_perm_from_flags flags)
    else r = -1) s.
Proof.
  intros. unfold vm_map_range_4k, PAGE_SIZE.
  eapply wp_mono; [apply vm_map_range_4k_spec; try done; try lia|].
  - rewrite Z2Nat.id by (Z.div_mod_to_equations; lia). Z.div_mod_to_equations. lia.
  - cbv beta. intros r s' [Hg Hr]. split; [done|]. by rewrite !Z.add_0_r, Z.sub_0_r in Hr.
Qed.

Lemma vm_unmap_user_page_spec s root va :
  vm_ok s → pt_ok (vm_refs s) (vmem s) root → is_u32 va → va mod 4096 = 0 →
  wp (vm_unmap_user_page (vm_make_satp root) va) (λ r s', grown s root s' ∧
    (∀ q, vm_refs s' q = vm_refs s q) ∧ (∀ t, pt_page (vmem s') root t ↔ pt_page (vmem s) root t) ∧
    (∀ i, 0 ≤ i < 1024 → l0_of (vmem s') root i = l0_of (vmem s) root i) ∧
    if decide (r = 0) then remapped (vmem s) (vmem s') root va 0 4096 0
    else r = -1 ∧ s' = s ∧ l0_of (vmem s) root (vpn1 va) = None) s.
Proof.
  intros Hs Hok Hva Hval. pose proof (pt_root _ _ _ Hok) as [Hm _].
  unfold vm_unmap_user_page, is_aligned, PAGE_SIZE. rewrite Hval. cbv zeta. simpl.
  rewrite satp_root by eauto with kernel. do 2 wp_step.
  assert (Hgs : grown s root s) by (split_and!; try done; by apply tables_grow_refl).
  set (pte1 := get_pte (vmem s) root (vpn1 va)).
  destruct (has_bits pte1 PTE_V) eqn:HV; simpl.
  2: { wp_steps. split_and!; try done. simpl. intros va' Hva'. rewrite <-page_range by done.
       case_decide as Hp; [|done]. destruct (vpn_page va' va Hva' Hva Hp) as [He _].
       unfold query_page. rewrite He. fold pte1. by rewrite HV. }
  assert (Hl : l0_of (vmem s) root (vpn1 va) = if has_bits pte1 PTE_RWX then None else Some (pte_addr pte1)).
  { unfold l0_of. fold pte1. rewrite HV. by destruct (has_bits pte1 PTE_RWX). }
  destruct (has_bits pte1 PTE_RWX) eqn:HR; [by wp_steps|].
  wp_step. apply wp_upd_vmem. wp_step.
  destruct (wp_set_leaf s root (pte_addr pte1) va 0) as [Hg Hq]; try done.
  split; [done|]. split; [intros q; apply vm_refs_set|]. split.
  { rewrite vmem_set. by apply (set_leaf (vm_refs s)). }
  split; [rewrite vmem_set; by apply (set_leaf (vm_refs s))|].
  simpl. intros va' Hva'. rewrite Hq by done. rewrite <-page_range by done. by case_decide.
Qed.

End ops_spec.
