(* ===== verification/VmBoot.v ===== *)
(** * Building address spaces

    [vm_init] makes the kernel's identity map out of superpages and
    [vm_build_user_satp] derives a user address space from it. *)

From S2P Require Import Prelude Layout KString PageAlloc PageAllocSpec PageIface Vm VmSpec.

Section boot.
Context {L : Layout} {LOK : LayoutOk} {P : Type} {PO : PageOps P} {POK : PageOpsOk P}.
Implicit Types s : vm_state P.

(** ** Superpages *)

(** Every entry of the root is invalid or a superpage. *)
Definition super_only (m : mem) (root : Z) : Prop :=
  ∀ i, 0 ≤ i < 1024 → get_pte m root i = 0 ∨ ∃ pa perm, get_pte m root i = pte_from_pa pa perm ∧
    is_u32 pa ∧ pa mod 4194304 = 0 ∧ 0 ≤ perm < 1024 ∧ has_bits perm PTE_RWX = true.

Lemma super_entry m root i : super_only m root → 0 ≤ i < 1024 →
  l0_of m root i = None ∧
  (has_bits (get_pte m root i) PTE_V = true → pte_addr (get_pte m root i) mod 4194304 = 0).
Proof.
  intros Hs Hi. unfold l0_of. destruct (Hs i Hi) as [->|(pa & perm & -> & Hu & Ha & Hp & Hr)]; [done|].
  destruct (pte_from_pa_fields pa perm) as (-> & -> & -> & _); try done.
  - clear -Ha. Z.div_mod_to_equations. lia.
  - by rewrite Hr.
Qed.

Lemma super_pt_ok refs m root : super_only m root → managed root → refs root ≠ 0 → pt_ok refs m root.
Proof.
  intros Hs Hm Hr. split; [done|..].
  - intros i t Hi. by rewrite (proj1 (super_entry _ _ _ Hs Hi)).
  - intros i j t Hi Hj. by rewrite (proj1 (super_entry _ _ _ Hs Hi)).
  - intros i Hi HV _. by apply (super_entry _ _ _ Hs Hi).
Qed.

Lemma query_super m root va pa perm :
  is_u32 va → get_pte m root (vpn1 va) = pte_from_pa pa perm → is_u32 pa → pa mod 4194304 = 0 →
  0 ≤ perm < 1024 → has_bits perm PTE_RWX = true →
  query_page m root va = Some (pa + va mod 4194304, Z.land perm (Z.lor PTE_RWX PTE_U)).
Proof.
  intros Hva Hg Hu Ha Hp Hr. unfold query_page. rewrite Hg.
  destruct (pte_from_pa_fields pa perm) as (-> & -> & -> & ->); try done.
  - clear -Ha. Z.div_mod_to_equations. lia.
  - rewrite Hr. simpl. change 4194303 with (Z.ones 22). by rewrite page_offset.
Qed.

(** Only the page at [root] may differ. *)
Definition root_written s root s' : Prop :=
  vm_ok s' ∧ same_globals s s' ∧ (∀ q, vm_refs s' q = vm_refs s q) ∧
  (∀ x, ¬ in_block root 1 x → rd (vmem s') x = rd (vmem s) x).

Lemma root_written_trans s1 s2 s3 root :
  root_written s1 root s2 → root_written s2 root s3 → root_written s1 root s3.
Proof.
  intros (_ & Hg1 & Hr1 & Hx1) (? & Hg2 & Hr2 & Hx2). split_and!; [done|by etrans|congruence|].
  intros x Hx. by rewrite Hx2, Hx1.
Qed.

Lemma map_range_4m_loop_spec root va pa len perm : ∀ fuel off s,
  vm_ok s → root mod 4096 = 0 → 0 ≤ va → 0 ≤ pa → va mod 4194304 = 0 → pa mod 4194304 = 0 →
  len mod 4194304 = 0 → va + len ≤ 4294967296 → pa + len ≤ 4294967296 → off mod 4194304 = 0 →
  0 ≤ off ≤ len → len < 4294967296 → len - off ≤ Z.of_nat fuel * 4194304 → 0 ≤ perm < 1024 →
  wp (map_range_4m_loop fuel root va pa len perm off) (λ _ s', root_written s root s' ∧
    ∀ j, 0 ≤ j < 1024 → get_pte (vmem s') root j =
      if (va + off <=? j * 4194304) && (j * 4194304 <? va + len)
      then pte_from_pa (pa + (j * 4194304 - va)) perm else get_pte (vmem s) root j) s.
Proof.
  intros fuel. induction fuel as [|fuel IH];
    intros off s Hs Hr Hva Hpa Hval Hpal Hlen Hve Hpe Hoff Hob Hl32 Hfuel Hperm; simpl.
  all: destruct (Z.ltb_spec off len) as [Hlt|Hge];
    [|wp_steps; split; [done|]; intros j Hj; by zcases].
  - lia.
  - rewrite !add32_small by (Z.div_mod_to_equations; lia). wp_step. apply wp_upd_vmem.
    assert (Hu : is_u32 (va + off)) by (unfold is_u32; lia).
    pose proof (vpn1_eq (va + off) Hu) as Hv1. destruct (vpn_range _ Hu) as [Hvr _].
    assert (off + 4194304 ≤ len) by (Z.div_mod_to_equations; lia).
    set (s1 := set_vmem _ s).
    eapply wp_mono; [apply (IH _ s1); try done; try lia; [by apply vm_ok_set|Z.div_mod_to_equations; lia]|].
    intros [] s' [Hw Hg]. split.
    + eapply root_written_trans; [|exact Hw]. split_and!; [by apply vm_ok_set|by apply same_globals_set| |].
      * intros q. apply vm_refs_set.
      * intros x Hx. unfold s1. rewrite vmem_set. by apply rd_set_pte.
    + intros j Hj. rewrite Hg by done. unfold s1. rewrite vmem_set.
      rewrite get_set_pte; try done.
      * rewrite Z.eqb_refl, Hv1. clear -Hval Hoff Hob Hlt. zcases; try done; subst;
          try (do 2 f_equal; Z.div_mod_to_equations; lia); exfalso; Z.div_mod_to_equations; lia.
      * apply pte_from_pa_u32; [unfold is_u32; lia|Z.div_mod_to_equations; lia|done].
Qed.

Lemma vm_map_range_4m_spec s root va pa len flags :
  vm_ok s → root mod 4096 = 0 → 0 ≤ va → 0 ≤ pa → va mod 4194304 = 0 → pa mod 4194304 = 0 →
  0 ≤ len → len mod 4194304 = 0 → va + len ≤ 4294967296 → pa + len ≤ 4294967296 → len < 4294967296 →
  wp (vm_map_range_4m root va pa len flags) (λ _ s', root_written s root s' ∧
    ∀ j, 0 ≤ j < 1024 → get_pte (vmem s') root j =
      if (va <=? j * 4194304) && (j * 4194304 <? va + len)
      then pte_from_pa (pa + (j * 4194304 - va)) (pte_perm_from_flags flags)
      else get_pte (vmem s) root j) s.
Proof.
  intros. unfold vm_map_range_4m.
  eapply wp_mono; [apply map_range_4m_loop_spec; try done; try lia|].
  - rewrite Z2Nat.id by (Z.div_mod_to_equations; lia). Z.div_mod_to_equations. lia.
  - apply perm_flags_bound.
  - cbv beta. intros [] s' [Hw Hg]. split; [done|]. by rewrite Z.add_0_r in Hg.
Qed.

(** The kernel's map: the CLINT, the PLIC and the devices without execute
    permission, and 64 MiB of memory with all permissions, all at their
    physical address and out of reach of user mode. *)
Definition kernel_map (va : Z) : option (Z * Z) :=
  let rw := Z.lor PTE_R PTE_W in
  if (2147483648 <=? va) && (va <? 2147483648 + 67108864) then Some (va, PTE_RWX)
  else if (268435456 <=? va) && (va <? 268435456 + 33554432) then Some (va, rw)
  else if (201326592 <=? va) && (va <? 201326592 + 4194304) then Some (va, rw)
  else if (33554432 <=? va) && (va <? 33554432 + 4194304) then Some (va, rw)
  else None.

(** What [vm_init] leaves behind. *)
Record kernel_space s : Prop := {
  ks_managed : managed (kernel_root_pt s);
  ks_refs : vm_refs s (kernel_root_pt s) ≠ 0;
  ks_satp : kernel_satp_value s = vm_make_satp (kernel_root_pt s);
  ks_super : super_only (vmem s) (kernel_root_pt s);
  ks_map : ∀ va, is_u32 va → query_page (vmem s) (kernel_root_pt s) va = kernel_map va;
}.

(** The root entry of the 4 MiB region [j]. *)
Definition kernel_pte (j : Z) : Z :=
  let rw := Z.lor PTE_R PTE_W in
  if (2147483648 <=? j * 4194304) && (j * 4194304 <? 2147483648 + 67108864)
  then pte_from_pa (j * 4194304) PTE_RWX
  else if (268435456 <=? j * 4194304) && (j * 4194304 <? 268435456 + 33554432)
  then pte_from_pa (j * 4194304) rw
  else if (201326592 <=? j * 4194304) && (j * 4194304 <? 201326592 + 4194304)
  then pte_from_pa (j * 4194304) rw
  else if (33554432 <=? j * 4194304) && (j * 4194304 <? 33554432 + 4194304)
  then pte_from_pa (j * 4194304) rw
  else 0.

Lemma kernel_pte_super m root : (∀ j, 0 ≤ j < 1024 → get_pte m root j = kernel_pte j) → super_only m root.
Proof.
  intros Hg i Hi. rewrite Hg by done. unfold kernel_pte.
  repeat case_match; try (by left); right; eexists _, _; (split; [done|]);
    unfold is_u32; split_and!; try done; try lia; Z.div_mod_to_equations; lia.
Qed.

(** A test of region bounds sees the region only. *)
Lemma region_test a b j o :
  a mod 4194304 = 0 → b mod 4194304 = 0 → 0 ≤ o < 4194304 →
  (a <=? j * 4194304 + o) && (j * 4194304 + o <? b) = (a <=? j * 4194304) && (j * 4194304 <? b).
Proof. intros. zcases; try done; exfalso; Z.div_mod_to_equations; lia. Qed.

Lemma kernel_pte_map m root va :
  (∀ j, 0 ≤ j < 1024 → get_pte m root j = kernel_pte j) → is_u32 va →
  query_page m root va = kernel_map va.
Proof.
  intros Hg Hva. destruct (vpn_range va Hva) as [H1 _]. specialize (Hg _ H1).
  rewrite vpn1_eq in * by done. set (j := va / 4194304) in *.
  assert (Hj : va = j * 4194304 + va mod 4194304 ∧ 0 ≤ va mod 4194304 < 4194304).
  { unfold j. clear. Z.div_mod_to_equations. lia. }
  destruct Hj as [Hj Hb]. set (o := va mod 4194304) in *.
  assert (Hq : ∀ perm, get_pte m root j = pte_from_pa (j * 4194304) perm → 0 ≤ perm < 1024 →
    has_bits perm PTE_RWX = true → query_page m root va = Some (va, Z.land perm (Z.lor PTE_RWX PTE_U))).
  { intros perm He Hp Hr. rewrite (query_super m root va (j * 4194304) perm); try done.
    - do 2 f_equal. fold o. lia.
    - by rewrite vpn1_eq.
    - unfold is_u32. lia.
    - clear. Z.div_mod_to_equations. lia. }
  unfold kernel_pte in Hg. unfold kernel_map.
  assert (Ht : ∀ a b, a mod 4194304 = 0 → b mod 4194304 = 0 →
    (a <=? va) && (va <? b) = (a <=? j * 4194304) && (j * 4194304 <? b)).
  { intros a b Ha Hb'. rewrite Hj. by apply region_test. }
  rewrite !Ht by done.
  revert Hg. repeat case_match; intros Hg; try (by apply (Hq _ Hg)).
  unfold query_page. rewrite vpn1_eq by done. fold j. by rewrite Hg.
Qed.

Lemma vm_init_spec s :
  vm_ok s →
  wp vm_init (λ r s', vm_ok s' ∧ if decide (r = 0) then kernel_space s' ∧ csr_satp s' = kernel_satp_value s'
    else r = -1 ∧ no_page s) s.
Proof.
  intros Hs. unfold vm_init. wp_step. apply wp_on_pages.
  eapply wp_mono; [apply wp_run, pg_alloc_spec; [done|lia]|]. intros root p (Hrun & Hp & Hr).
  destruct (Z.eqb_spec root 0) as [->|Hr0].
  { wp_steps. split; [done|]. split; [done|]. exists (set_vm_pages p s). unfold on_pages, zoom. by rewrite Hrun. }
  rewrite decide_False in Hr by done. destruct Hr as [Hal [Hlo Hhi] Hf _ _ _].
  assert (Hm : managed root) by (unfold managed; lia).
  destruct (Hf root Hm) as [_ Hone]; [unfold in_block; lia|].
  pose proof (managed_u32 root Hm) as Hu. unfold is_u32 in Hu. pose proof free_ram_bounds.
  do 3 wp_step. apply wp_upd_vmem. set (s1 := set_vmem _ _).
  assert (Hs1 : vm_ok s1) by (by apply vm_ok_set).
  assert (Hz : ∀ j, 0 ≤ j < 1024 → get_pte (vmem s1) root j = 0).
  { intros j Hj. unfold s1. rewrite vmem_set. unfold get_pte, load32, PAGE_SIZE.
    rewrite !memset_rd by lia. by zcases. }
  assert (Hk1 : kernel_root_pt s1 = root) by done.
  assert (Hr1 : vm_refs s1 root = 1) by (unfold s1; by rewrite vm_refs_set).
  clearbody s1.
  wp_step. eapply wp_mono; [by apply vm_map_range_4m_spec|]. intros [] s2 [Hw2 Hg2].
  wp_step. eapply wp_mono; [apply vm_map_range_4m_spec; try done; apply Hw2|]. intros [] s3 [Hw3 Hg3].
  wp_step. eapply wp_mono; [apply vm_map_range_4m_spec; try done; apply Hw3|]. intros [] s4 [Hw4 Hg4].
  wp_step. eapply wp_mono; [apply vm_map_range_4m_spec; try done; apply Hw4|]. intros [] s5 [Hw5 Hg5].
  pose proof (root_written_trans _ _ _ _ (root_written_trans _ _ _ _ (root_written_trans _ _ _ _ Hw2 Hw3) Hw4) Hw5)
    as (Hs5 & Hsg & Hrf & _).
  unfold vm_activate. wp_steps. split; [done|]. simpl.
  assert (Hg : ∀ j, 0 ≤ j < 1024 → get_pte (vmem s5) root j = kernel_pte j).
  { intros j Hj. rewrite Hg5, Hg4, Hg3, Hg2, Hz by done. unfold kernel_pte.
    by repeat case_match; try done; f_equal; lia. }
  split; [|done]. pose proof (sg_root _ _ Hsg) as Hk5. rewrite Hk1 in Hk5.
  split; unfold vm_refs, vmem in *; simpl; rewrite ?Hk5.
  - done.
  - rewrite Hrf. lia.
  - done.
  - by apply kernel_pte_super.
  - intros va Hva. by apply kernel_pte_map.
Qed.
(** ** User address spaces *)

(** Growing one table leaves another one alone. *)
Lemma grown_frame s s' root r2 :
  grown s root s' → pt_ok (vm_refs s) (vmem s) r2 →
  (∀ t, pt_page (vmem s) root t → ¬ pt_page (vmem s) r2 t) →
  pt_ok (vm_refs s') (vmem s') r2 ∧ (∀ t, pt_page (vmem s') r2 t ↔ pt_page (vmem s) r2 t) ∧
  (∀ t x, pt_page (vmem s) r2 t → in_block t 1 x → rd (vmem s') x = rd (vmem s) x) ∧
  (∀ va, is_u32 va → query_page (vmem s') r2 va = query_page (vmem s) r2 va).
Proof.
  intros (_ & _ & Hok & [F _ N R]) Hok2 Hdis.
  assert (Hx : ∀ t x, pt_page (vmem s) r2 t → in_block t 1 x → rd (vmem s') x = rd (vmem s) x).
  { intros t x Ht Hx. apply F. intros a Ha Hxa. destruct (pt_page_managed _ _ _ _ Hok2 Ht) as [Htm Htr].
    destruct (pt_page_managed _ _ _ _ Hok Ha) as [Ham _].
    assert (a = t) as ->.
    { destruct (decide (a = t)) as [|Hne]; [done|].
      destruct (managed_apart _ _ Ham Htm Hne); unfold in_block in *; lia. }
    destruct (N t Ha) as [Hin|(_ & Hz & _)]; [by eapply Hdis|done]. }
  destruct (pt_frame (vm_refs s) (vm_refs s') (vmem s) (vmem s') r2 Hok2) as (? & ? & ?); [done| |done].
  intros t Ht. destruct (pt_page_managed _ _ _ _ Hok2 Ht) as [Htm Htr].
  destruct (R t Htm) as [->|(? & _ & _)]; [done|done].
Qed.

(** A view of memory with [va, va + len) sent to [pa, pa + len). *)
Definition overlay (v : Z → option (Z * Z)) (va pa len perm : Z) : Z → option (Z * Z) := λ va',
  if (va <=? va') && (va' <? va + len) then
    (if has_bits perm PTE_RWX then Some (pa + (va' - va), Z.land perm (Z.lor PTE_RWX PTE_U)) else None)
  else v va'.

Definition overlay_segments (v : Z → option (Z * Z)) (l : list (Z * Z * Z)) : Z → option (Z * Z) :=
  fold_left (λ v '(st, en, fl), overlay v st st (en - st) (pte_perm_from_flags fl)) l v.

Definition segment_ok (x : Z * Z * Z) : Prop :=
  let '(st, en, _) := x in 0 ≤ st ∧ st mod 4096 = 0 ∧ en mod 4096 = 0 ∧ 0 ≤ en < 4294967296.

Lemma overlay_ext v v' va pa len perm x :
  v x = v' x → overlay v va pa len perm x = overlay v' va pa len perm x.
Proof. unfold overlay. by intros ->. Qed.

Lemma overlay_segments_ext l x : ∀ v v', v x = v' x → overlay_segments v l x = overlay_segments v' l x.
Proof.
  induction l as [|[[st en] fl] l IH]; intros v v' Hv; [done|]. simpl.
  apply IH. by apply overlay_ext.
Qed.

Lemma map_segments_spec root l : ∀ s,
  vm_ok s → pt_ok (vm_refs s) (vmem s) root → Forall segment_ok l →
  wp (map_segments root l) (λ r s', grown s root s' ∧
    if decide (r = 0)
    then ∀ va, is_u32 va → query_page (vmem s') root va = overlay_segments (query_page (vmem s) root) l va
    else r = -1) s.
Proof.
  induction l as [|[[st en] fl] l IH]; intros s Hs Hok Hl; simpl.
  - wp_steps. split; [|done]. split_and!; try done. by apply tables_grow_refl.
  - inversion_clear Hl as [|? ? Hx Hl']. destruct Hx as (Hst & Hsa & Hea & Heb).
    wp_step. unfold vm_map_identity_segment. destruct (Z.leb_spec en st) as [Hle|Hgt].
    + wp_step. simpl. eapply wp_mono; [by apply IH|]. intros r s' [Hg Hr]. split; [done|].
      case_decide; [|done]. intros va Hva. rewrite Hr by done. apply overlay_segments_ext.
      unfold overlay. by zcases.
    + rewrite sub32_small by lia.
      eapply wp_mono; [apply map_range_4k_spec; try done; (lia || Z.div_mod_to_equations; lia)|].
      intros r s1 [Hg1 Hr1]. destruct (decide (r = 0)) as [->|]; [|subst r; wp_steps; done]. simpl.
      pose proof Hg1 as (Hs1 & _ & Hok1 & _).
      eapply wp_mono; [by apply IH|]. intros r s' [Hg Hr]. split; [by eapply grown_trans|].
      case_decide; [|done]. intros va Hva. rewrite Hr by done. apply overlay_segments_ext.
      by rewrite Hr1.
Qed.

Lemma page_floor_id v : is_u32 v → v mod 4096 = 0 → page_floor v = v.
Proof. intros. rewrite page_floor_eq by done. lia. Qed.

Lemma page_ceil_id v : is_u32 v → v mod 4096 = 0 → page_ceil v = v.
Proof.
  intros Hu Ha. rewrite page_ceil_eq; [|done|unfold is_u32 in Hu]; Z.div_mod_to_equations; lia.
Qed.

(** The linker's boundaries are aligned, so rounding does not move them. *)
Lemma user_segments_eq : user_segments =
  [ (rodata_start, rodata_end, 9); (user_text_start, user_text_end, 13);
    (user_rodata_start, user_rodata_end, 9); (user_data_start, user_data_end, 11);
    (user_bss_start, user_bss_end, 11) ].
Proof.
  pose proof lo_text. pose proof lo_rodata. pose proof lo_user_rodata. pose proof lo_rodata_end.
  pose proof lo_data. pose proof lo_bss. pose proof lo_free. pose proof lo_fits.
  pose proof lo_aligned as Hal. rewrite !Forall_cons in Hal.
  unfold user_segments. rewrite !page_floor_id, !page_ceil_id by (unfold is_u32; (tauto || lia)). done.
Qed.

Lemma user_segments_ok : Forall segment_ok user_segments.
Proof.
  pose proof lo_text. pose proof lo_rodata. pose proof lo_user_rodata. pose proof lo_rodata_end.
  pose proof lo_data. pose proof lo_bss. pose proof lo_free. pose proof lo_fits.
  pose proof lo_aligned as Hal. rewrite !Forall_cons in Hal.
  rewrite user_segments_eq. repeat (apply Forall_cons; split); [..|by apply Forall_nil];
    unfold segment_ok; split_and!; (tauto || lia).
Qed.

(** What a user process sees: the kernel's map, the five segments, and its
    stack on top. *)
Definition user_view (base paddr pages : Z) : Z → option (Z * Z) :=
  overlay (overlay_segments kernel_map user_segments) base paddr (pages * 4096)
    (pte_perm_from_flags (Z.lor (Z.lor VM_FLG_R VM_FLG_W) VM_FLG_U)).

(** Every page in use in [s0] has in [s'] the count and contents it had. *)
Definition kept s0 s' : Prop := ∀ q, managed q → vm_refs s0 q ≠ 0 →
  vm_refs s' q = vm_refs s0 q ∧ ∀ x, in_block q 1 x → rd (vmem s') x = rd (vmem s0) x.

(** The table under [root] is made of pages that were free in [s0]. *)
Definition new_space s0 root s : Prop :=
  kept s0 s ∧ ∀ t, pt_page (vmem s) root t → vm_refs s0 t = 0.

Lemma grown_new_space s0 s s' root : new_space s0 root s → grown s root s' → new_space s0 root s'.
Proof.
  intros [Hk Hn] (_ & _ & Hok & [F _ N R]).
  assert (Hn' : ∀ t, pt_page (vmem s') root t → vm_refs s0 t = 0).
  { intros t Ht. destruct (N t Ht) as [?|(Hm & Hz & _)]; [by apply Hn|].
    destruct (decide (vm_refs s0 t = 0)) as [|Hne]; [done|]. destruct (Hk t Hm Hne). congruence. }
  split; [|done]. intros q Hq Hne. destruct (Hk q Hq Hne) as [Hr Hx]. split.
  - destruct (R q Hq) as [->|(? & _ & _)]; [done|congruence].
  - intros x Hxq. rewrite <-Hx by done. apply F. intros t Ht Hxt.
    assert (t ≠ q) by (intros ->; by apply Hne, Hn').
    destruct (pt_page_managed _ _ _ _ Hok Ht) as [Htm _].
    destruct (managed_apart _ _ Htm Hq); try done; unfold in_block in *; lia.
Qed.

(** Only the kernel's root page matters for the kernel's map. *)
Lemma kernel_space_kept s s' : kept s s' → same_globals s s' → kernel_space s → kernel_space s'.
Proof.
  intros Hk Hsg [Hm Hr Hsa Hsup Hmap]. destruct (Hk _ Hm Hr) as [Hr' Hx].
  destruct Hsg as [Hg1 Hg2 Hg3].
  assert (Hg : ∀ i, 0 ≤ i < 1024 → get_pte (vmem s') (kernel_root_pt s) i = get_pte (vmem s) (kernel_root_pt s) i).
  { intros i Hi. by apply get_pte_ext. }
  split; rewrite ?Hg1, ?Hg2; try done.
  - congruence.
  - intros i Hi. rewrite Hg by done. by apply Hsup.
  - intros va Hva. rewrite <-Hmap by done. destruct (vpn_range va Hva) as [H1 _].
    apply query_root; [by apply (super_entry _ _ _ Hsup)|by apply Hg].
Qed.

(** The part of [vm_build_user_satp] up to the copy of the kernel's root. *)
Lemma copy_root_spec s p root :
  vm_ok s → kernel_space s → pg_ok p → same_globals s (set_vm_pages p s) →
  pg_given (pg_refs (vm_pages s)) (pg_refs p) (pg_mem (vm_pages s)) (pg_mem p) root 1 →
  let s1 := set_vmem (memset (pg_mem p) root 0 PAGE_SIZE) (set_vm_pages p s) in
  let s2 := set_vmem (memcpy (vmem s1) root (kernel_root_pt s) PAGE_SIZE) s1 in
  vm_ok s2 ∧ same_globals s s2 ∧ vm_refs s2 root = 1 ∧ managed root ∧ pt_ok (vm_refs s2) (vmem s2) root ∧
  new_space s root s2 ∧ ∀ va, is_u32 va → query_page (vmem s2) root va = kernel_map va.
Proof.
  intros Hs Hks Hp Hsg [Hal [Hlo Hhi] Hf Ho Hz Hfr]. cbv zeta.
  assert (Hm : managed root) by (unfold managed; lia).
  destruct (Hf root Hm) as [Hr0 Hr1]; [unfold in_block; lia|].
  pose proof (managed_u32 root Hm) as Hu. unfold is_u32 in Hu. pose proof free_ram_bounds.
  pose proof (ks_managed _ Hks) as Hkm. pose proof (managed_u32 _ Hkm) as Hku. unfold is_u32 in Hku.
  assert (Hne : kernel_root_pt s ≠ root).
  { intros He. apply (ks_refs _ Hks). by rewrite He. }
  pose proof (managed_apart _ _ Hkm Hm Hne) as Hap.
  assert (Hkhi : kernel_root_pt s + 4096 ≤ free_ram_end).
  { destruct Hkm as [Hka Hkb]. pose proof free_ram_end_eq. pose proof free_ram_aligned.
    unfold NPAGES in *. Z.div_mod_to_equations. lia. }
  rewrite vmem_set. set (s1 := set_vmem _ (set_vm_pages p s)).
  assert (Hrd : ∀ x, rd (memcpy (memset (pg_mem p) root 0 PAGE_SIZE) root (kernel_root_pt s) PAGE_SIZE) x =
    if (root <=? x) && (x <? root + 4096) then rd (vmem s) (kernel_root_pt s + (x - root)) else rd (vmem s) x).
  { intros x. unfold PAGE_SIZE. rewrite memcpy_rd by lia. rewrite !memset_rd by lia.
    unfold vmem. zcases; try done; apply Hfr; unfold in_block; lia. }
  set (m2 := memcpy _ _ _ _) in *. clearbody m2.
  assert (Hg : ∀ i, 0 ≤ i < 1024 → get_pte m2 root i = get_pte (vmem s) (kernel_root_pt s) i).
  { intros i Hi. apply load32_shift. intros b Hb. rewrite Hrd. zcases. f_equal. lia. }
  assert (Hsup : super_only m2 root).
  { intros i Hi. rewrite Hg by done. by apply Hks. }
  assert (Hr2 : vm_refs (set_vmem m2 s1) root = 1) by (unfold s1; by rewrite !vm_refs_set).
  split_and!; try done; rewrite ?vmem_set.
  - unfold s1. do 2 apply vm_ok_set. done.
  - unfold s1. by do 2 apply same_globals_set.
  - apply super_pt_ok; [done..|lia].
  - split.
    + intros q Hq Hqr. unfold s1. rewrite !vm_refs_set, vmem_set.
      assert (q ≠ root) by (intros ->; done). pose proof (managed_apart _ _ Hq Hm) as Hqa. split.
      * apply Ho; [done|]. unfold in_block. lia.
      * intros x Hx. rewrite Hrd. unfold in_block in Hx. zcases; (done || lia).
    + intros t [->|(i & Hi & Hl)]; [done|]. rewrite vmem_set in Hl.
      by rewrite (proj1 (super_entry _ _ _ Hsup Hi)) in Hl.
  - intros va Hva. rewrite <-(ks_map _ Hks) by done. destruct (vpn_range va Hva) as [H1 _].
    unfold query_page. rewrite !Hg by done.
    destruct (super_entry _ _ _ (ks_super _ Hks) H1) as [Hl _]. unfold l0_of in Hl.
    destruct (has_bits (get_pte (vmem s) (kernel_root_pt s) (vpn1 va)) PTE_V); [|done].
    by destruct (has_bits (get_pte (vmem s) (kernel_root_pt s) (vpn1 va)) PTE_RWX).
Qed.

(** The result of [vm_build_user_satp]. *)
Definition build_post s base paddr pages (satp : Z) s' : Prop :=
  vm_ok s' ∧ same_globals s s' ∧ kept s s' ∧
  if decide (satp = 0) then True
  else ∃ root, satp = vm_make_satp root ∧ vm_refs s root = 0 ∧ pt_ok (vm_refs s') (vmem s') root ∧
    (∀ t, pt_page (vmem s') root t → vm_refs s t = 0) ∧
    ∀ va, is_u32 va → query_page (vmem s') root va = user_view base paddr pages va.

Lemma build_fail_spec s0 s root base paddr pages :
  vm_ok s → same_globals s0 s → new_space s0 root s → pt_ok (vm_refs s) (vmem s) root →
  wp (build_fail root) (build_post s0 base paddr pages) s.
Proof.
  intros Hs Hsg [Hk Hn] Hok. pose proof (pt_root _ _ _ Hok) as [Hm Hr].
  unfold build_fail. wp_step. apply wp_on_pages.
  assert (Hend : root + 1 * 4096 ≤ free_ram_end).
  { destruct Hm as [Hka Hkb]. pose proof free_ram_end_eq. pose proof free_ram_aligned.
    unfold NPAGES in *. Z.div_mod_to_equations. lia. }
  eapply wp_mono; [apply pg_free_spec; try done; [apply Hm..|]|].
  - intros q Hq Hb. assert (q = root) as ->; [|done].
    destruct (decide (q = root)) as [|Hne]; [done|].
    destruct (managed_apart _ _ Hq Hm Hne); unfold in_block in Hb; lia.
  - intros [] p (Hp & Hpm & [_ Hd Hw]). wp_steps. split_and!; [done|by etrans; [|apply same_globals_pages]| |done].
    intros q Hq Hqr. destruct (Hk q Hq Hqr) as [Hqr' Hx]. unfold vm_refs, vmem in *. simpl. rewrite Hpm.
    split; [|done]. rewrite <-Hqr'. apply Hd; [done|]. intros Hb. apply Hqr.
    assert (q = root) as ->; [|apply Hn; by left].
    destruct (decide (q = root)) as [|Hne]; [done|].
    destruct (managed_apart _ _ Hq Hm Hne); unfold in_block in Hb; lia.
Qed.

Lemma make_satp_nonzero r : vm_make_satp r ≠ 0.
Proof. unfold vm_make_satp. intros He%Z.lor_eq_0_iff. by destruct He. Qed.

(** Mapping the segments and the stack into the copy. *)
Lemma build_tail_spec s s2 root base paddr pages :
  0 ≤ base → 0 ≤ paddr → base mod 4096 = 0 → paddr mod 4096 = 0 →
  0 ≤ pages < 1048576 → base + pages * 4096 ≤ 4294967296 → paddr + pages * 4096 ≤ 4294967296 →
  vm_ok s2 → same_globals s s2 → pt_ok (vm_refs s2) (vmem s2) root → new_space s root s2 →
  (∀ va, is_u32 va → query_page (vmem s2) root va = kernel_map va) →
  wp (let! rc := map_segments root user_segments in
      if rc <? 0 then build_fail root
      else
        let! rc := (if 0 <? pages then
                      vm_map_range_4k root base paddr
                        (mul32 pages PAGE_SIZE) (Z.lor (Z.lor VM_FLG_R VM_FLG_W) VM_FLG_U)
                    else kret 0) in
        if rc <? 0 then build_fail root else kret (vm_make_satp root))
    (build_post s base paddr pages) s2.
Proof.
  intros Hb Hpa Hba Hpaa Hpg Hbe Hpe Hs2 Hg2 Hok2 Hn2 Hq2.
  assert (Hfail : ∀ s', grown s2 root s' → wp (build_fail root) (build_post s base paddr pages) s').
  { intros s' Hg. pose proof Hg as (? & ? & ? & _). apply build_fail_spec; try done; [by etrans|].
    by eapply grown_new_space. }
  wp_step. eapply wp_mono; [apply map_segments_spec; try done; apply user_segments_ok|].
  intros r s3 [Hg3 Hr3]. destruct (decide (r = 0)) as [->|]; [simpl|subst r; by apply Hfail].
  pose proof Hg3 as (Hs3 & _ & Hok3 & _). wp_step.
  assert (Hdone : ∀ s4, grown s2 root s4 →
    (∀ va, is_u32 va → query_page (vmem s4) root va = user_view base paddr pages va) →
    build_post s base paddr pages (vm_make_satp root) s4).
  { intros s4 Hg4 Hq4. destruct (grown_new_space _ _ _ _ Hn2 Hg4) as [Hk Hn4].
    pose proof Hg4 as (? & ? & ? & _). split_and!; try done; [by etrans|].
    rewrite decide_False by apply make_satp_nonzero. exists root. split_and!; try done.
    apply Hn4. by left. }
  assert (Hq3 : ∀ va, is_u32 va →
    query_page (vmem s3) root va = overlay_segments kernel_map user_segments va).
  { intros va Hva. rewrite Hr3 by done. apply overlay_segments_ext. by apply Hq2. }
  destruct (Z.ltb_spec 0 pages) as [Hpos|Hnpos].
  - unfold PAGE_SIZE. rewrite mul32_small by lia.
    eapply wp_mono; [apply map_range_4k_spec; try done; (lia || Z.div_mod_to_equations; lia)|].
    intros r s4 [Hg4 Hr4]. assert (Hg : grown s2 root s4) by (by eapply grown_trans).
    destruct (decide (r = 0)) as [->|]; [simpl|subst r; by apply Hfail].
    wp_steps. apply Hdone; [done|]. intros va Hva. rewrite Hr4 by done. by apply overlay_ext, Hq3.
  - wp_step. simpl. wp_steps. apply Hdone; [done|]. intros va Hva. rewrite Hq3 by done.
    unfold user_view, overlay at 1. by zcases.
Qed.

Lemma vm_build_user_satp_spec s base paddr pages :
  vm_ok s → kernel_space s → 0 ≤ base → 0 ≤ paddr → base mod 4096 = 0 → paddr mod 4096 = 0 →
  0 ≤ pages < 1048576 → base + pages * 4096 ≤ 4294967296 → paddr + pages * 4096 ≤ 4294967296 →
  wp (vm_build_user_satp base paddr pages) (build_post s base paddr pages) s.
Proof.
  intros Hs Hks Hb Hpa Hba Hpaa Hpg Hbe Hpe. unfold vm_build_user_satp.
  wp_step. apply wp_on_pages. eapply wp_mono; [apply wp_run, pg_alloc_spec; [done|lia]|].
  intros root p (Hrun & Hp & Hr). pose proof (alloc_globals s 1 root p Hrun) as Hsg. destruct (Z.eqb_spec root 0) as [->|Hr0].
  { simpl in Hr. destruct Hr as [Hm Hr]. wp_steps. split_and!; try done.
    intros q Hq _. unfold vm_refs, vmem. simpl. rewrite Hm. auto. }
  rewrite decide_False in Hr by done. wp_step. apply wp_upd_vmem. do 3 wp_step. apply wp_upd_vmem.
  destruct (copy_root_spec s p root Hs Hks Hp Hsg Hr) as (Hs2 & Hg2 & Hr2 & Hm & Hok2 & Hn2 & Hq2).
  apply build_tail_spec; assumption.
Qed.
End boot.
