(* ===== verification/VmProps.v ===== *)
(** * The properties of virtual memory

    What the rest of the kernel relies on from [src/mm/vm.c]; the proofs rest
    on [VmSpec] and [VmBoot]. *)

From S2P Require Import Prelude Layout KString PageAlloc PageAllocSpec PageIface PageAllocProps.
From S2P Require Import Vm VmSpec VmBoot.

(** The permission bits of the entry made for [prot]. *)
Lemma user_perm_bits prot :
  0 < prot < 8 →
  let perm := pte_perm_from_flags (user_flags prot) in
  has_bits perm PTE_RWX = true ∧ Z.land perm (Z.lor PTE_RWX PTE_U) = 2 * prot + PTE_U.
Proof.
  intros Hp. assert (Hc : prot ∈ [1; 2; 3; 4; 5; 6; 7]) by (rewrite !elem_of_cons; lia).
  repeat (apply elem_of_cons in Hc as [->|Hc]; [done|]). by apply elem_of_nil in Hc.
Qed.

Section props.
Context {L : Layout} {LOK : LayoutOk} {P : Type} {PO : PageOps P} {POK : PageOpsOk P}.
Implicit Types s : vm_state P.

(** [prot] with at least one right, as [proc_mmap] and the fault handler pass it. *)
Lemma vm_map_user_page_spec s root va pa prot :
  vm_ok s → pt_ok (vm_refs s) (vmem s) root → is_u32 va → va mod 4096 = 0 →
  is_u32 pa → pa mod 4096 = 0 → 0 < prot < 8 →
  wp (vm_map_user_page (vm_make_satp root) va pa prot) (λ r s', grown s root s' ∧
    if decide (r = 0) then ∀ va', is_u32 va' → query_page (vmem s') root va' =
      if (va <=? va') && (va' <? va + 4096) then Some (pa + (va' - va), 2 * prot + PTE_U)
      else query_page (vmem s) root va'
    else r = -1 ∧ vmem s' = vmem s ∧ no_page s) s.
Proof.
  intros Hs Hok Hva Hval Hpa Hpal Hprot. pose proof (pt_root _ _ _ Hok) as [Hm _].
  unfold vm_map_user_page, is_aligned, PAGE_SIZE. rewrite Hval, Hpal. simpl.
  rewrite satp_root by eauto with kernel.
  eapply wp_mono; [by apply vm_map_page_spec|]. intros r s' [Hg Hr]. split; [done|].
  case_decide; [|done]. intros va' Hva'. rewrite Hr by done.
  destruct (user_perm_bits prot Hprot) as [-> ->]. done.
Qed.

(** C2: mapping a user page.  On success the page at [va] translates to [pa]
    with exactly the rights of [prot] and user access, and every other address
    of the space, those of a superpage split on the way included, translates
    as before; it fails only if the allocator has no page left for a table, and
    then no memory is changed.  In both cases the table stays well formed, only its own pages are written, and
    the only pages that gain a reference are new, previously free table pages. *)
Theorem vm_map_user_page_correct s root va pa prot :
  vm_ok s → pt_ok (vm_refs s) (vmem s) root → is_u32 va → va mod 4096 = 0 →
  is_u32 pa → pa mod 4096 = 0 → 0 < prot < 8 →
  wp (vm_map_user_page (vm_make_satp root) va pa prot) (λ r s', grown s root s' ∧
    if decide (r = 0) then ∀ va', is_u32 va' → query_page (vmem s') root va' =
      if (va <=? va') && (va' <? va + 4096) then Some (pa + (va' - va), 2 * prot + PTE_U)
      else query_page (vmem s) root va'
    else r = -1 ∧ vmem s' = vmem s ∧ no_page s) s.
Proof. apply vm_map_user_page_spec. Qed.

(** unmapping a user page leaves it without translation and every other
    address as it was; it refuses exactly a page inside a superpage, and then
    changes nothing.  No table page is freed or added. *)
Theorem vm_unmap_user_page_correct s root va :
  vm_ok s → pt_ok (vm_refs s) (vmem s) root → is_u32 va → va mod 4096 = 0 →
  wp (vm_unmap_user_page (vm_make_satp root) va) (λ r s', grown s root s' ∧
    (∀ q, vm_refs s' q = vm_refs s q) ∧ (∀ t, pt_page (vmem s') root t ↔ pt_page (vmem s) root t) ∧
    if decide (r = 0) then ∀ va', is_u32 va' → query_page (vmem s') root va' =
      if (va <=? va') && (va' <? va + 4096) then None else query_page (vmem s) root va'
    else r = -1 ∧ s' = s ∧ l0_of (vmem s) root (vpn1 va) = None) s.
Proof.
  intros. eapply wp_mono; [by apply vm_unmap_user_page_spec|]. cbv beta.
  intros r s' (Hg & Hr & Hp & _ & Hq). by split_and!.
Qed.

(** [vm_init] returns 0 with an active kernel address space that maps
    exactly the CLINT, the PLIC, the devices and the 64 MiB of memory at their
    own addresses, none of them for user mode, or -1 when the allocator has no
    page for the table. *)
Theorem vm_init_correct s :
  vm_ok s →
  wp vm_init (λ r s', vm_ok s' ∧
    if decide (r = 0) then kernel_space s' ∧ csr_satp s' = kernel_satp_value s' else r = -1 ∧ no_page s) s.
Proof. apply vm_init_spec. Qed.

(** C7: [vm_build_user_satp] returns an address space made of fresh pages in
    which every address translates as in the kernel's map, overlaid with the
    read-only data, text, data and bss segments of user programs at their own
    addresses and with the stack; or 0.  Every page in use before keeps its
    contents and its count, so all other address spaces are untouched. *)
Theorem vm_build_user_satp_correct s base paddr pages :
  vm_ok s → kernel_space s → 0 ≤ base → 0 ≤ paddr → base mod 4096 = 0 → paddr mod 4096 = 0 →
  0 ≤ pages < 1048576 → base + pages * 4096 ≤ 4294967296 → paddr + pages * 4096 ≤ 4294967296 →
  wp (vm_build_user_satp base paddr pages) (λ satp s',
    vm_ok s' ∧ same_globals s s' ∧ kept s s' ∧
    (satp ≠ 0 → ∃ root, satp = vm_make_satp root ∧ vm_refs s root = 0 ∧
      pt_ok (vm_refs s') (vmem s') root ∧ (∀ t, pt_page (vmem s') root t → vm_refs s t = 0) ∧
      ∀ va, is_u32 va → query_page (vmem s') root va = user_view base paddr pages va)) s.
Proof.
  intros. eapply wp_mono; [by apply vm_build_user_satp_spec|].
  intros satp s' (? & ? & ? & Hb). split_and!; try done. intros Hn. by rewrite decide_False in Hb.
Qed.

(** What user mode may reach: virtual range, physical address of its start, rights
    (1 read, 2 write, 4 execute).  The first is the whole of [.rodata], that of the kernel included. *)
Definition user_ranges (base paddr pages : Z) : list (Z * Z * Z * Z) :=
  [ (rodata_start, rodata_end, rodata_start, 1); (user_text_start, user_text_end, user_text_start, 5);
    (user_data_start, user_data_end, user_data_start, 3); (user_bss_start, user_bss_end, user_bss_start, 3);
    (base, base + pages * 4096, paddr, 3) ].

Definition in_user_range (base paddr pages va pa prot : Z) : Prop :=
  ∃ st en ph r, (st, en, ph, r) ∈ user_ranges base paddr pages ∧ st ≤ va < en ∧ pa = ph + (va - st) ∧ prot = 2 * r + PTE_U.

Lemma overlay_user v va pa len perm x y q :
  overlay v va pa len perm x = Some (y, q) → va ≤ x < va + len ∧ y = pa + (x - va) ∧ q = Z.land perm 30 ∨ v x = Some (y, q).
Proof.
  unfold overlay. zcases; try (by right). case_match; [|done]. intros [= <- <-]. left. by split.
Qed.

Lemma user_view_user base paddr pages va pa prot :
  user_view base paddr pages va = Some (pa, prot) → has_bits prot PTE_U = true → in_user_range base paddr pages va pa prot.
Proof.
  unfold user_view. rewrite user_segments_eq. cbn [overlay_segments fold_left]. intros Hv Hu.
  assert (Hin : ∀ st en ph r n, user_ranges base paddr pages !! n = Some (st, en, ph, r) →
    st ≤ va < en ∧ pa = ph + (va - st) ∧ prot = 2 * r + PTE_U → in_user_range base paddr pages va pa prot).
  { intros st en ph r n Hl Hp. exists st, en, ph, r. split; [by eapply list_elem_of_lookup_2|done]. }
  apply overlay_user in Hv as [(Hb & -> & ->)|Hv]; [eapply (Hin _ _ _ _ 4%nat); [done|]; split_and!; (lia || done)|].
  apply overlay_user in Hv as [(Hb & -> & ->)|Hv]; [eapply (Hin _ _ _ _ 3%nat); [done|]; split_and!; (lia || done)|].
  apply overlay_user in Hv as [(Hb & -> & ->)|Hv]; [eapply (Hin _ _ _ _ 2%nat); [done|]; split_and!; (lia || done)|].
  apply overlay_user in Hv as [(Hb & -> & ->)|Hv].
  { eapply (Hin _ _ _ _ 0%nat); [done|]. pose proof lo_user_rodata. pose proof lo_rodata_end. split_and!; (lia || done). }
  apply overlay_user in Hv as [(Hb & -> & ->)|Hv]; [eapply (Hin _ _ _ _ 1%nat); [done|]; split_and!; (lia || done)|].
  apply overlay_user in Hv as [(Hb & -> & ->)|Hv]; [eapply (Hin _ _ _ _ 0%nat); [done|]; split_and!; (lia || done)|].
  exfalso. revert Hv Hu. unfold kernel_map. repeat case_match; (done || (intros [= <- <-]; done)).
Qed.

(** The physical memory behind the ranges: the user part of the image and the stack. *)
Lemma user_range_phys base paddr pages va pa prot : in_user_range base paddr pages va pa prot →
  user_text_start ≤ pa < user_bss_end ∨ paddr ≤ pa < paddr + pages * 4096.
Proof.
  intros (st & en & ph & r & Hin & Hb & -> & _). pose proof lo_text. pose proof lo_rodata. pose proof lo_user_rodata.
  pose proof lo_rodata_end. pose proof lo_data. pose proof lo_bss. unfold user_ranges in Hin.
  repeat (apply elem_of_cons in Hin as [[= -> -> -> ->]|Hin]; [lia|]). by apply elem_of_nil in Hin.
Qed.

(** C8: isolation of a fresh user address space.  Let the stack given to
    [vm_build_user_satp] be a block of pages in use.  In the space it returns, an
    address that user mode can access lies in one of the user ranges (the
    read-only data of kernel and programs, the text, data and bss of programs,
    and the stack), can be accessed only with the rights of that range, and leads
    to the physical memory of that range: its own address, or the page of the
    stack.  No writable range is executable.  So user mode reaches
    no device register, no page of the new page tables and no page of the memory
    the allocator manages but those of the stack. *)
Theorem vm_build_user_satp_isolated s base paddr pages :
  vm_ok s → kernel_space s → 0 ≤ base → base mod 4096 = 0 → paddr mod 4096 = 0 →
  0 ≤ pages < 1048576 → base + pages * 4096 ≤ 4294967296 → free_ram ≤ paddr → paddr + pages * 4096 ≤ free_ram_end →
  (∀ q, managed q → in_block paddr pages q → vm_refs s q ≠ 0) →
  wp (vm_build_user_satp base paddr pages) (λ satp s', satp ≠ 0 → ∃ root, satp = vm_make_satp root ∧
    ∀ va pa prot, is_u32 va → query_page (vmem s') root va = Some (pa, prot) → has_bits prot PTE_U = true →
      in_user_range base paddr pages va pa prot ∧ (has_bits prot PTE_W = true → has_bits prot PTE_X = false) ∧
      2147483648 ≤ pa ∧ (∀ t, pt_page (vmem s') root t → ¬ in_block t 1 pa) ∧
      (∀ q, managed q → in_block q 1 pa → in_block paddr pages q)) s.
Proof.
  intros Hs Hks Hb Hb4 Hp4 Hn Hbe Hlo Hhi Hused. pose proof free_ram_bounds.
  eapply wp_mono; [apply vm_build_user_satp_spec; (done || lia)|].
  intros satp s' (_ & _ & _ & Hbp) Hne. rewrite decide_False in Hbp by done.
  destruct Hbp as (root & -> & _ & Hpt & Htab & Hq). exists root. split; [done|].
  intros va pa prot Hva. rewrite Hq by done. intros Hv Hu. pose proof (user_view_user _ _ _ _ _ _ Hv Hu) as Hr.
  pose proof (user_range_phys _ _ _ _ _ _ Hr) as Hph. pose proof lo_text. pose proof lo_free.
  assert (Hin : ∀ q, managed q → in_block q 1 pa → in_block paddr pages q).
  { intros q [Hq4 Hqb] Hqp. unfold in_block in *. Z.div_mod_to_equations. lia. }
  split_and!; [done| |lia| |done].
  - destruct Hr as (st & en & ph & r & Hin' & _ & _ & ->). unfold user_ranges in Hin'.
    repeat (apply elem_of_cons in Hin' as [[= -> -> -> ->]|Hin']; [done|]). by apply elem_of_nil in Hin'.
  - intros t Ht Hb1. destruct (pt_page_managed _ _ _ _ Hpt Ht) as [Htm _]. by apply (Hused t Htm (Hin t Htm Hb1)), Htab.
Qed.

End props.

(** ** Concrete instances *)

Section demo.
#[local] Existing Instance demo_layout.
#[local] Existing Instance demo_layout_ok.

Definition boot_vm : vm_state alloc_state := VmState (boot_alloc_state ∅) 0 0 0.

Lemma boot_vm_ok : vm_ok boot_vm.
Proof. apply boot_ok. Qed.

(** The state after [vm_init] on an empty machine. *)
Lemma demo_kernel : ∃ s, vm_init boot_vm = Done (0, s) ∧ vm_ok s ∧ kernel_space s.
Proof.
  assert (Hr : match vm_init boot_vm with Done (r, _) => r | _ => 1 end = 0)
    by (vm_compute; reflexivity).
  destruct (wp_elim _ _ _ (vm_init_spec boot_vm boot_vm_ok)) as (r & s & Hrun & Hok & Hpost).
  rewrite Hrun in Hr. subst r. exists s. split; [exact Hrun|]. split; [exact Hok|]. apply Hpost.
Qed.

Lemma demo_kernel_pt s : kernel_space s → pt_ok (vm_refs s) (vmem s) (kernel_root_pt s).
Proof. intros []. by apply super_pt_ok. Qed.

Lemma vm_map_user_page_correct_witness :
  ∃ s : vm_state alloc_state, kernel_space s ∧
    wp (vm_map_user_page (vm_make_satp (kernel_root_pt s)) 2151677952 2151690240 3) (λ r s',
      grown s (kernel_root_pt s) s' ∧
      if decide (r = 0) then ∀ va', is_u32 va' → query_page (vmem s') (kernel_root_pt s) va' =
        if (2151677952 <=? va') && (va' <? 2151677952 + 4096)
        then Some (2151690240 + (va' - 2151677952), 2 * 3 + PTE_U)
        else query_page (vmem s) (kernel_root_pt s) va'
      else r = -1 ∧ vmem s' = vmem s ∧ no_page s) s.
Proof.
  destruct demo_kernel as (s & _ & Hok & Hks). exists s. split; [exact Hks|].
  apply vm_map_user_page_correct; try done. by apply demo_kernel_pt.
Defined.

Lemma vm_unmap_user_page_correct_witness :
  ∃ s : vm_state alloc_state, kernel_space s ∧
    wp (vm_unmap_user_page (vm_make_satp (kernel_root_pt s)) 536870912) (λ r s',
      grown s (kernel_root_pt s) s' ∧
      (∀ q, vm_refs s' q = vm_refs s q) ∧
      (∀ t, pt_page (vmem s') (kernel_root_pt s) t ↔ pt_page (vmem s) (kernel_root_pt s) t) ∧
      if decide (r = 0) then ∀ va', is_u32 va' → query_page (vmem s') (kernel_root_pt s) va' =
        if (536870912 <=? va') && (va' <? 536870912 + 4096) then None
        else query_page (vmem s) (kernel_root_pt s) va'
      else r = -1 ∧ s' = s ∧ l0_of (vmem s) (kernel_root_pt s) (vpn1 536870912) = None) s.
Proof.
  destruct demo_kernel as (s & _ & Hok & Hks). exists s. split; [exact Hks|].
  apply vm_unmap_user_page_correct; try done. by apply demo_kernel_pt.
Defined.

Lemma vm_init_correct_witness :
  wp vm_init (λ r s', vm_ok s' ∧ if decide (r = 0)
    then kernel_space s' ∧ csr_satp s' = kernel_satp_value s' else r = -1 ∧ no_page boot_vm) boot_vm.
Proof. apply vm_init_correct, boot_vm_ok. Defined.

Lemma vm_build_user_satp_correct_witness :
  ∃ s : vm_state alloc_state, kernel_space s ∧
    wp (vm_build_user_satp 1073741824 2151677952 4) (λ satp s',
      vm_ok s' ∧ same_globals s s' ∧ kept s s' ∧
      (satp ≠ 0 → ∃ root, satp = vm_make_satp root ∧ vm_refs s root = 0 ∧
        pt_ok (vm_refs s') (vmem s') root ∧ (∀ t, pt_page (vmem s') root t → vm_refs s t = 0) ∧
        ∀ va, is_u32 va → query_page (vmem s') root va = user_view 1073741824 2151677952 4 va)) s.
Proof.
  destruct demo_kernel as (s & _ & Hok & Hks). exists s. split; [exact Hks|].
  apply vm_build_user_satp_correct; try done; lia.
Defined.

(** ... with four pages taken for a stack. *)
Lemma demo_stack : ∃ (s : vm_state alloc_state) paddr, vm_ok s ∧ kernel_space s ∧ paddr mod 4096 = 0 ∧ free_ram ≤ paddr ∧
  paddr + 4 * 4096 ≤ free_ram_end ∧ ∀ q, managed q → in_block paddr 4 q → vm_refs s q ≠ 0.
Proof.
  destruct demo_kernel as (s & Hrun & Hok & Hks).
  destruct (wp_elim _ _ _ (pg_alloc_spec (vm_pages s) 4 Hok ltac:(lia))) as (r & p & Ha & Hp & Hr).
  assert (Hr0 : r ≠ 0).
  { assert (E : match vm_init boot_vm with Done (_, s) => match pg_alloc 4 (vm_pages s) with Done (r, _) => negb (r =? 0) | _ => false end | _ => false end = true)
      by (vm_compute; reflexivity).
    rewrite Hrun, Ha in E. by apply negb_true_iff, Z.eqb_neq in E. }
  rewrite decide_False in Hr by done. destruct Hr as [H4 [Hlo Hhi] Hf Ho _ Hfr].
  exists (set_vm_pages p s), r. split; [exact Hp|]. split.
  - apply (kernel_space_kept s); [|by eapply alloc_globals|done]. intros q Hm Hq. split.
    + apply Ho; [done|]. intros Hb. by destruct (Hf q Hm Hb).
    + intros x Hx. apply Hfr. intros Hb. apply Hq, (Hf q Hm). destruct Hm as [Hq4 _]. unfold in_block in *. Z.div_mod_to_equations. lia.
  - split_and!; try done. intros q Hm Hb. destruct (Hf q Hm Hb) as [_ E]. intros Hz. change (pg_refs p q = 0) in Hz. lia.
Qed.

Lemma vm_build_user_satp_isolated_witness :
  ∃ (s : vm_state alloc_state) paddr, kernel_space s ∧
    wp (vm_build_user_satp 1073725440 paddr 4) (λ satp s', satp ≠ 0 → ∃ root, satp = vm_make_satp root ∧
      ∀ va pa prot, is_u32 va → query_page (vmem s') root va = Some (pa, prot) → has_bits prot PTE_U = true →
        in_user_range 1073725440 paddr 4 va pa prot ∧ (has_bits prot PTE_W = true → has_bits prot PTE_X = false) ∧
        2147483648 ≤ pa ∧ (∀ t, pt_page (vmem s') root t → ¬ in_block t 1 pa) ∧
        (∀ q, managed q → in_block q 1 pa → in_block paddr 4 q)) s.
Proof.
  destruct demo_stack as (s & paddr & Hok & Hks & H4 & Hlo & Hhi & Hused). exists s, paddr. split; [exact Hks|].
  apply vm_build_user_satp_isolated; [exact Hok|exact Hks|lia|reflexivity|exact H4|lia|lia|exact Hlo|exact Hhi|exact Hused].
Defined.
End demo.
