(* ===== verification/Proc.v ===== *)
(** * Processes: the data of [kernel/include/kernel/proc.h] and
    [arch/riscv32/include/arch/trap.h] *)

From S2P Require Import Prelude.

Definition PROC_MAX : Z := 8.
Definition FD_MAX : Z := 16.
Definition PROC_VMA_MAX : Z := 16.

Inductive proc_state := PROC_UNUSED | PROC_RUNNABLE | PROC_BLOCKED | PROC_ZOMBIE.
#[export] Instance proc_state_eq_dec : EqDecision proc_state.
Proof. solve_decision. Defined.

(** [struct file_desc] *)
Record file_desc := FileDesc { fd_used : bool; fd_inode : Z; fd_offset : Z; fd_flags : Z }.
(** [struct user_vma] *)
Record user_vma := UserVma { vma_used : bool; vma_start : Z; vma_end : Z; vma_prot : Z }.
#[export] Instance user_vma_eq_dec : EqDecision user_vma.
Proof. solve_decision. Defined.
#[export] Instance file_desc_eq_dec : EqDecision file_desc.
Proof. solve_decision. Defined.

(** [struct trap_frame]: the saved registers, the numbered ones as lists. *)
Record trap_frame := TrapFrame {
  tf_ra : Z; tf_gp : Z; tf_tp : Z;
  tf_t : list Z;   (* t0 - t6 *)
  tf_a : list Z;   (* a0 - a7 *)
  tf_s : list Z;   (* s0 - s11 *)
  tf_sp : Z; tf_sepc : Z; tf_sstatus : Z;
}.

(** [struct process].  Of the kernel stack, [switch_frame] keeps the sixteen
    words at [sp] that [switch_context] restores, and [sp] is the offset of
    that frame in [stack]. *)
Record process := Process {
  pid : Z;
  state : proc_state;
  priority : Z;
  budget : Z;
  parent_pid : Z;
  exit_status : Z;
  is_user : bool;
  sp : Z;
  user_stack_base : Z;
  user_stack_paddr : Z;
  user_stack_pages : Z;
  switch_frame : list Z;
  has_trap_frame : bool;
  sepc : Z;
  satp : Z;
  frame : trap_frame;
  vmas : list user_vma;
  fds : list file_desc;
}.

(** [memset(..., 0, ...)] on each of them. *)
Definition zero_vma : user_vma := UserVma false 0 0 0.
Definition zero_fd : file_desc := FileDesc false 0 0 0.
Definition zero_frame : trap_frame :=
  TrapFrame 0 0 0 (replicate 7 0) (replicate 8 0) (replicate 12 0) 0 0 0.
Definition zero_process : process :=
  Process 0 PROC_UNUSED 0 0 0 0 false 0 0 0 0 (replicate 16 0) false 0 0 zero_frame
    (replicate 16 zero_vma) (replicate 16 zero_fd).

Definition set_state v p := Process (pid p) v (priority p) (budget p) (parent_pid p) (exit_status p)
  (is_user p) (sp p) (user_stack_base p) (user_stack_paddr p) (user_stack_pages p) (switch_frame p)
  (has_trap_frame p) (sepc p) (satp p) (frame p) (vmas p) (fds p).
Definition set_budget v p := Process (pid p) (state p) (priority p) v (parent_pid p) (exit_status p)
  (is_user p) (sp p) (user_stack_base p) (user_stack_paddr p) (user_stack_pages p) (switch_frame p)
  (has_trap_frame p) (sepc p) (satp p) (frame p) (vmas p) (fds p).
Definition set_priority v p := Process (pid p) (state p) v (budget p) (parent_pid p) (exit_status p)
  (is_user p) (sp p) (user_stack_base p) (user_stack_paddr p) (user_stack_pages p) (switch_frame p)
  (has_trap_frame p) (sepc p) (satp p) (frame p) (vmas p) (fds p).
Definition set_exit_status v p := Process (pid p) (state p) (priority p) (budget p) (parent_pid p) v
  (is_user p) (sp p) (user_stack_base p) (user_stack_paddr p) (user_stack_pages p) (switch_frame p)
  (has_trap_frame p) (sepc p) (satp p) (frame p) (vmas p) (fds p).
Definition set_user_stack base paddr npages p := Process (pid p) (state p) (priority p) (budget p)
  (parent_pid p) (exit_status p) (is_user p) (sp p) base paddr npages (switch_frame p)
  (has_trap_frame p) (sepc p) (satp p) (frame p) (vmas p) (fds p).
Definition set_satp v p := Process (pid p) (state p) (priority p) (budget p) (parent_pid p)
  (exit_status p) (is_user p) (sp p) (user_stack_base p) (user_stack_paddr p) (user_stack_pages p)
  (switch_frame p) (has_trap_frame p) (sepc p) v (frame p) (vmas p) (fds p).
Definition set_switch v fr p := Process (pid p) (state p) (priority p) (budget p) (parent_pid p)
  (exit_status p) (is_user p) v (user_stack_base p) (user_stack_paddr p) (user_stack_pages p)
  fr (has_trap_frame p) (sepc p) (satp p) (frame p) (vmas p) (fds p).
Definition set_context fr ep p := Process (pid p) (state p) (priority p) (budget p) (parent_pid p)
  (exit_status p) (is_user p) (sp p) (user_stack_base p) (user_stack_paddr p) (user_stack_pages p)
  (switch_frame p) true ep (satp p) fr (vmas p) (fds p).
Definition set_vmas v p := Process (pid p) (state p) (priority p) (budget p) (parent_pid p)
  (exit_status p) (is_user p) (sp p) (user_stack_base p) (user_stack_paddr p) (user_stack_pages p)
  (switch_frame p) (has_trap_frame p) (sepc p) (satp p) (frame p) v (fds p).
Definition set_fds v p := Process (pid p) (state p) (priority p) (budget p) (parent_pid p)
  (exit_status p) (is_user p) (sp p) (user_stack_base p) (user_stack_paddr p) (user_stack_pages p)
  (switch_frame p) (has_trap_frame p) (sepc p) (satp p) (frame p) (vmas p) v.
