(* ===== verification/ProcessVm.v ===== *)
(** * The address space of a process, [src/mm/process_vm.c]

    The table of memory areas of a process is its list [vmas]; the functions
    that walk page tables run over [vm_state]. *)

From S2P Require Import Prelude Layout KString PageAlloc PageAllocSpec PageIface Vm Proc.

Definition USER_MMAP_BASE : Z := 536870912.
Definition USER_MMAP_END : Z := 1056964608.
Definition PTE_W_BIT : Z := 4.
Definition MAP_FIXED : Z := 4.

(** ** The table of areas *)

Definition proc_find_free_vma_slot (l : list user_vma) : option nat :=
  find_index (λ v, negb (vma_used v)) l.

(** [None] where the function returns -1; the table is then unchanged. *)
Definition proc_add_vma (l : list user_vma) (start end_ prot : Z) : option (list user_vma) :=
  if end_ <=? start then None
  else if negb (is_aligned start PAGE_SIZE) || negb (is_aligned end_ PAGE_SIZE) then None
  else if existsb (λ v, vma_used v && negb ((end_ <=? vma_start v) || (vma_end v <=? start))) l
  then None
  else match proc_find_free_vma_slot l with
       | Some i => Some (<[i := UserVma true start end_ prot]> l)
       | None => None
       end.

Definition proc_find_vma_index (l : list user_vma) (addr : Z) : option nat :=
  find_index (λ v, vma_used v && (vma_start v <=? addr) && (addr <? vma_end v)) l.

(** The loop of [proc_vma_range_ok] at [cur].  Each round leaves one more area
    behind, so the length of the table bounds it. *)
Fixpoint range_ok_loop (fuel : nat) (l : list user_vma) (cur end_ need : Z) : option bool :=
  if cur <? end_ then
    match fuel with
    | O => None
    | S fuel' =>
        match proc_find_vma_index l cur with
        | None => Some false
        | Some i =>
            match l !! i with
            | None => Some false
            | Some v =>
                if negb (Z.land (vma_prot v) need =? need) then Some false
                else if end_ <=? vma_end v then Some true
                else range_ok_loop fuel' l (vma_end v) end_ need
            end
        end
    end
  else Some true.

Definition proc_vma_range_ok (p : process) (addr len prot_need : Z) : option bool :=
  if negb (is_user p) then Some false
  else if len =? 0 then Some false
  else
    let end_ := add32 addr len in
    if end_ <? addr then Some false
    else range_ok_loop (S (length (vmas p))) (vmas p) addr end_ prot_need.

(** [current_proc] may be NULL: then, and in a kernel process, every address
    is accepted. *)
Definition proc_user_writable_ok (cur : option process) (addr len : Z) : option bool :=
  match cur with
  | None => Some true
  | Some p => if negb (is_user p) then Some true else proc_vma_range_ok p addr len VMA_PROT_W
  end.
Definition proc_user_readable_ok (cur : option process) (addr len : Z) : option bool :=
  match cur with
  | None => Some true
  | Some p => if negb (is_user p) then Some true else proc_vma_range_ok p addr len VMA_PROT_R
  end.

(** User memory is a reader of bytes at virtual addresses. *)
Fixpoint cstr_ok_loop (k : nat) (p : process) (ld : Z → Z) (addr i : Z) : option bool :=
  match k with
  | O => Some false
  | S k' =>
      match proc_vma_range_ok p (add32 addr i) 1 VMA_PROT_R with
      | Some true => if ld (add32 addr i) =? 0 then Some true else cstr_ok_loop k' p ld addr (i + 1)
      | r => r
      end
  end.
Definition proc_user_cstr_ok (cur : option process) (ld : Z → Z) (addr max_len : Z) : option bool :=
  match cur with
  | None => Some true
  | Some p =>
      if negb (is_user p) then Some true
      else if max_len =? 0 then Some false
      else match proc_vma_range_ok p addr 1 VMA_PROT_R with
           | Some true => cstr_ok_loop (Z.to_nat max_len) p ld addr 0
           | r => r
           end
  end.

(** [Some (Some argc)] where the function returns 0, [Some None] where it
    returns -1. *)
Fixpoint argv_ok_loop (k : nat) (p : process) (ld : Z → Z) (ld32 : Z → Z) (argv_ptr i : Z)
  : option (option Z) :=
  match k with
  | O => Some None
  | S k' =>
      let slot := add32 argv_ptr (mul32 i 4) in
      match proc_vma_range_ok p slot 4 VMA_PROT_R with
      | Some true =>
          let argp := ld32 slot in
          if argp =? 0 then Some (Some i)
          else match proc_user_cstr_ok (Some p) ld argp 128 with
               | Some true => argv_ok_loop k' p ld ld32 argv_ptr (i + 1)
               | Some false => Some None
               | None => None
               end
      | Some false => Some None
      | None => None
      end
  end.
Definition proc_user_exec_argv_ok (cur : option process) (ld ld32 : Z → Z) (argv_ptr : Z)
  : option (option Z) :=
  match cur with
  | None => Some None
  | Some p =>
      if negb (is_user p) then Some None
      else if argv_ptr =? 0 then Some (Some 0)
      else argv_ok_loop 32 p ld ld32 argv_ptr 0
  end.

(** [proc_vm_init]: the fixed areas and the stack, [None] where it returns -1. *)
Definition add_vma_if (l : option (list user_vma)) (start end_ prot : Z) : option (list user_vma) :=
  match l with
  | None => None
  | Some l => if start <? end_ then proc_add_vma l start end_ prot else Some l
  end.
Definition proc_vm_init `{Layout} (p : process) : option process :=
  let st0 := user_stack_base p in
  let st1 := add32 (user_stack_base p) (mul32 (user_stack_pages p) PAGE_SIZE) in
  let l := Some (replicate 16 zero_vma) in
  let l := add_vma_if l (page_floor user_text_start) (page_ceil user_text_end) (Z.lor VMA_PROT_R VMA_PROT_X) in
  let l := add_vma_if l (page_floor user_rodata_start) (page_ceil user_rodata_end) VMA_PROT_R in
  let l := add_vma_if l (page_floor user_data_start) (page_ceil user_data_end) (Z.lor VMA_PROT_R VMA_PROT_W) in
  let l := add_vma_if l (page_floor user_bss_start) (page_ceil user_bss_end) (Z.lor VMA_PROT_R VMA_PROT_W) in
  let l := add_vma_if l st0 st1 (Z.lor VMA_PROT_R VMA_PROT_W) in
  (λ l, set_vmas l p) <$> l.

(** The loop of [proc_find_free_mmap_range]; the address moves past one more
    area each time.  [Some None] where the function returns -1. *)
Fixpoint find_free_range_loop (fuel : nat) (l : list user_vma) (addr len : Z) : option (option Z) :=
  if (addr <=? add32 addr len) && (add32 addr len <=? USER_MMAP_END) then
    match fuel with
    | O => None
    | S fuel' =>
        match find (λ v, vma_used v && (addr <? vma_end v) && (vma_start v <? add32 addr len)) l with
        | Some v => find_free_range_loop fuel' l (page_ceil (vma_end v)) len
        | None => Some (Some addr)
        end
    end
  else Some None.
Definition proc_find_free_mmap_range (l : list user_vma) (len : Z) : option (option Z) :=
  find_free_range_loop (S (length l)) l USER_MMAP_BASE len.

Definition proc_range_overlaps_any_vma (l : list user_vma) (start end_ : Z) : bool :=
  existsb (λ v, vma_used v && (start <? vma_end v) && (vma_start v <? end_)) l.

(** ** Operations on page tables *)

Definition prot_to_query_bits (prot : Z) : Z :=
  let bits := 0 in
  let bits := if has_bits prot VMA_PROT_R then Z.lor bits 2 else bits in
  let bits := if has_bits prot VMA_PROT_W then Z.lor bits 4 else bits in
  if has_bits prot VMA_PROT_X then Z.lor bits 8 else bits.

(** One iteration of the loop of [proc_munmap] over the areas, at index [i]:
    the range [addr, end) is cut out of the area.  [None] where the function
    returns -1; otherwise the table and whether the area was changed. *)
Definition cut_vma (l : list user_vma) (i : nat) (addr end_ : Z) : option (list user_vma * bool) :=
  match l !! i with
  | None => Some (l, false)
  | Some v =>
      if negb (vma_used v) then Some (l, false)
      else
        let vs := vma_start v in
        let ve := vma_end v in
        if (ve <=? addr) || (end_ <=? vs) then Some (l, false)
        else
          let cut_s := if vs <? addr then addr else vs in
          let cut_e := if end_ <? ve then end_ else ve in
          if cut_e <=? cut_s then Some (l, false)
          else if (cut_s =? vs) && (cut_e =? ve) then Some (<[i := zero_vma]> l, true)
          else if cut_s =? vs then Some (<[i := UserVma true cut_e ve (vma_prot v)]> l, true)
          else if cut_e =? ve then Some (<[i := UserVma true vs cut_s (vma_prot v)]> l, true)
          else
            match proc_find_free_vma_slot l with
            | None => None
            | Some j =>
                Some (<[i := UserVma true vs cut_s (vma_prot v)]>
                        (<[j := UserVma true cut_e ve (vma_prot v)]> l), true)
            end
  end.
(** The table when the function returns -1 half way is kept too: it is the
    one the process is left with. *)
Fixpoint munmap_vmas (k : nat) (i : nat) (l : list user_vma) (addr end_ : Z) (changed : bool)
  : list user_vma * option bool :=
  match k with
  | O => (l, Some changed)
  | S k' =>
      match cut_vma l i addr end_ with
      | None => (l, None)
      | Some (l', c) => munmap_vmas k' (S i) l' addr end_ (changed || c)
      end
  end.

Section ops.
Context {L : Layout} {P : Type} {PO : PageOps P}.
Abbreviation VM := (km (vm_state P)).

(** The body shared by the loops that give pages back:
    [if (vm_query_user_page(satp, va, &pa, NULL) <= 0) continue;
     if (vm_unmap_user_page(satp, va) == 0) free_pages(pa, 1);] *)
Definition release_page (satp_value va : Z) : VM unit :=
  let! q := vm_query_user_page satp_value va in
  match q with
  | None => kret tt
  | Some (pa, _) =>
      let! rc := vm_unmap_user_page satp_value va in
      if rc =? 0 then on_pages (pg_free pa 1) else kret tt
  end.

(** [for (va = vs; va < ve; va += PAGE_SIZE)] *)
Fixpoint release_range (fuel : nat) (satp_value va ve : Z) : VM unit :=
  if va <? ve then
    match fuel with
    | O => knofuel
    | S fuel' => do! release_page satp_value va in release_range fuel' satp_value (add32 va PAGE_SIZE) ve
    end
  else kret tt.
Definition range_fuel (vs ve : Z) : nat := Z.to_nat ((ve - vs) / PAGE_SIZE + 1).

Fixpoint release_vmas (satp_value : Z) (l : list user_vma) : VM unit :=
  match l with
  | [] => kret tt
  | v :: l' =>
      do! (if negb (vma_used v) then kret tt
           else if (vma_start v <? USER_MMAP_BASE) || (USER_MMAP_END <? vma_end v) then kret tt
           else release_range (range_fuel (vma_start v) (vma_end v)) satp_value (vma_start v) (vma_end v)) in
      release_vmas satp_value l'
  end.

(** [for (i = 0; i < proc->user_stack_pages; i++)] *)
Fixpoint release_stack (k : nat) (i satp_value base : Z) : VM unit :=
  match k with
  | O => kret tt
  | S k' =>
      do! release_page satp_value (add32 base (mul32 i PAGE_SIZE)) in
      release_stack k' (i + 1) satp_value base
  end.

Definition proc_vm_release (p : process) : VM unit :=
  if negb (is_user p) then kret tt
  else
    do! release_vmas (satp p) (vmas p) in
    if satp p =? 0 then
      if negb (user_stack_paddr p =? 0) && (0 <? user_stack_pages p)
      then on_pages (pg_free (user_stack_paddr p) (user_stack_pages p)) else kret tt
    else release_stack (Z.to_nat (user_stack_pages p)) 0 (satp p) (user_stack_base p).

(** One page of [proc_vm_clone]; [true] where it returns -1. *)
Definition clone_page (parent child cow_prot va : Z) : VM bool :=
  let! q := vm_query_user_page parent va in
  match q with
  | None => kret false
  | Some (parent_pa, _) =>
      let! old := vm_query_user_page child va in
      let! rc := vm_map_user_page parent va parent_pa cow_prot in
      if rc <? 0 then kret true
      else
        do! on_pages (pg_inc parent_pa) in
        let! rc := vm_map_user_page child va parent_pa cow_prot in
        if rc <? 0 then do! on_pages (pg_dec parent_pa) in kret true
        else
          match old with
          | Some (old_child_pa, _) =>
              if negb (old_child_pa =? parent_pa)
              then do! on_pages (pg_free old_child_pa 1) in kret false
              else kret false
          | None => kret false
          end
  end.
Fixpoint clone_range (fuel : nat) (parent child cow_prot va ve : Z) : VM bool :=
  if va <? ve then
    match fuel with
    | O => knofuel
    | S fuel' =>
        let! failed := clone_page parent child cow_prot va in
        if failed : bool then kret true
        else clone_range fuel' parent child cow_prot (add32 va PAGE_SIZE) ve
    end
  else kret false.
Fixpoint clone_vmas (parent child : Z) (l : list user_vma) : VM Z :=
  match l with
  | [] => kret 0
  | v :: l' =>
      if negb (vma_used v) || negb (has_bits (vma_prot v) VMA_PROT_W) then clone_vmas parent child l'
      else
        let cow_prot := Z.land (vma_prot v) (not32 VMA_PROT_W) in
        let! failed := clone_range (range_fuel (vma_start v) (vma_end v)) parent child cow_prot
                         (vma_start v) (vma_end v) in
        if failed : bool then kret (-1) else clone_vmas parent child l'
  end.
Definition proc_vm_clone (parent child : process) : VM Z :=
  clone_vmas (satp parent) (satp child) (vmas parent).

(** Areas inside the mmap window lose their pages and their entry. *)
Fixpoint reset_vmas (satp_value : Z) (l : list user_vma) : VM (list user_vma) :=
  match l with
  | [] => kret []
  | v :: l' =>
      if negb (vma_used v) then let! r := reset_vmas satp_value l' in kret (v :: r)
      else if (USER_MMAP_BASE <=? vma_start v) && (vma_end v <=? USER_MMAP_END) then
        do! release_range (range_fuel (vma_start v) (vma_end v)) satp_value (vma_start v) (vma_end v) in
        let! r := reset_vmas satp_value l' in kret (zero_vma :: r)
      else let! r := reset_vmas satp_value l' in kret (v :: r)
  end.
Definition proc_vm_reset (p : process) : VM process :=
  let! l := reset_vmas (satp p) (vmas p) in kret (set_vmas l p).

Definition proc_try_cow_fault (satp_value va : Z) (v : user_vma) : VM Z :=
  if negb (has_bits (vma_prot v) VMA_PROT_W) then kret (-1)
  else
    let! q := vm_query_user_page satp_value va in
    match q with
    | None => kret (-1)
    | Some (old_pa, mapped) =>
        if has_bits mapped PTE_W_BIT then kret (-1)
        else
          let! new_pa := on_pages (pg_alloc 1) in
          if new_pa =? 0 then kret (-1)
          else
            do! upd_vmem (λ m, memcpy m new_pa old_pa PAGE_SIZE) in
            let! rc := vm_map_user_page satp_value va new_pa (vma_prot v) in
            if rc <? 0 then do! on_pages (pg_free new_pa 1) in kret (-1)
            else do! on_pages (pg_dec old_pa) in kret 0
    end.

(** [current_proc] after the call is returned beside the result. *)
Definition proc_munmap (p : process) (addr len : Z) : VM (Z * process) :=
  if negb (is_user p) then kret (-1, p)
  else if negb (is_aligned addr PAGE_SIZE) then kret (-1, p)
  else if len =? 0 then kret (-1, p)
  else
    let len := page_ceil len in
    let end_ := add32 addr len in
    if end_ <? addr then kret (-1, p)
    else if (addr <? USER_MMAP_BASE) || (USER_MMAP_END <? end_) then kret (-1, p)
    else
      match munmap_vmas (length (vmas p)) 0 (vmas p) addr end_ false with
      | (l, None) => kret (-1, set_vmas l p)
      | (l, Some changed) =>
          if negb changed then kret (0, set_vmas l p)
          else
            do! release_range (range_fuel addr end_) (satp p) addr end_ in
            kret (0, set_vmas l p)
      end.

(** The address of a new mapping without [MAP_FIXED]. *)
Definition mmap_pick (l : list user_vma) (addr_hint len : Z) : option (option Z) :=
  let hint_end := add32 addr_hint len in
  if negb (addr_hint =? 0) && is_aligned addr_hint PAGE_SIZE && (USER_MMAP_BASE <=? addr_hint)
     && (hint_end <=? USER_MMAP_END) && (addr_hint <=? hint_end)
     && negb (proc_range_overlaps_any_vma l addr_hint hint_end)
  then Some (Some addr_hint)
  else proc_find_free_mmap_range l len.

Definition mmap_add (p : process) (addr len prot : Z) : Z * process :=
  match proc_add_vma (vmas p) addr (add32 addr len) prot with
  | None => (-1, p)
  | Some l => (to_int addr, set_vmas l p)
  end.

Definition proc_mmap (p : process) (addr_hint len prot flags : Z) : VM (Z * process) :=
  if negb (is_user p) then kret (-1, p)
  else if len =? 0 then kret (-1, p)
  else if negb (Z.land prot (not32 (Z.lor (Z.lor VMA_PROT_R VMA_PROT_W) VMA_PROT_X)) =? 0) || (prot =? 0)
  then kret (-1, p)
  else
    let len := page_ceil len in
    if has_bits flags MAP_FIXED then
      if negb (is_aligned addr_hint PAGE_SIZE) then kret (-1, p)
      else
        let addr := addr_hint in
        if (addr <? USER_MMAP_BASE) || (USER_MMAP_END <? add32 addr len) || (add32 addr len <? addr)
        then kret (-1, p)
        else
          let! r := proc_munmap p addr len in
          let '(rc, p') := r in
          if rc <? 0 then kret (-1, p') else kret (mmap_add p' addr len prot)
    else
      match mmap_pick (vmas p) addr_hint len with
      | None => knofuel
      | Some None => kret (-1, p)
      | Some (Some addr) => kret (mmap_add p addr len prot)
      end.

Definition proc_handle_user_page_fault (p : process) (fault_addr access : Z) : VM Z :=
  if negb (is_user p) then kret (-1)
  else if negb (access =? VMA_PROT_X) && negb (access =? VMA_PROT_R) && negb (access =? VMA_PROT_W)
  then kret (-1)
  else
    let need := access in
    let va := page_floor fault_addr in
    match proc_find_vma_index (vmas p) va with
    | None => kret (-1)
    | Some i =>
        match vmas p !! i with
        | None => kret (-1)
        | Some v =>
            if negb (Z.land (vma_prot v) need =? need) then kret (-1)
            else
              let! q := vm_query_user_page (satp p) va in
              match q with
              | Some (_, mapped_prot) =>
                  let need_bits := prot_to_query_bits need in
                  if Z.land mapped_prot need_bits =? need_bits then kret 0
                  else if access =? VMA_PROT_W then
                    let! rc := proc_try_cow_fault (satp p) va v in
                    if rc =? 0 then kret 0 else kret (-1)
                  else kret (-1)
              | None =>
                  let! pa := on_pages (pg_alloc 1) in
                  if pa =? 0 then kret (-1)
                  else
                    let! rc := vm_map_user_page (satp p) va pa (vma_prot v) in
                    if rc <? 0 then do! on_pages (pg_free pa 1) in kret (-1)
                    else kret 0
              end
        end
    end.
End ops.
