(* ===== verification/ProcessVmSpec.v ===== *)
(** * The areas of a process

    [area l a p] is the abstract view of a table of areas: address [a] belongs
    to the process with rights [p].  Under [vmas_ok] it is a partial function;
    every operation on the table is specified by what it does to it. *)

From S2P Require Import Prelude Layout KString PageAlloc PageAllocSpec PageIface.
From S2P Require Import Vm VmSpec VmBoot VmProps Proc ProcessVm.

Definition area_in (v : user_vma) (a p : Z) : Prop :=
  vma_used v = true ∧ vma_start v ≤ a < vma_end v ∧ vma_prot v = p.
Definition area (l : list user_vma) (a p : Z) : Prop := ∃ i v, l !! i = Some v ∧ area_in v a p.

(** A used entry is a non-empty range of whole pages with some rights. *)
Definition vma_wf (v : user_vma) : Prop :=
  vma_used v = true → 0 ≤ vma_start v < vma_end v ∧ vma_end v < 4294967296 ∧
    vma_start v mod 4096 = 0 ∧ vma_end v mod 4096 = 0 ∧ 0 < vma_prot v < 8.

Record vmas_ok (l : list user_vma) : Prop := {
  vo_len : length l = 16%nat;
  vo_wf : ∀ i v, l !! i = Some v → vma_wf v;
  vo_disjoint : ∀ i j v w a p q, l !! i = Some v → l !! j = Some w → area_in v a p → area_in w a q → i = j;
}.

Lemma area_functional l a p q : vmas_ok l → area l a p → area l a q → p = q.
Proof.
  intros Hok (i & v & Hi & Hv) (j & w & Hj & Hw).
  assert (i = j) as -> by (eapply (vo_disjoint _ Hok i j v w); eauto).
  rewrite Hi in Hj. injection Hj as ->. destruct Hv as (_ & _ & <-), Hw as (_ & _ & <-). done.
Qed.

(** ** Searching *)
Lemma contains_spec v a :
  vma_used v && (vma_start v <=? a) && (a <? vma_end v) = true ↔ area_in v a (vma_prot v).
Proof. unfold area_in. rewrite !andb_true_iff, Z.leb_le, Z.ltb_lt. tauto. Qed.

Lemma find_vma_Some l a i : proc_find_vma_index l a = Some i → ∃ v, l !! i = Some v ∧ area_in v a (vma_prot v).
Proof. intros (v & Hl & Hv & _)%find_index_Some. exists v. split; [done|]. by apply contains_spec. Qed.

Lemma find_vma_None l a p : proc_find_vma_index l a = None → ¬ area l a p.
Proof.
  intros Hn (i & v & Hl & Hv). pose proof (find_index_None _ _ _ _ Hn Hl) as Hf.
  destruct Hv as (Hu & Hb & Hp). apply not_true_iff_false in Hf. apply Hf. apply contains_spec.
  by split.
Qed.

(** ** Access checks *)

(** Entries that end beyond [cur]: what the loop has still to leave behind. *)
Definition beyond (l : list user_vma) (cur : Z) : nat := length (filter (λ v, cur < vma_end v) l).

Lemma beyond_lt l cur cur' i v :
  l !! i = Some v → cur < vma_end v → cur' = vma_end v → (beyond l cur' < beyond l cur)%nat.
Proof.
  revert i. unfold beyond. induction l as [|w l IH]; intros i; simpl; [done|].
  intros Hl Hc ->. assert (Hmono : ∀ l : list user_vma,
    (length (filter (λ u, (vma_end v < vma_end u)%Z) l) ≤ length (filter (λ u, (cur < vma_end u)%Z) l))%nat).
  { intros l'. induction l' as [|u l' IH']; [done|]. rewrite !filter_cons.
    destruct (decide (vma_end v < vma_end u)), (decide (cur < vma_end u)); simpl; lia. }
  rewrite !filter_cons. destruct i as [|i]; simpl in Hl.
  - injection Hl as ->. rewrite decide_False, decide_True by lia. simpl. specialize (Hmono l). lia.
  - specialize (IH i Hl Hc eq_refl).
    destruct (decide (vma_end v < vma_end w)), (decide (cur < vma_end w)); simpl; lia.
Qed.

(** Every address of [cur, end_) is in an area that grants [need]. *)
Definition granted (l : list user_vma) (cur end_ need : Z) : Prop :=
  ∀ a, cur ≤ a < end_ → ∃ p, area l a p ∧ Z.land p need = need.

Lemma range_ok_loop_spec l end_ need : ∀ fuel cur,
  vmas_ok l → (beyond l cur < fuel)%nat →
  ∃ b, range_ok_loop fuel l cur end_ need = Some b ∧ (b = true ↔ granted l cur end_ need).
Proof.
  intros fuel. induction fuel as [|fuel IH]; intros cur Hok Hf; [lia|]. simpl.
  destruct (Z.ltb_spec cur end_) as [Hlt|Hge].
  2: { exists true. split; [done|]. split; [|done]. intros _ a Ha. lia. }
  destruct (proc_find_vma_index l cur) as [i|] eqn:Hi.
  2: { exists false. split; [done|]. split; [done|]. intros Hg.
       destruct (Hg cur) as (p & Hp & _); [lia|]. by apply find_vma_None with (p := p) in Hi. }
  destruct (find_vma_Some _ _ _ Hi) as (v & Hl & Hv). rewrite Hl.
  assert (Hin : ∀ a p, vma_start v ≤ a < vma_end v → area l a p → p = vma_prot v).
  { intros a p Ha Hp. apply (area_functional l a); try done. exists i, v.
    destruct Hv as (Hu & _ & _). done. }
  pose proof Hv as (Hu & Hb & _).
  destruct (Z.eqb_spec (Z.land (vma_prot v) need) need) as [Hn|Hn]; simpl.
  2: { exists false. split; [done|]. split; [done|]. intros Hg.
       destruct (Hg cur) as (p & Hp & Hpn); [lia|]. by rewrite (Hin cur p Hb Hp) in Hpn. }
  assert (Hseg : ∀ a, cur ≤ a < vma_end v → ∃ p, area l a p ∧ Z.land p need = need).
  { intros a Ha. exists (vma_prot v). split; [|done]. exists i, v. split; [done|]. split_and!; try done; lia. }
  destruct (Z.leb_spec end_ (vma_end v)).
  { exists true. split; [done|]. split; [|done]. intros _ a Ha. apply Hseg. lia. }
  destruct (IH (vma_end v) Hok) as (b & Hrun & Hb').
  { pose proof (beyond_lt l cur (vma_end v) i v Hl). lia. }
  exists b. split; [done|]. rewrite Hb'. split.
  - intros Hg a Ha. destruct (Z.lt_ge_cases a (vma_end v)); [apply Hseg; lia|apply Hg; lia].
  - intros Hg a Ha. apply Hg. lia.
Qed.

Lemma beyond_le l cur : (beyond l cur ≤ length l)%nat.
Proof. apply length_filter. Qed.

Lemma proc_vma_range_ok_spec p addr len need :
  vmas_ok (vmas p) → is_u32 addr → is_u32 len →
  ∃ b, proc_vma_range_ok p addr len need = Some b ∧
    (b = true ↔ is_user p = true ∧ 0 < len ∧ addr + len < 4294967296 ∧
                granted (vmas p) addr (addr + len) need).
Proof.
  unfold is_u32. intros Hok Ha Hl. unfold proc_vma_range_ok.
  destruct (is_user p); cbn [negb]; [|exists false; naive_solver].
  destruct (Z.eqb_spec len 0) as [->|Hn]; [exists false; split; [done|]; split; [done|lia]|].
  destruct (Z.ltb_spec (add32 addr len) addr) as [Hw|Hw].
  - exists false. split; [done|]. split; [done|]. intros (_ & _ & Hs & _).
    rewrite add32_small in Hw by lia. lia.
  - assert (Hs : addr + len < 4294967296).
    { destruct (Z.lt_ge_cases (addr + len) 4294967296); [done|]. unfold add32, wrap32 in Hw.
      Z.div_mod_to_equations. lia. }
    rewrite add32_small by lia.
    destruct (range_ok_loop_spec (vmas p) (addr + len) need (S (length (vmas p))) addr Hok)
      as (b & Hrun & Hb).
    { pose proof (beyond_le (vmas p) addr). lia. }
    exists b. rewrite Hrun, Hb. naive_solver lia.
Qed.

(** ** Changing entries *)
Lemma area_insert l i v0 w a p :
  l !! i = Some v0 →
  area (<[i := w]> l) a p ↔ area_in w a p ∨ ∃ j v, j ≠ i ∧ l !! j = Some v ∧ area_in v a p.
Proof.
  intros Hi. assert (Hlt : (i < length l)%nat) by (by eapply lookup_lt_Some). split.
  - intros (j & v & Hj & Hv). destruct (decide (i = j)) as [->|Hne].
    + rewrite list_lookup_insert_eq in Hj by done. injection Hj as <-. by left.
    + rewrite list_lookup_insert_ne in Hj by done. right. exists j, v. split_and!; try done.
  - intros [Hw|(j & v & Hne & Hj & Hv)].
    + exists i, w. by rewrite list_lookup_insert_eq.
    + exists j, v. by rewrite list_lookup_insert_ne.
Qed.

(** Replacing an entry by one that overlaps no other keeps the table well formed. *)
Lemma vmas_ok_insert l i v0 w :
  vmas_ok l → l !! i = Some v0 → vma_wf w →
  (∀ j v a p q, j ≠ i → l !! j = Some v → area_in v a p → ¬ area_in w a q) →
  vmas_ok (<[i := w]> l).
Proof.
  intros [Hlen Hwf Hdis] Hi Hw Hsep. assert (Hlt : (i < length l)%nat) by (by eapply lookup_lt_Some).
  split.
  - by rewrite length_insert.
  - intros j v. destruct (decide (i = j)) as [->|Hne].
    + rewrite list_lookup_insert_eq by done. by intros [= <-].
    + rewrite list_lookup_insert_ne by done. apply Hwf.
  - intros j k v u a p q. destruct (decide (i = j)) as [<-|Hj], (decide (i = k)) as [<-|Hk];
      rewrite ?list_lookup_insert_eq, ?list_lookup_insert_ne by done.
    + done.
    + intros [= <-] Hl Hv Hu. by destruct (Hsep k u a q p).
    + intros Hl [= <-] Hv Hu. by destruct (Hsep j v a p q).
    + apply Hdis.
Qed.

(** Filling a free entry. *)
Lemma area_insert_free l i v0 w a p :
  l !! i = Some v0 → vma_used v0 = false →
  area (<[i := w]> l) a p ↔ area l a p ∨ area_in w a p.
Proof.
  intros Hi Hun. rewrite (area_insert l i v0) by done. split.
  - intros [?|(j & v & _ & Hj & Hv)]; [by right|left]. by exists j, v.
  - intros [(j & v & Hj & Hv)|?]; [right|by left]. exists j, v. split_and!; try done.
    intros ->. rewrite Hi in Hj. injection Hj as ->. destruct Hv. congruence.
Qed.

(** A part of an entry, or nothing, in its place. *)
Definition part_of (w v : user_vma) : Prop := ∀ a p, area_in w a p → area_in v a p.

Lemma vmas_ok_part l i v w : vmas_ok l → l !! i = Some v → vma_wf w → part_of w v → vmas_ok (<[i := w]> l).
Proof.
  intros Hok Hi Hw Hp. apply (vmas_ok_insert l i v); try done.
  intros j u a p q Hne Hj Hu Hwq. apply Hne. by eapply (vo_disjoint _ Hok j i u v); [..|apply Hp].
Qed.

Lemma area_part l i v w a p :
  vmas_ok l → l !! i = Some v → part_of w v →
  area (<[i := w]> l) a p ↔ area l a p ∧ ((∃ q, area_in v a q) → area_in w a p).
Proof.
  intros Hok Hi Hp. rewrite (area_insert l i v w a p Hi). split.
  - intros [Hw|(j & u & Hne & Hj & Hu)].
    + split; [|done]. exists i, v. split; [done|by apply Hp].
    + split; [by exists j, u|]. intros [q Hv]. destruct Hne. by eapply (vo_disjoint _ Hok j i u v).
  - intros [(j & u & Hj & Hu) Hw]. destruct (decide (j = i)) as [->|Hne]; [left|right; eauto].
    apply Hw. rewrite Hi in Hj. injection Hj as <-. eauto.
Qed.

(** ** [proc_add_vma] *)
Lemma proc_add_vma_spec l start end_ prot l' :
  vmas_ok l → 0 ≤ start → end_ < 4294967296 → 0 < prot < 8 → proc_add_vma l start end_ prot = Some l' →
  vmas_ok l' ∧ (∀ a p, start ≤ a < end_ → ¬ area l a p) ∧
  ∀ a p, area l' a p ↔ area l a p ∨ (start ≤ a < end_ ∧ p = prot).
Proof.
  intros Hok H0 H32 Hpr. unfold proc_add_vma, is_aligned, PAGE_SIZE, proc_find_free_vma_slot.
  destruct (Z.leb_spec end_ start); [done|].
  destruct (Z.eqb_spec (start mod 4096) 0); [|done]. destruct (Z.eqb_spec (end_ mod 4096) 0); [|done]. simpl.
  destruct (existsb _ l) eqn:Hov; [done|].
  destruct (find_index _ l) as [i|] eqn:Hfree; [|done]. intros [= <-].
  destruct (find_index_Some _ _ _ Hfree) as (v0 & Hi & Hun & _). apply negb_true_iff in Hun.
  assert (Hsep : ∀ a p, start ≤ a < end_ → ¬ area l a p).
  { intros a p Ha (j & v & Hj & Hu & Hb & _). apply not_true_iff_false in Hov. apply Hov.
    apply existsb_exists. exists v. split; [by apply list_elem_of_In, list_elem_of_lookup_2 with j|].
    rewrite Hu. simpl. zcases; done. }
  split; [|split; [done|]].
  - apply (vmas_ok_insert l i v0); try done.
    intros j v a p q Hne Hj Hv (_ & Hb & _). simpl in Hb. apply (Hsep a p Hb). by exists j, v.
  - intros a p. rewrite (area_insert_free l i v0) by done. unfold area_in. simpl. naive_solver.
Qed.

(** It fails only for a bad range, an overlap or a full table. *)
Lemma proc_add_vma_None l start end_ prot :
  vmas_ok l → proc_add_vma l start end_ prot = None →
  end_ ≤ start ∨ start mod 4096 ≠ 0 ∨ end_ mod 4096 ≠ 0 ∨
  (∃ a p, start ≤ a < end_ ∧ area l a p) ∨ Forall (λ v, vma_used v = true) l.
Proof.
  intros Hok. unfold proc_add_vma, is_aligned, PAGE_SIZE, proc_find_free_vma_slot.
  destruct (Z.leb_spec end_ start); [by left|].
  destruct (Z.eqb_spec (start mod 4096) 0); [|tauto]. destruct (Z.eqb_spec (end_ mod 4096) 0); [|tauto]. simpl.
  destruct (existsb _ l) eqn:Hov.
  - intros _. do 3 right. left. apply existsb_exists in Hov as (v & Hv%list_elem_of_In & Hb).
    apply list_elem_of_lookup in Hv as [i Hi]. apply andb_true_iff in Hb as [Hu Hb].
    destruct (vo_wf _ Hok i v Hi Hu) as (Hvb & _). apply negb_true_iff, orb_false_iff in Hb as [H1 H2].
    apply Z.leb_gt in H1, H2. exists (Z.max start (vma_start v)), (vma_prot v). split; [lia|].
    exists i, v. split; [done|]. split_and!; try done; lia.
  - destruct (find_index _ l) as [i|] eqn:Hfree; [done|]. intros _. do 4 right.
    apply Forall_lookup. intros i v Hi. pose proof (find_index_None _ _ _ _ Hfree Hi) as Hn.
    by apply negb_false_iff in Hn.
Qed.

(** ** [proc_munmap] on the table *)

Section cut.
Variables (addr end_ : Z).
Hypothesis Hal : addr mod 4096 = 0.
Hypothesis Hel : end_ mod 4096 = 0.
Hypothesis Hend : 0 ≤ addr ∧ end_ < 4294967296.

(** The entry has no address of the range. *)
Definition clear_of (v : user_vma) : Prop := ∀ a p, area_in v a p → ¬ addr ≤ a < end_.

(** What one round does: entry [i] is cleared, the others stay clear, and
    outside the range the view is the same. *)
Record cut_spec (l l' : list user_vma) (i : nat) (c : bool) : Prop := {
  cs_ok : vmas_ok l';
  cs_out : ∀ a p, ¬ addr ≤ a < end_ → area l' a p ↔ area l a p;
  cs_sub : ∀ a p, area l' a p → area l a p;
  cs_here : ∀ v, l' !! i = Some v → clear_of v;
  cs_else : ∀ j, j ≠ i → (∀ v, l !! j = Some v → clear_of v) → ∀ v, l' !! j = Some v → clear_of v;
  cs_same : c = false → l' = l;
  cs_hole : c = true → ∃ a, addr ≤ a < end_ ∧ ∀ p, ¬ area l' a p;
}.

(** A part of the entry in its place. *)
Lemma cut_part l i v w :
  vmas_ok l → l !! i = Some v → vma_wf w → part_of w v → clear_of w →
  (∀ a p, ¬ addr ≤ a < end_ → area_in v a p → area_in w a p) →
  (∃ a p, addr ≤ a < end_ ∧ area_in v a p) → cut_spec l (<[i := w]> l) i true.
Proof.
  intros Hok Hi Hw Hp Hc Hout (a0 & p0 & Ha0 & Hv0).
  assert (Hlt : (i < length l)%nat) by (by eapply lookup_lt_Some). split; try done.
  - by apply (vmas_ok_part l i v).
  - intros a p Ha. rewrite (area_part l i v w) by done. split; [tauto|]. intros Har. split; [done|].
    intros [q Hv]. apply Hout; [done|]. assert (p = q) as ->; [|done].
    apply (area_functional l a); try done. by exists i, v.
  - intros a p. rewrite (area_part l i v w) by done. tauto.
  - intros u. rewrite list_lookup_insert_eq by done. by intros [= <-].
  - intros j Hj Hcl u. rewrite list_lookup_insert_ne by done. apply Hcl.
  - intros _. exists a0. split; [done|]. intros p. rewrite (area_part l i v w) by done.
    intros [_ Hw0]. by apply (Hc a0 p); [apply Hw0; eauto|].
Qed.

(** The entry is split and its upper part goes to a free entry [j]. *)
Lemma cut_split l i j v v0 :
  vmas_ok l → l !! i = Some v → l !! j = Some v0 → vma_used v0 = false → vma_used v = true →
  vma_start v < addr → addr < end_ → end_ < vma_end v →
  cut_spec l (<[i := UserVma true (vma_start v) addr (vma_prot v)]>
                (<[j := UserVma true end_ (vma_end v) (vma_prot v)]> l)) i true.
Proof using All.
  intros Hok Hi Hj Hu0 Hu Hs Hr He. destruct (vo_wf _ Hok i v Hi Hu) as (Hvb & Hv32 & Hva & Hve & Hvp).
  assert (Hne : i ≠ j) by (intros ->; congruence). rewrite list_insert_insert_ne by done.
  assert (Hli : (i < length l)%nat) by (by eapply lookup_lt_Some).
  assert (Hlj : (j < length l)%nat) by (by eapply lookup_lt_Some).
  set (hi := UserVma true end_ (vma_end v) (vma_prot v)).
  set (lo := UserVma true (vma_start v) addr (vma_prot v)).
  assert (Hlo : part_of lo v) by (intros a p (_ & ? & <-); simpl in *; split_and!; (done || lia)).
  assert (Hhi : part_of hi v) by (intros a p (_ & ? & <-); simpl in *; split_and!; (done || lia)).
  assert (Hok1 : vmas_ok (<[i := lo]> l)).
  { apply (vmas_ok_part l i v); try done. intros _. simpl. lia. }
  assert (Hj1 : <[i := lo]> l !! j = Some v0) by (by rewrite list_lookup_insert_ne).
  assert (Harea : ∀ a p, area (<[j := hi]> (<[i := lo]> l)) a p ↔ area l a p ∧ ¬ addr ≤ a < end_).
  { intros a p. rewrite (area_insert_free _ j v0), (area_part l i v lo) by done. split.
    - intros [[Ha Hl]|Hh].
      + split; [done|]. intros Hb. destruct Hl as (_ & ? & _); [exists (vma_prot v); split_and!; (done || lia)|].
        simpl in *. lia.
      + split; [exists i, v; auto|]. destruct Hh as (_ & ? & _). simpl in *. lia.
    - intros [Ha Hb]. destruct (decide (end_ ≤ a < vma_end v)) as [Hc|Hc].
      + right. assert (p = vma_prot v) as ->; [|done]. apply (area_functional l a); try done.
        exists i, v. split; [done|]. split_and!; (done || lia).
      + left. split; [done|]. intros (q & _ & Hq & _). assert (p = vma_prot v) as ->.
        { apply (area_functional l a); try done. exists i, v. split; [done|]. split_and!; (done || lia). }
        split_and!; simpl; (done || lia). }
  split; try done.
  - apply (vmas_ok_insert _ j v0); try done; [intros _; simpl; lia|].
    intros k u a p q Hk Hl Hu' Hq. destruct (decide (k = i)) as [->|Hki].
    + rewrite list_lookup_insert_eq in Hl by done. injection Hl as <-.
      destruct Hu' as (_ & ? & _), Hq as (_ & ? & _). simpl in *. lia.
    + rewrite list_lookup_insert_ne in Hl by done. apply Hki.
      eapply (vo_disjoint _ Hok k i u v a p q); try done. by apply Hhi.
  - intros a p Ha. rewrite Harea. tauto.
  - intros a p. rewrite Harea. tauto.
  - intros u. rewrite list_lookup_insert_ne, list_lookup_insert_eq by done. intros [= <-] a p (_ & ? & _).
    simpl in *. lia.
  - intros k Hki Hcl u. destruct (decide (k = j)) as [->|Hkj].
    + rewrite list_lookup_insert_eq by (by rewrite length_insert). intros [= <-] a p (_ & ? & _). simpl in *. lia.
    + rewrite !list_lookup_insert_ne by done. apply Hcl.
  - intros _. exists addr. split; [lia|]. intros p. rewrite Harea. lia.
Qed.

(** One round of the loop: it fails only to split an area around the whole
    range when the table is full. *)
Lemma cut_vma_spec l i :
  vmas_ok l → addr < end_ →
  match cut_vma l i addr end_ with
  | Some (l', c) => cut_spec l l' i c
  | None => (∃ v, l !! i = Some v ∧ vma_used v = true ∧ vma_start v < addr ∧ end_ < vma_end v) ∧
            Forall (λ v, vma_used v = true) l
  end.
Proof using All.
  intros Hok Hr. unfold cut_vma.
  assert (Hnop : (∀ v, l !! i = Some v → clear_of v) → cut_spec l l i false) by (intros; by split).
  destruct (l !! i) as [v|] eqn:Hi; [|apply Hnop; done].
  destruct (vma_used v) eqn:Hu; simpl; [|apply Hnop; intros ? [= <-] a p [? _]; congruence].
  destruct (vo_wf _ Hok i v Hi Hu) as (Hvb & Hv32 & Hva & Hve & Hvp).
  destruct (Z.leb_spec (vma_end v) addr); simpl;
    [apply Hnop; intros ? [= <-] a p (_ & ? & _); lia|].
  destruct (Z.leb_spec end_ (vma_start v)); simpl;
    [apply Hnop; intros ? [= <-] a p (_ & ? & _); lia|].
  set (cs := if vma_start v <? addr then addr else vma_start v).
  set (ce := if end_ <? vma_end v then end_ else vma_end v).
  assert (Hcs : cs = Z.max (vma_start v) addr) by (unfold cs; zcases; lia).
  assert (Hce : ce = Z.min (vma_end v) end_) by (unfold ce; zcases; lia).
  clearbody cs ce. destruct (Z.leb_spec ce cs); [lia|].
  assert (Hhole : ∃ a p, addr ≤ a < end_ ∧ area_in v a p).
  { exists cs, (vma_prot v). split; [lia|]. split_and!; (done || lia). }
  destruct (Z.eqb_spec cs (vma_start v)) as [Hs|Hs], (Z.eqb_spec ce (vma_end v)) as [He|He]; simpl.
  - apply (cut_part l i v); try done.
    + intros a p [? _]. done.
    + intros a p [? _]. done.
    + intros a p Ha (_ & Hb & _). lia.
  - assert (ce = end_) as -> by lia. apply (cut_part l i v); try done.
    + intros _. simpl. lia.
    + intros a p (_ & ? & <-). simpl in *. split_and!; (done || lia).
    + intros a p (_ & ? & _). simpl in *. lia.
    + intros a p Ha (_ & Hb & <-). split_and!; simpl; (done || lia).
  - assert (cs = addr) as -> by lia. apply (cut_part l i v); try done.
    + intros _. simpl. lia.
    + intros a p (_ & ? & <-). simpl in *. split_and!; (done || lia).
    + intros a p (_ & ? & _). simpl in *. lia.
    + intros a p Ha (_ & Hb & <-). split_and!; simpl; (done || lia).
  - unfold proc_find_free_vma_slot. destruct (find_index _ l) as [j|] eqn:Hf.
    + destruct (find_index_Some _ _ _ Hf) as (v0 & Hj & Hu0%negb_true_iff & _).
      replace cs with addr by lia. replace ce with end_ by lia.
      apply (cut_split l i j v v0); (done || lia).
    + split; [exists v; split_and!; (done || lia)|]. apply Forall_lookup. intros k u Hk.
      by apply negb_false_iff, (find_index_None _ _ _ _ Hf Hk).
Qed.

(** The whole loop from entry [i] on. *)
Lemma munmap_vmas_spec l0 : ∀ k i l c l' r,
  addr < end_ → vmas_ok l → (∀ j v, (j < i)%nat → l !! j = Some v → clear_of v) →
  (i + k = 16)%nat →
  (∀ a p, ¬ addr ≤ a < end_ → area l a p ↔ area l0 a p) → (∀ a p, area l a p → area l0 a p) →
  (c = false → l = l0) → (c = true → ∃ a, addr ≤ a < end_ ∧ ∀ p, ¬ area l a p) →
  munmap_vmas k i l addr end_ c = (l', r) →
  match r with
  | None => l' = l0 ∧ Forall (λ v, vma_used v = true) l0 ∧
            ∃ v, v ∈ l0 ∧ vma_used v = true ∧ vma_start v < addr ∧ end_ < vma_end v
  | Some c' => vmas_ok l' ∧ (∀ a p, area l' a p ↔ area l0 a p ∧ ¬ addr ≤ a < end_) ∧ (c' = false → l' = l0)
  end.
Proof using All.
  intros k. induction k as [|k IH]; intros i l c l' r Hr Hok Hcl Hik Hout Hsub Hsame Hhole; simpl.
  - intros [= <- <-]. split; [done|]. split; [|done]. intros a p. split.
    + intros Ha. split; [auto|]. intros Hb. destruct Ha as (j & v & Hj & Hv).
      pose proof (lookup_lt_Some _ _ _ Hj). rewrite (vo_len _ Hok) in *.
      apply (Hcl j v ltac:(lia) Hj a p Hv Hb).
    + intros [Ha Hb]. by apply Hout.
  - pose proof (cut_vma_spec l i Hok Hr) as Hcut. destruct (cut_vma l i addr end_) as [[l1 c1]|].
    + destruct Hcut as [Hok1 Hout1 Hsub1 Hhere Helse Hsame1 Hhole1]. intros Hrun.
      apply (IH (S i) l1 (c || c1) l' r); try done.
      * intros j v Hj. destruct (decide (j = i)) as [->|Hne]; [by apply Hhere|].
        apply Helse; [done|]. intros u. apply Hcl. lia.
      * lia.
      * intros a p Ha. by rewrite Hout1, Hout.
      * auto.
      * intros [-> ->]%orb_false_iff. rewrite Hsame1 by done. auto.
      * intros Hc. destruct c1; [by apply Hhole1|]. rewrite orb_false_r in Hc.
        destruct (Hhole Hc) as (a & Ha & Hn). exists a. split; [done|]. intros p Hp. by eapply Hn, Hsub1.
    + intros [= <- <-]. destruct Hcut as [(v & Hi & Hu & Hs & He) Hfull].
      assert (l = l0) as <-; [|split_and!; try done; exists v; split_and!; try done; by eapply list_elem_of_lookup_2].
      destruct c; [|by apply Hsame]. destruct (Hhole eq_refl) as (a & Ha & Hn). exfalso.
      apply (Hn (vma_prot v)). exists i, v. split; [done|]. split_and!; (done || lia).
Qed.
End cut.

(** ** Choosing an address *)

Definition free_range (l : list user_vma) (a len : Z) : Prop := ∀ b p, a ≤ b < a + len → ¬ area l b p.

Lemma find_free_range_loop_spec l len : ∀ fuel addr,
  vmas_ok l → 0 ≤ len < 4294967296 → 0 ≤ addr < 4294967296 → addr mod 4096 = 0 → (beyond l addr < fuel)%nat →
  ∃ r, find_free_range_loop fuel l addr len = Some r ∧
  match r with
  | Some a => addr ≤ a ∧ a + len ≤ USER_MMAP_END ∧ a mod 4096 = 0 ∧ free_range l a len ∧
      ∀ a', 0 < len → addr ≤ a' < a → ¬ free_range l a' len
  | None => ∀ a', 0 < len → addr ≤ a' → a' + len ≤ USER_MMAP_END → ¬ free_range l a' len
  end.
Proof.
  intros fuel. induction fuel as [|fuel IH]; intros addr Hok Hlen Hb Hal Hf; [lia|]. simpl.
  unfold USER_MMAP_END in *.
  assert (Hadd : add32 addr len = addr + len ∨ (add32 addr len < addr ∧ 4294967296 ≤ addr + len)).
  { unfold add32, wrap32. Z.div_mod_to_equations. lia. }
  destruct (Z.leb_spec addr (add32 addr len)); simpl.
  2: { exists None. split; [done|]. intros a' ? ? ?. lia. }
  destruct (Z.leb_spec (add32 addr len) 1056964608); simpl.
  2: { exists None. split; [done|]. intros a' ? ? ?. lia. }
  destruct Hadd as [Hadd|?]; [|lia]. rewrite Hadd.
  destruct (find _ l) as [v|] eqn:Hfind.
  - apply find_some in Hfind as [Hin%list_elem_of_In Hv]. apply list_elem_of_lookup in Hin as [i Hi].
    rewrite !andb_true_iff, !Z.ltb_lt in Hv. destruct Hv as [[Hu H1] H2].
    destruct (vo_wf _ Hok i v Hi Hu) as (Hvb & Hv32 & _ & Hve & _).
    rewrite page_ceil_id by (unfold is_u32; (done || lia)).
    destruct (IH (vma_end v)) as (r & Hrun & Hr); try done; [lia|..].
    { pose proof (beyond_lt l addr (vma_end v) i v Hi). lia. }
    assert (Hno : ∀ a', 0 < len → addr ≤ a' < vma_end v → ¬ free_range l a' len).
    { intros a' Hl0 Ha' Hfr. apply (Hfr (Z.max a' (vma_start v)) (vma_prot v)); [lia|].
      exists i, v. split; [done|]. split_and!; (done || lia). }
    exists r. split; [done|]. destruct r as [a|].
    + destruct Hr as (? & ? & ? & ? & Hmin). split_and!; try done; [lia|].
      intros a' Hl0 Ha'. destruct (Z.lt_ge_cases a' (vma_end v)); [apply Hno; lia|apply Hmin; lia].
    + intros a' Hl0 Ha' Hle. destruct (Z.lt_ge_cases a' (vma_end v)); [apply Hno; lia|by apply Hr].
  - exists (Some addr). split; [done|]. split_and!; try done; try lia.
    intros b p Hbr (i & v & Hi & Hu & Hvb & _).
    apply find_none with (x := v) in Hfind; [|by eapply list_elem_of_In, list_elem_of_lookup_2].
    rewrite Hu in Hfind. revert Hfind. by zcases.
Qed.

Lemma proc_find_free_mmap_range_spec l len :
  vmas_ok l → 0 ≤ len < 4294967296 →
  ∃ r, proc_find_free_mmap_range l len = Some r ∧
  match r with
  | Some a => USER_MMAP_BASE ≤ a ∧ a + len ≤ USER_MMAP_END ∧ a mod 4096 = 0 ∧ free_range l a len ∧
      ∀ a', 0 < len → USER_MMAP_BASE ≤ a' < a → ¬ free_range l a' len
  | None => ∀ a', 0 < len → USER_MMAP_BASE ≤ a' → a' + len ≤ USER_MMAP_END → ¬ free_range l a' len
  end.
Proof.
  intros Hok Hlen. apply find_free_range_loop_spec; try done.
  pose proof (beyond_le l USER_MMAP_BASE). lia.
Qed.
