(* ===== verification/ProcessVmPages.v ===== *)
(** * Pages behind the areas: faults and releases

    [proc_handle_user_page_fault] gives a page to an address of an area, or
    makes a private copy of a shared one; [release_range] takes pages back. *)

From S2P Require Import Prelude Layout KString PageAlloc PageAllocSpec PageIface.
From S2P Require Import Vm VmSpec VmBoot VmProps Proc ProcessVm ProcessVmSpec.

Section pages.
Context {L : Layout} {LOK : LayoutOk} {P : Type} {PO : PageOps P} {POK : PageOpsOk P}.
Implicit Types s : vm_state P.

(** The state is good for the address space under [root]. *)
Definition space_ok s root : Prop := vm_ok s ∧ pt_ok (vm_refs s) (vmem s) root.

(** A frame that may back a user page: a counted page of the allocator that
    is not part of the table, or a page of the kernel image. *)
Definition frame_ok s root pa : Prop :=
  pa mod 4096 = 0 ∧
  ((managed pa ∧ vm_refs s pa ≠ 0 ∧ ¬ pt_page (vmem s) root pa) ∨ (0 ≤ pa ∧ pa + 4096 ≤ free_ram)).

Lemma managed_end q : managed q → q + 4096 ≤ free_ram_end.
Proof.
  intros [Hq Hb]. pose proof free_ram_end_eq. pose proof free_ram_aligned. unfold NPAGES in *.
  Z.div_mod_to_equations. lia.
Qed.

Lemma same_block q q' x : managed q → managed q' → in_block q 1 x → in_block q' 1 x → q = q'.
Proof.
  intros Hq Hq' H1 H2. destruct (decide (q = q')) as [|Hne]; [done|].
  destruct (managed_apart _ _ Hq Hq' Hne); unfold in_block in *; lia.
Qed.

(** ** Small steps on the pages *)

(** A single fresh page. *)
Lemma wp_alloc_page s root :
  space_ok s root →
  wp (on_pages (pg_alloc 1)) (λ pa s', space_ok s' root ∧ same_globals s s' ∧
    (∀ t, pt_page (vmem s') root t ↔ pt_page (vmem s) root t) ∧
    (∀ va, is_u32 va → query_page (vmem s') root va = query_page (vmem s) root va) ∧
    if decide (pa = 0) then vmem s' = vmem s ∧ ∀ q, managed q → vm_refs s' q = vm_refs s q
    else managed pa ∧ vm_refs s pa = 0 ∧ vm_refs s' pa = 1 ∧
      (∀ q, managed q → q ≠ pa → vm_refs s' q = vm_refs s q) ∧
      (∀ x, in_block pa 1 x → rd (vmem s') x = 0) ∧
      (∀ x, ¬ in_block pa 1 x → rd (vmem s') x = rd (vmem s) x)) s.
Proof.
  intros [Hs Hok]. apply wp_on_pages. eapply wp_mono; [apply wp_run, pg_alloc_spec; [done|lia]|].
  intros pa p (Hrun & Hp & Hr). pose proof (alloc_globals s 1 pa p Hrun) as Hsg. set (s' := set_vm_pages p s) in *. case_decide as H0.
  - destruct Hr as [Hm Hr]. change (vmem s' = vmem s) in Hm. change (∀ q, managed q → vm_refs s' q = vm_refs s q) in Hr.
    rewrite Hm. split_and!; try done. split; [done|]. rewrite Hm. by eapply pt_ok_refs_ext.
  - destruct Hr as [Hal [Hlo Hhi] Hf Ho Hz Hfr].
    assert (Hmp : managed pa) by (unfold managed; lia).
    destruct (Hf pa Hmp) as [Hr0 Hr1]; [unfold in_block; lia|].
    assert (Hoth : ∀ q, managed q → q ≠ pa → vm_refs s' q = vm_refs s q).
    { intros q Hq Hne. apply Ho; [done|]. unfold in_block. destruct (managed_apart _ _ Hq Hmp Hne); lia. }
    destruct (pt_frame (vm_refs s) (vm_refs s') (vmem s) (vmem s') root Hok) as (Hok' & Hpg & Hq).
    + intros t x Ht Hx. apply Hfr. intros Hx'. destruct (pt_page_managed _ _ _ _ Hok Ht) as [Htm Htr].
      apply Htr. by rewrite (same_block t pa x).
    + intros t Ht. destruct (pt_page_managed _ _ _ _ Hok Ht) as [Htm Htr].
      rewrite Hoth; [done..|]. intros ->. done.
    + split_and!; done.
Qed.

(** Memory changed inside a page that is not part of the table. *)
Lemma space_write s root pa m' :
  space_ok s root → managed pa → ¬ pt_page (vmem s) root pa →
  (∀ x, ¬ in_block pa 1 x → rd m' x = rd (vmem s) x) →
  space_ok (set_vmem m' s) root ∧ (∀ t, pt_page m' root t ↔ pt_page (vmem s) root t) ∧
  (∀ va, is_u32 va → query_page m' root va = query_page (vmem s) root va).
Proof.
  intros [Hs Hok] Hmp Hnp Hx.
  destruct (pt_frame (vm_refs s) (vm_refs (set_vmem m' s)) (vmem s) m' root Hok) as (Hok' & Hpg & Hq).
  - intros t x Ht Hxt. apply Hx. intros Hxp. destruct (pt_page_managed _ _ _ _ Hok Ht) as [Htm _].
    apply Hnp. by rewrite <-(same_block t pa x).
  - intros t Ht. rewrite vm_refs_set. by apply (pt_page_managed _ _ _ _ Hok).
  - split; [|done]. split; [by apply vm_ok_set|]. by rewrite vmem_set.
Qed.

(** Counts changed outside the table. *)
Lemma space_refs s root p :
  space_ok s root → pg_ok p → pg_mem p = vmem s →
  (∀ q, pt_page (vmem s) root q → pg_refs p q ≠ 0) → space_ok (set_vm_pages p s) root.
Proof.
  intros [Hs Hok] Hp Hm Hr. split; [done|]. unfold vmem in *. simpl. rewrite Hm.
  by apply (pt_root_ext (vm_refs s) (pg_refs p) (pg_mem (vm_pages s)) _ root Hok).
Qed.

(** [q] has lost one reference, or has kept its last one because the allocator
    could not record the page as free and has warned of it. *)
Definition ref_dropped s s' q : Prop :=
  vm_refs s' q = vm_refs s q - 1 ∨ (vm_refs s q = 1 ∧ vm_refs s' q = 1 ∧ vm_warned s').

(** Returning one page that is not part of the table. *)
Lemma wp_free_page s root pa :
  space_ok s root → managed pa → vm_refs s pa ≠ 0 → ¬ pt_page (vmem s) root pa →
  wp (on_pages (pg_free pa 1)) (λ _ s', space_ok s' root ∧ same_globals s s' ∧ vmem s' = vmem s ∧
    ref_dropped s s' pa ∧ ∀ q, managed q → q ≠ pa → vm_refs s' q = vm_refs s q) s.
Proof.
  intros Hsp Hmp Hr Hnp. pose proof Hsp as [Hs Hok]. apply wp_on_pages. pose proof (managed_end pa Hmp).
  assert (Hblk : ∀ q, managed q → in_block pa 1 q → q = pa).
  { intros q Hq Hb. destruct (decide (q = pa)) as [|Hne]; [done|].
    destruct (managed_apart _ _ Hq Hmp Hne); unfold in_block in Hb; lia. }
  eapply wp_mono; [apply pg_free_spec; try done; [apply Hmp..|]|].
  - intros q Hq Hb. by rewrite (Hblk q Hq Hb).
  - intros [] p (Hp & Hm & [Hd Ho Hwn]).
    assert (Hoth : ∀ q, managed q → q ≠ pa → pg_refs p q = vm_refs s q).
    { intros q Hq Hne. apply Ho; [done|]. intros Hb. by apply Hne, Hblk. }
    split_and!; try done; [|apply Hd; [done|unfold in_block; lia]].
    apply space_refs; try done. intros t Ht. destruct (pt_page_managed _ _ _ _ Hok Ht).
    rewrite Hoth; [done..|]. intros ->. done.
Qed.

(** Dropping a reference with [page_dec_ref]; pages of the image are ignored. *)
Lemma wp_dec_page s root pa :
  space_ok s root → frame_ok s root pa →
  wp (on_pages (pg_dec pa)) (λ _ s', space_ok s' root ∧ same_globals s s' ∧ vmem s' = vmem s ∧
    (managed pa → ref_dropped s s' pa) ∧
    ∀ q, managed q → q ≠ pa → vm_refs s' q = vm_refs s q) s.
Proof.
  intros Hsp Hf. pose proof Hsp as [Hs Hok]. apply wp_on_pages.
  assert (Hfm : managed pa → vm_refs s pa ≠ 0 ∧ ¬ pt_page (vmem s) root pa).
  { intros [_ Hb]. destruct Hf as [_ [(_ & ? & ?)|?]]; [done|lia]. }
  eapply wp_mono; [apply pg_dec_spec; [done|]; intros Hm; by apply Hfm|].
  intros [] p (Hp & Hm & Hd).
  assert (Hoth : ∀ q, managed q → q ≠ pa → pg_refs p q = vm_refs s q).
  { intros q Hq Hne. case_decide as Hmp; [|by apply (proj1 Hd)]. apply Hd; [done|]. unfold in_block.
    destruct (managed_apart _ _ Hq Hmp Hne); lia. }
  split_and!; try done.
  - apply space_refs; try done. intros t Ht. destruct (pt_page_managed _ _ _ _ Hok Ht) as [Htm Htr].
    rewrite Hoth; [done..|]. intros ->. by apply (proj2 (Hfm Htm)).
  - apply same_globals_pages. case_decide; apply Hd.
  - intros Hmp. rewrite decide_True in Hd by done. apply Hd; [done|]. unfold in_block. lia.
Qed.

(** ** Mapping a page *)
Lemma grown_space s root s' : grown s root s' → space_ok s' root.
Proof. intros (? & _ & ? & _). done. Qed.

(** Frames keep their contents and stay frames when the table grows. *)
Lemma grown_frame_ok s root s' q :
  grown s root s' → frame_ok s root q →
  frame_ok s' root q ∧ (managed q → vm_refs s' q = vm_refs s q) ∧
  ∀ x, in_block q 1 x → rd (vmem s') x = rd (vmem s) x.
Proof.
  intros (_ & _ & Hok & [F _ N R]) [Hal Hf].
  assert (Hnp : ¬ pt_page (vmem s') root q).
  { intros Ht. destruct (pt_page_managed _ _ _ _ Hok Ht) as [Hm _].
    destruct Hf as [(_ & Hr & Hn)|Hb]; [|destruct Hm; lia].
    destruct (N q Ht) as [?|(_ & ? & _)]; done. }
  assert (Hrefs : managed q → vm_refs s' q = vm_refs s q).
  { intros Hm. destruct (R q Hm) as [?|(_ & _ & ?)]; done. }
  split_and!; try done.
  - split; [done|]. destruct Hf as [(Hm & Hr & Hn)|Hb]; [left|by right].
    split_and!; try done. by rewrite Hrefs.
  - intros x Hx. apply F. intros t Ht Hxt. destruct (pt_page_managed _ _ _ _ Hok Ht) as [Htm _].
    destruct Hf as [(Hm & _)|Hb]; [|destruct Htm; unfold in_block in *; lia].
    apply Hnp. by rewrite <-(same_block t q x).
Qed.

(** [vm_map_user_page], giving the page back when it fails. *)
Lemma wp_map_or_free s root va pa prot K Q :
  space_ok s root → managed pa → vm_refs s pa = 1 → ¬ pt_page (vmem s) root pa →
  is_u32 va → va mod 4096 = 0 → 0 < prot < 8 →
  (∀ s', grown s root s' →
     (∀ va', is_u32 va' → query_page (vmem s') root va' =
        if (va <=? va') && (va' <? va + 4096) then Some (pa + (va' - va), 2 * prot + PTE_U)
        else query_page (vmem s) root va') → wp K Q s') →
  (∀ s', space_ok s' root → same_globals s s' → vmem s' = vmem s → no_page s →
     ref_dropped s s' pa → (∀ q, managed q → q ≠ pa → vm_refs s' q = vm_refs s q) → Q (-1) s') →
  wp (let! rc := vm_map_user_page (vm_make_satp root) va pa prot in
      if rc <? 0 then do! on_pages (pg_free pa 1) in kret (-1) else K) Q s.
Proof.
  intros Hsp Hmp Hr Hnp Hva Hval Hprot HK HQ. pose proof Hsp as [Hs Hok]. wp_step.
  eapply wp_mono; [apply vm_map_user_page_spec; eauto with kernel|]. intros rc s1 [Hg Hrc].
  case_decide as H0; [subst rc; simpl; by apply HK|]. destruct Hrc as (-> & Hm & Hnp'). simpl.
  assert (Hfr : frame_ok s root pa) by (split; [eauto with kernel|left; split_and!; (done || lia)]).
  destruct (grown_frame_ok s root s1 pa Hg Hfr) as ([_ Hfr1] & Hr1 & _).
  destruct Hfr1 as [(_ & Hr1' & Hnp1)|?]; [|destruct Hmp; lia].
  wp_step. eapply wp_mono; [apply (wp_free_page s1 root pa); try done; by eapply grown_space|].
  intros [] s2 (Hsp2 & Hsg2 & Hm2 & Hd2 & Ho2). wp_step. pose proof Hg as (_ & Hsg1 & _ & [_ _ _ R]).
  apply HQ; try done; [by etrans|congruence|unfold ref_dropped in *; by rewrite Hr1 in Hd2|].
  intros q Hq Hne. rewrite Ho2 by done. destruct (R q Hq) as [?|(Hz & _ & Hpq)]; [done|].
  rewrite Hm in Hpq. by apply (pt_page_managed _ _ _ _ Hok) in Hpq as [_ ?].
Qed.

(** ** Page faults *)

(** What a fault leaves unchanged: the table stays good, no other page of the
    space changes its translation, and every other frame in use its contents
    and its count. *)
Definition fault_frame s root va s' : Prop :=
  space_ok s' root ∧ same_globals s s' ∧
  (∀ va', is_u32 va' → va' / 4096 ≠ va / 4096 → query_page (vmem s') root va' = query_page (vmem s) root va') ∧
  (∀ q, frame_ok s root q → (∀ pr, query_page (vmem s) root va ≠ Some (q, pr)) →
     managed q → vm_refs s' q = vm_refs s q) ∧
  (∀ q x, frame_ok s root q → in_block q 1 x → rd (vmem s') x = rd (vmem s) x).

(** The bytes of the page that [va] translates to. *)
Definition page_byte s root va (k : Z) : option Z :=
  (λ q, rd (vmem s) (q.1 + k)) <$> query_page (vmem s) root va.

(** The fault is served: [va] translates to a page that was free and grants the rights
    [prot] of its area and has the old contents, zeros where there were none. *)
Definition fault_served s root va prot s' : Prop :=
  (∃ pa, query_page (vmem s') root va = Some (pa, 2 * prot + PTE_U) ∧ managed pa ∧ vm_refs s pa = 0) ∧
  ∀ k, 0 ≤ k < 4096 → page_byte s' root va k = Some (default 0 (page_byte s root va k)).

(** [q] was free and has one reference now, as a page of the table or as the page behind [va]. *)
Definition taken s root va s' q : Prop :=
  vm_refs s q = 0 ∧ vm_refs s' q = 1 ∧
  (pt_page (vmem s') root q ∨ ∃ pr, query_page (vmem s') root va = Some (q, pr)).

(** The counts of all pages after a served fault: the page behind [va] has one
    reference, the page that was there before has lost one, and all others have
    theirs, but for free pages taken for the table. *)
Record served_counts s root va s' : Prop := {
  sc_new : ∀ pa pr, query_page (vmem s') root va = Some (pa, pr) → vm_refs s' pa = 1;
  sc_old : ∀ q pr, managed q → query_page (vmem s) root va = Some (q, pr) → ref_dropped s s' q;
  sc_others : ∀ q, managed q → (∀ pr, query_page (vmem s) root va ≠ Some (q, pr)) →
    vm_refs s' q = vm_refs s q ∨ taken s root va s' q;
}.
(** After a refused fault all pages have their counts; a page that was taken
    and given back may stay in use only with the allocator's warning. *)
Definition refused_counts s s' : Prop := ∀ q, managed q →
  vm_refs s' q = vm_refs s q ∨ (vm_refs s q = 0 ∧ vm_refs s' q = 1 ∧ vm_warned s').

(** The allocator cannot give two pages one after the other. *)
Definition no_two_pages s : Prop :=
  no_page s ∨ ∃ pa s1, on_pages (pg_alloc 1) s = Done (pa, s1) ∧ (no_page s1 ∨ ∃ m, no_page (set_vmem m s1)).

Definition fault_refused s root va s' : Prop :=
  query_page (vmem s') root va = query_page (vmem s) root va ∧ refused_counts s s'.

Lemma refused_refl s root va : fault_refused s root va s.
Proof. split; [done|]. by left. Qed.

Lemma fault_frame_refl s root va : space_ok s root → fault_frame s root va s.
Proof. intros. by split_and!. Qed.

Lemma fresh_not_table s root pa : space_ok s root → vm_refs s pa = 0 → ¬ pt_page (vmem s) root pa.
Proof. intros [_ Hok] Hz Ht. by apply (pt_page_managed _ _ _ _ Hok) in Ht as [_ ?]. Qed.

Lemma frame_ok_apart s root pa q x :
  managed pa → vm_refs s pa = 0 → frame_ok s root q → in_block q 1 x → ¬ in_block pa 1 x.
Proof.
  intros Hm Hz [_ [(Hq & Hr & _)|Hb]] Hx Hxp.
  - apply Hr. by rewrite (same_block q pa x).
  - destruct Hm. unfold in_block in *. lia.
Qed.

(** A frame of [s] after fresh page [pa] was taken. *)
Lemma frame_ok_alloc s s1 root pa q :
  managed pa → vm_refs s pa = 0 → (∀ q, managed q → q ≠ pa → vm_refs s1 q = vm_refs s q) →
  (∀ t, pt_page (vmem s1) root t ↔ pt_page (vmem s) root t) → frame_ok s root q → frame_ok s1 root q.
Proof.
  intros Hm Hz Ho Hpg [Hal [(Hq & Hr & Hn)|Hb]]; (split; [done|]); [left|by right].
  split; [done|]. rewrite Ho, Hpg; [done..|]. intros ->. done.
Qed.

(** The common part of both kinds of fault: page [pa], fresh in [s] and ready
    in [s1] with the contents [va] should have, is mapped at [va]. *)
Lemma serve_fault s s1 root va pa prot K Q :
  is_u32 va → va mod 4096 = 0 → 0 < prot < 8 →
  space_ok s root → space_ok s1 root → same_globals s s1 → managed pa → vm_refs s pa = 0 → vm_refs s1 pa = 1 →
  (∀ q, managed q → q ≠ pa → vm_refs s1 q = vm_refs s q) →
  (∀ t, pt_page (vmem s1) root t ↔ pt_page (vmem s) root t) →
  (∀ va, is_u32 va → query_page (vmem s1) root va = query_page (vmem s) root va) →
  (∀ x, ¬ in_block pa 1 x → rd (vmem s1) x = rd (vmem s) x) →
  (∀ k, 0 ≤ k < 4096 → rd (vmem s1) (pa + k) = default 0 (page_byte s root va k)) →
  (∀ s', fault_frame s root va s' → fault_served s root va prot s' → grown s1 root s' →
     (∀ q pr, query_page (vmem s') root va = Some (q, pr) → vm_refs s' q = 1) →
     (∀ q, managed q → vm_refs s' q = vm_refs s q ∨ taken s root va s' q) → wp K Q s') →
  (∀ s', fault_frame s root va s' → fault_refused s root va s' → no_page s1 → Q (-1) s') →
  wp (let! rc := vm_map_user_page (vm_make_satp root) va pa prot in
      if rc <? 0 then do! on_pages (pg_free pa 1) in kret (-1) else K) Q s1.
Proof.
  intros Hva Hval Hprot Hsp Hsp1 Hsg Hmp Hz H1 Ho Hpg Hq Hx Hk HK HQ.
  assert (Hfr1 : ∀ q, frame_ok s root q → frame_ok s1 root q) by (intros; by apply (frame_ok_alloc s s1 root pa)).
  assert (Hnp : ¬ pt_page (vmem s1) root pa) by (rewrite Hpg; by apply fresh_not_table).
  assert (Hne : ∀ q, frame_ok s root q → managed q → q ≠ pa ∧ vm_refs s q ≠ 0).
  { intros q [_ [(_ & Hr & _)|Hb]] Hq'; [split; [intros ->|]; done|destruct Hq'; lia]. }
  apply wp_map_or_free; try done.
  - intros s' Hg Hq'. pose proof Hg as (_ & Hsg' & _ & [_ _ _ HR _]).
    assert (Hpa : query_page (vmem s') root va = Some (pa, 2 * prot + PTE_U)).
    { rewrite Hq' by done. zcases. do 2 f_equal. lia. }
    assert (Hpf : frame_ok s1 root pa) by (split; [eauto with kernel|left; split_and!; (done || lia)]).
    destruct (grown_frame_ok s1 root s' pa Hg Hpf) as (_ & Hrpa & Hxpa).
    apply HK; [| |done|intros q pr; rewrite Hpa; intros [= <- _]; by rewrite Hrpa|].
    + split_and!; [by eapply grown_space|by etrans|..].
      * intros va' Hva' Hpne. rewrite Hq', Hq by done. rewrite <-page_range by done.
        rewrite decide_False by done. done.
      * intros q Hf _ Hm. rewrite (proj1 (proj2 (grown_frame_ok _ _ _ _ Hg (Hfr1 q Hf)))) by done.
        apply Ho; [done|]. by apply Hne.
      * intros q x Hf Hxq. rewrite (proj2 (proj2 (grown_frame_ok _ _ _ _ Hg (Hfr1 q Hf)))) by done.
        apply Hx. by apply (frame_ok_apart s root pa q).
    + split; [by exists pa|]. intros k Hkb. unfold page_byte at 1. rewrite Hpa. simpl. rewrite <-Hk by done.
      f_equal. apply Hxpa. unfold in_block. lia.
    + intros q Hm. destruct (decide (q = pa)) as [->|Hqp].
      * right. split_and!; [done|by rewrite Hrpa|]. right. by eexists.
      * destruct (HR q Hm) as [->|(Hz' & H1' & Hpt)]; rewrite Ho in * by done; [by left|right]. split_and!; try done. by left.
  - intros s' Hsp' Hsg' Hm Hnp' Hd Hr'. apply HQ; [| |done].
    + split_and!; try done; [by etrans|..].
      * intros va' Hva' _. rewrite Hm. by apply Hq.
      * intros q Hf _ Hqm. destruct (Hne q Hf Hqm). by rewrite Hr', Ho.
      * intros q x Hf Hxq. rewrite Hm. apply Hx. by apply (frame_ok_apart s root pa q).
    + split; [by rewrite Hm, Hq|]. intros q Hqm. destruct (decide (q = pa)) as [->|Hqp]; [|left; by rewrite Hr', Ho].
      destruct Hd as [Hd|(_ & Hd & Hw)]; [left; lia|right]. by split_and!.
Qed.

Definition fault_result s root va prot r s' : Prop := fault_frame s root va s' ∧
  if decide (r = 0) then fault_served s root va prot s' ∧ served_counts s root va s'
  else r = -1 ∧ fault_refused s root va s' ∧ no_two_pages s.

(** No page to start with. *)
Lemma refused_alloc s root va prot s1 :
  on_pages (pg_alloc 1) s = Done (0, s1) → space_ok s1 root → same_globals s s1 →
  (∀ va, is_u32 va → query_page (vmem s1) root va = query_page (vmem s) root va) →
  vmem s1 = vmem s → (∀ q, managed q → vm_refs s1 q = vm_refs s q) → fault_result s root va prot (-1) s1.
Proof.
  intros Hrun Hsp1 Hsg1 Hq1 Hm Hr. split.
  - split_and!; try done; [intros va' Hva' _; by apply Hq1|intros; by apply Hr|by rewrite Hm].
  - simpl. split_and!; [done| |by left; exists s1]. split; [by rewrite Hm|]. intros q Hq. left. auto.
Qed.

Lemma demand_zero_spec s root va prot :
  space_ok s root → is_u32 va → va mod 4096 = 0 → 0 < prot < 8 → query_page (vmem s) root va = None →
  wp (let! pa := on_pages (pg_alloc 1) in
      if pa =? 0 then kret (-1)
      else
        let! rc := vm_map_user_page (vm_make_satp root) va pa prot in
        if rc <? 0 then do! on_pages (pg_free pa 1) in kret (-1) else kret 0)
    (fault_result s root va prot) s.
Proof.
  intros Hsp Hva Hval Hprot Hnone. wp_step. eapply wp_mono; [apply wp_run; by apply wp_alloc_page|].
  intros pa s1 (Hrun & Hsp1 & Hsg1 & Hpg1 & Hq1 & Hpa). destruct (Z.eqb_spec pa 0) as [->|Hp0].
  - simpl in Hpa. destruct Hpa as [Hm Hr]. wp_steps. by apply refused_alloc.
  - rewrite decide_False in Hpa by done. destruct Hpa as (Hmp & Hz & H1 & Ho & Hzero & Hx).
    apply (serve_fault s); try done.
    + intros k Hk. rewrite Hzero by (unfold in_block; lia). unfold page_byte. by rewrite Hnone.
    + intros s' Hf Hs' _ Hnew Hc. wp_steps. split; [done|]. simpl. split; [done|]. split; [done| |auto].
      intros q pr _ Hq. by rewrite Hnone in Hq.
    + intros s' Hf Hr Hn. split; [done|]. simpl. split_and!; try done. right. exists pa, s1. auto.
Qed.

Lemma proc_try_cow_fault_spec s root va v old mapped :
  space_ok s root → is_u32 va → va mod 4096 = 0 → 0 < vma_prot v < 8 →
  query_page (vmem s) root va = Some (old, mapped) → frame_ok s root old →
  has_bits (vma_prot v) VMA_PROT_W = true → has_bits mapped PTE_W_BIT = false →
  wp (proc_try_cow_fault (vm_make_satp root) va v) (fault_result s root va (vma_prot v)) s.
Proof.
  intros Hsp Hva Hval Hprot Hq Hold Hpw Hmw. unfold proc_try_cow_fault.
  pose proof (fault_frame_refl s root va Hsp). pose proof Hsp as [Hs Hok].
  rewrite Hpw. cbn [negb].
  unfold vm_query_user_page. pose proof (pt_root _ _ _ Hok) as [Hrm _].
  wp_steps. rewrite satp_root by eauto with kernel. rewrite Hq, Hmw.
  wp_step. eapply wp_mono; [apply wp_run; by apply wp_alloc_page|].
  intros pa s1 (Hrun & Hsp1 & Hsg1 & Hpg1 & Hq1 & Hpa). destruct (Z.eqb_spec pa 0) as [->|Hp0].
  { simpl in Hpa. destruct Hpa as [Hm Hr]. wp_steps. by apply refused_alloc. }
  rewrite decide_False in Hpa by done. destruct Hpa as (Hmp & Hz & H1 & Ho & Hzero & Hx).
  pose proof free_ram_bounds. pose proof (managed_end _ Hmp). pose proof (managed_u32 _ Hmp) as Hpu.
  assert (Hapart : old + 4096 ≤ pa ∨ pa + 4096 ≤ old).
  { destruct Hold as [_ [(Hom & Hor & _)|Hob]]; [|destruct Hmp; lia]. apply managed_apart; try done.
    intros ->. done. }
  assert (Hob : 0 ≤ old ∧ old + 4096 ≤ free_ram_end).
  { destruct Hold as [_ [(Hom & _)|?]]; [|destruct Hmp; lia]. pose proof (managed_end _ Hom). destruct Hom. lia. }
  unfold is_u32 in Hpu. wp_step. apply wp_upd_vmem.
  assert (Hcp : ∀ x, rd (memcpy (vmem s1) pa old PAGE_SIZE) x =
    if (pa <=? x) && (x <? pa + 4096) then rd (vmem s) (old + (x - pa)) else rd (vmem s1) x).
  { intros x. unfold PAGE_SIZE. rewrite memcpy_rd by lia. zcases; try done.
    apply Hx. unfold in_block. lia. }
  set (m2 := memcpy _ _ _ _) in *. clearbody m2.
  destruct (space_write s1 root pa m2) as (Hsp2 & Hpg2 & Hq2); try done.
  { rewrite Hpg1. by apply fresh_not_table. }
  { intros x Hxp. rewrite Hcp. unfold in_block in Hxp. by zcases. }
  apply (serve_fault s (set_vmem m2 s1)); try done; rewrite ?vmem_set.
  - by apply same_globals_set.
  - by rewrite vm_refs_set.
  - intros q Hqm Hne. rewrite vm_refs_set. auto.
  - intros t. by rewrite Hpg2, Hpg1.
  - intros va' Hva'. by rewrite Hq2, Hq1.
  - intros x Hxp. rewrite Hcp. pose proof (Hx x Hxp). unfold in_block in Hxp. by zcases.
  - intros k Hk. rewrite Hcp. zcases. unfold page_byte. rewrite Hq. simpl. f_equal. lia.
  - intros s' (Hsp' & Hsg' & Hqo & Hro & Hxo) [Hpa' Hbytes] Hg Hnew Hc. wp_step.
    assert (Hold2 : frame_ok (set_vmem m2 s1) root old).
    { apply (frame_ok_alloc s _ root pa); try done; [|intros t; by rewrite vmem_set, Hpg2, Hpg1].
      intros q Hqm Hne. rewrite vm_refs_set. auto. }
    assert (Holdr : managed old → vm_refs s old ≠ 0).
    { intros [_ Hb]. destruct Hold as [_ [(_ & ? & _)|?]]; [done|lia]. }
    eapply wp_mono; [apply (wp_dec_page s' root old); try done; by eapply grown_frame_ok|].
    intros [] s3 (Hsp3 & Hsg3 & Hm3 & Hd3 & Hr3). wp_step.
    unfold fault_result, fault_frame, fault_served, page_byte in *. simpl.
    rewrite Hm3. split; [|split; [done|split; rewrite ?Hm3]].
    + split_and!; try done; [by etrans|].
      intros q Hf Hne Hqm. rewrite Hr3; [by apply Hro|done|]. intros ->. by eapply Hne.
    + intros q pr Hqp. destruct Hpa' as (pa' & Hpa' & Hpm & Hpz). rewrite Hpa' in Hqp. injection Hqp as <- <-.
      rewrite Hr3; [by eapply Hnew|done|]. intros ->. by apply Holdr.
    + intros q pr Hqm. rewrite Hq. intros [= <- _]. specialize (Hd3 Hqm). unfold ref_dropped in *.
      destruct (Hc old Hqm) as [E|(Hz' & _)]; [by rewrite E in Hd3|]. by destruct Holdr.
    + intros q Hqm Hne. rewrite Hr3; [|done|intros ->; by eapply Hne].
      destruct (Hc q Hqm) as [?|Ht]; [by left|right]. unfold taken in *. rewrite Hm3, Hr3; [done..|]. intros ->. by eapply Hne.
  - intros s' Hf Hq' Hn. split; [done|]. simpl. split_and!; try done. right. exists pa, s1. eauto.
Qed.
(** ** Giving pages back *)

(** The private part of a space: the mmap window and the stack above it, up to
    [USER_STACK_TOP]. *)
Definition window_page (va : Z) : Prop :=
  va mod 4096 = 0 ∧ USER_MMAP_BASE ≤ va < 1073741824.

(** Every mapped page of the private part comes from a level-0
    table, is a counted page of its own and not part of the table. *)
Record window_ok s root : Prop := {
  wo_frame : ∀ va pa pr, window_page va → query_page (vmem s) root va = Some (pa, pr) →
    managed pa ∧ vm_refs s pa ≠ 0 ∧ ¬ pt_page (vmem s) root pa ∧ is_Some (l0_of (vmem s) root (vpn1 va));
  wo_inj : ∀ va va' pa pr pr', window_page va → window_page va' →
    query_page (vmem s) root va = Some (pa, pr) → query_page (vmem s) root va' = Some (pa, pr') → va = va';
}.

(** [q] backs a page of [lo, hi). *)
Definition backs s root lo hi q : Prop :=
  ∃ va pr, window_page va ∧ lo ≤ va < hi ∧ query_page (vmem s) root va = Some (q, pr).

(** The pages of [lo, hi) are gone: no translation is left there and all
    others stay; each frame that backed one loses a reference, no other does;
    only the table is written. *)
Record released s root lo hi s' : Prop := {
  rel_space : space_ok s' root;
  rel_globals : same_globals s s';
  rel_window : window_ok s' root;
  rel_query : ∀ va, is_u32 va → query_page (vmem s') root va =
    if (lo <=? va) && (va <? hi) then None else query_page (vmem s) root va;
  rel_dropped : ∀ q, managed q → backs s root lo hi q → ref_dropped s s' q;
  rel_others : ∀ q, managed q → ¬ backs s root lo hi q → vm_refs s' q = vm_refs s q;
  rel_data : ∀ x, (∀ t, pt_page (vmem s) root t → ¬ in_block t 1 x) → rd (vmem s') x = rd (vmem s) x;
  rel_tables : ∀ t, pt_page (vmem s') root t ↔ pt_page (vmem s) root t;
}.

Lemma window_u32 va : window_page va → is_u32 va.
Proof. unfold window_page, USER_MMAP_BASE, is_u32. lia. Qed.

Lemma window_same_page va va' :
  window_page va → window_page va' → ((va <=? va') && (va' <? va + 4096)) = bool_decide (va' = va).
Proof.
  intros [Ha _] [Ha' _]. case_bool_decide; zcases; try done; Z.div_mod_to_equations; lia.
Qed.

Lemma release_page_spec s root va :
  space_ok s root → window_ok s root → window_page va →
  wp (release_page (vm_make_satp root) va) (λ _ s', released s root va (va + 4096) s') s.
Proof.
  intros Hsp Hw Hva. pose proof Hsp as [Hs Hok]. pose proof (pt_root _ _ _ Hok) as [Hrm _].
  pose proof (window_u32 va Hva) as Hu. destruct (vpn_range va Hu) as [Hv1 _].
  unfold release_page, vm_query_user_page. wp_steps. rewrite satp_root by eauto with kernel.
  assert (Hbacks : ∀ q, backs s root va (va + 4096) q ↔ ∃ pr, query_page (vmem s) root va = Some (q, pr)).
  { intros q. split.
    - intros (va' & pr & Hw' & Hb & Hq). assert (va' = va) as ->; [|by exists pr].
      pose proof (window_same_page va va' Hva Hw') as He. case_bool_decide; [done|]. revert He. by zcases.
    - intros [pr Hq]. exists va, pr. split_and!; (done || lia). }
  destruct (query_page (vmem s) root va) as [[pa pr]|] eqn:Hq.
  2: { wp_steps. split; try done.
       - intros va' Hva'. rewrite <-page_range by (done || apply Hva). case_decide as Hp; [|done].
         destruct (vpn_page va' va Hva' Hu Hp) as [He1 He0]. revert Hq. unfold query_page. rewrite He1, He0.
         repeat case_match; done.
       - intros q _ [? Hn]%Hbacks. done. }
  destruct (wo_frame _ _ Hw va pa pr Hva Hq) as (Hmp & Hpr & Hpn & Hl0).
  wp_step. eapply wp_mono; [apply vm_unmap_user_page_spec; try done; apply Hva|].
  intros rc s1 (Hg & Hr1 & Hpg & Hl & Hrc). case_decide as H0.
  2: { destruct Hrc as (_ & _ & Hn). rewrite Hn in Hl0. by destruct Hl0. }
  subst rc. simpl.
  eapply wp_mono; [apply (wp_free_page s1 root pa); [by eapply grown_space|done|by rewrite Hr1|by rewrite Hpg]|].
  intros [] s2 (Hsp2 & Hsg2 & Hm2 & Hd2 & Ho2). unfold ref_dropped in Hd2. rewrite Hr1 in Hd2.
  pose proof Hg as (_ & Hsg1 & _ & _).
  assert (Hq2 : ∀ va', is_u32 va' → query_page (vmem s2) root va' =
    if (va <=? va') && (va' <? va + 4096) then None else query_page (vmem s) root va').
  { intros va' Hva'. rewrite Hm2, Hrc by done. done. }
  split; try done.
  - by etrans.
  - split.
    + intros va' pa' pr' Hw'. rewrite Hq2 by (by apply window_u32).
      rewrite window_same_page by done. case_bool_decide as Hne; [done|]. intros Hq'.
      destruct (wo_frame _ _ Hw va' pa' pr' Hw' Hq') as (? & ? & ? & ?).
      assert (pa' ≠ pa) by (intros ->; apply Hne; by eapply (wo_inj _ _ Hw)).
      destruct (vpn_range va' (window_u32 va' Hw')) as [Hv1' _].
      rewrite Ho2, Hr1, Hm2, Hpg, Hl by done. done.
    + intros va' va'' pa' pr' pr'' Hw' Hw''. rewrite !Hq2 by (by apply window_u32).
      rewrite !window_same_page by done. repeat case_bool_decide; try done. by apply (wo_inj _ _ Hw).
  - intros q Hqm [pr' [= <- _]]%Hbacks. done.
  - intros q Hqm Hnb. rewrite Ho2, Hr1; try done. intros ->. apply Hnb, Hbacks. by exists pr.
  - intros x Hx. rewrite Hm2. pose proof Hg as (_ & _ & _ & [F _ _ _]). apply F. intros t. rewrite Hpg. apply Hx.
  - intros t. by rewrite Hm2, Hpg.
Qed.

Lemma released_trans s s1 s2 root lo mid hi :
  space_ok s root → window_ok s root → lo mod 4096 = 0 → mid = lo + 4096 → mid ≤ hi → 0 ≤ lo →
  released s root lo mid s1 → released s1 root mid hi s2 → released s root lo hi s2.
Proof.
  intros Hsp Hw Hlo Hmid Hle H0 H1 H2.
  assert (Hb1 : ∀ q, backs s1 root mid hi q ↔ backs s root mid hi q).
  { intros q. split; intros (va & pr & Hwv & Hb & Hq); exists va, pr; (split_and!; [done|lia..|]).
    - rewrite (rel_query _ _ _ _ _ H1) in Hq by (by apply window_u32). revert Hq. by zcases.
    - rewrite (rel_query _ _ _ _ _ H1) by (by apply window_u32). by zcases. }
  assert (Hb2 : ∀ q, backs s root lo hi q ↔ backs s root lo mid q ∨ backs s root mid hi q).
  { intros q. split.
    - intros (va & pr & Hwv & Hb & Hq). destruct (Z.lt_ge_cases va mid); [left|right]; exists va, pr; auto with lia.
    - intros [(va & pr & Hwv & Hb & Hq)|(va & pr & Hwv & Hb & Hq)]; exists va, pr; auto with lia. }
  assert (Hexcl : ∀ q, backs s root lo mid q → ¬ backs s root mid hi q).
  { intros q (va & pr & Hwv & Hb & Hq) (va' & pr' & Hwv' & Hb' & Hq').
    assert (va = va') by (by eapply (wo_inj _ _ Hw)). lia. }
  split.
  - apply H2.
  - etrans; [apply H1|apply H2].
  - apply H2.
  - intros va Hva. rewrite (rel_query _ _ _ _ _ H2), (rel_query _ _ _ _ _ H1) by done. by zcases.
  - intros q Hq [Hb|Hb]%Hb2.
    + unfold ref_dropped. rewrite (rel_others _ _ _ _ _ H2) by (try done; rewrite Hb1; by apply Hexcl).
      destruct (rel_dropped _ _ _ _ _ H1 q Hq Hb) as [?|(? & ? & ?)]; [by left|right]. split_and!; try done. by apply (sg_warned _ _ (rel_globals _ _ _ _ _ H2)).
    + unfold ref_dropped. rewrite <-(rel_others _ _ _ _ _ H1 q) by (try done; intros ?; by eapply Hexcl).
      apply H2; [done|]. by apply Hb1.
  - intros q Hq Hn. rewrite Hb2 in Hn. rewrite (rel_others _ _ _ _ _ H2) by (try done; rewrite Hb1; tauto).
    apply H1; tauto.
  - intros x Hx. rewrite (rel_data _ _ _ _ _ H2); [by apply H1|]. intros t. rewrite (rel_tables _ _ _ _ _ H1). apply Hx.
  - intros t. rewrite (rel_tables _ _ _ _ _ H2). apply H1.
Qed.

(** A whole range of the private part. *)
Lemma release_range_spec root hi : ∀ fuel lo s,
  space_ok s root → window_ok s root → lo mod 4096 = 0 → hi mod 4096 = 0 → USER_MMAP_BASE ≤ lo →
  hi ≤ 1073741824 → lo ≤ hi → hi - lo ≤ Z.of_nat fuel * 4096 →
  wp (release_range fuel (vm_make_satp root) lo hi) (λ _ s', released s root lo hi s') s.
Proof.
  intros fuel. induction fuel as [|fuel IH]; intros lo s Hsp Hw Hlo Hhi Hb1 Hb2 Hle Hf; simpl.
  all: destruct (Z.ltb_spec lo hi) as [Hlt|Hge]; [|wp_steps; replace hi with lo by lia; split; try done;
    [intros va Hva; by zcases|intros q Hq (va & pr & _ & ? & _); lia]].
  - lia.
  - assert (Hwp : window_page lo) by (unfold window_page; lia). unfold USER_MMAP_BASE in *.
    assert (lo + 4096 ≤ hi) by (Z.div_mod_to_equations; lia).
    wp_step. eapply wp_mono; [by apply release_page_spec|]. intros [] s1 H1.
    unfold PAGE_SIZE. rewrite add32_small by lia.
    eapply wp_mono; [apply IH; try apply H1; try done; try lia; Z.div_mod_to_equations; lia|].
    intros [] s2 H2. eapply released_trans; try done. lia.
Qed.

Lemma release_range_full s root lo hi :
  space_ok s root → window_ok s root → lo mod 4096 = 0 → hi mod 4096 = 0 → USER_MMAP_BASE ≤ lo →
  hi ≤ 1073741824 → lo ≤ hi →
  wp (release_range (range_fuel lo hi) (vm_make_satp root) lo hi) (λ _ s', released s root lo hi s') s.
Proof.
  intros. apply release_range_spec; try done. unfold range_fuel, PAGE_SIZE.
  rewrite Z2Nat.id by (Z.div_mod_to_equations; lia). Z.div_mod_to_equations. lia.
Qed.
End pages.
