(* ===== verification/ProcessVmProps.v ===== *)
(** * The properties of process address spaces

    What system calls and the trap handler rely on from
    [src/mm/process_vm.c]; the proofs rest on [ProcessVmSpec] and
    [ProcessVmPages]. *)

From S2P Require Import Prelude Layout KString PageAlloc PageAllocSpec PageIface PageAllocProps.
From S2P Require Import Vm VmSpec VmBoot VmProps Proc ProcessVm ProcessVmSpec ProcessVmPages.

Lemma page_ceil_props v : is_u32 v →
  page_ceil v mod 4096 = 0 ∧ 0 ≤ page_ceil v ≤ 4294963200 ∧
  (page_ceil v = 0 ↔ v = 0 ∨ 4294963200 < v).
Proof.
  intros Hu. unfold page_ceil, PAGE_SIZE. change (4096 - 1) with (2 ^ 12 - 1).
  rewrite land_not32_ones by (lia || apply wrap32_range). change (2 ^ 12) with 4096.
  unfold is_u32, add32, wrap32 in *. Z.div_mod_to_equations. lia.
Qed.

Lemma set_vmas_id p : set_vmas (vmas p) p = p.
Proof. by destruct p. Qed.

Lemma munmap_vmas_empty addr : ∀ k i l c, munmap_vmas k i l addr addr c = (l, Some c).
Proof.
  induction k as [|k IH]; intros i l c; simpl; [done|].
  assert (cut_vma l i addr addr = Some (l, false)) as ->; [|by rewrite orb_false_r].
  unfold cut_vma. destruct (l !! i) as [v|]; [|done]. destruct (vma_used v); [|done]. cbn [negb].
  by zcases.
Qed.

(** The arguments [proc_munmap] accepts. *)
Definition munmap_args (addr len : Z) : Prop :=
  addr mod 4096 = 0 ∧ len ≠ 0 ∧ USER_MMAP_BASE ≤ addr ∧ addr + page_ceil len ≤ USER_MMAP_END.

Section props.
Context {L : Layout} {LOK : LayoutOk} {P : Type} {PO : PageOps P} {POK : PageOpsOk P}.
Implicit Types (s : vm_state P) (p : process).

(** The process [p] runs in the space under [root]. *)
Record process_space s p root : Prop := {
  psp_user : is_user p = true;
  psp_satp : satp p = vm_make_satp root;
  psp_vmas : vmas_ok (vmas p);
  psp_space : space_ok s root;
  psp_window : window_ok s root;
}.

(** The two ways [proc_munmap] ends. *)
Definition munmap_done s p root addr len p' s' : Prop :=
  munmap_args addr len ∧
  ∃ l', p' = set_vmas l' p ∧ vmas_ok l' ∧
    (∀ a q, area l' a q ↔ area (vmas p) a q ∧ ¬ addr ≤ a < addr + page_ceil len) ∧
    ((l' = vmas p ∧ s' = s) ∨ released s root addr (addr + page_ceil len) s').
Definition munmap_refused s p addr len p' s' : Prop :=
  p' = p ∧ s' = s ∧
  (munmap_args addr len → Forall (λ v, vma_used v = true) (vmas p) ∧
     ∃ v, v ∈ vmas p ∧ vma_used v = true ∧ vma_start v < addr ∧ addr + page_ceil len < vma_end v).

Lemma proc_munmap_spec s p root addr len :
  process_space s p root → is_u32 addr → is_u32 len →
  wp (proc_munmap p addr len) (λ r s',
    (r.1 = 0 ∧ munmap_done s p root addr len r.2 s') ∨
    (r.1 = -1 ∧ munmap_refused s p addr len r.2 s')) s.
Proof.
  intros [Husr Hsatp Hvm Hsp Hw] Ha Hl. unfold proc_munmap, is_aligned, PAGE_SIZE. rewrite Husr. cbn [negb].
  assert (Hbad : ¬ munmap_args addr len → wp (kret (-1, p)) (λ r s',
    (r.1 = 0 ∧ munmap_done s p root addr len r.2 s') ∨
    (r.1 = -1 ∧ munmap_refused s p addr len r.2 s')) s).
  { intros Hn. wp_steps. right. split; [done|]. split_and!; try done. }
  destruct (Z.eqb_spec (addr mod 4096) 0) as [Hal|Hal]; cbn [negb]; [|apply Hbad; by intros []].
  destruct (Z.eqb_spec len 0) as [Hn0|Hn0]; [apply Hbad; by intros (_ & ? & _)|].
  destruct (page_ceil_props len Hl) as (Hc4 & Hcb & Hc0). set (n := page_ceil len) in *.
  unfold is_u32 in Ha.
  destruct (Z.ltb_spec (add32 addr n) addr) as [Hwrap|Hwrap].
  { apply Hbad. intros (_ & _ & Hb & He). fold n in He. unfold USER_MMAP_END in He.
    rewrite add32_small in Hwrap by lia. lia. }
  assert (Hadd : add32 addr n = addr + n).
  { destruct (Z.lt_ge_cases (addr + n) 4294967296); [apply add32_small; lia|].
    unfold add32, wrap32 in Hwrap. Z.div_mod_to_equations. lia. }
  rewrite Hadd. destruct (Z.ltb_spec addr USER_MMAP_BASE); simpl; [apply Hbad; intros (_ & _ & ? & _); lia|].
  destruct (Z.ltb_spec USER_MMAP_END (addr + n)); [apply Hbad; intros (_ & _ & _ & ?); lia|].
  assert (Hargs : munmap_args addr len) by (by split_and!).
  rewrite (vo_len _ Hvm). destruct (munmap_vmas 16 0 (vmas p) addr (addr + n) false) as [l' r] eqn:Hrun.
  destruct (decide (n = 0)) as [Hz|Hnz].
  { rewrite Hz, Z.add_0_r, munmap_vmas_empty in Hrun. injection Hrun as <- <-. simpl. wp_steps. left.
    split; [done|]. split; [done|]. exists (vmas p). split_and!; try done; [|by left].
    intros a q. fold n. intuition lia. }
  pose proof (munmap_vmas_spec addr (addr + n) Hal ltac:(Z.div_mod_to_equations; lia)
    ltac:(unfold USER_MMAP_END in *; lia) (vmas p) 16 0 (vmas p) false l' r) as Hspec.
  specialize (Hspec ltac:(lia) Hvm ltac:(intros; lia) eq_refl ltac:(done) ltac:(done) ltac:(done) ltac:(done) Hrun).
  destruct r as [c|].
  - destruct Hspec as (Hok' & Harea & Hsame). destruct c; simpl.
    + wp_step. rewrite Hsatp.
      eapply wp_mono; [apply release_range_full; try done; [Z.div_mod_to_equations; lia|unfold USER_MMAP_END in *; lia|lia]|].
      intros [] s' Hrel. wp_steps. left. split; [done|]. split; [done|]. exists l'. fold n. split_and!; try done.
      by right.
    + wp_steps. left. split; [done|]. split; [done|]. exists l'. fold n. split_and!; try done. left. auto.
  - destruct Hspec as (-> & Hfull & Hv). wp_steps. right. split; [done|]. simpl. rewrite set_vmas_id.
    split_and!; try done.
Qed.

(** ** [proc_mmap] *)

(** A mapping made at [addr]: the table gains exactly this area; what was
    there before is gone. *)
Definition mmap_done p addr n prot p' : Prop :=
  USER_MMAP_BASE ≤ addr ∧ addr + n ≤ USER_MMAP_END ∧ addr mod 4096 = 0 ∧ 0 < n ∧
  ∃ l', p' = set_vmas l' p ∧ vmas_ok l' ∧
    ∀ a q, area l' a q ↔ if decide (addr ≤ a < addr + n) then q = prot else area (vmas p) a q.

Lemma set_vmas_twice l l' p : set_vmas l (set_vmas l' p) = set_vmas l p.
Proof. done. Qed.

Lemma prot_test prot : is_u32 prot →
  negb (Z.land prot (not32 (Z.lor (Z.lor VMA_PROT_R VMA_PROT_W) VMA_PROT_X)) =? 0) || (prot =? 0) = false →
  0 < prot < 8.
Proof.
  intros Hu. change (Z.lor (Z.lor VMA_PROT_R VMA_PROT_W) VMA_PROT_X) with (2 ^ 3 - 1).
  rewrite land_not32_ones by (done || lia). change (2 ^ 3) with 8. unfold is_u32 in Hu.
  rewrite orb_false_iff, negb_false_iff, Z.eqb_eq, Z.eqb_neq. intros []. Z.div_mod_to_equations. lia.
Qed.

(** Entering the area into a table that is free there. *)
Lemma mmap_add_spec p addr n prot :
  vmas_ok (vmas p) → USER_MMAP_BASE ≤ addr → addr + n ≤ USER_MMAP_END → addr mod 4096 = 0 →
  n mod 4096 = 0 → 0 ≤ n → 0 < prot < 8 → free_range (vmas p) addr n →
  ∀ r p', mmap_add p addr n prot = (r, p') →
  (r = addr ∧ mmap_done p addr n prot p') ∨
  (r = -1 ∧ p' = p ∧ (0 < n → Forall (λ v, vma_used v = true) (vmas p))).
Proof.
  unfold USER_MMAP_BASE, USER_MMAP_END. intros Hok Hb He Hal Hn4 Hn Hprot Hfree r p'. unfold mmap_add.
  rewrite add32_small by lia. destruct (proc_add_vma _ _ _ _) as [l'|] eqn:Hadd; intros [= <- <-].
  - left. split; [apply to_int_id; unfold is_int; lia|].
    destruct (proc_add_vma_spec (vmas p) addr (addr + n) prot l') as (Hok' & _ & Harea); try done; try lia.
    assert (Hpos : 0 < n).
    { revert Hadd. unfold proc_add_vma. destruct (Z.leb_spec (addr + n) addr); [done|]. lia. }
    unfold mmap_done, USER_MMAP_BASE, USER_MMAP_END. split_and!; try done; try lia.
    exists l'. split_and!; try done. intros a q. rewrite Harea. case_decide as Hd.
    + split; [|by right]. intros [Ha|[_ ?]]; [|done]. by destruct (Hfree a q Hd).
    + split; [by intros [?|[? _]]|by left].
  - right. split_and!; try done. intros Hpos.
    destruct (proc_add_vma_None _ _ _ _ Hok Hadd) as [?|[?|[?|[(a & q & Ha & Hq)|?]]]]; try done; try lia.
    + exfalso. Z.div_mod_to_equations. lia.
    + by destruct (Hfree a q Ha).
Qed.

(** Why a call without [MAP_FIXED] may be refused. *)
Definition mmap_no_room p n : Prop :=
  n = 0 ∨ Forall (λ v, vma_used v = true) (vmas p) ∨
  ∀ a, USER_MMAP_BASE ≤ a → a + n ≤ USER_MMAP_END → ¬ free_range (vmas p) a n.

Lemma mmap_pick_spec l hint n :
  vmas_ok l → is_u32 hint → 0 ≤ n ≤ 4294963200 →
  ∃ r, mmap_pick l hint n = Some r ∧
  match r with
  | Some a => USER_MMAP_BASE ≤ a ∧ a + n ≤ USER_MMAP_END ∧ a mod 4096 = 0 ∧ free_range l a n
  | None => 0 < n → ∀ a, USER_MMAP_BASE ≤ a → a + n ≤ USER_MMAP_END → ¬ free_range l a n
  end.
Proof.
  unfold is_u32. intros Hok Hh Hn. unfold mmap_pick. destruct (_ && _) eqn:Hc.
  - exists (Some hint). split; [done|]. rewrite !andb_true_iff, !negb_true_iff in Hc.
    destruct Hc as [[[[[_ Hal] Hb] He] Hw] Hov]. unfold is_aligned, PAGE_SIZE in Hal.
    apply Z.eqb_eq in Hal. apply Z.leb_le in Hb, He, Hw.
    assert (Hadd : add32 hint n = hint + n).
    { destruct (Z.lt_ge_cases (hint + n) 4294967296); [apply add32_small; lia|].
      unfold add32, wrap32 in Hw. Z.div_mod_to_equations. lia. }
    rewrite Hadd in He, Hov. split_and!; try done.
    intros b q Hbr (i & v & Hi & Hu & Hvb & _). apply not_true_iff_false in Hov. apply Hov.
    apply existsb_exists. exists v. split; [by eapply list_elem_of_In, list_elem_of_lookup_2|].
    rewrite Hu. by zcases.
  - destruct (proc_find_free_mmap_range_spec l n Hok) as (r & Hr & Hspec); [lia|].
    exists r. split; [done|]. destruct r as [a|].
    + destruct Hspec as (? & ? & ? & ? & _). done.
    + intros Hpos a Hb He. by apply Hspec.
Qed.

Lemma proc_mmap_spec s p root hint len prot flags :
  process_space s p root → is_u32 hint → is_u32 len → is_u32 prot →
  wp (proc_mmap p hint len prot flags) (λ r s',
    (0 < r.1 ∧ 0 < prot < 8 ∧ mmap_done p r.1 (page_ceil len) prot r.2 ∧
       if has_bits flags MAP_FIXED then r.1 = hint
       else s' = s ∧ free_range (vmas p) r.1 (page_ceil len)) ∨
    (r.1 = -1 ∧ vmas_ok (vmas r.2) ∧
       (has_bits flags MAP_FIXED = false → r.2 = p ∧ s' = s ∧
          (0 < prot < 8 → len ≠ 0 → mmap_no_room p (page_ceil len))))) s.
Proof.
  intros Hps Hh Hl Hpr. pose proof Hps as [Husr Hsatp Hvm Hsp Hw].
  destruct (page_ceil_props len Hl) as (Hc4 & Hcb & Hc0).
  unfold proc_mmap. rewrite Husr. cbn [negb].
  destruct (Z.eqb_spec len 0) as [->|Hn0]; [wp_steps; right; by split_and!|].
  destruct (negb _ || _) eqn:Hpt.
  { wp_steps. right. split_and!; try done. intros _. split_and!; try done. intros Hb. exfalso.
    assert (Hc : prot ∈ [1; 2; 3; 4; 5; 6; 7]) by (rewrite !elem_of_cons; lia).
    repeat (apply elem_of_cons in Hc as [->|Hc]; [done|]). by apply elem_of_nil in Hc. }
  apply prot_test in Hpt; [|done]. set (n := page_ceil len) in *.
  destruct (has_bits flags MAP_FIXED) eqn:Hfx.
  - unfold is_aligned, PAGE_SIZE.
    destruct (Z.eqb_spec (hint mod 4096) 0) as [Hal|]; cbn [negb]; [|wp_steps; right; by split_and!].
    destruct (_ || _) eqn:Hrng; [wp_steps; right; by split_and!|].
    rewrite !orb_false_iff, !Z.ltb_ge in Hrng. destruct Hrng as [[Hb He] Hwr].
    unfold is_u32 in Hh.
    assert (Hadd : add32 hint n = hint + n).
    { destruct (Z.lt_ge_cases (hint + n) 4294967296); [apply add32_small; lia|].
      unfold add32, wrap32 in Hwr. Z.div_mod_to_equations. lia. }
    rewrite Hadd in He. assert (Hnid : page_ceil n = n).
    { apply page_ceil_id; [unfold is_u32; lia|done]. }
    wp_step. eapply wp_mono; [by apply (proc_munmap_spec s p root hint n); try done; unfold is_u32; lia|].
    intros [rc p1] s1 [[Hrc Hd]|[Hrc Hd]]; simpl in Hrc; subst rc; simpl in Hd; simpl.
    2: { destruct Hd as (-> & _). wp_steps. right. by split_and!. }
    destruct Hd as (_ & l' & -> & Hok' & Harea & _). rewrite Hnid in Harea.
    destruct (mmap_add (set_vmas l' p) hint n prot) as [r p2] eqn:Hadd2. wp_steps. simpl.
    destruct (mmap_add_spec (set_vmas l' p) hint n prot) with (r := r) (p' := p2)
      as [[-> Hd2]|(-> & -> & _)]; try done; try lia.
    { intros b q Hbr. simpl. rewrite Harea. tauto. }
    + left. unfold USER_MMAP_BASE in *. split; [lia|]. split; [done|]. split; [|done].
      destruct Hd2 as (? & ? & ? & ? & l2 & -> & Hok2 & Har2). split_and!; try done.
      exists l2. split_and!; try done. intros a q. rewrite Har2. simpl. case_decide; [done|].
      rewrite Harea. tauto.
    + right. by split_and!.
  - destruct (mmap_pick_spec (vmas p) hint n Hvm Hh Hcb) as (r & -> & Hr). destruct r as [a|].
    2: { wp_steps. right. split_and!; try done. intros _. split_and!; try done. intros _ _.
         destruct (decide (n = 0)); [by left|do 2 right]. apply Hr. lia. }
    destruct Hr as (Hb & He & Hal & Hfree).
    destruct (mmap_add p a n prot) as [r p2] eqn:Hadd2. wp_steps. simpl.
    destruct (mmap_add_spec p a n prot) with (r := r) (p' := p2) as [[-> Hd2]|(-> & -> & Hfull)]; try done; try lia.
    + left. split; [unfold USER_MMAP_BASE in *; lia|]. split; [done|]. by split_and!.
    + right. split_and!; try done. intros _. split_and!; try done. intros _ _.
      destruct (decide (n = 0)); [by left|right; left]. apply Hfull. lia.
Qed.

(** ** Page faults *)

(** The area of [va] grants [access]. *)
Definition granted p va access : Prop := ∃ prot, area (vmas p) va prot ∧ Z.land prot access = access.
(** The translation of [va] grants [access]. *)
Definition accessible s root va access : Prop :=
  ∃ pa pr, query_page (vmem s) root va = Some (pa, pr) ∧ Z.land pr (2 * access) = 2 * access.

(** Why a fault is refused: it is none of the three kinds of access, the area
    does not grant it, a mapped page lacks a right other than writing, or there
    are no two free pages (one for the contents, one for the table). *)
Definition refusable s p root va access : Prop :=
  access ∉ [VMA_PROT_R; VMA_PROT_W; VMA_PROT_X] ∨ ¬ granted p va access ∨
  (access ≠ VMA_PROT_W ∧ is_Some (query_page (vmem s) root va) ∧ ¬ accessible s root va access) ∨ no_two_pages s.

Definition fault_post s p root va access r s' : Prop :=
  fault_frame s root va s' ∧
  if decide (r = 0) then
    granted p va access ∧
    (∃ pa pr, query_page (vmem s') root va = Some (pa, pr) ∧ Z.land pr (2 * access) = 2 * access ∧
       (query_page (vmem s) root va = Some (pa, pr) ∨ (managed pa ∧ vm_refs s pa = 0))) ∧
    (∀ k, 0 ≤ k < 4096 → page_byte s' root va k = Some (default 0 (page_byte s root va k))) ∧
    (accessible s root va access → s' = s) ∧ (¬ accessible s root va access → served_counts s root va s')
  else r = -1 ∧ fault_refused s root va s' ∧ refusable s p root va access.

(** The rights of an area that grants [access] let the entry grant it. *)
Lemma access_bits prot access :
  access ∈ [1; 2; 4] → 0 < prot < 8 → Z.land prot access = access →
  Z.land (2 * prot + PTE_U) (2 * access) = 2 * access.
Proof.
  intros Ha Hp. assert (Hc : prot ∈ [1; 2; 3; 4; 5; 6; 7]) by (rewrite !elem_of_cons; lia).
  repeat (apply elem_of_cons in Ha as [->|Ha]);
    try (by apply elem_of_nil in Ha);
    repeat (apply elem_of_cons in Hc as [->|Hc]; [done|]); by apply elem_of_nil in Hc.
Qed.

Lemma served_post s p root va v access s' :
  access ∈ [1; 2; 4] → 0 < vma_prot v < 8 → area (vmas p) va (vma_prot v) →
  Z.land (vma_prot v) access = access → ¬ accessible s root va access →
  fault_frame s root va s' → fault_served s root va (vma_prot v) s' → served_counts s root va s' → fault_post s p root va access 0 s'.
Proof.
  intros Ha Hv Har Hn Hna Hf [[pa Hpa] Hb] Hc. split; [done|]. simpl. split_and!; [by eexists| |done|by intros|done].
  destruct Hpa as (Hpa & Hm & Hz). exists pa, (2 * vma_prot v + PTE_U). split; [done|]. split; [by apply access_bits|by right].
Qed.

Lemma write_bits prot : Z.land prot VMA_PROT_W = VMA_PROT_W → has_bits prot VMA_PROT_W = true.
Proof. unfold has_bits. by intros ->. Qed.

(** A single bit is there or not. *)
Lemma single_bit x i : 0 ≤ i → Z.land x (2 ^ i) = 0 ∨ Z.land x (2 ^ i) = 2 ^ i.
Proof.
  intros Hi. destruct (Z.testbit x i) eqn:E; [right|left]; apply Z.bits_inj'; intros j Hj;
    rewrite Z.land_spec, Z.pow2_bits_eqb, ?Z.bits_0 by lia;
    destruct (Z.eqb_spec i j) as [<-|]; rewrite ?E, ?andb_false_r; done.
Qed.
Lemma no_write_bit x : Z.land x (2 * VMA_PROT_W) ≠ 2 * VMA_PROT_W → has_bits x PTE_W_BIT = false.
Proof.
  unfold has_bits. change (2 * VMA_PROT_W) with (2 ^ 2). change PTE_W_BIT with (2 ^ 2). intros Hn.
  destruct (single_bit x 2) as [->|?]; done.
Qed.
Lemma write_bit x : has_bits x VMA_PROT_W = true → Z.land x VMA_PROT_W = VMA_PROT_W.
Proof. unfold has_bits. change VMA_PROT_W with (2 ^ 1). destruct (single_bit x 1) as [->|?]; done. Qed.

Lemma proc_handle_user_page_fault_spec s p root fault access :
  process_space s p root → is_u32 fault →
  (∀ pa pr, query_page (vmem s) root (page_floor fault) = Some (pa, pr) → frame_ok s root pa) →
  wp (proc_handle_user_page_fault p fault access)
    (fault_post s p root (page_floor fault) access) s.
Proof.
  intros [Husr Hsatp Hvm Hsp Hw] Hfa Hframe. unfold proc_handle_user_page_fault.
  rewrite Husr. cbn [negb]. set (va := page_floor fault) in *.
  assert (Hva : is_u32 va ∧ va mod 4096 = 0).
  { unfold va. rewrite page_floor_eq by done. unfold is_u32 in *. Z.div_mod_to_equations. lia. }
  destruct Hva as [Hva Hval].
  assert (Hno : refusable s p root va access → wp (kret (-1)) (fault_post s p root va access) s).
  { intros Hwhy. wp_steps. split; [by apply fault_frame_refl|]. simpl. split_and!; [done|apply refused_refl|done]. }
  destruct (negb (access =? VMA_PROT_X) && negb (access =? VMA_PROT_R) && negb (access =? VMA_PROT_W)) eqn:Hacc.
  { apply Hno. left. rewrite !elem_of_cons, elem_of_nil. rewrite !andb_true_iff, !negb_true_iff, !Z.eqb_neq in Hacc. tauto. }
  assert (Ha : access ∈ [1; 2; 4]).
  { rewrite !andb_false_iff, !negb_false_iff, !Z.eqb_eq in Hacc. unfold VMA_PROT_X, VMA_PROT_R, VMA_PROT_W in Hacc.
    rewrite !elem_of_cons. tauto. }
  assert (Hbits : prot_to_query_bits access = 2 * access).
  { clear -Ha. repeat (apply elem_of_cons in Ha as [->|Ha]); try done. by apply elem_of_nil in Ha. }
  destruct (proc_find_vma_index (vmas p) va) as [i|] eqn:Hi.
  2: { apply Hno. right; left. intros (q & Hq & _). by apply (find_vma_None _ _ _ Hi) in Hq. }
  destruct (find_vma_Some _ _ _ Hi) as (v & Hl & Hv). rewrite Hl.
  destruct (vo_wf _ Hvm i v Hl (proj1 Hv)) as (_ & _ & _ & _ & Hvp).
  assert (Har : area (vmas p) va (vma_prot v)) by (by exists i, v).
  destruct (Z.eqb_spec (Z.land (vma_prot v) access) access) as [Hn|Hn]; cbn [negb].
  2: { apply Hno. right; left. intros (q & Hq & Hqa). by rewrite (area_functional _ _ _ _ Hvm Hq Har) in Hqa. }
  unfold vm_query_user_page. pose proof Hsp as [Hs Hok]. pose proof (pt_root _ _ _ Hok) as [Hrm _].
  wp_steps. rewrite Hsatp, satp_root by eauto with kernel.
  destruct (query_page (vmem s) root va) as [[old mapped]|] eqn:Hq.
  - rewrite Hbits. destruct (Z.eqb_spec (Z.land mapped (2 * access)) (2 * access)) as [Hm|Hm].
    + wp_steps. split; [by apply fault_frame_refl|]. simpl. split_and!; [by eexists|exists old, mapped; by auto| |done|].
      * intros k Hk. unfold page_byte. by rewrite Hq.
      * intros []. by exists old, mapped.
    + assert (Hna : ¬ accessible s root va access).
      { intros (pa & pr & Hqa & Hb). rewrite Hq in Hqa. by injection Hqa as <- <-. }
      destruct (Z.eqb_spec access VMA_PROT_W) as [->|Hnw]; [|apply Hno; right; right; left; split_and!; [done|by rewrite Hq|done]].
      wp_step. eapply wp_mono; [apply (proc_try_cow_fault_spec s root va v old mapped); try done; [by eapply Hframe|by apply write_bits|by apply no_write_bit]|].
      intros r s' [Hf Hr]. destruct (Z.eqb_spec r 0) as [->|Hr0]; wp_steps.
      * simpl in Hr. destruct Hr. by apply (served_post s p root va v).
      * rewrite decide_False in Hr by done. destruct Hr as (_ & Hr & Hn2). split; [done|]. simpl. split_and!; try done. right; right. by right.
  - assert (Hna : ¬ accessible s root va access) by (intros (pa & pr & Hqa & _); by rewrite Hq in Hqa).
    eapply wp_mono; [by apply (demand_zero_spec s root va (vma_prot v))|].
    intros r s' [Hf Hr]. destruct (decide (r = 0)) as [->|Hr0].
    + destruct Hr. by apply (served_post s p root va v).
    + destruct Hr as (-> & Hr & Hn2). split; [done|]. simpl. split_and!; try done. right; right. by right.
Qed.

(** ** The initial areas *)

(** A list of ranges with rights, in the order they are entered. *)
Definition in_ranges (l : list (Z * Z * Z)) (a q : Z) : Prop :=
  ∃ st en, (st, en, q) ∈ l ∧ st ≤ a < en.

Lemma empty_table_ok : vmas_ok (replicate 16 zero_vma) ∧ ∀ a q, ¬ area (replicate 16 zero_vma) a q.
Proof.
  assert (Hn : ∀ i v a q, replicate 16 zero_vma !! i = Some v → ¬ area_in v a q).
  { intros i v a q [-> _]%lookup_replicate [? _]. done. }
  split; [split|].
  - done.
  - intros i v [-> _]%lookup_replicate. done.
  - intros i j v w a q q' Hi Hj Hv. by destruct (Hn i v a q).
  - intros a q (i & v & Hi & Hv). by eapply Hn.
Qed.

(** Entering disjoint ranges into a table with room for them. *)
Definition free_slots (l : list user_vma) : nat := length (filter (λ v, vma_used v = false) l).

Lemma free_slots_insert l i v w : l !! i = Some v → vma_used v = false → vma_used w = true →
  free_slots l = S (free_slots (<[i := w]> l)).
Proof.
  revert i. unfold free_slots. induction l as [|u l IH]; intros [|i] Hl Hv Hw; simpl in *; try done.
  - injection Hl as ->. rewrite !filter_cons, decide_True, decide_False by congruence. done.
  - rewrite !filter_cons. specialize (IH i Hl Hv Hw). case_decide; simpl; lia.
Qed.

Lemma free_slots_full l : Forall (λ v, vma_used v = true) l → free_slots l = 0%nat.
Proof.
  unfold free_slots. induction 1 as [|v l Hv Hl IH]; [done|].
  rewrite filter_cons, decide_False by congruence. done.
Qed.

Lemma add_vma_room l start end_ prot :
  vmas_ok l → 0 ≤ start < end_ → end_ < 4294967296 → start mod 4096 = 0 → end_ mod 4096 = 0 → 0 < prot < 8 →
  (∀ a q, start ≤ a < end_ → ¬ area l a q) → (0 < free_slots l)%nat →
  ∃ l', proc_add_vma l start end_ prot = Some l' ∧ vmas_ok l' ∧ free_slots l = S (free_slots l') ∧
    ∀ a q, area l' a q ↔ area l a q ∨ (start ≤ a < end_ ∧ q = prot).
Proof.
  intros Hok Hb He Hs4 He4 Hp Hfree Hroom. destruct (proc_add_vma l start end_ prot) as [l'|] eqn:Hadd.
  - exists l'. destruct (proc_add_vma_spec l start end_ prot l') as (Hok' & _ & Ha); try done; [lia|].
    split_and!; try done. revert Hadd. unfold proc_add_vma, proc_find_free_vma_slot. repeat case_match; try done.
    intros [= <-]. destruct (find_index_Some _ _ _ ltac:(eassumption)) as (v & Hi & Hu%negb_true_iff & _).
    by apply (free_slots_insert l _ v).
  - exfalso. destruct (proc_add_vma_None _ _ _ _ Hok Hadd) as [?|[?|[?|[(a & q & Ha & Hq)|Hfull]]]]; try lia.
    + by apply (Hfree a q).
    + rewrite (free_slots_full l Hfull) in Hroom. lia.
Qed.

(** The ranges [proc_vm_init] enters, last one first. *)
Definition init_ranges p : list (Z * Z * Z) :=
  [ (user_stack_base p, user_stack_base p + user_stack_pages p * 4096, 3);
    (user_bss_start, user_bss_end, 3); (user_data_start, user_data_end, 3);
    (user_rodata_start, user_rodata_end, 1); (user_text_start, user_text_end, 5) ].

(** A table that holds exactly the ranges [rs], with room for [k] more. *)
Definition holds (o : option (list user_vma)) (rs : list (Z * Z * Z)) (k : nat) : Prop :=
  ∃ l, o = Some l ∧ vmas_ok l ∧ (k ≤ free_slots l)%nat ∧ ∀ a q, area l a q ↔ in_ranges rs a q.

Lemma holds_add o rs k st en q :
  holds o rs (S k) → 0 ≤ st → en < 4294967296 → st mod 4096 = 0 → en mod 4096 = 0 → 0 < q < 8 →
  (∀ st' en' q', (st', en', q') ∈ rs → en ≤ st' ∨ en' ≤ st) →
  holds (add_vma_if o st en q) ((st, en, q) :: rs) k.
Proof.
  intros (l & -> & Hok & Hk & Ha) Hst Hen Hs4 He4 Hq Hdis. simpl.
  destruct (Z.ltb_spec st en) as [Hlt|Hge].
  - destruct (add_vma_room l st en q) as (l' & -> & Hok' & Hfs & Ha'); try done; try lia.
    { intros a q' Hb (st' & en' & Hin & Hb')%Ha. destruct (Hdis _ _ _ Hin); lia. }
    exists l'. split_and!; try done; [lia|]. intros a q'. rewrite Ha', Ha. unfold in_ranges. split.
    + intros [(st' & en' & Hin & Hb)|[Hb ->]]; [exists st', en'|exists st, en]; (split; [|done]); set_solver.
    + intros (st' & en' & [Heq|Hin]%elem_of_cons & Hb); [injection Heq as -> -> ->; by right|left; eauto].
  - exists l. split_and!; try done; [lia|]. intros a q'. rewrite Ha. unfold in_ranges. split.
    + intros (st' & en' & Hin & Hb). exists st', en'. split; [|done]. set_solver.
    + intros (st' & en' & [Heq|Hin]%elem_of_cons & Hb); [injection Heq as -> -> ->; lia|eauto].
Qed.

Lemma proc_vm_init_spec p :
  user_stack_base p mod 4096 = 0 → USER_MMAP_END ≤ user_stack_base p →
  0 ≤ user_stack_pages p → user_stack_base p + user_stack_pages p * 4096 ≤ 1073741824 →
  ∃ p', proc_vm_init p = Some p' ∧ vmas_ok (vmas p') ∧ p' = set_vmas (vmas p') p ∧
    ∀ a q, area (vmas p') a q ↔ in_ranges (init_ranges p) a q.
Proof.
  unfold USER_MMAP_END. intros Hb4 Hb Hn He.
  pose proof lo_text. pose proof lo_rodata. pose proof lo_user_rodata. pose proof lo_rodata_end.
  pose proof lo_data. pose proof lo_bss. pose proof lo_free. pose proof lo_fits.
  pose proof lo_aligned as Hal. rewrite !Forall_cons in Hal.
  unfold proc_vm_init, PAGE_SIZE. rewrite mul32_small, add32_small by lia.
  rewrite !page_floor_id, !page_ceil_id by (unfold is_u32; (tauto || lia)).
  assert (Hh : holds (Some (replicate 16 zero_vma)) [] 5).
  { destruct empty_table_ok as [Hok Hn0]. eexists. split; [done|]. split; [done|].
    split; [vm_compute; lia|]. intros a q. split; [by intros ?%Hn0|].
    intros (st & en & Hin & _). by apply elem_of_nil in Hin. }
  apply (holds_add _ _ _ user_text_start user_text_end 5) in Hh; try (tauto || lia); [|set_solver].
  apply (holds_add _ _ _ user_rodata_start user_rodata_end 1) in Hh; try (tauto || lia);
    [|intros ? ? ?; rewrite !elem_of_cons, elem_of_nil; intros [[= -> -> ->]|[]]; lia].
  apply (holds_add _ _ _ user_data_start user_data_end 3) in Hh; try (tauto || lia);
    [|intros ? ? ?; rewrite !elem_of_cons, elem_of_nil; intros [[= -> -> ->]|[[= -> -> ->]|[]]]; lia].
  apply (holds_add _ _ _ user_bss_start user_bss_end 3) in Hh; try (tauto || lia);
    [|intros ? ? ?; rewrite !elem_of_cons, elem_of_nil;
      intros [[= -> -> ->]|[[= -> -> ->]|[[= -> -> ->]|[]]]]; lia].
  apply (holds_add _ _ _ (user_stack_base p) (user_stack_base p + user_stack_pages p * 4096) 3) in Hh;
    try (tauto || lia); [|Z.div_mod_to_equations; lia|intros ? ? ?; rewrite !elem_of_cons, elem_of_nil;
      intros [[= -> -> ->]|[[= -> -> ->]|[[= -> -> ->]|[[= -> -> ->]|[]]]]]; lia].
  destruct Hh as (l & Hl & Hok & _ & Ha). change (Z.lor VMA_PROT_R VMA_PROT_X) with 5.
  change (Z.lor VMA_PROT_R VMA_PROT_W) with 3. change VMA_PROT_R with 1. rewrite Hl. simpl.
  exists (set_vmas l p). by split_and!.
Qed.

(** ** The theorems *)

(** the access check of the system calls.  [proc_vma_range_ok] terminates
    within one round per area and accepts a range exactly when the process is
    a user process, the range is not empty and does not reach the end of the
    address space, and every single byte of it lies in an area with the rights
    asked for. *)
Theorem proc_vma_range_ok_correct p addr len need :
  vmas_ok (vmas p) → is_u32 addr → is_u32 len →
  ∃ b, proc_vma_range_ok p addr len need = Some b ∧
    (b = true ↔ is_user p = true ∧ 0 < len ∧ addr + len < 4294967296 ∧
      ∀ a, addr ≤ a < addr + len → ∃ q, area (vmas p) a q ∧ Z.land q need = need).
Proof. apply proc_vma_range_ok_spec. Qed.

(** C3: [proc_munmap] either succeeds or changes nothing at all.  On success
    the areas are the old ones without the range, they stay well formed, and
    either the range met no area or every page of it lost its translation and
    its frame one reference (a last one is kept only with the allocator's
    metadata warning), while all other translations, counts and contents are
    kept.  With valid arguments it fails only when an area around the whole
    range would have to be split and the table is full. *)
Theorem proc_munmap_correct s p root addr len :
  process_space s p root → is_u32 addr → is_u32 len →
  wp (proc_munmap p addr len) (λ r s',
    (r.1 = 0 ∧ munmap_done s p root addr len r.2 s') ∨
    (r.1 = -1 ∧ munmap_refused s p addr len r.2 s')) s.
Proof. apply proc_munmap_spec. Qed.

(** C9: [proc_mmap] returns the address of a whole-page range of the mmap
    window that now has exactly the rights asked for, all other areas being
    as before: the fixed address with [MAP_FIXED], otherwise a range that was
    free, with no page table touched.  Without [MAP_FIXED] a refusal changes
    nothing and valid arguments are refused only when the rounded length is
    zero, no range of the window is free or the table is full.  The table is
    well formed in every case. *)
Theorem proc_mmap_correct s p root hint len prot flags :
  process_space s p root → is_u32 hint → is_u32 len → is_u32 prot →
  wp (proc_mmap p hint len prot flags) (λ r s',
    (0 < r.1 ∧ 0 < prot < 8 ∧ mmap_done p r.1 (page_ceil len) prot r.2 ∧
       if has_bits flags MAP_FIXED then r.1 = hint
       else s' = s ∧ free_range (vmas p) r.1 (page_ceil len)) ∨
    (r.1 = -1 ∧ vmas_ok (vmas r.2) ∧
       (has_bits flags MAP_FIXED = false → r.2 = p ∧ s' = s ∧
          (0 < prot < 8 → len ≠ 0 → mmap_no_room p (page_ceil len))))) s.
Proof. apply proc_mmap_spec. Qed.

(** C6: a page fault of a user process whose space is well formed, at an
    address whose page, if it has one, is in use or part of the image.  Result 0
    means that the area grants the right asked for, that the faulting page now
    translates with this right, as it did (then nothing has changed) or to a page
    that was free, and that its contents are the old ones (a private copy for
    copy-on-write) or zero if it had no page.  The new page has one reference, a
    page it replaces has lost one, and no other count changes but that of free
    pages taken for the page table.  Result -1 is given only if the access is
    none of the three kinds, if the area does not grant it, if a mapped page
    lacks a right other than writing, or if the allocator cannot give two pages;
    the translation is left alone and every count is as before (the page taken
    and given back stays in use only with the allocator's metadata warning).  In
    both cases no other page of the space changes its translation and no frame in
    use its contents. *)
Theorem proc_handle_user_page_fault_correct s p root fault access :
  process_space s p root → is_u32 fault →
  (∀ pa pr, query_page (vmem s) root (page_floor fault) = Some (pa, pr) → frame_ok s root pa) →
  wp (proc_handle_user_page_fault p fault access)
    (fault_post s p root (page_floor fault) access) s.
Proof. apply proc_handle_user_page_fault_spec. Qed.

(** [proc_vm_init] never fails for a stack between the mmap window and
    [USER_STACK_TOP]; the areas it sets up are exactly the text, read-only
    data, data and bss segments and the stack with their rights. *)
Theorem proc_vm_init_correct p :
  user_stack_base p mod 4096 = 0 → USER_MMAP_END ≤ user_stack_base p →
  0 ≤ user_stack_pages p → user_stack_base p + user_stack_pages p * 4096 ≤ 1073741824 →
  ∃ p', proc_vm_init p = Some p' ∧ vmas_ok (vmas p') ∧ p' = set_vmas (vmas p') p ∧
    ∀ a q, area (vmas p') a q ↔ in_ranges (init_ranges p) a q.
Proof. apply proc_vm_init_spec. Qed.

(** Rounding the length of [proc_munmap] up can wrap to zero: a length
    above [0xfffff000] is accepted with result 0 and nothing is unmapped. *)
Theorem proc_munmap_length_wraps s p addr len :
  is_user p = true → addr mod 4096 = 0 → USER_MMAP_BASE ≤ addr ≤ USER_MMAP_END →
  4294963200 < len < 4294967296 → proc_munmap p addr len s = Done ((0, p), s).
Proof.
  unfold USER_MMAP_BASE, USER_MMAP_END. intros Hu Ha Hb Hl.
  unfold proc_munmap, is_aligned, PAGE_SIZE. rewrite Hu, Ha. cbn [negb].
  destruct (Z.eqb_spec len 0); [lia|].
  assert (page_ceil len = 0) as -> by (apply page_ceil_props; unfold is_u32; lia).
  rewrite add32_small, Z.add_0_r by lia. unfold USER_MMAP_BASE, USER_MMAP_END.
  destruct (Z.ltb_spec addr addr); [lia|]. destruct (Z.ltb_spec addr 536870912); [lia|].
  destruct (Z.ltb_spec 1056964608 addr); [lia|]. simpl. rewrite munmap_vmas_empty. simpl.
  by rewrite set_vmas_id.
Qed.
End props.

(** ** Concrete instances *)

Section demo.
#[local] Existing Instance demo_layout.
#[local] Existing Instance demo_layout_ok.

(** One area of three pages at the bottom of the window. *)
Definition demo_vmas : list user_vma :=
  UserVma true 536870912 536883200 3 :: replicate 15 zero_vma.

Lemma demo_vmas_ok : vmas_ok demo_vmas.
Proof.
  destruct empty_table_ok as [Hok _].
  by apply (proc_add_vma_spec (replicate 16 zero_vma) 536870912 536883200 3).
Qed.

Definition demo_proc (root : Z) : process :=
  Process 2 PROC_RUNNABLE 4 4 1 0 true 0 1073733632 0 2 (replicate 16 0) true 0 (vm_make_satp root)
    zero_frame demo_vmas (replicate 16 zero_fd).

(** The kernel's own space has no page in the window. *)
Lemma demo_window (s : vm_state alloc_state) va :
  kernel_space s → 536870912 ≤ va < 1073741824 → query_page (vmem s) (kernel_root_pt s) va = None.
Proof.
  intros Hks Hb. rewrite (ks_map _ Hks) by (unfold is_u32; lia). unfold kernel_map. by zcases.
Qed.

Lemma demo_process_space :
  ∃ s : vm_state alloc_state, kernel_space s ∧ process_space s (demo_proc (kernel_root_pt s)) (kernel_root_pt s).
Proof.
  destruct demo_kernel as (s & _ & Hok & Hks). exists s. split; [exact Hks|].
  split; [done..|apply demo_vmas_ok| |].
  - split; [done|]. by apply demo_kernel_pt.
  - split.
    + intros va pa pr [_ Hb]. by rewrite demo_window.
    + intros va va' pa pr pr' [_ Hb] _. by rewrite demo_window.
Qed.

Lemma proc_vma_range_ok_correct_witness :
  ∃ b, proc_vma_range_ok (demo_proc 0) 536870912 8192 2 = Some b ∧
    (b = true ↔ is_user (demo_proc 0) = true ∧ 0 < 8192 ∧ 536870912 + 8192 < 4294967296 ∧
      ∀ a, 536870912 ≤ a < 536870912 + 8192 →
        ∃ q, area (vmas (demo_proc 0)) a q ∧ Z.land q 2 = 2).
Proof. apply proc_vma_range_ok_correct; [exact demo_vmas_ok|done|done]. Defined.

Lemma proc_munmap_correct_witness :
  ∃ s : vm_state alloc_state, ∃ root,
    wp (proc_munmap (demo_proc root) 536875008 4096) (λ r s',
      (r.1 = 0 ∧ munmap_done s (demo_proc root) root 536875008 4096 r.2 s') ∨
      (r.1 = -1 ∧ munmap_refused s (demo_proc root) 536875008 4096 r.2 s')) s.
Proof.
  destruct demo_process_space as (s & _ & Hps). exists s, (kernel_root_pt s).
  apply proc_munmap_correct; [exact Hps|done|done].
Defined.

Lemma proc_mmap_correct_witness :
  ∃ s : vm_state alloc_state, ∃ root, let p := demo_proc root in
    wp (proc_mmap p 0 5000 3 0) (λ r s',
      (0 < r.1 ∧ 0 < 3 < 8 ∧ mmap_done p r.1 (page_ceil 5000) 3 r.2 ∧
         if has_bits 0 MAP_FIXED then r.1 = 0
         else s' = s ∧ free_range (vmas p) r.1 (page_ceil 5000)) ∨
      (r.1 = -1 ∧ vmas_ok (vmas r.2) ∧
         (has_bits 0 MAP_FIXED = false → r.2 = p ∧ s' = s ∧
            (0 < 3 < 8 → 5000 ≠ 0 → mmap_no_room p (page_ceil 5000))))) s.
Proof.
  destruct demo_process_space as (s & _ & Hps). exists s, (kernel_root_pt s).
  apply (proc_mmap_correct s (demo_proc (kernel_root_pt s)) (kernel_root_pt s)); [exact Hps|done|done|done].
Defined.

Lemma proc_handle_user_page_fault_correct_witness :
  ∃ s : vm_state alloc_state, ∃ root,
    wp (proc_handle_user_page_fault (demo_proc root) 536875012 2)
      (fault_post s (demo_proc root) root (page_floor 536875012) 2) s.
Proof.
  destruct demo_process_space as (s & Hks & Hps). exists s, (kernel_root_pt s).
  apply proc_handle_user_page_fault_correct; [exact Hps|done|].
  intros pa pr Hq. rewrite demo_window in Hq; [discriminate Hq|exact Hks|].
  change (page_floor 536875012) with 536875008. lia.
Defined.

Lemma proc_vm_init_correct_witness :
  ∃ p', proc_vm_init (demo_proc 0) = Some p' ∧ vmas_ok (vmas p') ∧ p' = set_vmas (vmas p') (demo_proc 0) ∧
    ∀ a q, area (vmas p') a q ↔ in_ranges (init_ranges (demo_proc 0)) a q.
Proof.
  apply proc_vm_init_correct; [reflexivity|unfold USER_MMAP_END; simpl; lia|simpl; lia|simpl; lia].
Defined.

Lemma proc_munmap_length_wraps_witness :
  proc_munmap (demo_proc 0) 536870912 4294963201 boot_vm = Done ((0, demo_proc 0), boot_vm).
Proof. apply proc_munmap_length_wraps; [done|done|unfold USER_MMAP_BASE, USER_MMAP_END; lia|lia]. Defined.
End demo.
