(* ===== verification/ProcessVmRelease.v ===== *)
(** * Giving an address space back: [proc_vm_release] and [proc_vm_reset]

    [given_back] generalises [released] from a range to a set of pages. *)

From S2P Require Import Prelude Layout KString PageAlloc PageAllocSpec PageIface PageAllocProps.
From S2P Require Import Vm VmSpec VmBoot VmProps Proc ProcessVm ProcessVmSpec ProcessVmPages ProcessVmProps.

Definition in_range (lo hi va : Z) : bool := (lo <=? va) && (va <? hi).
(** The areas whose pages are given back, those inside the mmap window. *)
Definition window_area (v : user_vma) : bool := vma_used v && (USER_MMAP_BASE <=? vma_start v) && (vma_end v <=? USER_MMAP_END).
Definition window_areas (l : list user_vma) (va : Z) : bool := existsb (λ v, window_area v && in_range (vma_start v) (vma_end v) va) l.

Section release.
Context {L : Layout} {LOK : LayoutOk} {P : Type} {PO : PageOps P} {POK : PageOpsOk P}.
Implicit Types (s : vm_state P) (A B : Z → bool).

Definition backed s root A q : Prop := ∃ va pr, window_page va ∧ A va = true ∧ query_page (vmem s) root va = Some (q, pr).

(** The pages of the set [A] are gone: no translation is left there and all others stay; each frame behind one loses a reference
    ([ref_dropped]: it keeps its last one only with the allocator's warning), no other does; only the table is written. *)
Record given_back s root A s' : Prop := {
  gb_space : space_ok s' root;
  gb_globals : same_globals s s';
  gb_window : window_ok s' root;
  gb_query : ∀ va, is_u32 va → query_page (vmem s') root va = if A va then None else query_page (vmem s) root va;
  gb_dropped : ∀ q, managed q → backed s root A q → ref_dropped s s' q;
  gb_others : ∀ q, managed q → ¬ backed s root A q → vm_refs s' q = vm_refs s q;
  gb_data : ∀ x, (∀ t, pt_page (vmem s) root t → ¬ in_block t 1 x) → rd (vmem s') x = rd (vmem s) x;
  gb_tables : ∀ t, pt_page (vmem s') root t ↔ pt_page (vmem s) root t;
}.

Lemma given_back_range s root lo hi s' : released s root lo hi s' → given_back s root (in_range lo hi) s'.
Proof.
  assert (Hb : ∀ q, backed s root (in_range lo hi) q ↔ backs s root lo hi q).
  { intros q. unfold backed, backs, in_range. setoid_rewrite andb_true_iff. setoid_rewrite Z.leb_le. setoid_rewrite Z.ltb_lt. done. }
  intros [H1 H2 H3 H4 H5 H6 H7 H8]. split; try done.
  - intros q Hm Hq%Hb. auto.
  - intros q Hm Hq. rewrite Hb in Hq. auto.
Qed.

Lemma given_back_refl s root A : space_ok s root → window_ok s root → (∀ va, A va = false) → given_back s root A s.
Proof.
  intros Hs Hw HA. split; try done.
  - intros va _. by rewrite HA.
  - intros q _ (va & pr & _ & H & _). by rewrite HA in H.
Qed.

Lemma given_back_ext s root A B s' : (∀ va, A va = B va) → given_back s root A s' → given_back s root B s'.
Proof.
  intros He. assert (Hb : ∀ q, backed s root B q ↔ backed s root A q) by (intros q; unfold backed; by setoid_rewrite He).
  intros [H1 H2 H3 H4 H5 H6 H7 H8]. split; try done.
  - intros va Hva. rewrite <-He. auto.
  - intros q Hm Hq%Hb. auto.
  - intros q Hm Hq. rewrite Hb in Hq. auto.
Qed.

Lemma given_back_trans s s1 s2 root A B : window_ok s root → given_back s root A s1 → given_back s1 root B s2 →
  given_back s root (λ va, A va || B va) s2.
Proof.
  intros Hw H1 H2.
  assert (Hb1 : ∀ q, backed s1 root B q ↔ ∃ va pr, window_page va ∧ A va = false ∧ B va = true ∧ query_page (vmem s) root va = Some (q, pr)).
  { intros q. split.
    - intros (va & pr & Hwv & HB & Hq). rewrite (gb_query _ _ _ _ H1) in Hq by (by apply window_u32). destruct (A va) eqn:HA; [done|]. by exists va, pr.
    - intros (va & pr & Hwv & HA & HB & Hq). exists va, pr. split_and!; try done. rewrite (gb_query _ _ _ _ H1) by (by apply window_u32). by rewrite HA. }
  assert (Hb2 : ∀ q, backed s root (λ va, A va || B va) q ↔ backed s root A q ∨ backed s1 root B q).
  { intros q. rewrite Hb1. split.
    - intros (va & pr & Hwv & Hor & Hq). destruct (A va) eqn:HA; [left|right]; exists va, pr; auto.
    - intros [(va & pr & Hwv & HA & Hq)|(va & pr & Hwv & HA & HB & Hq)]; exists va, pr; rewrite HA; auto. }
  assert (Hexcl : ∀ q, backed s root A q → ¬ backed s1 root B q).
  { intros q (va & pr & Hwv & HA & Hq). rewrite Hb1. intros (va' & pr' & Hwv' & HA' & _ & Hq').
    assert (va = va') by (by eapply (wo_inj _ _ Hw)). congruence. }
  split; [apply H2|etrans; [apply H1|apply H2]|apply H2|..].
  - intros va Hva. rewrite (gb_query _ _ _ _ H2), (gb_query _ _ _ _ H1) by done. by destruct (A va), (B va).
  - intros q Hm [Hq|Hq]%Hb2.
    + unfold ref_dropped. rewrite (gb_others _ _ _ _ H2 q Hm (Hexcl q Hq)).
      destruct (gb_dropped _ _ _ _ H1 q Hm Hq) as [?|(? & ? & ?)]; [by left|right]. split_and!; try done. by apply (sg_warned _ _ (gb_globals _ _ _ _ H2)).
    + unfold ref_dropped. rewrite <-(gb_others _ _ _ _ H1 q Hm); [by apply H2|]. intros ?. by eapply Hexcl.
  - intros q Hm Hq. rewrite Hb2 in Hq. rewrite (gb_others _ _ _ _ H2 q Hm), (gb_others _ _ _ _ H1 q Hm); tauto.
  - intros x Hx. rewrite (gb_data _ _ _ _ H2); [by apply H1|]. intros t. rewrite (gb_tables _ _ _ _ H1). apply Hx.
  - intros t. rewrite (gb_tables _ _ _ _ H2). apply H1.
Qed.

(** ** The loops *)
Lemma release_vmas_spec root : ∀ l s, space_ok s root → window_ok s root → Forall vma_wf l →
  wp (release_vmas (vm_make_satp root) l) (λ _ s', given_back s root (window_areas l) s') s.
Proof.
  intros l. induction l as [|v l IH]; intros s Hs Hw Hl; cbn [release_vmas]; [wp_steps; by apply given_back_refl|].
  inversion_clear Hl as [|? ? Hv Hl']. wp_step.
  apply (wp_mono _ (λ _ s1, given_back s root (λ va, window_area v && in_range (vma_start v) (vma_end v) va) s1)).
  - unfold window_area. destruct (vma_used v) eqn:Hu; cbn [negb andb]; [|wp_steps; by apply given_back_refl].
    destruct (Hv Hu) as (Hb & He & Hs4 & He4 & _).
    destruct (Z.ltb_spec (vma_start v) USER_MMAP_BASE); [wp_steps; apply given_back_refl; try done; intros va; by zcases|].
    destruct (Z.ltb_spec USER_MMAP_END (vma_end v)); cbn [orb]; [wp_steps; apply given_back_refl; try done; intros va; by zcases|].
    eapply wp_mono; [apply release_range_full; try (done || lia); unfold USER_MMAP_END in *; lia|]. intros [] s1 H1.
    eapply given_back_ext; [|by apply given_back_range]. intros va. cbv beta. by zcases.
  - intros [] s1 H1. eapply wp_mono; [apply IH; try done; apply H1|]. intros [] s2 H2. by apply (given_back_trans s s1).
Qed.

Lemma release_stack_spec root base : base mod 4096 = 0 → USER_MMAP_BASE ≤ base → ∀ k i s,
  space_ok s root → window_ok s root → 0 ≤ i → base + (i + Z.of_nat k) * 4096 ≤ 1073741824 →
  wp (release_stack k i (vm_make_satp root) base) (λ _ s', given_back s root (in_range (base + i * 4096) (base + (i + Z.of_nat k) * 4096)) s') s.
Proof.
  intros Hb4 Hb k. induction k as [|k IH]; intros i s Hs Hw Hi He; cbn [release_stack].
  - wp_steps. apply given_back_refl; try done. intros va. unfold in_range. by zcases.
  - unfold PAGE_SIZE. unfold USER_MMAP_BASE in *. rewrite mul32_small, add32_small by lia. wp_step.
    eapply wp_mono; [apply release_page_spec; try done; unfold window_page, USER_MMAP_BASE; split; [Z.div_mod_to_equations; lia|lia]|].
    intros [] s1 H1%given_back_range. eapply wp_mono; [apply IH; try apply H1; lia|]. intros [] s2 H2.
    eapply given_back_ext; [|by apply (given_back_trans s s1 s2 root _ _ Hw H1 H2)].
    intros va. unfold in_range. cbv beta. zcases; try done; lia.
Qed.

(** ** [proc_vm_release] *)

(** The stack lies in the private part. *)
Definition stack_ok (p : process) : Prop :=
  user_stack_base p mod 4096 = 0 ∧ USER_MMAP_BASE ≤ user_stack_base p ∧ 0 ≤ user_stack_pages p ∧
  user_stack_base p + user_stack_pages p * 4096 ≤ 1073741824.
Definition released_pages (p : process) (va : Z) : bool :=
  window_areas (vmas p) va || in_range (user_stack_base p) (user_stack_base p + user_stack_pages p * 4096) va.

Lemma vmas_wf l : vmas_ok l → Forall vma_wf l.
Proof. intros Hok. apply Forall_forall. intros v [i Hi]%list_elem_of_lookup. by eapply (vo_wf _ Hok). Qed.

Lemma proc_vm_release_spec s p root : process_space s p root → stack_ok p →
  wp (proc_vm_release p) (λ _ s', given_back s root (released_pages p) s') s.
Proof.
  intros [Hus Hsatp Hvm Hsp Hw] (Hb4 & Hb & Hn & He). pose proof Hsp as [_ Hok]. pose proof (pt_root _ _ _ Hok) as [Hrm _].
  unfold proc_vm_release. rewrite Hus, Hsatp. cbn [negb]. wp_step. eapply wp_mono; [apply release_vmas_spec; try done; by apply vmas_wf|].
  intros [] s1 H1. rewrite (proj2 (Z.eqb_neq _ _)) by apply make_satp_nonzero.
  eapply wp_mono; [apply release_stack_spec; try done; [apply H1|apply H1|lia]|]. intros [] s2 H2.
  eapply given_back_ext; [|by apply (given_back_trans s s1 s2 root _ _ Hw H1 H2)]. intros va. unfold released_pages.
  rewrite Z2Nat.id by lia. by rewrite Z.mul_0_l, Z.add_0_r, Z.add_0_l.
Qed.

(** A process that never got a table has only its stack to give back. *)
Lemma proc_vm_release_unbuilt s p : is_user p = true → satp p = 0 → Forall (λ v, vma_used v = false) (vmas p) → vm_ok s →
  0 < user_stack_pages p → user_stack_paddr p mod 4096 = 0 → free_ram ≤ user_stack_paddr p → user_stack_paddr p + user_stack_pages p * 4096 ≤ free_ram_end →
  (∀ q, managed q → in_block (user_stack_paddr p) (user_stack_pages p) q → vm_refs s q ≠ 0) →
  wp (proc_vm_release p) (λ _ s', vm_ok s' ∧ same_globals s s' ∧ vmem s' = vmem s ∧
    pg_dropped (vm_refs s) (vm_refs s') (vm_warned s) (vm_warned s') (user_stack_paddr p) (user_stack_pages p)) s.
Proof.
  intros Hus Hsatp Hun Hok Hn H4 Hlo Hhi Hr. unfold proc_vm_release. rewrite Hus, Hsatp. cbn [negb].
  assert (Hno : wp (release_vmas 0 (vmas p)) (λ _ s', s' = s) s).
  { induction Hun as [|v l Hv Hl IH]; cbn [release_vmas]; [by wp_steps|]. rewrite Hv. cbn [negb]. wp_steps. exact IH. }
  wp_step. eapply wp_mono; [exact Hno|]. intros [] ? ->. pose proof free_ram_bounds. rewrite Z.eqb_refl, (proj2 (Z.eqb_neq _ _)), (proj2 (Z.ltb_lt _ _)) by lia. cbn [negb andb].
  apply wp_on_pages. eapply wp_mono; [by apply pg_free_spec|]. intros [] q (? & ? & Hd).
  split_and!; try done. apply same_globals_pages, Hd.
Qed.

(** ** [proc_vm_reset] *)
Lemma reset_vmas_spec root : ∀ l s, space_ok s root → window_ok s root → Forall vma_wf l →
  wp (reset_vmas (vm_make_satp root) l) (λ l' s', given_back s root (window_areas l) s' ∧ l' = (λ v, if window_area v then zero_vma else v) <$> l) s.
Proof.
  intros l. induction l as [|v l IH]; intros s Hs Hw Hl; cbn [reset_vmas]; [wp_steps; split; [by apply given_back_refl|done]|].
  inversion_clear Hl as [|? ? Hv Hl'].
  assert (Hskip : window_area v = false → wp (let! r := reset_vmas (vm_make_satp root) l in kret (v :: r)) (λ l' s', given_back s root (window_areas (v :: l)) s' ∧
    l' = (λ v, if window_area v then zero_vma else v) <$> v :: l) s).
  { intros Hn. wp_step. eapply wp_mono; [by apply IH|]. intros l' s' [H1 ->]. wp_steps. rewrite fmap_cons, Hn. split; [|done].
    eapply given_back_ext; [|exact H1]. intros va. cbn [window_areas existsb]. by rewrite Hn. }
  unfold window_area in Hskip at 1. destruct (vma_used v) eqn:Hu; cbn [negb andb] in *; [|by apply Hskip].
  destruct ((USER_MMAP_BASE <=? vma_start v) && (vma_end v <=? USER_MMAP_END)) eqn:Hin; [|by apply Hskip].
  destruct (Hv Hu) as (Hb & He & Hs4 & He4 & _). pose proof Hin as [Hi1%Z.leb_le Hi2%Z.leb_le]%andb_true_iff.
  assert (Hwa : window_area v = true) by (unfold window_area; by rewrite Hu).
  wp_step. eapply wp_mono; [apply release_range_full; try (done || lia); unfold USER_MMAP_END in *; lia|]. intros [] s1 H1%given_back_range.
  wp_step. eapply wp_mono; [apply IH; try done; apply H1|]. intros l' s2 [H2 ->]. wp_steps. rewrite fmap_cons, Hwa. split; [|done].
  eapply given_back_ext; [|by apply (given_back_trans s s1 s2 root _ _ Hw H1 H2)]. intros va. cbn [window_areas existsb]. by rewrite Hwa.
Qed.

(** [exec] starts from the initial areas: [proc_vm_reset] gives back the pages of the mmap areas and forgets these areas, and keeps all others. *)
Theorem proc_vm_reset_correct s p root : process_space s p root →
  wp (proc_vm_reset p) (λ p' s', given_back s root (window_areas (vmas p)) s' ∧ vmas_ok (vmas p') ∧ p' = set_vmas (vmas p') p ∧
    ∀ a q, area (vmas p') a q ↔ ∃ i v, vmas p !! i = Some v ∧ area_in v a q ∧ window_area v = false) s.
Proof.
  intros [Hus Hsatp Hvm Hsp Hw]. unfold proc_vm_reset. rewrite Hsatp. wp_step.
  eapply wp_mono; [apply reset_vmas_spec; try done; by apply vmas_wf|]. intros l s' [H1 ->]. wp_steps. split; [done|]. cbn [vmas set_vmas].
  assert (Hl : ∀ i w a q, ((λ v, if window_area v then zero_vma else v) <$> vmas p) !! i = Some w → area_in w a q → vmas p !! i = Some w ∧ window_area w = false).
  { intros i w a q Hi Ha. rewrite list_lookup_fmap in Hi. destruct (vmas p !! i) as [v|]; [|done]. injection Hi as <-.
    destruct (window_area v) eqn:E; [by destruct Ha as [? _]|done]. }
  split; [|split; [done|]].
  - destruct Hvm as [H2 H3 H4]. split.
    + by rewrite length_fmap.
    + intros i w Hi Hu. assert (E : vmas p !! i = Some w); [|by apply (H3 i w E)]. rewrite list_lookup_fmap in Hi. destruct (vmas p !! i) as [v|]; [|done].
      injection Hi as <-. by destruct (window_area v).
    + intros i j v w a q q' Hi Hj Ha Hb. apply (H4 i j v w a q q'); try done; [by eapply Hl|by eapply (Hl j)].
  - intros a q. split.
    + intros (i & v & Hi & Ha). exists i, v. destruct (Hl i v a q Hi Ha). done.
    + intros (i & v & Hi & Ha & E). exists i, v. split; [|done]. rewrite list_lookup_fmap, Hi. simpl. by rewrite E.
Qed.
End release.
