(* ===== verification/ProcessVmClone.v ===== *)
(** * The address space of a child: [proc_vm_clone], and giving a space back: [proc_vm_release]

    A clone makes the pages of the writable areas shared and read-only in both spaces.  [cloned] says what that
    does to the two translations, to the reference counts and to the contents of pages; it composes over pages,
    ranges and areas. *)

From S2P Require Import Prelude Layout KString PageAlloc PageAllocSpec PageIface PageAllocProps.
From S2P Require Import Vm VmSpec VmBoot VmProps Proc ProcessVm ProcessVmSpec ProcessVmPages ProcessVmProps.

Definition user_page (va : Z) : Prop := is_u32 va ∧ va mod 4096 = 0.

(** Pages with the rights they are mapped with. *)
Abbreviation marks := (Z → option Z).
Definition no_marks : marks := λ _, None.
Definition mark (va cow : Z) : marks := λ va', if va' =? va then Some cow else None.
Definition join (D1 D2 : marks) : marks := λ va, match D1 va with Some c => Some c | None => D2 va end.

Definition range_marks (lo hi cow : Z) : marks := λ va, if (lo <=? va) && (va <? hi) then Some cow else None.
(** The pages of the writable areas, with the rights less that to write. *)
Fixpoint area_marks (l : list user_vma) : marks := λ va,
  match l with
  | [] => None
  | v :: l' =>
      if vma_used v && has_bits (vma_prot v) VMA_PROT_W && ((vma_start v <=? va) && (va <? vma_end v))
      then Some (Z.land (vma_prot v) (not32 VMA_PROT_W)) else area_marks l' va
  end.
Lemma area_marks_Some l va c : area_marks l va = Some c →
  ∃ i v, l !! i = Some v ∧ area_in v va (vma_prot v) ∧ has_bits (vma_prot v) VMA_PROT_W = true ∧ c = Z.land (vma_prot v) (not32 VMA_PROT_W).
Proof.
  induction l as [|v l IH]; cbn [area_marks]; [done|]. destruct (_ && _) eqn:E.
  - intros [= <-]. rewrite !andb_true_iff, Z.leb_le, Z.ltb_lt in E. exists 0%nat, v. unfold area_in. tauto.
  - intros (i & w & Hi & ?)%IH. by exists (S i), w.
Qed.
Lemma area_marks_area l va q : area l va q → has_bits q VMA_PROT_W = true → is_Some (area_marks l va).
Proof.
  intros (i & v & Hi & Hu & Hb & <-) Hw. revert i Hi. induction l as [|w l IH]; intros i Hi; [done|]. cbn [area_marks]. destruct (_ && _) eqn:E; [done|].
  destruct i as [|i]; [|by apply (IH i)]. injection Hi as ->. revert E. rewrite Hu, Hw. by zcases.
Qed.
(** Some of the marks of [F]. *)
Definition within (D F : marks) : Prop := ∀ va, user_page va → D va = None ∨ D va = F va.

Lemma within_refl F : within F F.
Proof. by right. Qed.
Lemma within_none F : within no_marks F.
Proof. by left. Qed.
Lemma within_join D1 D2 F : within D2 F → within (join D1 D2) (join D1 F).
Proof. intros H va Hu. unfold join. destruct (D1 va); [by right|]. by apply H. Qed.
Lemma within_join_l D1 D F : within D D1 → within D (join D1 F).
Proof. intros H va Hu. unfold join. destruct (H va Hu) as [?|E]; [by left|]. rewrite E. destruct (D1 va); auto. Qed.
Lemma within_ext D F F' : (∀ va, user_page va → F va = F' va) → within D F → within D F'.
Proof. intros He H va Hu. rewrite <-He by done. by apply H. Qed.
Lemma within_Some D F va : within D F → user_page va → is_Some (D va) → is_Some (F va).
Proof. intros H Hu [c Hc]. destruct (H va Hu) as [?|E]; [congruence|]. rewrite <-E. by exists c. Qed.

Lemma same_page va va' : user_page va → user_page va' → (va <=? va') && (va' <? va + 4096) = (va' =? va).
Proof. intros [_ Ha] [_ Ha']. zcases; try done; Z.div_mod_to_equations; lia. Qed.

Section clone.
Context {L : Layout} {LOK : LayoutOk} {P : Type} {PO : PageOps P} {POK : PageOpsOk P}.
Implicit Types (s : vm_state P) (D DP : marks).

(** ** Two spaces with tables of their own *)

Record two_spaces s R C : Prop := {
  ts_parent : space_ok s R;
  ts_child : space_ok s C;
  ts_apart : ∀ t, pt_page (vmem s) R t → ¬ pt_page (vmem s) C t;
}.
Definition both_grow s R C s' : Prop := root_grows (vmem s) (vmem s') R ∧ root_grows (vmem s) (vmem s') C.
Lemma both_grow_refl s R C s' : vmem s' = vmem s → both_grow s R C s'.
Proof. intros E. unfold both_grow. rewrite E. split; by left. Qed.
Lemma both_grow_trans s1 s2 s3 R C : both_grow s1 R C s2 → both_grow s2 R C s3 → both_grow s1 R C s3.
Proof. intros [] []. split; by eapply root_grows_trans. Qed.
Lemma both_grow_sym s R C s' : both_grow s R C s' → both_grow s C R s'.
Proof. by intros []. Qed.
(** A page that may back a page of either. *)
Definition plain s R C q : Prop := frame_ok s R q ∧ frame_ok s C q.

Lemma two_spaces_sym s R C : two_spaces s R C → two_spaces s C R.
Proof. intros [? ? Ha]. split; [done..|]. intros t Ht Hr. by apply (Ha t). Qed.
Lemma plain_sym s R C q : plain s R C q → plain s C R q.
Proof. by intros []. Qed.

Lemma plain_u32 s R C q : plain s R C q → user_page q.
Proof.
  intros [[Hal Hf] _]. split; [|done]. destruct Hf as [(Hm & _)|Hb]; [eauto with kernel|].
  pose proof lo_fits. unfold is_u32. lia.
Qed.
Lemma plain_managed s R C q : plain s R C q → managed q → vm_refs s q ≠ 0 ∧ ¬ pt_page (vmem s) R q ∧ ¬ pt_page (vmem s) C q.
Proof.
  intros [[_ H1] [_ H2]] Hm. destruct H1 as [(_ & ? & ?)|?]; [|destruct Hm; lia]. destruct H2 as [(_ & _ & ?)|?]; [done|destruct Hm; lia].
Qed.
Lemma plain_intro s R C q : managed q → vm_refs s q ≠ 0 → ¬ pt_page (vmem s) R q → ¬ pt_page (vmem s) C q → plain s R C q.
Proof. intros Hm Hr H1 H2. split; (split; [eauto with kernel|left; by split_and!]). Qed.

(** Growing one table leaves the other space and all pages in use. *)
Lemma grow_one s R C s' : two_spaces s R C → grown s R s' →
  two_spaces s' R C ∧ both_grow s R C s' ∧ (∀ va, is_u32 va → query_page (vmem s') C va = query_page (vmem s) C va) ∧
  (∀ q, managed q → vm_refs s q ≠ 0 → vm_refs s' q = vm_refs s q) ∧
  (∀ q, managed q → vm_refs s q = 0 → vm_refs s' q = 0 ∨ vm_refs s' q = 1) ∧
  (∀ q, plain s R C q → plain s' R C q ∧ ∀ x, in_block q 1 x → rd (vmem s') x = rd (vmem s) x).
Proof.
  intros [[Hs HR] [_ HC] Ha] Hg. pose proof Hg as (Hs' & _ & HR' & [F _ N Rf Tr]).
  destruct (grown_frame s s' R C Hg HC Ha) as (HC' & Hpg & Hx & Hq).
  assert (Hrefs : ∀ q, managed q → vm_refs s q ≠ 0 → vm_refs s' q = vm_refs s q).
  { intros q Hm Hr. destruct (Rf q Hm) as [?|(? & _)]; done. }
  split_and!; try done.
  - split; [done..|]. intros t Ht Htc. apply Hpg in Htc. destruct (N t Ht) as [?|(_ & Hz & _)]; [by eapply Ha|].
    by apply (pt_page_managed _ _ _ _ HC) in Htc as [_ ?].
  - split; [done|]. intros i Hi. left. apply get_pte_ext; [done|]. intros x. apply Hx. by left.
  - intros q Hm Hz. destruct (Rf q Hm) as [->|(_ & ? & _)]; auto.
  - intros q [Hf1 Hf2]. destruct (grown_frame_ok s R s' q Hg Hf1) as (Hf1' & _ & Hx1). split; [|done]. split; [done|].
    destruct Hf2 as [Hal Hf2]. split; [done|]. destruct Hf2 as [(Hm & Hr & Hn)|?]; [left|by right].
    rewrite Hpg, Hrefs; done.
Qed.

(** Changing the counts of other pages. *)
Lemma recount s R C s' : two_spaces s R C → vm_ok s' → vmem s' = vmem s →
  (∀ t, pt_page (vmem s) R t ∨ pt_page (vmem s) C t → vm_refs s' t ≠ 0) → two_spaces s' R C.
Proof.
  intros [[Hs HR] [_ HC] Ha] Hs' Hm Ht. split; rewrite ?Hm; [..|done]; (split; [done|]); rewrite Hm.
  - apply (pt_root_ext (vm_refs s) (vm_refs s') (vmem s) (vmem s) R HR); [done|]. intros t. by auto.
  - apply (pt_root_ext (vm_refs s) (vm_refs s') (vmem s) (vmem s) C HC); [done|]. intros t. by auto.
Qed.

Lemma table_counted s R C t : two_spaces s R C → pt_page (vmem s) R t ∨ pt_page (vmem s) C t → managed t ∧ vm_refs s t ≠ 0.
Proof. intros [[_ HR] [_ HC] _] [Ht|Ht]; [exact (pt_page_managed _ _ _ _ HR Ht)|exact (pt_page_managed _ _ _ _ HC Ht)]. Qed.

Lemma wp_inc_plain s R C pa : two_spaces s R C → plain s R C pa → (managed pa → vm_refs s pa < 65535) →
  wp (on_pages (pg_inc pa)) (λ _ s', two_spaces s' R C ∧ same_globals s s' ∧ vmem s' = vmem s ∧
    ∀ q, managed q → vm_refs s' q = if decide (q = pa) then vm_refs s q + 1 else vm_refs s q) s.
Proof.
  intros Ht Hp Hb. pose proof Ht as [[Hs _] _ _]. apply wp_on_pages. eapply wp_mono; [apply wp_run, pg_inc_spec; [done|]|].
  - intros Hm. pose proof (pg_refs_bound (vm_pages s) pa Hs Hm). destruct (plain_managed _ _ _ _ Hp Hm) as [Hr _]. specialize (Hb Hm).
    unfold vm_refs in *. lia.
  - intros [] p (Hrun & Hok & Hm & Hr). pose proof (same_globals_pages p s (wlp_run _ _ _ _ _ (pg_inc_warned _ pa) Hrun)) as Hsg.
    set (s' := set_vm_pages p s) in *. change (∀ q, managed q → vm_refs s' q = if decide (q = pa) then vm_refs s q + 1 else vm_refs s q) in Hr.
    split; [|done]. apply (recount s); try done. intros t Hpt. destruct (table_counted _ _ _ _ Ht Hpt) as [Htm Htr]. rewrite Hr by done.
    pose proof (pg_refs_bound (vm_pages s) t Hs Htm). unfold vm_refs in *. case_decide; lia.
Qed.

Lemma wp_free_plain s R C q : two_spaces s R C → plain s R C q → managed q →
  wp (on_pages (pg_free q 1)) (λ _ s', two_spaces s' R C ∧ same_globals s s' ∧ vmem s' = vmem s ∧
    ref_dropped s s' q ∧
    ∀ q', managed q' → q' ≠ q → vm_refs s' q' = vm_refs s q') s.
Proof.
  intros Ht Hp Hm. destruct (plain_managed _ _ _ _ Hp Hm) as (Hr & H1 & H2).
  eapply wp_mono; [apply (wp_free_page s R q); try done; apply Ht|]. intros [] s' ([Hok _] & Hg & Hmem & Hd & Ho).
  split; [|done]. apply (recount s); try done. intros t Hpt. destruct (table_counted _ _ _ _ Ht Hpt) as [Htm Htr].
  rewrite Ho; [done..|]. intros ->. tauto.
Qed.

(** ** What a clone does *)

(** [q] backs a page of the parent that is cloned. *)
Definition shares s R D q : Prop := ∃ va pr, user_page va ∧ is_Some (D va) ∧ query_page (vmem s) R va = Some (q, pr).
(** [q] backed a page of the child and another one takes its place. *)
Definition replaced s R C D q : Prop := ∃ va pa pr pr', user_page va ∧ is_Some (D va) ∧
  query_page (vmem s) R va = Some (pa, pr) ∧ query_page (vmem s) C va = Some (q, pr') ∧ q ≠ pa.

(** From [s] to [s']: the pages of the parent marked in [DP] lose the right to write; those marked in [D] are in the
    child too, with a reference more; the pages they replace there have one less (a page that
    is free then may be taken again for a table); all else stays, contents included. *)
Record cloned s R C DP D s' : Prop := {
  cl_spaces : two_spaces s' R C;
  cl_globals : same_globals s s';
  cl_parent : ∀ va, user_page va → query_page (vmem s') R va =
    match DP va, query_page (vmem s) R va with Some cow, Some (pa, _) => Some (pa, 2 * cow + PTE_U) | _, q => q end;
  cl_child : ∀ va, user_page va → query_page (vmem s') C va =
    match D va, query_page (vmem s) R va with Some cow, Some (pa, _) => Some (pa, 2 * cow + PTE_U) | _, _ => query_page (vmem s) C va end;
  cl_shared : ∀ q, managed q → shares s R D q → vm_refs s' q = vm_refs s q + 1;
  cl_dropped : ∀ q, managed q → replaced s R C D q → vm_refs s' q = vm_refs s q - 1 ∨ (vm_refs s q = 1 ∧ vm_refs s' q = 1);
  cl_others : ∀ q, managed q → vm_refs s q ≠ 0 → ¬ shares s R D q → ¬ replaced s R C D q → vm_refs s' q = vm_refs s q;
  cl_roots : both_grow s R C s';
  cl_free : ∀ q, managed q → vm_refs s q = 0 → vm_refs s' q = 0 ∨ vm_refs s' q = 1;
  cl_plain : ∀ q, plain s R C q → ¬ replaced s R C D q → plain s' R C q ∧ ∀ x, in_block q 1 x → rd (vmem s') x = rd (vmem s) x;
}.

(** The marked pages can be cloned: those of the parent are backed by pages that may be shared, no two by the same
    counted page; those that they replace in the child are counted pages that nothing else uses. *)
Record clonable s R C (A : Z → Prop) : Prop := {
  cb_spaces : two_spaces s R C;
  cb_plain : ∀ va pa pr, user_page va → A va → query_page (vmem s) R va = Some (pa, pr) → plain s R C pa ∧ (managed pa → vm_refs s pa < 65535);
  cb_inj : ∀ va va' pa pr pr', user_page va → user_page va' → A va → A va' → managed pa →
    query_page (vmem s) R va = Some (pa, pr) → query_page (vmem s) R va' = Some (pa, pr') → va = va';
  cb_old : ∀ va pa pr old pr', user_page va → A va → query_page (vmem s) R va = Some (pa, pr) →
    query_page (vmem s) C va = Some (old, pr') → old ≠ pa → managed old ∧ plain s R C old ∧
      ∀ va' pr'', user_page va' → A va' → query_page (vmem s) R va' ≠ Some (old, pr'');
  cb_old_inj : ∀ va va' old pr pr', user_page va → user_page va' → A va → A va' → managed old →
    is_Some (query_page (vmem s) R va) → is_Some (query_page (vmem s) R va') → query_page (vmem s) C va = Some (old, pr) → query_page (vmem s) C va' = Some (old, pr') → va = va';
}.

Lemma cloned_none s R C s' : two_spaces s R C → grown s R s' → vmem s' = vmem s → cloned s R C no_marks no_marks s'.
Proof.
  intros Ht Hg Hm. destruct (grow_one s R C s' Ht Hg) as (Ht' & Hbg & _ & Hr & Hfr & Hp). pose proof Hg as (_ & Hsg & _).
  split; try done; rewrite ?Hm; try done.
  - intros q _ (va & pr & _ & [? Hd] & _). done.
  - intros q _ (va & pa & pr & pr' & _ & [? Hd] & _). done.
  - intros q Hq Hr0 _ _. by apply Hr.
  - intros q Hq _. split; [by apply Hp|done].
Qed.
Lemma cloned_refl s R C : two_spaces s R C → cloned s R C no_marks no_marks s.
Proof. intros Ht. apply cloned_none; [done| |done]. pose proof Ht as [[? ?] _ _]. split_and!; try done. by apply tables_grow_refl. Qed.

(** Marks of pages that the parent does not map do nothing. *)
Lemma mark_unmapped s R C va cow : two_spaces s R C → query_page (vmem s) R va = None → cloned s R C (mark va cow) (mark va cow) s.
Proof.
  intros Ht Hq. assert (Hm : ∀ va', user_page va' → is_Some (mark va cow va') → va' = va).
  { intros va' _ [? Hs]. unfold mark in Hs. by destruct (Z.eqb_spec va' va). }
  split; try done.
  - intros va' Hu. unfold mark. destruct (Z.eqb_spec va' va) as [->|]; [by rewrite Hq|done].
  - intros va' Hu. unfold mark. destruct (Z.eqb_spec va' va) as [->|]; [by rewrite Hq|done].
  - intros q _ (va' & pr & Hu & Hs & Hq'). rewrite (Hm va' Hu Hs), Hq in Hq'. done.
  - intros q _ (va' & pa & pr & pr' & Hu & Hs & Hq' & _). rewrite (Hm va' Hu Hs), Hq in Hq'. done.
  - by apply both_grow_refl.
  - by left.
Qed.

Lemma mark_Some va cow v : is_Some (mark va cow v) → v = va.
Proof. intros [? Hs]. unfold mark in Hs. by destruct (Z.eqb_spec v va). Qed.

(** A clone of one page that the parent maps. *)
Lemma mark_mapped s R C va cow pa pr s' : user_page va → query_page (vmem s) R va = Some (pa, pr) →
  two_spaces s' R C → same_globals s s' → both_grow s R C s' →
  (∀ v, user_page v → query_page (vmem s') R v = if v =? va then Some (pa, 2 * cow + PTE_U) else query_page (vmem s) R v) →
  (∀ v, user_page v → query_page (vmem s') C v = if v =? va then Some (pa, 2 * cow + PTE_U) else query_page (vmem s) C v) →
  (managed pa → vm_refs s' pa = vm_refs s pa + 1) →
  (∀ old pr', managed old → query_page (vmem s) C va = Some (old, pr') → old ≠ pa →
     vm_refs s' old = vm_refs s old - 1 ∨ (vm_refs s old = 1 ∧ vm_refs s' old = 1)) →
  (∀ q, managed q → vm_refs s q ≠ 0 → q ≠ pa → (∀ pr', query_page (vmem s) C va ≠ Some (q, pr')) → vm_refs s' q = vm_refs s q) →
  (∀ q, managed q → vm_refs s q = 0 → vm_refs s' q = 0 ∨ vm_refs s' q = 1) →
  (∀ q, plain s R C q → (∀ pr', query_page (vmem s) C va = Some (q, pr') → q = pa) →
     plain s' R C q ∧ ∀ x, in_block q 1 x → rd (vmem s') x = rd (vmem s) x) →
  cloned s R C (mark va cow) (mark va cow) s'.
Proof.
  intros Hva Hq Ht Hg Hbg HR HC Hpa Hold Ho Hfr Hp.
  assert (Hsh : ∀ q, shares s R (mark va cow) q ↔ q = pa).
  { intros q. split.
    - intros (v & pr' & _ & Hs%mark_Some & Hv). subst v. congruence.
    - intros ->. exists va, pr. split; [done|]. split; [|done]. unfold mark. rewrite Z.eqb_refl. done. }
  assert (Hre : ∀ q, replaced s R C (mark va cow) q ↔ ∃ pr', query_page (vmem s) C va = Some (q, pr') ∧ q ≠ pa).
  { intros q. split.
    - intros (v & pa' & pr1 & pr2 & _ & Hs%mark_Some & Hv & Hc & Hne). subst v. exists pr2. split; [done|]. congruence.
    - intros (pr' & Hc & Hne). exists va, pa, pr, pr'. split; [done|]. split; [|done]. unfold mark. rewrite Z.eqb_refl. done. }
  split; try done.
  - intros v Hv. rewrite HR by done. unfold mark. destruct (Z.eqb_spec v va) as [->|]; [by rewrite Hq|done].
  - intros v Hv. rewrite HC by done. unfold mark. destruct (Z.eqb_spec v va) as [->|]; [by rewrite Hq|done].
  - intros q Hm ->%Hsh. by apply Hpa.
  - intros q Hm (pr' & Hc & Hne)%Hre. by eapply Hold.
  - intros q Hm Hr Hns Hnr. rewrite Hsh in Hns. rewrite Hre in Hnr. apply Ho; try done. intros pr' Hc. apply Hnr. by exists pr'.
  - intros q Hpq Hnr. rewrite Hre in Hnr. apply Hp; [done|]. intros pr' Hc. destruct (decide (q = pa)) as [|Hne]; [done|].
    destruct Hnr. by exists pr'.
Qed.

(** The parent's page alone has become read-only. *)
Lemma mark_parent s R C va cow pa pr s' : user_page va → query_page (vmem s) R va = Some (pa, pr) →
  two_spaces s' R C → same_globals s s' → both_grow s R C s' →
  (∀ v, user_page v → query_page (vmem s') R v = if v =? va then Some (pa, 2 * cow + PTE_U) else query_page (vmem s) R v) →
  (∀ v, user_page v → query_page (vmem s') C v = query_page (vmem s) C v) →
  (∀ q, managed q → vm_refs s q ≠ 0 → vm_refs s' q = vm_refs s q) →
  (∀ q, managed q → vm_refs s q = 0 → vm_refs s' q = 0 ∨ vm_refs s' q = 1) →
  (∀ q, plain s R C q → plain s' R C q ∧ ∀ x, in_block q 1 x → rd (vmem s') x = rd (vmem s) x) →
  cloned s R C (mark va cow) no_marks s'.
Proof.
  intros Hva Hq Ht Hg Hbg HR HC Ho Hfr Hp. split; try done.
  - intros v Hv. rewrite HR by done. unfold mark. destruct (Z.eqb_spec v va) as [->|]; [by rewrite Hq|done].
  - intros q _ (? & ? & _ & [? ?] & _). done.
  - intros q _ (? & ? & ? & ? & _ & [? ?] & _). done.
  - auto.
  - auto.
Qed.

(** A page mapped in one of the two spaces. *)
Lemma wp_map_plain s R C va pa cow : two_spaces s R C → plain s R C pa → user_page va → 0 < cow < 8 →
  wp (vm_map_user_page (vm_make_satp R) va pa cow) (λ r s', grown s R s' ∧ two_spaces s' R C ∧ same_globals s s' ∧ both_grow s R C s' ∧
    (∀ v, user_page v → query_page (vmem s') C v = query_page (vmem s) C v) ∧
    (∀ q, managed q → vm_refs s q ≠ 0 → vm_refs s' q = vm_refs s q) ∧
    (∀ q, managed q → vm_refs s q = 0 → vm_refs s' q = 0 ∨ vm_refs s' q = 1) ∧
    (∀ q, plain s R C q → plain s' R C q ∧ ∀ x, in_block q 1 x → rd (vmem s') x = rd (vmem s) x) ∧
    if decide (r = 0)
    then ∀ v, user_page v → query_page (vmem s') R v = if v =? va then Some (pa, 2 * cow + PTE_U) else query_page (vmem s) R v
    else r = -1 ∧ vmem s' = vmem s) s.
Proof.
  intros Ht Hp [Hva Hval] Hc. destruct (plain_u32 _ _ _ _ Hp) as [Hpu Hpal]. pose proof Ht as [[Hs HR] _ _].
  eapply wp_mono; [by apply vm_map_user_page_spec|]. intros r s' [Hg Hr]. pose proof Hg as (_ & Hsg & _).
  destruct (grow_one s R C s' Ht Hg) as (Ht' & Hbg & Hq & Hrf & Hfr & Hpl). split_and!; try done; [intros v [Hv _]; by apply Hq|].
  case_decide; [|by destruct Hr as (? & ? & _)]. intros v Hv. rewrite Hr by apply Hv. rewrite same_page by done.
  destruct (Z.eqb_spec v va) as [->|]; [|done]. do 2 f_equal. lia.
Qed.

Lemma plain_recount s R C s' q : plain s R C q → vmem s' = vmem s → (managed q → vm_refs s' q ≠ 0) → plain s' R C q.
Proof.
  intros [[Hal H1] [_ H2]] Hm Hr. split; (split; [done|]); rewrite Hm.
  - destruct H1 as [(? & _ & ?)|?]; [left|by right]. auto.
  - destruct H2 as [(? & _ & ?)|?]; [left|by right]. auto.
Qed.
Lemma refs_nonneg s R C q : two_spaces s R C → managed q → 0 ≤ vm_refs s q.
Proof. intros [[Hs _] _ _] Hm. by apply (pg_refs_bound (vm_pages s) q Hs Hm). Qed.

(** [pa] is in the parent's space as a read-only page at [va], has a reference more, and all else is as in [s]. *)
Record half_cloned s R C va cow pa s' : Prop := {
  hc_spaces : two_spaces s' R C;
  hc_globals : same_globals s s';
  hc_roots : both_grow s R C s';
  hc_parent : ∀ v, user_page v → query_page (vmem s') R v = if v =? va then Some (pa, 2 * cow + PTE_U) else query_page (vmem s) R v;
  hc_refs : ∀ q, managed q → vm_refs s q ≠ 0 → vm_refs s' q = if decide (q = pa) then vm_refs s q + 1 else vm_refs s q;
  hc_free : ∀ q, managed q → vm_refs s q = 0 → vm_refs s' q = 0 ∨ vm_refs s' q = 1;
  hc_plain : ∀ q, plain s R C q → plain s' R C q ∧ ∀ x, in_block q 1 x → rd (vmem s') x = rd (vmem s) x;
}.

(** The branch that gives the reference back. *)
Lemma clone_page_undo s R C va cow pa pr s' : two_spaces s R C → user_page va → query_page (vmem s) R va = Some (pa, pr) → plain s R C pa →
  half_cloned s R C va cow pa s' → (∀ v, user_page v → query_page (vmem s') C v = query_page (vmem s) C v) →
  wp (do! on_pages (pg_dec pa) in kret true) (λ failed s'', failed = true ∧ cloned s R C (mark va cow) no_marks s'') s'.
Proof.
  intros Ht Hva Hq Hp [Ht' Hsg Hbg HR Hr Hfr Hpl] HC. destruct (Hpl pa Hp) as [Hp' _].
  wp_step. eapply wp_mono; [apply (wp_dec_page s' R pa); [apply Ht'|apply Hp']|]. intros [] s2 ([Hok _] & Hsg2 & Hm & Hd & Ho). wp_steps.
  assert (Hr2 : ∀ q, managed q → vm_refs s q ≠ 0 → vm_refs s2 q = vm_refs s q).
  { intros q Hmq Hr0. specialize (Hr q Hmq Hr0). case_decide as Hqp; [subst q|by rewrite Ho].
    pose proof (refs_nonneg s R C pa Ht Hmq). destruct (Hd Hmq); lia. }
  split; [done|]. apply (mark_parent s R C va cow pa pr); try done; rewrite ?Hm; try done.
  - apply (recount s'); try done. intros t Htb. destruct (table_counted _ _ _ _ Ht' Htb) as [Htm Htr].
    rewrite Ho; [done..|]. intros ->. destruct (plain_managed _ _ _ _ Hp' Htm) as (_ & ? & ?). tauto.
  - by etrans.
  - eapply both_grow_trans; [exact Hbg|by apply both_grow_refl].
  - intros q Hmq Hz. rewrite Ho; [by apply Hfr|done|]. intros ->. by destruct (plain_managed _ _ _ _ Hp Hmq).
  - intros q Hq'. destruct (Hpl q Hq') as [Hq2 Hx]. split; [|done]. apply (plain_recount s'); try done.
    intros Hmq. destruct (plain_managed _ _ _ _ Hq' Hmq) as [Hr0 _]. by rewrite Hr2.
Qed.

(** The end: the page that was there in the child goes back. *)
Lemma clone_page_swap s R C va cow pa pr s' : clonable s R C (λ v, v = va) → user_page va → query_page (vmem s) R va = Some (pa, pr) → plain s R C pa →
  half_cloned s R C va cow pa s' →
  (∀ v, user_page v → query_page (vmem s') C v = if v =? va then Some (pa, 2 * cow + PTE_U) else query_page (vmem s) C v) →
  wp (match query_page (vmem s) C va with
      | Some (old, _) => if negb (old =? pa) then do! on_pages (pg_free old 1) in kret false else kret false
      | None => kret false
      end) (λ failed s'', failed = false ∧ cloned s R C (mark va cow) (mark va cow) s'') s'.
Proof.
  intros Hcl Hva Hq Hp [Ht' Hsg Hbg HR Hr Hfr Hpl] HC. pose proof Hcl as [Ht _ _ Hold _]. specialize (Hold va pa pr).
  assert (Hpa : managed pa → vm_refs s' pa = vm_refs s pa + 1).
  { intros Hm. destruct (plain_managed _ _ _ _ Hp Hm) as [Hr0 _]. rewrite Hr by done. by rewrite decide_True. }
  assert (Hstay : (∀ old pr', query_page (vmem s) C va = Some (old, pr') → old = pa) → cloned s R C (mark va cow) (mark va cow) s').
  { intros Hno. apply (mark_mapped s R C va cow pa pr); try done.
    - intros old pr' _ Hc Hne. destruct Hne. by eapply Hno.
    - intros q Hm Hr0 Hne _. rewrite Hr by done. by rewrite decide_False.
    - intros q Hpq _. by apply Hpl. }
  destruct (query_page (vmem s) C va) as [[old pr']|] eqn:Hc; [|wp_steps; split; [done|]; by apply Hstay].
  destruct (Z.eqb_spec old pa) as [->|Hne]; simpl.
  { wp_steps. split; [done|]. apply Hstay. by intros ? ? [= -> _]. }
  destruct (Hold old pr') as (Hom & Hop & _); try done. destruct (plain_managed _ _ _ _ Hop Hom) as [Hor _].
  wp_step. eapply wp_mono; [apply (wp_free_plain s' R C old); [done|by apply Hpl|done]|]. intros [] s2 (Ht2 & Hsg2 & Hm2 & Hd & Ho). wp_steps.
  unfold ref_dropped in Hd. rewrite (Hr old Hom Hor), decide_False in Hd by done.
  split; [done|]. apply (mark_mapped s R C va cow pa pr); try done; rewrite ?Hm2, ?Hc; try done.
  - by etrans.
  - eapply both_grow_trans; [exact Hbg|by apply both_grow_refl].
  - intros Hm. rewrite Ho by done. by apply Hpa.
  - intros ? ? _ [= <- _] _. destruct Hd as [?|(? & ? & _)]; auto.
  - intros q Hm Hr0 Hqp Hqo. rewrite Ho by (try done; intros ->; by eapply Hqo). rewrite Hr by done. by rewrite decide_False.
  - intros q Hm Hz. rewrite Ho; [by apply Hfr|done|]. by intros ->.
  - intros q Hpq Hqo. destruct (Hpl q Hpq) as [Hpq' Hx]. split; [|done]. apply (plain_recount s'); try done.
    intros Hm. rewrite Ho; [by apply (plain_managed _ _ _ _ Hpq' Hm)|done|]. intros ->. by destruct Hne; eapply Hqo.
Qed.

Lemma clone_page_spec s R C cow va : clonable s R C (λ v, v = va) → user_page va → 0 < cow < 8 →
  wp (clone_page (vm_make_satp R) (vm_make_satp C) cow va) (λ failed s',
    if failed then ∃ b : bool, cloned s R C (if b then mark va cow else no_marks) no_marks s'
    else cloned s R C (mark va cow) (mark va cow) s') s.
Proof.
  intros Hcl Hva Hc. pose proof Hcl as [Ht Hplain _ _ _]. pose proof Ht as [[_ HR] [_ HC] _].
  pose proof (pt_root _ _ _ HR) as [HRm _]. pose proof (pt_root _ _ _ HC) as [HCm _].
  unfold clone_page, vm_query_user_page. wp_steps. rewrite !satp_root by eauto with kernel.
  destruct (query_page (vmem s) R va) as [[pa pr]|] eqn:Hq; [|wp_steps; by apply mark_unmapped].
  destruct (Hplain va pa pr Hva eq_refl Hq) as [Hp Hb].
  wp_steps. eapply wp_mono; [by apply (wp_map_plain s R C)|].
  intros rc s1 (Hg1 & Ht1 & Hsg1 & Hbg1 & HC1 & Hr1 & Hf1 & Hp1 & HR1). case_decide as H0.
  2: { destruct HR1 as [-> Hm]. simpl. wp_steps. exists false. by apply cloned_none. }
  subst rc. simpl. wp_step. eapply wp_mono; [apply (wp_inc_plain s1 R C pa); [done|by apply Hp1|]|].
  { intros Hm. destruct (plain_managed _ _ _ _ Hp Hm) as [Hr _]. rewrite Hr1 by done. by apply Hb. }
  intros [] s2 (Ht2 & Hsg2 & Hm2 & Hr2).
  assert (Hp2 : ∀ q, plain s R C q → plain s2 R C q).
  { intros q Hq'. apply (plain_recount s1); [by apply Hp1|done|]. intros Hm.
    destruct (plain_managed _ _ _ _ Hq' Hm) as [Hr _]. pose proof (refs_nonneg s R C q Ht Hm). rewrite Hr2, Hr1 by done. case_decide; lia. }
  wp_step. eapply wp_mono; [apply (wp_map_plain s2 C R); try done; [by apply two_spaces_sym|by apply plain_sym, Hp2]|].
  intros rc s3 (_ & Ht3%two_spaces_sym & Hsg3 & Hbg3%both_grow_sym & HR3 & Hr3 & Hf3 & Hp3 & Hrc).
  assert (Hh : half_cloned s R C va cow pa s3).
  { split; [done|by do 2 (etrans; [done|])|..].
    - eapply both_grow_trans; [exact Hbg1|]. eapply both_grow_trans; [by apply both_grow_refl|exact Hbg3].
    - intros v Hv. rewrite HR3, Hm2 by done. by apply HR1.
    - intros q Hm Hr. pose proof (refs_nonneg s R C q Ht Hm). pose proof (Hr2 q Hm) as E. rewrite (Hr1 q Hm Hr) in E.
      rewrite Hr3; [done|done|]. case_decide; lia.
    - intros q Hm Hz. assert (Hqp : q ≠ pa) by (intros ->; by destruct (plain_managed _ _ _ _ Hp Hm)).
      specialize (Hr2 q Hm). rewrite decide_False in Hr2 by done. destruct (Hf1 q Hm Hz) as [E|E]; rewrite E in Hr2; [by apply Hf3|right].
      rewrite Hr3; [done|done|lia].
    - intros q Hq'. destruct (Hp3 q (plain_sym _ _ _ _ (Hp2 q Hq'))) as [Hpq3 Hx3]. split; [by apply plain_sym|].
      intros x Hx. rewrite Hx3, Hm2 by done. by apply (proj2 (Hp1 q Hq')). }
  case_decide as H0.
  - subst rc. simpl. eapply wp_mono; [eapply (clone_page_swap s R C va cow pa pr); try done|].
    + intros v Hv. rewrite Hrc by done. destruct (v =? va); [done|]. rewrite Hm2. by apply HC1.
    + by intros [] s' [? ?].
  - destruct Hrc as [-> Hm]. simpl. eapply wp_mono; [eapply (clone_page_undo s R C va cow pa pr); try done|].
    + intros v Hv. rewrite Hm, Hm2. by apply HC1.
    + intros [] s' [? ?]; [by exists true|done].
Qed.

(** ** Clones compose *)
Lemma cloned_ext s R C DP DP' D D' s' : (∀ va, user_page va → DP va = DP' va) → (∀ va, user_page va → D va = D' va) →
  cloned s R C DP D s' → cloned s R C DP' D' s'.
Proof.
  intros HP HD [H1 H2 H3 H4 H5 H6 H7 H8 H9 H10].
  assert (Hsh : ∀ q, shares s R D' q → shares s R D q) by (intros q (va & pr & Hu & Hs & Hq); exists va, pr; by rewrite HD).
  assert (Hsh' : ∀ q, shares s R D q → shares s R D' q) by (intros q (va & pr & Hu & Hs & Hq); exists va, pr; by rewrite <-HD).
  assert (Hre : ∀ q, replaced s R C D' q → replaced s R C D q).
  { intros q (va & pa & pr & pr' & Hu & Hs & Hq). exists va, pa, pr, pr'. by rewrite HD. }
  assert (Hre' : ∀ q, replaced s R C D q → replaced s R C D' q).
  { intros q (va & pa & pr & pr' & Hu & Hs & Hq). exists va, pa, pr, pr'. by rewrite <-HD. }
  split; try done; auto.
  - intros va Hu. rewrite <-HP by done. auto.
  - intros va Hu. rewrite <-HD by done. auto.
Qed.

Lemma join_shares s R D1 D2 q : shares s R (join D1 D2) q ↔ shares s R D1 q ∨ shares s R D2 q.
Proof.
  split.
  - intros (va & pr & Hu & Hs & Hq). unfold join in Hs. destruct (D1 va) eqn:E; [left|right]; exists va, pr; by rewrite ?E.
  - intros [(va & pr & Hu & [c Hs] & Hq)|(va & pr & Hu & [c Hs] & Hq)]; exists va, pr; (split; [done|split; [|done]]); unfold join; rewrite Hs; [done|by case_match].
Qed.
Lemma join_replaced s R C D1 D2 q : replaced s R C (join D1 D2) q ↔ replaced s R C D1 q ∨ replaced s R C D2 q.
Proof.
  split.
  - intros (va & pa & pr & pr' & Hu & Hs & Hq). unfold join in Hs. destruct (D1 va) eqn:E; [left|right]; exists va, pa, pr, pr'; by rewrite ?E.
  - intros [(va & pa & pr & pr' & Hu & [c Hs] & Hq)|(va & pa & pr & pr' & Hu & [c Hs] & Hq)]; exists va, pa, pr, pr'; (split; [done|split; [|done]]);
      unfold join; rewrite Hs; [done|by case_match].
Qed.

(** After the pages of [D1], those of [D2]. *)
Section compose.
Variables (s s1 : vm_state P) (R C : Z) (A : Z → Prop) (D1 D2 : marks).
Hypothesis Hcl : clonable s R C A.
Hypothesis H1 : cloned s R C D1 D1 s1.
Hypothesis HA1 : ∀ va, user_page va → is_Some (D1 va) → A va.
Hypothesis HA2 : ∀ va, user_page va → is_Some (D2 va) → A va.
Hypothesis Hdis : ∀ va, user_page va → is_Some (D2 va) → D1 va = None.

Lemma later_parent va : user_page va → D1 va = None → query_page (vmem s1) R va = query_page (vmem s) R va.
Proof using H1. intros Hu Hn. rewrite (cl_parent _ _ _ _ _ _ H1 va Hu), Hn. done. Qed.
Lemma later_child va : user_page va → D1 va = None → query_page (vmem s1) C va = query_page (vmem s) C va.
Proof using H1. intros Hu Hn. rewrite (cl_child _ _ _ _ _ _ H1 va Hu), Hn. done. Qed.

Lemma later_shares q : shares s1 R D2 q ↔ shares s R D2 q.
Proof using H1 Hdis.
  split; intros (va & pr & Hu & Hs & Hq); exists va, pr; (split; [done|split; [done|]]); revert Hq; rewrite later_parent; auto.
Qed.
Lemma later_replaced q : replaced s1 R C D2 q ↔ replaced s R C D2 q.
Proof using H1 Hdis.
  split; intros (va & pa & pr & pr' & Hu & Hs & Hq & Hc & Hne); exists va, pa, pr, pr'; (split; [done|split; [done|]]); revert Hq Hc; rewrite later_parent, later_child; auto.
Qed.

Lemma shares_plain D q : (∀ va, user_page va → is_Some (D va) → A va) → shares s R D q → plain s R C q.
Proof using Hcl. intros HA (va & pr & Hu & Hs & Hq). by apply (cb_plain _ _ _ _ Hcl va q pr); auto. Qed.
Lemma replaced_plain D q : (∀ va, user_page va → is_Some (D va) → A va) → replaced s R C D q → managed q ∧ plain s R C q.
Proof using Hcl.
  intros HA (va & pa & pr & pr' & Hu & Hs & Hq & Hc & Hne). destruct (cb_old _ _ _ _ Hcl va pa pr q pr') as (? & ? & _); auto.
Qed.

Lemma shares_once q : managed q → shares s R D1 q → ¬ shares s R D2 q.
Proof using HA1 HA2 Hcl Hdis.
  intros Hm (va & pr & Hu & Hs & Hq) (va' & pr' & Hu' & Hs' & Hq').
  assert (va = va') by (eapply (cb_inj _ _ _ _ Hcl va va' q); eauto). subst va'. rewrite (Hdis va Hu Hs') in Hs. by destruct Hs.
Qed.
Lemma shares_kept D D' q : (∀ va, user_page va → is_Some (D va) → A va) → (∀ va, user_page va → is_Some (D' va) → A va) →
  shares s R D q → ¬ replaced s R C D' q.
Proof using Hcl.
  intros HA HA' (va & pr & Hu & Hs & Hq) (va' & pa & pr' & pr'' & Hu' & Hs' & Hq' & Hc & Hne).
  destruct (cb_old _ _ _ _ Hcl va' pa pr' q pr'') as (_ & _ & Hno); auto. by apply (Hno va pr); auto.
Qed.
Lemma replaced_once q : replaced s R C D1 q → ¬ replaced s R C D2 q.
Proof using HA1 HA2 Hcl Hdis.
  intros Hr1. pose proof (replaced_plain D1 q HA1 Hr1) as [Hm _].
  destruct Hr1 as (va & ? & ? & pr & Hu & Hs & Hq & Hc & _). intros (va' & ? & ? & pr' & Hu' & Hs' & Hq' & Hc' & _).
  assert (va = va') by (eapply (cb_old_inj _ _ _ _ Hcl va va' q); eauto). subst va'. rewrite (Hdis va Hu Hs') in Hs. by destruct Hs.
Qed.

(** The rest can still be cloned. *)
Lemma clonable_rest A' : (∀ va, user_page va → A' va → A va ∧ D1 va = None) → clonable s1 R C A'.
Proof using H1 HA1 Hcl.
  intros HA'. assert (Hnr : ∀ va pa pr, user_page va → A' va → query_page (vmem s) R va = Some (pa, pr) → ¬ replaced s R C D1 pa).
  { intros va pa pr Hu Ha Hq (va' & pa' & pr' & pr'' & Hu' & Hs' & Hq' & Hc & Hne).
    destruct (cb_old _ _ _ _ Hcl va' pa' pr' pa pr'') as (_ & _ & Hno); auto. by apply (Hno va pr); auto; apply HA'. }
  assert (Hns : ∀ va pa pr, user_page va → A' va → managed pa → query_page (vmem s) R va = Some (pa, pr) → ¬ shares s R D1 pa).
  { intros va pa pr Hu Ha Hm Hq (va' & pr' & Hu' & Hs' & Hq'). destruct (HA' va Hu Ha) as [HAv Hnone].
    assert (va = va') by (eapply (cb_inj _ _ _ _ Hcl va va' pa); eauto). subst va'. rewrite Hnone in Hs'. by destruct Hs'. }
  split.
  - apply H1.
  - intros va pa pr Hu Ha Hq. destruct (HA' va Hu Ha) as [HAv Hnone]. rewrite later_parent in Hq by done.
    destruct (cb_plain _ _ _ _ Hcl va pa pr Hu HAv Hq) as [Hp Hb]. split; [apply H1; [done|by eapply Hnr]|]. intros Hm.
    rewrite (cl_others _ _ _ _ _ _ H1); [by apply Hb|done|by apply (plain_managed _ _ _ _ Hp)|by eapply Hns|by eapply Hnr].
  - intros va va' pa pr pr' Hu Hu' Ha Ha' Hm. destruct (HA' va Hu Ha), (HA' va' Hu' Ha'). rewrite !later_parent by done. by apply (cb_inj _ _ _ _ Hcl).
  - intros va pa pr old pr' Hu Ha. destruct (HA' va Hu Ha) as [HAv Hnone]. rewrite later_parent, later_child by done. intros Hq Hc Hne.
    destruct (cb_old _ _ _ _ Hcl va pa pr old pr') as (Hm & Hp & Hno); auto. split; [done|]. split.
    + apply H1; [done|]. intros (va' & ? & ? & pr'' & Hu' & Hs' & Hq' & Hc' & _).
      assert (va = va') by (eapply (cb_old_inj _ _ _ _ Hcl va va' old); eauto). subst va'. rewrite Hnone in Hs'. by destruct Hs'.
    + intros va' pr'' Hu' Ha'. destruct (HA' va' Hu' Ha'). rewrite later_parent by done. auto.
  - intros va va' old pr pr' Hu Hu' Ha Ha' Hm. destruct (HA' va Hu Ha), (HA' va' Hu' Ha'). rewrite !later_child, !later_parent by done. by apply (cb_old_inj _ _ _ _ Hcl).
Qed.

Lemma cloned_trans DP2 s2 : (∀ va, user_page va → is_Some (DP2 va) → D1 va = None) → cloned s1 R C DP2 D2 s2 →
  cloned s R C (join D1 DP2) (join D1 D2) s2.
Proof using HA1 HA2 Hcl H1 Hdis.
  intros HdisP H2. pose proof (cb_spaces _ _ _ _ Hcl) as Ht.
  assert (Hsame : ∀ q, managed q → vm_refs s1 q ≠ 0 → ¬ shares s R D2 q → ¬ replaced s R C D2 q → vm_refs s2 q = vm_refs s1 q).
  { intros q Hm Hr Hs Hp. rewrite <-later_shares in Hs. rewrite <-later_replaced in Hp. by apply H2. }
  assert (Hfirst : ∀ q, managed q → plain s R C q → ¬ shares s R D1 q → ¬ replaced s R C D1 q → vm_refs s1 q = vm_refs s q).
  { intros q Hm Hp Hs Hre. apply H1; try done. by apply (plain_managed _ _ _ _ Hp). }
  split; [apply H2|etrans; [apply H1|apply H2]|..].
  - intros va Hu. rewrite (cl_parent _ _ _ _ _ _ H2 va Hu), (cl_parent _ _ _ _ _ _ H1 va Hu). unfold join.
    destruct (D1 va) as [c|] eqn:E; [|done]. destruct (DP2 va) eqn:E2; [|done]. rewrite (HdisP va Hu) in E by (by rewrite E2). done.
  - intros va Hu. rewrite (cl_child _ _ _ _ _ _ H2 va Hu), (cl_child _ _ _ _ _ _ H1 va Hu), (cl_parent _ _ _ _ _ _ H1 va Hu). unfold join.
    destruct (D1 va) as [c|] eqn:E; [|done]. destruct (D2 va) eqn:E2; [|done]. rewrite (Hdis va Hu) in E by (by rewrite E2). done.
  - intros q Hm [Hs|Hs]%join_shares.
    + pose proof (refs_nonneg s R C q Ht Hm). rewrite Hsame; [by apply H1|done| |by apply shares_once|exact (shares_kept D1 D2 q HA1 HA2 Hs)].
      rewrite (cl_shared _ _ _ _ _ _ H1) by done. lia.
    + rewrite (cl_shared _ _ _ _ _ _ H2) by (try done; by apply later_shares). f_equal. apply Hfirst; [done|exact (shares_plain D2 q HA2 Hs)| |exact (shares_kept D2 D1 q HA2 HA1 Hs)].
      intros Hs1. exact (shares_once q Hm Hs1 Hs).
  - intros q Hm [Hr|Hr]%join_replaced.
    + destruct (decide (vm_refs s1 q = 0)) as [Hz|Hnz].
      * destruct (cl_free _ _ _ _ _ _ H2 q Hm Hz), (cl_dropped _ _ _ _ _ _ H1 q Hm Hr); lia.
      * rewrite Hsame; [by apply H1|done|done| |by apply replaced_once]. intros Hs. exact (shares_kept D2 D1 q HA2 HA1 Hs Hr).
    + destruct (replaced_plain D2 q HA2 Hr) as [_ Hp].
      rewrite <-(Hfirst q); [|done|done|intros Hs; exact (shares_kept D1 D2 q HA1 HA2 Hs Hr)|intros Hr1; exact (replaced_once q Hr1 Hr)].
      apply H2; [done|]. by apply later_replaced.
  - intros q Hm Hr Hns Hnr. rewrite join_shares in Hns. rewrite join_replaced in Hnr.
    assert (E : vm_refs s1 q = vm_refs s q) by (apply H1; tauto). rewrite <-E. apply Hsame; (congruence || tauto).
  - eapply both_grow_trans; [apply H1|apply H2].
  - intros q Hm Hz. destruct (cl_free _ _ _ _ _ _ H1 q Hm Hz) as [Hz1|Hz1]; [by apply H2|]. right. rewrite Hsame; [done|done|lia|..].
    + intros Hs. by destruct (plain_managed _ _ _ _ (shares_plain D2 q HA2 Hs) Hm).
    + intros Hr. destruct (replaced_plain D2 q HA2 Hr) as [_ Hp]. by destruct (plain_managed _ _ _ _ Hp Hm).
  - intros q Hp Hnr. rewrite join_replaced in Hnr. destruct (cl_plain _ _ _ _ _ _ H1 q Hp) as [Hp1 Hx1]; [tauto|].
    destruct (cl_plain _ _ _ _ _ _ H2 q Hp1) as [Hp2 Hx2]; [rewrite later_replaced; tauto|]. split; [done|]. intros x Hx. by rewrite Hx2, Hx1.
Qed.
End compose.

(** ** Ranges and areas *)
Lemma clonable_sub s R C A A' : clonable s R C A → (∀ va, user_page va → A' va → A va) → clonable s R C A'.
Proof.
  intros Hcl HA. apply (clonable_rest s s R C A no_marks Hcl (cloned_refl s R C (cb_spaces _ _ _ _ Hcl))); [|by auto].
  by intros va _ [? ?].
Qed.

(** What a loop over the pages [F] leaves. *)
Definition clone_post s R C (F : marks) (failed : bool) s' : Prop :=
  if failed then ∃ DP D, within DP F ∧ within D F ∧ cloned s R C DP D s' else cloned s R C F F s'.

Lemma clone_post_join s s1 R C A D1 F failed s2 :
  clonable s R C A → cloned s R C D1 D1 s1 → (∀ va, user_page va → is_Some (D1 va) → A va) → (∀ va, user_page va → is_Some (F va) → A va) →
  (∀ va, user_page va → is_Some (F va) → D1 va = None) →
  clone_post s1 R C F failed s2 → clone_post s R C (join D1 F) failed s2.
Proof.
  intros Hcl H1 HA1 HA2 Hd H2. destruct failed; simpl in *.
  - destruct H2 as (DP & D & HP & HD & H2). exists (join D1 DP), (join D1 D). split; [by apply within_join|]. split; [by apply within_join|].
    apply (cloned_trans s s1 R C A D1 D); try done.
    + intros va Hu Hs. apply HA2; [done|]. by eapply within_Some.
    + intros va Hu Hs. apply Hd; [done|]. by eapply within_Some.
    + intros va Hu Hs. apply Hd; [done|]. by apply (within_Some DP).
  - by apply (cloned_trans s s1 R C A D1 F).
Qed.
Lemma clone_post_ext s R C F F' failed s' : (∀ va, user_page va → F va = F' va) → clone_post s R C F failed s' → clone_post s R C F' failed s'.
Proof.
  intros He. destruct failed; simpl; [|by apply cloned_ext]. intros (DP & D & HP & HD & H). exists DP, D.
  split; [by eapply within_ext|]. split; [by eapply within_ext|done].
Qed.

Lemma clone_range_spec R C cow hi : 0 < cow < 8 → ∀ fuel lo s,
  clonable s R C (λ va, lo ≤ va < hi) → lo mod 4096 = 0 → hi mod 4096 = 0 → 0 ≤ lo → lo ≤ hi → hi < 4294967296 → hi - lo ≤ Z.of_nat fuel * 4096 →
  wp (clone_range fuel (vm_make_satp R) (vm_make_satp C) cow lo hi) (clone_post s R C (range_marks lo hi cow)) s.
Proof.
  intros Hc fuel. induction fuel as [|fuel IH]; intros lo s Hcl Hlo Hhi H0 Hle Hb Hf; simpl.
  all: destruct (Z.ltb_spec lo hi) as [Hlt|Hge]; [|wp_steps; simpl; apply (cloned_ext s R C no_marks _ no_marks);
    [intros va _; unfold range_marks; by zcases..|]; apply cloned_refl, Hcl].
  - lia.
  - assert (Hva : user_page lo) by (split; [unfold is_u32; lia|done]). assert (Hnext : lo + 4096 ≤ hi) by (Z.div_mod_to_equations; lia).
    assert (Hjoin : ∀ va, user_page va → join (mark lo cow) (range_marks (lo + 4096) hi cow) va = range_marks lo hi cow va).
    { intros va [_ Ha]. unfold join, mark, range_marks. zcases; try done; Z.div_mod_to_equations; lia. }
    wp_step. eapply wp_mono; [apply clone_page_spec; [apply (clonable_sub s R C _ _ Hcl); intros ? _ ->; cbv beta; lia|done|done]|].
    intros failed s1 H1. destruct failed.
    + wp_steps. destruct H1 as [b H1]. eexists _, _. split; [|split; [apply within_none|done]].
      destruct b; [|apply within_none]. eapply within_ext; [done|]. apply within_join_l. by right.
    + unfold PAGE_SIZE. rewrite add32_small by lia.
      assert (HA1 : ∀ va, user_page va → is_Some (mark lo cow va) → lo ≤ va < hi) by (intros va _ Hs%mark_Some; subst va; lia).
      assert (HA2 : ∀ va, is_Some (range_marks (lo + 4096) hi cow va) → lo + 4096 ≤ va < hi).
      { intros va [? Hs]. revert Hs. unfold range_marks. by zcases. }
      assert (Hd : ∀ va, lo + 4096 ≤ va < hi → mark lo cow va = None) by (intros va ?; unfold mark; by zcases).
      eapply wp_mono; [apply IH; try (done || lia); [|Z.div_mod_to_equations; lia]|].
      * apply (clonable_rest s s1 R C _ _ Hcl H1 HA1). intros va _ ?. split; [lia|by apply Hd].
      * intros failed s2 H2. eapply clone_post_ext; [exact Hjoin|].
        eapply (clone_post_join s s1 R C); [exact Hcl|exact H1|exact HA1| | |exact H2]; intros va _ Hs%HA2; [cbv beta; lia|by apply Hd].
Qed.

Lemma clone_range_full R C cow lo hi s : 0 < cow < 8 → clonable s R C (λ va, lo ≤ va < hi) → lo mod 4096 = 0 → hi mod 4096 = 0 →
  0 ≤ lo → lo ≤ hi → hi < 4294967296 →
  wp (clone_range (range_fuel lo hi) (vm_make_satp R) (vm_make_satp C) cow lo hi) (clone_post s R C (range_marks lo hi cow)) s.
Proof.
  intros. apply clone_range_spec; try done. unfold range_fuel, PAGE_SIZE. rewrite Z2Nat.id by (Z.div_mod_to_equations; lia). Z.div_mod_to_equations. lia.
Qed.

Lemma cow_rights prot : 0 < prot < 8 → prot ≠ 2 → has_bits prot VMA_PROT_W = true → 0 < Z.land prot (not32 VMA_PROT_W) < 8.
Proof.
  intros Hp Hne. assert (Hc : prot ∈ [1; 2; 3; 4; 5; 6; 7]) by (rewrite !elem_of_cons; lia).
  repeat (apply elem_of_cons in Hc as [->|Hc]; [done|]). by apply elem_of_nil in Hc.
Qed.

Lemma cow_no_write prot : 0 < prot < 8 → has_bits (2 * Z.land prot (not32 VMA_PROT_W) + PTE_U) PTE_W = false.
Proof.
  intros Hp. assert (Hc : prot ∈ [1; 2; 3; 4; 5; 6; 7]) by (rewrite !elem_of_cons; lia).
  repeat (apply elem_of_cons in Hc as [->|Hc]; [done|]). by apply elem_of_nil in Hc.
Qed.

Lemma clone_vmas_spec R C : ∀ l s,
  clonable s R C (λ va, is_Some (area_marks l va)) → Forall vma_wf l → Forall (λ v, vma_used v = true → vma_prot v ≠ 2) l →
  (∀ i j v w a p q, l !! i = Some v → l !! j = Some w → area_in v a p → area_in w a q → i = j) →
  wp (clone_vmas (vm_make_satp R) (vm_make_satp C) l) (λ r s', clone_post s R C (area_marks l) (negb (r =? 0)) s' ∧ (r = 0 ∨ r = -1)) s.
Proof.
  intros l. induction l as [|v l IH]; intros s Hcl Hwf Hrw Hdis; cbn [clone_vmas].
  { wp_steps. split; [|by left]. simpl. apply cloned_refl, Hcl. }
  inversion_clear Hwf as [|? ? Hv Hwf']. inversion_clear Hrw as [|? ? Hv2 Hrw'].
  assert (Hdis' : ∀ i j v w a p q, l !! i = Some v → l !! j = Some w → area_in v a p → area_in w a q → i = j).
  { intros i j v' w a p q Hi Hj Ha Hb. assert (S i = S j) by (by apply (Hdis (S i) (S j) v' w a p q)). lia. }
  rewrite <-negb_andb. destruct (vma_used v && has_bits (vma_prot v) VMA_PROT_W) eqn:Hw; cbn [negb].
  2: { assert (He : ∀ va, area_marks l va = area_marks (v :: l) va) by (intros va; cbn [area_marks]; by rewrite Hw).
       eapply wp_mono; [apply IH; try done; apply (clonable_sub s R C _ _ Hcl); intros va _; by rewrite He|].
       intros r s' [H2 Hr]. split; [|done]. apply (clone_post_ext s R C (area_marks l)); [intros va _; apply He|done]. }
  apply andb_true_iff in Hw as [Hused Hwr]. destruct (Hv Hused) as (Hs & He & Hs4 & He4 & Hp). set (cow := Z.land _ _).
  assert (Hcow : 0 < cow < 8) by (by apply cow_rights; auto).
  assert (HA1 : ∀ va, is_Some (range_marks (vma_start v) (vma_end v) cow va) → vma_start v ≤ va < vma_end v).
  { intros va [? Hr]. revert Hr. unfold range_marks. by zcases. }
  assert (Hin : ∀ va, vma_start v ≤ va < vma_end v → area_marks (v :: l) va = Some cow) by (intros va ?; cbn [area_marks]; rewrite Hused, Hwr; by zcases).
  assert (Hrest : ∀ va, is_Some (area_marks l va) → range_marks (vma_start v) (vma_end v) cow va = None).
  { intros va Hr. unfold range_marks. destruct ((vma_start v <=? va) && (va <? vma_end v)) eqn:E; [|done]. exfalso. destruct Hr as [c Hr].
    destruct (area_marks_Some l va c Hr) as (j & w & Hj & Hw & _). apply andb_true_iff in E as [E1%Z.leb_le E2%Z.ltb_lt].
    by specialize (Hdis 0%nat (S j) v w va (vma_prot v) (vma_prot w) eq_refl Hj ltac:(by split_and!) Hw). }
  assert (Hjoin : ∀ va, user_page va → join (range_marks (vma_start v) (vma_end v) cow) (area_marks l) va = area_marks (v :: l) va).
  { intros va _. cbn [area_marks]. rewrite Hused, Hwr. unfold join, range_marks. simpl. by destruct (_ && _). }
  wp_step. eapply wp_mono; [apply clone_range_full; try (done || lia)|].
  { apply (clonable_sub s R C _ _ Hcl). intros va _ Hb. rewrite Hin by done. done. }
  intros failed s1 H1. destruct failed.
  - wp_steps. split; [|by right]. simpl. destruct H1 as (DP & D & HP & HD & H1). exists DP, D.
    split; [|split; [|done]]; (eapply within_ext; [exact Hjoin|by apply within_join_l]).
  - assert (HA : ∀ va, user_page va → is_Some (range_marks (vma_start v) (vma_end v) cow va) → is_Some (area_marks (v :: l) va)).
    { intros va _ Hr%HA1. by rewrite Hin. }
    assert (HA2 : ∀ va, user_page va → is_Some (area_marks l va) → is_Some (area_marks (v :: l) va)).
    { intros va _ Hr. cbn [area_marks]. by case_match. }
    eapply wp_mono; [apply IH; try done|].
    + apply (clonable_rest s s1 R C _ _ Hcl H1 HA). intros va Hu Hr. split; [by apply HA2|by apply Hrest].
    + intros r s2 [H2 Hr]. split; [|done]. eapply clone_post_ext; [exact Hjoin|].
      eapply (clone_post_join s s1 R C); [exact Hcl|exact H1|exact HA|exact HA2|by auto|exact H2].
Qed.

(** ** The spaces of a parent and of its new child *)

(** Both private parts are in order and have no page in common; outside of them the writable pages are those of the
    image, in both.  Marks [F] stand for the writable pages. *)
Record fork_ready s R C (F : marks) : Prop := {
  fr_spaces : two_spaces s R C;
  fr_parent : window_ok s R;
  fr_child : window_ok s C;
  fr_apart : ∀ va pa pr, window_page va → query_page (vmem s) R va = Some (pa, pr) →
    ¬ pt_page (vmem s) C pa ∧ vm_refs s pa < 65535 ∧ ∀ va' pr', window_page va' → query_page (vmem s) C va' ≠ Some (pa, pr');
  fr_child_apart : ∀ va pa pr, window_page va → query_page (vmem s) C va = Some (pa, pr) → ¬ pt_page (vmem s) R pa;
  fr_image : ∀ va, user_page va → ¬ window_page va → is_Some (F va) → ∃ pa pr pr',
    query_page (vmem s) R va = Some (pa, pr) ∧ query_page (vmem s) C va = Some (pa, pr') ∧ pa mod 4096 = 0 ∧ 0 ≤ pa ∧ pa + 4096 ≤ free_ram;
}.

Lemma image_plain s R C pa : pa mod 4096 = 0 → 0 ≤ pa → pa + 4096 ≤ free_ram → plain s R C pa ∧ ¬ managed pa.
Proof. intros. split; [split; (split; [done|]); by right|]. intros [_ ?]. lia. Qed.

Section ready.
Variables (s : vm_state P) (R C : Z) (F : marks).
Hypothesis Hfr : fork_ready s R C F.

Lemma ready_frame va pa pr : user_page va → is_Some (F va) → query_page (vmem s) R va = Some (pa, pr) →
  plain s R C pa ∧ (managed pa → window_page va ∧ vm_refs s pa < 65535).
Proof using Hfr.
  intros Hu HF Hq. assert (Hd : window_page va ∨ ¬ window_page va) by (unfold window_page; lia). destruct Hd as [Hw|Hn].
  - destruct (wo_frame _ _ (fr_parent _ _ _ _ Hfr) va pa pr Hw Hq) as (? & ? & ? & _).
    destruct (fr_apart _ _ _ _ Hfr va pa pr Hw Hq) as (? & ? & _). split; [by apply plain_intro|done].
  - destruct (fr_image _ _ _ _ Hfr va Hu Hn HF) as (pa' & ? & ? & E & _ & ? & ? & ?). rewrite Hq in E. injection E as <- _.
    destruct (image_plain s R C pa) as [? ?]; done.
Qed.

Lemma ready_old va pa pr old pr' : user_page va → is_Some (F va) → query_page (vmem s) R va = Some (pa, pr) →
  query_page (vmem s) C va = Some (old, pr') → old ≠ pa → window_page va ∧ managed old ∧ plain s R C old.
Proof using Hfr.
  intros Hu HF Hq Hc Hne. assert (Hd : window_page va ∨ ¬ window_page va) by (unfold window_page; lia). destruct Hd as [Hw|Hn].
  - destruct (wo_frame _ _ (fr_child _ _ _ _ Hfr) va old pr' Hw Hc) as (? & ? & ? & _). split; [done|]. split; [done|].
    apply plain_intro; try done. by eapply (fr_child_apart _ _ _ _ Hfr).
  - destruct (fr_image _ _ _ _ Hfr va Hu Hn HF) as (pa' & ? & ? & E & E' & _). congruence.
Qed.

Lemma ready_clonable : clonable s R C (λ va, is_Some (F va)).
Proof using Hfr.
  split.
  - apply Hfr.
  - intros va pa pr Hu HF Hq. destruct (ready_frame va pa pr Hu HF Hq) as [? Hm]. split; [done|]. intros ?. by apply Hm.
  - intros va va' pa pr pr' Hu Hu' HF HF' Hm Hq Hq'. destruct (ready_frame va pa pr Hu HF Hq) as [_ H1], (ready_frame va' pa pr' Hu' HF' Hq') as [_ H2].
    eapply (wo_inj _ _ (fr_parent _ _ _ _ Hfr)); [by apply H1|by apply H2|done|done].
  - intros va pa pr old pr' Hu HF Hq Hc Hne. destruct (ready_old va pa pr old pr') as (Hw & Hm & Hp); try done. split; [done|]. split; [done|].
    intros va' pr'' Hu' HF' Hq'. destruct (ready_frame va' old pr'' Hu' HF' Hq') as [_ Hw']. destruct (Hw' Hm) as [Hwv _].
    destruct (fr_apart _ _ _ _ Hfr va' old pr'' Hwv Hq') as (_ & _ & Hno). by apply (Hno va pr').
  - intros va va' old pr pr' Hu Hu' HF HF' Hm [[pa p1] Hq] [[pa' p1'] Hq'] Hc Hc'.
    assert (Hwin : ∀ v p p2 pr2, user_page v → is_Some (F v) → query_page (vmem s) R v = Some (p, p2) → query_page (vmem s) C v = Some (old, pr2) → window_page v).
    { intros v p p2 pr2 Hv HFv Hqv Hcv. destruct (decide (old = p)) as [<-|]; [|by eapply ready_old]. by apply (ready_frame v old p2). }
    eapply (wo_inj _ _ (fr_child _ _ _ _ Hfr)); [exact (Hwin va pa p1 pr Hu HF Hq Hc)|exact (Hwin va' pa' p1' pr' Hu' HF' Hq' Hc')|done|done].
Qed.

(** Both stay in order, also when the clone is broken off. *)
Section after.
Variables (DP D : marks) (s' : vm_state P).
Hypothesis HD : within D F.
Hypothesis Hcl : cloned s R C DP D s'.

Lemma marked va : user_page va → is_Some (D va) → is_Some (F va).
Proof using HD. by apply within_Some. Qed.

Lemma parent_kept q va pr : user_page va → query_page (vmem s) R va = Some (q, pr) → window_page va ∨ is_Some (F va) →
  plain s' R C q ∧ (∀ x, in_block q 1 x → rd (vmem s') x = rd (vmem s) x).
Proof using Hfr HD Hcl.
  intros Hu Hq Hor. assert (Hp : plain s R C q).
  { destruct Hor as [Hw|HF]; [|by eapply ready_frame]. destruct (wo_frame _ _ (fr_parent _ _ _ _ Hfr) va q pr Hw Hq) as (? & ? & ? & _).
    destruct (fr_apart _ _ _ _ Hfr va q pr Hw Hq) as (? & _). by apply plain_intro. }
  apply Hcl; [done|]. intros (v & pa & p1 & p2 & Hv & Hs%marked & Hqv & Hcv & Hne); [|done].
  destruct (ready_old v pa p1 q p2) as (Hwv & Hm & _); try done. assert (Hw : window_page va).
  { destruct Hor as [|HF]; [done|]. by apply (ready_frame va q pr). }
  destruct (fr_apart _ _ _ _ Hfr va q pr Hw Hq) as (_ & _ & Hno). by apply (Hno v p2).
Qed.

Lemma child_kept q va pr : window_page va → query_page (vmem s) C va = Some (q, pr) → D va = None ∨ query_page (vmem s) R va = None →
  managed q ∧ plain s' R C q.
Proof using Hfr HD Hcl.
  intros Hw Hc Hno. destruct (wo_frame _ _ (fr_child _ _ _ _ Hfr) va q pr Hw Hc) as (Hm & ? & ? & _). split; [done|].
  apply Hcl; [apply plain_intro; try done; by eapply (fr_child_apart _ _ _ _ Hfr)|].
  intros (v & pa & p1 & p2 & Hv & Hs & Hqv & Hcv & Hne). destruct (ready_old v pa p1 q p2) as (Hwv & _); try done; [by apply marked|].
  assert (v = va) by (eapply (wo_inj _ _ (fr_child _ _ _ _ Hfr)); done). subst v. destruct Hno as [Hn|Hn]; [rewrite Hn in Hs; by destruct Hs|congruence].
Qed.

Lemma window_user va : window_page va → user_page va.
Proof. intros Hw. split; [by apply window_u32|apply Hw]. Qed.

(** A mapped page of the private part comes from a table, since the root had no leaf there. *)
Lemma grown_l0 root va pa pr : window_ok s root → root_grows (vmem s) (vmem s') root → window_page va →
  query_page (vmem s') root va = Some (pa, pr) → is_Some (l0_of (vmem s') root (vpn1 va)).
Proof.
  intros Hwo Hg Hw Hq. destruct (vpn_range va (window_u32 va Hw)) as [Hi _]. destruct (Hg _ Hi) as [E|?]; [|done].
  destruct (l0_of (vmem s') root (vpn1 va)) eqn:Hl; [done|]. exfalso. rewrite (l0_of_ext _ _ _ _ E) in Hl.
  rewrite (query_root (vmem s) (vmem s') root va Hl E) in Hq. destruct (wo_frame _ _ Hwo va pa pr Hw Hq) as (_ & _ & _ & Hs). rewrite Hl in Hs. by destruct Hs.
Qed.

Lemma cloned_window_parent : window_ok s' R.
Proof using Hfr HD Hcl.
  assert (Hback : ∀ va pa pr, window_page va → query_page (vmem s') R va = Some (pa, pr) → ∃ pr0, query_page (vmem s) R va = Some (pa, pr0)).
  { intros va pa pr Hw. rewrite (cl_parent _ _ _ _ _ _ Hcl) by (by apply window_user).
    destruct (DP va), (query_page (vmem s) R va) as [[]|]; intros [= <- _]; eauto. }
  split.
  - intros va pa pr Hw Hq. destruct (Hback va pa pr Hw Hq) as [pr0 Hq0].
    destruct (wo_frame _ _ (fr_parent _ _ _ _ Hfr) va pa pr0 Hw Hq0) as (Hm & _).
    destruct (parent_kept pa va pr0) as [Hp _]; [by apply window_user|done|by left|].
    destruct (plain_managed _ _ _ _ Hp Hm) as (? & ? & _). split_and!; try done.
    eapply grown_l0; [apply Hfr|apply Hcl|done|done].
  - intros va va' pa pr pr' Hw Hw' Hq Hq'. destruct (Hback _ _ _ Hw Hq) as [p0 Hq0], (Hback _ _ _ Hw' Hq') as [p0' Hq0'].
    by eapply (wo_inj _ _ (fr_parent _ _ _ _ Hfr)).
Qed.

Lemma cloned_window_child : window_ok s' C.
Proof using Hfr HD Hcl.
  assert (Hback : ∀ va pa pr, window_page va → query_page (vmem s') C va = Some (pa, pr) →
    (∃ pr0, query_page (vmem s) R va = Some (pa, pr0)) ∨ (query_page (vmem s) C va = Some (pa, pr) ∧ (D va = None ∨ query_page (vmem s) R va = None))).
  { intros va pa pr Hw. rewrite (cl_child _ _ _ _ _ _ Hcl) by (by apply window_user).
    destruct (D va), (query_page (vmem s) R va) as [[]|]; try (intros [= <- _]; eauto); eauto. }
  split.
  - intros va pa pr Hw Hq. assert (Hmp : managed pa ∧ plain s' R C pa).
    { destruct (Hback va pa pr Hw Hq) as [[pr0 Hq0]|[Hc Hno]]; [|by eapply child_kept].
      destruct (wo_frame _ _ (fr_parent _ _ _ _ Hfr) va pa pr0 Hw Hq0) as (Hm & _). split; [done|].
      apply (parent_kept pa va pr0); [by apply window_user|done|by left]. }
    destruct Hmp as [Hm Hp]. destruct (plain_managed _ _ _ _ Hp Hm) as (? & _ & ?). split_and!; try done.
    eapply grown_l0; [apply Hfr|apply Hcl|done|done].
  - intros va va' pa pr pr' Hw Hw' Hq Hq'.
    destruct (Hback _ _ _ Hw Hq) as [[p0 Hq0]|[Hc0 _]], (Hback _ _ _ Hw' Hq') as [[p0' Hq0']|[Hc0' _]].
    + by eapply (wo_inj _ _ (fr_parent _ _ _ _ Hfr)).
    + destruct (fr_apart _ _ _ _ Hfr va pa p0 Hw Hq0) as (_ & _ & Hno). by destruct (Hno va' pr').
    + destruct (fr_apart _ _ _ _ Hfr va' pa p0' Hw' Hq0') as (_ & _ & Hno). by destruct (Hno va pr).
    + by eapply (wo_inj _ _ (fr_child _ _ _ _ Hfr)).
Qed.

(** The parent still reads what it read. *)
Lemma cloned_parent_bytes va k : user_page va → window_page va ∨ is_Some (F va) → 0 ≤ k < 4096 → page_byte s' R va k = page_byte s R va k.
Proof using Hfr HD Hcl.
  intros Hu Hor Hk. unfold page_byte. rewrite (cl_parent _ _ _ _ _ _ Hcl va Hu). destruct (query_page (vmem s) R va) as [[pa pr]|] eqn:Hq; [|by destruct (DP va)].
  assert (E : rd (vmem s') (pa + k) = rd (vmem s) (pa + k)) by (apply (parent_kept pa va pr); try done; unfold in_block; lia).
  destruct (DP va); simpl; by rewrite E.
Qed.
(** So does the child where the clone has been. *)
Lemma cloned_child_bytes va k : user_page va → is_Some (D va) → is_Some (query_page (vmem s) R va) → 0 ≤ k < 4096 → page_byte s' C va k = page_byte s R va k.
Proof using Hfr HD Hcl.
  intros Hu Hs Hm Hk. unfold page_byte. rewrite (cl_child _ _ _ _ _ _ Hcl va Hu). pose proof (marked va Hu Hs) as HF. destruct Hs as [c ->].
  destruct (query_page (vmem s) R va) as [[pa pr]|] eqn:Hq; [|by destruct Hm]. simpl. f_equal.
  apply (parent_kept pa va pr); try done; [by right|unfold in_block; lia].
Qed.
End after.
End ready.

(** ** The whole of [proc_vm_clone] *)
Lemma area_marks_wf l : vmas_ok l → (∀ a, ¬ area l a 2) → Forall vma_wf l ∧ Forall (λ v, vma_used v = true → vma_prot v ≠ 2) l.
Proof.
  intros Hok H2. split; apply Forall_forall; intros v [i Hi]%list_elem_of_lookup.
  - by eapply (vo_wf _ Hok).
  - intros Hu E. destruct (vo_wf _ Hok i v Hi Hu) as (? & _). apply (H2 (vma_start v)). exists i, v. split; [done|]. split_and!; (done || lia).
Qed.

Definition clone_result s parent R C (r : Z) s' : Prop :=
  let F := area_marks (vmas parent) in
  two_spaces s' R C ∧ window_ok s' R ∧ window_ok s' C ∧
  (∀ va k, user_page va → window_page va ∨ is_Some (F va) → 0 ≤ k < 4096 → page_byte s' R va k = page_byte s R va k) ∧
  if decide (r = 0) then cloned s R C F F s' ∧
    (∀ va k, user_page va → is_Some (F va) → is_Some (query_page (vmem s) R va) → 0 ≤ k < 4096 → page_byte s' C va k = page_byte s R va k)
  else r = -1 ∧ ∃ DP D, within DP F ∧ within D F ∧ cloned s R C DP D s'.

Lemma proc_vm_clone_spec s parent child R C :
  satp parent = vm_make_satp R → satp child = vm_make_satp C → vmas_ok (vmas parent) → (∀ a, ¬ area (vmas parent) a 2) →
  fork_ready s R C (area_marks (vmas parent)) →
  wp (proc_vm_clone parent child) (clone_result s parent R C) s.
Proof.
  intros HR HC Hv H2 Hfr. unfold proc_vm_clone. rewrite HR, HC. destruct (area_marks_wf _ Hv H2) as [Hwf Hrw].
  eapply wp_mono; [apply clone_vmas_spec; try done; [by apply ready_clonable|apply Hv]|]. intros r s' [Hp Hr]. unfold clone_result. cbv zeta.
  set (F := area_marks (vmas parent)) in *. assert (Hall : ∃ DP D, within DP F ∧ within D F ∧ cloned s R C DP D s').
  { destruct (r =? 0); simpl in Hp; [|done]. exists F, F. by split_and!; try apply within_refl. }
  destruct Hall as (DP & D & HP & HD & Hcl). split; [apply Hcl|]. split; [by eapply cloned_window_parent|]. split; [by eapply cloned_window_child|].
  split; [by eapply cloned_parent_bytes|]. destruct Hr as [->| ->]; simpl in *; [|done]. split; [done|].
  intros va k Hu HF. apply (cloned_child_bytes s R C F Hfr F F s' (within_refl F) Hp va k Hu HF).
Qed.

(** A fault in one space leaves the other. *)
Lemma fault_elsewhere s R C va s' : two_spaces s R C → fault_frame s C va s' → ∀ v, is_u32 v → query_page (vmem s') R v = query_page (vmem s) R v.
Proof.
  intros [[_ HR] _ Ha] (_ & _ & _ & _ & Hx). apply (pt_frame (vm_refs s) (vm_refs s) (vmem s) (vmem s') R HR).
  - intros t x Ht Hxt. destruct (pt_page_managed _ _ _ _ HR Ht) as [Hm Hr]. apply (Hx t x); [|done]. split; [eauto with kernel|left]. by auto.
  - intros t Ht. by apply (pt_page_managed _ _ _ _ HR Ht).
Qed.
End clone.
