(* ===== verification/Sched.v ===== *)
(** * The scheduler, [src/kernel/process/sched.c]

    [procs] is the process table, [current_proc] and [idle_proc] are indices
    into it. *)

From S2P Require Import Prelude Proc.

Record sched_state := SchedState {
  procs : list process;
  current_proc : nat;
  idle_proc : nat;
  hart_satp : Z;
}.

Definition is_schedulable (p : process) : bool :=
  bool_decide (state p = PROC_RUNNABLE) && (0 <? pid p).
Definition is_eligible_for_pick (p : process) : bool := is_schedulable p && (0 <? budget p).

(** The loop of [pick_next_runnable_index] from [i], with [k] rounds left.  A
    missing entry stands for one that is not eligible. *)
Fixpoint pick_loop (k : nat) (i : Z) (l : list process) (start_index best_idx best_budget : Z) : Z :=
  match k with
  | O => best_idx
  | S k' =>
      let idx := (start_index + i) mod PROC_MAX in
      match aget l idx with
      | Some p =>
          if is_eligible_for_pick p && (best_budget <? budget p)
          then pick_loop k' (i + 1) l start_index idx (budget p)
          else pick_loop k' (i + 1) l start_index best_idx best_budget
      | None => pick_loop k' (i + 1) l start_index best_idx best_budget
      end
  end.
Definition pick_next_runnable_index (l : list process) (start_index : Z) : Z :=
  pick_loop 8 1 l start_index (-1) (-1).

Definition refill_budget (p : process) : process :=
  if negb (is_schedulable p) then p
  else
    let p := if priority p <? 1 then set_priority 1 p else p in
    set_budget (priority p) p.
Definition refill_budgets (l : list process) : list process := refill_budget <$> l.

(** [yield] up to [switch_context]: which process runs next and what it finds. *)
Definition charge_current (l : list process) (cur : nat) : list process :=
  match l !! cur with
  | Some p => if is_eligible_for_pick p then <[cur := set_budget (budget p - 1) p]> l else l
  | None => l
  end.
Definition pick_or_refill (l : list process) (cur : nat) : list process * Z :=
  let next_idx := pick_next_runnable_index l cur in
  if next_idx <? 0 then
    let l := refill_budgets l in (l, pick_next_runnable_index l cur)
  else (l, next_idx).
Definition yield (s : sched_state) : sched_state :=
  let l := charge_current (procs s) (current_proc s) in
  let '(l, next_idx) := pick_or_refill l (current_proc s) in
  let next := if 0 <=? next_idx then Z.to_nat next_idx else idle_proc s in
  if bool_decide (next = current_proc s) then SchedState l (current_proc s) (idle_proc s) (hart_satp s)
  else
    SchedState l next (idle_proc s)
      (match l !! next with Some p => satp p | None => hart_satp s end).

(** ** Picking *)

(** Distance from [start] in the order of the search: 1 for the next entry,
    8 for [start] itself. *)
Definition turn (start idx : Z) : Z := (idx - start - 1) mod 8 + 1.

Definition eligible_at (l : list process) (idx b : Z) : Prop :=
  ∃ p, aget l idx = Some p ∧ is_eligible_for_pick p = true ∧ budget p = b.

(** What the loop has found among the entries of turn less than [i]. *)
Definition best_so_far (l : list process) (start i best b : Z) : Prop :=
  (best = -1 ∧ b = -1 ∧ ∀ j c, eligible_at l j c → 0 ≤ j < 8 → i ≤ turn start j) ∨
  (0 ≤ best < 8 ∧ eligible_at l best b ∧ turn start best < i ∧
   ∀ j c, eligible_at l j c → 0 ≤ j < 8 → turn start j < i →
     c < b ∨ (c = b ∧ turn start best ≤ turn start j)).

Lemma turn_idx start i : 0 ≤ start → 1 ≤ i ≤ 8 → turn start ((start + i) mod 8) = i.
Proof. intros. unfold turn. Z.div_mod_to_equations. lia. Qed.

Lemma turn_inj start i j : 0 ≤ start → 0 ≤ j < 8 → turn start j = i → j = (start + i) mod 8.
Proof. intros ? ? <-. unfold turn. Z.div_mod_to_equations. lia. Qed.

Lemma eligible_pos l j c : eligible_at l j c → 0 < c.
Proof.
  intros (p & _ & He & <-). unfold is_eligible_for_pick in He. apply andb_true_iff in He as [_ He].
  by apply Z.ltb_lt.
Qed.

Lemma eligible_fun l j c c' : eligible_at l j c → eligible_at l j c' → c = c'.
Proof. intros (p & Hp & _ & <-) (p' & Hp' & _ & <-). congruence. Qed.

Lemma pick_loop_spec l start : ∀ k i best b,
  0 ≤ start → 1 ≤ i → i + Z.of_nat k = 9 → best_so_far l start i best b →
  ∃ b', best_so_far l start 9 (pick_loop k i l start best b) b'.
Proof.
  intros k. induction k as [|k IH]; intros i best b Hs Hi Hk Hb; simpl.
  - exists b. by replace 9 with i by lia.
  - unfold PROC_MAX. set (idx := (start + i) mod 8).
    assert (Hidx : 0 ≤ idx < 8) by (unfold idx; Z.div_mod_to_equations; lia).
    assert (Ht : turn start idx = i) by (apply turn_idx; lia).
    assert (Hu : ∀ j, 0 ≤ j < 8 → turn start j = i → j = idx).
    { intros j Hj He. by apply (turn_inj start i j). }
    assert (Hskip : (∀ c, eligible_at l idx c → c ≤ b ∧ best ≠ -1) → best_so_far l start (i + 1) best b).
    { intros Hno. destruct Hb as [(-> & -> & Hn)|(Hbb & He & Htb & Hm)].
      - left. split_and!; try done. intros j c Hj Hjb. pose proof (Hn j c Hj Hjb).
        destruct (decide (turn start j = i)) as [Heq|]; [|lia].
        rewrite (Hu j Hjb Heq) in Hj. by destruct (Hno c Hj).
      - right. split_and!; try done; try lia. intros j c Hj Hjb Htj.
        destruct (decide (turn start j = i)) as [Heq|]; [|apply Hm; (done || lia)].
        rewrite (Hu j Hjb Heq) in Hj. destruct (Hno c Hj). rewrite Heq. lia. }
    destruct (aget l idx) as [p|] eqn:Hp.
    2: { apply IH; try lia. apply Hskip. intros c (q & Hq & _). congruence. }
    destruct (is_eligible_for_pick p) eqn:He; simpl.
    2: { apply IH; try lia. apply Hskip. intros c (q & Hq & Heq & _). congruence. }
    assert (Hel : eligible_at l idx (budget p)) by (by exists p).
    destruct (Z.ltb_spec b (budget p)) as [Hlt|Hge].
    + apply IH; try lia. right. split_and!; try lia; [done|].
      intros j c Hj Hjb Htj. destruct (decide (turn start j = i)) as [Heq|].
      { rewrite (Hu j Hjb Heq) in Hj. right. rewrite (eligible_fun _ _ _ _ Hj Hel). lia. }
      left. destruct Hb as [(_ & _ & Hn)|(_ & _ & _ & Hm)].
      * pose proof (Hn j c Hj Hjb). lia.
      * destruct (Hm j c Hj Hjb); lia.
    + apply IH; try lia. apply Hskip. intros c Hc. rewrite (eligible_fun _ _ _ _ Hc Hel).
      pose proof (eligible_pos _ _ _ Hel). split; [done|]. destruct Hb as [(_ & -> & _)|(? & _)]; lia.
Qed.

Lemma turn_bound start j : 1 ≤ turn start j ≤ 8.
Proof. unfold turn. Z.div_mod_to_equations. lia. Qed.

Lemma pick_next_spec l start :
  0 ≤ start →
  let r := pick_next_runnable_index l start in
  (r = -1 ∧ ∀ j c, 0 ≤ j < 8 → ¬ eligible_at l j c) ∨
  (0 ≤ r < 8 ∧ ∃ b, eligible_at l r b ∧ ∀ j c, 0 ≤ j < 8 → eligible_at l j c →
     c < b ∨ (c = b ∧ turn start r ≤ turn start j)).
Proof.
  intros Hs. cbn zeta. unfold pick_next_runnable_index.
  destruct (pick_loop_spec l start 8 1 (-1) (-1)) as [b Hb]; try lia.
  { left. split_and!; try done. intros j c _ _. apply turn_bound. }
  set (r := pick_loop 8 1 l start (-1) (-1)) in *. clearbody r.
  destruct Hb as [(-> & _ & Hn)|(Hr & He & _ & Hm)]; [left|right].
  - split; [done|]. intros j c Hj Hc. pose proof (Hn j c Hc Hj). pose proof (turn_bound start j). lia.
  - split; [done|]. exists b. split; [done|]. intros j c Hj Hc. apply Hm; try done.
    pose proof (turn_bound start j). lia.
Qed.

(** ** Budgets *)

(** The rounds a process may still use before the next refill. *)
Definition credit (p : process) : Z := if is_schedulable p then Z.max 0 (budget p) else 0.
Fixpoint total (l : list process) : Z := match l with [] => 0 | p :: l' => credit p + total l' end.

Lemma credit_nonneg p : 0 ≤ credit p.
Proof. unfold credit. destruct (is_schedulable p); lia. Qed.

Lemma total_nonneg l : 0 ≤ total l.
Proof. induction l as [|p l IH]; simpl; [done|]. pose proof (credit_nonneg p). lia. Qed.

Lemma total_insert l i p q : l !! i = Some p → total (<[i := q]> l) = total l - credit p + credit q.
Proof.
  revert i. induction l as [|r l IH]; intros [|i] Hl; simpl in *; try done.
  - injection Hl as ->. lia.
  - rewrite (IH i Hl). lia.
Qed.

Lemma credit_pos_iff p : is_eligible_for_pick p = true ↔ 0 < credit p.
Proof.
  unfold is_eligible_for_pick, credit. destruct (is_schedulable p); simpl; [|lia].
  rewrite Z.ltb_lt. lia.
Qed.

Lemma total_pos l : 0 < total l ↔ ∃ i p, l !! i = Some p ∧ is_eligible_for_pick p = true.
Proof.
  induction l as [|q l IH]; simpl.
  - split; [lia|]. by intros (i & p & ? & _).
  - pose proof (total_nonneg l). pose proof (credit_nonneg q). split.
    + intros Hp. destruct (decide (0 < credit q)) as [Hq|Hq].
      * exists 0%nat, q. split; [done|]. by apply credit_pos_iff.
      * destruct (proj1 IH) as (i & p & Hi & He); [lia|]. by exists (S i), p.
    + intros ([|i] & p & Hi & He); simpl in Hi.
      * injection Hi as ->. apply credit_pos_iff in He. lia.
      * assert (0 < total l) by (apply IH; eauto). lia.
Qed.

(** ** One yield *)

(** Same process, but for its budget and a priority raised to the minimum. *)
Definition same_but_budget (p q : process) : Prop :=
  q = set_budget (budget q) (set_priority (priority q) p) ∧ Z.max 1 (priority q) = Z.max 1 (priority p).

Lemma same_but_budget_sched p q : same_but_budget p q → is_schedulable q = is_schedulable p.
Proof. intros [-> _]. done. Qed.

#[export] Instance same_but_budget_po : PreOrder same_but_budget.
Proof.
  split.
  - intros p. split; [by destruct p|done].
  - intros p q r [Hq Hq'] [Hr Hr']. split; [rewrite Hr, Hq; done|congruence].
Qed.

Lemma refill_same p : same_but_budget p (refill_budget p).
Proof.
  unfold refill_budget. destruct (is_schedulable p); simpl; [|reflexivity].
  destruct (Z.ltb_spec (priority p) 1); split; simpl; try done; lia.
Qed.

Lemma refill_eligible p : is_schedulable p = true → is_eligible_for_pick (refill_budget p) = true.
Proof.
  intros Hs. unfold is_eligible_for_pick. rewrite (same_but_budget_sched _ _ (refill_same p)), Hs.
  unfold refill_budget. rewrite Hs. simpl. destruct (Z.ltb_spec (priority p) 1); simpl; apply Z.ltb_lt; lia.
Qed.

(** Refilling depends on the processes only up to their budgets. *)
Lemma refill_credit p q : same_but_budget p q → credit (refill_budget q) = credit (refill_budget p).
Proof.
  intros Hpq. pose proof (same_but_budget_sched _ _ Hpq) as Hs. destruct Hpq as [_ Hm].
  unfold credit. rewrite !(same_but_budget_sched _ _ (refill_same _)), Hs.
  destruct (is_schedulable p) eqn:Hp; [|done]. unfold refill_budget. rewrite Hs, Hp. simpl.
  destruct (Z.ltb_spec (priority p) 1), (Z.ltb_spec (priority q) 1); simpl; lia.
Qed.

Lemma refill_total l l' : Forall2 same_but_budget l l' → total (refill_budgets l') = total (refill_budgets l).
Proof. induction 1 as [|p q l l' Hpq _ IH]; simpl; [done|]. by rewrite IH, (refill_credit p q). Qed.

Lemma Forall2_refill l : Forall2 same_but_budget l (refill_budgets l).
Proof. induction l; simpl; constructor; [apply refill_same|done]. Qed.

Record sched_ok (s : sched_state) : Prop := {
  so_len : length (procs s) = 8%nat;
  so_cur : (current_proc s < 8)%nat;
  so_idle : (idle_proc s < 8)%nat;
}.

Lemma aget_nat {A} (l : list A) (i : nat) : aget l i = l !! i.
Proof. unfold aget. destruct (Z.ltb_spec i 0); [lia|]. by rewrite Nat2Z.id. Qed.

Lemma aget_to_nat {A} (l : list A) (i : Z) : 0 ≤ i → aget l i = l !! Z.to_nat i.
Proof. intros. unfold aget. destruct (Z.ltb_spec i 0); [lia|done]. Qed.

Lemma Forall2_insert_self l i p q :
  l !! i = Some p → same_but_budget p q → Forall2 same_but_budget l (<[i := q]> l).
Proof.
  revert i. induction l as [|r l IH]; intros [|i] Hl Hpq; simpl in *; try done.
  - injection Hl as ->. constructor; [done|]. by apply Forall_Forall2_diag, Forall_true.
  - constructor; [reflexivity|eauto].
Qed.

Lemma charge_same l cur : Forall2 same_but_budget l (charge_current l cur).
Proof.
  assert (Hid : Forall2 same_but_budget l l) by (by apply Forall_Forall2_diag, Forall_true).
  unfold charge_current. destruct (l !! cur) as [p|] eqn:Hp; [|done].
  destruct (is_eligible_for_pick p); [|done]. apply (Forall2_insert_self l cur p); [done|].
  split; [by destruct p|done].
Qed.

Lemma charge_total l cur p :
  l !! cur = Some p → is_eligible_for_pick p = true → total (charge_current l cur) = total l - 1.
Proof.
  intros Hp He. unfold charge_current. rewrite Hp, He. rewrite (total_insert _ _ p) by done.
  unfold is_eligible_for_pick in He. apply andb_true_iff in He as [Hs Hb%Z.ltb_lt].
  unfold credit. change (is_schedulable (set_budget (budget p - 1) p)) with (is_schedulable p).
  rewrite Hs. simpl. lia.
Qed.

(** [p] at entry [r] is the choice of a search from [cur]: eligible, with the
    largest budget, and the first of those in the order of the search. *)
Definition chosen (l : list process) (cur : nat) (r : Z) : Prop :=
  0 ≤ r < 8 ∧ ∃ p, l !! Z.to_nat r = Some p ∧ is_eligible_for_pick p = true ∧
    ∀ (j : nat) q, l !! j = Some q → is_eligible_for_pick q = true →
      budget q < budget p ∨ (budget q = budget p ∧ turn cur r ≤ turn cur j).

Lemma pick_found l (cur : nat) :
  length l = 8%nat →
  let r := pick_next_runnable_index l cur in
  (r = -1 ∧ total l = 0) ∨ (0 < total l ∧ chosen l cur r).
Proof.
  intros Hlen. cbn zeta.
  assert (Hel : ∀ (j : nat) q, l !! j = Some q → is_eligible_for_pick q = true →
    0 ≤ j < 8 ∧ eligible_at l j (budget q)).
  { intros j q Hj Hq. pose proof (lookup_lt_Some _ _ _ Hj). split; [lia|].
    exists q. by rewrite aget_nat. }
  destruct (pick_next_spec l cur) as [[-> Hn]|(Hr & b & (p & Hp & He & Hb) & Hm)]; [lia|left|right].
  - split; [done|]. pose proof (total_nonneg l). destruct (decide (0 < total l)) as [Hpos|]; [|lia].
    apply total_pos in Hpos as (i & p & Hi & He). destruct (Hel i p Hi He) as [Hb Hea].
    by destruct (Hn i (budget p) Hb).
  - rewrite aget_to_nat in Hp by lia. split; [apply total_pos; eauto|]. split; [done|].
    exists p. split_and!; try done. intros j q Hj Hq. destruct (Hel j q Hj Hq) as [Hjb Hea].
    rewrite Hb. by apply (Hm j (budget q)).
Qed.

(** The pick, with the refill when nobody has budget left. *)
Lemma pick_or_refill_spec l cur l' r :
  length l = 8%nat → pick_or_refill l cur = (l', r) →
  Forall2 same_but_budget l l' ∧
  (0 < total l → l' = l) ∧ (total l = 0 → l' = refill_budgets l) ∧
  ((∀ i p, l !! i = Some p → is_schedulable p = false) ∧ r = -1 ∨ chosen l' cur r).
Proof.
  intros Hlen. unfold pick_or_refill.
  destruct (pick_found l cur Hlen) as [[Hr Ht]|(Ht & Hc)]; cbn zeta in *.
  - rewrite Hr. simpl. intros [= <- <-]. split; [apply Forall2_refill|]. split; [lia|]. split; [done|].
    assert (Hlen' : length (refill_budgets l) = 8%nat) by (unfold refill_budgets; by rewrite length_fmap).
    destruct (pick_found (refill_budgets l) cur Hlen') as [[-> Ht']|(_ & Hp')]; [left|by right].
    split; [|done]. intros i p Hi. destruct (is_schedulable p) eqn:Hs; [|done].
    assert (0 < total (refill_budgets l)); [|lia]. apply total_pos.
    exists i, (refill_budget p). unfold refill_budgets. rewrite list_lookup_fmap, Hi.
    split; [done|]. by apply refill_eligible.
  - destruct (Z.ltb_spec (pick_next_runnable_index l cur) 0); [destruct Hc; lia|]. intros [= <- <-].
    split; [by apply Forall_Forall2_diag, Forall_true|]. split; [done|]. split; [lia|]. by right.
Qed.

(** Which process runs after a yield. *)
Lemma yield_spec s :
  sched_ok s →
  let l := charge_current (procs s) (current_proc s) in
  let s' := yield s in
  sched_ok s' ∧ idle_proc s' = idle_proc s ∧ Forall2 same_but_budget (procs s) (procs s') ∧
  (0 < total l → procs s' = l) ∧ (total l = 0 → procs s' = refill_budgets l) ∧
  (((∀ i p, procs s !! i = Some p → is_schedulable p = false) ∧ current_proc s' = idle_proc s) ∨
   chosen (procs s') (current_proc s) (current_proc s')) ∧
  (current_proc s' = current_proc s ∨ ∃ p, procs s' !! current_proc s' = Some p ∧ hart_satp s' = satp p).
Proof.
  intros [Hlen Hcur Hidle]. cbn zeta. pose proof (charge_same (procs s) (current_proc s)) as Hch.
  unfold yield. set (l := charge_current (procs s) (current_proc s)) in *.
  assert (Hl : length l = 8%nat) by (by rewrite <-(Forall2_length _ _ _ Hch)).
  destruct (pick_or_refill l (current_proc s)) as [l' r] eqn:Hp.
  destruct (pick_or_refill_spec l (current_proc s) l' r Hl Hp) as (H2 & Hpos & Hz & Hr).
  assert (Hl' : length l' = 8%nat) by (by rewrite <-(Forall2_length _ _ _ H2)).
  assert (H12 : Forall2 same_but_budget (procs s) l').
  { by etrans. }
  set (next := if 0 <=? r then Z.to_nat r else idle_proc s).
  assert (Hn8 : (next < 8)%nat).
  { unfold next. destruct Hr as [[_ ->]|[? _]]; [done|]. zcases; lia. }
  assert (Hch' : ((∀ i p, procs s !! i = Some p → is_schedulable p = false) ∧ next = idle_proc s) ∨
    chosen l' (current_proc s) next).
  { unfold next. destruct Hr as [[Hno ->]|Hc]; [left|right].
    - split; [|done]. intros i p Hi. destruct (Forall2_lookup_l _ _ _ _ _ Hch Hi) as (q & Hq & Hpq).
      rewrite <-(same_but_budget_sched p q) by done. by eapply Hno.
    - pose proof Hc as [Hrb _]. destruct (Z.leb_spec 0 r); [|lia]. by rewrite Z2Nat.id. }
  case_bool_decide as Hnc.
  - split; [by split|]. simpl. rewrite Hnc in Hch'. split_and!; try done. by left.
  - split; [by split|]. simpl. split_and!; try done. right. destruct (lookup_lt_is_Some_2 l' next) as [p Hp']; [lia|].
    exists p. by rewrite Hp'.
Qed.

(** ** No process starves *)
Lemma eligible_other l cur i p :
  i ≠ cur → l !! i = Some p → charge_current l cur !! i = Some p.
Proof.
  intros Hne Hi. unfold charge_current. destruct (l !! cur) as [q|]; [|done].
  destruct (is_eligible_for_pick q); [|done]. by rewrite list_lookup_insert_ne.
Qed.

(** The running process has budget: true after every yield that found one. *)
Definition cur_eligible (s : sched_state) : Prop :=
  ∃ p, procs s !! current_proc s = Some p ∧ is_eligible_for_pick p = true.

Lemma yield_step s :
  sched_ok s → cur_eligible s →
  let s' := yield s in
  sched_ok s' ∧ cur_eligible s' ∧ total (refill_budgets (procs s')) = total (refill_budgets (procs s)) ∧
  (∀ i p, procs s !! i = Some p → is_schedulable p = true → ∃ q, procs s' !! i = Some q ∧ is_schedulable q = true) ∧
  ((1 < total (procs s) ∧ total (procs s') = total (procs s) - 1 ∧
    ∀ i p, i ≠ current_proc s → procs s !! i = Some p → procs s' !! i = Some p) ∨
   (total (procs s) = 1 ∧ total (procs s') = total (refill_budgets (procs s)) ∧
    ∀ i p, procs s !! i = Some p → is_schedulable p = true →
      ∃ q, procs s' !! i = Some q ∧ is_eligible_for_pick q = true)).
Proof.
  intros Hok (p & Hp & He). cbn zeta.
  destruct (yield_spec s Hok) as (Hok' & _ & H2 & Hpos & Hz & Hch & _).
  pose proof (charge_total _ _ _ Hp He) as Ht. pose proof (charge_same (procs s) (current_proc s)) as Hcs.
  set (l := charge_current _ _) in *. pose proof (total_nonneg l).
  assert (Hsch : ∀ i q, procs s !! i = Some q → is_schedulable q = true →
    ∃ q', procs (yield s) !! i = Some q' ∧ is_schedulable q' = true).
  { intros i q Hi Hs. destruct (Forall2_lookup_l _ _ _ _ _ H2 Hi) as (q' & Hq' & Hqq).
    exists q'. split; [done|]. by rewrite (same_but_budget_sched q q'). }
  split_and!; try done.
  - destruct Hch as [[Hno _]|(_ & q & Hq & Hqe & _)].
    + apply Hno in Hp. unfold is_eligible_for_pick in He. by rewrite Hp in He.
    + exists q. by rewrite Nat2Z.id in Hq.
  - by apply refill_total.
  - destruct (decide (total l = 0)) as [Hl0|Hl0]; [right|left].
    + rewrite (Hz Hl0). split_and!; [lia|by apply refill_total|].
      intros i q Hi Hs. destruct (Forall2_lookup_l _ _ _ _ _ Hcs Hi) as (q' & Hq' & Hqq).
      exists (refill_budget q'). unfold refill_budgets. rewrite list_lookup_fmap, Hq'. split; [done|].
      apply refill_eligible. by rewrite (same_but_budget_sched q q').
    + rewrite Hpos by lia. split_and!; [lia..|]. intros i q Hne Hi. by apply eligible_other.
Qed.

Definition yields (k : nat) (s : sched_state) : sched_state := Nat.iter k yield s.

Lemma yields_S k s : yields (S k) s = yields k (yield s).
Proof. unfold yields. by rewrite Nat.iter_succ_r. Qed.

(** A process with budget runs before the budgets are used up. *)
Lemma eligible_runs n : ∀ s i p,
  sched_ok s → cur_eligible s → total (procs s) ≤ Z.of_nat n →
  procs s !! i = Some p → is_eligible_for_pick p = true →
  ∃ k, (k ≤ n)%nat ∧ current_proc (yields k s) = i.
Proof.
  induction n as [|n IH]; intros s i p Hok Hcur Ht Hi He.
  - exfalso. assert (0 < total (procs s)) by (apply total_pos; eauto). lia.
  - destruct (decide (i = current_proc s)) as [->|Hne]; [exists 0%nat; split; [lia|done]|].
    destruct (yield_step s Hok Hcur) as (Hok' & Hcur' & _ & _ & [(H1 & Ht' & Hsame)|(H1 & _)]).
    + destruct (IH (yield s) i p) as (k & Hk & Hrun); try done; [lia|by apply Hsame|].
      exists (S k). rewrite yields_S. split; [lia|done].
    + exfalso. destruct Hcur as (q & Hq & Hqe). apply credit_pos_iff in He, Hqe.
      pose proof (total_insert _ _ _ (set_budget 0 p) Hi) as Hins.
      assert (Hq' : <[i := set_budget 0 p]> (procs s) !! current_proc s = Some q)
        by (by rewrite list_lookup_insert_ne).
      pose proof (total_insert _ _ _ (set_budget 0 q) Hq') as Hins'.
      pose proof (total_nonneg (<[current_proc s:=set_budget 0 q]> (<[i:=set_budget 0 p]> (procs s)))).
      assert (Hc0 : ∀ r, credit (set_budget 0 r) = 0)
        by (intros r; unfold credit; destruct (is_schedulable _); done).
      rewrite !Hc0 in *. lia.
Qed.

(** Any runnable process runs before the next budgets are used up too. *)
Lemma schedulable_runs n : ∀ s i p,
  sched_ok s → cur_eligible s → total (procs s) ≤ Z.of_nat n →
  procs s !! i = Some p → is_schedulable p = true →
  ∃ k, Z.of_nat k ≤ n + total (refill_budgets (procs s)) ∧ current_proc (yields k s) = i.
Proof.
  induction n as [|n IH]; intros s i p Hok Hcur Ht Hi Hs.
  { exfalso. destruct Hcur as (q & Hq & Hqe). assert (0 < total (procs s)) by (apply total_pos; eauto). lia. }
  pose proof (total_nonneg (refill_budgets (procs s))).
  destruct (yield_step s Hok Hcur) as (Hok' & Hcur' & Hrf & Hsch & [(H1 & Ht' & _)|(H1 & Ht' & Hel)]).
  - destruct (Hsch i p Hi Hs) as (q & Hq & Hqs).
    destruct (IH (yield s) i q) as (k & Hk & Hrun); try done; [lia|].
    exists (S k). rewrite yields_S. split; [lia|done].
  - destruct (Hel i p Hi Hs) as (q & Hq & Hqe).
    destruct (eligible_runs (Z.to_nat (total (procs (yield s)))) (yield s) i q) as (k & Hk & Hrun); try done; [lia|].
    exists (S k). rewrite yields_S. split; [lia|done].
Qed.

(** ** The theorems *)






(** C10: no runnable process starves.  As long as processes only yield, every
    runnable process gets the hart within as many yields as the budgets left
    now and the budgets of one refill add up to. *)
Theorem yield_no_starvation s i p :
  sched_ok s → cur_eligible s → procs s !! i = Some p → is_schedulable p = true →
  ∃ k : nat, k ≤ total (procs s) + total (refill_budgets (procs s)) ∧ current_proc (yields k s) = i.
Proof.
  intros Hok Hcur Hi Hs. pose proof (total_nonneg (procs s)).
  destruct (schedulable_runs (Z.to_nat (total (procs s))) s i p) as (k & Hk & Hrun); try done; [lia|].
  exists k. split; [lia|done].
Qed.

(** ** Concrete instances *)

Definition demo_task (id prio b : Z) : process :=
  Process id PROC_RUNNABLE prio b 0 0 false 0 0 0 0 (replicate 16 0) false 0 id zero_frame
    (replicate 16 zero_vma) (replicate 16 zero_fd).
Definition demo_sched : sched_state :=
  SchedState ([demo_task 1 1 1; demo_task 2 4 2; demo_task 3 4 0] ++ replicate 5 zero_process) 1 0 0.

Lemma demo_sched_ok : sched_ok demo_sched.
Proof. split; simpl; lia. Qed.


Lemma yield_no_starvation_witness :
  ∃ k : nat, k ≤ total (procs demo_sched) + total (refill_budgets (procs demo_sched)) ∧
    current_proc (yields k demo_sched) = 2%nat.
Proof.
  apply (yield_no_starvation demo_sched 2 (demo_task 3 4 0)); [exact demo_sched_ok| |reflexivity|reflexivity].
  exists (demo_task 2 4 2). split; reflexivity.
Defined.
