(* ===== verification/WaitQ.v ===== *)
(** * Wait queues, [src/kernel/process/waitq.c]

    A queue holds up to [PROC_MAX] process pointers, modelled as indices into
    the process table.  [waitq_sleep] is cut at its two ends of a critical
    section and at [yield], so that what an interrupt may do in between can be
    stated.  The critical sections run with interrupts off on the only hart, so
    the lock is free whenever one is entered; its value is not tracked. *)

From S2P Require Import Prelude Proc Sched.

(** [struct waitq]; an empty slot is NULL. *)
Record waitq := WaitQ { waiters : list (option nat); wq_lock : Z }.

Definition waitq_init (q : waitq) : waitq := WaitQ (replicate 8 None) 0.

Definition waitq_contains (q : waitq) (p : nat) : bool := existsb (λ w, bool_decide (w = Some p)) (waiters q).

(** [for (...) if (!q->waiters[i]) { q->waiters[i] = current_proc; break; }] *)
Fixpoint fill_first (l : list (option nat)) (p : nat) : list (option nat) :=
  match l with
  | [] => []
  | None :: l' => Some p :: l'
  | w :: l' => w :: fill_first l' p
  end.

(** The critical section of [waitq_sleep]. *)
Definition waitq_enqueue (q : waitq) (cur : nat) : waitq :=
  if waitq_contains q cur then q else WaitQ (fill_first (waiters q) cur) (wq_lock q).

Definition set_proc_state (l : list process) (i : nat) (v : proc_state) : list process :=
  alter (set_state v) i l.

(** The queue and the scheduler together. *)
Record wq_state := WqState { wq : waitq; ws : sched_state }.
Definition set_procs (l : list process) (s : sched_state) : sched_state :=
  SchedState l (current_proc s) (idle_proc s) (hart_satp s).

(** The steps of [waitq_sleep] up to the switch. *)
Definition sleep_enqueue (s : wq_state) : wq_state :=
  WqState (waitq_enqueue (wq s) (current_proc (ws s))) (ws s).
Definition sleep_block (s : wq_state) : wq_state :=
  WqState (wq s) (set_procs (set_proc_state (procs (ws s)) (current_proc (ws s)) PROC_BLOCKED) (ws s)).
Definition waitq_sleep (s : wq_state) : wq_state :=
  if bool_decide (current_proc (ws s) = idle_proc (ws s)) then s
  else
    let s := sleep_block (sleep_enqueue s) in
    WqState (wq s) (yield (ws s)).
(** What the sleeper does when it runs again. *)
Definition sleep_resume (s : wq_state) : wq_state :=
  match procs (ws s) !! current_proc (ws s) with
  | Some p =>
      if bool_decide (state p = PROC_BLOCKED)
      then WqState (wq s) (set_procs (set_proc_state (procs (ws s)) (current_proc (ws s)) PROC_RUNNABLE) (ws s))
      else s
  | None => s
  end.

Definition wake_one (l : list process) (w : option nat) : list process :=
  match w with
  | None => l
  | Some i =>
      match l !! i with
      | Some p => if bool_decide (state p = PROC_BLOCKED) then set_proc_state l i PROC_RUNNABLE else l
      | None => l
      end
  end.
Definition waitq_wake_all (s : wq_state) : wq_state :=
  WqState (WaitQ ((λ _, None) <$> waiters (wq s)) (wq_lock (wq s)))
    (set_procs (fold_left wake_one (waiters (wq s)) (procs (ws s))) (ws s)).

(** ** The queue *)

(** Eight slots, each process at most once, all of them in the table. *)
Record wq_ok (q : waitq) : Prop := {
  wk_len : length (waiters q) = 8%nat;
  wk_nodup : ∀ i j p, waiters q !! i = Some (Some p) → waiters q !! j = Some (Some p) → i = j;
  wk_range : ∀ i p, waiters q !! i = Some (Some p) → (p < 8)%nat;
}.

Definition queued (q : waitq) (p : nat) : Prop := Some p ∈ waiters q.
#[export] Instance queued_dec q p : Decision (queued q p).
Proof. unfold queued. apply _. Defined.

Lemma waitq_contains_spec q p : waitq_contains q p = true ↔ queued q p.
Proof.
  unfold waitq_contains, queued. rewrite existsb_exists. split.
  - intros (w & Hw%list_elem_of_In & Hb%bool_decide_eq_true). by subst w.
  - intros Hp. exists (Some p). split; [by apply list_elem_of_In|]. by apply bool_decide_eq_true.
Qed.

(** Where [fill_first] writes. *)
Lemma fill_first_spec l p :
  (None ∉ l ∧ fill_first l p = l) ∨ ∃ i, l !! i = Some None ∧ fill_first l p = <[i := Some p]> l.
Proof.
  induction l as [|[w|] l IH]; simpl.
  - left. split; [apply not_elem_of_nil|done].
  - destruct IH as [[Hn ->]|(i & Hi & ->)]; [left|right].
    + split; [|done]. rewrite not_elem_of_cons. done.
    + by exists (S i).
  - right. by exists 0%nat.
Qed.

(** Nine slots are never needed: a process that is not queued finds one. *)
Lemma wq_has_room q p : wq_ok q → (p < 8)%nat → ¬ queued q p → None ∈ waiters q.
Proof.
  intros [Hlen Hnd Hr] Hp Hq. destruct (decide (None ∈ waiters q)) as [|Hn]; [done|]. exfalso.
  set (l := omap id (waiters q)).
  assert (Hall : ∀ w, w ∈ waiters q → ∃ x, w = Some x).
  { intros [x|] Hw; [eauto|done]. }
  assert (Hw : waiters q = Some <$> l).
  { unfold l. clear -Hall. induction (waiters q) as [|w ws IH]; [done|].
    destruct (Hall w) as [x ->]; [by left|]. simpl. f_equal. apply IH. intros w Hw. apply Hall. by right. }
  assert (Hnodup : NoDup (p :: l)).
  { apply NoDup_cons. split.
    - intros Hin. apply Hq. unfold queued. rewrite Hw. by apply list_elem_of_fmap_2.
    - apply NoDup_alt. intros i j x Hi Hj. apply (Hnd i j x); rewrite Hw, list_lookup_fmap; [by rewrite Hi|by rewrite Hj]. }
  assert (Hsub : p :: l ⊆ seq 0 8).
  { intros x [->|Hx]%elem_of_cons; apply elem_of_seq; [lia|].
    apply list_elem_of_lookup in Hx as [i Hi]. assert (x < 8)%nat; [|lia].
    apply (Hr i). by rewrite Hw, list_lookup_fmap, Hi. }
  pose proof (NoDup_submseteq _ _ Hnodup Hsub) as Hsm. apply submseteq_length in Hsm.
  rewrite length_seq in Hsm. simpl in Hsm. rewrite Hw, length_fmap in Hlen. lia.
Qed.

Lemma waitq_enqueue_spec q p :
  wq_ok q → (p < 8)%nat →
  wq_ok (waitq_enqueue q p) ∧ ∀ r, queued (waitq_enqueue q p) r ↔ queued q r ∨ r = p.
Proof.
  intros Hok Hp. unfold waitq_enqueue. destruct (waitq_contains q p) eqn:Hc.
  - apply waitq_contains_spec in Hc. split; [done|]. intros r. split; [by left|]. by intros [?| ->].
  - assert (Hn : ¬ queued q p) by (rewrite <-waitq_contains_spec; congruence).
    pose proof (wq_has_room q p Hok Hp Hn) as Hroom. destruct Hok as [Hlen Hnd Hr].
    destruct (fill_first_spec (waiters q) p) as [[? _]|(i & Hi & ->)]; [done|].
    assert (Hlt : (i < length (waiters q))%nat) by (by eapply lookup_lt_Some).
    assert (Hlook : ∀ j r, <[i := Some p]> (waiters q) !! j = Some (Some r) ↔
      (j = i ∧ r = p) ∨ (j ≠ i ∧ waiters q !! j = Some (Some r))).
    { intros j r. destruct (decide (j = i)) as [->|Hne].
      - rewrite list_lookup_insert_eq by done. naive_solver.
      - rewrite list_lookup_insert_ne by done. naive_solver. }
    assert (Hnp : ∀ j, waiters q !! j ≠ Some (Some p)).
    { intros j Hj. apply Hn. by eapply list_elem_of_lookup_2. }
    split; [split|]; simpl.
    + by rewrite length_insert.
    + intros j k r [[-> ->]|[? Hj]]%Hlook [[-> ?]|[? Hk]]%Hlook; subst; try done.
      * by apply Hnp in Hk.
      * by apply Hnp in Hj.
      * by eapply Hnd.
    + intros j r [[-> ->]|[_ Hj]]%Hlook; [done|]. by eapply Hr.
    + intros r. unfold queued. simpl. rewrite !list_elem_of_lookup. split.
      * intros [j [[-> ->]|[_ Hj]]%Hlook]; [by right|left; eauto].
      * intros [[j Hj]| ->]; [|exists i; apply Hlook; by left]. exists j. apply Hlook. right.
        split; [|done]. intros ->. rewrite Hi in Hj. done.
Qed.

(** ** Sleeping and waking *)

Definition state_of (s : sched_state) (i : nat) : option proc_state := state <$> procs s !! i.

Lemma state_of_set_procs l s i : state_of (set_procs l s) i = state <$> l !! i.
Proof. done. Qed.

Lemma state_after_set l i j v :
  state <$> set_proc_state l i v !! j = if decide (i = j) then (λ _, v) <$> l !! j else state <$> l !! j.
Proof.
  unfold set_proc_state. case_decide as Hij; [subst j|].
  - rewrite list_lookup_alter_eq. by destruct (l !! i).
  - by rewrite list_lookup_alter_ne.
Qed.

(** [yield] changes no state. *)
Lemma yield_state s i : sched_ok s → state_of (yield s) i = state_of s i.
Proof.
  intros Hok. destruct (yield_spec s Hok) as (_ & _ & H2 & _). unfold state_of.
  destruct (procs s !! i) as [p|] eqn:Hp.
  - destruct (Forall2_lookup_l _ _ _ _ _ H2 Hp) as (q & -> & [-> _]). done.
  - apply Forall2_length in H2. apply lookup_ge_None in Hp. simpl.
    by rewrite (proj2 (lookup_ge_None _ _)) by lia.
Qed.

Lemma wake_one_state l w i :
  state <$> wake_one l w !! i =
  if decide (w = Some i ∧ state <$> l !! i = Some PROC_BLOCKED) then Some PROC_RUNNABLE else state <$> l !! i.
Proof.
  destruct w as [j|]; [cbn [wake_one]|by rewrite decide_False by naive_solver].
  destruct (l !! j) as [p|] eqn:Hj.
  - case_bool_decide as Hb.
    + rewrite state_after_set. case_decide as Hij; [subst j|].
      * rewrite Hj. simpl. rewrite decide_True by (by rewrite Hb). done.
      * by rewrite decide_False by naive_solver.
    + rewrite decide_False; [done|]. intros [[= ->] Hs]. rewrite Hj in Hs. simpl in Hs. congruence.
  - rewrite decide_False; [done|]. intros [[= ->] Hs]. by rewrite Hj in Hs.
Qed.

Lemma wake_fold_state ws i : ∀ l,
  state <$> fold_left wake_one ws l !! i =
  if decide (Some i ∈ ws ∧ state <$> l !! i = Some PROC_BLOCKED) then Some PROC_RUNNABLE else state <$> l !! i.
Proof.
  induction ws as [|w ws IH]; intros l; cbn [fold_left].
  - by rewrite decide_False by (intros [?%elem_of_nil _]; done).
  - rewrite IH, wake_one_state.
    destruct (decide (w = Some i ∧ state <$> l !! i = Some PROC_BLOCKED)) as [[-> Hb]|Hn].
    + rewrite (decide_False (P := Some i ∈ ws ∧ _)) by (by intros [_ ?]).
      by rewrite decide_True by (split; [left|done]).
    + destruct (decide (Some i ∈ ws ∧ _)) as [H1|H1],
        (decide (Some i ∈ w :: ws ∧ state <$> l !! i = Some PROC_BLOCKED)) as [H2|H2]; try done.
      * destruct H2. destruct H1 as [? ?]. split; [by right|done].
      * destruct H1. destruct H2 as [[<-|?]%elem_of_cons ?]; [by destruct Hn|done].
Qed.

Lemma waitq_wake_all_spec s :
  wq_ok (wq s) →
  let s' := waitq_wake_all s in
  wq_ok (wq s') ∧ (∀ p, ¬ queued (wq s') p) ∧
  ∀ i, state_of (ws s') i =
    if decide (queued (wq s) i ∧ state_of (ws s) i = Some PROC_BLOCKED) then Some PROC_RUNNABLE
    else state_of (ws s) i.
Proof.
  intros [Hlen _ _]. cbn zeta.
  assert (Hno : ∀ i (p : nat), ((λ _, None) <$> waiters (wq s)) !! i ≠ Some (Some p)).
  { intros i p Hi. rewrite list_lookup_fmap in Hi. by destruct (waiters (wq s) !! i). }
  split; [split|split]; simpl.
  - by rewrite length_fmap.
  - intros i j p Hi. by apply Hno in Hi.
  - intros i p Hi. by apply Hno in Hi.
  - intros p [i Hi]%list_elem_of_lookup. by apply Hno in Hi.
  - intros i. apply wake_fold_state.
Qed.

Lemma sleep_block_state s i :
  state_of (ws (sleep_block s)) i =
  if decide (current_proc (ws s) = i) then (λ _, PROC_BLOCKED) <$> state_of (ws s) i else state_of (ws s) i.
Proof.
  unfold state_of, sleep_block. simpl. rewrite state_after_set. case_decide; [|done].
  by destruct (procs (ws s) !! i).
Qed.

Lemma set_proc_state_ok s i v : sched_ok s → sched_ok (set_procs (set_proc_state (procs s) i v) s).
Proof. intros []. split; simpl; try done. unfold set_proc_state. by rewrite length_alter. Qed.

(** a process that goes to sleep is entered in the queue, there is always
    a slot for it and it is never entered twice; it is blocked from then on
    and the next [waitq_wake_all] makes it runnable and empties the queue,
    leaving every process that is not waiting as it was. *)
Theorem waitq_sleep_wake s :
  wq_ok (wq s) → sched_ok (ws s) → current_proc (ws s) ≠ idle_proc (ws s) →
  let me := current_proc (ws s) in
  let s1 := waitq_sleep s in
  let s2 := waitq_wake_all s1 in
  wq_ok (wq s1) ∧ queued (wq s1) me ∧ state_of (ws s1) me = Some PROC_BLOCKED ∧
  wq_ok (wq s2) ∧ (∀ p, ¬ queued (wq s2) p) ∧ state_of (ws s2) me = Some PROC_RUNNABLE ∧
  ∀ i, i ≠ me → ¬ queued (wq s) i → state_of (ws s2) i = state_of (ws s) i.
Proof.
  intros Hq Hs Hne. cbn zeta. destruct Hs as [Hlen Hcur Hidle].
  destruct (waitq_enqueue_spec (wq s) (current_proc (ws s)) Hq Hcur) as [Hq1 Hqd].
  unfold waitq_sleep. rewrite bool_decide_eq_false_2 by done.
  set (s1 := WqState _ _).
  assert (Hst : ∀ i, state_of (ws s1) i =
    if decide (current_proc (ws s) = i) then (λ _, PROC_BLOCKED) <$> state_of (ws s) i else state_of (ws s) i).
  { intros i. unfold s1. simpl. rewrite yield_state by (by apply (set_proc_state_ok (ws s))).
    apply (sleep_block_state s). }
  assert (Hq1' : wq_ok (wq s1)) by done.
  assert (Hme : state_of (ws s1) (current_proc (ws s)) = Some PROC_BLOCKED).
  { rewrite Hst, decide_True by done. unfold state_of.
    destruct (lookup_lt_is_Some_2 (procs (ws s)) (current_proc (ws s))) as [p ->]; [lia|done]. }
  assert (Hqme : queued (wq s1) (current_proc (ws s))) by (apply Hqd; by right).
  destruct (waitq_wake_all_spec s1 Hq1') as (Hq2 & Hno & Hw). split_and!; try done.
  - by rewrite Hw, decide_True.
  - intros i Hi Hnq. rewrite Hw, decide_False; [by rewrite Hst, decide_False|].
    intros [Hin _]. by apply Hqd in Hin as [?|?].
Qed.

(** between leaving the critical section and blocking, [waitq_sleep] can
    lose a wake-up.  If an interrupt runs [waitq_wake_all] there, the process
    ends up blocked and in no queue, and no number of later wake-ups makes it
    runnable again. *)
Theorem waitq_lost_wakeup s n :
  wq_ok (wq s) → sched_ok (ws s) → state_of (ws s) (current_proc (ws s)) = Some PROC_RUNNABLE →
  let me := current_proc (ws s) in
  let s' := sleep_block (waitq_wake_all (sleep_enqueue s)) in
  ¬ queued (wq s') me ∧ state_of (ws (Nat.iter n waitq_wake_all s')) me = Some PROC_BLOCKED.
Proof.
  intros Hq [Hlen Hcur Hidle] Hrun. cbn zeta.
  destruct (waitq_enqueue_spec (wq s) (current_proc (ws s)) Hq Hcur) as [Hq1 Hqd].
  destruct (waitq_wake_all_spec (sleep_enqueue s) Hq1) as (Hq2 & Hno & Hw).
  set (s2 := waitq_wake_all (sleep_enqueue s)) in *. set (me := current_proc (ws s)) in *.
  assert (Hb : state_of (ws (sleep_block s2)) me = Some PROC_BLOCKED).
  { rewrite sleep_block_state, decide_True by done. rewrite Hw. unfold sleep_enqueue. simpl.
    rewrite decide_False by (intros [_ ?]; congruence). by rewrite Hrun. }
  split; [apply Hno|].
  assert (Hall : wq_ok (wq (Nat.iter n waitq_wake_all (sleep_block s2))) ∧
    (∀ p, ¬ queued (wq (Nat.iter n waitq_wake_all (sleep_block s2))) p) ∧
    state_of (ws (Nat.iter n waitq_wake_all (sleep_block s2))) me = Some PROC_BLOCKED); [|apply Hall].
  induction n as [|n IH]; simpl; [done|]. destruct IH as (IHq & IHn & IHs).
  destruct (waitq_wake_all_spec _ IHq) as (Hq3 & Hno3 & Hw3). split_and!; try done.
  rewrite Hw3, decide_False; [done|]. intros [Hin _]. by apply IHn in Hin.
Qed.

(** ** Concrete instances *)

Definition demo_wq : wq_state := WqState (waitq_init (WaitQ [] 1)) demo_sched.

Lemma demo_wq_ok : wq_ok (wq demo_wq).
Proof.
  assert (Hno : ∀ i p, replicate 8 (@None nat) !! i ≠ Some (Some p)).
  { intros i p [? _]%lookup_replicate. done. }
  split; simpl; [done| |].
  - intros i j p Hi. by apply (Hno i p) in Hi.
  - intros i p Hi. by apply (Hno i p) in Hi.
Qed.

Lemma waitq_sleep_wake_witness :
  let s := demo_wq in
  let me := current_proc (ws s) in
  let s1 := waitq_sleep s in
  let s2 := waitq_wake_all s1 in
  wq_ok (wq s1) ∧ queued (wq s1) me ∧ state_of (ws s1) me = Some PROC_BLOCKED ∧
  wq_ok (wq s2) ∧ (∀ p, ¬ queued (wq s2) p) ∧ state_of (ws s2) me = Some PROC_RUNNABLE ∧
  ∀ i, i ≠ me → ¬ queued (wq s) i → state_of (ws s2) i = state_of (ws s) i.
Proof. apply (waitq_sleep_wake demo_wq); [exact demo_wq_ok|exact demo_sched_ok|discriminate]. Defined.

Lemma waitq_lost_wakeup_witness :
  let s := demo_wq in
  let me := current_proc (ws s) in
  let s' := sleep_block (waitq_wake_all (sleep_enqueue s)) in
  ¬ queued (wq s') me ∧ state_of (ws (Nat.iter 3 waitq_wake_all s')) me = Some PROC_BLOCKED.
Proof. apply (waitq_lost_wakeup demo_wq 3); [exact demo_wq_ok|exact demo_sched_ok|reflexivity]. Defined.
