(* ===== verification/Ring.v ===== *)
(** * Ring buffers

    The queues of the kernel are arrays with a head and a tail index, one slot
    of which stays empty.  [ring_items] is the sequence such a ring holds. *)

From S2P Require Import Prelude.

Section ring.
Context {A : Type} (dummy : A) (cap : Z).
Hypothesis Hcap : 1 < cap.

Definition ring_at (a : list A) (i : Z) : A := default dummy (aget a (i mod cap)).

Definition ring_len (head tail : Z) : Z := (tail - head) mod cap.
Definition ring_items (a : list A) (head tail : Z) : list A :=
  (λ k : nat, ring_at a (head + k)) <$> seq 0 (Z.to_nat (ring_len head tail)).

Record ring_ok (a : list A) (head tail : Z) : Prop := {
  ro_len : Z.of_nat (length a) = cap;
  ro_head : 0 ≤ head < cap;
  ro_tail : 0 ≤ tail < cap;
}.

Lemma ring_len_bound head tail : 0 ≤ ring_len head tail < cap.
Proof. apply Z.mod_pos_bound. lia. Qed.

Lemma length_ring_items a head tail : Z.of_nat (length (ring_items a head tail)) = ring_len head tail.
Proof.
  unfold ring_items. rewrite length_fmap, length_seq. pose proof (ring_len_bound head tail). lia.
Qed.

Lemma mod_diff x y c : 0 < c → 0 ≤ x < c → 0 ≤ y < c →
  (x - y) mod c = if y <=? x then x - y else x - y + c.
Proof.
  intros Hc Hx Hy. destruct (Z.leb_spec y x); [apply Z.mod_small; lia|].
  symmetry. apply Z.mod_unique_pos with (-1); lia.
Qed.

Lemma mod_next x c : 0 ≤ x < c → (x + 1) mod c = if x + 1 =? c then 0 else x + 1.
Proof.
  intros Hx. destruct (Z.eqb_spec (x + 1) c) as [->|]; [by rewrite Z.mod_same by lia|].
  apply Z.mod_small. lia.
Qed.

(** The ring is empty when the indices meet, full when the tail is one behind. *)
Lemma ring_empty_iff a head tail : ring_ok a head tail → head = tail ↔ ring_items a head tail = [].
Proof.
  intros [_ Hh Ht]. rewrite <-length_zero_iff_nil.
  pose proof (length_ring_items a head tail) as Hl. unfold ring_len in Hl.
  rewrite mod_diff in Hl by lia. destruct (Z.leb_spec head tail); split; intros; try lia.
Qed.

Lemma ring_full_iff a head tail : ring_ok a head tail →
  (tail + 1) mod cap = head ↔ Z.of_nat (length (ring_items a head tail)) = cap - 1.
Proof.
  intros [_ Hh Ht]. rewrite length_ring_items. unfold ring_len.
  rewrite mod_diff, mod_next by lia. zcases; lia.
Qed.

Lemma mod_add_index head k : 0 ≤ head < cap → 0 ≤ k < cap →
  (head + k) mod cap = if head + k <? cap then head + k else head + k - cap.
Proof.
  intros Hh Hk. destruct (Z.ltb_spec (head + k) cap); [apply Z.mod_small; lia|].
  symmetry. apply Z.mod_unique_pos with 1; lia.
Qed.

(** Writing at the tail and advancing it appends. *)
Lemma ring_push a head tail x :
  ring_ok a head tail → (tail + 1) mod cap ≠ head →
  ring_ok (aset a tail x) head ((tail + 1) mod cap) ∧
  ring_items (aset a tail x) head ((tail + 1) mod cap) = ring_items a head tail ++ [x].
Proof.
  intros [Hl Hh Ht] Hnf. pose proof (Z.mod_pos_bound (tail + 1) cap) as Hb.
  split; [split; [by rewrite length_aset|lia|lia]|].
  assert (Hlen : ring_len head ((tail + 1) mod cap) = ring_len head tail + 1).
  { unfold ring_len. rewrite mod_next in * by lia. revert Hnf Hb.
    destruct (Z.eqb_spec (tail + 1) cap); intros Hnf Hb; rewrite !mod_diff by lia; zcases; lia. }
  unfold ring_items. rewrite Hlen. pose proof (ring_len_bound head tail) as Hr.
  rewrite Z2Nat.inj_add, Nat.add_1_r, seq_S, fmap_app by lia. f_equal.
  - apply list_fmap_ext. intros i k Hk. apply lookup_seq in Hk as [-> Hk]. simpl.
    unfold ring_at. rewrite aget_aset_ne; [done|]. unfold ring_len in *.
    assert (Hi : Z.of_nat i < (tail - head) mod cap) by lia.
    rewrite mod_add_index by lia. rewrite mod_diff in Hi by lia. revert Hi. zcases; lia.
  - simpl. f_equal. unfold ring_at. rewrite Z2Nat.id by lia.
    assert ((head + ring_len head tail) mod cap = tail) as ->.
    { unfold ring_len in *. rewrite mod_add_index by lia. rewrite !mod_diff by lia. zcases; lia. }
    by rewrite aget_aset_eq by lia.
Qed.

(** Advancing the head drops the first element. *)
Lemma ring_pop a head tail :
  ring_ok a head tail → head ≠ tail →
  ring_ok a ((head + 1) mod cap) tail ∧
  ring_items a head tail = ring_at a head :: ring_items a ((head + 1) mod cap) tail.
Proof.
  intros [Hl Hh Ht] Hne. pose proof (Z.mod_pos_bound (head + 1) cap) as Hb.
  split; [split; lia|].
  assert (Hlen : ring_len head tail = ring_len ((head + 1) mod cap) tail + 1).
  { unfold ring_len. rewrite mod_next in * by lia.
    destruct (Z.eqb_spec (head + 1) cap); rewrite !mod_diff by lia; zcases; lia. }
  unfold ring_items. rewrite Hlen. pose proof (ring_len_bound ((head + 1) mod cap) tail) as Hr.
  rewrite Z2Nat.inj_add, Nat.add_1_r by lia. cbn [seq fmap list_fmap]. f_equal.
  - by rewrite Z.add_0_r.
  - rewrite <-fmap_S_seq, <-list_fmap_compose. apply list_fmap_ext. intros i k _. simpl.
    unfold ring_at. do 2 f_equal. rewrite Zplus_mod_idemp_l. f_equal. lia.
Qed.
End ring.
