(* ===== verification/Event.v ===== *)
(** * The kernel's event and keyboard queues, [src/kernel/event/event.c] and
    [src/kernel/sbi/sbi.c]

    Both are rings; the event queue drops its oldest entry when full, the
    keyboard queue refuses the newest. *)

From S2P Require Import Prelude Ring.

(** ** Events *)

Definition KEVENT_Q_CAP : Z := 128.

(** [struct k_event] *)
Record k_event := KEvent { ev_type : Z; ev_a : Z; ev_b : Z; ev_c : Z; ev_d : Z; ev_seq : Z }.
Definition zero_event : k_event := KEvent 0 0 0 0 0 0.

Record kevent_state := KeventState {
  g_q : list k_event; g_head : Z; g_tail : Z; g_seq : Z; g_lock : Z }.

Definition set_g_lock (v : Z) (s : kevent_state) : kevent_state := KeventState (g_q s) (g_head s) (g_tail s) (g_seq s) v.

(** [spin_lock(&g_lock)] and [spin_lock_irqsave]: with the lock held it never
    gets on.  The interrupt flag it saves belongs to the caller's hart and is not
    part of this state. *)
Definition g_spin_lock : km kevent_state unit := λ s, if g_lock s =? 0 then Done (tt, set_g_lock 1 s) else Spin.
Definition g_spin_unlock : km kevent_state unit := kmodify (set_g_lock 0).

Definition kevent_init : km kevent_state unit :=
  do! g_spin_lock in
  do! kmodify (λ s, KeventState (replicate 128 zero_event) 0 0 0 (g_lock s)) in
  g_spin_unlock.

Definition kevent_push (type a b c d : Z) : km kevent_state Z :=
  do! g_spin_lock in
  do! kmodify (λ s,
    let next := (g_tail s + 1) mod KEVENT_Q_CAP in
    let head := if next =? g_head s then (g_head s + 1) mod KEVENT_Q_CAP else g_head s in
    let q := aset (g_q s) (g_tail s) (KEvent type a b c d (g_seq s)) in
    KeventState q head next ((g_seq s + 1) mod 18446744073709551616) (g_lock s)) in
  do! g_spin_unlock in
  kret 0.

(** [Some] event where the function returns 1, [None] where it returns 0. *)
Definition kevent_pop : km kevent_state (option k_event) :=
  do! g_spin_lock in
  let! s := kget in
  if g_head s =? g_tail s then do! g_spin_unlock in kret None
  else
    match aget (g_q s) (g_head s) with
    | None => kfault
    | Some out =>
        do! kmodify (λ s, KeventState (g_q s) ((g_head s + 1) mod KEVENT_Q_CAP) (g_tail s) (g_seq s) (g_lock s)) in
        do! g_spin_unlock in
        kret (Some out)
    end.

(** ** The queue as a bounded first-in first-out buffer *)

Record event_spec := EventSpec { es_items : list k_event; es_seq : Z }.

(** 127 events at most; a new one pushes the oldest out. *)
Definition spec_push (type a b c d : Z) (s : event_spec) : event_spec :=
  let kept := if decide (length (es_items s) = 127%nat) then tail (es_items s) else es_items s in
  EventSpec (kept ++ [KEvent type a b c d (es_seq s)]) ((es_seq s + 1) mod 18446744073709551616).
Definition spec_pop (s : event_spec) : option k_event * event_spec :=
  match es_items s with
  | [] => (None, s)
  | e :: l => (Some e, EventSpec l (es_seq s))
  end.

Definition event_items (s : kevent_state) : list k_event :=
  ring_items zero_event KEVENT_Q_CAP (g_q s) (g_head s) (g_tail s).
Definition event_abs (s : kevent_state) : event_spec := EventSpec (event_items s) (g_seq s).

Record kevent_ok (s : kevent_state) : Prop := {
  ko_ring : ring_ok KEVENT_Q_CAP (g_q s) (g_head s) (g_tail s);
  ko_lock : g_lock s = 0;
}.

Lemma cap_gt1 : 1 < KEVENT_Q_CAP.
Proof. done. Qed.

Lemma wp_g_lock (Q : unit → kevent_state → Prop) s : g_lock s = 0 → Q tt (set_g_lock 1 s) → wp g_spin_lock Q s.
Proof. intros Hl HQ. unfold wp, g_spin_lock. by rewrite Hl. Qed.

Lemma kevent_init_spec s :
  g_lock s = 0 → wp kevent_init (λ _ s', kevent_ok s' ∧ event_abs s' = EventSpec [] 0) s.
Proof.
  intros Hl. unfold kevent_init, g_spin_unlock. wp_step. apply wp_g_lock; [done|]. wp_steps. split; [split|]; done.
Qed.

Lemma kevent_push_spec s ty a b c d :
  kevent_ok s →
  wp (kevent_push ty a b c d) (λ r s', r = 0 ∧ kevent_ok s' ∧
    event_abs s' = spec_push ty a b c d (event_abs s)) s.
Proof.
  intros [Hr Hl]. unfold kevent_push, g_spin_unlock. wp_step. apply wp_g_lock; [done|]. wp_steps. cbn -[Z.modulo].
  set (ev := KEvent ty a b c d (g_seq s)). split; [done|].
  pose proof (ring_full_iff zero_event KEVENT_Q_CAP cap_gt1 _ _ _ Hr) as Hfull.
  unfold event_abs, spec_push, event_items. simpl.
  destruct (Z.eqb_spec ((g_tail s + 1) mod KEVENT_Q_CAP) (g_head s)) as [He|He].
  - (* full: the oldest goes first *)
    assert (Hlen : length (ring_items zero_event KEVENT_Q_CAP (g_q s) (g_head s) (g_tail s)) = 127%nat).
    { apply Hfull in He. unfold KEVENT_Q_CAP in He at 2. lia. }
    assert (Hne : g_head s ≠ g_tail s).
    { intros Heq. apply (ring_empty_iff zero_event KEVENT_Q_CAP cap_gt1 _ _ _ Hr) in Heq. by rewrite Heq in Hlen. }
    destruct (ring_pop zero_event KEVENT_Q_CAP cap_gt1 _ _ _ Hr Hne) as [Hr1 Hit].
    destruct (ring_push zero_event KEVENT_Q_CAP cap_gt1 _ _ _ ev Hr1) as [Hr2 Hit2].
    { rewrite He. destruct Hr as [_ Hh _]. rewrite mod_next by done. unfold KEVENT_Q_CAP in *. zcases; lia. }
    split; [by split|]. rewrite decide_True by done. rewrite Hit2, Hit. done.
  - destruct (ring_push zero_event KEVENT_Q_CAP cap_gt1 _ _ _ ev Hr He) as [Hr2 Hit2].
    split; [by split|]. rewrite Hit2, decide_False; [done|]. intros Hlen. apply He, Hfull. rewrite Hlen. done.
Qed.

Lemma kevent_pop_spec s :
  kevent_ok s →
  wp kevent_pop (λ r s', kevent_ok s' ∧ (r, event_abs s') = spec_pop (event_abs s)) s.
Proof.
  intros [Hr Hl]. unfold kevent_pop, g_spin_unlock. wp_step. apply wp_g_lock; [done|]. do 2 wp_step. cbn -[Z.modulo].
  pose proof (ring_empty_iff zero_event KEVENT_Q_CAP cap_gt1 _ _ _ Hr) as Hem.
  unfold spec_pop, event_abs, event_items. destruct (Z.eqb_spec (g_head s) (g_tail s)) as [He|He].
  - wp_steps. split; [by split|]. simpl. by rewrite (proj1 Hem He).
  - destruct (ring_pop zero_event KEVENT_Q_CAP cap_gt1 _ _ _ Hr He) as [Hr1 Hit].
    rewrite Hit. pose proof Hr as [Hlen Hh _]. unfold ring_at. rewrite Z.mod_small by done.
    destruct (aget_in (g_q s) (g_head s)) as [x ->]; [lia|]. wp_steps. by split.
Qed.

(** ** Any sequence of calls *)

Inductive event_op := OpPush (type a b c d : Z) | OpPop.

(** The answers to the pops of a sequence of calls. *)
Fixpoint run_impl (ops : list event_op) : km kevent_state (list (option k_event)) :=
  match ops with
  | [] => kret []
  | OpPush t a b c d :: ops' => do! kevent_push t a b c d in run_impl ops'
  | OpPop :: ops' => let! r := kevent_pop in let! rs := run_impl ops' in kret (r :: rs)
  end.
Fixpoint run_spec (ops : list event_op) (s : event_spec) : list (option k_event) :=
  match ops with
  | [] => []
  | OpPush t a b c d :: ops' => run_spec ops' (spec_push t a b c d s)
  | OpPop :: ops' => let '(r, s') := spec_pop s in r :: run_spec ops' s'
  end.

Lemma run_refines ops : ∀ s, kevent_ok s →
  wp (run_impl ops) (λ rs s', kevent_ok s' ∧ rs = run_spec ops (event_abs s)) s.
Proof.
  induction ops as [|[t a b c d|] ops IH]; intros s Hok; simpl.
  - by wp_steps.
  - wp_step. eapply wp_mono; [by apply kevent_push_spec|]. intros r s' (_ & Hok' & <-). by apply IH.
  - wp_step. eapply wp_mono; [by apply kevent_pop_spec|]. intros r s' [Hok' <-].
    wp_step. eapply wp_mono; [by apply IH|]. intros rs s2 [Hok2 ->]. by wp_steps.
Qed.

(** C17: the event queue refines a first-in first-out buffer of 127 events that
    drops its oldest entry when full: after [kevent_init], every sequence of
    pushes and pops runs to its end (the lock is always released) and its pops
    give exactly the answers of that buffer, sequence numbers included. *)
Theorem kevent_refines_fifo s ops :
  g_lock s = 0 →
  wp (do! kevent_init in run_impl ops)
    (λ rs s', kevent_ok s' ∧ rs = run_spec ops (EventSpec [] 0)) s.
Proof.
  intros Hl. wp_step. eapply wp_mono; [by apply kevent_init_spec|].
  intros [] s1 [Hok <-]. by apply run_refines.
Qed.

(** ** The keyboard queue *)

Definition KBDQ_CAP : Z := 64.

Record kbd_state := KbdState { kbdq_buf : list Z; kbdq_head : Z; kbdq_tail : Z }.

Definition kbd_enqueue_char (ch : Z) (s : kbd_state) : Z * kbd_state :=
  let next := (kbdq_tail s + 1) mod KBDQ_CAP in
  if next =? kbdq_head s then (-1, s)
  else (0, KbdState (aset (kbdq_buf s) (kbdq_tail s) ch) (kbdq_head s) next).

(** [console] is the answer of the firmware's console call, used when the
    queue is empty. *)
Definition getchar (console : Z) (s : kbd_state) : option Z * kbd_state :=
  if negb (kbdq_head s =? kbdq_tail s) then
    ((λ c, c mod 256) <$> aget (kbdq_buf s) (kbdq_head s),
     KbdState (kbdq_buf s) ((kbdq_head s + 1) mod KBDQ_CAP) (kbdq_tail s))
  else (Some (to_int console), s).

Definition kbd_items (s : kbd_state) : list Z := ring_items 0 KBDQ_CAP (kbdq_buf s) (kbdq_head s) (kbdq_tail s).
Definition kbd_ok (s : kbd_state) : Prop := ring_ok KBDQ_CAP (kbdq_buf s) (kbdq_head s) (kbdq_tail s).

(** the keyboard queue is first-in first-out with room for 63 characters:
    a character is refused exactly when 63 are waiting and is otherwise put
    last; [getchar] takes the first one, and asks the firmware only when none
    is waiting. *)
Theorem kbd_queue_fifo s ch console :
  kbd_ok s →
  (let '(r, s') := kbd_enqueue_char ch s in
   kbd_ok s' ∧
   if decide (length (kbd_items s) = 63%nat) then r = -1 ∧ s' = s
   else r = 0 ∧ kbd_items s' = kbd_items s ++ [ch]) ∧
  (let '(r, s') := getchar console s in
   kbd_ok s' ∧
   match kbd_items s with
   | [] => r = Some (to_int console) ∧ s' = s
   | c :: l => r = Some (c mod 256) ∧ kbd_items s' = l
   end).
Proof.
  intros Hr. assert (Hc : 1 < KBDQ_CAP) by done. unfold kbd_ok, kbd_items in *. split.
  - unfold kbd_enqueue_char. pose proof (ring_full_iff 0 KBDQ_CAP Hc _ _ _ Hr) as Hfull.
    destruct (Z.eqb_spec ((kbdq_tail s + 1) mod KBDQ_CAP) (kbdq_head s)) as [He|He].
    + split; [done|]. rewrite decide_True; [done|]. apply Hfull in He. unfold KBDQ_CAP in He at 2. lia.
    + destruct (ring_push 0 KBDQ_CAP Hc _ _ _ ch Hr He) as [Hr2 Hit]. split; [done|].
      rewrite decide_False; [done|]. intros Hl. apply He, Hfull. by rewrite Hl.
  - unfold getchar. pose proof (ring_empty_iff 0 KBDQ_CAP Hc _ _ _ Hr) as Hem.
    destruct (Z.eqb_spec (kbdq_head s) (kbdq_tail s)) as [He|He]; simpl.
    + split; [done|]. by rewrite (proj1 Hem He).
    + destruct (ring_pop 0 KBDQ_CAP Hc _ _ _ Hr He) as [Hr1 Hit]. split; [done|]. rewrite Hit.
      destruct Hr as [Hlen Hh _]. unfold ring_at. rewrite (Z.mod_small (kbdq_head s) KBDQ_CAP) by done.
      destruct (aget_in (kbdq_buf s) (kbdq_head s)) as [x ->]; [lia|done].
Qed.

(** ** Concrete instances *)
Lemma kevent_refines_fifo_witness :
  wp (do! kevent_init in run_impl [OpPush 1 2 3 4 5; OpPop; OpPop])
    (λ rs s', kevent_ok s' ∧ rs = run_spec [OpPush 1 2 3 4 5; OpPop; OpPop] (EventSpec [] 0))
    (KeventState [] 0 0 0 0).
Proof. apply kevent_refines_fifo; reflexivity. Defined.

Definition demo_kbd : kbd_state := KbdState (replicate 64 0) 63 63.

Lemma kbd_queue_fifo_witness :
  (let '(r, s') := kbd_enqueue_char 97 demo_kbd in
   kbd_ok s' ∧
   if decide (length (kbd_items demo_kbd) = 63%nat) then r = -1 ∧ s' = demo_kbd
   else r = 0 ∧ kbd_items s' = kbd_items demo_kbd ++ [97]) ∧
  (let '(r, s') := getchar 4294967295 demo_kbd in
   kbd_ok s' ∧
   match kbd_items demo_kbd with
   | [] => r = Some (to_int 4294967295) ∧ s' = demo_kbd
   | c :: l => r = Some (c mod 256) ∧ kbd_items s' = l
   end).
Proof.
  apply kbd_queue_fifo. unfold kbd_ok, KBDQ_CAP. split; simpl; lia.
Defined.
