(* ===== verification/Printf.v ===== *)
(** * Formatted output, [src/lib/printf.c]

    A format string is the list of its bytes before the terminator; the
    characters given to [putchar] are the result.  An argument the format
    asks for and the caller did not pass has no defined value: [None]. *)

From S2P Require Import Prelude.

(** ** The code *)

(** What [va_arg] can find: a 32-bit word, or a pointer to a string. *)
Inductive arg := AWord (w : Z) | AStr (s : list Z).

(** [putchar] takes a [char]. *)
Definition to_char (x : Z) : Z := x mod 256.

(** [while (magnitude / divisor > 9) divisor *= 10;] *)
Fixpoint find_divisor (fuel : nat) (magnitude divisor : Z) : option Z :=
  if 9 <? magnitude / divisor then
    match fuel with
    | O => None
    | S fuel' => find_divisor fuel' magnitude (mul32 divisor 10)
    end
  else Some divisor.

(** [while (divisor > 0) { putchar('0' + magnitude / divisor); ... }] *)
Fixpoint put_digits (fuel : nat) (magnitude divisor : Z) : option (list Z) :=
  if 0 <? divisor then
    match fuel with
    | O => None
    | S fuel' =>
        cons (to_char (48 + magnitude / divisor)) <$> put_digits fuel' (magnitude mod divisor) (divisor / 10)
    end
  else Some [].

(** [case 'd']; a 32-bit magnitude has at most ten digits. *)
Definition print_d (w : Z) : option (list Z) :=
  let value := to_int w in
  let magnitude := wrap32 value in
  let sign := if value <? 0 then [45] else [] in
  let magnitude := if value <? 0 then wrap32 (- magnitude) else magnitude in
  match find_divisor 9 magnitude 1 with
  | None => None
  | Some divisor => app sign <$> put_digits 10 magnitude divisor
  end.

(** The string literal "0123456789abcdef". *)
Definition hex_chars : list Z :=
  [48; 49; 50; 51; 52; 53; 54; 55; 56; 57; 97; 98; 99; 100; 101; 102].

(** [for (int i = 7; i >= 0; i--)], with [k] = [i + 1] rounds left. *)
Fixpoint put_nibbles (k : nat) (value : Z) : list Z :=
  match k with
  | O => []
  | S i => hex_chars !!! Z.to_nat (Z.land (Z.shiftr value (i * 4)) 15) :: put_nibbles i value
  end.
Definition print_x (w : Z) : list Z := put_nibbles 8 (wrap32 w).

#[global] Arguments print_d : simpl never.
#[global] Arguments print_x : simpl never.

(** The main loop.  37 is the percent sign, 115, 100 and 120 are the letters
    s, d and x; any other letter after a percent sign prints nothing. *)
Fixpoint printf (fmt : list Z) (vargs : list arg) : option (list Z) :=
  match fmt with
  | [] => Some []
  | c :: fmt1 =>
      if c =? 37 then
        match fmt1 with
        | [] => Some [37]
        | d :: fmt2 =>
            if d =? 37 then cons 37 <$> printf fmt2 vargs
            else if d =? 115 then
              match vargs with
              | AStr s :: vargs' => app s <$> printf fmt2 vargs'
              | _ => None
              end
            else if d =? 100 then
              match vargs with
              | AWord w :: vargs' =>
                  match print_d w with
                  | Some out => app out <$> printf fmt2 vargs'
                  | None => None
                  end
              | _ => None
              end
            else if d =? 120 then
              match vargs with
              | AWord w :: vargs' => app (print_x w) <$> printf fmt2 vargs'
              | _ => None
              end
            else printf fmt2 vargs
        end
      else cons c <$> printf fmt1 vargs
  end.

(** ** Reading numbers back *)

(** The number a digit string in base [b] stands for, with the value of each
    character given by [dig]. *)
Fixpoint val_from (b : Z) (dig : Z → Z) (acc : Z) (l : list Z) : Z :=
  match l with
  | [] => acc
  | c :: l' => val_from b dig (acc * b + dig c) l'
  end.

Definition dec_digit (c : Z) : Z := c - 48.
Definition dec_val (l : list Z) : Z := val_from 10 dec_digit 0 l.
Definition is_dec (c : Z) : Prop := 48 ≤ c ≤ 57.

Definition hex_digit (c : Z) : Z := if c <? 97 then c - 48 else c - 87.
Definition hex_val (l : list Z) : Z := val_from 16 hex_digit 0 l.
Definition is_hex (c : Z) : Prop := 48 ≤ c ≤ 57 ∨ 97 ≤ c ≤ 102.

(** A decimal numeral without superfluous zeros. *)
Definition canonical (l : list Z) : Prop :=
  Forall is_dec l ∧ match l with [] => False | c :: l' => l' = [] ∨ c ≠ 48 end.

(** [out] is the canonical numeral of [v]. *)
Definition decimal_of (v : Z) (out : list Z) : Prop :=
  ∃ ds, canonical ds ∧ dec_val ds = Z.abs v ∧ out = (if v <? 0 then [45] else []) ++ ds.

Lemma pow10_S k : 10 ^ Z.of_nat (S k) = 10 * 10 ^ Z.of_nat k.
Proof. rewrite Nat2Z.inj_succ. apply Z.pow_succ_r. lia. Qed.

Lemma pow10_pos k : 0 < 10 ^ Z.of_nat k.
Proof. apply Z.pow_pos_nonneg; lia. Qed.

(** The digit loop prints [k + 1] digits whose value is the magnitude. *)
Lemma put_digits_spec k : ∀ m acc fuel,
  0 ≤ m < 10 ^ Z.of_nat (S k) → (k < fuel)%nat →
  ∃ c ds, put_digits fuel m (10 ^ Z.of_nat k) = Some (c :: ds) ∧ c = 48 + m / 10 ^ Z.of_nat k ∧
    Forall is_dec (c :: ds) ∧ length ds = k ∧
    val_from 10 dec_digit acc (c :: ds) = acc * 10 ^ Z.of_nat (S k) + m.
Proof.
  induction k as [|k IH]; intros m acc fuel Hm Hf; (destruct fuel as [|fuel]; [lia|]);
    rewrite pow10_S in Hm; cbn [put_digits].
  - change (10 ^ Z.of_nat 0) with 1 in *. cbn [Z.ltb]. exists (48 + m), []. rewrite Z.div_1_r.
    assert (put_digits fuel (m mod 1) (1 / 10) = Some []) as -> by (by destruct fuel).
    unfold to_char. rewrite Z.mod_small by lia. split_and!; try done.
    + repeat constructor; unfold is_dec; lia.
    + simpl. unfold dec_digit. lia.
  - pose proof (pow10_pos k) as Hp. rewrite pow10_S in *. set (d := 10 ^ Z.of_nat k) in *.
    assert (Hq : 0 ≤ m / (10 * d) ≤ 9) by (Z.div_mod_to_equations; nia).
    assert (Hr : 0 ≤ m mod (10 * d) < 10 * d) by (apply Z.mod_pos_bound; lia).
    destruct (Z.ltb_spec 0 (10 * d)); [|lia]. rewrite (Z.mul_comm 10 d), Z.div_mul, (Z.mul_comm d 10) by lia.
    destruct (IH (m mod (10 * d)) (acc * 10 + m / (10 * d)) fuel) as (c & ds & -> & _ & Hfa & Hl & Hv).
    { done. }
    { lia. }
    unfold to_char. rewrite Z.mod_small by lia.
    exists (48 + m / (10 * d)), (c :: ds). split_and!; try done.
    + constructor; [unfold is_dec; lia|done].
    + simpl. by rewrite Hl.
    + cbn [val_from] in *. replace (acc * 10 + dec_digit (48 + m / (10 * d))) with (acc * 10 + m / (10 * d))
        by (unfold dec_digit; lia).
      rewrite Hv, ?pow10_S. fold d. rewrite (Z.div_mod m (10 * d)) at 3 by lia. ring.
Qed.

(** The first loop stops at the power of ten of the first digit. *)
Lemma find_divisor_spec fuel : ∀ j m,
  0 ≤ m < 4294967296 → (fuel + j = 9)%nat → (j = 0%nat ∨ 10 ^ Z.of_nat j ≤ m) →
  ∃ k, find_divisor fuel m (10 ^ Z.of_nat j) = Some (10 ^ Z.of_nat k) ∧ (k ≤ 9)%nat ∧
    m < 10 ^ Z.of_nat (S k) ∧ (k = 0%nat ∨ 10 ^ Z.of_nat k ≤ m).
Proof.
  induction fuel as [|fuel IH]; intros j m Hm Hj Hle; cbn [find_divisor];
    pose proof (pow10_pos j) as Hp; destruct (Z.ltb_spec 9 (m / 10 ^ Z.of_nat j)) as [Hd|Hd].
  - exfalso. replace j with 9%nat in * by lia. change (10 ^ Z.of_nat 9) with 1000000000 in *.
    Z.div_mod_to_equations. lia.
  - exists j. split_and!; [done|lia| |done]. rewrite pow10_S.
    pose proof (Z.mul_succ_div_gt m (10 ^ Z.of_nat j)). nia.
  - assert (Hge : 10 ^ Z.of_nat (S j) ≤ m).
    { rewrite pow10_S. pose proof (Z.mul_div_le m (10 ^ Z.of_nat j)). nia. }
    destruct (IH (S j) m) as (k & Hk & ?); [done|lia|by right|].
    exists k. split; [|done]. rewrite <-Hk. f_equal. rewrite Nat2Z.inj_succ, Z.pow_succ_r in * by lia.
    rewrite mul32_small by lia. lia.
  - exists j. split_and!; [done|lia| |done]. rewrite pow10_S.
    pose proof (Z.mul_succ_div_gt m (10 ^ Z.of_nat j)). nia.
Qed.

(** The magnitude of the code is the absolute value, for [INT_MIN] too. *)
Lemma magnitude_abs v : is_int v → (if v <? 0 then wrap32 (- wrap32 v) else wrap32 v) = Z.abs v.
Proof. intros Hv. destruct (Z.ltb_spec v 0); word_lia. Qed.

Lemma print_d_spec w : ∃ out, print_d w = Some out ∧ decimal_of (to_int w) out.
Proof.
  pose proof (to_int_range w) as Hv. unfold print_d. rewrite magnitude_abs by done.
  generalize dependent (to_int w). clear w. intros v Hv.
  destruct (find_divisor_spec 9 0 (Z.abs v)) as (k & Hk & Hk9 & Hlt & Hge); [unfold is_int in Hv; lia|lia|by left|].
  change (10 ^ Z.of_nat 0) with 1 in Hk. rewrite Hk.
  destruct (put_digits_spec k (Z.abs v) 0 10) as (c & ds & -> & Hc & Hf & Hl & Hval); [lia|lia|].
  eexists. split; [done|]. exists (c :: ds). split_and!; [|unfold dec_val; rewrite Hval; lia|done].
  split; [done|]. destruct Hge as [->|Hge]; [left; by destruct ds|right].
  assert (0 < Z.abs v / 10 ^ Z.of_nat k); [|lia]. pose proof (pow10_pos k). apply Z.div_str_pos. lia.
Qed.

Lemma hex_char_spec n : 0 ≤ n < 16 →
  is_hex (hex_chars !!! Z.to_nat n) ∧ hex_digit (hex_chars !!! Z.to_nat n) = n.
Proof.
  intros Hn. rewrite <-(Z2Nat.id n) at 3 by lia. assert (Hl : (Z.to_nat n < 16)%nat) by lia.
  revert Hl. generalize (Z.to_nat n). clear n Hn. intros n Hn.
  do 16 (destruct n as [|n]; [split; [unfold is_hex; simpl; lia|reflexivity]|]). lia.
Qed.

Lemma put_nibbles_spec k : ∀ v acc,
  0 ≤ v →
  Forall is_hex (put_nibbles k v) ∧ length (put_nibbles k v) = k ∧
  val_from 16 hex_digit acc (put_nibbles k v) = acc * 16 ^ Z.of_nat k + v mod 16 ^ Z.of_nat k.
Proof.
  induction k as [|k IH]; intros v acc Hv; cbn [put_nibbles].
  - simpl. rewrite Z.mod_1_r. split_and!; [constructor|done|lia].
  - set (n := Z.land (Z.shiftr v (Z.of_nat k * 4)) 15).
    assert (Hn : n = (v / 16 ^ Z.of_nat k) mod 16).
    { unfold n. change 15 with (Z.ones 4). rewrite Z.land_ones, Z.shiftr_div_pow2 by lia.
      change 16 with (2 ^ 4). by rewrite <-Z.pow_mul_r, (Z.mul_comm 4) by lia. }
    assert (Hr : 0 ≤ n < 16) by (rewrite Hn; apply Z.mod_pos_bound; lia).
    destruct (hex_char_spec n Hr) as [Hh Hd].
    destruct (IH v (acc * 16 + n) Hv) as (Hf & Hl & Hval). split_and!.
    + by constructor.
    + simpl. by rewrite Hl.
    + cbn [val_from]. rewrite Hd, Hval, Nat2Z.inj_succ, Z.pow_succ_r by lia.
      set (d := 16 ^ Z.of_nat k) in *. assert (0 < d) by (apply Z.pow_pos_nonneg; lia).
      rewrite (Z.mul_comm 16 d), Z.rem_mul_r by lia. rewrite Hn. lia.
Qed.

Lemma print_x_spec w :
  Forall is_hex (print_x w) ∧ length (print_x w) = 8%nat ∧ hex_val (print_x w) = wrap32 w.
Proof.
  pose proof (wrap32_range w) as Hw. unfold is_u32 in Hw. unfold print_x, hex_val.
  destruct (put_nibbles_spec 8 (wrap32 w) 0) as (Hf & Hl & Hv); [lia|]. split_and!; try done.
  rewrite Hv. change (16 ^ Z.of_nat 8) with 4294967296. rewrite Z.mod_small; lia.
Qed.

(** ** Formats as sequences of pieces *)

Inductive piece :=
| Lit (c : Z)        (* any character but the percent sign *)
| Percent            (* two percent signs *)
| Str (s : list Z)   (* percent s *)
| Dec (v : Z)        (* percent d *)
| Hex (v : Z).       (* percent x *)

Definition piece_ok (p : piece) : Prop := match p with Lit c => c ≠ 37 | _ => True end.
Definition piece_fmt (p : piece) : list Z :=
  match p with Lit c => [c] | Percent => [37; 37] | Str _ => [37; 115] | Dec _ => [37; 100] | Hex _ => [37; 120] end.
Definition piece_arg (p : piece) : list arg :=
  match p with Str s => [AStr s] | Dec v => [AWord v] | Hex v => [AWord v] | _ => [] end.

(** What each piece is to print. *)
Definition piece_out (p : piece) (out : list Z) : Prop :=
  match p with
  | Lit c => out = [c]
  | Percent => out = [37]
  | Str s => out = s
  | Dec v => decimal_of (to_int v) out
  | Hex v => Forall is_hex out ∧ length out = 8%nat ∧ hex_val out = wrap32 v
  end.

Lemma printf_piece p fmt vargs : piece_ok p →
  ∃ out, piece_out p out ∧ printf (piece_fmt p ++ fmt) (piece_arg p ++ vargs) = app out <$> printf fmt vargs.
Proof.
  destruct p as [c| |s|v|v]; cbn [piece_ok piece_out piece_fmt piece_arg app printf Z.eqb Pos.eqb]; intros Hok.
  - exists [c]. split; [done|]. destruct (Z.eqb_spec c 37); [done|]. by destruct (printf fmt vargs).
  - exists [37]. split; [done|]. by destruct (printf fmt vargs).
  - by exists s.
  - destruct (print_d_spec v) as (out & -> & Hout). by exists out.
  - exists (print_x v). split; [apply print_x_spec|done].
Qed.

(** C29: [printf] prints a format piece by piece, whatever the arguments: a
    literal character and a doubled percent sign as themselves, a string
    argument as its characters, an [int] as its canonical decimal numeral with
    a minus sign when negative ([INT_MIN] included) and an [unsigned] as eight
    hexadecimal digits with its value.  The digit loops always end.  The format
    is any sequence of these pieces, with the arguments they ask for. *)
Theorem printf_correct l :
  Forall piece_ok l →
  ∃ outs, printf (l ≫= piece_fmt) (l ≫= piece_arg) = Some (concat outs) ∧ Forall2 piece_out l outs.
Proof.
  induction 1 as [|p l Hp _ (outs & Hrun & Houts)]; [exists []; by split; [|constructor]|].
  rewrite !bind_cons. destruct (printf_piece p (l ≫= piece_fmt) (l ≫= piece_arg) Hp) as (out & Hout & ->).
  rewrite Hrun. exists (out :: outs). split; [done|by constructor].
Qed.

(** A canonical numeral determines its number. *)
Lemma decimal_of_inj v w out : decimal_of v out → decimal_of w out → v = w.
Proof.
  assert (Hd : ∀ ds, canonical ds → ∀ l, ds ≠ 45 :: l).
  { intros ds [Hf _] l ->. apply Forall_cons in Hf as [[? ?] _]. lia. }
  intros (ds & Hc & Hv & ->) (es & Hc' & Hw & He).
  destruct (Z.ltb_spec v 0), (Z.ltb_spec w 0); simpl in He.
  - injection He as ->. lia.
  - exfalso. apply (Hd _ Hc' ds). by rewrite <-He.
  - exfalso. apply (Hd _ Hc es). by rewrite He.
  - subst. lia.
Qed.

(** ** Concrete instances *)
Example printf_int_min : printf [37; 100] [AWord 2147483648] = Some [45; 50; 49; 52; 55; 52; 56; 51; 54; 52; 56].
Proof. reflexivity. Qed.

(** The message ["pid=%d pc=%x"] for process 10. *)
Definition demo_pieces : list piece :=
  [Lit 112; Lit 105; Lit 100; Lit 61; Dec 10; Lit 32; Lit 112; Lit 99; Lit 61; Hex 2149580800; Percent].

Lemma printf_correct_witness :
  ∃ outs, printf (demo_pieces ≫= piece_fmt) (demo_pieces ≫= piece_arg) = Some (concat outs) ∧
    Forall2 piece_out demo_pieces outs.
Proof. apply printf_correct. repeat constructor; discriminate. Defined.
