(* ===== verification/Fs.v ===== *)
(** * The file system, [src/fs/fs.c]

    The in-memory file system and the descriptor tables of the processes that
    use it.  A path or a file name is the list of its bytes before the
    terminator (so it holds no zero byte).  What [memcpy] moves to or from a
    caller's buffer is an argument or a result of the operation.  The reader of
    [src/fs/ext4.c] is used through the interface [Ext4Ops]. *)

From S2P Require Import Prelude Proc Sched.

Definition RAMFS_MAX_FILES : Z := 32.
Definition RAMFS_NAME_MAX : Z := 32.
Definition RAMFS_DATA_MAX : Z := 1024.

(** [uapi/fs.h] *)
Definition O_RDONLY : Z := 1.
Definition O_WRONLY : Z := 2.
Definition O_RDWR : Z := 3.
Definition O_CREAT : Z := 256.
Definition O_TRUNC : Z := 512.
Definition O_APPEND : Z := 1024.

(** [struct ramfs_inode]; [name] up to its terminator. *)
Record ramfs_inode := RamfsInode {
  ino_used : bool; ino_name : list Z; ino_data : list Z; ino_size : Z }.
Definition zero_inode : ramfs_inode := RamfsInode false [] (replicate 1024 0) 0.
Definition set_ino_size v i := RamfsInode (ino_used i) (ino_name i) (ino_data i) v.
Definition set_ino_name v i := RamfsInode (ino_used i) v (ino_data i) (ino_size i).
Definition set_ino_data v i := RamfsInode (ino_used i) (ino_name i) v (ino_size i).

(** The functions of [ext4.c] that are called here: each returns its result,
    and the bytes it stored in the caller's buffer. *)
Class Ext4Ops := {
  ext4_lookup : list Z → Z;
  ext4_read_file : Z → Z → Z → Z * list Z;
  ext4_listdir : Z → Z * list Z;
}.

Record fs_state := FsState {
  inodes : list ramfs_inode; fs_initialized : bool; ext4_ready : bool; fs_sched : sched_state }.
Definition set_inodes v s := FsState v (fs_initialized s) (ext4_ready s) (fs_sched s).
Definition set_fs_sched v s := FsState (inodes s) (fs_initialized s) (ext4_ready s) v.
Definition set_sched_procs (l : list process) (s : sched_state) : sched_state :=
  SchedState l (current_proc s) (idle_proc s) (hart_satp s).

Abbreviation FM := (km fs_state).

(** ** Names *)

Definition str_len (s : list Z) : Z := Z.of_nat (length s).

Fixpoint str_eq (a b : list Z) : bool :=
  match a, b with
  | x :: a', y :: b' => if negb (x =? y) then false else str_eq a' b'
  | [], [] => true
  | _, _ => false
  end.

(** [while ( *p == '/') p++;] *)
Fixpoint skip_slashes (p : list Z) : list Z :=
  match p with
  | c :: p' => if c =? 47 then skip_slashes p' else p
  | [] => []
  end.

(** [while ( *p && *p != '/')], and the test that nothing follows. *)
Fixpoint copy_name (p : list Z) (i : Z) : option (list Z) :=
  match p with
  | [] => Some []
  | c :: p' =>
      if c =? 47 then None
      else if RAMFS_NAME_MAX <=? i + 1 then None
      else cons c <$> copy_name p' (i + 1)
  end.

(** [None] where the function returns -1; a NULL path is [None]. *)
Definition normalize_name (path : option (list Z)) : option (list Z) :=
  match path with
  | None | Some [] => None
  | Some p =>
      match skip_slashes p with
      | [] => None
      | p' => copy_name p' 0
      end
  end.

(** ** Tables *)

(** The result of a search loop that returns -1 when it finds nothing. *)
Definition index_or_neg (i : option nat) : Z := match i with Some i => Z.of_nat i | None => -1 end.

Definition find_inode_by_name (l : list ramfs_inode) (name : list Z) : Z :=
  index_or_neg (find_index (λ i, ino_used i && str_eq (ino_name i) name) l).
Definition alloc_inode (l : list ramfs_inode) : Z :=
  index_or_neg (find_index (λ i, negb (ino_used i)) l).
Definition alloc_fd (l : list file_desc) : Z :=
  index_or_neg (find_index (λ d, negb (fd_used d)) l).
Definition is_ext_fd (d : file_desc) : bool := fd_inode d <? 0.
Definition valid_fd_index (fd : Z) : bool := (0 <=? fd) && (fd <? FD_MAX).

(** [current_proc->fds] *)
Definition cur_fds : FM (list file_desc) := λ s,
  match procs (fs_sched s) !! current_proc (fs_sched s) with
  | Some p => Done (fds p, s)
  | None => Fault
  end.
Definition upd_fd (fd : Z) (d : file_desc) (s : fs_state) : fs_state :=
  set_fs_sched (set_sched_procs
    (alter (λ p, set_fds (aset (fds p) fd d) p) (current_proc (fs_sched s)) (procs (fs_sched s)))
    (fs_sched s)) s.
Definition put_fd (fd : Z) (d : file_desc) : FM unit := kmodify (upd_fd fd d).

Definition get_inode (i : Z) : FM ramfs_inode := λ s,
  match aget (inodes s) i with Some ino => Done (ino, s) | None => Fault end.
Definition upd_inode (i : Z) (ino : ramfs_inode) (s : fs_state) : fs_state :=
  set_inodes (aset (inodes s) i ino) s.
Definition put_inode (i : Z) (ino : ramfs_inode) : FM unit := kmodify (upd_inode i ino).

Definition get_open_fd (fd : Z) : FM (option file_desc) :=
  if negb (valid_fd_index fd) then kret None
  else
    let! l := cur_fds in
    match aget l fd with
    | Some desc => kret (if fd_used desc then Some desc else None)
    | None => kfault
    end.

(** Always called for the current process. *)
Definition install_fd (inode flags offset : Z) : FM Z :=
  let! l := cur_fds in
  let fd := alloc_fd l in
  if fd <? 0 then kret (-1)
  else do! put_fd fd (FileDesc true inode offset flags) in kret fd.

(** [memcpy(&data[off], src, n)] for a copy inside the array. *)
Definition blit (data : list Z) (off : Z) (src : list Z) : list Z :=
  take (Z.to_nat off) data ++ src ++ drop (Z.to_nat off + length src) data.

Definition bytes_of (s : string) : list Z :=
  (λ c, Z.of_N (Ascii.N_of_ascii c)) <$> String.list_ascii_of_string s.

Section ops.
Context {EX : Ext4Ops}.

Definition open_ext4_readonly (name : list Z) (flags : Z) : FM Z :=
  let! s := kget in
  if negb (ext4_ready s) then kret (-1)
  else if negb (Z.land flags 3 =? O_RDONLY) || has_bits flags O_CREAT then kret (-1)
  else
    let ext_index := ext4_lookup name in
    if ext_index <? 0 then kret (-1)
    else install_fd (- ext_index - 1) flags 0.

Definition ensure_ramfs_inode (name : list Z) (flags : Z) : FM Z :=
  let! s := kget in
  let inode := find_inode_by_name (inodes s) name in
  if 0 <=? inode then kret inode
  else if negb (has_bits flags O_CREAT) then kret (-1)
  else
    let inode := alloc_inode (inodes s) in
    if inode <? 0 then kret (-1)
    else do! put_inode inode (RamfsInode true name (replicate 1024 0) 0) in kret inode.

(** The message printed on the console is not part of the state. *)
Definition fs_init : FM unit :=
  let! s := kget in
  if fs_initialized s then kret tt
  else
    let l := replicate 32 zero_inode in
    let hello := alloc_inode l in
    let msg := bytes_of ("ramfs ready" ++ String (Ascii.ascii_of_nat 10) EmptyString) in
    let l := if 0 <=? hello
             then aset l hello (RamfsInode true (bytes_of "README") (blit (replicate 1024 0) 0 msg) (str_len msg))
             else l in
    kput (FsState l true false (fs_sched s)).

Definition fs_open (path : option (list Z)) (flags : Z) : FM Z :=
  match normalize_name path with
  | None => kret (-1)
  | Some name =>
      let! s := kget in
      let! ext_fd := (if find_inode_by_name (inodes s) name <? 0
                      then open_ext4_readonly name flags else kret (-1)) in
      if 0 <=? ext_fd then kret ext_fd
      else
        let! inode := ensure_ramfs_inode name flags in
        if inode <? 0 then kret (-1)
        else
          do! (if has_bits flags O_TRUNC
               then let! ino := get_inode inode in put_inode inode (set_ino_size 0 ino)
               else kret tt) in
          let! ino := get_inode inode in
          let offset := if has_bits flags O_APPEND then ino_size ino else 0 in
          install_fd inode flags offset
  end.

Definition fs_close (fd : Z) : FM Z :=
  let! desc := get_open_fd fd in
  match desc with
  | None => kret (-1)
  | Some _ => do! put_fd fd zero_fd in kret 0
  end.

(** The result, and the bytes stored at [buf]; [buf] tells whether the
    pointer is not NULL. *)
Definition fs_read (fd : Z) (buf : bool) (len : Z) : FM (Z * list Z) :=
  if negb buf then kret (-1, [])
  else
    let! desc := get_open_fd fd in
    match desc with
    | None => kret (-1, [])
    | Some d =>
        if Z.land (fd_flags d) 3 =? O_WRONLY then kret (-1, [])
        else if is_ext_fd d then
          let ext_idx := - fd_inode d - 1 in
          let '(n, out) := ext4_read_file ext_idx (fd_offset d) len in
          do! (if 0 <? n
               then put_fd fd (FileDesc true (fd_inode d) (add32 (fd_offset d) n) (fd_flags d))
               else kret tt) in
          kret (n, out)
        else
          let! inode := get_inode (fd_inode d) in
          if ino_size inode <=? fd_offset d then kret (0, [])
          else
            let remain := ino_size inode - fd_offset d in
            let n := if len <? remain then len else remain in
            let out := take (Z.to_nat n) (drop (Z.to_nat (fd_offset d)) (ino_data inode)) in
            do! put_fd fd (FileDesc true (fd_inode d) (fd_offset d + n) (fd_flags d)) in
            kret (to_int n, out)
    end.

(** [buf] is [None] for a NULL pointer, otherwise the [len] bytes behind it. *)
Definition fs_write (fd : Z) (buf : option (list Z)) (len : Z) : FM Z :=
  match buf with
  | None => kret (-1)
  | Some src =>
      let! desc := get_open_fd fd in
      match desc with
      | None => kret (-1)
      | Some d =>
          if is_ext_fd d then kret (-1)
          else
            let mode := Z.land (fd_flags d) 3 in
            if negb ((mode =? O_WRONLY) || (mode =? O_RDWR)) then kret (-1)
            else
              let! inode := get_inode (fd_inode d) in
              let offset := if has_bits (fd_flags d) O_APPEND then ino_size inode else fd_offset d in
              if RAMFS_DATA_MAX <=? offset then
                do! put_fd fd (FileDesc true (fd_inode d) offset (fd_flags d)) in kret 0
              else
                let cap := RAMFS_DATA_MAX - offset in
                let n := if len <? cap then len else cap in
                let data := blit (ino_data inode) offset (take (Z.to_nat n) src) in
                let size := if ino_size inode <? offset + n then offset + n else ino_size inode in
                do! put_inode (fd_inode d) (RamfsInode (ino_used inode) (ino_name inode) data size) in
                do! put_fd fd (FileDesc true (fd_inode d) (offset + n) (fd_flags d)) in
                kret (to_int n)
      end
  end.

(** The loops over every descriptor of every process. *)
Definition drop_fd (inode : Z) (d : file_desc) : file_desc :=
  if fd_used d && (fd_inode d =? inode) then FileDesc false (fd_inode d) (fd_offset d) (fd_flags d) else d.
Definition drop_fds (inode : Z) (p : process) : process := set_fds (drop_fd inode <$> fds p) p.

Definition fs_unlink (path : option (list Z)) : FM Z :=
  match normalize_name path with
  | None => kret (-1)
  | Some name =>
      let! s := kget in
      let inode := find_inode_by_name (inodes s) name in
      if inode <? 0 then kret (-1)
      else
        do! kmodify (λ s, set_fs_sched
              (set_sched_procs (drop_fds inode <$> procs (fs_sched s)) (fs_sched s)) s) in
        do! put_inode inode zero_inode in kret 0
  end.

Definition fs_rename (old_path new_path : option (list Z)) : FM Z :=
  match normalize_name old_path, normalize_name new_path with
  | Some old_name, Some new_name =>
      if str_eq old_name new_name then kret 0
      else
        let! s := kget in
        let inode := find_inode_by_name (inodes s) old_name in
        if inode <? 0 then kret (-1)
        else if 0 <=? find_inode_by_name (inodes s) new_name then kret (-1)
        else
          let! ino := get_inode inode in
          do! put_inode inode (set_ino_name new_name ino) in kret 0
  | _, _ => kret (-1)
  end.

(** The loop over the inodes, with [acc] already in the buffer. *)
Fixpoint list_names (l : list ramfs_inode) (len : Z) (acc : list Z) : list Z :=
  match l with
  | [] => acc
  | i :: l' =>
      if negb (ino_used i) then list_names l' len acc
      else
        let n := str_len (ino_name i) in
        if len <=? add32 (add32 (length acc) n) 1 then acc
        else list_names l' len (acc ++ ino_name i ++ [10])
  end.

(** The result, and the bytes stored at [buf] with the terminator. *)
Definition fs_listdir (buf : bool) (len : Z) : FM (Z * list Z) :=
  if negb buf || (len =? 0) then kret (-1, [])
  else
    let! s := kget in
    let acc := if ext4_ready s then let '(n, out) := ext4_listdir len in if 0 <? n then out else []
               else [] in
    let out := list_names (inodes s) len acc in
    kret (to_int (length out), if length out <? len then out ++ [0] else out).
End ops.
