(* ===== verification/FsSpec.v ===== *)
(** * The file system as a map from names to contents

    [file_of] gives the contents of every file by name and [opened] what every
    descriptor of every process stands for; each operation of [Fs] is described
    by what it does to these two views.  [fs_ok] is the invariant of the
    inode table and the descriptor tables. *)

From S2P Require Import Prelude Proc Sched Fs.

(** ** Names *)
Lemma str_eq_spec a b : str_eq a b = true ↔ a = b.
Proof.
  revert b. induction a as [|x a IH]; intros [|y b]; simpl; try done.
  destruct (Z.eqb_spec x y) as [->|Hne]; simpl.
  - rewrite IH. split; [by intros ->|by intros [= ->]].
  - split; [done|]. by intros [= ? _].
Qed.

(** A name as [normalize_name] makes it: 1 to 31 bytes, none of them a slash. *)
Definition valid_name (n : list Z) : Prop :=
  n ≠ [] ∧ (length n ≤ 31)%nat ∧ Forall (λ c, c ≠ 47) n.

Lemma copy_name_spec p : ∀ i n, 0 ≤ i →
  copy_name p i = Some n ↔ n = p ∧ (p = [] ∨ i + length p ≤ 31) ∧ Forall (λ c, c ≠ 47) p.
Proof.
  induction p as [|c p IH]; intros i n Hi; simpl.
  - split; [intros [= <-]; split_and!; [done|by left|constructor]|by intros (-> & _)].
  - destruct (Z.eqb_spec c 47) as [->|Hc].
    { split; [done|]. by intros (_ & _ & [? _]%Forall_cons). }
    unfold RAMFS_NAME_MAX. destruct (Z.leb_spec 32 (i + 1)).
    { split; [done|]. intros (_ & [?|?] & _); [done|lia]. }
    split.
    + intros (n' & Hn & ->)%fmap_Some. apply IH in Hn as (-> & Hl & Hf); [|lia].
      split_and!; [done| |by constructor]. right. destruct Hl as [->|]; simpl; lia.
    + intros (-> & [?|Hl] & [_ Hf]%Forall_cons); [done|].
      assert (copy_name p (i + 1) = Some p) as ->; [|done]. apply IH; [lia|].
      split_and!; [done|right; lia|done].
Qed.

Lemma skip_slashes_spec p : ∃ k, p = replicate k 47 ++ skip_slashes p ∧
  (∀ c l, skip_slashes p = c :: l → c ≠ 47).
Proof.
  induction p as [|c p (k & Hk & Hn)]; simpl; [by exists 0%nat|].
  destruct (Z.eqb_spec c 47) as [->|Hc].
  - exists (S k). split; [simpl; by f_equal|done].
  - exists 0%nat. split; [done|]. by intros d l [= <- _].
Qed.

Lemma skip_slashes_app k n : Forall (λ c, c ≠ 47) n → skip_slashes (replicate k 47 ++ n) = n.
Proof.
  intros Hn. induction k as [|k IH]; simpl; [|done]. destruct Hn as [|c n Hc _]; [done|]. simpl.
  by destruct (Z.eqb_spec c 47).
Qed.

(** Paths name files of one flat directory: leading slashes are dropped. *)
Lemma normalize_name_spec path n :
  normalize_name path = Some n ↔ valid_name n ∧ ∃ k, path = Some (replicate k 47 ++ n).
Proof.
  unfold normalize_name, valid_name. split.
  - destruct path as [p|]; [|done]. destruct p as [|c0 p0]; [done|].
    set (p := c0 :: p0) in *. clearbody p. destruct (skip_slashes_spec p) as (k & Hp & _).
    destruct (skip_slashes p) as [|c l] eqn:Hs; [done|]. intros (-> & Hl & Hf)%copy_name_spec; [|lia].
    split; [|by exists k; rewrite Hp]. split_and!; [done| |done]. destruct Hl; [done|lia].
  - intros ((Hn & Hl & Hf) & k & ->). pose proof (skip_slashes_app k n Hf) as Hs.
    destruct (replicate k 47 ++ n) as [|c p] eqn:E; [by apply app_eq_nil in E as [_ ->]|].
    rewrite Hs. destruct n as [|d n]; [done|]. apply copy_name_spec; [lia|].
    split_and!; [done|right; lia|done].
Qed.

(** ** The views *)

Definition contents (i : ramfs_inode) : list Z := take (Z.to_nat (ino_size i)) (ino_data i).
Definition named (n : list Z) (i : ramfs_inode) : bool := ino_used i && str_eq (ino_name i) n.

Definition file_of (s : fs_state) (n : list Z) : option (list Z) :=
  match find_index (named n) (inodes s) with
  | Some i => contents <$> inodes s !! i
  | None => None
  end.

(** What descriptor [fd] of process [k] is open on: name, offset and flags. *)
Definition opened (s : fs_state) (k : nat) (fd : Z) : option (list Z * Z * Z) :=
  match procs (fs_sched s) !! k with
  | None => None
  | Some p =>
      match aget (fds p) fd with
      | Some d =>
          if fd_used d
          then (λ i, (ino_name i, fd_offset d, fd_flags d)) <$> aget (inodes s) (fd_inode d)
          else None
      | None => None
      end
  end.

Abbreviation cur s := (current_proc (fs_sched s)).

Record inode_ok (i : ramfs_inode) : Prop := {
  io_data : length (ino_data i) = 1024%nat;
  io_size : 0 ≤ ino_size i ≤ 1024;
  io_name : ino_used i = true → valid_name (ino_name i);
}.

(** A descriptor in use refers to an inode in use; none is left dangling. *)
Definition fd_ok (l : list ramfs_inode) (d : file_desc) : Prop :=
  fd_used d = true → 0 ≤ fd_offset d ≤ 1024 ∧ ∃ i, aget l (fd_inode d) = Some i ∧ ino_used i = true.

Definition proc_fds_ok (l : list ramfs_inode) (p : process) : Prop :=
  length (fds p) = 16%nat ∧ Forall (fd_ok l) (fds p).

Definition unique_names (l : list ramfs_inode) : Prop :=
  ∀ i j a b n, l !! i = Some a → l !! j = Some b → named n a = true → named n b = true → i = j.

Record fs_ok (s : fs_state) : Prop := {
  fo_len : length (inodes s) = 32%nat;
  fo_inodes : Forall inode_ok (inodes s);
  fo_unique : unique_names (inodes s);
  fo_sched : sched_ok (fs_sched s);
  fo_fds : Forall (proc_fds_ok (inodes s)) (procs (fs_sched s));
  fo_ext4 : ext4_ready s = false;
}.

Lemma named_spec n i : named n i = true ↔ ino_used i = true ∧ ino_name i = n.
Proof. unfold named. by rewrite andb_true_iff, str_eq_spec. Qed.

Lemma file_of_at s n i a :
  unique_names (inodes s) → inodes s !! i = Some a → named n a = true →
  find_index (named n) (inodes s) = Some i ∧ file_of s n = Some (contents a).
Proof.
  intros Hu Hi Ha. unfold file_of. destruct (find_index (named n) (inodes s)) as [j|] eqn:Hf.
  - destruct (find_index_Some _ _ _ Hf) as (b & Hj & Hb & _).
    assert (j = i) as -> by (by eapply Hu). by rewrite Hi.
  - by rewrite (find_index_None _ _ _ _ Hf Hi) in Ha.
Qed.

Lemma file_of_None s n :
  file_of s n = None ↔ ∀ i a, inodes s !! i = Some a → named n a = false.
Proof.
  unfold file_of. destruct (find_index (named n) (inodes s)) as [j|] eqn:Hf.
  - destruct (find_index_Some _ _ _ Hf) as (b & Hj & Hb & _). rewrite Hj. split; [done|].
    intros Hn. by rewrite (Hn _ _ Hj) in Hb.
  - split; [|done]. intros _ i a Hi. by eapply find_index_None.
Qed.

Lemma find_inode_spec s n :
  unique_names (inodes s) →
  match file_of s n with
  | Some c => ∃ (i : nat) a, find_inode_by_name (inodes s) n = i ∧ inodes s !! i = Some a ∧
      named n a = true ∧ c = contents a
  | None => find_inode_by_name (inodes s) n = -1 ∧ ∀ i a, inodes s !! i = Some a → named n a = false
  end.
Proof.
  intros Hu. unfold find_inode_by_name. fold (named n).
  change (λ i, ino_used i && str_eq (ino_name i) n) with (named n).
  destruct (file_of s n) as [c|] eqn:Hf.
  - unfold file_of in Hf. destruct (find_index (named n) (inodes s)) as [i|] eqn:Hi; [|done].
    destruct (find_index_Some _ _ _ Hi) as (a & Ha & Hn & _). rewrite Ha in Hf. injection Hf as <-.
    by exists i, a.
  - pose proof (proj1 (file_of_None s n) Hf) as Hn. split; [|done].
    destruct (find_index (named n) (inodes s)) as [i|] eqn:Hi; [|done].
    destruct (find_index_Some _ _ _ Hi) as (a & Ha & Hna & _). by rewrite (Hn _ _ Ha) in Hna.
Qed.

(** Changing one inode changes the file it was and the file it becomes. *)
Lemma file_of_insert s s' i a b n :
  unique_names (inodes s) → inodes s !! i = Some a → inodes s' = <[i := b]> (inodes s) →
  unique_names (inodes s') →
  file_of s' n = if named n b then Some (contents b) else if named n a then None else file_of s n.
Proof.
  intros Hu Hi Heq Hu'. pose proof (lookup_lt_Some _ _ _ Hi) as Hlt.
  assert (Hb : inodes s' !! i = Some b) by (rewrite Heq; by apply list_lookup_insert_eq).
  destruct (named n b) eqn:Hnb; [by apply (file_of_at s' n i b Hu')|].
  destruct (file_of s n) as [c|] eqn:Hc.
  - pose proof (find_inode_spec s n Hu) as Hfs. rewrite Hc in Hfs.
    destruct Hfs as (j & x & _ & Hj & Hx & ->). destruct (decide (i = j)) as [<-|Hne].
    + rewrite Hi in Hj. injection Hj as <-. rewrite Hx. apply file_of_None. intros k y Hk.
      destruct (decide (i = k)) as [<-|Hik]; [by rewrite Hb in Hk; injection Hk as <-|].
      destruct (named n y) eqn:Hy; [|done]. rewrite Heq, list_lookup_insert_ne in Hk by done.
      by destruct Hik; eapply Hu.
    + destruct (named n a) eqn:Ha; [by destruct Hne; eapply Hu|].
      apply (file_of_at s' n j x Hu'); [|done]. by rewrite Heq, list_lookup_insert_ne.
  - rewrite file_of_None in Hc. rewrite (Hc _ _ Hi). apply file_of_None. intros k y Hk.
    destruct (decide (i = k)) as [<-|Hik]; [by rewrite Hb in Hk; injection Hk as <-|].
    rewrite Heq, list_lookup_insert_ne in Hk by done. by eapply Hc.
Qed.

(** ** Keeping the invariant *)
Lemma aget_nat_ex {A} (l : list A) (i : Z) x : aget l i = Some x → ∃ j : nat, i = j ∧ l !! j = Some x.
Proof.
  intros Hi. pose proof (aget_Some _ _ _ Hi). exists (Z.to_nat i). split; [lia|].
  rewrite <-aget_of_nat. by rewrite Z2Nat.id by lia.
Qed.

Lemma unique_insert l i b :
  unique_names l → (∀ n j c, named n b = true → l !! j = Some c → named n c = true → j = i) →
  unique_names (<[i := b]> l).
Proof.
  intros Hu Hb j k x y n Hj Hk Hx Hy. apply list_lookup_insert_Some in Hj, Hk.
  destruct Hj as [(-> & -> & _)|[Hij Hj]], Hk as [(<- & -> & _)|[Hik Hk]]; [done| | |by eapply Hu].
  - symmetry. by eapply Hb.
  - by eapply Hb.
Qed.

(** An inode stays in use, or nothing refers to it. *)
Lemma fs_ok_inode s (i : nat) a b :
  fs_ok s → inodes s !! i = Some a → inode_ok b → (ino_used b = false → ino_used a = false) →
  (∀ n j c, named n b = true → inodes s !! j = Some c → named n c = true → j = i) →
  fs_ok (upd_inode i b s).
Proof.
  intros [Hl Hin Hu Hs Hfd He] Hi Hb Hub Hn. unfold upd_inode. rewrite aset_of_nat.
  split; simpl; try done.
  - by rewrite length_insert.
  - by apply Forall_insert.
  - by apply unique_insert.
  - eapply Forall_impl; [exact Hfd|]. intros p [Hlp Hp]. split; [done|].
    eapply Forall_impl; [exact Hp|]. intros d Hd Hus. destruct (Hd Hus) as (Ho & x & Hx & Hxu).
    split; [done|]. apply aget_nat_ex in Hx as (j & -> & Hx). rewrite aget_of_nat.
    destruct (decide (i = j)) as [<-|Hne].
    + rewrite Hi in Hx. injection Hx as <-. exists b. split.
      * apply list_lookup_insert_eq. by eapply lookup_lt_Some.
      * destruct (ino_used b); [done|]. by rewrite Hub in Hxu.
    + exists x. by rewrite list_lookup_insert_ne.
Qed.

Lemma fs_ok_fd s fd d : fs_ok s → fd_ok (inodes s) d → fs_ok (upd_fd fd d s).
Proof.
  intros [Hl Hin Hu [Hs1 Hs2 Hs3] Hfd He] Hd. unfold upd_fd. split; simpl; try done.
  - split; simpl; try done. by rewrite length_alter.
  - apply Forall_alter; [done|]. intros p Hp [Hlp Hf]. split; simpl; [by rewrite length_aset|].
    unfold aset. destruct (fd <? 0); [done|]. by apply Forall_insert.
Qed.

Lemma file_of_same s s' n : inodes s' = inodes s → file_of s' n = file_of s n.
Proof. unfold file_of. by intros ->. Qed.

Lemma opened_upd_fd s fd d k fd' p :
  procs (fs_sched s) !! cur s = Some p → 0 ≤ fd < length (fds p) →
  opened (upd_fd fd d s) k fd' =
  if decide (k = cur s ∧ fd' = fd)
  then if fd_used d then (λ i, (ino_name i, fd_offset d, fd_flags d)) <$> aget (inodes s) (fd_inode d) else None
  else opened s k fd'.
Proof.
  intros Hp Hfd. unfold opened, upd_fd. simpl. destruct (decide (k = cur s)) as [->|Hk].
  - rewrite list_lookup_alter_eq, Hp. simpl. destruct (decide (fd' = fd)) as [->|Hne].
    + rewrite decide_True by done. by rewrite aget_aset_eq.
    + rewrite decide_False by naive_solver. rewrite aget_aset_ne by done. done.
  - rewrite list_lookup_alter_ne by done. by rewrite decide_False by naive_solver.
Qed.

(** ** Reaching the current process and its descriptors *)
Lemma cur_proc_ex s : fs_ok s →
  ∃ p, procs (fs_sched s) !! cur s = Some p ∧ proc_fds_ok (inodes s) p.
Proof.
  intros [_ _ _ [Hs1 Hs2 _] Hfd _]. destruct (lookup_lt_is_Some_2 (procs (fs_sched s)) (cur s)) as [p Hp]; [lia|].
  exists p. split; [done|]. by eapply Forall_lookup_1.
Qed.

Lemma fd_inode_ex l p fd d :
  proc_fds_ok l p → aget (fds p) fd = Some d → fd_used d = true →
  0 ≤ fd_offset d ≤ 1024 ∧ ∃ (j : nat) i, fd_inode d = j ∧ l !! j = Some i ∧ ino_used i = true.
Proof.
  intros [_ Hf] Hd Hu. apply aget_nat_ex in Hd as (k & -> & Hd).
  destruct (Forall_lookup_1 _ _ _ _ Hf Hd Hu) as (Ho & i & Hi & Hiu). split; [done|].
  apply aget_nat_ex in Hi as (j & -> & Hi). eauto.
Qed.

(** [get_open_fd] finds exactly what [opened] shows. *)
Lemma wp_get_open_fd s fd (Q : option file_desc → fs_state → Prop) :
  fs_ok s →
  (opened s (cur s) fd = None → Q None s) →
  (∀ p d (j : nat) i, procs (fs_sched s) !! cur s = Some p → 0 ≤ fd < length (fds p) →
     aget (fds p) fd = Some d → fd_used d = true → fd_inode d = j → inodes s !! j = Some i →
     ino_used i = true → 0 ≤ fd_offset d ≤ 1024 →
     opened s (cur s) fd = Some (ino_name i, fd_offset d, fd_flags d) →
     file_of s (ino_name i) = Some (contents i) → Q (Some d) s) →
  wp (get_open_fd fd) Q s.
Proof.
  intros Hok Hn Hs. destruct (cur_proc_ex s Hok) as (p & Hp & Hpf). pose proof Hpf as [Hlen Hf].
  unfold get_open_fd, valid_fd_index, FD_MAX.
  assert (Ho : opened s (cur s) fd = match aget (fds p) fd with
    | Some d => if fd_used d then (λ i, (ino_name i, fd_offset d, fd_flags d)) <$> aget (inodes s) (fd_inode d) else None
    | None => None end) by (unfold opened; by rewrite Hp).
  destruct ((0 <=? fd) && (fd <? 16)) eqn:Hv; simpl.
  - apply andb_true_iff in Hv as [Hv1%Z.leb_le Hv2%Z.ltb_lt].
    wp_step. eapply wp_done; [unfold cur_fds; by rewrite Hp|].
    destruct (aget_in (fds p) fd) as [d Hd]; [lia|]. rewrite Hd in Ho |- *. wp_steps.
    destruct (fd_used d) eqn:Hu; [|by apply Hn].
    destruct (fd_inode_ex _ _ _ _ Hpf Hd Hu) as (Hof & j & i & Hj & Hi & Hiu).
    apply (Hs p d j i); try done; [lia| |].
    + by rewrite Ho, Hj, aget_of_nat, Hi.
    + eapply file_of_at; [apply Hok|done|]. by apply named_spec.
  - wp_steps. apply Hn. rewrite Ho. apply andb_false_iff in Hv. unfold aget.
    destruct (Z.ltb_spec fd 0); [done|]. rewrite lookup_ge_None_2; [done|].
    destruct Hv as [Hv%Z.leb_gt|Hv%Z.ltb_ge]; lia.
Qed.

Lemma wp_get_inode s (j : nat) i Q : inodes s !! j = Some i → Q i s → wp (get_inode j) Q s.
Proof. intros Hj HQ. unfold wp, get_inode. by rewrite aget_of_nat, Hj. Qed.
