(* ===== verification/FsOps.v ===== *)
(** * What each operation of the file system does to files and descriptors *)

From S2P Require Import Prelude Proc Sched Fs FsSpec.

(** Nothing of a process but its descriptors changes. *)
Definition only_fds (p p' : process) : Prop := p' = set_fds (fds p') p.
Record fs_frame (s s' : fs_state) : Prop := {
  ff_cur : current_proc (fs_sched s') = current_proc (fs_sched s);
  ff_idle : idle_proc (fs_sched s') = idle_proc (fs_sched s);
  ff_satp : hart_satp (fs_sched s') = hart_satp (fs_sched s);
  ff_procs : Forall2 only_fds (procs (fs_sched s)) (procs (fs_sched s'));
}.

Lemma only_fds_refl p : only_fds p p.
Proof. by destruct p. Qed.

Lemma Forall2_diag {A} (R : A → A → Prop) l : (∀ x, R x x) → Forall2 R l l.
Proof. intros HR. induction l; by constructor. Qed.

#[export] Instance fs_frame_po : PreOrder fs_frame.
Proof.
  split.
  - intros s. split; try done. apply Forall2_diag, only_fds_refl.
  - intros s t u [H1 H2 H3 H4] [G1 G2 G3 G4]. split; [congruence..|].
    revert G4. generalize (procs (fs_sched u)). induction H4 as [|p q l l' Hpq _ IH]; intros m Hm;
      inversion Hm as [|? r ? m' Hqr]; constructor; subst; [|by apply IH].
    unfold only_fds in *. rewrite Hqr, Hpq. by destruct p.
Qed.

Lemma frame_upd_fd s fd d : fs_frame s (upd_fd fd d s).
Proof.
  split; try done. simpl. generalize (current_proc (fs_sched s)). induction (procs (fs_sched s)) as [|p l IH];
    intros [|k]; simpl; constructor; try done.
  - apply Forall2_diag, only_fds_refl.
  - apply only_fds_refl.
  - apply IH.
Qed.

Lemma frame_upd_inode s i b : fs_frame s (upd_inode i b s).
Proof. split; try done. apply Forall2_diag, only_fds_refl. Qed.

Lemma length_contents i : inode_ok i → Z.of_nat (length (contents i)) = ino_size i.
Proof. intros [Hl Hs _]. unfold contents. rewrite length_take. lia. Qed.

(** Descriptors see an inode by its name only. *)
Lemma opened_upd_inode s (j : nat) a b k fd :
  fs_ok s → inodes s !! j = Some a → ino_name b = ino_name a ∨ ino_used a = false →
  opened (upd_inode j b s) k fd = opened s k fd.
Proof.
  intros Hok Hj Hab. unfold opened, upd_inode. simpl. destruct (procs (fs_sched s) !! k) as [p|] eqn:Hp; [|done].
  destruct (aget (fds p) fd) as [d|] eqn:Hd; [|done]. destruct (fd_used d) eqn:Hu; [|done].
  destruct (fd_inode_ex (inodes s) p fd d) as (_ & i & x & Hi & Hx & Hxu); try done.
  { eapply Forall_lookup_1; [apply Hok|done]. }
  rewrite Hi, aset_of_nat, !aget_of_nat. destruct (decide (j = i)) as [<-|Hne].
  - rewrite list_lookup_insert_eq by (by eapply lookup_lt_Some). rewrite Hj in Hx |- *. injection Hx as <-.
    simpl. destruct Hab as [->|]; congruence.
  - by rewrite list_lookup_insert_ne.
Qed.

Lemma file_of_upd_inode s (j : nat) a b n :
  fs_ok s → inodes s !! j = Some a → fs_ok (upd_inode j b s) →
  file_of (upd_inode j b s) n =
  if named n b then Some (contents b) else if named n a then None else file_of s n.
Proof.
  intros Hok Hj Hok'. apply (file_of_insert s _ j a b); [apply Hok|done| |apply Hok'].
  unfold upd_inode. simpl. by rewrite aset_of_nat.
Qed.

(** A change of data and size only. *)
Lemma rewrite_inode s (j : nat) a b :
  fs_ok s → inodes s !! j = Some a → ino_used a = true → inode_ok b → ino_used b = true →
  ino_name b = ino_name a →
  fs_ok (upd_inode j b s) ∧ fs_frame s (upd_inode j b s) ∧
  (∀ n, file_of (upd_inode j b s) n = if decide (n = ino_name a) then Some (contents b) else file_of s n) ∧
  (∀ k fd, opened (upd_inode j b s) k fd = opened s k fd).
Proof.
  intros Hok Hj Hua Hb Hub Hn.
  assert (Hnm : ∀ n, named n b = named n a) by (intros n; unfold named; by rewrite Hua, Hub, Hn).
  assert (Hok' : fs_ok (upd_inode j b s)).
  { apply (fs_ok_inode s j a); try done; [congruence|]. intros n i c Hnb Hi Hc. rewrite Hnm in Hnb.
    by eapply (fo_unique s Hok). }
  split_and!; [done|apply frame_upd_inode| |].
  - intros n. rewrite (file_of_upd_inode s j a b) by done. rewrite Hnm.
    destruct (decide (n = ino_name a)) as [->|Hne].
    + by rewrite (proj2 (named_spec _ a)).
    + destruct (named n a) eqn:E; [|done]. apply named_spec in E as [_ ?]. congruence.
  - intros k fd. apply (opened_upd_inode s j a); [done|done|by left].
Qed.

(** ** Opening *)

Definition no_free_fd (s : fs_state) : Prop := ∀ fd, 0 ≤ fd < 16 → opened s (cur s) fd ≠ None.
Definition table_full (s : fs_state) : Prop := Forall (λ i, ino_used i = true) (inodes s).

(** The descriptor [fd] of the current process becomes [v]; no other changes. *)
Definition opened_becomes (s s' : fs_state) (fd : Z) (v : option (list Z * Z * Z)) : Prop :=
  ∀ k fd', opened s' k fd' = if decide (k = cur s ∧ fd' = fd) then v else opened s k fd'.

(** How a new descriptor for [n] at [off] is installed, or not. *)
Definition installed (s : fs_state) (n : list Z) (off flags r : Z) (s' : fs_state) : Prop :=
  (r = -1 ∧ no_free_fd s ∧ ∀ k fd, opened s' k fd = opened s k fd) ∨
  (0 ≤ r < 16 ∧ opened s (cur s) r = None ∧ opened_becomes s s' r (Some (n, off, flags))).

Lemma opened_as s k p fd :
  procs (fs_sched s) !! k = Some p → opened s k fd =
  match aget (fds p) fd with
  | Some d => if fd_used d then (λ i, (ino_name i, fd_offset d, fd_flags d)) <$> aget (inodes s) (fd_inode d) else None
  | None => None
  end.
Proof. unfold opened. by intros ->. Qed.

Lemma install_fd_spec s (j : nat) i flags off :
  fs_ok s → inodes s !! j = Some i → ino_used i = true → 0 ≤ off ≤ 1024 →
  wp (install_fd j flags off) (λ r s', fs_ok s' ∧ fs_frame s s' ∧ inodes s' = inodes s ∧
    installed s (ino_name i) off flags r s') s.
Proof.
  intros Hok Hj Hu Ho. destruct (cur_proc_ex s Hok) as (p & Hp & Hpf). pose proof Hpf as [Hlen _].
  unfold install_fd. wp_step. eapply wp_done; [unfold cur_fds; by rewrite Hp|].
  unfold alloc_fd. destruct (find_index _ (fds p)) as [f|] eqn:Hf; simpl.
  - destruct (find_index_Some _ _ _ Hf) as (d & Hd & Hun%negb_true_iff & _).
    pose proof (lookup_lt_Some _ _ _ Hd). destruct (Z.ltb_spec f 0); [lia|]. wp_steps.
    split_and!; [|apply frame_upd_fd|done|right].
    + apply fs_ok_fd; [done|]. intros _. simpl. split; [done|]. exists i. by rewrite aget_of_nat.
    + split_and!; [lia|lia| |].
      * by rewrite (opened_as _ _ _ _ Hp), aget_of_nat, Hd, Hun.
      * intros k fd'. rewrite (opened_upd_fd s f _ k fd' p Hp) by lia. simpl. by rewrite aget_of_nat, Hj.
  - wp_steps. split_and!; [done|done|done|left]. split_and!; try done. intros fd Hfd.
    rewrite (opened_as _ _ _ _ Hp). destruct (aget_in (fds p) fd) as [d Hd]; [lia|]. rewrite Hd.
    pose proof Hd as Hd'. apply aget_nat_ex in Hd' as (k & -> & Hd').
    pose proof (find_index_None _ _ _ _ Hf Hd') as Hus%negb_false_iff. rewrite Hus.
    destruct (fd_inode_ex _ _ _ _ Hpf Hd Hus) as (_ & m & x & -> & Hx & _). by rewrite aget_of_nat, Hx.
Qed.

(** [n] does not exist and is not to be, or cannot be, created. *)
Definition open_refused (s : fs_state) (n : list Z) (flags : Z) : Prop :=
  file_of s n = None ∧ (has_bits flags O_CREAT = false ∨ table_full s).

Lemma ensure_ramfs_inode_spec s n flags :
  fs_ok s → valid_name n →
  wp (ensure_ramfs_inode n flags) (λ r s',
    (r = -1 ∧ s' = s ∧ open_refused s n flags) ∨
    (¬ open_refused s n flags ∧ ∃ (j : nat) i, r = j ∧ inodes s' !! j = Some i ∧ ino_used i = true ∧
       ino_name i = n ∧ contents i = default [] (file_of s n) ∧ fs_ok s' ∧ fs_frame s s' ∧
       (∀ n', n' ≠ n → file_of s' n' = file_of s n') ∧ ∀ k fd, opened s' k fd = opened s k fd)) s.
Proof.
  intros Hok Hn. unfold ensure_ramfs_inode. do 2 wp_step. unfold open_refused.
  pose proof (find_inode_spec s n (fo_unique s Hok)) as Hf. destruct (file_of s n) as [c|] eqn:Hc.
  - destruct Hf as (j & a & -> & Hj & [Hua Hna]%named_spec & ->). destruct (Z.leb_spec 0 j); [|lia]. wp_steps.
    right. split; [by intros [? _]|]. exists j, a. by split_and!.
  - destruct Hf as [-> Hnone]. simpl. destruct (has_bits flags O_CREAT) eqn:Hcr; simpl.
    2: { wp_steps. left. split_and!; try done. by left. }
    unfold alloc_inode. destruct (find_index _ (inodes s)) as [j|] eqn:Hj; simpl.
    + destruct (find_index_Some _ _ _ Hj) as (a & Ha & Hua%negb_true_iff & _).
      destruct (Z.ltb_spec j 0); [lia|]. wp_steps. right.
      set (b := RamfsInode true n (replicate 1024 0) 0).
      assert (Hok' : fs_ok (upd_inode j b s)).
      { apply (fs_ok_inode s j a); [done|done| |done|].
        - split; [apply length_replicate|simpl; lia|done].
        - intros n' i c [_ <-]%named_spec Hi. simpl. by rewrite (Hnone _ _ Hi). }
      split.
      { intros [_ [?|Hfull]]; [done|]. unfold table_full in Hfull.
        pose proof (Forall_lookup_1 _ _ _ _ Hfull Ha). simpl in *. congruence. }
      exists j, b. split_and!; try done.
      * unfold upd_inode. simpl. rewrite aset_of_nat. apply list_lookup_insert_eq. by eapply lookup_lt_Some.
      * apply frame_upd_inode.
      * intros n' Hne. rewrite (file_of_upd_inode s j a b) by done.
        destruct (named n' b) eqn:E; [apply named_spec in E as [_ E]; by destruct Hne|].
        unfold named. by rewrite Hua.
      * intros k fd. apply (opened_upd_inode s j a); [done|done|by right].
    + wp_steps. left. split_and!; try done. right. apply Forall_lookup. intros i a Ha.
      by apply negb_false_iff, (find_index_None _ _ _ _ Hj Ha).
Qed.

Lemma no_free_fd_ext s s' :
  (∀ k fd, opened s' k fd = opened s k fd) → cur s' = cur s → no_free_fd s' → no_free_fd s.
Proof. intros Ho Hc Hn fd Hfd. rewrite <-Ho, <-Hc. by apply Hn. Qed.

Lemma installed_ext s s1 n off flags r s' :
  (∀ k fd, opened s1 k fd = opened s k fd) → cur s1 = cur s →
  installed s1 n off flags r s' → installed s n off flags r s'.
Proof.
  intros Ho Hc [(-> & Hn & He)|(Hr & Hnone & Hb)]; [left|right].
  - split_and!; [done|by apply (no_free_fd_ext s s1)|]. intros. by rewrite He.
  - split_and!; [lia|lia|by rewrite <-Ho, <-Hc|]. intros k fd'. by rewrite Hb, Hc, Ho.
Qed.

(** The contents [n] has once opened. *)
Definition open_contents (s : fs_state) (n : list Z) (flags : Z) : list Z :=
  if has_bits flags O_TRUNC then [] else default [] (file_of s n).

Definition open_post (s : fs_state) (path : option (list Z)) (flags r : Z) (s' : fs_state) : Prop :=
  fs_ok s' ∧ fs_frame s s' ∧
  match normalize_name path with
  | None => r = -1 ∧ s' = s
  | Some n =>
      let c := open_contents s n flags in
      (open_refused s n flags ∧ r = -1 ∧ s' = s) ∨
      (¬ open_refused s n flags ∧
       (∀ n', file_of s' n' = if decide (n' = n) then Some c else file_of s n') ∧
       installed s n (if has_bits flags O_APPEND then length c else 0) flags r s')
  end.

Section ops.
Context {EX : Ext4Ops}.

(** The truncation, when asked for, and the offset of the new descriptor. *)
Lemma open_tail_spec s (j : nat) i flags :
  fs_ok s → inodes s !! j = Some i → ino_used i = true →
  let c := if has_bits flags O_TRUNC then [] else contents i in
  wp (do! (if has_bits flags O_TRUNC
           then let! ino := get_inode j in put_inode j (set_ino_size 0 ino) else kret tt) in
      let! ino := get_inode j in
      install_fd j flags (if has_bits flags O_APPEND then ino_size ino else 0))
    (λ r s', fs_ok s' ∧ fs_frame s s' ∧
      (∀ n', file_of s' n' = if decide (n' = ino_name i) then Some c else file_of s n') ∧
      installed s (ino_name i) (if has_bits flags O_APPEND then length c else 0) flags r s') s.
Proof.
  intros Hok Hj Hu c. pose proof (Forall_lookup_1 _ _ _ _ (fo_inodes s Hok) Hj) as Hi.
  set (b := if has_bits flags O_TRUNC then set_ino_size 0 i else i).
  set (s1 := upd_inode j b s).
  assert (Hb : inode_ok b ∧ ino_used b = true ∧ ino_name b = ino_name i ∧ contents b = c).
  { unfold b, c. destruct (has_bits flags O_TRUNC); [|done]. destruct Hi. by split_and!. }
  destruct Hb as (Hb & Hub & Hnb & Hcb).
  destruct (rewrite_inode s j i b Hok Hj Hu Hb Hub Hnb) as (Hok1 & Hf1 & Hfile & Hop). fold s1 in Hok1, Hf1, Hfile, Hop.
  assert (Hj1 : inodes s1 !! j = Some b).
  { unfold s1, upd_inode. simpl. rewrite aset_of_nat. apply list_lookup_insert_eq. by eapply lookup_lt_Some. }
  wp_step. apply wp_mono with (λ _ s', s' = s1).
  - unfold s1, b. destruct (has_bits flags O_TRUNC).
    + wp_step. apply (wp_get_inode s j i); [done|]. by wp_steps.
    + wp_steps. unfold upd_inode. rewrite aset_of_nat, list_insert_id by done. by destruct s.
  - intros _ s' ->. wp_step. apply (wp_get_inode s1 j b); [done|]. cbv beta.
    eapply wp_mono; [apply (install_fd_spec s1 j b); try done|].
    { destruct (has_bits flags O_APPEND); [apply Hb|lia]. }
    intros r s' (Hok' & Hf' & Hin & Hinst). split_and!; [done|by etrans| |].
    + intros n'. rewrite (file_of_same s1 s') by done. by rewrite Hfile, Hcb.
    + apply (installed_ext s s1); [done|by apply Hf1|]. rewrite <-Hnb.
      by rewrite <-(length_contents b), Hcb in Hinst by done.
Qed.

Lemma fs_open_spec s path flags : fs_ok s → wp (fs_open path flags) (open_post s path flags) s.
Proof.
  intros Hok. unfold fs_open, open_post. destruct (normalize_name path) as [n|] eqn:Hn.
  2: { wp_steps. by split_and!. }
  apply normalize_name_spec in Hn as [Hn _]. do 3 wp_step.
  apply wp_mono with (λ r s', r = -1 ∧ s' = s).
  { destruct (_ <? 0); [|by wp_steps]. unfold open_ext4_readonly. do 2 wp_step. rewrite (fo_ext4 s Hok). by wp_steps. }
  intros _ _ [-> ->]. simpl. wp_step. eapply wp_mono; [by apply ensure_ramfs_inode_spec|].
  intros r s1 [(-> & -> & Href)|(Hnr & j & i & -> & Hj & Hu & Hin & Hc & Hok1 & Hf1 & Hfile & Hop)].
  { simpl. wp_steps. split_and!; try done. by left. }
  destruct (Z.ltb_spec j 0); [lia|]. eapply wp_mono; [by apply (open_tail_spec s1 j i)|]. cbv beta zeta.
  intros r s' (Hok' & Hf' & Hfile' & Hinst). rewrite Hin, Hc in *. split_and!; [done|by etrans|right].
  split_and!; [done| |].
  - intros n'. rewrite Hfile'. destruct (decide (n' = n)); [done|]. by apply Hfile.
  - apply (installed_ext s s1); [done|by apply Hf1|done].
Qed.

(** ** Closing, reading and writing *)

Definition close_post (s : fs_state) (fd r : Z) (s' : fs_state) : Prop :=
  fs_ok s' ∧ fs_frame s s' ∧ (∀ n, file_of s' n = file_of s n) ∧
  match opened s (cur s) fd with
  | None => r = -1 ∧ s' = s
  | Some _ => r = 0 ∧ opened_becomes s s' fd None
  end.

Lemma fs_close_spec s fd : fs_ok s → wp (fs_close fd) (close_post s fd) s.
Proof.
  intros Hok. unfold fs_close, close_post. wp_step. apply wp_get_open_fd; [done| |].
  - intros ->. wp_steps. by split_and!.
  - intros p d j i Hp Hfd Hd Hu Hj Hi Hiu Hoff -> _. wp_steps. split_and!; try done.
    + by apply fs_ok_fd.
    + apply frame_upd_fd.
    + intros k fd'. by rewrite (opened_upd_fd s fd _ k fd' p Hp).
Qed.

(** Reading gives the part of the contents from the offset on and moves the
    offset behind it. *)
Definition read_post (s : fs_state) (fd : Z) (buf : bool) (len : Z) (r : Z * list Z) (s' : fs_state) : Prop :=
  fs_ok s' ∧ fs_frame s s' ∧ (∀ n, file_of s' n = file_of s n) ∧
  match opened s (cur s) fd with
  | Some (n, off, flags) =>
      if buf && negb (Z.land flags 3 =? O_WRONLY) then
        ∃ c, file_of s n = Some c ∧ r.2 = take (Z.to_nat len) (drop (Z.to_nat off) c) ∧
          r.1 = Z.of_nat (length r.2) ∧ opened_becomes s s' fd (Some (n, off + r.1, flags))
      else r = (-1, []) ∧ s' = s
  | None => r = (-1, []) ∧ s' = s
  end.

Lemma opened_becomes_same s fd v : opened s (cur s) fd = v → opened_becomes s s fd v.
Proof. intros Hv k fd'. destruct (decide _) as [[-> ->]|]; [done|done]. Qed.

Lemma fs_read_spec s fd buf len :
  fs_ok s → is_u32 len → wp (fs_read fd buf len) (read_post s fd buf len) s.
Proof.
  intros Hok Hlen. unfold is_u32 in Hlen. unfold fs_read, read_post. destruct buf; simpl.
  2: { wp_steps. split_and!; try done. destruct (opened s (cur s) fd) as [[[n o] f]|]; done. }
  wp_step. apply wp_get_open_fd; [done| |].
  { intros ->. wp_steps. by split_and!. }
  intros p d j i Hp Hfd Hd Hu Hj Hi Hiu Hoff Ho Hfo. rewrite Ho.
  destruct (Z.land (fd_flags d) 3 =? O_WRONLY); simpl; [wp_steps; by split_and!|].
  unfold is_ext_fd. rewrite Hj. destruct (Z.ltb_spec j 0); [lia|].
  wp_step. apply (wp_get_inode s j i); [done|]. cbv beta.
  pose proof (Forall_lookup_1 _ _ _ _ (fo_inodes s Hok) Hi) as [Hdl Hsz _].
  destruct (Z.leb_spec (ino_size i) (fd_offset d)) as [Hge|Hlt].
  - wp_steps. split_and!; try done. exists (contents i). split_and!; [done| |done|].
    + simpl. unfold contents. rewrite drop_ge by (rewrite length_take; lia). by rewrite take_nil.
    + simpl. rewrite Z.add_0_r. by apply opened_becomes_same.
  - set (n := if len <? ino_size i - fd_offset d then len else ino_size i - fd_offset d).
    assert (Hn : 0 ≤ n ≤ ino_size i - fd_offset d ∧ n ≤ len) by (unfold n; zcases; lia).
    wp_steps.
    set (out := take (Z.to_nat n) (drop (Z.to_nat (fd_offset d)) (ino_data i))).
    assert (Hout : out = take (Z.to_nat len) (drop (Z.to_nat (fd_offset d)) (contents i))).
    { unfold out, contents.
      replace (Z.to_nat (ino_size i)) with (Z.to_nat (fd_offset d) + Z.to_nat (ino_size i - fd_offset d))%nat by lia.
      rewrite <-take_drop_commute, take_take. f_equal. unfold n. zcases; lia. }
    assert (Hl : Z.of_nat (length out) = n) by (unfold out; rewrite length_take, length_drop; lia).
    rewrite to_int_id by (unfold is_int; lia). split_and!; [|apply frame_upd_fd|done|].
    + apply fs_ok_fd; [done|]. intros _. simpl. split; [lia|]. exists i. by rewrite aget_of_nat.
    + exists (contents i). split_and!; [done|done|simpl; lia|]. simpl.
      intros k fd'. rewrite (opened_upd_fd s fd _ k fd' p Hp) by done. simpl. by rewrite aget_of_nat, Hi.
Qed.

(** [c'] is [c] with [src] stored at [off]; a gap between the end of [c] and
    [off] holds anything. *)
Definition stored (c c' : list Z) (off : Z) (src : list Z) : Prop :=
  Z.of_nat (length c') = Z.max (length c) (off + length src) ∧
  ∀ i, (off ≤ i < off + length src → aget c' i = aget src (i - off)) ∧
       (i < length c → ¬ (off ≤ i < off + length src) → aget c' i = aget c i).

Lemma blit_spec data off src :
  0 ≤ off → off + length src ≤ length data →
  length (blit data off src) = length data ∧
  ∀ i, aget (blit data off src) i =
    if (off <=? i) && (i <? off + length src) then aget src (i - off) else aget data i.
Proof.
  intros Ho Hl. unfold blit. split.
  - rewrite !length_app, length_take, length_drop. lia.
  - intros i. unfold aget. destruct (Z.ltb_spec i 0).
    { destruct (Z.leb_spec off i); [lia|done]. }
    assert (Ht : length (take (Z.to_nat off) data) = Z.to_nat off) by (rewrite length_take; lia).
    destruct (Z.leb_spec off i), (Z.ltb_spec i (off + length src)); simpl.
    + destruct (Z.ltb_spec (i - off) 0); [lia|]. rewrite lookup_app_r, lookup_app_l by lia. f_equal. lia.
    + rewrite lookup_app_r, lookup_app_r by lia. rewrite lookup_drop. f_equal. lia.
    + rewrite lookup_app_l, lookup_take_lt by lia. done.
    + lia.
Qed.

Lemma aget_contents i k : inode_ok i → k < ino_size i → aget (contents i) k = aget (ino_data i) k.
Proof.
  intros [_ Hs _] Hk. unfold aget, contents. destruct (Z.ltb_spec k 0); [done|]. rewrite lookup_take_lt by lia. done.
Qed.

(** The inode after a write of [src] at [off]. *)
Lemma stored_blit i off src :
  inode_ok i → 0 ≤ off → off + length src ≤ 1024 →
  let size := if ino_size i <? off + length src then off + length src else ino_size i in
  let b := RamfsInode (ino_used i) (ino_name i) (blit (ino_data i) off src) size in
  inode_ok b ∧ stored (contents i) (contents b) off src.
Proof.
  intros Hi Ho Hl size b. pose proof Hi as [Hd Hs Hn]. destruct (blit_spec (ino_data i) off src) as [Hbl Hbg]; [lia|lia|].
  assert (Hb : inode_ok b).
  { split; [by rewrite <-Hd|unfold b, size; simpl; zcases; lia|done]. }
  assert (Hsz : ino_size b = Z.max (ino_size i) (off + length src)) by (unfold b, size; simpl; zcases; lia).
  split; [done|]. split; [rewrite !length_contents by done; lia|].
  intros k. rewrite length_contents by done. split; intros Hk.
  - rewrite aget_contents by (try done; lia). unfold b. simpl. rewrite Hbg. zcases; done.
  - intros Hk'. rewrite !aget_contents by (try done; lia). unfold b. simpl. rewrite Hbg. zcases; done.
Qed.

Definition can_write (flags : Z) : bool := (Z.land flags 3 =? O_WRONLY) || (Z.land flags 3 =? O_RDWR).

(** Writing stores the bytes that fit below 1024 at the offset, or at the end
    of the file with [O_APPEND], and moves the offset behind them. *)
Definition write_post (s : fs_state) (fd : Z) (buf : option (list Z)) (r : Z) (s' : fs_state) : Prop :=
  fs_ok s' ∧ fs_frame s s' ∧
  match buf, opened s (cur s) fd with
  | Some src, Some (n, off, flags) =>
      if can_write flags then
        ∃ c c', file_of s n = Some c ∧
          let off := if has_bits flags O_APPEND then Z.of_nat (length c) else off in
          let l := take (Z.to_nat (1024 - off)) src in
          r = Z.of_nat (length l) ∧ opened_becomes s s' fd (Some (n, off + r, flags)) ∧
          (∀ n', file_of s' n' = if decide (n' = n) then Some c' else file_of s n') ∧
          if 1024 <=? off then c' = c else stored c c' off l
      else r = -1 ∧ s' = s
  | _, _ => r = -1 ∧ s' = s
  end.

Lemma fs_write_spec s fd buf len :
  fs_ok s → is_u32 len → (∀ src, buf = Some src → Z.of_nat (length src) = len) →
  wp (fs_write fd buf len) (write_post s fd buf) s.
Proof.
  intros Hok Hlen Hbuf. unfold is_u32 in Hlen. unfold fs_write, write_post. destruct buf as [src|].
  2: { wp_steps. by split_and!. }
  specialize (Hbuf src eq_refl). wp_step. apply wp_get_open_fd; [done| |].
  { intros ->. wp_steps. by split_and!. }
  intros p d j i Hp Hfd Hd Hu Hj Hi Hiu Hoff Ho Hfo. rewrite Ho.
  unfold is_ext_fd. rewrite Hj. destruct (Z.ltb_spec j 0); [lia|].
  fold (can_write (fd_flags d)). destruct (can_write (fd_flags d)); simpl; [|wp_steps; by split_and!].
  wp_step. apply (wp_get_inode s j i); [done|]. cbv beta.
  pose proof (Forall_lookup_1 _ _ _ _ (fo_inodes s Hok) Hi) as Hio. pose proof Hio as [Hdl Hsz _].
  set (off := if has_bits (fd_flags d) O_APPEND then ino_size i else fd_offset d).
  assert (Heq : (if has_bits (fd_flags d) O_APPEND then Z.of_nat (length (contents i)) else fd_offset d) = off)
    by (by rewrite length_contents).
  assert (Hob : 0 ≤ off ≤ 1024).
  { unfold off. destruct (has_bits _ _); lia. }
  unfold RAMFS_DATA_MAX. destruct (Z.leb_spec 1024 off) as [Hfull|Hroom].
  - wp_steps. split_and!; [|apply frame_upd_fd|].
    + apply fs_ok_fd; [done|]. intros _. simpl. split; [exact Hob|]. exists i. by rewrite aget_of_nat.
    + exists (contents i), (contents i). split; [done|]. cbv zeta. rewrite Heq.
      replace (Z.to_nat (1024 - off)) with 0%nat by lia. simpl. split_and!; [done| | |].
      * intros k fd'. rewrite (opened_upd_fd s fd _ k fd' p Hp) by done. simpl.
        by rewrite aget_of_nat, Hi, Z.add_0_r.
      * intros n'. rewrite (file_of_same s) by done. by destruct (decide (n' = ino_name i)) as [->|].
      * by destruct (Z.leb_spec 1024 off); [|lia].
  - set (n := if len <? 1024 - off then len else 1024 - off).
    assert (Hn : 0 ≤ n ≤ 1024 - off ∧ n ≤ len) by (unfold n; zcases; lia).
    assert (Ht : take (Z.to_nat n) src = take (Z.to_nat (1024 - off)) src).
    { unfold n. zcases; [|done]. rewrite !take_ge by lia. done. }
    rewrite Ht. set (l := take (Z.to_nat (1024 - off)) src) in *.
    assert (Hl : Z.of_nat (length l) = n).
    { rewrite <-Ht, length_take. lia. }
    destruct (stored_blit i off l) as [Hb Hst]; [done|lia|lia|]. rewrite Hl in Hb, Hst.
    set (b := RamfsInode _ _ _ _) in *. wp_step. unfold put_inode. wp_step.
    destruct (rewrite_inode s j i b) as (Hok1 & Hf1 & Hfile & Hop); try done.
    set (s1 := upd_inode j b s) in *. unfold put_fd. wp_steps. rewrite to_int_id by (unfold is_int; lia).
    assert (Hj1 : inodes s1 !! j = Some b).
    { unfold s1, upd_inode. simpl. rewrite aset_of_nat. apply list_lookup_insert_eq. by eapply lookup_lt_Some. }
    split_and!; [|etrans; [exact Hf1|apply frame_upd_fd]|].
    + apply fs_ok_fd; [done|]. intros _. simpl. split; [lia|]. exists b. by rewrite aget_of_nat.
    + exists (contents i), (contents b). split; [done|]. cbv zeta. rewrite Heq. fold l. split_and!; [done| | |].
      * intros k fd'. rewrite (opened_upd_fd s1 fd _ k fd' p) by done. cbn [fd_used fd_inode fd_offset fd_flags].
        rewrite aget_of_nat, Hj1. by rewrite Hop.
      * intros n'. by rewrite (file_of_same s1), Hfile.
      * by destruct (Z.leb_spec 1024 off); [lia|].
Qed.

(** ** Removing and renaming *)

(** The descriptors, with the names of what they are open on mapped by [f]. *)
Definition opened_map (s s' : fs_state) (f : list Z → option (list Z)) : Prop :=
  ∀ k fd, opened s' k fd =
    match opened s k fd with
    | Some (m, off, flags) => (λ m', (m', off, flags)) <$> f m
    | None => None
    end.

(** A descriptor in use, seen through [opened]. *)
Lemma opened_inv s k fd :
  fs_ok s →
  (opened s k fd = None ∧ ∀ p d, procs (fs_sched s) !! k = Some p → aget (fds p) fd = Some d → fd_used d = false) ∨
  (∃ p d (j : nat) i, procs (fs_sched s) !! k = Some p ∧ aget (fds p) fd = Some d ∧ fd_used d = true ∧
     fd_inode d = j ∧ inodes s !! j = Some i ∧ ino_used i = true ∧
     opened s k fd = Some (ino_name i, fd_offset d, fd_flags d)).
Proof.
  intros Hok. unfold opened. destruct (procs (fs_sched s) !! k) as [p|] eqn:Hp; [|by left].
  destruct (aget (fds p) fd) as [d|] eqn:Hd.
  2: { left. split; [done|]. intros q e [= <-]. congruence. }
  destruct (fd_used d) eqn:Hu.
  2: { left. split; [done|]. intros q e [= <-]. congruence. }
  right. destruct (fd_inode_ex (inodes s) p fd d) as (_ & j & i & Hj & Hi & Hiu); try done.
  { eapply Forall_lookup_1; [apply Hok|done]. }
  exists p, d, j, i. split_and!; try done. by rewrite Hj, aget_of_nat, Hi.
Qed.

(** Used inodes with the same name are the same. *)
Lemma same_inode s (i j : nat) a b :
  fs_ok s → inodes s !! i = Some a → inodes s !! j = Some b → ino_used a = true → ino_used b = true →
  ino_name a = ino_name b → i = j.
Proof.
  intros Hok Hi Hj Ha Hb Hn. eapply (fo_unique s Hok i j a b (ino_name b)); try done; by apply named_spec.
Qed.

Lemma length_procs s : fs_ok s → length (procs (fs_sched s)) = 8%nat.
Proof. intros Hok. apply Hok. Qed.

Definition unlink_state (s : fs_state) (j : nat) : fs_state :=
  upd_inode j zero_inode
    (set_fs_sched (set_sched_procs (drop_fds j <$> procs (fs_sched s)) (fs_sched s)) s).

Lemma unlink_state_ok s (j : nat) a :
  fs_ok s → inodes s !! j = Some a → ino_used a = true → fs_ok (unlink_state s j).
Proof.
  intros Hok Hj Hu. pose proof Hok as [Hl Hin Hun [Hs1 Hs2 Hs3] Hfd He].
  unfold unlink_state, upd_inode. rewrite aset_of_nat. split; simpl; try done.
  - by rewrite length_insert.
  - apply Forall_insert; [done|]. split; [apply length_replicate|simpl; lia|done].
  - apply unique_insert; [done|]. intros n k c Hz. by apply named_spec in Hz as [? _].
  - split; simpl; [by rewrite length_fmap|done..].
  - apply Forall_fmap. eapply Forall_impl; [exact Hfd|]. intros p [Hlp Hp]. split; simpl; [by rewrite length_fmap|].
    apply Forall_fmap. eapply Forall_impl; [exact Hp|]. intros d Hd. simpl. unfold drop_fd.
    destruct (fd_used d) eqn:Hud; [|intros Hx; simpl in Hx; congruence]. simpl.
    destruct (Z.eqb_spec (fd_inode d) j) as [|Hne]; [done|]. intros _. destruct (Hd Hud) as (Ho & x & Hx & Hxu).
    split; [done|]. exists x. split; [|done]. apply aget_nat_ex in Hx as (m & Hm & Hx). rewrite Hm, aget_of_nat.
    rewrite list_lookup_insert_ne; [done|]. intros ->. by rewrite Hm in Hne.
Qed.

Lemma unlink_state_frame s j : fs_frame s (unlink_state s j).
Proof.
  split; try done. simpl. induction (procs (fs_sched s)) as [|p l IH]; simpl; constructor; [|done]. by destruct p.
Qed.

Lemma unlink_opened s (j : nat) a :
  fs_ok s → inodes s !! j = Some a → ino_used a = true →
  opened_map s (unlink_state s j) (λ m, if decide (m = ino_name a) then None else Some m).
Proof.
  intros Hok Hj Hu k fd.
  assert (Hd : opened (unlink_state s j) k fd =
    match procs (fs_sched s) !! k with
    | Some p => match drop_fd j <$> aget (fds p) fd with
                | Some d => if fd_used d then (λ i, (ino_name i, fd_offset d, fd_flags d)) <$>
                              aget (<[j := zero_inode]> (inodes s)) (fd_inode d) else None
                | None => None end
    | None => None end).
  { unfold opened, unlink_state, upd_inode. simpl. rewrite list_lookup_fmap, aset_of_nat.
    destruct (procs (fs_sched s) !! k) as [p|]; [|done]. simpl. unfold aget at 1 3.
    destruct (fd <? 0); [done|]. by rewrite list_lookup_fmap. }
  rewrite Hd. destruct (opened_inv s k fd Hok) as [[-> Hno]|(p & d & i & x & Hp & Hfd & Hud & Hi & Hx & Hxu & ->)].
  - destruct (procs (fs_sched s) !! k) as [p|]; [|done]. destruct (aget (fds p) fd) as [d|] eqn:Hfd; [|done].
    simpl. specialize (Hno p d eq_refl Hfd). unfold drop_fd. rewrite Hno. simpl. by rewrite Hno.
  - rewrite Hp, Hfd. simpl. unfold drop_fd. rewrite Hud, Hi. simpl. destruct (Z.eqb_spec i j) as [Hij|Hij].
    + assert (i = j) as -> by lia. rewrite Hj in Hx. injection Hx as <-. by rewrite decide_True.
    + rewrite decide_False by (intros Hn; destruct Hij; f_equal; by eapply same_inode).
      rewrite Hud, Hi, aget_of_nat, list_lookup_insert_ne by lia. by rewrite Hx.
Qed.

Definition unlink_post (s : fs_state) (path : option (list Z)) (r : Z) (s' : fs_state) : Prop :=
  fs_ok s' ∧ fs_frame s s' ∧
  match normalize_name path with
  | None => r = -1 ∧ s' = s
  | Some n =>
      if decide (file_of s n = None) then r = -1 ∧ s' = s
      else r = 0 ∧ (∀ n', file_of s' n' = if decide (n' = n) then None else file_of s n') ∧
           opened_map s s' (λ m, if decide (m = n) then None else Some m)
  end.

Lemma fs_unlink_spec s path : fs_ok s → wp (fs_unlink path) (unlink_post s path) s.
Proof.
  intros Hok. unfold fs_unlink, unlink_post. destruct (normalize_name path) as [n|].
  2: { wp_steps. by split_and!. }
  do 2 wp_step. pose proof (find_inode_spec s n (fo_unique s Hok)) as Hf. destruct (file_of s n) as [c|] eqn:Hc.
  2: { destruct Hf as [-> _]. simpl. wp_steps. by split_and!. }
  destruct Hf as (j & a & -> & Hj & Hna & ->). pose proof Hna as [Hu Hn]%named_spec.
  destruct (Z.ltb_spec j 0); [lia|]. unfold put_inode. wp_steps. fold (unlink_state s j).
  pose proof (unlink_state_ok s j a Hok Hj Hu) as Hok'.
  split_and!; [done|apply unlink_state_frame|]. simpl. split_and!; [done| |].
  - intros n'. rewrite (file_of_insert s (unlink_state s j) j a zero_inode n'); [|apply Hok|done| |apply Hok'].
    2: { unfold unlink_state, upd_inode. simpl. by rewrite aset_of_nat. }
    simpl. destruct (named n' a) eqn:Hn'.
    + apply named_spec in Hn' as [_ <-]. by rewrite decide_True.
    + rewrite decide_False; [done|]. intros ->. congruence.
  - rewrite <-Hn. by apply unlink_opened.
Qed.

Definition rename_post (s : fs_state) (old_path new_path : option (list Z)) (r : Z) (s' : fs_state) : Prop :=
  fs_ok s' ∧ fs_frame s s' ∧
  match normalize_name old_path, normalize_name new_path with
  | Some old, Some new =>
      if decide (old = new) then r = 0 ∧ s' = s
      else match file_of s old, file_of s new with
           | Some c, None =>
               r = 0 ∧ (∀ n', file_of s' n' = if decide (n' = new) then Some c
                                              else if decide (n' = old) then None else file_of s n') ∧
               opened_map s s' (λ m, Some (if decide (m = old) then new else m))
           | _, _ => r = -1 ∧ s' = s
           end
  | _, _ => r = -1 ∧ s' = s
  end.

Lemma rename_opened s (j : nat) a b :
  fs_ok s → inodes s !! j = Some a → ino_used a = true →
  opened_map s (upd_inode j b s) (λ m, Some (if decide (m = ino_name a) then ino_name b else m)).
Proof.
  intros Hok Hj Hu k fd. unfold opened at 1. unfold upd_inode. cbn [inodes set_inodes fs_sched]. rewrite aset_of_nat.
  destruct (opened_inv s k fd Hok) as [[-> Hno]|(p & d & i & x & Hp & Hfd & Hud & Hi & Hx & Hxu & ->)].
  - destruct (procs (fs_sched s) !! k) as [p|]; [|done]. destruct (aget (fds p) fd) as [d|] eqn:Hfd; [|done].
    by rewrite (Hno p d eq_refl Hfd).
  - rewrite Hp, Hfd, Hud, Hi, aget_of_nat. destruct (decide (i = j)) as [->|Hij].
    + rewrite list_lookup_insert_eq by (by eapply lookup_lt_Some). rewrite Hj in Hx. injection Hx as <-.
      by rewrite decide_True.
    + rewrite list_lookup_insert_ne, Hx by done. rewrite decide_False; [done|].
      intros Hn. destruct Hij. by eapply same_inode.
Qed.

Lemma fs_rename_spec s old_path new_path :
  fs_ok s → wp (fs_rename old_path new_path) (rename_post s old_path new_path) s.
Proof.
  intros Hok. unfold fs_rename, rename_post.
  destruct (normalize_name old_path) as [old|] eqn:Hold; [|wp_steps; by split_and!].
  destruct (normalize_name new_path) as [new|] eqn:Hnew; [|wp_steps; by split_and!].
  apply normalize_name_spec in Hnew as [Hvn _].
  destruct (str_eq old new) eqn:Heq.
  { apply str_eq_spec in Heq. wp_steps. rewrite decide_True by done. by split_and!. }
  assert (Hne : old ≠ new) by (intros ->; by rewrite (proj2 (str_eq_spec new new)) in Heq).
  destruct (decide (old = new)) as [|_]; [done|]. do 2 wp_step.
  pose proof (find_inode_spec s old (fo_unique s Hok)) as Hf. pose proof (find_inode_spec s new (fo_unique s Hok)) as Hg.
  destruct (file_of s old) as [c|].
  2: { destruct Hf as [-> _]. simpl. wp_steps. by split_and!. }
  destruct Hf as (j & a & -> & Hj & Hna & ->). pose proof Hna as [Hu Hn]%named_spec.
  destruct (Z.ltb_spec j 0); [lia|]. destruct (file_of s new) as [c'|].
  { destruct Hg as (i & b & -> & _). destruct (Z.leb_spec 0 i); [|lia]. wp_steps. by split_and!. }
  destruct Hg as [-> Hfree]. simpl. wp_step. apply (wp_get_inode s j a); [done|]. cbv beta. unfold put_inode. wp_steps.
  set (b := set_ino_name new a).
  pose proof (Forall_lookup_1 _ _ _ _ (fo_inodes s Hok) Hj) as [Hd Hs Hv].
  assert (Hok' : fs_ok (upd_inode j b s)).
  { apply (fs_ok_inode s j a); [done..| |done|].
    - by split.
    - intros n' i x [_ <-]%named_spec Hi. simpl. by rewrite (Hfree _ _ Hi). }
  split_and!; [done|apply frame_upd_inode|done| |].
  - intros n'. rewrite (file_of_upd_inode s j a b) by done.
    destruct (decide (n' = new)) as [->|Hnn].
    { by rewrite (proj2 (named_spec new b)). }
    destruct (named n' b) eqn:E; [by apply named_spec in E as [_ E]|].
    destruct (named n' a) eqn:E'.
    + apply named_spec in E' as [_ E']. by rewrite decide_True by congruence.
    + rewrite decide_False; [done|]. intros ->. congruence.
  - rewrite <-Hn. by apply rename_opened.
Qed.
End ops.
