(* ===== verification/FsProps.v ===== *)
(** * The file system: listing, initialization, sequences of calls, theorems *)

From S2P Require Import Prelude Proc Sched Fs FsSpec FsOps.

(** ** Listing the directory *)

(** The lines for a list of names. *)
Definition lines (ns : list (list Z)) : list Z := ns ≫= (λ n, n ++ [10]).

Definition used_names (l : list ramfs_inode) : list (list Z) :=
  ino_name <$> filter (λ i, Is_true (ino_used i)) l.

Lemma lines_app a b : lines (a ++ b) = lines a ++ lines b.
Proof. unfold lines. apply bind_app. Qed.

Lemma used_names_cons i l :
  used_names (i :: l) = if ino_used i then ino_name i :: used_names l else used_names l.
Proof. unfold used_names. rewrite filter_cons. by destruct (ino_used i). Qed.

Lemma length_lines_cons n ns : length (lines (n :: ns)) = (length n + 1 + length (lines ns))%nat.
Proof. unfold lines. rewrite bind_cons, !length_app. done. Qed.

(** The listing stops at the first name that does not fit. *)
Definition listing (names : list (list Z)) (len : Z) (out : list Z) : Prop :=
  ∃ a b, names = a ++ b ∧ out = lines a ∧ Z.of_nat (length out) < len ∧
    match b with [] => True | n :: _ => len ≤ length out + length n + 1 end.

Lemma list_names_spec l len : ∀ done_ acc,
  Forall inode_ok l → acc = lines done_ → Z.of_nat (length acc) < len →
  Z.of_nat (length acc) + 32 * length l < 4294967296 - 32 →
  listing (done_ ++ used_names l) len (list_names l len acc).
Proof.
  induction l as [|i l IH]; intros dn acc Hok Hacc Hlen Hb; simpl.
  - exists dn, []. unfold used_names. simpl. rewrite !app_nil_r. by split_and!.
  - apply Forall_cons in Hok as [Hi Hok]. rewrite used_names_cons.
    destruct (ino_used i) eqn:Hu; simpl.
    + destruct (io_name i Hi Hu) as (_ & Hn & _). unfold str_len.
      rewrite !add32_small by (try rewrite add32_small; simpl in Hb; lia).
      destruct (Z.leb_spec len (length acc + length (ino_name i) + 1)) as [Hfull|Hroom].
      * exists dn, (ino_name i :: used_names l). by split_and!.
      * rewrite cons_middle, app_assoc.
        assert (Hl : length (acc ++ ino_name i ++ [10]) = (length acc + length (ino_name i) + 1)%nat)
          by (rewrite !length_app; simpl; lia).
        apply IH; [done| |lia|simpl in Hb; lia]. rewrite lines_app, Hacc. f_equal. unfold lines. simpl.
        by rewrite app_nil_r.
    + apply IH; try done. simpl in Hb. lia.
Qed.

Definition listdir_post (s : fs_state) (buf : bool) (len : Z) (r : Z * list Z) (s' : fs_state) : Prop :=
  s' = s ∧
  if buf && negb (len =? 0) then
    ∃ out, listing (used_names (inodes s)) len out ∧ r = (Z.of_nat (length out), out ++ [0])
  else r = (-1, []).

Section props.
Context {EX : Ext4Ops}.

Lemma listing_short s len out :
  fs_ok s → listing (used_names (inodes s)) len out → Z.of_nat (length out) ≤ 1024.
Proof.
  intros Hok (a & b & Hn & -> & _). assert (Hb : (length (lines a) ≤ length (lines (used_names (inodes s))))%nat).
  { rewrite Hn, lines_app, length_app. lia. }
  assert (Hl : (length (lines (used_names (inodes s))) ≤ 32 * length (inodes s))%nat).
  { pose proof (fo_inodes s Hok) as Hf. clear -Hf. induction Hf as [|i l Hi _ IH]; [done|].
    rewrite used_names_cons. destruct (ino_used i) eqn:Hu.
    - rewrite length_lines_cons. destruct (io_name i Hi Hu) as (_ & ? & _). cbn [length]. lia.
    - cbn [length]. lia. }
  rewrite (fo_len s Hok) in Hl. lia.
Qed.

Lemma fs_listdir_spec s buf len :
  fs_ok s → is_u32 len → wp (fs_listdir buf len) (listdir_post s buf len) s.
Proof.
  intros Hok Hlen. unfold is_u32 in Hlen. unfold fs_listdir, listdir_post. destruct buf; simpl; [|by wp_steps].
  destruct (Z.eqb_spec len 0); simpl; [by wp_steps|]. wp_steps. rewrite (fo_ext4 s Hok). split; [done|].
  pose proof (list_names_spec (inodes s) len [] []) as Hln. simpl in Hln.
  set (out := list_names (inodes s) len []) in *. assert (Hls : listing (used_names (inodes s)) len out).
  { apply Hln; [apply Hok|done|lia|]. rewrite (fo_len s Hok). lia. }
  exists out. split; [done|]. pose proof (listing_short s len out Hok Hls). pose proof Hls as (a & b & _ & _ & Hlt & _).
  rewrite to_int_id by (unfold is_int; lia). by destruct (Z.ltb_spec (length out) len); [|lia].
Qed.

(** ** Initialization *)

(** Before [fs_init]: nothing is open. *)
Record fs_boot (s : fs_state) : Prop := {
  fb_init : fs_initialized s = false;
  fb_sched : sched_ok (fs_sched s);
  fb_fds : Forall (λ p, length (fds p) = 16%nat ∧ Forall (λ d, fd_used d = false) (fds p)) (procs (fs_sched s));
}.

Definition README : list Z := bytes_of "README".
Definition readme_text : list Z := bytes_of ("ramfs ready" ++ String (Ascii.ascii_of_nat 10) EmptyString).

Lemma fs_init_spec s :
  fs_boot s → wp fs_init (λ _ s', fs_ok s' ∧ fs_initialized s' = true ∧ fs_sched s' = fs_sched s ∧
    ∀ n, file_of s' n = if decide (n = README) then Some readme_text else None) s.
Proof.
  intros [Hi Hs Hf]. unfold fs_init. do 2 wp_step. rewrite Hi. wp_steps.
  set (b := RamfsInode true README (blit (replicate 1024 0) 0 readme_text) (str_len readme_text)).
  set (s0 := FsState (replicate 32 zero_inode) true false (fs_sched s)).
  assert (Hok0 : fs_ok s0).
  { split; cbn [inodes fs_sched ext4_ready]; [done| | |done| |done].
    - apply Forall_replicate. split; [apply length_replicate|simpl; lia|done].
    - intros i j x y n Hx. apply lookup_replicate in Hx as [-> _]. done.
    - eapply Forall_impl; [exact Hf|]. intros p [Hl Hd]. split; [done|].
      eapply Forall_impl; [exact Hd|]. intros d Hd' Hu. congruence. }
  change (FsState _ _ _ _) with (upd_inode 0%nat b s0).
  assert (Hz : inodes s0 !! 0%nat = Some zero_inode) by done.
  assert (Hok : fs_ok (upd_inode 0%nat b s0)).
  { apply (fs_ok_inode s0 0 zero_inode); [done|done| |done|].
    - split; [by vm_compute|by vm_compute|]. intros _. split; [done|]. split; [vm_compute; lia|].
      repeat constructor; vm_compute; done.
    - intros n j c _ Hj Hc. apply lookup_replicate in Hj as [-> _]. done. }
  split_and!; try done. intros n. rewrite (file_of_upd_inode s0 0 zero_inode b) by done.
  destruct (decide (n = README)) as [->|Hne].
  - by vm_compute.
  - destruct (named n b) eqn:E; [by apply named_spec in E as [_ E]|]. simpl.
    apply file_of_None. intros i a Ha. by apply lookup_replicate in Ha as [-> _].
Qed.

(** ** Sequences of calls *)

(** A call by the current process, or a switch to process [k]. *)
Inductive fs_op :=
| OOpen (path : option (list Z)) (flags : Z)
| OClose (fd : Z)
| ORead (fd : Z) (buf : bool) (len : Z)
| OWrite (fd : Z) (buf : option (list Z)) (len : Z)
| OUnlink (path : option (list Z))
| ORename (old_path new_path : option (list Z))
| OListdir (buf : bool) (len : Z)
| ORun (k : nat).

Definition set_current (k : nat) (s : fs_state) : fs_state :=
  set_fs_sched (SchedState (procs (fs_sched s)) k (idle_proc (fs_sched s)) (hart_satp (fs_sched s))) s.

Definition fs_do (op : fs_op) : FM unit :=
  match op with
  | OOpen path flags => do! fs_open path flags in kret tt
  | OClose fd => do! fs_close fd in kret tt
  | ORead fd buf len => do! fs_read fd buf len in kret tt
  | OWrite fd buf len => do! fs_write fd buf len in kret tt
  | OUnlink path => do! fs_unlink path in kret tt
  | ORename p q => do! fs_rename p q in kret tt
  | OListdir buf len => do! fs_listdir buf len in kret tt
  | ORun k => kmodify (set_current k)
  end.
Fixpoint fs_run (ops : list fs_op) : FM unit :=
  match ops with [] => kret tt | op :: ops' => do! fs_do op in fs_run ops' end.

(** Lengths are 32-bit words, and a buffer holds as many bytes as announced. *)
Definition op_ok (op : fs_op) : Prop :=
  match op with
  | ORead _ _ len | OListdir _ len => is_u32 len
  | OWrite _ buf len => is_u32 len ∧ ∀ src, buf = Some src → Z.of_nat (length src) = len
  | ORun k => (k < 8)%nat
  | _ => True
  end.

Lemma fs_do_ok op s : fs_ok s → op_ok op → wp (fs_do op) (λ _ s', fs_ok s') s.
Proof.
  intros Hok Hop. destruct op; simpl in *; [wp_step..|].
  - eapply wp_mono; [by apply fs_open_spec|]. intros r s' H. wp_step. apply H.
  - eapply wp_mono; [by apply fs_close_spec|]. intros r s' H. wp_step. apply H.
  - eapply wp_mono; [by apply fs_read_spec|]. intros r s' H. wp_step. apply H.
  - destruct Hop as [Hl Hs]. eapply wp_mono; [by apply fs_write_spec|]. intros r s' H. wp_step. apply H.
  - eapply wp_mono; [by apply fs_unlink_spec|]. intros r s' H. wp_step. apply H.
  - eapply wp_mono; [by apply fs_rename_spec|]. intros r s' H. wp_step. apply H.
  - eapply wp_mono; [by apply fs_listdir_spec|]. intros r s' [-> _]. by wp_step.
  - wp_steps. destruct Hok as [? ? ? [? ? ?] ? ?]. by split.
Qed.

(** ** The theorems *)

(** C25: from boot on, whatever sequence of calls the processes make, in
    whatever order they run, every call returns without touching memory outside
    the tables, and afterwards the file system is consistent: 32 inodes of at
    most 1024 bytes, no two files with the same name, and every descriptor in
    use, of any process, on a file that exists. *)
Theorem fs_always_consistent s ops :
  fs_boot s → Forall op_ok ops → wp (do! fs_init in fs_run ops) (λ _ s', fs_ok s') s.
Proof.
  intros Hb Hops. wp_step. eapply wp_mono; [by apply fs_init_spec|]. intros _ s0 (Hok & _). clear Hb s.
  revert s0 Hok. induction Hops as [|op ops Hop _ IH]; intros s Hok; simpl; [by wp_steps|].
  wp_step. eapply wp_mono; [by apply fs_do_ok|]. intros [] s' Hok'. by apply IH.
Qed.

(** [fs_open] fails without effect on an invalid path, and on a missing file
    that is not to be created or finds no free inode.  Otherwise the file
    exists afterwards, empty if it is new or [O_TRUNC] was given, with all
    other files as before; the result is a descriptor that was free and is now
    open on it at the beginning, or at the end with [O_APPEND], or -1 when the
    table of the process is full.  No other descriptor changes. *)
Theorem fs_open_correct s path flags : fs_ok s → wp (fs_open path flags) (open_post s path flags) s.
Proof. apply fs_open_spec. Qed.

(** [fs_read] gives the bytes of the file from the offset on, at most [len]
    and never beyond the end, moves the offset of this descriptor behind them
    and changes nothing else; a descriptor that is not open or is open for
    writing only is refused without effect. *)
Theorem fs_read_correct s fd buf len :
  fs_ok s → is_u32 len → wp (fs_read fd buf len) (read_post s fd buf len) s.
Proof. apply fs_read_spec. Qed.

(** [fs_write] stores the bytes that fit in the 1024 bytes of a file at the
    offset (at the end with [O_APPEND]), keeps every other byte of the file and
    every other file, and moves the offset of this descriptor; a descriptor
    that is not open for writing is refused without effect. *)
Theorem fs_write_correct s fd buf len :
  fs_ok s → is_u32 len → (∀ src, buf = Some src → Z.of_nat (length src) = len) →
  wp (fs_write fd buf len) (write_post s fd buf) s.
Proof. apply fs_write_spec. Qed.

(** [fs_unlink] of an existing file removes it and closes the descriptors
    that are open on it in every process, and those only; no other file changes.
    Otherwise it returns -1 without effect. *)
Theorem fs_unlink_correct s path : fs_ok s → wp (fs_unlink path) (unlink_post s path) s.
Proof. apply fs_unlink_spec. Qed.

(** [fs_rename] moves the contents of a file to a name that is free, and its
    open descriptors follow; the new name being taken or the old one missing,
    nothing changes and -1 is returned.  (Renaming a name to itself is answered
    with 0 whether or not the file exists.) *)
Theorem fs_rename_correct s old_path new_path :
  fs_ok s → wp (fs_rename old_path new_path) (rename_post s old_path new_path) s.
Proof. apply fs_rename_spec. Qed.

(** [fs_listdir] stores the names of the files in the order of the table, one
    per line, as many whole lines as fit with a terminator, stops at the first
    one that does not fit, and returns the length without the terminator. *)
Theorem fs_listdir_correct s buf len :
  fs_ok s → is_u32 len → wp (fs_listdir buf len) (listdir_post s buf len) s.
Proof. apply fs_listdir_spec. Qed.

(** Creating or truncating a file, writing to it and reading it back. *)
Definition write_file (path : option (list Z)) (l : list Z) : FM Z :=
  let! fd := fs_open path (Z.lor O_RDWR (Z.lor O_CREAT O_TRUNC)) in
  let! w := fs_write fd (Some l) (length l) in
  do! fs_close fd in kret w.
Definition read_file (path : option (list Z)) (len : Z) : FM (Z * list Z) :=
  let! fd := fs_open path O_RDONLY in
  let! r := fs_read fd true len in
  do! fs_close fd in kret r.

(** The descriptors are those of [s] again. *)
Definition same_fds (s s' : fs_state) : Prop := cur s' = cur s ∧ ∀ k fd, opened s' k fd = opened s k fd.

Lemma opened_at s s' fd v : opened_becomes s s' fd v → fs_frame s s' → opened s' (cur s') fd = v.
Proof. intros Hb Hf. rewrite Hb, (ff_cur _ _ Hf). by rewrite decide_True. Qed.

(** Opening a descriptor, using it and closing it gives the old descriptors. *)
Lemma open_use_close s s1 s2 s3 fd v w :
  cur s1 = cur s → cur s2 = cur s → cur s3 = cur s → opened s (cur s) fd = None →
  opened_becomes s s1 fd v → opened_becomes s1 s2 fd w → opened_becomes s2 s3 fd None → same_fds s s3.
Proof.
  intros H1 H2 H3 Hn Hb1 Hb2 Hb3. split; [done|]. intros k fd'. rewrite Hb3, Hb2, Hb1, H1, H2.
  destruct (decide _) as [[-> ->]|]; [done|done].
Qed.

Lemma installed_free s n off flags r s' :
  installed s n off flags r s' → ¬ no_free_fd s →
  opened s (cur s) r = None ∧ opened_becomes s s' r (Some (n, off, flags)).
Proof. intros [(_ & ? & _)|(_ & ? & ?)] ?; done. Qed.

Lemma stored_all c l : stored [] c 0 l → c = l.
Proof.
  intros [Hlen Hg]. simpl in Hlen. apply list_eq_same_length with (length l); [done|lia|].
  intros i x y Hi Hx Hy. destruct (Hg i) as [Hgi _]. rewrite Z.sub_0_r, !aget_of_nat in Hgi by lia.
  rewrite Hx, Hy in Hgi. specialize (Hgi ltac:(lia)). congruence.
Qed.

Lemma write_file_spec s path n l :
  fs_ok s → normalize_name path = Some n → (length l ≤ 1024)%nat → ¬ no_free_fd s →
  ¬ (file_of s n = None ∧ table_full s) →
  wp (write_file path l) (λ w s', fs_ok s' ∧ same_fds s s' ∧ w = Z.of_nat (length l) ∧
    ∀ n', file_of s' n' = if decide (n' = n) then Some l else file_of s n') s.
Proof.
  intros Hok Hn Hl Hfree Hroom. unfold write_file. wp_step. eapply wp_mono; [by apply fs_open_spec|].
  intros fd s1 (Hok1 & Hf1 & Hopen). rewrite Hn in Hopen. cbv zeta in Hopen.
  destruct Hopen as [[[Hnone [Hc|Hfull]] _]|(_ & Hfile1 & Hinst)]; [done|by destruct Hroom|].
  destruct (installed_free _ _ _ _ _ _ Hinst Hfree) as [Hold Hb1].
  pose proof (opened_at _ _ _ _ Hb1 Hf1) as Ho1. unfold open_contents in Hfile1. simpl in Hfile1, Ho1.
  wp_step. eapply wp_mono; [apply fs_write_spec; [done|unfold is_u32; lia|by intros ? [= <-]]|].
  intros w s2 (Hok2 & Hf2 & Hw). rewrite Ho1 in Hw. simpl in Hw.
  destruct Hw as (c & c' & Hc & -> & Hb2 & Hfile2 & Hst).
  rewrite Hfile1, decide_True in Hc by done. injection Hc as <-.
  assert (Ht : take 1024 l = l) by (by apply take_ge). change (Z.to_nat (1024 - 0)) with 1024%nat in *. rewrite Ht in *.
  apply stored_all in Hst as ->.
  pose proof (opened_at _ _ _ _ Hb2 Hf2) as Ho2.
  wp_step. eapply wp_mono; [by apply fs_close_spec|]. intros r s3 (Hok3 & Hf3 & Hfile3 & Hcl).
  rewrite Ho2 in Hcl. destruct Hcl as [_ Hb3]. wp_step. split_and!; [done| |done|].
  - pose proof (ff_cur _ _ Hf1) as C1. pose proof (ff_cur _ _ Hf2) as C2. pose proof (ff_cur _ _ Hf3) as C3.
    apply (open_use_close s s1 s2 s3 fd _ _ ltac:(congruence) ltac:(congruence) ltac:(congruence) Hold Hb1 Hb2 Hb3).
  - intros n'. rewrite Hfile3, Hfile2. destruct (decide (n' = n)) as [|Hne]; [done|].
    by rewrite Hfile1, decide_False.
Qed.

Lemma read_file_spec s path n c len :
  fs_ok s → normalize_name path = Some n → file_of s n = Some c → ¬ no_free_fd s → is_u32 len →
  wp (read_file path len) (λ r s', fs_ok s' ∧ same_fds s s' ∧
    r.2 = take (Z.to_nat len) c ∧ r.1 = Z.of_nat (length r.2) ∧ ∀ n', file_of s' n' = file_of s n') s.
Proof.
  intros Hok Hn Hc Hfree Hlen. unfold read_file. wp_step. eapply wp_mono; [by apply fs_open_spec|].
  intros fd s1 (Hok1 & Hf1 & Hopen). rewrite Hn in Hopen. cbv zeta in Hopen.
  destruct Hopen as [[[Hnone _] _]|(_ & Hfile1 & Hinst)]; [congruence|].
  destruct (installed_free _ _ _ _ _ _ Hinst Hfree) as [Hold Hb1].
  pose proof (opened_at _ _ _ _ Hb1 Hf1) as Ho1. unfold open_contents in Hfile1. simpl in Hfile1, Ho1. rewrite Hc in Hfile1.
  wp_step. eapply wp_mono; [by apply fs_read_spec|].
  intros r s2 (Hok2 & Hf2 & Hfile2 & Hr). rewrite Ho1 in Hr. simpl in Hr. destruct Hr as (c' & Hc' & Hr2 & Hr1 & Hb2).
  rewrite Hfile1, decide_True in Hc' by done. injection Hc' as <-. rewrite drop_0 in Hr2.
  pose proof (opened_at _ _ _ _ Hb2 Hf2) as Ho2.
  wp_step. eapply wp_mono; [by apply fs_close_spec|]. intros q s3 (Hok3 & Hf3 & Hfile3 & Hcl).
  rewrite Ho2 in Hcl. destruct Hcl as [_ Hb3]. wp_step. split_and!; [done| |done|done|].
  - pose proof (ff_cur _ _ Hf1) as C1. pose proof (ff_cur _ _ Hf2) as C2. pose proof (ff_cur _ _ Hf3) as C3.
    apply (open_use_close s s1 s2 s3 fd _ _ ltac:(congruence) ltac:(congruence) ltac:(congruence) Hold Hb1 Hb2 Hb3).
  - intros n'. rewrite Hfile3, Hfile2, Hfile1. by destruct (decide (n' = n)) as [->|].
Qed.

(** C28: what is written to a file is read back: with a free descriptor and room
    for the file, opening it with [O_CREAT | O_TRUNC], writing up to 1024 bytes,
    closing, opening it again and reading gives exactly these bytes, and leaves
    all other files and all descriptors as they were. *)
Theorem fs_write_read_roundtrip s path n l :
  fs_ok s → normalize_name path = Some n → (length l ≤ 1024)%nat → ¬ no_free_fd s →
  ¬ (file_of s n = None ∧ table_full s) →
  wp (let! w := write_file path l in let! r := read_file path (length l) in kret (w, r)) (λ r s',
    r = (Z.of_nat (length l), (Z.of_nat (length l), l)) ∧ same_fds s s' ∧
    ∀ n', file_of s' n' = if decide (n' = n) then Some l else file_of s n') s.
Proof.
  intros Hok Hn Hl Hfree Hroom. wp_step. eapply wp_mono; [by apply (write_file_spec s path n)|].
  intros w s1 (Hok1 & [Hc1 Ho1] & -> & Hfile1). wp_step.
  eapply wp_mono; [apply (read_file_spec s1 path n l)|]; try done.
  - by rewrite Hfile1, decide_True.
  - intros Hno. apply Hfree. by apply (no_free_fd_ext s s1).
  - unfold is_u32. lia.
  - intros [r1 r2] s2 (_ & [Hc2 Ho2] & Hr2 & Hr1 & Hfile2). simpl in *. wp_step.
    rewrite Nat2Z.id, take_ge in Hr2 by done. subst r2. rewrite Hr1. split_and!; [done| |].
    + split; [congruence|]. intros k fd. by rewrite Ho2.
    + intros n'. by rewrite Hfile2.
Qed.
End props.

(** ** Concrete instances *)

(** No file on the disk. *)
Definition no_ext4 : Ext4Ops :=
  {| ext4_lookup := λ _, -1; ext4_read_file := λ _ _ _, (-1, []); ext4_listdir := λ _, (-1, []) |}.

Section demo.
#[local] Existing Instance no_ext4.

Definition demo_boot : fs_state :=
  FsState (replicate 32 zero_inode) false false (SchedState (replicate 8 zero_process) 0 7 0).

Lemma demo_boot_ok : fs_boot demo_boot.
Proof.
  split; [done|split; simpl; lia|]. cbn [demo_boot fs_sched procs]. apply Forall_replicate.
  split; [done|]. apply (Forall_replicate _ 16 zero_fd). done.
Qed.

(** The state after [fs_init]: one file, nothing open. *)
Lemma demo_fs : ∃ s, fs_ok s ∧ (∀ fd, opened s (cur s) fd = None) ∧
  ∀ n, file_of s n = if decide (n = README) then Some readme_text else None.
Proof.
  destruct (wp_elim _ _ _ (fs_init_spec demo_boot demo_boot_ok)) as (_ & s & _ & Hok & _ & Hs & Hf).
  exists s. split_and!; try done. intros fd.
  destruct (opened_inv s (cur s) fd Hok) as [[Hn _]|(p & d & j & i & Hp & Hd & Hu & _)]; [done|exfalso].
  pose proof (fb_fds _ demo_boot_ok) as Hb. rewrite <-Hs in Hb.
  destruct (Forall_lookup_1 _ _ _ _ Hb Hp) as [_ Hall]. apply aget_nat_ex in Hd as (k & _ & Hd).
  pose proof (Forall_lookup_1 _ _ _ _ Hall Hd) as Hun. simpl in Hun. congruence.
Qed.

Lemma demo_free s : (∀ fd, opened s (cur s) fd = None) → ¬ no_free_fd s.
Proof. intros Ho Hn. by apply (Hn 0 ltac:(lia)). Qed.

(** The path [/notes]. *)
Definition demo_path : option (list Z) := Some (47 :: bytes_of "notes").

(** truncation only resets the size.  If a descriptor keeps an offset behind
    the new end, a later write through it brings the bytes that were cut off
    back into the file instead of zeros. *)
Theorem fs_trunc_exposes_old_data :
  match (do! fs_init in
         let! fd := fs_open demo_path (Z.lor O_RDWR O_CREAT) in
         do! fs_write fd (Some (bytes_of "secret")) 6 in
         do! fs_open demo_path (Z.lor O_RDWR O_TRUNC) in
         let! s := kget in
         do! fs_write fd (Some (bytes_of "!")) 1 in
         kret (file_of s (bytes_of "notes"))) demo_boot
  with
  | Done (before, s') => before = Some [] ∧ file_of s' (bytes_of "notes") = Some (bytes_of "secret!")
  | _ => False
  end.
Proof. vm_compute. done. Qed.

Lemma fs_always_consistent_witness :
  wp (do! fs_init in fs_run [OOpen demo_path 257; OWrite 0 (Some (bytes_of "x")) 1; ORun 3%nat; OUnlink demo_path])
    (λ _ s', fs_ok s') demo_boot.
Proof.
  apply fs_always_consistent; [exact demo_boot_ok|].
  repeat constructor; try (intros ? [= <-]; reflexivity); vm_compute; try lia; discriminate.
Defined.

Lemma fs_open_correct_witness :
  ∃ s, fs_ok s ∧ wp (fs_open demo_path 256) (open_post s demo_path 256) s.
Proof. destruct demo_fs as (s & Hok & _). exists s. split; [exact Hok|]. by apply fs_open_correct. Defined.

Lemma fs_read_correct_witness :
  ∃ s, fs_ok s ∧ wp (fs_read 0 true 10) (read_post s 0 true 10) s.
Proof.
  destruct demo_fs as (s & Hok & _). exists s. split; [exact Hok|]. apply fs_read_correct; [exact Hok|].
  unfold is_u32. lia.
Defined.

Lemma fs_write_correct_witness :
  ∃ s, fs_ok s ∧ wp (fs_write 0 (Some [1; 2]) 2) (write_post s 0 (Some [1; 2])) s.
Proof.
  destruct demo_fs as (s & Hok & _). exists s. split; [exact Hok|]. apply fs_write_correct; [exact Hok| |].
  - unfold is_u32. lia.
  - intros src [= <-]. reflexivity.
Defined.

Lemma fs_unlink_correct_witness :
  ∃ s, fs_ok s ∧ file_of s README = Some readme_text ∧
    wp (fs_unlink (Some README)) (unlink_post s (Some README)) s.
Proof.
  destruct demo_fs as (s & Hok & _ & Hf). exists s. split; [exact Hok|]. split; [by rewrite Hf|].
  by apply fs_unlink_correct.
Defined.

Lemma fs_rename_correct_witness :
  ∃ s, fs_ok s ∧ file_of s README = Some readme_text ∧
    wp (fs_rename (Some README) demo_path) (rename_post s (Some README) demo_path) s.
Proof.
  destruct demo_fs as (s & Hok & _ & Hf). exists s. split; [exact Hok|]. split; [by rewrite Hf|].
  by apply fs_rename_correct.
Defined.

Lemma fs_listdir_correct_witness :
  ∃ s, fs_ok s ∧ wp (fs_listdir true 100) (listdir_post s true 100) s.
Proof.
  destruct demo_fs as (s & Hok & _). exists s. split; [exact Hok|]. apply fs_listdir_correct; [exact Hok|].
  unfold is_u32. lia.
Defined.

Lemma fs_write_read_roundtrip_witness :
  ∃ s, fs_ok s ∧
    wp (let! w := write_file (Some README) [1; 2; 3] in let! r := read_file (Some README) 3%nat in kret (w, r)) (λ r s',
      r = (3, (3, [1; 2; 3])) ∧ same_fds s s' ∧
      ∀ n', file_of s' n' = if decide (n' = README) then Some [1; 2; 3] else file_of s n') s.
Proof.
  destruct demo_fs as (s & Hok & Ho & Hf). exists s. split; [exact Hok|].
  apply (fs_write_read_roundtrip s (Some README) README [1; 2; 3]); [exact Hok|reflexivity|simpl; lia|by apply demo_free|].
  rewrite Hf, decide_True by reflexivity. by intros [? _].
Defined.
End demo.
