(* ===== verification/UserCopy.v ===== *)
(** * Copies between kernel and user memory, [src/mm/usercopy.c]

    User memory is read through [ld], the byte the current address space shows
    at a virtual address; what is stored in user memory is the list of stores
    in their order.  The outer [None] of a result stands for an access check
    that did not end, which the theorems exclude. *)

From S2P Require Import Prelude Proc Vm ProcessVm ProcessVmSpec ProcessVmProps.

(** The addresses [a, a + 1, ...] of [memcpy]. *)
Fixpoint addrs_from (k : nat) (a : Z) : list Z :=
  match k with O => [] | S k' => a :: addrs_from k' (add32 a 1) end.

(** [dst] tells whether the kernel pointer is not NULL; the bytes it receives
    are returned beside the result. *)
Definition copy_from_user (cur : option process) (ld : Z → Z) (dst : bool) (src len : Z)
  : option (Z * list Z) :=
  if len =? 0 then Some (0, [])
  else if negb dst || (src =? 0) then Some (-1, [])
  else match proc_user_readable_ok cur src len with
       | None => None
       | Some false => Some (-1, [])
       | Some true => Some (0, ld <$> addrs_from (Z.to_nat len) src)
       end.

(** [src] is [None] for NULL, otherwise the [len] bytes behind the pointer. *)
Definition copy_to_user (cur : option process) (dst : Z) (src : option (list Z)) (len : Z)
  : option (Z * list (Z * Z)) :=
  if len =? 0 then Some (0, [])
  else match src with
       | None => Some (-1, [])
       | Some bytes =>
           if dst =? 0 then Some (-1, [])
           else match proc_user_writable_ok cur dst len with
                | None => None
                | Some false => Some (-1, [])
                | Some true => Some (0, zip (addrs_from (Z.to_nat len) dst) bytes)
                end
       end.

(** The loop of [copy_string_from_user] at [i], with [k] rounds left. *)
Fixpoint copy_string_loop (k : nat) (cur : option process) (ld : Z → Z) (src i : Z) : option (Z * list Z) :=
  match k with
  | O => Some (-1, [])
  | S k' =>
      if add32 src i <? src then Some (-1, [])
      else match proc_user_readable_ok cur (add32 src i) 1 with
           | None => None
           | Some false => Some (-1, [])
           | Some true =>
               let c := ld (add32 src i) in
               if c =? 0 then Some (0, [c])
               else prod_map id (cons c) <$> copy_string_loop k' cur ld src (i + 1)
           end
  end.
Definition copy_string_from_user (cur : option process) (ld : Z → Z) (dst : bool) (src capacity : Z)
  : option (Z * list Z) :=
  if negb dst || (src =? 0) || (capacity =? 0) then Some (-1, [])
  else copy_string_loop (Z.to_nat capacity) cur ld src 0.

(** ** Facts *)

(** The byte at [a] may be accessed by [p] with the right [need]. *)
Definition allowed (p : process) (a need : Z) : Prop :=
  0 ≤ a < 4294967295 ∧ ∃ q, area (vmas p) a q ∧ Z.land q need = need.

Lemma range_ok_allowed p addr len need :
  is_user p = true → vmas_ok (vmas p) → is_u32 addr → is_u32 len → 0 < len →
  ∃ b, proc_vma_range_ok p addr len need = Some b ∧
    (b = true ↔ ∀ i, 0 ≤ i < len → allowed p (addr + i) need).
Proof.
  unfold is_u32. intros Hu Hok Ha Hl Hpos. destruct (proc_vma_range_ok_spec p addr len need) as (b & Hb & Hiff); try done.
  exists b. split; [done|]. rewrite Hiff. unfold granted, allowed. split.
  - intros (_ & _ & Hend & Hg) i Hi. split; [lia|]. apply Hg. lia.
  - intros Hall. split_and!; [done|done| |].
    + specialize (Hall (len - 1) ltac:(lia)). lia.
    + intros a Hr. specialize (Hall (a - addr) ltac:(lia)). replace (addr + (a - addr)) with a in Hall by lia. apply Hall.
Qed.

Lemma addrs_from_spec k : ∀ a, 0 ≤ a → a + Z.of_nat k ≤ 4294967296 →
  addrs_from k a = (λ i : nat, a + i) <$> seq 0 k.
Proof.
  induction k as [|k IH]; intros a Ha Hb; [done|]. cbn [addrs_from seq fmap list_fmap]. f_equal; [lia|].
  destruct (decide (k = 0%nat)) as [->|]; [done|]. rewrite add32_small by lia. rewrite IH by lia.
  rewrite <-fmap_S_seq, <-list_fmap_compose. apply list_fmap_ext. intros i x _. simpl. lia.
Qed.

Lemma copy_string_loop_spec p ld src : is_user p = true → vmas_ok (vmas p) → is_u32 src →
  ∀ k i, 0 ≤ i → i + Z.of_nat k < 4294967296 →
  ∃ r bytes, copy_string_loop k (Some p) ld src i = Some (r, bytes) ∧ (length bytes ≤ k)%nat ∧
    (∀ j : nat, (j < length bytes)%nat → bytes !! j = Some (ld (src + i + j)) ∧ allowed p (src + i + j) VMA_PROT_R) ∧
    ((r = 0 ∧ ∃ l, bytes = l ++ [0] ∧ 0 ∉ l) ∨
     (r = -1 ∧ 0 ∉ bytes ∧ (length bytes = k ∨ ¬ allowed p (src + i + length bytes) VMA_PROT_R))).
Proof.
  intros Hu Hok Hsrc. unfold is_u32 in Hsrc. induction k as [|k IH]; intros i Hi Hb; cbn [copy_string_loop].
  { exists (-1), []. split_and!; try done; [intros j Hj; simpl in Hj; lia|]. right. split_and!; [done|set_solver|by left]. }
  assert (Hstop : ¬ allowed p (src + i) VMA_PROT_R → ∃ r bytes, Some (-1, @nil Z) = Some (r, bytes) ∧
    (length bytes ≤ S k)%nat ∧
    (∀ j : nat, (j < length bytes)%nat → bytes !! j = Some (ld (src + i + j)) ∧ allowed p (src + i + j) VMA_PROT_R) ∧
    ((r = 0 ∧ ∃ l, bytes = l ++ [0] ∧ 0 ∉ l) ∨
     (r = -1 ∧ 0 ∉ bytes ∧ (length bytes = S k ∨ ¬ allowed p (src + i + length bytes) VMA_PROT_R)))).
  { intros Hna. exists (-1), []. split_and!; [done|simpl; lia|intros j Hj; simpl in Hj; lia|]. right.
    split_and!; [done|set_solver|right]. simpl. by rewrite Z.add_0_r. }
  destruct (decide (src + i < 4294967296)) as [Hlt|Hge].
  2: { destruct (Z.ltb_spec (add32 src i) src) as [|Hc].
       - apply Hstop. unfold allowed. lia.
       - exfalso. unfold add32, wrap32 in Hc. Z.div_mod_to_equations. lia. }
  rewrite add32_small by lia. destruct (Z.ltb_spec (src + i) src); [lia|].
  unfold proc_user_readable_ok. rewrite Hu. cbn [negb].
  destruct (range_ok_allowed p (src + i) 1 VMA_PROT_R) as (b & -> & Hiff); [done|done|unfold is_u32; lia..|].
  assert (Hone : b = true ↔ allowed p (src + i) VMA_PROT_R).
  { rewrite Hiff. split.
    - intros Hall. specialize (Hall 0 ltac:(lia)). by rewrite Z.add_0_r in Hall.
    - intros Hal j Hj. by replace (src + i + j) with (src + i) by lia. }
  destruct b.
  2: { apply Hstop. by rewrite <-Hone. }
  assert (Hal : allowed p (src + i) VMA_PROT_R) by (by apply Hone).
  destruct (Z.eqb_spec (ld (src + i)) 0) as [Hz|Hnz].
  - exists 0, [ld (src + i)]. split_and!; [done|simpl; lia| |].
    + intros j Hj. simpl in Hj. assert (j = 0%nat) as -> by lia. by rewrite Z.add_0_r.
    + left. split; [done|]. exists []. rewrite Hz. split; [done|set_solver].
  - destruct (IH (i + 1)) as (r & bytes & -> & Hlen & Hget & Hres); [lia|lia|].
    exists r, (ld (src + i) :: bytes). split_and!; [done|simpl; lia| |].
    + intros [|j] Hj; [by rewrite Z.add_0_r|]. simpl in Hj.
      replace (src + i + S j) with (src + (i + 1) + j) by lia. apply Hget. lia.
    + destruct Hres as [(-> & l & -> & Hl)|(-> & Hn & Hend)]; [left|right].
      * split; [done|]. exists (ld (src + i) :: l). split; [done|]. set_solver.
      * split_and!; [done|set_solver|]. simpl. destruct Hend as [->|Hend]; [by left|right].
        by replace (src + i + S (length bytes)) with (src + (i + 1) + length bytes) by lia.
Qed.

(** ** The theorems *)

(** C38: for a user process the kernel touches user memory only where the process
    itself may: [copy_from_user] and [copy_to_user] return 0 only if every byte
    of the range lies in an area that may be read or written, and then move
    exactly the bytes of the range; otherwise they return -1, and nothing is
    moved. *)
Theorem copy_user_checked p ld addr len bytes :
  is_user p = true → vmas_ok (vmas p) → is_u32 addr → is_u32 len → Z.of_nat (length bytes) = len →
  let range := (λ i : nat, addr + i) <$> seq 0 (Z.to_nat len) in
  (∃ r out, copy_from_user (Some p) ld true addr len = Some (r, out) ∧
     ((r = 0 ∧ out = ld <$> range ∧ Forall (λ a, allowed p a VMA_PROT_R) range) ∨ (r = -1 ∧ out = []))) ∧
  (∃ r stores, copy_to_user (Some p) addr (Some bytes) len = Some (r, stores) ∧
     ((r = 0 ∧ stores = zip range bytes ∧ Forall (λ a, allowed p a VMA_PROT_W) range) ∨ (r = -1 ∧ stores = []))).
Proof.
  intros Hu Hok Ha Hl Hb range.
  assert (Hcheck : ∀ need, 0 < len → ∃ b, proc_vma_range_ok p addr len need = Some b ∧
    (b = true → addrs_from (Z.to_nat len) addr = range ∧ Forall (λ a, allowed p a need) range)).
  { intros need Hpos. destruct (range_ok_allowed p addr len need) as (b & Hr & Hiff); try done.
    exists b. split; [done|]. intros Hbt. pose proof (proj1 Hiff Hbt) as Hall. unfold is_u32 in *. split.
    - apply addrs_from_spec; [lia|]. destruct (Hall (len - 1) ltac:(lia)) as [? _]. lia.
    - apply Forall_fmap, Forall_forall. intros i Hi%elem_of_seq. apply Hall. lia. }
  unfold is_u32 in *. unfold copy_from_user, copy_to_user, proc_user_readable_ok, proc_user_writable_ok. rewrite Hu. simpl.
  destruct (Z.eqb_spec len 0) as [Hz|Hnz].
  { unfold range. rewrite Hz. simpl. split; exists 0, []; (split; [done|]); left; split_and!; constructor. }
  split.
  - destruct (addr =? 0); [exists (-1), []; split; [done|by right]|].
    destruct (Hcheck VMA_PROT_R) as (b & -> & Hr); [lia|]. destruct b; [|exists (-1), []; split; [done|by right]].
    destruct (Hr eq_refl) as [-> Hall]. eexists 0, _. split; [done|by left].
  - destruct (addr =? 0); [exists (-1), []; split; [done|by right]|].
    destruct (Hcheck VMA_PROT_W) as (b & -> & Hr); [lia|]. destruct b; [|exists (-1), []; split; [done|by right]].
    destruct (Hr eq_refl) as [-> Hall]. eexists 0, _. split; [done|by left].
Qed.

(** [copy_string_from_user] always ends, stores at most [capacity] bytes, and
    reads only bytes the process may read.  Result 0 means that the kernel
    buffer holds the user's string with its terminator; result -1 that no
    terminator is among the bytes that could be read. *)
Theorem copy_string_from_user_correct p ld src capacity :
  is_user p = true → vmas_ok (vmas p) → is_u32 src → src ≠ 0 → 0 < capacity < 4294967296 →
  ∃ r bytes, copy_string_from_user (Some p) ld true src capacity = Some (r, bytes) ∧
    Z.of_nat (length bytes) ≤ capacity ∧
    (∀ j : nat, (j < length bytes)%nat → bytes !! j = Some (ld (src + j)) ∧ allowed p (src + j) VMA_PROT_R) ∧
    ((r = 0 ∧ ∃ l, bytes = l ++ [0] ∧ 0 ∉ l) ∨
     (r = -1 ∧ 0 ∉ bytes ∧
      (Z.of_nat (length bytes) = capacity ∨ ¬ allowed p (src + length bytes) VMA_PROT_R))).
Proof.
  intros Hu Hok Hsrc Hnz Hcap. unfold copy_string_from_user. simpl.
  destruct (Z.eqb_spec src 0); [done|]. destruct (Z.eqb_spec capacity 0); [lia|]. simpl.
  destruct (copy_string_loop_spec p ld src Hu Hok Hsrc (Z.to_nat capacity) 0) as (r & bytes & Hrun & Hlen & Hget & Hres); [lia|lia|].
  exists r, bytes. rewrite Z.add_0_r in *. split_and!; [done|lia|exact Hget|].
  destruct Hres as [?|(-> & Hn & Hend)]; [by left|right]. split_and!; [done|done|].
  destruct Hend as [->|]; [left; lia|by right].
Qed.

(** ** Concrete instances *)
Lemma copy_user_checked_witness :
  let p := demo_proc 0 in
  let range := (λ i : nat, 536870916 + i) <$> seq 0 (Z.to_nat 2) in
  (∃ r out, copy_from_user (Some p) (λ a, a mod 256) true 536870916 2 = Some (r, out) ∧
     ((r = 0 ∧ out = (λ a, a mod 256) <$> range ∧ Forall (λ a, allowed p a VMA_PROT_R) range) ∨ (r = -1 ∧ out = []))) ∧
  (∃ r stores, copy_to_user (Some p) 536870916 (Some [7; 8]) 2 = Some (r, stores) ∧
     ((r = 0 ∧ stores = zip range [7; 8] ∧ Forall (λ a, allowed p a VMA_PROT_W) range) ∨ (r = -1 ∧ stores = []))).
Proof.
  apply (copy_user_checked (demo_proc 0) (λ a, a mod 256) 536870916 2 [7; 8]);
    [reflexivity|exact demo_vmas_ok|unfold is_u32; lia..|reflexivity].
Defined.

Lemma copy_string_from_user_correct_witness :
  let p := demo_proc 0 in
  let ld := λ a, if a <? 536870920 then 65 else 0 in
  ∃ r bytes, copy_string_from_user (Some p) ld true 536870916 16 = Some (r, bytes) ∧
    Z.of_nat (length bytes) ≤ 16 ∧
    (∀ j : nat, (j < length bytes)%nat → bytes !! j = Some (ld (536870916 + j)) ∧ allowed p (536870916 + j) VMA_PROT_R) ∧
    ((r = 0 ∧ ∃ l, bytes = l ++ [0] ∧ 0 ∉ l) ∨
     (r = -1 ∧ 0 ∉ bytes ∧
      (Z.of_nat (length bytes) = 16 ∨ ¬ allowed p (536870916 + length bytes) VMA_PROT_R))).
Proof.
  intros p ld. apply (copy_string_from_user_correct p ld);
    [reflexivity|exact demo_vmas_ok|unfold is_u32; lia|discriminate|lia].
Defined.
