(* ===== verification/Process.v ===== *)
(** * The life of a process, [src/kernel/process/process.c] and
    [src/arch/riscv32/process.c]

    The kernel state puts together the page tables, the file system with its
    descriptor tables, the process table and the scheduler.  [current_proc] and
    [idle_proc] are indices into the table; they are set before the first
    process runs. *)

From S2P Require Import Prelude Layout KString PageAlloc PageAllocSpec PageIface Vm Proc ProcessVm Sched Fs.

Definition USER_STACK_PAGES : Z := 2.
Definition USER_STACK_TOP : Z := 1073741824.
Definition PROC_PRIORITY_MIN : Z := 1.
Definition PROC_PRIORITY_DEF : Z := 4.
Definition WNOHANG : Z := 1.

Definition SSTATUS_SIE : Z := 2.
Definition SSTATUS_SPIE : Z := 32.
Definition SSTATUS_SUM : Z := 262144.

(** The address of [arch_resume_from_trap], in [trap/resume.c]. *)
Class ResumeEntry := { arch_resume_from_trap : Z }.

(** ** Contexts of a process *)

(** The frame of sixteen words at the top of the 32 KiB kernel stack;
    [sstatus] is the value of the CSR. *)
Definition arch_init_switch_context (sstatus : Z) (p : process) (entry : Z) : process :=
  let status := Z.land sstatus (not32 (Z.lor SSTATUS_SIE SSTATUS_SUM)) in
  let fr := <[0%nat := entry]> (replicate 16 0) in
  let fr := <[13%nat := if is_user p then status else Z.lor status SSTATUS_SIE]> fr in
  set_switch (32768 - 16 * 4) fr p.

Definition arch_init_user_context (p : process) (entry stack_top argc argv : Z) : process :=
  set_context (TrapFrame 0 0 0 (replicate 7 0) [argc; argv; 0; 0; 0; 0; 0; 0] (replicate 12 0)
                 stack_top entry SSTATUS_SPIE) entry p.

Definition arch_user_stack_pointer (p : process) : Z := tf_sp (frame p).

Definition arch_clone_user_context (child parent : process) (child_sp : Z) : process :=
  let f := frame parent in
  set_context (TrapFrame (tf_ra f) (tf_gp f) (tf_tp f) (tf_t f) (<[0%nat := 0]> (tf_a f)) (tf_s f)
                 child_sp (tf_sepc f) (tf_sstatus f)) (tf_sepc f) child.

(** ** The process table *)

Definition alloc_process_slot (l : list process) : option nat :=
  find_index (λ p, bool_decide (state p = PROC_UNUSED)) l.

Definition init_process_common (pid_ parent_pid_ : Z) (user : bool) (prio : Z) : process :=
  Process pid_ PROC_RUNNABLE prio prio parent_pid_ 0 user 0 0 0 0 (replicate 16 0) false 0 0 zero_frame
    (replicate 16 zero_vma) (replicate 16 zero_fd).

Definition find_process_by_pid (l : list process) (pid_ : Z) : option nat :=
  find_index (λ p, negb (bool_decide (state p = PROC_UNUSED)) && (pid p =? pid_)) l.

Definition proc_user_stack_end (p : process) : Z :=
  add32 (user_stack_base p) (mul32 (user_stack_pages p) PAGE_SIZE).

Definition proc_sp_within_user_stack (p : process) (sp_ : Z) : bool :=
  (user_stack_base p <=? sp_) && (sp_ <=? proc_user_stack_end p).

Record kernel_state (P : Type) := KernelState {
  k_vm : vm_state P;
  k_fs : fs_state;
  k_sstatus : Z;
}.
Arguments KernelState {P} k_vm k_fs k_sstatus.
Arguments k_vm {P} k.
Arguments k_fs {P} k.
Arguments k_sstatus {P} k.

Definition set_k_vm {P} (v : vm_state P) (k : kernel_state P) := KernelState v (k_fs k) (k_sstatus k).
Definition set_k_fs {P} (v : fs_state) (k : kernel_state P) := KernelState (k_vm k) v (k_sstatus k).

Abbreviation k_sched k := (fs_sched (k_fs k)).
Abbreviation k_procs k := (procs (fs_sched (k_fs k))).
Abbreviation k_cur k := (current_proc (fs_sched (k_fs k))).

Definition set_k_sched {P} (v : sched_state) (k : kernel_state P) := set_k_fs (set_fs_sched v (k_fs k)) k.
Definition set_k_procs {P} (l : list process) (k : kernel_state P) :=
  set_k_sched (set_sched_procs l (k_sched k)) k.

Section ops.
Context {L : Layout} {P : Type} {PO : PageOps P} {RE : ResumeEntry} {EX : Ext4Ops}.
Abbreviation KM := (km (kernel_state P)).

Definition on_vm {A} (c : km (vm_state P) A) : KM A := zoom k_vm set_k_vm c.
Definition on_fs {A} (c : FM A) : KM A := zoom k_fs set_k_fs c.

(** [procs[i]] and [*current_proc] *)
Definition get_proc (i : nat) : KM process := λ k,
  match k_procs k !! i with Some p => Done (p, k) | None => Fault end.
Definition put_proc (i : nat) (p : process) : KM unit := kmodify (λ k, set_k_procs (<[i := p]> (k_procs k)) k).
Definition cur_index : KM nat := λ k, Done (k_cur k, k).

Definition mark_process_unused (i : nat) : KM unit := put_proc i zero_process.

Definition reset_process_with_released_resources (i : nat) : KM unit :=
  let! p := get_proc i in
  do! on_vm (proc_vm_release p) in
  mark_process_unused i.

(** [yield], with the address space it activates on a switch. *)
Definition do_yield : KM unit := kmodify (λ k,
  let s := yield (k_sched k) in
  let k' := set_k_sched s k in
  if bool_decide (current_proc s = k_cur k) then k'
  else set_k_vm (set_csr_satp (hart_satp s) (k_vm k)) k').

(** The new process is put in its slot when its fields are next read, and not
    field by field; no function called in between looks at the table.  [None]
    stands for NULL. *)
Definition create_process (pc : Z) : KM (option nat) :=
  let! k := kget in
  match alloc_process_slot (k_procs k) with
  | None => kret None
  | Some index =>
      let p := init_process_common (index + 1) 0 false PROC_PRIORITY_MIN in
      let p := set_satp (vm_kernel_satp (k_vm k)) p in
      do! put_proc index (arch_init_switch_context (k_sstatus k) p pc) in
      kret (Some index)
  end.

Definition create_user_process (entry_pc : Z) : KM (option nat) :=
  let! k := kget in
  match alloc_process_slot (k_procs k) with
  | None => kret None
  | Some index =>
      let p := init_process_common (index + 1) 0 true PROC_PRIORITY_DEF in
      let! paddr := on_vm (on_pages (pg_alloc USER_STACK_PAGES)) in
      if paddr =? 0 then do! mark_process_unused index in kret None
      else
        let base := sub32 USER_STACK_TOP (mul32 USER_STACK_PAGES PAGE_SIZE) in
        let p := set_user_stack base paddr USER_STACK_PAGES p in
        let! satp_ := on_vm (vm_build_user_satp base paddr USER_STACK_PAGES) in
        let p := set_satp satp_ p in
        do! put_proc index p in
        if satp_ =? 0 then do! reset_process_with_released_resources index in kret None
        else
          match proc_vm_init p with
          | None => do! reset_process_with_released_resources index in kret None
          | Some p =>
              let p := arch_init_user_context p entry_pc (proc_user_stack_end p) 0 0 in
              do! put_proc index (arch_init_switch_context (k_sstatus k) p arch_resume_from_trap) in
              kret (Some index)
          end
  end.

(** The two [memcpy] of [proc_fork]: areas and descriptors. *)
Definition fork_child (child parent : process) : process := set_fds (fds parent) (set_vmas (vmas parent) child).

Definition proc_fork : KM Z :=
  let! k := kget in
  let! parent := get_proc (k_cur k) in
  if negb (is_user parent) || negb (has_trap_frame parent) then kret (-1)
  else
    match alloc_process_slot (k_procs k) with
    | None => kret (-1)
    | Some child_index =>
        let child := init_process_common (child_index + 1) (pid parent) true (priority parent) in
        let! paddr := on_vm (on_pages (pg_alloc (user_stack_pages parent))) in
        if paddr =? 0 then do! mark_process_unused child_index in kret (-1)
        else
          let child := set_user_stack (user_stack_base parent) paddr (user_stack_pages parent) child in
          let! satp_ := on_vm (vm_build_user_satp (user_stack_base parent) paddr (user_stack_pages parent)) in
          let child := set_satp satp_ child in
          do! put_proc child_index child in
          if satp_ =? 0 then do! reset_process_with_released_resources child_index in kret (-1)
          else
            let child := fork_child child parent in
            do! put_proc child_index child in
            let parent_sp := arch_user_stack_pointer parent in
            if negb (proc_sp_within_user_stack parent parent_sp)
            then do! reset_process_with_released_resources child_index in kret (-1)
            else
              let sp_offset := sub32 parent_sp (user_stack_base parent) in
              let child := arch_clone_user_context child parent (add32 (user_stack_base child) sp_offset) in
              do! put_proc child_index child in
              let! rc := on_vm (proc_vm_clone parent child) in
              if rc <? 0 then do! reset_process_with_released_resources child_index in kret (-1)
              else
                let child := set_user_stack (user_stack_base child) (user_stack_paddr parent) (user_stack_pages child) child in
                do! put_proc child_index (arch_init_switch_context (k_sstatus k) child arch_resume_from_trap) in
                kret (pid child)
    end.

(** [ld] and [ld32] read user memory in the current address space. *)
Definition proc_exec (ld ld32 : Z → Z) (entry_pc argv : Z) : KM Z :=
  let! k := kget in
  let! p := get_proc (k_cur k) in
  if negb (is_user p) then kret (-1)
  else if entry_pc =? 0 then kret (-1)
  else
    match proc_user_exec_argv_ok (Some p) ld ld32 argv with
    | None => knofuel
    | Some None => kret (-1)
    | Some (Some argc) =>
        let! p := on_vm (proc_vm_reset p) in
        do! put_proc (k_cur k) p in
        match proc_vm_init p with
        | None => kret (-1)
        | Some p =>
            do! put_proc (k_cur k) (arch_init_user_context p entry_pc (proc_user_stack_end p) argc argv) in
            kret 0
        end
    end.

(** [for (fd = 0; fd < FD_MAX; fd++) if (current_proc->fds[fd].used) fs_close(fd);]
    with [n] descriptors left. *)
Fixpoint close_all (n : nat) (fd : Z) : KM unit :=
  match n with
  | O => kret tt
  | S n' =>
      let! i := cur_index in
      let! p := get_proc i in
      match aget (fds p) fd with
      | None => kfault
      | Some d =>
          do! (if fd_used d then do! on_fs (fs_close fd) in kret tt else kret tt) in
          close_all n' (fd + 1)
      end
  end.

(** [proc_exit] up to its first [yield]; a process that exited is never
    resumed, so the endless loop around [yield] goes no further. *)
Definition proc_exit (status : Z) : KM unit :=
  do! close_all 16 0 in
  let! i := cur_index in
  let! p := get_proc i in
  do! put_proc i (set_state PROC_ZOMBIE (set_exit_status status p)) in
  let! k := kget in
  do! match find_process_by_pid (k_procs k) (parent_pid p) with
      | None => kret tt
      | Some j =>
          let! parent := get_proc j in
          if bool_decide (state parent = PROC_BLOCKED) then put_proc j (set_state PROC_RUNNABLE parent) else kret tt
      end in
  do_yield.

(** [proc_vm_release(proc); mark_process_unused(proc);] *)
Definition reap (i : nat) : KM unit := reset_process_with_released_resources i.

(** The loop of [proc_reap_orphan_zombies] from index [i], with [n] left. *)
Fixpoint reap_orphans (n : nat) (i : nat) : KM unit :=
  match n with
  | O => kret tt
  | S n' =>
      let! k := kget in
      let! p := get_proc i in
      do! (if bool_decide (i = idle_proc (k_sched k)) then kret tt
           else if negb (bool_decide (state p = PROC_ZOMBIE)) || negb (is_user p) || negb (parent_pid p =? 0)
           then kret tt
           else reap i) in
      reap_orphans n' (S i)
  end.
Definition proc_reap_orphan_zombies : KM unit := reap_orphans 8 0.

(** One pass of the loop of [proc_waitpid] over the table, from index [i]:
    the zombie child that is found and reaped, with its pid and exit status,
    or whether a child was seen. *)
Inductive scan_result := Reaped (pid_ status : Z) | NotReaped (has_child : bool).

Fixpoint waitpid_scan (n : nat) (i : nat) (me pid_ : Z) (has_child : bool) : KM scan_result :=
  match n with
  | O => kret (NotReaped has_child)
  | S n' =>
      let! p := get_proc i in
      if bool_decide (state p = PROC_UNUSED) || negb (parent_pid p =? me)
      then waitpid_scan n' (S i) me pid_ has_child
      else if (0 <? pid_) && negb (pid p =? pid_) then waitpid_scan n' (S i) me pid_ has_child
      else if negb (bool_decide (state p = PROC_ZOMBIE)) then waitpid_scan n' (S i) me pid_ true
      else do! reap i in kret (Reaped (pid p) (exit_status p))
  end.

(** How a round of the [while] loop ends: with the result and what is stored
    at [status_ptr], or asleep in [yield], to start another round later. *)
Inductive wait_result := WaitReturn (r : Z) (status : option Z) | WaitSleep.

Definition waitpid_round (pid_ options : Z) : KM wait_result :=
  let! i := cur_index in
  let! me := get_proc i in
  let! r := waitpid_scan 8 0 (pid me) pid_ false in
  match r with
  | Reaped rp status => kret (WaitReturn rp (Some status))
  | NotReaped has_child =>
      if negb has_child then kret (WaitReturn (-1) None)
      else if has_bits options WNOHANG then kret (WaitReturn 0 None)
      else
        let! me := get_proc i in
        do! put_proc i (set_state PROC_BLOCKED me) in
        do! do_yield in
        kret WaitSleep
  end.
Definition proc_waitpid (pid_ options : Z) : KM wait_result :=
  if negb (Z.land options (not32 WNOHANG) =? 0) then kret (WaitReturn (-1) None)
  else waitpid_round pid_ options.
(** The process runs again: [current_proc->state = PROC_RUNNABLE;] and the
    next round. *)
Definition waitpid_resume (pid_ options : Z) : KM wait_result :=
  let! i := cur_index in
  let! me := get_proc i in
  do! put_proc i (set_state PROC_RUNNABLE me) in
  waitpid_round pid_ options.
Definition proc_wait : KM wait_result := proc_waitpid (-1) 0.
End ops.
