(* ===== verification/ProcessSpec.v ===== *)
(** * The process table: its invariant, and how each operation changes it

    Page tables are left to [ProcessVmProps]; here the operations on them are
    any code that leaves the process table alone.  Statements with [wlp] hold
    whenever the code returns. *)

From S2P Require Import Prelude Layout KString PageAlloc PageAllocSpec PageIface Vm Proc ProcessVm Sched Fs FsSpec FsOps.
From S2P Require Import FsProps Process.

(** ** The invariant *)

(** A slot in use holds the process whose pid is the number of the slot. *)
Definition table_ok (l : list process) : Prop :=
  ∀ (i : nat) p, l !! i = Some p → state p ≠ PROC_UNUSED → pid p = i + 1.

Record kernel_ok {P} (k : kernel_state P) : Prop := {
  ko_fs : fs_ok (k_fs k);
  ko_table : table_ok (k_procs k);
}.

(** Of the file system and the scheduler, only the process table changes. *)
Record table_frame {P} (k k' : kernel_state P) : Prop := {
  tf_only : k_fs k' = k_fs (set_k_procs (k_procs k') k);
}.

#[export] Instance table_frame_po {P} : PreOrder (@table_frame P).
Proof.
  split.
  - intros k. split. by destruct k as [? [? ? ? []] ?].
  - intros a b c [Hab] [Hbc]. split. rewrite Hbc. cbn. by rewrite Hab.
Qed.

Lemma pid_unique l (i j : nat) p q :
  table_ok l → l !! i = Some p → l !! j = Some q → state p ≠ PROC_UNUSED → state q ≠ PROC_UNUSED →
  pid p = pid q → i = j.
Proof. intros Ht Hi Hj Hp Hq He. pose proof (Ht i p Hi Hp). pose proof (Ht j q Hj Hq). lia. Qed.

(** Under the invariant the pid finds its process, and 0 finds none. *)
Lemma find_process_by_pid_spec l pid_ :
  table_ok l →
  match find_process_by_pid l pid_ with
  | Some i => ∃ p, l !! i = Some p ∧ state p ≠ PROC_UNUSED ∧ pid p = pid_
  | None => ∀ i p, l !! i = Some p → state p ≠ PROC_UNUSED → pid p ≠ pid_
  end.
Proof.
  intros Ht. unfold find_process_by_pid. destruct (find_index _ l) as [i|] eqn:Hf.
  - destruct (find_index_Some _ _ _ Hf) as (p & Hi & Hp & _). apply andb_true_iff in Hp as [Hs Hp%Z.eqb_eq].
    exists p. apply negb_true_iff, bool_decide_eq_false in Hs. done.
  - intros i p Hi Hs Hp. pose proof (find_index_None _ _ _ _ Hf Hi) as Hn. simpl in Hn.
    rewrite bool_decide_eq_false_2, Hp, Z.eqb_refl in Hn by done. done.
Qed.

Lemma alloc_process_slot_spec l i :
  alloc_process_slot l = Some i → ∃ p, l !! i = Some p ∧ state p = PROC_UNUSED.
Proof.
  intros Hf. destruct (find_index_Some _ _ _ Hf) as (p & Hi & Hp & _). exists p. split; [done|].
  by apply bool_decide_eq_true in Hp.
Qed.

Lemma kernel_ok_procs {P} (k : kernel_state P) l :
  kernel_ok k → length l = 8%nat → Forall (proc_fds_ok (inodes (k_fs k))) l → table_ok l →
  kernel_ok (set_k_procs l k).
Proof. intros [[? ? ? [? ? ?] ? ?] _] Hl Hf Ht. split; [|done]. by split. Qed.

(** Storing a process in a slot keeps the invariant if its pid and its
    descriptors are right. *)
Lemma kernel_ok_put {P} (k : kernel_state P) (i : nat) p :
  kernel_ok k → proc_fds_ok (inodes (k_fs k)) p → (state p ≠ PROC_UNUSED → pid p = i + 1) →
  kernel_ok (set_k_procs (<[i := p]> (k_procs k)) k).
Proof.
  intros Hk Hfd Hp. pose proof Hk as [Hfs Ht]. apply kernel_ok_procs; [done| | |].
  - rewrite length_insert. by apply length_procs.
  - apply Forall_insert; [apply Hfs|done].
  - intros j q Hj Hs. apply list_lookup_insert_Some in Hj as [(-> & <- & _)|[_ Hj]]; [by apply Hp|by apply Ht].
Qed.

Lemma zero_fds_ok l : proc_fds_ok l zero_process.
Proof. split; [done|]. apply (Forall_replicate _ 16 zero_fd). done. Qed.

Lemma kernel_ok_zero {P} (k : kernel_state P) i :
  kernel_ok k → kernel_ok (set_k_procs (<[i := zero_process]> (k_procs k)) k).
Proof. intros Hk. apply kernel_ok_put; [done|apply zero_fds_ok|done]. Qed.

Lemma proc_fds_lookup {P} (k : kernel_state P) i p :
  kernel_ok k → k_procs k !! i = Some p → proc_fds_ok (inodes (k_fs k)) p.
Proof. intros [Hfs _] Hi. eapply Forall_lookup_1; [apply Hfs|done]. Qed.

Lemma set_k_procs_twice {P} (k : kernel_state P) l l' : set_k_procs l' (set_k_procs l k) = set_k_procs l' k.
Proof. done. Qed.

Lemma set_k_procs_id {P} (k : kernel_state P) : set_k_procs (k_procs k) k = k.
Proof. by destruct k as [? [? ? ? []] ?]. Qed.

(** ** Stepping through the operations *)

Section ops.
Context {L : Layout} {P : Type} {PO : PageOps P} {RE : ResumeEntry} {EX : Ext4Ops}.
Implicit Types k : kernel_state P.

Lemma wlp_on_vm {A} (c : km (vm_state P) A) (Q : A → kernel_state P → Prop) k :
  (∀ a v, Q a (set_k_vm v k)) → wlp (on_vm c) Q k.
Proof. intros HQ. unfold wlp, on_vm, zoom. destruct (c (k_vm k)) as [[a v]| | | |]; done. Qed.

(** Code on the page tables that ends with a pure step. *)
Lemma wlp_zoom_bind {A B} (c : km (vm_state P) A) (f : A → B) (Q : B → kernel_state P → Prop) k :
  (∀ a v, Q (f a) (set_k_vm v k)) → wlp (on_vm (let! a := c in kret (f a))) Q k.
Proof. intros HQ. unfold wlp, on_vm, zoom, kbind, kret. destruct (c (k_vm k)) as [[a v]| | | |]; done. Qed.

Lemma wp_on_fs {A} (c : FM A) (Q : A → kernel_state P → Prop) k :
  wp c (λ a s, Q a (set_k_fs s k)) (k_fs k) → wp (on_fs c) Q k.
Proof. apply wp_zoom. Qed.

Lemma wlp_get_proc i (Q : process → kernel_state P → Prop) k :
  (∀ p, k_procs k !! i = Some p → Q p k) → wlp (get_proc i) Q k.
Proof. intros HQ. unfold wlp, get_proc. destruct (k_procs k !! i) as [p|] eqn:E; [by apply HQ|done]. Qed.

Lemma wp_get_proc i p (Q : process → kernel_state P → Prop) k :
  k_procs k !! i = Some p → Q p k → wp (get_proc i) Q k.
Proof. intros Hi HQ. unfold wp, get_proc. by rewrite Hi. Qed.

Lemma wlp_put_proc i p (Q : unit → kernel_state P → Prop) k :
  Q tt (set_k_procs (<[i := p]> (k_procs k)) k) → wlp (put_proc i p) Q k.
Proof. done. Qed.

(** Giving a slot back leaves only the address spaces changed otherwise. *)
Lemma reset_spec i k (Q : unit → kernel_state P → Prop) :
  (∀ v, Q tt (set_k_procs (<[i := zero_process]> (k_procs k)) (set_k_vm v k))) →
  wlp (reset_process_with_released_resources i) Q k.
Proof.
  intros HQ. unfold reset_process_with_released_resources. wlp_step. apply wlp_get_proc. intros p _.
  wlp_step. apply wlp_on_vm. intros _ v. apply wlp_put_proc. apply HQ.
Qed.

(** ** Creating processes *)

(** How a call that fills a slot changes the table: not at all, or by clearing
    an unused slot, when it fails, or by putting a process in an unused slot. *)
Definition slot_filled (k k' : kernel_state P) (r : option nat) (good : nat → process → Prop) : Prop :=
  table_frame k k' ∧
  match r with
  | None => k_procs k' = k_procs k ∨
      ∃ i p, k_procs k !! i = Some p ∧ state p = PROC_UNUSED ∧ k_procs k' = <[i := zero_process]> (k_procs k)
  | Some i => ∃ p p', k_procs k !! i = Some p ∧ state p = PROC_UNUSED ∧
      k_procs k' = <[i := p']> (k_procs k) ∧ good i p'
  end.

Definition fresh_process (user : bool) (prio : Z) (i : nat) (p : process) : Prop :=
  pid p = i + 1 ∧ state p = PROC_RUNNABLE ∧ parent_pid p = 0 ∧ is_user p = user ∧
  priority p = prio ∧ budget p = prio ∧ fds p = replicate 16 zero_fd.

Lemma create_process_spec pc k :
  wp (create_process pc) (λ r k', slot_filled k k' r (λ i p, fresh_process false 1 i p ∧
    switch_frame p !! 0%nat = Some pc ∧ satp p = vm_kernel_satp (k_vm k))) k.
Proof.
  unfold create_process. do 2 wp_step. destruct (alloc_process_slot (k_procs k)) as [i|] eqn:Hs.
  - destruct (alloc_process_slot_spec _ _ Hs) as (p & Hi & Hu). unfold put_proc. wp_steps.
    split; [done|]. exists p. eexists. split_and!; done.
  - wp_steps. split; [done|by left].
Qed.

(** Closes a branch in which the slot is given back. *)
Ltac slot_failed Hi Hu :=
  first [wlp_step; apply reset_spec; intros ? | wlp_step; unfold mark_process_unused; apply wlp_put_proc];
  wlp_steps; split; [by split|right]; eexists _, _; split; [exact Hi|]; split; [exact Hu|];
  cbn; rewrite ?list_insert_insert_eq; reflexivity.

Lemma create_user_process_spec entry k :
  wlp (create_user_process entry) (λ r k', slot_filled k k' r (λ i p, fresh_process true 4 i p ∧
    has_trap_frame p = true ∧ sepc p = entry ∧ tf_sepc (frame p) = entry ∧
    tf_sp (frame p) = proc_user_stack_end p ∧ satp p ≠ 0 ∧
    switch_frame p !! 0%nat = Some arch_resume_from_trap)) k.
Proof.
  unfold create_user_process. do 2 wlp_step. destruct (alloc_process_slot (k_procs k)) as [i|] eqn:Hs.
  2: { wlp_steps. split; [done|by left]. }
  destruct (alloc_process_slot_spec _ _ Hs) as (p & Hi & Hu). wlp_step. apply wlp_on_vm. intros paddr v1.
  destruct (paddr =? 0); [slot_failed Hi Hu|]. wlp_step. apply wlp_on_vm. intros satp_ v2. wlp_step. apply wlp_put_proc.
  destruct (Z.eqb_spec satp_ 0) as [->|Hsatp]; [slot_failed Hi Hu|].
  destruct (proc_vm_init _) as [q|] eqn:Hq; [|slot_failed Hi Hu].
  unfold proc_vm_init in Hq. apply fmap_Some in Hq as (l & _ & ->).
  wlp_step. apply wlp_put_proc. wlp_steps. split; [by split|]. exists p. eexists. split; [exact Hi|]. split; [exact Hu|].
  split; [cbn; by rewrite list_insert_insert_eq|]. done.
Qed.

(** ** Fork and exec *)

(** The child is a copy of the parent that sees 0 as the result of the call. *)
Record child_of (parent : process) (i : nat) (c : process) : Prop := {
  ch_pid : pid c = i + 1;
  ch_parent : parent_pid c = pid parent;
  ch_state : state c = PROC_RUNNABLE ∧ is_user c = true ∧ exit_status c = 0;
  ch_prio : priority c = priority parent ∧ budget c = priority parent;
  ch_stack : user_stack_base c = user_stack_base parent ∧ user_stack_pages c = user_stack_pages parent ∧
    user_stack_paddr c = user_stack_paddr parent;
  ch_space : satp c ≠ 0 ∧ vmas c = vmas parent ∧ fds c = fds parent;
  ch_context : has_trap_frame c = true ∧ sepc c = tf_sepc (frame parent);
  ch_frame : is_u32 (tf_sp (frame parent)) → frame c = TrapFrame (tf_ra (frame parent)) (tf_gp (frame parent)) (tf_tp (frame parent)) (tf_t (frame parent))
      (<[0%nat := 0]> (tf_a (frame parent))) (tf_s (frame parent)) (tf_sp (frame parent))
      (tf_sepc (frame parent)) (tf_sstatus (frame parent));
  ch_resume : switch_frame c !! 0%nat = Some arch_resume_from_trap;
}.

(** The stack pointer of the child: same offset from the same base. *)
Lemma sp_moved base sp_ : is_u32 sp_ → add32 base (sub32 sp_ base) = sp_.
Proof. intros Hs. unfold is_u32 in Hs. unfold add32, sub32, wrap32. rewrite Zplus_mod_idemp_r.
  replace (base + (sp_ - base)) with sp_ by lia. by apply Z.mod_small.
Qed.

(** The result of [proc_fork] as an index into the table. *)
Definition fork_slot (r : Z) : option nat := if r <? 0 then None else Some (Z.to_nat (r - 1)).

(** The same for [proc_fork]. *)
Ltac fork_failed Hi Hu :=
  first [wlp_step; apply reset_spec; intros ? | wlp_step; unfold mark_process_unused; apply wlp_put_proc];
  wlp_steps; split; [by left|]; split; [by split|right]; eexists _, _; split; [exact Hi|]; split; [exact Hu|];
  cbn; rewrite ?list_insert_insert_eq; reflexivity.

Lemma proc_fork_spec k parent :
  k_procs k !! k_cur k = Some parent →
  wlp proc_fork (λ r k', (r = -1 ∨ 1 ≤ r) ∧
    slot_filled k k' (fork_slot r) (child_of parent)) k.
Proof.
  intros Hcur. unfold proc_fork. do 3 wlp_step. apply wlp_get_proc. intros p Hp.
  rewrite Hcur in Hp. injection Hp as <-.
  assert (Hno : ∀ k1 : kernel_state P, k1 = k → (-1 = -1 ∨ 1 ≤ -1) ∧ slot_filled k k1 (fork_slot (-1)) (child_of parent)).
  { intros k1 ->. split; [by left|]. split; [done|by left]. }
  destruct (negb (is_user parent) || negb (has_trap_frame parent)); [wlp_steps; by apply Hno|].
  destruct (alloc_process_slot (k_procs k)) as [i|] eqn:Hs; [|wlp_steps; by apply Hno].
  destruct (alloc_process_slot_spec _ _ Hs) as (p & Hi & Hu). clear Hno.
  wlp_step. apply wlp_on_vm. intros paddr v1. destruct (paddr =? 0); [fork_failed Hi Hu|].
  wlp_step. apply wlp_on_vm. intros satp_ v2. wlp_step. apply wlp_put_proc.
  destruct (Z.eqb_spec satp_ 0) as [->|Hsatp]; [fork_failed Hi Hu|].
  wlp_step. apply wlp_put_proc. destruct (proc_sp_within_user_stack _ _); cbn [negb]; [|fork_failed Hi Hu].
  wlp_step. apply wlp_put_proc. wlp_step. apply wlp_on_vm. intros rc v3.
  destruct (rc <? 0); [fork_failed Hi Hu|]. wlp_step. apply wlp_put_proc. wlp_steps.
  split; [right; cbn; lia|]. split; [by split|]. unfold fork_slot. cbn [pid set_user_stack arch_clone_user_context
    set_context fork_child set_fds set_vmas set_satp init_process_common].
  destruct (Z.ltb_spec (i + 1) 0); [lia|]. replace (Z.to_nat (i + 1 - 1)) with i by lia.
  exists p. eexists. split; [exact Hi|]. split; [exact Hu|]. split; [cbn; by rewrite !list_insert_insert_eq|].
  split; try done. intros Hsp. cbn [frame arch_init_switch_context set_switch set_user_stack arch_clone_user_context
    set_context]. f_equal. unfold arch_user_stack_pointer. cbn. by apply sp_moved.
Qed.

(** [proc_exec] changes the calling process only, and of it only its areas and
    its user context. *)
Lemma proc_exec_spec ld ld32 entry argv k p :
  k_procs k !! k_cur k = Some p →
  wlp (proc_exec ld ld32 entry argv) (λ r k', table_frame k k' ∧
    ((r = -1 ∧ ∃ l, k_procs k' = <[k_cur k := set_vmas l p]> (k_procs k)) ∨
     (r = 0 ∧ entry ≠ 0 ∧ is_user p = true ∧ ∃ argc l,
        proc_user_exec_argv_ok (Some p) ld ld32 argv = Some (Some argc) ∧
        k_procs k' = <[k_cur k := arch_init_user_context (set_vmas l p) entry (proc_user_stack_end p) argc argv]>
          (k_procs k)))) k.
Proof.
  intros Hp. unfold proc_exec. do 3 wlp_step. apply wlp_get_proc. intros p' Hp'. rewrite Hp in Hp'. injection Hp' as <-.
  assert (Hsame : ∃ l, k_procs k = <[k_cur k := set_vmas l p]> (k_procs k)).
  { exists (vmas p). symmetry. apply list_insert_id. rewrite Hp. by destruct p. }
  assert (Hno : table_frame k k ∧ (∃ l, k_procs k = <[k_cur k := set_vmas l p]> (k_procs k))) by done.
  destruct (is_user p) eqn:Hu; cbn [negb]; [|wlp_steps; split; [done|by left]].
  destruct (Z.eqb_spec entry 0); [wlp_steps; split; [done|by left]|].
  destruct (proc_user_exec_argv_ok (Some p) ld ld32 argv) as [[argc|]|] eqn:Ha;
    [|wlp_steps; split; [done|by left]|done].
  wlp_step. unfold proc_vm_reset. apply wlp_zoom_bind. intros l v. wlp_step. apply wlp_put_proc.
  destruct (proc_vm_init _) as [q|] eqn:Hq.
  - unfold proc_vm_init in Hq. apply fmap_Some in Hq as (l' & _ & ->). wlp_step. apply wlp_put_proc. wlp_steps.
    split; [by split|right]. split_and!; try done. exists argc, l'. split; [done|]. cbn. by rewrite list_insert_insert_eq.
  - wlp_steps. split; [by split|left]. split; [done|]. by exists l.
Qed.
End ops.
