(* ===== verification/ProcessLife.v ===== *)
(** * Exit, reaping and waiting *)

From S2P Require Import Prelude Layout KString PageAlloc PageAllocSpec PageIface Vm Proc ProcessVm Sched Fs FsSpec FsOps.
From S2P Require Import FsProps Process ProcessSpec.

Section life.
Context {L : Layout} {P : Type} {PO : PageOps P} {RE : ResumeEntry} {EX : Ext4Ops}.
Implicit Types k : kernel_state P.

(** ** Yield *)
Lemma same_but_budget_fields p q : same_but_budget p q →
  pid q = pid p ∧ state q = state p ∧ parent_pid q = parent_pid p ∧ exit_status q = exit_status p ∧ fds q = fds p.
Proof. intros [-> _]. done. Qed.

Lemma Forall2_lookup_some {A B} (R : A → B → Prop) l l' i x :
  Forall2 R l l' → l !! i = Some x → ∃ y, l' !! i = Some y ∧ R x y.
Proof. intros HF Hi. by eapply Forall2_lookup_l. Qed.

(** After a yield the idle process or a runnable one has the hart. *)
Definition hart_taken k k' : Prop :=
  k_cur k' = idle_proc (k_sched k) ∨ ∃ p, k_procs k' !! k_cur k' = Some p ∧ is_schedulable p = true.

(** Of the memory only the register [satp] may have changed. *)
Definition vm_kept k k' : Prop := k_vm k' = set_csr_satp (csr_satp (k_vm k')) (k_vm k).

(** The file system does not see the time slices. *)
Lemma fs_ok_budget f s : fs_ok f → sched_ok s → Forall2 same_but_budget (procs (fs_sched f)) (procs s) → fs_ok (set_fs_sched s f).
Proof.
  intros [? ? ? ? Hf ?] Hs H2. split; try done. cbn. apply Forall_lookup. intros i q Hi.
  destruct (Forall2_lookup_r _ _ _ _ _ H2 Hi) as (p & Hp & (_ & _ & _ & _ & Hfd)%same_but_budget_fields).
  pose proof (Forall_lookup_1 _ _ _ _ Hf Hp) as Hpf. unfold proc_fds_ok in *. by rewrite Hfd.
Qed.

Lemma wp_do_yield k (Q : unit → kernel_state P → Prop) :
  kernel_ok k →
  (∀ k', kernel_ok k' → inodes (k_fs k') = inodes (k_fs k) → idle_proc (k_sched k') = idle_proc (k_sched k) →
     Forall2 same_but_budget (k_procs k) (k_procs k') →
     hart_taken k k' → vm_kept k k' → Q tt k') →
  wp do_yield Q k.
Proof.
  intros Hk HQ. pose proof Hk as [Hfs Ht]. pose proof (yield_spec (k_sched k) (fo_sched _ Hfs)) as Hy. cbn zeta in Hy.
  destruct Hy as (Hs & Hidle & H2 & _ & _ & Hch & _). unfold do_yield. apply wp_modify. cbv zeta.
  set (s := yield (k_sched k)) in *.
  assert (Hok : kernel_ok (set_k_sched s k)).
  { split.
    - by apply fs_ok_budget.
    - intros i q Hi Hq. destruct (Forall2_lookup_r _ _ _ _ _ H2 Hi) as (p & Hp & (Hpid & Hst & _)%same_but_budget_fields).
      rewrite Hpid. apply Ht; [done|congruence]. }
  assert (Hcur : current_proc s = idle_proc (k_sched k) ∨ ∃ p, procs s !! current_proc s = Some p ∧ is_schedulable p = true).
  { destruct Hch as [[_ ?]|(_ & p & Hp & He & _)]; [by left|right]. rewrite Nat2Z.id in Hp. exists p. split; [done|].
    unfold is_eligible_for_pick in He. by apply andb_true_iff in He as [? _]. }
  case_bool_decide; apply HQ; try done; [|by destruct Hok]. unfold vm_kept. cbn. by destruct (k_vm k).
Qed.

(** ** Exit *)

Definition clear_fd (d : file_desc) : file_desc := if fd_used d then zero_fd else d.

Lemma fs_close_used s p fd d :
  procs (fs_sched s) !! cur s = Some p → 0 ≤ fd < 16 → aget (fds p) fd = Some d → fd_used d = true →
  fs_close fd s = Done (0, upd_fd fd zero_fd s).
Proof.
  intros Hp Hfd Hd Hu. unfold fs_close, get_open_fd, valid_fd_index, FD_MAX, kbind, cur_fds.
  destruct (Z.leb_spec 0 fd), (Z.ltb_spec fd 16); try lia. simpl. rewrite Hp, Hd. unfold kret. by rewrite Hu.
Qed.

Lemma alter_insert {A} (f : A → A) (l : list A) i x : l !! i = Some x → alter f i l = <[i := f x]> l.
Proof.
  revert i. induction l as [|y l IH]; intros [|i] Hi; try done; cbn in *.
  - by injection Hi as ->.
  - f_equal. by apply IH.
Qed.

Lemma close_all_spec n : ∀ (f : nat) k p,
  k_procs k !! k_cur k = Some p → length (fds p) = 16%nat → (f + n = 16)%nat →
  close_all n f k = Done (tt, set_k_procs (<[k_cur k :=
    set_fds (take f (fds p) ++ (clear_fd <$> drop f (fds p))) p]> (k_procs k)) k).
Proof.
  induction n as [|n IH]; intros f k p Hp Hl Hf.
  - simpl. unfold kret. rewrite take_ge, drop_ge by lia. simpl. rewrite app_nil_r, list_insert_id; [by rewrite set_k_procs_id|].
    rewrite Hp. by destruct p.
  - destruct (lookup_lt_is_Some_2 (fds p) f) as [d Hd]; [lia|].
    assert (Hstep : ∃ k1, (if fd_used d then do! on_fs (fs_close f) in kret tt else kret tt) k = Done (tt, k1) ∧
      k1 = set_k_procs (<[k_cur k := set_fds (<[f := clear_fd d]> (fds p)) p]> (k_procs k)) k).
    { unfold clear_fd. destruct (fd_used d) eqn:Hu.
      - eexists. split; [|done]. unfold on_fs, zoom, kbind. rewrite (fs_close_used (k_fs k) p f d); try done; [|lia|by rewrite aget_of_nat].
        unfold kret, upd_fd, set_k_procs, set_k_sched. rewrite (alter_insert _ _ _ p Hp). by rewrite aset_of_nat.
      - exists k. split; [done|]. rewrite (list_insert_id (fds p)) by done. rewrite list_insert_id; [by rewrite set_k_procs_id|].
        rewrite Hp. by destruct p. }
    destruct Hstep as (k1 & Hrun & ->). cbn [close_all]. unfold kbind at 1, cur_index. unfold kbind at 1, get_proc. rewrite Hp.
    rewrite aget_of_nat, Hd. unfold kbind at 1. rewrite Hrun. cbv beta iota.
    replace (Z.of_nat f + 1) with (Z.of_nat (S f)) by lia.
    rewrite (IH (S f) _ (set_fds (<[f := clear_fd d]> (fds p)) p)); cbn; [|by apply list_lookup_insert_eq; eapply lookup_lt_Some|by rewrite length_insert|lia].
    do 2 f_equal. rewrite set_k_procs_twice, list_insert_insert_eq. do 2 f_equal.
    assert (Hfl : (f < length (fds p))%nat) by lia.
    rewrite drop_insert_lt by lia. rewrite (drop_S (fds p) d f Hd). cbn [fmap list_fmap].
    rewrite (take_S_r _ f (clear_fd d)) by (by apply list_lookup_insert_eq). rewrite take_insert_ge by lia.
    by rewrite <-app_assoc.
Qed.

(** What [proc_exit] of process [me] with parent [ppid] makes of the process
    [p] in slot [i]. *)
Definition exit_process (me : nat) (ppid status : Z) (i : nat) (p : process) : process :=
  if decide (i = me) then set_state PROC_ZOMBIE (set_exit_status status (set_fds (clear_fd <$> fds p) p))
  else if decide (state p = PROC_BLOCKED ∧ pid p = ppid) then set_state PROC_RUNNABLE p
  else p.

(** After an exit every slot holds just that process, but for its time slice,
    and the one that exited has no open descriptor; the files, the memory and
    the idle process are as before. *)
Definition exit_post (k : kernel_state P) (me : process) (status : Z) (k' : kernel_state P) : Prop :=
  kernel_ok k' ∧ inodes (k_fs k') = inodes (k_fs k) ∧ vm_kept k k' ∧
  (∀ i p, k_procs k !! i = Some p → ∃ p', k_procs k' !! i = Some p' ∧
     same_but_budget (exit_process (k_cur k) (parent_pid me) status i p) p' ∧
     (i = k_cur k → Forall (λ d, fd_used d = false) (fds p'))) ∧
  idle_proc (k_sched k') = idle_proc (k_sched k) ∧ hart_taken k k' ∧
  (idle_proc (k_sched k) ≠ k_cur k → k_cur k' ≠ k_cur k).

Lemma exit_slot_me k me status k' p :
  exit_post k me status k' → k_procs k !! k_cur k = Some p →
  ∃ p', k_procs k' !! k_cur k = Some p' ∧ pid p' = pid p ∧ parent_pid p' = parent_pid p ∧
    state p' = PROC_ZOMBIE ∧ exit_status p' = status.
Proof.
  intros (_ & _ & _ & Hsl & _) Hp. destruct (Hsl _ p Hp) as (p' & Hp' & Hs & _). exists p'. split; [done|].
  unfold exit_process in Hs. rewrite decide_True in Hs by done.
  by apply same_but_budget_fields in Hs as (-> & -> & -> & -> & _).
Qed.

Lemma exit_slot_other k me status k' i p :
  exit_post k me status k' → i ≠ k_cur k → k_procs k !! i = Some p →
  ∃ p', k_procs k' !! i = Some p' ∧ pid p' = pid p ∧
    state p' = if decide (state p = PROC_BLOCKED ∧ pid p = parent_pid me) then PROC_RUNNABLE else state p.
Proof.
  intros (_ & _ & _ & Hsl & _) Hne Hp. destruct (Hsl _ p Hp) as (p' & Hp' & Hs & _). exists p'. split; [done|].
  unfold exit_process in Hs. rewrite decide_False in Hs by done.
  apply same_but_budget_fields in Hs as (-> & -> & _). by destruct (decide _).
Qed.

(** The wake-up of the parent, on a table in which the caller is a zombie. *)
Definition wake_parent (l : list process) (ppid : Z) : list process :=
  match find_process_by_pid l ppid with
  | None => l
  | Some j =>
      match l !! j with
      | Some q => if bool_decide (state q = PROC_BLOCKED) then <[j := set_state PROC_RUNNABLE q]> l else l
      | None => l
      end
  end.

Lemma wake_parent_spec l ppid i p :
  table_ok l → l !! i = Some p →
  wake_parent l ppid !! i = Some (if decide (state p = PROC_BLOCKED ∧ pid p = ppid) then set_state PROC_RUNNABLE p else p).
Proof.
  intros Ht Hi. unfold wake_parent. pose proof (find_process_by_pid_spec l ppid Ht) as Hf.
  destruct (find_process_by_pid l ppid) as [j|].
  - destruct Hf as (q & Hj & Hq & Hpid). rewrite Hj. destruct (decide (i = j)) as [->|Hne].
    + rewrite Hi in Hj. injection Hj as ->. case_bool_decide as Hb.
      * rewrite decide_True by done. apply list_lookup_insert_eq. by eapply lookup_lt_Some.
      * by rewrite decide_False by tauto.
    + rewrite decide_False.
      * case_bool_decide; [by rewrite list_lookup_insert_ne|done].
      * intros [Hb Hpp]. destruct Hne. apply (pid_unique l i j p q); try done; congruence.
  - rewrite decide_False; [done|]. intros [Hb Hpp]. apply (Hf i p); try done. by rewrite Hb.
Qed.

Lemma wake_parent_ok k ppid :
  kernel_ok k → kernel_ok (set_k_procs (wake_parent (k_procs k) ppid) k).
Proof.
  intros Hk. unfold wake_parent. destruct (find_process_by_pid _ _) as [j|]; [|by rewrite set_k_procs_id].
  destruct (k_procs k !! j) as [q|] eqn:Hj; [|by rewrite set_k_procs_id].
  case_bool_decide as Hb; [|by rewrite set_k_procs_id]. apply kernel_ok_put; [done| |].
  - pose proof (proc_fds_lookup k j q Hk Hj) as H. done.
  - intros _. apply (ko_table k Hk j q Hj). by rewrite Hb.
Qed.

Lemma cleared_fds l p : proc_fds_ok l p → proc_fds_ok l (set_fds (clear_fd <$> fds p) p).
Proof.
  intros [Hl Hf]. split; cbn; [by rewrite length_fmap|]. apply Forall_fmap. eapply Forall_impl; [exact Hf|].
  intros d Hd Hu. cbn in *. unfold clear_fd in *. destruct (fd_used d) eqn:E; [done|congruence].
Qed.

Lemma clear_all_unused l : Forall (λ d, fd_used d = false) (clear_fd <$> l).
Proof. apply Forall_fmap, Forall_true. intros d. cbn. unfold clear_fd. by destruct (fd_used d) eqn:E. Qed.

Lemma proc_exit_spec k me status :
  kernel_ok k → k_procs k !! k_cur k = Some me → state me ≠ PROC_UNUSED →
  wp (proc_exit status) (λ _ k', exit_post k me status k') k.
Proof.
  intros Hk Hme Hlive. pose proof (proc_fds_lookup k _ me Hk Hme) as Hfd. pose proof Hfd as [Hlen _].
  unfold proc_exit. wp_step. eapply wp_done; [by apply (close_all_spec 16 0 k me)|]. cbn [take app drop].
  set (me1 := set_fds (clear_fd <$> fds me) me). set (k1 := set_k_procs _ k).
  assert (Hcl : (k_cur k < length (k_procs k))%nat) by (by eapply lookup_lt_Some).
  wp_step. eapply wp_done; [done|]. wp_step. eapply (wp_get_proc _ me1); [by apply list_lookup_insert_eq|].
  wp_step. unfold put_proc. wp_step. set (me2 := set_state PROC_ZOMBIE (set_exit_status status me1)).
  set (l2 := <[k_cur k := me2]> (k_procs k)).
  assert (Hk2 : set_k_procs (<[k_cur k1 := me2]> (k_procs k1)) k1 = set_k_procs l2 k).
  { unfold k1. rewrite set_k_procs_twice. cbn. by rewrite list_insert_insert_eq. }
  rewrite Hk2. clear Hk2. set (k2 := set_k_procs l2 k).
  assert (Hok2 : kernel_ok k2).
  { apply kernel_ok_put; [done|by apply (cleared_fds _ me)|]. intros _. by apply (ko_table k Hk (k_cur k) me). }
  do 3 wp_step. apply wp_mono with (λ _ k3, k3 = set_k_procs (wake_parent l2 (parent_pid me)) k2).
  { change (k_procs k2) with l2. change (parent_pid me1) with (parent_pid me). unfold wake_parent.
    pose proof (find_process_by_pid_spec l2 (parent_pid me) (ko_table _ Hok2)) as Hf.
    destruct (find_process_by_pid l2 (parent_pid me)) as [j|]; [|by wp_steps].
    destruct Hf as (q & Hj & _). rewrite Hj. wp_step. eapply (wp_get_proc j q); [done|].
    case_bool_decide; [|wp_steps; by destruct k as [? [? ? ? []] ?]]. unfold put_proc. by wp_steps. }
  intros _ k3 ->. apply wp_do_yield; [by apply wake_parent_ok|]. intros k4 Hok4 Hino Hidle H2 Hcur Hvm.
  split_and!; [done|done|done| |done|done|].
  - intros i p Hi. pose proof (Forall2_lookup_some same_but_budget (wake_parent l2 (parent_pid me)) (k_procs k4) i) as Hfl.
    assert (Hl2 : l2 !! i = Some (if decide (i = k_cur k) then me2 else p)).
    { unfold l2. destruct (decide (i = k_cur k)) as [->|Hne]; [by apply list_lookup_insert_eq|by rewrite list_lookup_insert_ne]. }
    pose proof (wake_parent_spec l2 (parent_pid me) i _ (ko_table _ Hok2) Hl2) as Hw.
    destruct (Hfl _ H2 Hw) as (p' & Hp' & Hsame). exists p'. split; [done|]. unfold exit_process.
    destruct (decide (i = k_cur k)) as [->|Hne]; [|by split].
    rewrite Hme in Hi. injection Hi as <-. rewrite decide_False in Hsame by (by intros [? _]). split; [done|]. intros _.
    apply same_but_budget_fields in Hsame as (_ & _ & _ & _ & ->). apply clear_all_unused.
  - intros Hid Heq. destruct Hcur as [Hc|(q & Hq & Hsch)]; [destruct Hid; rewrite <-Heq; symmetry; exact Hc|].
    rewrite Heq in Hq.
    assert (Hl2 : l2 !! k_cur k = Some me2) by (by apply list_lookup_insert_eq).
    pose proof (wake_parent_spec l2 (parent_pid me) _ _ (ko_table _ Hok2) Hl2) as Hw.
    rewrite decide_False in Hw by (by intros [? _]).
    destruct (Forall2_lookup_some _ _ _ _ _ H2 Hw) as (q' & Hq' & Hsame).
    rewrite Hq in Hq'. injection Hq' as <-. by rewrite (same_but_budget_sched _ _ Hsame) in Hsch.
Qed.
End life.
