(* ===== verification/ProcessProps.v ===== *)
(** * The process life cycle: theorems *)

From S2P Require Import Prelude Layout KString PageAlloc PageAllocSpec PageIface Vm Proc ProcessVm Sched Fs FsSpec FsOps.
From S2P Require Import FsProps Process ProcessSpec ProcessLife.

Section props.
Context {L : Layout} {P : Type} {PO : PageOps P} {RE : ResumeEntry} {EX : Ext4Ops}.
Implicit Types k : kernel_state P.

(** ** Waiting *)

(** [p] is a child of [me] that [waitpid(pid_)] waits for. *)
Definition waited (me pid_ : Z) (p : process) : Prop :=
  state p ≠ PROC_UNUSED ∧ parent_pid p = me ∧ (0 < pid_ → pid p = pid_).

Definition some_waited (k : kernel_state P) (me pid_ : Z) (from : nat) : Prop :=
  ∃ j p, (from ≤ j)%nat ∧ k_procs k !! j = Some p ∧ waited me pid_ p.
Definition none_zombie (k : kernel_state P) (me pid_ : Z) (from : nat) : Prop :=
  ∀ j p, (from ≤ j)%nat → k_procs k !! j = Some p → waited me pid_ p → state p ≠ PROC_ZOMBIE.
(** A zombie child is taken out of the table. *)
Definition reaped (k : kernel_state P) (me pid_ rp status : Z) (k' : kernel_state P) : Prop :=
  ∃ j p, k_procs k !! j = Some p ∧ waited me pid_ p ∧ state p = PROC_ZOMBIE ∧ rp = pid p ∧ status = exit_status p ∧
    ∃ v, k' = set_k_procs (<[j := zero_process]> (k_procs k)) (set_k_vm v k).

Lemma waitpid_scan_spec n : ∀ i k me pid_ has_child,
  (i + n = length (k_procs k))%nat →
  wlp (waitpid_scan n i me pid_ has_child) (λ r k',
    match r with
    | NotReaped h => k' = k ∧ (h = true ↔ has_child = true ∨ some_waited k me pid_ i) ∧ none_zombie k me pid_ i
    | Reaped rp status => reaped k me pid_ rp status k'
    end) k.
Proof.
  induction n as [|n IH]; intros i k me pid_ hc Hin; cbn [waitpid_scan].
  - wlp_steps. split_and!; [done| |].
    + split; [by left|]. intros [?|(j & p & Hj & Hp%lookup_lt_Some & _)]; [done|lia].
    + intros j p Hj Hp%lookup_lt_Some. lia.
  - wlp_step. apply wlp_get_proc. intros p Hp.
    assert (Hstep : ∀ b : bool, (b = true ↔ hc = true ∨ waited me pid_ p) → (waited me pid_ p → state p ≠ PROC_ZOMBIE) →
      wlp (waitpid_scan n (S i) me pid_ b) (λ r k',
        match r with
        | NotReaped h => k' = k ∧ (h = true ↔ hc = true ∨ some_waited k me pid_ i) ∧ none_zombie k me pid_ i
        | Reaped rp status => reaped k me pid_ rp status k'
        end) k).
    { intros b Hb Hz. eapply wlp_mono; [apply IH; lia|]. cbv beta. intros [rp st|h] k'; [done|].
      intros (-> & Hh & Hno). split_and!; [done| |].
      - rewrite Hh, Hb. unfold some_waited. split.
        + intros [[?|Hw]|(j & q & Hj & Hq & Hw)]; [by left|right; exists i, p; split_and!; [lia|done..]|].
          right. exists j, q. split; [lia|done].
        + intros [?|(j & q & Hj & Hq & Hw)]; [by left; left|]. destruct (decide (j = i)) as [->|].
          * rewrite Hp in Hq. injection Hq as <-. by left; right.
          * right. exists j, q. split; [lia|done].
      - intros j q Hj Hq Hw. destruct (decide (j = i)) as [->|]; [|by apply (Hno j q); [lia|..]].
        rewrite Hp in Hq. injection Hq as <-. by apply Hz. }
    assert (Hskip : ¬ waited me pid_ p → wlp (waitpid_scan n (S i) me pid_ hc) _ k)
      by (intros Hn; apply Hstep; [split; [by left|intros [?|?]; done]|done]).
    case_bool_decide as Hu; cbn [orb]; [apply Hskip; unfold waited; tauto|].
    destruct (Z.eqb_spec (parent_pid p) me) as [Hpar|Hpar]; cbn [negb]; [|apply Hskip; unfold waited; tauto].
    destruct ((0 <? pid_) && negb (pid p =? pid_)) eqn:Hpid.
    { apply andb_true_iff in Hpid as [Hpos%Z.ltb_lt Hne%negb_true_iff%Z.eqb_neq]. apply Hskip. unfold waited. tauto. }
    assert (Hw : waited me pid_ p).
    { split_and!; try done. intros Hpos%Z.ltb_lt. rewrite Hpos in Hpid. by apply negb_false_iff, Z.eqb_eq in Hpid. }
    case_bool_decide as Hz; cbn [negb].
    + wlp_step. unfold reap. apply reset_spec. intros v. wlp_steps. exists i, p. split_and!; try done. by exists v.
    + apply Hstep; [|done]. split; [by right|done].
Qed.

(** What a call, or a later round, of [proc_waitpid] does. *)
Definition wait_post (k : kernel_state P) (me : process) (pid_ options : Z) (r : wait_result) (k' : kernel_state P) : Prop :=
  match r with
  | WaitReturn r (Some status) => reaped k (pid me) pid_ r status k'
  | WaitReturn r None => k' = k ∧
      ((r = -1 ∧ ¬ some_waited k (pid me) pid_ 0) ∨
       (r = 0 ∧ has_bits options WNOHANG = true ∧ some_waited k (pid me) pid_ 0 ∧ none_zombie k (pid me) pid_ 0))
  | WaitSleep => has_bits options WNOHANG = false ∧ some_waited k (pid me) pid_ 0 ∧ none_zombie k (pid me) pid_ 0 ∧
      (∀ i p, k_procs k !! i = Some p → ∃ p', k_procs k' !! i = Some p' ∧ pid p' = pid p ∧ parent_pid p' = parent_pid p ∧
        state p' = if decide (i = k_cur k) then PROC_BLOCKED else state p) ∧
      idle_proc (k_sched k') = idle_proc (k_sched k) ∧ hart_taken k k'
  end.

Lemma waitpid_round_spec k me pid_ options :
  kernel_ok k → k_procs k !! k_cur k = Some me → state me ≠ PROC_UNUSED →
  wlp (waitpid_round pid_ options) (λ r k', kernel_ok k' ∧ wait_post k me pid_ options r k') k.
Proof.
  intros Hk Hme Hlive. unfold waitpid_round. wlp_step. unfold wlp at 1, cur_index. wlp_step.
  apply wlp_get_proc. intros me' Hme'. rewrite Hme in Hme'. injection Hme' as <-. wlp_step.
  eapply wlp_mono; [apply (waitpid_scan_spec 8 0 k (pid me) pid_ false)|].
  { symmetry. apply (length_procs (k_fs k)), Hk. }
  cbv beta. intros [rp st|h] k1.
  { intros Hr. wlp_steps. split; [|done]. destruct Hr as (j & p & _ & _ & _ & _ & _ & v & ->).
    apply (kernel_ok_zero (set_k_vm v k)). by destruct Hk. }
  intros (-> & Hh & Hz). destruct h; cbn [negb].
  - assert (Hs : some_waited k (pid me) pid_ 0) by (destruct (proj1 Hh eq_refl); done).
    destruct (has_bits options WNOHANG) eqn:Hn; [wlp_steps; split; [done|]; split; [done|by right]|].
    wlp_step. apply wlp_get_proc. intros me' Hme'. rewrite Hme in Hme'. injection Hme' as <-.
    wlp_step. apply wlp_put_proc. wlp_step. apply wp_wlp, wp_do_yield.
    { apply kernel_ok_put; [done|by apply (proc_fds_lookup k (k_cur k) me Hk)|]. intros _. by apply (ko_table k Hk _ me). }
    intros k' Hok' Hin Hid H2 Hcur _. wlp_steps. split; [done|]. split_and!; try done. intros i p Hi.
    assert (Hi2 : <[k_cur k := set_state PROC_BLOCKED me]> (k_procs k) !! i =
      Some (if decide (i = k_cur k) then set_state PROC_BLOCKED me else p)).
    { destruct (decide (i = k_cur k)) as [->|Hne]; [|by rewrite list_lookup_insert_ne].
      apply list_lookup_insert_eq. by eapply lookup_lt_Some. }
    destruct (Forall2_lookup_some _ _ _ _ _ H2 Hi2) as (p' & Hp' & (Epid & Est & Epar & _)%same_but_budget_fields).
    exists p'. split; [done|]. rewrite Epid, Est, Epar. destruct (decide (i = k_cur k)) as [->|]; [|done].
    rewrite Hme in Hi. by injection Hi as <-.
  - wlp_steps. split; [done|]. split; [done|left]. split; [done|]. intros Hs. by specialize (proj2 Hh (or_intror Hs)).
Qed.

(** ** Every step of the kernel on processes *)

(** A step: a call of this component, of the file system or of the address-space
    component by the running process, or a yield.  The idle process does not
    exit. *)
Inductive kstep (k k' : kernel_state P) : Prop :=
| StepCreate pc r : create_process pc k = Done (r, k') → kstep k k'
| StepCreateUser entry r : create_user_process entry k = Done (r, k') → kstep k k'
| StepFork r : proc_fork k = Done (r, k') → kstep k k'
| StepExec ld ld32 entry argv r : proc_exec ld ld32 entry argv k = Done (r, k') → kstep k k'
| StepExit status r : k_cur k ≠ idle_proc (k_sched k) → proc_exit status k = Done (r, k') → kstep k k'
| StepReap r : proc_reap_orphan_zombies k = Done (r, k') → kstep k k'
| StepWait pid_ options r : proc_waitpid pid_ options k = Done (r, k') → kstep k k'
| StepWaitResume pid_ options r : waitpid_resume pid_ options k = Done (r, k') → kstep k k'
| StepYield r : do_yield k = Done (r, k') → kstep k k'
| StepFs op r : op_ok op → (∀ i, op ≠ ORun i) → on_fs (fs_do op) k = Done (r, k') → kstep k k'
| StepSpace v l p : k_procs k !! k_cur k = Some p →
    k' = set_k_procs (<[k_cur k := set_vmas l p]> (k_procs k)) (set_k_vm v k) → kstep k k'.

(** Neither unused nor a zombie. *)
Definition active (p : process) : Prop := state p ≠ PROC_UNUSED ∧ state p ≠ PROC_ZOMBIE.
Definition active_at (k : kernel_state P) (i : nat) : Prop := ∃ p, k_procs k !! i = Some p ∧ active p.

Record kernel_inv (k : kernel_state P) : Prop := {
  ki_ok : kernel_ok k;
  ki_cur : active_at k (k_cur k);
  ki_idle : active_at k (idle_proc (k_sched k));
}.

(** An operation that leaves the running process running. *)
Lemma inv_frame k k' :
  kernel_inv k → kernel_ok k' → k_cur k' = k_cur k → idle_proc (k_sched k') = idle_proc (k_sched k) →
  (∀ i, active_at k i → active_at k' i) → kernel_inv k'.
Proof. intros [_ Hc Hi] Hok Hcur Hidle Ha. split; [done|rewrite Hcur; auto|rewrite Hidle; auto]. Qed.

(** An operation that ends with a yield. *)
Lemma inv_yield k k' :
  kernel_inv k → kernel_ok k' → idle_proc (k_sched k') = idle_proc (k_sched k) → hart_taken k k' →
  active_at k' (idle_proc (k_sched k)) → kernel_inv k'.
Proof.
  intros Hk Hok Hidle Hh Ha. split; [done| |by rewrite Hidle].
  destruct Hh as [->|(p & Hp & Hs)]; [done|]. exists p. split; [done|].
  unfold is_schedulable in Hs. apply andb_true_iff in Hs as [Hs%bool_decide_eq_true _]. unfold active. by rewrite Hs.
Qed.

(** Changing a slot keeps the others active, and itself if the new process is. *)
Lemma active_insert k k' j q :
  k_procs k' = <[j := q]> (k_procs k) → (active_at k j → active q) →
  ∀ i, active_at k i → active_at k' i.
Proof.
  intros Hl Hq i (p & Hp & Ha). destruct (decide (i = j)) as [->|Hne].
  - exists q. rewrite Hl. split; [apply list_lookup_insert_eq; by eapply lookup_lt_Some|]. apply Hq. by exists p.
  - exists p. by rewrite Hl, list_lookup_insert_ne.
Qed.

Lemma active_same k k' : k_procs k' = k_procs k → ∀ i, active_at k i → active_at k' i.
Proof. unfold active_at. by intros ->. Qed.

Lemma not_active_at k j p : k_procs k !! j = Some p → ¬ active p → ∀ q, active_at k j → active q.
Proof. intros Hp Hn q (p' & Hp' & Ha). rewrite Hp in Hp'. by injection Hp' as <-. Qed.

Lemma slot_filled_inv k k' r good :
  kernel_inv k → slot_filled k k' r good →
  (∀ i p, good i p → pid p = i + 1 ∧ proc_fds_ok (inodes (k_fs k)) p) → kernel_inv k'.
Proof.
  intros Hk [[Hfs] Hr] Hgood.
  assert (Hact : ∀ i, active_at k i → active_at k' i).
  { destruct r as [i|].
    - destruct Hr as (p & p' & Hp & Hu & Hl & _). eapply active_insert; [exact Hl|].
      eapply not_active_at; [exact Hp|]. by intros [? _].
    - destruct Hr as [Hl|(i & p & Hp & Hu & Hl)]; [by apply active_same|]. eapply active_insert; [exact Hl|].
      eapply not_active_at; [exact Hp|]. by intros [? _]. }
  assert (Hok : kernel_ok (set_k_procs (k_procs k') k)).
  { pose proof (ki_ok k Hk). destruct r as [i|].
    - destruct Hr as (p & p' & _ & _ & -> & (Hpid & Hfd)%Hgood). by apply kernel_ok_put.
    - destruct Hr as [->|(i & p & _ & _ & ->)]; [by rewrite set_k_procs_id|by apply kernel_ok_zero]. }
  apply (inv_frame k); [done| |by rewrite Hfs|by rewrite Hfs|done].
  destruct Hok as [Hok1 Hok2]. rewrite <-Hfs in Hok1. by split.
Qed.

(** Taking a zombie out of the table. *)
Lemma reaped_inv k j p v :
  kernel_inv k → k_procs k !! j = Some p → state p = PROC_ZOMBIE →
  kernel_inv (set_k_procs (<[j := zero_process]> (k_procs k)) (set_k_vm v k)).
Proof.
  intros Hk Hp Hz. apply (inv_frame k); [done| |done|done|].
  - apply (kernel_ok_zero (set_k_vm v k)). by destruct (ki_ok k Hk).
  - eapply active_insert; [done|]. eapply not_active_at; [exact Hp|]. by intros [_ ?].
Qed.

Lemma reap_orphans_inv n : ∀ i k, kernel_inv k → wlp (reap_orphans n i) (λ _ k', kernel_inv k') k.
Proof.
  induction n as [|n IH]; intros i k Hk; cbn [reap_orphans]; [by wlp_steps|].
  do 3 wlp_step. apply wlp_get_proc. intros p Hp. wlp_step.
  eapply (wlp_mono _ (λ _ k', kernel_inv k')); [|intros [] k' Hk'; by apply IH].
  case_bool_decide; [by wlp_steps|]. case_bool_decide as Hz; cbn [negb orb]; [|by wlp_steps].
  destruct (_ || _); [by wlp_steps|]. apply reset_spec. intros v. by apply (reaped_inv k i p).
Qed.

Lemma wait_inv k me pid_ options r k' :
  kernel_inv k → k_procs k !! k_cur k = Some me → kernel_ok k' → wait_post k me pid_ options r k' → kernel_inv k'.
Proof.
  intros Hk Hme Hok. destruct r as [r [st|]|]; cbn.
  - intros (j & p & Hp & _ & Hz & _ & _ & v & ->). by apply (reaped_inv k j p).
  - by intros [-> _].
  - intros (_ & _ & _ & Hsl & Hidle & Hh). apply (inv_yield k); try done.
    destruct (ki_idle k Hk) as (p & Hp & Ha). destruct (Hsl _ p Hp) as (p' & Hp' & _ & _ & Hst).
    exists p'. split; [done|]. unfold active. rewrite Hst. by destruct (decide _).
Qed.

Lemma waitpid_round_inv k pid_ options :
  kernel_inv k → wlp (waitpid_round pid_ options) (λ _ k', kernel_inv k') k.
Proof.
  intros Hk. destruct (ki_cur k Hk) as (me & Hme & Hlive & _).
  eapply wlp_mono; [apply (waitpid_round_spec k me); [apply Hk|done|done]|].
  intros r k' [Hok Hpost]. by eapply wait_inv.
Qed.

Lemma fs_do_frame op s :
  fs_ok s → op_ok op → (∀ i, op ≠ ORun i) → wp (fs_do op) (λ _ s', fs_ok s' ∧ fs_frame s s') s.
Proof.
  intros Hok Hop Hrun. destruct op; cbn [fs_do op_ok] in *; [wp_step..|by destruct (Hrun k)].
  - eapply wp_mono; [by apply fs_open_spec|]. intros r s' (? & ? & _). by wp_step.
  - eapply wp_mono; [by apply fs_close_spec|]. intros r s' (? & ? & _). by wp_step.
  - eapply wp_mono; [by apply fs_read_spec|]. intros r s' (? & ? & _). by wp_step.
  - destruct Hop as [Hl Hs]. eapply wp_mono; [by apply fs_write_spec|]. intros r s' (? & ? & _). by wp_step.
  - eapply wp_mono; [by apply fs_unlink_spec|]. intros r s' (? & ? & _). by wp_step.
  - eapply wp_mono; [by apply fs_rename_spec|]. intros r s' (? & ? & _). by wp_step.
  - eapply wp_mono; [by apply fs_listdir_spec|]. intros r s' [-> _]. by wp_step.
Qed.

Lemma fs_step_inv k op r k' :
  kernel_inv k → op_ok op → (∀ i, op ≠ ORun i) → on_fs (fs_do op) k = Done (r, k') → kernel_inv k'.
Proof.
  intros Hk Hop Hrun Hd.
  assert (Hw : wp (on_fs (fs_do op)) (λ _ k', k' = set_k_fs (k_fs k') k ∧ fs_ok (k_fs k') ∧ fs_frame (k_fs k) (k_fs k')) k).
  { apply wp_on_fs. eapply wp_mono; [apply fs_do_frame; [apply Hk|done|done]|]. by intros ? s' [? ?]. }
  unfold wp in Hw. rewrite Hd in Hw. destruct Hw as (_ & Hok & [Hc Hi _ H2]).
  assert (Hsame : ∀ i q, k_procs k' !! i = Some q → ∃ p, k_procs k !! i = Some p ∧ state q = state p ∧ pid q = pid p).
  { intros i q Hq. destruct (Forall2_lookup_r _ _ _ _ _ H2 Hq) as (p & Hp & ->). by exists p. }
  apply (inv_frame k); try done.
  - split; [done|]. intros i q Hq Hs. destruct (Hsame i q Hq) as (p & Hp & Hst & ->).
    apply (ko_table k (ki_ok k Hk) i p Hp). by rewrite <-Hst.
  - intros i (p & Hp & Ha). destruct (Forall2_lookup_l _ _ _ _ _ H2 Hp) as (q & Hq & Hpq).
    exists q. split; [done|]. rewrite Hpq. exact Ha.
Qed.

Lemma exit_inv k status r k' :
  kernel_inv k → k_cur k ≠ idle_proc (k_sched k) → proc_exit status k = Done (r, k') → kernel_inv k'.
Proof.
  intros Hk Hne Hd. destruct (ki_cur k Hk) as (me & Hme & Hlive & _).
  pose proof (proc_exit_spec k me status (ki_ok k Hk) Hme Hlive) as Hw. unfold wp in Hw. rewrite Hd in Hw.
  pose proof Hw as (Hok & _ & _ & _ & Hidle & Hh & _). apply (inv_yield k); try done.
  destruct (ki_idle k Hk) as (p & Hp & Ha). destruct (exit_slot_other _ _ _ _ _ p Hw (not_eq_sym Hne) Hp) as (p' & Hp' & _ & Hst).
  exists p'. split; [done|]. unfold active. rewrite Hst. by destruct (decide _).
Qed.

Lemma yield_inv k r k' : kernel_inv k → do_yield k = Done (r, k') → kernel_inv k'.
Proof.
  intros Hk Hd. assert (Hw : wp do_yield (λ _ k', kernel_inv k') k); [|unfold wp in Hw; by rewrite Hd in Hw].
  apply wp_do_yield; [apply Hk|]. intros k1 Hok Hin Hidle H2 Hh _. apply (inv_yield k); try done.
  destruct (ki_idle k Hk) as (p & Hp & Ha). destruct (Forall2_lookup_some _ _ _ _ _ H2 Hp) as (q & Hq & Hpq).
  exists q. split; [done|]. apply same_but_budget_fields in Hpq as (_ & Hst & _). unfold active. by rewrite Hst.
Qed.

Lemma fork_child_ok k parent i p :
  kernel_inv k → k_procs k !! k_cur k = Some parent → child_of parent i p →
  pid p = i + 1 ∧ proc_fds_ok (inodes (k_fs k)) p.
Proof.
  intros Hk Hp [Hpid _ _ _ _ (_ & _ & Hfd) _ _ _]. split; [done|].
  pose proof (proc_fds_lookup k _ parent (ki_ok k Hk) Hp) as Hpf. unfold proc_fds_ok in *. by rewrite Hfd.
Qed.

Lemma fresh_ok user prio i p l : fresh_process user prio i p → pid p = i + 1 ∧ proc_fds_ok l p.
Proof.
  intros (Hpid & _ & _ & _ & _ & _ & Hfd). split; [done|]. unfold proc_fds_ok. rewrite Hfd. apply zero_fds_ok.
Qed.

Lemma exec_inv k ld ld32 entry argv r k' :
  kernel_inv k → proc_exec ld ld32 entry argv k = Done (r, k') → kernel_inv k'.
Proof.
  intros Hk Hd. destruct (ki_cur k Hk) as (me & Hme & Ha).
  destruct (wlp_run _ _ _ _ _ (proc_exec_spec ld ld32 entry argv k me Hme) Hd) as [[Hfs] Hpost].
  assert (Hex : ∃ q, k_procs k' = <[k_cur k := q]> (k_procs k) ∧ state q = state me ∧ pid q = pid me ∧ fds q = fds me).
  { destruct Hpost as [(_ & l & ->)|(_ & _ & _ & argc & l & _ & ->)]; eexists; split_and!; done. }
  destruct Hex as (q & Hl & Hst & Hpid & Hfd).
  apply (inv_frame k); [done| |by rewrite Hfs|by rewrite Hfs|].
  - assert (Hok : kernel_ok (set_k_procs (k_procs k') k)).
    { rewrite Hl. apply kernel_ok_put; [apply Hk| |].
      - pose proof (proc_fds_lookup k _ me (ki_ok k Hk) Hme) as Hpf. unfold proc_fds_ok in *. by rewrite Hfd.
      - rewrite Hst, Hpid. by apply (ko_table k (ki_ok k Hk)). }
    destruct Hok as [Hok1 Hok2]. rewrite <-Hfs in Hok1. by split.
  - eapply active_insert; [exact Hl|]. intros _. unfold active. by rewrite Hst.
Qed.

Lemma kstep_inv k k' : kernel_inv k → kstep k k' → kernel_inv k'.
Proof.
  intros Hk Hs. destruct (ki_cur k Hk) as (me & Hme & Ha). destruct Hs as
    [pc r Hd|entry r Hd|r Hd|ld ld32 entry argv r Hd|st r Hne Hd|r Hd|pid_ opt r Hd|pid_ opt r Hd|r Hd|op r Hop Hrun Hd|v l p Hp ->].
  - pose proof (wlp_run _ _ _ _ _ (wp_wlp _ _ _ (create_process_spec pc k)) Hd) as Hf.
    eapply slot_filled_inv; [done|exact Hf|]. intros i p [Hp _]. by eapply fresh_ok.
  - pose proof (wlp_run _ _ _ _ _ (create_user_process_spec entry k) Hd) as Hf.
    eapply slot_filled_inv; [done|exact Hf|]. intros i p [Hp _]. by eapply fresh_ok.
  - destruct (wlp_run _ _ _ _ _ (proc_fork_spec k me Hme) Hd) as [_ Hf].
    eapply slot_filled_inv; [done|exact Hf|]. intros i p. by apply fork_child_ok.
  - by eapply exec_inv.
  - by eapply exit_inv.
  - exact (wlp_run _ _ _ _ _ (reap_orphans_inv 8 0 k Hk) Hd).
  - revert Hd. unfold proc_waitpid. destruct (negb _); [by intros [= <- <-]|].
    apply (wlp_run _ (λ _ k', kernel_inv k')). by apply waitpid_round_inv.
  - revert Hd. apply (wlp_run _ (λ _ k', kernel_inv k')). unfold waitpid_resume. wlp_step. unfold wlp at 1, cur_index.
    wlp_step. apply wlp_get_proc. intros p Hp. rewrite Hme in Hp. injection Hp as <-. wlp_step. apply wlp_put_proc.
    apply waitpid_round_inv. apply (inv_frame k); [done| |done|done|].
    + apply kernel_ok_put; [apply Hk|by apply (proc_fds_lookup k (k_cur k) me (ki_ok k Hk))|].
      intros _. apply (ko_table k (ki_ok k Hk) _ me Hme), Ha.
    + by eapply active_insert.
  - by eapply yield_inv.
  - by eapply fs_step_inv.
  - rewrite Hme in Hp. injection Hp as <-. apply (inv_frame k); [done| |done|done|].
    + apply (kernel_ok_put (set_k_vm v k)); [by destruct (ki_ok k Hk)|by apply (proc_fds_lookup k (k_cur k) me (ki_ok k Hk))|].
      intros _. apply (ko_table k (ki_ok k Hk) _ me Hme), Ha.
    + eapply (active_insert k); [done|]. intros _. apply Ha.
Qed.

(** ** The theorems *)

(** C24: whatever sequence of process, file and address-space calls and yields the
    kernel goes through, every slot of the process table in use holds the
    process with the pid of the slot, so that no two processes share a pid;
    the files and all descriptor tables, those copied by fork included, stay
    consistent; and neither the running process nor the idle one is ever
    unused or a zombie. *)
Theorem process_table_invariant k k' : kernel_inv k → rtc kstep k k' → kernel_inv k'.
Proof. intros Hk Hs. revert Hk. induction Hs as [|k k1 k2 Hs _ IH]; [done|]. intros Hk. by apply IH, (kstep_inv k k1). Qed.

(** when [proc_fork] returns, it returns either -1, and then the table is as
    before but for an unused slot that may have been cleared, or the pid of a
    new process in a slot that was unused: a runnable copy of the parent with
    the same areas, descriptors, stack and registers, except that the call
    returns 0 in it, and with an address space of its own.  The parent and all
    other processes are unchanged. *)
Theorem proc_fork_correct k parent r k' :
  k_procs k !! k_cur k = Some parent → proc_fork k = Done (r, k') →
  (r = -1 ∨ 1 ≤ r) ∧ slot_filled k k' (fork_slot r) (child_of parent).
Proof. intros Hp Hd. exact (wlp_run _ _ _ _ _ (proc_fork_spec k parent Hp) Hd). Qed.

(** C34: [proc_exit] of a process of a well-formed table always gets to its
    [yield].  Then the process is a zombie with the given status and all its
    descriptors closed, its parent, if it sleeps, is runnable, and nothing else
    of these two and nothing of any other process has changed but for the time
    slices the scheduler hands out (the budget, and a priority below the lowest
    one, which it raises to it).  The files and the memory are as
    before, and so are the page tables but for the register that selects one;
    the hart is with the idle process or with a runnable one and, unless the
    process that exited was itself the idle one, not with that process. *)
Theorem proc_exit_correct k me status :
  kernel_ok k → k_procs k !! k_cur k = Some me → state me ≠ PROC_UNUSED →
  wp (proc_exit status) (λ _ k', exit_post k me status k') k.
Proof. apply proc_exit_spec. Qed.

(** when [proc_waitpid] returns a pid, it is that of a zombie child it was
    asked for, with its exit status, and the slot of the child is free again;
    it returns -1 only without such a child (or for unknown options) and 0 only
    with [WNOHANG] and children none of which is a zombie; it sleeps, blocked,
    only in that case without [WNOHANG]. *)
Theorem proc_waitpid_correct k me pid_ options r k' :
  kernel_ok k → k_procs k !! k_cur k = Some me → state me ≠ PROC_UNUSED →
  proc_waitpid pid_ options k = Done (r, k') →
  kernel_ok k' ∧
  if decide (Z.land options (not32 WNOHANG) = 0) then wait_post k me pid_ options r k'
  else r = WaitReturn (-1) None ∧ k' = k.
Proof.
  intros Hk Hme Hl. unfold proc_waitpid. destruct (Z.eqb_spec (Z.land options (not32 WNOHANG)) 0) as [He|He]; simpl negb.
  - rewrite decide_True by done. apply (wlp_run _ (λ r k', kernel_ok k' ∧ wait_post k me pid_ options r k')).
    by apply waitpid_round_spec.
  - rewrite decide_False by done. by intros [= <- <-].
Qed.

(** The process in slot [j] gets the hart. *)
Definition switch_to (j : nat) (k : kernel_state P) : kernel_state P :=
  set_k_sched (SchedState (k_procs k) j (idle_proc (k_sched k)) (hart_satp (k_sched k))) k.

(** the status of an exit reaches the parent: once the child has exited, a
    [waitpid] of its parent for its pid cannot but return this pid with the
    status of the exit. *)
Theorem exit_status_delivered k me status j parent options :
  kernel_ok k → k_procs k !! k_cur k = Some me → state me ≠ PROC_UNUSED →
  k_procs k !! j = Some parent → active parent → j ≠ k_cur k → pid parent = parent_pid me →
  wp (proc_exit status) (λ _ k1,
    wlp (waitpid_round (pid me) options) (λ r _, r = WaitReturn (pid me) (Some status)) (switch_to j k1)) k.
Proof.
  intros Hk Hme Hl Hj Ha Hne Hpp. eapply wp_mono; [by apply proc_exit_spec|]. intros st1 k1 Hx. destruct (Hx) as [Hok _].
  destruct (exit_slot_me _ _ _ _ me Hx Hme) as (me1 & Hme1 & Epid & Epar & Hz & Hst).
  destruct (exit_slot_other _ _ _ _ j parent Hx Hne Hj) as (par1 & Hpar1 & Ppid & Hps).
  assert (Hok2 : kernel_ok (switch_to j k1)).
  { destruct Hok as [[? ? ? [? ? ?] ? ?] ?]. split; [|done]. split; try done. split; try done. cbn.
    apply lookup_lt_Some in Hpar1. lia. }
  assert (Hlive : state par1 ≠ PROC_UNUSED) by (rewrite Hps; destruct (decide _); [done|apply Ha]).
  assert (Hpos : 0 < pid me) by (rewrite (ko_table k Hk _ me Hme Hl); lia).
  assert (Hw : waited (pid par1) (pid me) me1) by (split_and!; [by rewrite Hz|congruence|congruence]).
  eapply wlp_mono; [by apply (waitpid_round_spec (switch_to j k1) par1)|].
  intros r k2 [_ Hpost]. destruct r as [r [st|]|]; cbn in Hpost.
  - destruct Hpost as (i & p & Hi & (Hu & _ & Hpid) & _ & -> & -> & _). specialize (Hpid Hpos).
    assert (i = k_cur k) as ->.
    { apply (pid_unique (k_procs k1) i (k_cur k) p me1); [apply Hok|done|done|done|by rewrite Hz|congruence]. }
    change (k_procs (switch_to j k1)) with (k_procs k1) in Hi. rewrite Hme1 in Hi. injection Hi as <-.
    by rewrite Hpid, Hst.
  - exfalso. destruct Hpost as [_ [[_ Hn]|(_ & _ & _ & Hn)]].
    + apply Hn. exists (k_cur k), me1. split_and!; [lia|done..].
    + apply (Hn (k_cur k) me1); [lia|done..].
  - exfalso. destruct Hpost as (_ & _ & Hn & _). apply (Hn (k_cur k) me1); [lia|done..].
Qed.
End props.

(** ** Concrete instances *)

(** Page operations for the examples: addresses are handed out in order and
    the contents of memory are not looked at. *)
Definition counting_pages : PageOps Z := {|
  pg_alloc := λ n p, Done (p, p + n * 4096);
  pg_free := λ _ _, kret tt; pg_inc := λ _, kret tt; pg_dec := λ _, kret tt;
  pg_mem := λ _, ∅; pg_set_mem := λ _ p, p |}.

Section demo.
#[local] Existing Instance demo_layout.
#[local] Existing Instance no_ext4.
#[local] Existing Instance counting_pages.
#[local] Instance demo_resume : ResumeEntry := {| arch_resume_from_trap := 2149584896 |}.

Lemma outcome_done {A S} (o : outcome (A * S)) (v : A) :
  match o with Done (r, _) => Some r | _ => None end = Some v → ∃ s, o = Done (v, s).
Proof. destruct o as [[r s]| | | |]; [intros [= ->]; eauto|done..]. Qed.

(** A user process with its stack pointer inside its stack. *)
Definition demo_user (id ppid : Z) (st : proc_state) : process :=
  Process id st 4 4 ppid 0 true 0 1073733632 2151677952 2 (replicate 16 0) true 2149646336 2148007936
    (TrapFrame 0 0 0 (replicate 7 0) (replicate 8 7) (replicate 12 0) 1073741808 2149646336 32)
    (UserVma true 1073733632 1073741824 3 :: replicate 15 zero_vma) (replicate 16 zero_fd).

(** The idle process, a parent that sleeps and its running child. *)
Definition demo_procs : list process :=
  [demo_task 1 1 1; demo_user 2 0 PROC_BLOCKED; demo_user 3 2 PROC_RUNNABLE] ++ replicate 5 zero_process.
Definition demo_kernel_state : kernel_state Z :=
  KernelState (VmState 2151743488 0 0 0)
    (FsState (replicate 32 zero_inode) true false (SchedState demo_procs 2 0 0)) 0.

Lemma demo_kernel_ok : kernel_ok demo_kernel_state.
Proof.
  split.
  - split; cbn [demo_kernel_state k_fs inodes fs_sched ext4_ready]; [done| | |split; cbn; lia| |done].
    + apply Forall_replicate. split; [apply length_replicate|cbn; lia|done].
    + intros i j a b n Ha. apply lookup_replicate in Ha as [-> _]. done.
    + assert (Hz : ∀ p, fds p = replicate 16 zero_fd → proc_fds_ok (replicate 32 zero_inode) p).
      { intros p Hp. unfold proc_fds_ok. rewrite Hp. apply zero_fds_ok. }
      apply Forall_app. split; [repeat (apply Forall_cons_2; [by apply Hz|]); apply Forall_nil_2|]. apply Forall_replicate. by apply Hz.
  - intros i p Hi Hs. change (demo_procs !! i = Some p) in Hi. unfold demo_procs in Hi.
    destruct i as [|[|[|i]]]; [by injection Hi as <-..|]. cbn [app lookup list_lookup] in Hi.
    apply lookup_replicate in Hi as [-> _]. done.
Qed.

Lemma demo_kernel_inv : kernel_inv demo_kernel_state.
Proof.
  split; [exact demo_kernel_ok|exists (demo_user 3 2 PROC_RUNNABLE)|exists (demo_task 1 1 1)]; done.
Qed.

Lemma process_table_invariant_witness :
  ∃ k', rtc kstep demo_kernel_state k' ∧ kernel_inv k'.
Proof.
  assert (Hs : rtc kstep demo_kernel_state
    (match do_yield demo_kernel_state with Done (_, k') => k' | _ => demo_kernel_state end)).
  { eapply rtc_once, (StepYield _ _ tt). reflexivity. }
  eexists. split; [exact Hs|]. exact (process_table_invariant _ _ demo_kernel_inv Hs).
Defined.

Lemma proc_fork_correct_witness :
  ∃ r k', proc_fork demo_kernel_state = Done (r, k') ∧ r = 4 ∧ (r = -1 ∨ 1 ≤ r) ∧
    slot_filled demo_kernel_state k' (fork_slot r) (child_of (demo_user 3 2 PROC_RUNNABLE)).
Proof.
  destruct (outcome_done (proc_fork demo_kernel_state) 4) as [k' Hd]; [vm_compute; reflexivity|].
  exists 4, k'. split; [exact Hd|]. split; [reflexivity|].
  apply (proc_fork_correct demo_kernel_state (demo_user 3 2 PROC_RUNNABLE) 4 k'); [reflexivity|exact Hd].
Defined.

Lemma proc_exit_correct_witness :
  wp (proc_exit 7) (λ _ k', exit_post demo_kernel_state (demo_user 3 2 PROC_RUNNABLE) 7 k') demo_kernel_state.
Proof. apply proc_exit_correct; [exact demo_kernel_ok|reflexivity|discriminate]. Defined.

Lemma proc_waitpid_correct_witness :
  ∃ r k', proc_waitpid 2 0 demo_kernel_state = Done (r, k') ∧ kernel_ok k' ∧
    if decide (Z.land 0 (not32 WNOHANG) = 0)
    then wait_post demo_kernel_state (demo_user 3 2 PROC_RUNNABLE) 2 0 r k'
    else r = WaitReturn (-1) None ∧ k' = demo_kernel_state.
Proof.
  destruct (outcome_done (proc_waitpid 2 0 demo_kernel_state) (WaitReturn (-1) None)) as [k' Hd]; [vm_compute; reflexivity|].
  exists (WaitReturn (-1) None), k'. split; [exact Hd|].
  apply (proc_waitpid_correct demo_kernel_state (demo_user 3 2 PROC_RUNNABLE) 2 0 _ k');
    [exact demo_kernel_ok|reflexivity|discriminate|exact Hd].
Defined.

Lemma exit_status_delivered_witness :
  wp (proc_exit 7) (λ _ k1,
    wlp (waitpid_round 3 0) (λ r _, r = WaitReturn 3 (Some 7)) (switch_to 1 k1)) demo_kernel_state.
Proof.
  apply (exit_status_delivered demo_kernel_state (demo_user 3 2 PROC_RUNNABLE) 7 1 (demo_user 2 0 PROC_BLOCKED) 0);
    try done. exact demo_kernel_ok.
Defined.
End demo.
