(* ===== verification/ProcessFork.v ===== *)
(** * Memory through [proc_fork]

    A new space next to those in use ([built_space]), the parent and the child as [proc_fork] makes them ([built_ready]), and the memory of
    both when it returns, which it always does.  A fork that fails without one of
    the causes of [fork_refusable] was refused memory ([fork_blames]). *)

From S2P Require Import Prelude Layout KString PageAlloc PageAllocSpec PageIface PageAllocProps.
From S2P Require Import Vm VmSpec VmBoot VmProps Proc ProcessVm ProcessVmSpec ProcessVmPages ProcessVmProps ProcessVmRelease ProcessVmClone.
From S2P Require Import Sched Fs FsSpec FsOps FsProps Process ProcessSpec ProcessLife ProcessProps.

(** ** Who is to blame when a fork fails

    A computation that fails ([bad]) only after a refusal of the allocator, and
    keeps the mark of one. *)
Definition blames {S A} (R : S → Prop) (bad : A → Prop) (c : km S A) : Prop :=
  ∀ s, wlp c (λ a s', (R s → R s') ∧ (bad a → R s')) s.
Abbreviation harmless R c := (blames R (λ _, False) c).

Lemma blames_harmless {S A} (R : S → Prop) bad (c : km S A) : blames R bad c → harmless R c.
Proof. intros H s. eapply wlp_mono; [apply H|]. by intros a s' [? _]. Qed.

Lemma blames_ret {S A} (R : S → Prop) bad (a : A) : ¬ bad a → blames R bad (kret a).
Proof. intros Hb s. by wlp_steps. Qed.

(** A failure inside, or one that the rest accounts for. *)
Lemma blames_bind {S A B} (R : S → Prop) bad0 bad (c : km S A) (f : A → km S B) :
  blames R bad0 c → (∀ a, (bad0 a ∧ harmless R (f a)) ∨ blames R bad (f a)) → blames R bad (kbind c f).
Proof.
  intros Hc Hf s. wlp_step. eapply wlp_mono; [apply Hc|]. intros a s1 [H1 Hb].
  destruct (Hf a) as [[Ha Hh]|Hh]; (eapply wlp_mono; [apply Hh|]); intros b s2 [H2 H3].
  - split; [auto|]. intros _. by apply H2, Hb.
  - split; auto.
Qed.

Lemma blames_then {S A B} (R : S → Prop) bad (c : km S A) (f : A → km S B) :
  harmless R c → (∀ a, blames R bad (f a)) → blames R bad (kbind c f).
Proof. intros Hc Hf. eapply blames_bind; [exact Hc|]. intros a. by right. Qed.

Lemma blames_modify {S} (R : S → Prop) bad (f : S → S) : (∀ s, R s → R (f s)) → ¬ bad tt → blames R bad (kmodify f).
Proof. intros Hf Hb s. wlp_step. by split; [apply Hf|]. Qed.

Lemma blames_get {S A} (R : S → Prop) bad (f : S → km S A) : (∀ s, blames R bad (f s)) → blames R bad (kbind kget f).
Proof. intros Hf s. wlp_steps. apply Hf. Qed.

Lemma to_blames {S A} (R : S → Prop) bad (c : km S A) s : blames R bad c → wlp c (λ a s', (R s → R s') ∧ (bad a → R s')) s.
Proof. done. Qed.

Lemma blames_nofuel {S A} (R : S → Prop) bad : blames R bad (@knofuel S A).
Proof. by intros s. Qed.

Lemma blames_zoom {S T A} (get : S → T) put (R : T → Prop) bad (c : km T A) : (∀ t s, get (put t s) = t) →
  blames R bad c → blames (λ s, R (get s)) bad (zoom get put c).
Proof.
  intros Hg Hc s. specialize (Hc (get s)). unfold wlp, zoom in *. destruct (c (get s)) as [[a t]| | | |]; [|done..].
  by rewrite Hg.
Qed.

Definition failed (r : Z) : Prop := r < 0.
Create HintDb blame.
(** What returns without failing. *)
Ltac fine := solve [apply blames_ret; unfold failed; let H := fresh in intros H; cbv beta in H; first [destruct H; fail|discriminate H|lia]].


Section blame.
Context {L : Layout} {P : Type} {PO : PageOps P} {RF : Refusals P}.
Definition vm_refused (s : vm_state P) : Prop := refused (vm_pages s).

Lemma blames_pages {A} bad (c : km P A) : blames refused bad c → blames vm_refused bad (on_pages c).
Proof. by apply (blames_zoom vm_pages set_vm_pages refused bad c). Qed.
Lemma alloc_blames n : blames vm_refused (λ r, r = 0) (on_pages (pg_alloc n)).
Proof. apply blames_pages. intros s. eapply wlp_mono; [apply rf_alloc|]. intros r s' H. split; auto. Qed.
Lemma free_harmless p n : harmless vm_refused (on_pages (pg_free p n)).
Proof. apply blames_pages. intros s. eapply wlp_mono; [apply rf_free|]. by intros r s' H. Qed.
Lemma inc_harmless p : harmless vm_refused (on_pages (pg_inc p)).
Proof. apply blames_pages. intros s. eapply wlp_mono; [apply rf_inc|]. by intros r s' H. Qed.
Lemma dec_harmless p : harmless vm_refused (on_pages (pg_dec p)).
Proof. apply blames_pages. intros s. eapply wlp_mono; [apply rf_dec|]. by intros r s' H. Qed.
Lemma upd_harmless f : harmless vm_refused (upd_vmem f).
Proof. apply blames_modify; [|by intros []]. intros s Hs. by apply rf_set_mem. Qed.
Hint Resolve alloc_blames free_harmless inc_harmless dec_harmless upd_harmless : blame.

Lemma get_l0_blames root va pte1 : blames vm_refused (λ o, o = None) (vm_get_l0 root va pte1).
Proof.
  unfold vm_get_l0. destruct (_ || _); [|fine].
  eapply blames_bind; [apply alloc_blames|]. intros pa. destruct (Z.eqb_spec pa 0) as [->|]; [left; split; [done|fine]|right].
  apply blames_then; [auto with blame|]. intros []. apply blames_then; [destruct (_ && _); [auto with blame|fine]|]. intros [].
  apply blames_then; [auto with blame|]. intros []. fine.
Qed.

Lemma map_page_blames root va pa flags : blames vm_refused failed (vm_map_page root va pa flags).
Proof.
  apply blames_get. intros s. eapply blames_bind; [apply get_l0_blames|]. intros [l0|]; [right|left; split; [done|fine]].
  apply blames_then; [auto with blame|]. intros []. fine.
Qed.

Lemma map_range_blames root va pa len flags fuel : ∀ off, blames vm_refused failed (map_range_4k_loop fuel root va pa len flags off).
Proof.
  induction fuel as [|fuel IH]; intros off; cbn [map_range_4k_loop]; (destruct (_ <? _); [|fine]); [apply blames_nofuel|].
  eapply blames_bind; [apply map_page_blames|]. intros r. unfold failed. destruct (Z.ltb_spec r 0); [left|by right].
  split; [done|fine].
Qed.

Lemma map_segments_blames root l : blames vm_refused failed (map_segments root l).
Proof.
  induction l as [|[[st en] fl] l IH]; cbn [map_segments]; [fine|].
  eapply (blames_bind _ failed).
  - unfold vm_map_identity_segment. destruct (_ <=? _); [fine|apply map_range_blames].
  - intros r. unfold failed. destruct (Z.ltb_spec r 0); [left; split; [done|fine]|by right].
Qed.

Lemma build_fail_harmless root : harmless vm_refused (build_fail root).
Proof. apply blames_then; [auto with blame|]. intros []. fine. Qed.

Lemma build_blames base paddr pages : blames vm_refused (λ r, r = 0) (vm_build_user_satp base paddr pages).
Proof.
  eapply blames_bind; [apply alloc_blames|]. intros root. destruct (Z.eqb_spec root 0) as [->|]; [left; split; [done|fine]|right].
  apply blames_then; [auto with blame|]. intros []. apply blames_get. intros s. apply blames_then; [auto with blame|]. intros [].
  eapply blames_bind; [apply map_segments_blames|]. intros r. unfold failed. destruct (Z.ltb_spec r 0); [left; split; [done|apply build_fail_harmless]|right].
  eapply (blames_bind _ failed).
  - destruct (0 <? pages); [apply map_range_blames|fine].
  - intros r'. unfold failed. destruct (Z.ltb_spec r' 0); [left; split; [done|apply build_fail_harmless]|right]. apply blames_ret, make_satp_nonzero.
Qed.

(** Pages are mapped at aligned addresses. *)
Lemma query_aligned m root va pa pr : va mod 4096 = 0 → query_page m root va = Some (pa, pr) → pa mod 4096 = 0.
Proof.
  intros Hva. assert (Hl : ∀ pte k, is_u32 pte → 12 ≤ k → Z.lor (pte_addr pte) (Z.land va (Z.ones k)) mod 4096 = 0).
  { intros pte k Hu Hk. destruct (pte_addr_props pte Hu) as [_ Ha]. change 4096 with (2 ^ 12) in *. rewrite <-!Z.land_ones in * by lia.
    rewrite Z.land_lor_distr_l, Ha, <-Z.land_assoc, (Z.land_comm (Z.ones k)), Z.land_assoc, Hva. done. }
  unfold query_page. destruct (negb _); [done|]. destruct (has_bits _ _).
  - intros [= <- _]. apply (Hl _ 22); [apply load32_range|lia].
  - destruct (_ || _); [done|]. intros [= <- _]. apply (Hl _ 12); [apply load32_range|lia].
Qed.

Lemma map_user_blames satp_ va pa prot : va mod 4096 = 0 → pa mod 4096 = 0 → blames vm_refused failed (vm_map_user_page satp_ va pa prot).
Proof.
  intros Hv Hp. unfold vm_map_user_page, is_aligned, PAGE_SIZE. rewrite Hv, Hp. apply map_page_blames.
Qed.

Lemma clone_page_blames parent child cow va : va mod 4096 = 0 → blames vm_refused (λ b, b = true) (clone_page parent child cow va).
Proof.
  intros Hva. unfold clone_page, vm_query_user_page. intros s. wlp_steps. destruct (query_page _ _ va) as [[pa pr]|] eqn:Hq; [|apply to_blames; fine].
  apply query_aligned in Hq; [|done]. do 4 wlp_step. generalize (query_page (vmem s) (vm_root_from_satp child) va) as old. intros old. apply to_blames.
  eapply blames_bind; [by apply map_user_blames|]. intros r. unfold failed. destruct (Z.ltb_spec r 0); [left; split; [done|fine]|right].
  apply blames_then; [auto with blame|]. intros [].
  eapply blames_bind; [by apply map_user_blames|]. intros r'. unfold failed. destruct (Z.ltb_spec r' 0); [left; split; [done|]|right].
  - apply blames_then; [auto with blame|]. intros []. fine.
  - destruct old as [[o ?]|]; [destruct (negb _)|]; [|fine..]. apply blames_then; [auto with blame|]. intros []. fine.
Qed.

Lemma clone_range_blames parent child cow ve fuel : ∀ va, va mod 4096 = 0 → blames vm_refused (λ b, b = true) (clone_range fuel parent child cow va ve).
Proof.
  induction fuel as [|fuel IH]; intros va Hva; cbn [clone_range]; (destruct (_ <? _); [|fine]); [apply blames_nofuel|].
  eapply blames_bind; [by apply clone_page_blames|]. intros []; [left; split; [done|fine]|right]. apply IH.
  unfold add32, wrap32, PAGE_SIZE. Z.div_mod_to_equations. lia.
Qed.

Lemma clone_blames parent child : vmas_ok (vmas parent) → blames vm_refused failed (proc_vm_clone parent child).
Proof.
  intros Hv%vmas_wf. unfold proc_vm_clone. induction Hv as [|v l Hwf _ IH]; cbn [clone_vmas]; [fine|].
  destruct (vma_used v) eqn:Hu; cbn [negb orb]; [|done]. destruct (negb _); [done|]. destruct (Hwf Hu) as (_ & _ & Ha & _).
  eapply blames_bind; [by apply clone_range_blames|]. intros []; [left; split; [done|fine]|by right].
Qed.

Lemma release_page_harmless satp_ va : harmless vm_refused (release_page satp_ va).
Proof.
  unfold release_page, vm_query_user_page. intros s. wlp_steps. apply to_blames. destruct (query_page _ _ va) as [[pa ?]|]; [|fine].
  apply blames_then; [|intros r; destruct (_ =? _); [auto with blame|fine]].
  unfold vm_unmap_user_page. destruct (negb _); [fine|]. apply blames_get. intros s1.
  destruct (negb _); [fine|]. destruct (has_bits _ _); [fine|].
  apply blames_then; [auto with blame|]. intros []. fine.
Qed.

Lemma release_range_harmless satp_ ve fuel : ∀ va, harmless vm_refused (release_range fuel satp_ va ve).
Proof.
  induction fuel as [|fuel IH]; intros va; cbn [release_range]; (destruct (va <? ve); [|fine]); [apply blames_nofuel|].
  apply blames_then; [apply release_page_harmless|]. by intros [].
Qed.

Lemma release_stack_harmless satp_ base n : ∀ i, harmless vm_refused (release_stack n i satp_ base).
Proof.
  induction n as [|n IH]; intros i; cbn [release_stack]; [fine|]. apply blames_then; [apply release_page_harmless|]. by intros [].
Qed.

Lemma release_harmless p : harmless vm_refused (proc_vm_release p).
Proof.
  unfold proc_vm_release. destruct (negb _); [fine|]. apply blames_then.
  - induction (vmas p) as [|v l IH]; cbn [release_vmas]; [fine|]. apply blames_then; [|by intros []].
    destruct (negb _); [fine|]. destruct (_ || _); [fine|]. apply release_range_harmless.
  - intros []. destruct (_ =? _); [destruct (_ && _); [auto with blame|fine]|]. apply release_stack_harmless.
Qed.

(** *** The fork *)
Context {EX : Ext4Ops} {RE : ResumeEntry}.
Abbreviation k_refused := (λ k : kernel_state P, vm_refused (k_vm k)).

Lemma on_vm_blames {A} bad (c : km (vm_state P) A) : blames vm_refused bad c → blames k_refused bad (on_vm c).
Proof. by apply (blames_zoom k_vm set_k_vm vm_refused bad c). Qed.
Lemma put_harmless i p : harmless k_refused (put_proc i p).
Proof. apply blames_modify; [done|by intros []]. Qed.
Lemma reset_harmless i : harmless k_refused (reset_process_with_released_resources i).
Proof.
  apply blames_then; [intros k; by apply wlp_get_proc|]. intros p. apply blames_then; [apply on_vm_blames, release_harmless|].
  intros []. apply put_harmless.
Qed.
Hint Resolve put_harmless reset_harmless : blame.

(** The causes of a failed fork that do not lie with the allocator. *)
Definition fork_refusable (k : kernel_state P) (parent : process) : Prop :=
  is_user parent = false ∨ has_trap_frame parent = false ∨ alloc_process_slot (k_procs k) = None ∨
  proc_sp_within_user_stack parent (arch_user_stack_pointer parent) = false.

#[export] Instance fork_refusable_dec k parent : Decision (fork_refusable k parent).
Proof. unfold fork_refusable. solve_decision. Defined.

Lemma fork_blames k parent : k_procs k !! k_cur k = Some parent → vmas_ok (vmas parent) → ¬ fork_refusable k parent →
  wlp proc_fork (λ r k', r = -1 → k_refused k') k.
Proof.
  intros Hp Hv Hno. unfold fork_refusable in Hno. unfold proc_fork. wlp_steps. apply wlp_get_proc. intros p Hp'. rewrite Hp in Hp'. injection Hp' as <-.
  destruct (is_user parent); [|tauto]. destruct (has_trap_frame parent); [|tauto]. cbn [negb orb].
  destruct (alloc_process_slot (k_procs k)) as [i|]; [|tauto]. destruct (proc_sp_within_user_stack parent _); [|tauto]. clear Hno.
  match goal with |- wlp ?c _ _ => cut (blames k_refused (λ r, r = -1) c) end.
  { intros H. eapply wlp_mono; [apply H|]. by intros r k' [_ ?]. }
  eapply blames_bind; [apply on_vm_blames, alloc_blames|]. intros pa. destruct (Z.eqb_spec pa 0) as [->|]; [left; split; [done|]|right].
  { apply blames_then; [apply put_harmless|]. intros []. fine. }
  eapply blames_bind; [apply on_vm_blames, build_blames|]. intros st. destruct (Z.eqb_spec st 0) as [->|]; [left; split; [done|]|right].
  { apply blames_then; [apply put_harmless|]. intros []. apply blames_then; [auto with blame|]. intros []. fine. }
  apply blames_then; [apply put_harmless|]. intros []. apply blames_then; [apply put_harmless|]. intros []. cbn [negb].
  apply blames_then; [apply put_harmless|]. intros []. eapply blames_bind; [by apply on_vm_blames, clone_blames|].
  intros r. unfold failed. destruct (Z.ltb_spec r 0); [left; split; [done|]|right].
  { apply blames_then; [auto with blame|]. intros []. fine. }
  apply blames_then; [apply put_harmless|]. intros []. apply blames_ret. cbn. lia.
Qed.
End blame.

Section spaces.
Context {L : Layout} {LOK : LayoutOk} {P : Type} {PO : PageOps P} {POK : PageOpsOk P}.
Implicit Types s : vm_state P.

(** A space whose pages are all kept. *)
Lemma kept_space s s' root : kept s s' → vm_ok s' → space_ok s root →
  space_ok s' root ∧ (∀ t, pt_page (vmem s') root t ↔ pt_page (vmem s) root t) ∧
  (∀ va, is_u32 va → query_page (vmem s') root va = query_page (vmem s) root va) ∧
  (∀ i, 0 ≤ i < 1024 → l0_of (vmem s') root i = l0_of (vmem s) root i).
Proof.
  intros Hk Hs' [Hs Hok]. destruct (pt_frame (vm_refs s) (vm_refs s') (vmem s) (vmem s') root Hok) as (Hok' & Hpg & Hq).
  - intros t x Ht Hx. destruct (pt_page_managed _ _ _ _ Hok Ht) as [Hm Hr]. by apply (Hk t Hm Hr).
  - intros t Ht. destruct (pt_page_managed _ _ _ _ Hok Ht) as [Hm Hr]. by rewrite (proj1 (Hk t Hm Hr)).
  - split_and!; try done. intros i Hi. pose proof (pt_root _ _ _ Hok) as [Hm Hr]. apply l0_of_ext, get_pte_ext; [done|]. by apply (Hk root Hm Hr).
Qed.

Lemma kept_window s s' root : kept s s' → vm_ok s' → space_ok s root → window_ok s root → window_ok s' root.
Proof.
  intros Hk Hs' Hsp [Hf Hi]. destruct (kept_space s s' root Hk Hs' Hsp) as (_ & Hpg & Hq & Hl). split.
  - intros va pa pr Hw. rewrite Hq by (by apply window_u32). intros E. destruct (Hf va pa pr Hw E) as (Hm & Hr & Hn & Hl0).
    destruct (vpn_range va (window_u32 va Hw)) as [Hv _]. rewrite (proj1 (Hk pa Hm Hr)), Hpg, Hl by done. done.
  - intros va va' pa pr pr' Hw Hw'. rewrite !Hq by (by apply window_u32). by apply Hi.
Qed.

Lemma given_kept s s1 paddr n : pg_given (vm_refs s) (vm_refs s1) (vmem s) (vmem s1) paddr n → kept s s1.
Proof.
  intros [Hal Hrng Hf Ho _ Hx] q Hm Hr. assert (Hnb : ∀ x, in_block q 1 x → ¬ in_block paddr n x).
  { intros x Hxq Hxb. apply Hr, (Hf q Hm). destruct Hm as [Hq4 _]. unfold in_block in *. Z.div_mod_to_equations. lia. }
  split; [|by auto]. apply Ho; [done|]. apply Hnb. unfold in_block. lia.
Qed.
Lemma kept_trans s1 s2 s3 : kept s1 s2 → kept s2 s3 → kept s1 s3.
Proof.
  intros H1 H2 q Hm Hr. destruct (H1 q Hm Hr) as [E1 X1]. destruct (H2 q Hm) as [E2 X2]; [congruence|]. split; [congruence|]. intros x Hx. by rewrite X2, X1.
Qed.

(** Without a table, a whole region of 4 MiB is mapped or nothing of it. *)
Lemma region_mapped (m : mem) root va va' : l0_of m root (vpn1 va) = None → vpn1 va' = vpn1 va → is_Some (query_page m root va) → is_Some (query_page m root va').
Proof. intros Hl E. unfold l0_of in Hl. unfold query_page. rewrite E. destruct (has_bits _ PTE_V), (has_bits _ PTE_RWX); try done. Qed.

(** The private part of a new space is its stack. *)
Lemma view_private base paddr n va : USER_MMAP_BASE ≤ va < 1073741824 →
  user_view base paddr n va = if (base <=? va) && (va <? base + n * 4096) then Some (paddr + (va - base), 22) else None.
Proof.
  unfold USER_MMAP_BASE. intros Hva. unfold user_view, overlay at 1. change (has_bits (pte_perm_from_flags _) PTE_RWX) with true.
  destruct (_ && _); [done|]. rewrite user_segments_eq. cbn [overlay_segments fold_left]. unfold overlay, kernel_map.
  pose proof lo_text. pose proof lo_rodata. pose proof lo_user_rodata. pose proof lo_rodata_end. pose proof lo_data. pose proof lo_bss. by zcases.
Qed.

(** Its writable segments are those of the image. *)
Lemma view_image base paddr n va : base + n * 4096 ≤ 1073741824 →
  user_data_start ≤ va < user_data_end ∨ user_bss_start ≤ va < user_bss_end → ∃ pr, user_view base paddr n va = Some (va, pr).
Proof.
  intros Hb Hva. pose proof lo_text. pose proof lo_rodata. pose proof lo_user_rodata. pose proof lo_rodata_end. pose proof lo_data. pose proof lo_bss.
  exists 22. unfold user_view, overlay at 1. rewrite user_segments_eq. cbn [overlay_segments fold_left]. unfold overlay.
  repeat change (has_bits (pte_perm_from_flags _) PTE_RWX) with true. destruct Hva as [Hva|Hva]; zcases; repeat f_equal; lia.
Qed.

(** What [vm_build_user_satp] makes on a new stack: a space of pages that were free. *)
Record new_user_space s base paddr n C s' : Prop := {
  nu_space : space_ok s' C;
  nu_window : window_ok s' C;
  nu_kept : kept s s';
  nu_tables : ∀ t, pt_page (vmem s') C t → vm_refs s t = 0;
  nu_frames : ∀ va q pr, window_page va → query_page (vmem s') C va = Some (q, pr) → vm_refs s q = 0 ∧ vm_refs s' q = 1;
  nu_view : ∀ va, is_u32 va → query_page (vmem s') C va = user_view base paddr n va;
}.

Lemma kept_free s s1 t : kept s s1 → managed t → vm_refs s1 t = 0 → vm_refs s t = 0.
Proof. intros Hk Hm Hz. destruct (decide (vm_refs s t = 0)) as [|Hne]; [done|]. destruct (Hk t Hm Hne). congruence. Qed.

Lemma built_space s s1 s2 base paddr n satp_ :
  pg_given (vm_refs s) (vm_refs s1) (vmem s) (vmem s1) paddr n → build_post s1 base paddr n satp_ s2 → satp_ ≠ 0 →
  base mod 4096 = 0 → USER_MMAP_BASE ≤ base → 0 ≤ n < 1024 → base + n * 4096 ≤ 1073741824 →
  ∃ C, satp_ = vm_make_satp C ∧ new_user_space s base paddr n C s2.
Proof.
  intros Hg (Hok2 & _ & Hk2 & Hb) Hs Hb4 Hb0 Hn Hbe. rewrite decide_False in Hb by done.
  destruct Hb as (C & -> & _ & Hpt & Htab & Hview). exists C. split; [done|].
  pose proof (given_kept _ _ _ _ Hg) as Hk1. destruct Hg as [Hp4 [Hplo Hphi] Hgf Hgo _ _].
  assert (Hfrm : ∀ va q pr, window_page va → query_page (vmem s2) C va = Some (q, pr) →
    base ≤ va < base + n * 4096 ∧ q = paddr + (va - base) ∧ managed q ∧ vm_refs s q = 0 ∧ vm_refs s1 q = 1).
  { intros va q pr Hw. rewrite Hview by (by apply window_u32). destruct Hw as [Hw4 Hwb]. rewrite view_private by done.
    destruct (_ && _) eqn:E; [|done]. apply andb_true_iff in E as [E1%Z.leb_le E2%Z.ltb_lt]. intros [= <- _].
    assert (Hm : managed (paddr + (va - base))) by (split; [Z.div_mod_to_equations; lia|lia]).
    destruct (Hgf _ Hm) as [? ?]; [unfold in_block; lia|]. split_and!; (done || lia). }
  split; try done.
  - split.
    + intros va q pr Hw Hq. destruct (Hfrm va q pr Hw Hq) as (Hin & _ & Hm & _ & Hr1). destruct (Hk2 q Hm) as [Hr2 _]; [lia|]. split_and!; [done|lia| |].
      * intros Ht. apply Htab in Ht. lia.
      * destruct (l0_of (vmem s2) C (vpn1 va)) eqn:Hl; [done|]. exfalso. pose proof (window_u32 va Hw) as Hu. destruct Hw as [Hw4 Hwb]. unfold USER_MMAP_BASE in *.
        assert (Hv : ∀ va', is_u32 va' → va' / 4194304 = va / 4194304 → USER_MMAP_BASE ≤ va' < 1073741824 → base ≤ va' < base + n * 4096).
        { intros va' Hu' Hd Hb'. assert (Hm' : is_Some (query_page (vmem s2) C va')).
          { apply (region_mapped _ _ va va' Hl); [by rewrite !vpn1_eq|by rewrite Hq]. }
          rewrite Hview, view_private in Hm' by done. destruct (_ && _) eqn:E; [|by destruct Hm']. apply andb_true_iff in E as [?%Z.leb_le ?%Z.ltb_lt]. lia. }
        pose proof (Hv (va / 4194304 * 4194304)) as H1. pose proof (Hv (va / 4194304 * 4194304 + 4190208)) as H2. unfold is_u32, USER_MMAP_BASE in *.
        clear Hv. Z.div_mod_to_equations. lia.
    + intros va va' q pr pr' Hw Hw' Hq Hq'. destruct (Hfrm va q pr Hw Hq) as (_ & E & _), (Hfrm va' q pr' Hw' Hq') as (_ & E' & _). lia.
  - by eapply kept_trans.
  - intros t Ht. apply (kept_free s s1); [done| |by apply Htab]. by apply (pt_page_managed _ _ _ _ Hpt Ht).
  - intros va q pr Hw Hq. destruct (Hfrm va q pr Hw Hq) as (_ & _ & Hm & Hz & Hr1). split; [done|]. rewrite <-Hr1. apply (Hk2 q Hm). lia.
Qed.

(** The writable areas outside of the private part are the data segments, still with the pages of the image. *)
Definition image_data s R (F : marks) : Prop := ∀ va, user_page va → ¬ window_page va → is_Some (F va) →
  (∃ pr, query_page (vmem s) R va = Some (va, pr)) ∧ (user_data_start ≤ va < user_data_end ∨ user_bss_start ≤ va < user_bss_end).
(** No count is about to overflow. *)
Definition counts_small s R : Prop := ∀ va pa pr, window_page va → query_page (vmem s) R va = Some (pa, pr) → vm_refs s pa < 65535.

Lemma built_ready s s' R C F base paddr n :
  space_ok s R → window_ok s R → image_data s R F → counts_small s R → base + n * 4096 ≤ 1073741824 →
  new_user_space s base paddr n C s' → fork_ready s' R C F.
Proof.
  intros HR HwR Him Hcs Hbe [HC HwC Hk Htab Hfrm Hview]. pose proof HC as [Hok' _].
  destruct (kept_space s s' R Hk Hok' HR) as (HR' & Hpg & Hq & _). pose proof HR as [_ HptR].
  assert (Hold : ∀ va pa pr, window_page va → query_page (vmem s') R va = Some (pa, pr) → managed pa ∧ vm_refs s pa ≠ 0 ∧ vm_refs s' pa = vm_refs s pa ∧ vm_refs s pa < 65535).
  { intros va pa pr Hw. rewrite Hq by (by apply window_u32). intros E. destruct (wo_frame _ _ HwR va pa pr Hw E) as (Hm & Hr & _).
    split_and!; try done; [by apply Hk|by eapply Hcs]. }
  split.
  - split; try done. intros t Ht Htc. apply Hpg in Ht. destruct (pt_page_managed _ _ _ _ HptR Ht) as [_ Hr]. by apply Hr, Htab.
  - by apply (kept_window s).
  - done.
  - intros va pa pr Hw E. destruct (Hold va pa pr Hw E) as (Hm & Hr & Hr' & Hb). split_and!; [|lia|].
    + intros Ht. by apply Hr, Htab.
    + intros va' pr' Hw' E'. by apply Hr, (Hfrm va' pa pr').
  - intros va pa pr Hw E Ht. apply Hpg in Ht. destruct (pt_page_managed _ _ _ _ HptR Ht) as [_ Hr]. by apply Hr, (Hfrm va pa pr).
  - intros va [Hu Ha] Hn HF. destruct (Him va ltac:(by split) Hn HF) as [[pr E] Hdata]. destruct (view_image base paddr n va Hbe Hdata) as [pr' Ev].
    exists va, pr, pr'. rewrite Hq, Hview by done. unfold is_u32 in Hu. pose proof lo_data. pose proof lo_bss. pose proof lo_free. pose proof lo_aligned as Hal. rewrite !Forall_cons in Hal.
    split_and!; try (done || lia).
Qed.

(** ** Two spaces that share pages *)

(** Two spaces in order, with tables apart from the pages of both; a page in both is counted at least twice. *)
Record mates s R C : Prop := {
  mt_spaces : two_spaces s R C;
  mt_parent : window_ok s R;
  mt_child : window_ok s C;
  mt_parent_apart : ∀ va pa pr, window_page va → query_page (vmem s) R va = Some (pa, pr) → ¬ pt_page (vmem s) C pa;
  mt_child_apart : ∀ va pa pr, window_page va → query_page (vmem s) C va = Some (pa, pr) → ¬ pt_page (vmem s) R pa;
  mt_shared : ∀ va va' pa pr pr', window_page va → window_page va' → query_page (vmem s) R va = Some (pa, pr) →
    query_page (vmem s) C va' = Some (pa, pr') → 2 ≤ vm_refs s pa;
}.

Lemma ready_mates s R C F : fork_ready s R C F → mates s R C.
Proof.
  intros [H1 H2 H3 H4 H5 H6]. split; try done.
  - intros va pa pr Hw Hq. by apply (H4 va pa pr).
  - intros va va' pa pr pr' Hw Hw' Hq Hc. destruct (H4 va pa pr Hw Hq) as (_ & _ & Hno). by destruct (Hno va' pr' Hw').
Qed.

Lemma cloned_mates s R C F DP D s' : fork_ready s R C F → within D F → cloned s R C DP D s' → mates s' R C.
Proof.
  intros Hfr HD Hcl.
  assert (HR : ∀ va pa pr, window_page va → query_page (vmem s') R va = Some (pa, pr) → ∃ pr0, query_page (vmem s) R va = Some (pa, pr0)).
  { intros va pa pr Hw. rewrite (cl_parent _ _ _ _ _ _ Hcl) by (by apply window_user).
    destruct (DP va), (query_page (vmem s) R va) as [[]|]; intros [= <- _]; eauto. }
  assert (HpR : ∀ va pa pr, window_page va → query_page (vmem s) R va = Some (pa, pr) → managed pa ∧ plain s' R C pa).
  { intros va pa pr Hw Hq. split; [by apply (wo_frame _ _ (fr_parent _ _ _ _ Hfr) va pa pr)|].
    apply (parent_kept s R C F Hfr DP D s' HD Hcl pa va pr); [by apply window_user|done|by left]. }
  assert (HC : ∀ va pa pr, window_page va → query_page (vmem s') C va = Some (pa, pr) →
    (is_Some (D va) ∧ ∃ pr0, query_page (vmem s) R va = Some (pa, pr0)) ∨ (query_page (vmem s) C va = Some (pa, pr) ∧ managed pa ∧ plain s' R C pa)).
  { intros va pa pr Hw. rewrite (cl_child _ _ _ _ _ _ Hcl) by (by apply window_user).
    destruct (D va) eqn:HDv, (query_page (vmem s) R va) as [[]|] eqn:Hq; try (intros [= <- _]; left; split; [done|]; eauto).
    all: intros E; right; (split; [done|]); apply (child_kept s R C F Hfr DP D s' HD Hcl pa va pr); auto. }
  split.
  - apply Hcl.
  - by apply (cloned_window_parent s R C F Hfr DP D s' HD Hcl).
  - by apply (cloned_window_child s R C F Hfr DP D s' HD Hcl).
  - intros va pa pr Hw Hq. destruct (HR va pa pr Hw Hq) as [pr0 Hq0]. destruct (HpR va pa pr0 Hw Hq0) as [Hm Hp].
    by apply (plain_managed _ _ _ _ Hp Hm).
  - intros va pa pr Hw Hc. assert (Hmp : managed pa ∧ plain s' R C pa).
    { destruct (HC va pa pr Hw Hc) as [[_ [pr0 Hq0]]|(_ & ? & ?)]; [by eapply HpR|done]. }
    destruct Hmp as [Hm Hp]. by apply (plain_managed _ _ _ _ Hp Hm).
  - intros va va' pa pr pr' Hw Hw' Hq Hc. destruct (HR va pa pr Hw Hq) as [pr0 Hq0].
    destruct (HC va' pa pr' Hw' Hc) as [[HDv [pr1 Hq1]]|(Hc0 & _)].
    + destruct (wo_frame _ _ (fr_parent _ _ _ _ Hfr) va pa pr0 Hw Hq0) as (Hm & Hr & _).
      rewrite (cl_shared _ _ _ _ _ _ Hcl pa Hm); [pose proof (refs_nonneg s R C pa (fr_spaces _ _ _ _ Hfr) Hm); lia|].
      exists va', pr1. split; [by apply window_user|done].
    + destruct (fr_apart _ _ _ _ Hfr va pa pr0 Hw Hq0) as (_ & _ & Hno). by destruct (Hno va' pr' Hw').
Qed.

(** When one of them is given back the other is as before. *)
Lemma release_mates s R C A s' : mates s R C → given_back s C A s' →
  space_ok s' R ∧ window_ok s' R ∧ (∀ va, is_u32 va → query_page (vmem s') R va = query_page (vmem s) R va) ∧
  (∀ va pa pr x, window_page va → query_page (vmem s) R va = Some (pa, pr) → in_block pa 1 x → rd (vmem s') x = rd (vmem s) x).
Proof.
  intros [[[Hs HR] [_ HC] Ha] HwR HwC HRa HCa Hsh] Hgb. pose proof (gb_space _ _ _ _ Hgb) as [Hs' _].
  assert (Hx : ∀ q x, managed q → ¬ pt_page (vmem s) C q → in_block q 1 x → rd (vmem s') x = rd (vmem s) x).
  { intros q x Hm Hn Hxq. apply Hgb. intros t Ht Hxt. destruct (pt_page_managed _ _ _ _ HC Ht) as [Htm _]. apply Hn. by rewrite (same_block q t x). }
  assert (Htab : ∀ t, pt_page (vmem s) R t → managed t ∧ vm_refs s' t ≠ 0 ∧ ∀ x, in_block t 1 x → rd (vmem s') x = rd (vmem s) x).
  { intros t Ht. destruct (pt_page_managed _ _ _ _ HR Ht) as [Hm Hr]. split; [done|]. split.
    - rewrite (gb_others _ _ _ _ Hgb t Hm); [done|]. intros (va & pr & Hw & _ & Hq). by eapply HCa.
    - intros x. apply Hx; [done|]. by apply Ha. }
  destruct (pt_frame (vm_refs s) (vm_refs s') (vmem s) (vmem s') R HR) as (HR' & Hpg & Hq); [intros t x Ht; by apply Htab|intros t Ht; by apply Htab|].
  split; [done|]. split; [|split; [done|]].
  - split.
    + intros va pa pr Hw. rewrite Hq by (by apply window_u32). intros E. destruct (wo_frame _ _ HwR va pa pr Hw E) as (Hm & Hr & Hn & Hl).
      split; [done|]. split; [|split; [by rewrite Hpg|]].
      * intros Hz. apply Hr. rewrite <-(gb_others _ _ _ _ Hgb pa Hm); [done|]. intros Hbk. pose proof (gb_dropped _ _ _ _ Hgb pa Hm Hbk) as Hd.
        destruct Hbk as (va' & pr' & Hw' & _ & Hc). pose proof (Hsh va va' pa pr pr' Hw Hw' E Hc). unfold ref_dropped in Hd. lia.
      * destruct (vpn_range va (window_u32 va Hw)) as [Hi _]. rewrite (l0_of_ext (vmem s)); [done|]. apply get_pte_ext; [done|]. by apply Htab; left.
    + intros va va' pa pr pr' Hw Hw'. rewrite !Hq by (by apply window_u32). by apply (wo_inj _ _ HwR).
  - intros va pa pr x Hw E. apply Hx; [by apply (wo_frame _ _ HwR va pa pr)|by eapply HRa].
Qed.

(** ** The parent is unharmed *)

(** The space is in order and its private part reads as before. *)
Record unharmed s R s' : Prop := {
  un_space : space_ok s' R;
  un_window : window_ok s' R;
  un_bytes : ∀ va k, window_page va → 0 ≤ k < 4096 → page_byte s' R va k = page_byte s R va k;
}.
Lemma unharmed_trans s1 s2 s3 R : unharmed s1 R s2 → unharmed s2 R s3 → unharmed s1 R s3.
Proof. intros H1 H2. split; [apply H2|apply H2|]. intros va k Hw Hk. by rewrite (un_bytes _ _ _ H2), (un_bytes _ _ _ H1). Qed.

Lemma kept_unharmed s s' R : kept s s' → vm_ok s' → space_ok s R → window_ok s R → unharmed s R s'.
Proof.
  intros Hk Hs' Hsp Hw. destruct (kept_space s s' R Hk Hs' Hsp) as (? & _ & Hq & _). split; [done|by apply (kept_window s)|].
  intros va k Hwv Hkb. unfold page_byte. rewrite Hq by (by apply window_u32). destruct (query_page (vmem s) R va) as [[pa pr]|] eqn:E; [|done]. simpl. f_equal.
  destruct (wo_frame _ _ Hw va pa pr Hwv E) as (Hm & Hr & _). apply (Hk pa Hm Hr). unfold in_block. lia.
Qed.

Lemma release_unharmed s R C A s' : mates s R C → given_back s C A s' → unharmed s R s'.
Proof.
  intros Hm Hg. destruct (release_mates s R C A s' Hm Hg) as (? & ? & Hq & Hx). split; try done.
  intros va k Hwv Hkb. unfold page_byte. rewrite Hq by (by apply window_u32). destruct (query_page (vmem s) R va) as [[pa pr]|] eqn:E; [|done]. simpl. f_equal.
  apply (Hx va pa pr); try done. unfold in_block. lia.
Qed.

Lemma same_counts_kept s s' : vmem s' = vmem s → (∀ q, managed q → vm_refs s q ≠ 0 → vm_refs s' q = vm_refs s q) → kept s s'.
Proof. intros Hm Hr q Hq Hq0. split; [by apply Hr|]. by rewrite Hm. Qed.
End spaces.

Section fork.
Context {L : Layout} {LOK : LayoutOk} {P : Type} {PO : PageOps P} {POK : PageOpsOk P} {RE : ResumeEntry} {EX : Ext4Ops}.
Implicit Types (k : kernel_state P) (s : vm_state P).

Lemma wp_on_vm {A} (c : km (vm_state P) A) (Q : A → kernel_state P → Prop) k :
  wp c (λ a v, Q a (set_k_vm v k)) (k_vm k) → wp (on_vm c) Q k.
Proof. apply wp_zoom. Qed.
Lemma wp_put_proc i p (Q : unit → kernel_state P → Prop) k : Q tt (set_k_procs (<[i := p]> (k_procs k)) k) → wp (put_proc i p) Q k.
Proof. done. Qed.

Lemma wp_reset i p k (Q : unit → kernel_state P → Prop) : k_procs k !! i = Some p →
  wp (proc_vm_release p) (λ _ v, Q tt (set_k_procs (<[i := zero_process]> (k_procs k)) (set_k_vm v k))) (k_vm k) →
  wp (reset_process_with_released_resources i) Q k.
Proof.
  intros Hi Hr. unfold reset_process_with_released_resources. wp_step. apply (wp_get_proc i p); [done|]. wp_step. apply wp_on_vm.
  eapply wp_mono; [exact Hr|]. intros [] v HQ. by apply wp_put_proc.
Qed.

(** A process that can be forked: its space is in order, its stack is in the private part, none of its areas is writable without being
    readable or executable, and its data segments have not been copied yet. *)
Record forkable k parent R : Prop := {
  fk_cur : k_procs k !! k_cur k = Some parent;
  fk_space : process_space (k_vm k) parent R;
  fk_kernel : kernel_space (k_vm k);
  fk_stack : stack_ok parent;
  fk_pages : 0 < user_stack_pages parent < 1024;
  fk_rights : ∀ a, ¬ area (vmas parent) a 2;
  fk_image : image_data (k_vm k) R (area_marks (vmas parent));
  fk_counts : counts_small (k_vm k) R;
}.

(** The memory of both when [proc_fork] returns [r]. *)
Definition fork_memory k parent R (r : Z) k' : Prop :=
  let F := area_marks (vmas parent) in let s := k_vm k in let s' := k_vm k' in
  unharmed s R s' ∧
  (r = -1 ∨ 1 ≤ r ∧ ∃ C child, k_procs k' !! Z.to_nat (r - 1) = Some child ∧ process_space s' child C ∧ vmas child = vmas parent ∧
    stack_ok child ∧ mates s' R C ∧
    (∀ va, user_page va → is_Some (F va) → is_Some (query_page (vmem s') R va) →
       query_page (vmem s') C va = query_page (vmem s') R va ∧ ∀ pa pr, query_page (vmem s') R va = Some (pa, pr) → has_bits pr PTE_W = false) ∧
    (∀ va o, window_page va → is_Some (F va) → 0 ≤ o < 4096 → is_Some (query_page (vmem s) R va) → page_byte s' C va o = page_byte s R va o)).

(** After the space of the child has been built. *)
Lemma fork_clone k parent R C child base paddr n s2 : forkable k parent R → base + n * 4096 ≤ 1073741824 →
  new_user_space (k_vm k) base paddr n C s2 → satp child = vm_make_satp C →
  wp (proc_vm_clone parent child) (λ rc s3, unharmed (k_vm k) R s3 ∧ mates s3 R C ∧
    if decide (rc = 0) then
      (∀ va, user_page va → is_Some (area_marks (vmas parent) va) → is_Some (query_page (vmem s3) R va) →
         query_page (vmem s3) C va = query_page (vmem s3) R va ∧ ∀ pa pr, query_page (vmem s3) R va = Some (pa, pr) → has_bits pr PTE_W = false) ∧
      (∀ va o, window_page va → is_Some (area_marks (vmas parent) va) → 0 ≤ o < 4096 → is_Some (query_page (vmem (k_vm k)) R va) →
         page_byte s3 C va o = page_byte (k_vm k) R va o)
    else rc = -1) s2.
Proof.
  intros Hfk Hbe Hnu HC. pose proof (fk_space _ _ _ Hfk) as [_ HR Hvm Hsp Hw].
  pose proof (built_ready (k_vm k) s2 R C (area_marks (vmas parent)) base paddr n Hsp Hw (fk_image _ _ _ Hfk) (fk_counts _ _ _ Hfk) Hbe Hnu) as Hfr.
  destruct Hnu as [[Hok2 _] _ Hk _ _ _]. pose proof (kept_unharmed _ _ R Hk Hok2 Hsp Hw) as Hun.
  destruct (kept_space _ _ R Hk Hok2 Hsp) as (_ & _ & Hq & _).
  eapply wp_mono; [by apply (proc_vm_clone_spec s2 parent child R C); try done; apply Hfk|].
  intros rc s3 (Ht & HwR & _ & HbR & Hrc). split; [|split].
  - eapply unharmed_trans; [exact Hun|]. split; [apply Ht|done|]. intros va o Hwv. apply HbR; [by apply window_user|by left].
  - case_decide as H0.
    + destruct Hrc as [Hcl _]. exact (cloned_mates s2 R C _ _ _ s3 Hfr (within_refl _) Hcl).
    + destruct Hrc as (_ & DP & D & _ & HD & Hcl). exact (cloned_mates s2 R C _ DP D s3 Hfr HD Hcl).
  - case_decide as H0; [|apply Hrc]. destruct Hrc as [Hcl HbC]. split.
    + intros va Hu [c Hc]. rewrite (cl_child _ _ _ _ _ _ Hcl va Hu), (cl_parent _ _ _ _ _ _ Hcl va Hu), Hc.
      destruct (query_page (vmem s2) R va) as [[]|]; [intros _|by intros [? ?]]. split; [done|]. intros pa pr [= _ <-].
      destruct (area_marks_Some _ _ _ Hc) as (i & w & Hi & [Hwu _] & _ & ->). destruct (vo_wf _ Hvm i w Hi Hwu) as (_ & _ & _ & _ & Hprot).
      by apply cow_no_write.
    + intros va o Hwv HF Ho Hs. rewrite HbC; [|by apply window_user|done|by rewrite Hq by (by apply window_u32)|done]. by apply Hun.
Qed.

(** The stack that was taken for a space that could not be built goes back. *)
Lemma fork_unbuilt s s1 s2 R child base : vm_ok s → space_ok s R → window_ok s R →
  pg_given (vm_refs s) (vm_refs s1) (vmem s) (vmem s1) (user_stack_paddr child) (user_stack_pages child) → 0 < user_stack_pages child →
  build_post s1 base (user_stack_paddr child) (user_stack_pages child) 0 s2 →
  is_user child = true → satp child = 0 → Forall (λ v, vma_used v = false) (vmas child) →
  wp (proc_vm_release child) (λ _ s3, unharmed s R s3) s2.
Proof.
  intros Hs Hsp Hw Hg Hn (Hok2 & _ & Hk2 & _) Hus Hsatp Hvm. pose proof (given_kept _ _ _ _ Hg) as Hk1. destruct Hg as [Hp4 [Hlo Hhi] Hf Ho _ _].
  eapply wp_mono; [apply (proc_vm_release_unbuilt s2 child); try done|].
  - intros q Hm Hb. destruct (Hf q Hm Hb) as [_ Hr1]. destruct (Hk2 q Hm) as [Hr2 _]; [lia|]. lia.
  - intros [] s3 (Hok3 & _ & Hm3 & [_ Hd]). apply kept_unharmed; try done. pose proof (kept_trans _ _ _ Hk1 Hk2) as Hk.
    intros q Hm Hr. destruct (Hk q Hm Hr) as [E X]. rewrite Hm3. split; [|done]. rewrite <-E. apply Hd; [done|]. intros Hb. by destruct (Hf q Hm Hb).
Qed.

(** A space that was built goes back. *)
Lemma fork_drop s3 R C child : mates s3 R C → is_user child = true → satp child = vm_make_satp C → vmas_ok (vmas child) → stack_ok child →
  wp (proc_vm_release child) (λ _ s4, unharmed s3 R s4) s3.
Proof.
  intros Hm Hus Hsatp Hvm Hst. eapply wp_mono; [apply (proc_vm_release_spec s3 child C); [|done]|].
  - split; try done; [apply (mt_spaces _ _ _ Hm)|apply Hm].
  - intros [] s4 Hg. by eapply release_unharmed.
Qed.

Lemma fork_failed k parent R k' : unharmed (k_vm k) R (k_vm k') → fork_memory k parent R (-1) k'.
Proof. intros H. split; [done|by left]. Qed.

Lemma proc_fork_memory k parent R : forkable k parent R → wp proc_fork (fork_memory k parent R) k.
Proof.
  intros Hfk. pose proof Hfk as [Hcur [Hus HR Hvm Hsp Hw] Hks Hst Hn _ _ _]. pose proof Hst as (Hb4 & Hb0 & _ & Hbe). unfold USER_MMAP_BASE in Hb0.
  pose proof Hsp as [Hs _]. unfold proc_fork. do 3 wp_step. apply (wp_get_proc _ parent); [done|].
  assert (Hself : unharmed (k_vm k) R (k_vm k)) by (by apply kept_unharmed).
  destruct (negb (is_user parent) || negb (has_trap_frame parent)); [wp_steps; by apply fork_failed|].
  destruct (alloc_process_slot (k_procs k)) as [i|] eqn:Hslot; [|wp_steps; by apply fork_failed].
  destruct (alloc_process_slot_spec _ _ Hslot) as (p0 & Hi & _). apply lookup_lt_Some in Hi.
  wp_step. apply wp_on_vm, wp_on_pages. eapply wp_mono; [apply wp_run, pg_alloc_spec; [done|lia]|]. intros paddr pg (Hrun & Hpg & Hgiv).
  pose proof (alloc_globals (k_vm k) _ paddr pg Hrun) as Hsg1. set (s1 := set_vm_pages pg (k_vm k)) in *. destruct (Z.eqb_spec paddr 0) as [->|Hp0].
  { simpl in Hgiv. wp_step. unfold mark_process_unused. apply wp_put_proc. wp_steps. apply fork_failed. apply kept_unharmed; try done.
    apply same_counts_kept; [apply Hgiv|]. intros q Hm _. by apply Hgiv. }
  rewrite decide_False in Hgiv by done. change (pg_given (vm_refs (k_vm k)) (vm_refs s1) (vmem (k_vm k)) (vmem s1) paddr (user_stack_pages parent)) in Hgiv.
  pose proof (given_kept _ _ _ _ Hgiv) as Hk1. pose proof Hgiv as [Hp4 [Hplo Hphi] _ _ _ _]. pose proof free_ram_bounds.
  wp_step. apply wp_on_vm. eapply wp_mono.
  { apply (vm_build_user_satp_spec s1); try (done || lia). by apply (kernel_space_kept (k_vm k)). }
  intros satp_ s2 Hbp. set (child := set_satp satp_ _). wp_step. apply wp_put_proc.
  destruct (Z.eqb_spec satp_ 0) as [->|Hs0].
  { wp_step. apply (wp_reset i child); [cbn; by rewrite list_lookup_insert_eq|]. cbn [k_vm set_k_procs set_k_sched set_k_fs set_k_vm].
    eapply wp_mono; [apply (fork_unbuilt (k_vm k) s1 s2 R child (user_stack_base parent)); try done; [cbn; lia|by apply Forall_replicate]|].
    intros [] s3 Hun. wp_steps. by apply fork_failed. }
  destruct (built_space (k_vm k) s1 s2 (user_stack_base parent) paddr (user_stack_pages parent) satp_) as (C & -> & Hnu); try (done || lia).
  pose proof (built_ready _ _ R C _ _ _ _ Hsp Hw (fk_image _ _ _ Hfk) (fk_counts _ _ _ Hfk) Hbe Hnu) as Hfr.
  pose proof (nu_space _ _ _ _ _ _ Hnu) as [Hok2 _]. pose proof (kept_unharmed _ _ R (nu_kept _ _ _ _ _ _ Hnu) Hok2 Hsp Hw) as Hun2.
  wp_step. apply wp_put_proc. destruct (proc_sp_within_user_stack parent _); cbn [negb].
  2: { wp_step. eapply (wp_reset i (fork_child child parent)); [cbn; by rewrite list_lookup_insert_eq by (by rewrite length_insert)|].
       cbn [k_vm set_k_procs set_k_sched set_k_fs set_k_vm].
       eapply wp_mono; [apply (fork_drop s2 R C); try done; by eapply ready_mates|]. intros [] s3 Hun. wp_steps. apply fork_failed. by eapply unharmed_trans. }
  wp_step. apply wp_put_proc. set (child2 := arch_clone_user_context _ _ _). wp_step. apply wp_on_vm. cbn [k_vm set_k_procs set_k_sched set_k_fs set_k_vm].
  eapply wp_mono; [by apply (fork_clone k parent R C child2 (user_stack_base parent) paddr (user_stack_pages parent) s2)|].
  intros rc s3 (Hun3 & Hmt & Hrc). destruct (Z.ltb_spec rc 0) as [Hneg|Hpos].
  { wp_step. eapply (wp_reset i child2); [cbn; by rewrite list_lookup_insert_eq by (by rewrite !length_insert)|].
    cbn [k_vm set_k_procs set_k_sched set_k_fs set_k_vm].
    eapply wp_mono; [by apply (fork_drop s3 R C)|]. intros [] s4 Hun. wp_steps. apply fork_failed. by eapply unharmed_trans. }
  destruct (decide (rc = 0)) as [->|]; [|lia]. wp_step. apply wp_put_proc. wp_steps. destruct Hrc as [Hview Hbytes].
  split; [done|]. right. split; [cbn; lia|]. eexists C, _. split; [|split; [|split; [|split; [|done]]]].
  - cbn [pid set_user_stack arch_clone_user_context set_context fork_child set_fds set_vmas set_satp init_process_common child2 child].
    replace (Z.to_nat (i + 1 - 1)) with i by lia. cbn. rewrite list_lookup_insert_eq by (by rewrite !length_insert). reflexivity.
  - split; try done; [apply (mt_spaces _ _ _ Hmt)|apply Hmt].
  - done.
  - exact Hst.
Qed.

(** ** A new process *)
Lemma marks_area l va : vmas_ok l → is_Some (area_marks l va) → ∃ q, area l va q ∧ has_bits q VMA_PROT_W = true.
Proof. intros Hok [c Hc]. destruct (area_marks_Some l va c Hc) as (i & v & Hi & Ha & Hw & _). exists (vma_prot v). split; [by exists i, v|done]. Qed.

(** The process that [create_user_process] makes can be forked. *)
Lemma created_forkable k s i p C paddr : k_procs k !! i = Some p → kernel_space (k_vm k) →
  new_user_space s (user_stack_base p) paddr (user_stack_pages p) C (k_vm k) → stack_ok p → USER_MMAP_END ≤ user_stack_base p → 0 < user_stack_pages p < 1024 →
  is_user p = true → satp p = vm_make_satp C → vmas_ok (vmas p) → (∀ a q, area (vmas p) a q ↔ in_ranges (init_ranges p) a q) →
  forkable (switch_to i k) p C.
Proof.
  intros Hi Hks Hnu Hst Hend Hn Hus Hsatp Hvm Ha. pose proof Hst as (Hb4 & Hb0 & _ & Hbe). unfold init_ranges in Ha.
  split; try done.
  - split; try done; apply Hnu.
  - intros a [st [en [Hin _]]]%Ha. rewrite !elem_of_cons, elem_of_nil in Hin. naive_solver.
  - intros va [Hu Hva4] Hnw HF. destruct (marks_area _ _ Hvm HF) as (q & (st & en & Hin & Hb)%Ha & Hq).
    assert (Hd : user_data_start ≤ va < user_data_end ∨ user_bss_start ≤ va < user_bss_end).
    { rewrite !elem_of_cons, elem_of_nil in Hin. destruct_or! Hin; injection Hin as -> -> ->; try done; [|by right|by left].
      exfalso. apply Hnw. unfold window_page. lia. }
    split; [|done]. cbn [k_vm switch_to set_k_sched set_k_fs]. rewrite (nu_view _ _ _ _ _ _ Hnu va Hu). by apply view_image.
  - intros va pa pr Hw Hq. destruct (nu_frames _ _ _ _ _ _ Hnu va pa pr Hw Hq) as [_ Hr]. cbn [k_vm switch_to set_k_sched set_k_fs]. rewrite Hr. lia.
Qed.

Definition create_memory (o : option nat) k' : Prop :=
  match o with
  | Some i => ∃ p R, k_procs k' !! i = Some p ∧ forkable (switch_to i k') p R ∧
      user_stack_base p = sub32 USER_STACK_TOP (mul32 USER_STACK_PAGES PAGE_SIZE) ∧ user_stack_pages p = USER_STACK_PAGES ∧
      ∀ va, user_page va → user_stack_base p ≤ va < user_stack_base p + user_stack_pages p * 4096 →
        is_Some (area_marks (vmas p) va) ∧ is_Some (query_page (vmem (k_vm k')) R va)
  | None => True
  end.

Lemma create_user_process_memory entry k : vm_ok (k_vm k) → kernel_space (k_vm k) →
  wp (create_user_process entry) (λ o k', vm_ok (k_vm k') ∧ kept (k_vm k) (k_vm k') ∧ kernel_space (k_vm k') ∧ create_memory o k') k.
Proof.
  intros Hs Hks. unfold create_user_process. do 2 wp_step.
  destruct (alloc_process_slot (k_procs k)) as [i|] eqn:Hslot; [|by wp_steps].
  destruct (alloc_process_slot_spec _ _ Hslot) as (p0 & Hi & _). apply lookup_lt_Some in Hi.
  wp_step. apply wp_on_vm, wp_on_pages. eapply wp_mono; [apply wp_run, pg_alloc_spec; [done|unfold USER_STACK_PAGES; lia]|]. intros paddr pg (Hrun & Hpg & Hgiv).
  pose proof (alloc_globals (k_vm k) _ paddr pg Hrun) as Hsg1. set (s1 := set_vm_pages pg (k_vm k)) in *. destruct (Z.eqb_spec paddr 0) as [->|Hp0].
  { simpl in Hgiv. wp_step. unfold mark_process_unused. apply wp_put_proc. wp_steps. cbn [k_vm set_k_procs set_k_sched set_k_fs set_k_vm]. fold s1.
    assert (Hk : kept (k_vm k) s1) by (apply same_counts_kept; [apply Hgiv|]; intros q Hm _; by apply Hgiv).
    split_and!; try done. by apply (kernel_space_kept (k_vm k)). }
  rewrite decide_False in Hgiv by done. change (pg_given (vm_refs (k_vm k)) (vm_refs s1) (vmem (k_vm k)) (vmem s1) paddr USER_STACK_PAGES) in Hgiv.
  pose proof (given_kept _ _ _ _ Hgiv) as Hk1. pose proof Hgiv as [Hp4 [Hplo Hphi] Hgf _ _ _]. pose proof free_ram_bounds. unfold USER_STACK_PAGES in *.
  change (sub32 USER_STACK_TOP (mul32 2 PAGE_SIZE)) with 1073733632.
  assert (Hks1 : kernel_space s1) by (by apply (kernel_space_kept (k_vm k))).
  wp_step. apply wp_on_vm. eapply wp_mono; [apply (vm_build_user_satp_spec s1); try (done || lia)|].
  intros satp_ s2 Hbp. pose proof Hbp as (Hok2 & Hsg2 & Hk2 & _). pose proof (kept_trans _ _ _ Hk1 Hk2) as Hk.
  assert (Hks2 : kernel_space s2) by (by apply (kernel_space_kept s1)).
  set (p := set_satp satp_ _). wp_step. apply wp_put_proc. destruct (Z.eqb_spec satp_ 0) as [->|Hs0].
  { wp_step. apply (wp_reset i p); [cbn; by rewrite list_lookup_insert_eq|]. cbn [k_vm set_k_procs set_k_sched set_k_fs set_k_vm].
    eapply wp_mono; [apply (proc_vm_release_unbuilt s2 p); try done; [by apply Forall_replicate|]|].
    - intros q Hm Hb. destruct (Hgf q Hm Hb) as [_ Hr1]. destruct (Hk2 q Hm) as [Hr2 _]; [lia|]. lia.
    - intros [] s3 (Hok3 & Hsg3 & Hm3 & [_ Hd]). wp_steps. cbn [k_vm set_k_procs set_k_sched set_k_fs set_k_vm].
      assert (Hk3 : kept (k_vm k) s3).
      { intros q Hm Hr. destruct (Hk q Hm Hr) as [E X]. rewrite Hm3. split; [|done]. rewrite <-E. apply Hd; [done|]. intros Hb. by destruct (Hgf q Hm Hb). }
      split_and!; try done. apply (kernel_space_kept (k_vm k)); try done. etrans; [|exact Hsg3]. by transitivity s1. }
  destruct (built_space (k_vm k) s1 s2 1073733632 paddr 2 satp_) as (C & -> & Hnu); try done.
  destruct (proc_vm_init_spec p) as (p' & -> & Hvm & Ep & Ha); try done.
  set (l := vmas p') in *. clearbody l. subst p'. wp_step. apply wp_put_proc. wp_steps.
  cbn [k_vm set_k_procs set_k_sched set_k_fs set_k_vm]. split_and!; try done. eexists _, C. split; [cbn; rewrite list_lookup_insert_eq by (by rewrite length_insert); reflexivity|].
  split; [|split; [done|split; [done|]]].
  - apply (created_forkable _ (k_vm k) i _ C paddr); try done. cbn. by rewrite list_lookup_insert_eq by (by rewrite length_insert).
  - cbn [user_stack_base user_stack_pages arch_init_switch_context set_switch arch_init_user_context set_context set_vmas p set_satp set_user_stack vmas]. intros va [Hu _] Hb. split.
    + apply (area_marks_area _ _ 3); [|done]. apply Ha. eexists _, _. split; [by apply list_elem_of_here|cbn; lia].
    + cbn. rewrite (nu_view _ _ _ _ _ _ Hnu va Hu), view_private by (unfold USER_MMAP_BASE; lia). by zcases.
Qed.

(** ** Writes after a fork *)
Lemma mates_sym s R C : mates s R C → mates s C R.
Proof. intros [H1 H2 H3 H4 H5 H6]. split; try done; [by apply two_spaces_sym|]. intros va va' pa pr pr' Hw Hw' Hq Hc. by eapply (H6 va' va). Qed.

(** What a write to [va] in the space [C] leaves of its mate [R]: all of it; and if the fault is served, [C] has a page of its own. *)
Definition write_post s R C va (r : Z) s' : Prop :=
  (∀ v, is_u32 v → query_page (vmem s') R v = query_page (vmem s) R v) ∧
  (∀ v o, window_page v → 0 ≤ o < 4096 → page_byte s' R v o = page_byte s R v o) ∧
  if decide (r = 0) then (∀ o, 0 ≤ o < 4096 → page_byte s' C va o = page_byte s C va o) ∧
     ∃ pa pr, query_page (vmem s') C va = Some (pa, pr) ∧ has_bits pr PTE_W = true ∧
       ∀ v pr', window_page v → query_page (vmem s') R v ≠ Some (pa, pr')
  else r = -1 ∧ no_two_pages s.

Lemma marked_granted p va : is_Some (area_marks (vmas p) va) → granted p va VMA_PROT_W.
Proof. intros [c (i & v & Hi & Ha & Hb & _)%area_marks_Some]. exists (vma_prot v). split; [by exists i, v|]. by apply write_bit. Qed.

Lemma write_isolated s R C p fault : mates s R C → process_space s p C → is_u32 fault → window_page (page_floor fault) →
  is_Some (query_page (vmem s) C (page_floor fault)) → (∀ pa pr, query_page (vmem s) C (page_floor fault) = Some (pa, pr) → has_bits pr PTE_W = false) →
  is_Some (area_marks (vmas p) (page_floor fault)) →
  wp (proc_handle_user_page_fault p fault VMA_PROT_W) (write_post s R C (page_floor fault)) s.
Proof.
  intros Hm Hps Hf Hw [[pa0 pr0] Hq] Hro Har. set (va := page_floor fault) in *. specialize (Hro pa0 pr0 Hq).
  destruct (wo_frame _ _ (mt_child _ _ _ Hm) va pa0 pr0 Hw Hq) as (Hpm & Hpr & Hpn & _).
  eapply wp_mono; [apply (proc_handle_user_page_fault_spec s p C); try done|].
  { fold va. rewrite Hq. intros pa pr [= <- _]. split; [eauto with kernel|left]. auto. }
  fold va. intros r s' [Hff Hres]. pose proof (fault_elsewhere s R C va s' (mt_spaces _ _ _ Hm) Hff) as HqR. split; [done|].
  assert (HfR : ∀ v pa pr, window_page v → query_page (vmem s) R v = Some (pa, pr) → managed pa ∧ vm_refs s pa ≠ 0 ∧ ¬ pt_page (vmem s) C pa).
  { intros v pa pr Hv E. destruct (wo_frame _ _ (mt_parent _ _ _ Hm) v pa pr Hv E) as (? & ? & _). split_and!; try done. by eapply (mt_parent_apart _ _ _ Hm). }
  split.
  - intros v o Hv Ho. unfold page_byte. rewrite HqR by (by apply window_u32). destruct (query_page (vmem s) R v) as [[pa pr]|] eqn:E; [|done]. simpl. f_equal.
    destruct (HfR v pa pr Hv E) as (? & ? & ?). destruct Hff as (_ & _ & _ & _ & Hx). apply (Hx pa); [|unfold in_block; lia].
    split; [eauto with kernel|left]. auto.
  - destruct (decide (r = 0)) as [->|Hr0].
    2: { destruct Hres as (-> & _ & [Hx|[Hx|[(Hx & _)|Hx]]]); try done; [by destruct Hx; repeat constructor|].
         destruct Hx. by apply marked_granted. }
    destruct Hres as (_ & (pa & pr & Hq2 & Hbits & Hnew) & Hk & _).
    assert (HW : has_bits pr PTE_W = true) by (unfold has_bits; change PTE_W with (2 * VMA_PROT_W); by rewrite Hbits). split.
    + intros o Ho. rewrite Hk by done. unfold page_byte. by rewrite Hq.
    + exists pa, pr. split; [done|]. split; [done|]. intros v pr' Hv. rewrite HqR by (by apply window_u32). intros E. destruct (HfR v pa pr' Hv E) as (_ & Hr & _).
      destruct Hnew as [E1|[_ Hz]]; [|done]. rewrite Hq in E1. injection E1 as <- <-. congruence.
Qed.

(** ** Waiting for a child *)

(** The memory of [p] can be given back. *)
Definition releasable s p : Prop := is_user p = true → ∃ root, process_space s p root ∧ stack_ok p.
Definition zombies_ok k : Prop := ∀ i p, k_procs k !! i = Some p → state p = PROC_ZOMBIE → releasable (k_vm k) p.
(** It has been. *)
Definition memory_back k p k' : Prop :=
  if is_user p then ∃ root, satp p = vm_make_satp root ∧ given_back (k_vm k) root (released_pages p) (k_vm k') else k_vm k' = k_vm k.

Lemma reap_total i p k : k_procs k !! i = Some p → releasable (k_vm k) p → wp (reap i) (λ _ k', memory_back k p k') k.
Proof.
  intros Hi Hr. apply (wp_reset i p); [done|]. unfold memory_back. destruct (is_user p) eqn:Hu.
  - destruct (Hr Hu) as (root & Hps & Hst). eapply wp_mono; [by apply proc_vm_release_spec|]. intros [] v Hg. exists root. split; [apply Hps|done].
  - unfold proc_vm_release. rewrite Hu. by wp_steps.
Qed.

Lemma waitpid_scan_total n : ∀ i k me pid_ has_child, (i + n = length (k_procs k))%nat → zombies_ok k →
  wp (waitpid_scan n i me pid_ has_child) (λ r k', match r with
    | Reaped rp _ => ∃ j p, k_procs k !! j = Some p ∧ pid p = rp ∧ state p = PROC_ZOMBIE ∧ memory_back k p k'
    | NotReaped _ => k' = k
    end) k.
Proof.
  induction n as [|n IH]; intros i k me pid_ hc Hlen Hz; cbn [waitpid_scan]; [by wp_steps|].
  destruct (lookup_lt_is_Some_2 (k_procs k) i) as [p Hp]; [lia|]. wp_step. apply (wp_get_proc i p); [done|].
  assert (Hnext : ∀ b, wp (waitpid_scan n (S i) me pid_ b) _ k) by (intros b; apply IH; [lia|done]).
  destruct (_ || _); [apply Hnext|]. destruct (_ && _); [apply Hnext|]. case_bool_decide as Hst; cbn [negb]; [|apply Hnext].
  wp_step. eapply wp_mono; [apply (reap_total i p); [done|by eapply Hz]|]. intros [] k' Hm. wp_steps. by exists i, p.
Qed.

Lemma waitpid_round_total k me pid_ options : kernel_ok k → k_procs k !! k_cur k = Some me → zombies_ok k →
  wp (waitpid_round pid_ options) (λ r k', match r with
    | WaitReturn rp (Some _) => ∃ j p, k_procs k !! j = Some p ∧ pid p = rp ∧ state p = PROC_ZOMBIE ∧ memory_back k p k'
    | _ => True
    end) k.
Proof.
  intros Hk Hme Hz. unfold waitpid_round. wp_step. unfold wp at 1, cur_index. wp_step. apply (wp_get_proc _ me); [done|]. wp_step.
  eapply wp_mono; [apply waitpid_scan_total; [|done]; symmetry; apply (length_procs (k_fs k)), Hk|].
  intros [rp st|h] k1; [intros Hr; by wp_steps|]. intros ->. destruct h; cbn [negb]; [|by wp_steps].
  destruct (has_bits options WNOHANG); [by wp_steps|]. wp_step. apply (wp_get_proc _ me); [done|]. wp_step. apply wp_put_proc. wp_step. unfold do_yield. by wp_steps.
Qed.

Lemma fork_fails `{RF : !Refusals P} k parent R r k' : forkable k parent R → proc_fork k = Done (r, k') → r = -1 →
  fork_refusable k parent ∨ vm_refused (k_vm k').
Proof.
  intros Hfk Hrun Hr. destruct (decide (fork_refusable k parent)) as [|Hno]; [by left|right].
  exact (wlp_run _ _ _ _ _ (fork_blames k parent (fk_cur _ _ _ Hfk) (psp_vmas _ _ _ (fk_space _ _ _ Hfk)) Hno) Hrun Hr).
Qed.

(** ** The theorems *)


(** C12: parent and child do not see each other's writes.  Let a forkable
    process (as for [fork_correct]) fork with a child as the result, in its space
    [C]: then, for a page of a writable area in the mmap window or on the stack
    that the parent had, when either of them writes to it, the translations of the
    other and everything it reads there stay.  The write is refused only if the
    allocator cannot give two pages; otherwise the writer has the old contents in
    a page it may write and that the other does not map.  There is no child only
    for the causes given for [fork_correct]. *)
Theorem fork_isolated `{RF : !Refusals P} k parent R fault : let va := page_floor fault in
  forkable k parent R → is_u32 fault → window_page va → is_Some (area_marks (vmas parent) va) → is_Some (query_page (vmem (k_vm k)) R va) →
  wp proc_fork (λ r k', r = -1 ∧ (fork_refusable k parent ∨ vm_refused (k_vm k')) ∨
    ∃ C child, k_procs k' !! Z.to_nat (r - 1) = Some child ∧ process_space (k_vm k') child C ∧
    process_space (k_vm k') parent R ∧
    wp (proc_handle_user_page_fault child fault VMA_PROT_W) (write_post (k_vm k') R C va) (k_vm k') ∧
    wp (proc_handle_user_page_fault parent fault VMA_PROT_W) (write_post (k_vm k') C R va) (k_vm k')) k.
Proof.
  intros va Hfk Hf Hw HF Hq. eapply wp_mono; [by apply wp_run, (proc_fork_memory k parent R)|].
  intros r k' (Hrun & Hun & [->|(_ & C & child & Hi & Hps & Hv & _ & Hm & Hview & _)]); [left; split; [done|]; by apply (fork_fails k parent R (-1) k')|right].
  exists C, child. split; [done|]. split; [done|].
  assert (HpR : process_space (k_vm k') parent R) by (destruct (fk_space _ _ _ Hfk); split; try done; apply Hun). split; [done|].
  assert (HqR : is_Some (query_page (vmem (k_vm k')) R va)).
  { pose proof (un_bytes _ _ _ Hun va 0 Hw ltac:(lia)) as E. unfold page_byte in E. destruct Hq as [? Hq]. rewrite Hq in E.
    destruct (query_page (vmem (k_vm k')) R va); done. }
  destruct (Hview va (window_user va Hw) HF HqR) as [E Hro]. split.
  - apply write_isolated; try done; fold va; rewrite ?E, ?Hv; done.
  - apply write_isolated; try done. by apply mates_sym.
Qed.

(** C36: [proc_waitpid] returns or sleeps.  When it returns a pid, it is that of a zombie child it was asked for, with its exit status; the slot of the child is
    free again and its memory has been given back.  It returns -1 only without such a child (or for unknown options) and 0 only
    with [WNOHANG] and children none of which is a zombie; it sleeps, blocked, only in that case without [WNOHANG]. *)
Theorem waitpid_correct k me pid_ options :
  kernel_ok k → k_procs k !! k_cur k = Some me → state me ≠ PROC_UNUSED → zombies_ok k →
  wp (proc_waitpid pid_ options) (λ r k', kernel_ok k' ∧
    if decide (Z.land options (not32 WNOHANG) = 0) then wait_post k me pid_ options r k' ∧
      match r with
      | WaitReturn rp (Some _) => ∃ j p, k_procs k !! j = Some p ∧ pid p = rp ∧ state p = PROC_ZOMBIE ∧ memory_back k p k'
      | _ => True
      end
    else r = WaitReturn (-1) None ∧ k' = k) k.
Proof.
  intros Hk Hme Hl Hz. unfold proc_waitpid. destruct (Z.eqb_spec (Z.land options (not32 WNOHANG)) 0) as [He|He]; cbn [negb].
  - destruct (wp_elim _ _ _ (waitpid_round_total k me pid_ options Hk Hme Hz)) as (r & k' & Hrun & Hm).
    apply (wp_done _ _ _ r k' Hrun). rewrite decide_True by done. destruct (wlp_run _ _ _ _ _ (waitpid_round_spec k me pid_ options Hk Hme Hl) Hrun). done.
  - wp_steps. by rewrite decide_False.
Qed.

(** A process that [create_user_process] makes can be forked, whatever else is in memory, and all pages in use before are kept. *)
Theorem create_user_process_forkable entry k : vm_ok (k_vm k) → kernel_space (k_vm k) →
  wp (create_user_process entry) (λ o k', vm_ok (k_vm k') ∧ kept (k_vm k) (k_vm k') ∧ kernel_space (k_vm k') ∧ create_memory o k') k.
Proof. apply create_user_process_memory. Qed.

(** C35: the end of a process gives its memory back: for a user process whose
    space is in order and whose stack lies in the private part, [proc_vm_release]
    returns; afterwards no page of its areas in the mmap window and of its stack
    is mapped, and each frame that backed one has lost one reference and so is
    free again when that was its last; only if the allocator could not record a
    page as free, and has warned of it, may that page keep its last reference.
    Nothing else has changed: no other translation, no other count, no byte
    outside the page table. *)
Theorem proc_vm_release_correct s p root : process_space s p root → stack_ok p →
  wp (proc_vm_release p) (λ _ s', given_back s root (released_pages p) s') s.
Proof. apply proc_vm_release_spec. Qed.
End fork.

(** ** Concrete instances *)

Section demo.
#[local] Existing Instance demo_layout.
#[local] Existing Instance demo_layout_ok.
#[local] Existing Instance no_ext4.
#[local] Instance demo_entry : ResumeEntry := {| arch_resume_from_trap := 2149584896 |}.

(** The idle process alone. *)
Definition start_table : list process := demo_task 1 1 1 :: replicate 7 zero_process.
Definition start_kernel {P} (s : vm_state P) : kernel_state P :=
  KernelState s (FsState (replicate 32 zero_inode) true false (SchedState start_table 0 0 0)) 0.

(** The first program after [vm_init], about to run. *)
Definition program_on {P} {PO : PageOps P} (v : vm_state P) : outcome (option nat * kernel_state P) :=
  match vm_init v with
  | Done (_, s) => create_user_process 2149646336 (start_kernel s)
  | _ => Fault
  end.
Abbreviation first_program := (program_on boot_vm).

Lemma first_init_runs : match vm_init boot_vm with Done (r, _) => r =? 0 | _ => false end = true.
Proof. vm_compute. reflexivity. Qed.
Lemma first_program_runs : match first_program with Done (o, _) => o | _ => None end = Some 1%nat.
Proof. vm_compute. reflexivity. Qed.
Lemma first_program_eq r s : vm_init boot_vm = Done (r, s) → first_program = create_user_process 2149646336 (start_kernel s).
Proof. unfold program_on. by intros ->. Qed.

Lemma program_facts {P} {PO : PageOps P} {POK : PageOpsOk P} (v : vm_state P) : vm_ok v →
  match vm_init v with Done (r, _) => r =? 0 | _ => false end = true →
  match program_on v with Done (o, _) => o | _ => None end = Some 1%nat →
  ∃ k : kernel_state P, program_on v = Done (Some 1%nat, k) ∧ vm_ok (k_vm k) ∧ kernel_space (k_vm k) ∧ create_memory (Some 1%nat) k.
Proof.
  intros Hv H0 Hr. destruct (wp_elim _ _ _ (vm_init_spec v Hv)) as (r & s & Hrun & Hok & Hks). rewrite Hrun in H0. apply Z.eqb_eq in H0 as ->.
  rewrite decide_True in Hks by done. destruct Hks as [Hks _]. unfold program_on in *. rewrite Hrun in Hr |- *.
  destruct (wp_elim _ _ _ (create_user_process_memory 2149646336 (start_kernel s) Hok Hks)) as (o & k & Hc & H1 & _ & H2 & H3).
  rewrite Hc in Hr. subst o. by exists k.
Qed.

Lemma demo_first : ∃ k : kernel_state alloc_state, first_program = Done (Some 1%nat, k) ∧ vm_ok (k_vm k) ∧ kernel_space (k_vm k) ∧ create_memory (Some 1%nat) k.
Proof. exact (program_facts boot_vm boot_vm_ok first_init_runs first_program_runs). Qed.

(** The same with an allocator that records refusals. *)
#[local] Existing Instance logged_ops.
#[local] Existing Instance logged_ops_ok.
#[local] Existing Instance logged_refusals.
Definition logged_vm : vm_state (alloc_state * bool) := VmState (boot_alloc_state ∅, false) 0 0 0.

Lemma logged_first : ∃ k, program_on logged_vm = Done (Some 1%nat, k) ∧ vm_ok (k_vm k) ∧ kernel_space (k_vm k) ∧ create_memory (Some 1%nat) k.
Proof. apply program_facts; [exact (boot_ok ∅)|vm_compute; reflexivity|vm_compute; reflexivity]. Qed.



Lemma fork_isolated_witness : ∃ (k : kernel_state (alloc_state * bool)) parent R, forkable k parent R ∧
  wp proc_fork (λ r k', r = -1 ∧ (fork_refusable k parent ∨ vm_refused (k_vm k')) ∨
    ∃ C child, k_procs k' !! Z.to_nat (r - 1) = Some child ∧ process_space (k_vm k') child C ∧
    process_space (k_vm k') parent R ∧
    wp (proc_handle_user_page_fault child 1073741000 VMA_PROT_W) (write_post (k_vm k') R C 1073737728) (k_vm k') ∧
    wp (proc_handle_user_page_fault parent 1073741000 VMA_PROT_W) (write_post (k_vm k') C R 1073737728) (k_vm k')) k.
Proof.
  destruct logged_first as (k & _ & _ & _ & p & R & _ & Hfk & Hb & Hn & Hst). exists (switch_to 1 k), p, R. split; [exact Hfk|].
  destruct (Hst 1073737728) as [H1 H2]; [split; [unfold is_u32; lia|reflexivity]|rewrite Hb, Hn; vm_compute; split; [discriminate|reflexivity]|].
  apply (fork_isolated (switch_to 1 k) p R 1073741000); [exact Hfk|unfold is_u32; lia| |exact H1|exact H2].
  change (page_floor 1073741000) with 1073737728. unfold window_page, USER_MMAP_BASE. split; [reflexivity|lia].
Defined.

Lemma create_user_process_forkable_witness : ∃ k : kernel_state alloc_state, kernel_space (k_vm k) ∧
  wp (create_user_process 2149646336) (λ o k', vm_ok (k_vm k') ∧ kept (k_vm k) (k_vm k') ∧ kernel_space (k_vm k') ∧ create_memory o k') k.
Proof.
  destruct demo_kernel as (s & _ & Hok & Hks). exists (start_kernel s). split; [exact Hks|]. exact (create_user_process_forkable 2149646336 (start_kernel s) Hok Hks).
Defined.

Lemma proc_vm_release_correct_witness : ∃ (s : vm_state alloc_state) p root, process_space s p root ∧
  wp (proc_vm_release p) (λ _ s', given_back s root (released_pages p) s') s.
Proof.
  destruct demo_first as (k & _ & _ & _ & p & R & _ & Hfk & _). exists (k_vm k), p, R. pose proof (fk_space _ _ _ Hfk) as Hps. split; [exact Hps|].
  exact (proc_vm_release_correct (k_vm k) p R Hps (fk_stack _ _ _ Hfk)).
Defined.

(** The first program has ended, as a child of the idle process. *)
Definition ended (p : process) : process := Process (pid p) PROC_ZOMBIE (priority p) (budget p) 1 5 (is_user p) (sp p) (user_stack_base p) (user_stack_paddr p)
  (user_stack_pages p) (switch_frame p) (has_trap_frame p) (sepc p) (satp p) (frame p) (vmas p) (fds p).
Definition ended_kernel (s : vm_state alloc_state) (p : process) : kernel_state alloc_state :=
  KernelState s (FsState (replicate 32 zero_inode) true false (SchedState (demo_task 1 1 1 :: ended p :: replicate 6 zero_process) 0 0 0)) 0.

Lemma ended_kernel_ok s p : pid p = 2 → fds p = replicate 16 zero_fd → kernel_ok (ended_kernel s p).
Proof.
  intros Hpid Hfds. split.
  - split; cbn [ended_kernel k_fs inodes fs_sched ext4_ready]; [done| | |split; cbn; lia| |done].
    + apply Forall_replicate. split; [apply length_replicate|cbn; lia|done].
    + intros i j a b n Ha. apply lookup_replicate in Ha as [-> _]. done.
    + assert (Hz : ∀ q, fds q = replicate 16 zero_fd → proc_fds_ok (replicate 32 zero_inode) q).
      { intros q Hq. unfold proc_fds_ok. rewrite Hq. apply zero_fds_ok. }
      cbn [procs]. repeat (apply Forall_cons_2; [by apply Hz|]). apply Forall_nil_2.
  - intros i q Hi Hs. change ((demo_task 1 1 1 :: ended p :: replicate 6 zero_process) !! i = Some q) in Hi.
    destruct i as [|[|i]]; [by injection Hi as <-|by injection Hi as <-|]. cbn [lookup list_lookup] in Hi. apply lookup_replicate in Hi as [-> _]. done.
Qed.

Lemma waitpid_correct_witness : ∃ (k : kernel_state alloc_state) me, zombies_ok k ∧
  wp (proc_waitpid 2 0) (λ r k', kernel_ok k' ∧
    if decide (Z.land 0 (not32 WNOHANG) = 0) then wait_post k me 2 0 r k' ∧
      match r with
      | WaitReturn rp (Some _) => ∃ j p, k_procs k !! j = Some p ∧ pid p = rp ∧ state p = PROC_ZOMBIE ∧ memory_back k p k'
      | _ => True
      end
    else r = WaitReturn (-1) None ∧ k' = k) k.
Proof.
  destruct demo_kernel as (s0 & Hinit & _ & _). destruct demo_first as (k & Hrun & _ & _ & p & R & Hp & Hfk & _).
  pose proof (fk_space _ _ _ Hfk) as [H1 H2 H3 H4 H5]. rewrite (first_program_eq _ _ Hinit) in Hrun.
  pose proof (wlp_run _ _ _ _ _ (create_user_process_spec 2149646336 (start_kernel s0)) Hrun) as [_ (p0 & p1 & _ & _ & E & Hfresh & _)].
  rewrite E in Hp. cbn in Hp. injection Hp as ->. destruct Hfresh as (Hpid & _ & _ & _ & _ & _ & Hfds).
  exists (ended_kernel (k_vm k) p), (demo_task 1 1 1).
  assert (Hz : zombies_ok (ended_kernel (k_vm k) p)).
  { intros i q Hi Hs Hu. change ((demo_task 1 1 1 :: ended p :: replicate 6 zero_process) !! i = Some q) in Hi.
    destruct i as [|[|i]]; [injection Hi as <-; discriminate| |cbn [lookup list_lookup] in Hi; apply lookup_replicate in Hi as [-> _]; discriminate].
    injection Hi as <-. exists R. split; [|exact (fk_stack _ _ _ Hfk)]. split; assumption. }
  split; [exact Hz|]. apply waitpid_correct; [apply ended_kernel_ok; [exact Hpid|exact Hfds]|reflexivity|discriminate|exact Hz].
Defined.

(** The process in slot [i] forks, writes to its data segment and forks again. *)
Definition fork_write_fork (i : nat) : km (kernel_state alloc_state) Z :=
  do! proc_fork in
  let! p := get_proc i in
  do! on_vm (proc_handle_user_page_fault p user_data_start VMA_PROT_W) in
  proc_fork.
(** ..., run by the process that was created. *)
Definition forks_twice (o : outcome (option nat * kernel_state alloc_state)) : outcome (Z * kernel_state alloc_state) :=
  match o with Done (Some i, k) => fork_write_fork i (switch_to i k) | _ => Fault end.

(** A run that ends in a panic: the first program forks, writes to its data
    segment, which gives it a page of its own there, and forks again; this fork
    finds the page of the image in the space of its child and hands it to the
    allocator, to whom it does not belong. *)
Theorem second_fork_panics : match forks_twice first_program with Panic msg => msg = "free_pages: out of managed range" | _ => False end.
Proof. vm_compute. reflexivity. Qed.
End demo.
