(* ===== verification/GpuIface.v ===== *)
(** * The interface of the display driver

    [GpuOps] names the operations of [kernel/virtio_gpu.h] on the pages [P] and
    the state [G] of the driver; [GpuOpsOk] is what the window manager relies
    on. *)

From S2P Require Import Prelude Layout KString PageAlloc PageAllocSpec PageIface.

Class GpuOps (P G : Type) := {
  virtio_gpu_init : km (P * G) Z;
  virtio_gpu_is_ready : G → bool;
  virtio_gpu_width : G → Z;
  virtio_gpu_height : G → Z;
  virtio_gpu_pitch : G → Z;
  virtio_gpu_backbuffer : G → Z;      (* 0 for NULL *)
  virtio_gpu_present : km (P * G) unit;
}.
#[global] Hint Mode GpuOps - ! : typeclass_instances.

(** The back buffer: one word per pixel, in pages of the allocator in use. *)
Record framebuffer_ok `{Layout} (refs : Z → Z) (fb w h : Z) : Prop := {
  fb_size : 0 < w ≤ 1024 ∧ 0 < h ≤ 768;
  fb_aligned : fb mod 4096 = 0;
  fb_place : free_ram ≤ fb ∧ fb + 4 * (w * h) ≤ free_ram_end;
  fb_owned : ∀ q, managed q → fb ≤ q < fb + 4 * (w * h) → refs q ≠ 0;
}.

Class GpuOpsOk {L : Layout} (P G : Type) {PO : PageOps P} {POK : PageOpsOk P} {GO : GpuOps P G} := {
  gpu_ok : P → G → Prop;
  gpu_pages p g : gpu_ok p g → pg_ok p;
  (** The driver depends on the allocator and the counts of its own pages. *)
  gpu_ok_ext p p' g : gpu_ok p g → pg_ok p' →
    (virtio_gpu_backbuffer g ≠ 0 → ∀ q, managed q → pg_refs p q ≠ 0 →
       virtio_gpu_backbuffer g ≤ q < virtio_gpu_backbuffer g + 4 * (virtio_gpu_width g * virtio_gpu_height g) →
       pg_refs p' q ≠ 0) → gpu_ok p' g;
  gpu_buffer p g : gpu_ok p g → virtio_gpu_backbuffer g ≠ 0 →
    framebuffer_ok (pg_refs p) (virtio_gpu_backbuffer g) (virtio_gpu_width g) (virtio_gpu_height g);
  gpu_present_spec p g : gpu_ok p g →
    wp virtio_gpu_present (λ _ r, r.1 = p ∧ gpu_ok r.1 r.2 ∧
      virtio_gpu_backbuffer r.2 = virtio_gpu_backbuffer g ∧
      virtio_gpu_width r.2 = virtio_gpu_width g ∧ virtio_gpu_height r.2 = virtio_gpu_height g) (p, g);
  gpu_init_spec p g : gpu_ok p g →
    wp virtio_gpu_init (λ rc r, gpu_ok r.1 r.2 ∧ (rc = 0 → virtio_gpu_backbuffer r.2 ≠ 0)) (p, g);
}.
