(* ===== verification/Syscall.v ===== *)
(** * System calls, [src/kernel/syscall/] and [src/arch/riscv32/trap/syscall.c]

    The state joins the kernel state with the event queue, the keyboard queue,
    the characters written to the console and the display.  User memory is read
    through [ld] and [ld32], what the current address space shows with its page
    faults served; what is stored in user memory is part of the result. *)

From S2P Require Import Prelude Layout KString PageAlloc PageAllocSpec PageIface Vm Proc ProcessVm Sched Ring Event Fs.
From S2P Require Import UserCopy Process GpuIface.

(** [uapi/syscall.h] *)
Definition SYS_PUTCHAR : Z := 1.
Definition SYS_GETCHAR : Z := 2.
Definition SYS_YIELD : Z := 3.
Definition SYS_EXIT : Z := 4.
Definition SYS_FORK : Z := 5.
Definition SYS_EXEC : Z := 6.
Definition SYS_WAIT : Z := 7.
Definition SYS_WAITPID : Z := 8.
Definition SYS_OPEN : Z := 20.
Definition SYS_CLOSE : Z := 21.
Definition SYS_READ : Z := 22.
Definition SYS_WRITE : Z := 23.
Definition SYS_UNLINK : Z := 24.
Definition SYS_RENAME : Z := 25.
Definition SYS_LISTDIR : Z := 26.
Definition SYS_MMAP : Z := 40.
Definition SYS_MUNMAP : Z := 41.
Definition SYS_GPU_INFO : Z := 60.
Definition SYS_GPU_FLUSH : Z := 61.
Definition SYS_GET_EVENT : Z := 62.
Definition SYS_WMCTL : Z := 63.

Definition USER_PATH_MAX : Z := 256.
Definition GPU_FORMAT_BGRA8888 : Z := 1.

Record sys_state (P G : Type) := SysState {
  ss_kernel : kernel_state P;
  ss_events : kevent_state;
  ss_kbd : kbd_state;
  ss_console : list Z;
  ss_gpu : G;
}.
Arguments SysState {P G} ss_kernel ss_events ss_kbd ss_console ss_gpu.
Arguments ss_kernel {P G} s.
Arguments ss_events {P G} s.
Arguments ss_kbd {P G} s.
Arguments ss_console {P G} s.
Arguments ss_gpu {P G} s.

(** [(uint32_t) x] in little-endian bytes, as [memcpy] takes them from a struct. *)
Definition word_bytes (x : Z) : list Z :=
  let x := wrap32 x in [x mod 256; x / 256 mod 256; x / 65536 mod 256; x / 16777216 mod 256].

(** How a system call ends: with [struct syscall_result] and the stores to user
    memory; asleep in [proc_waitpid]; or not at all, in [proc_exit]. *)
Inductive sys_result :=
| SysDone (value : Z) (context_replaced : bool) (stores : list (Z * Z))
| SysSleep (pid_ status_ptr options : Z)
| SysGone.

(** The C string in a buffer that [copy_string_from_user] filled. *)
Definition until_nul (l : list Z) : list Z := removelast l.

Section ops.
Context {L : Layout} {P G : Type} {PO : PageOps P} {RE : ResumeEntry} {EX : Ext4Ops} {GO : GpuOps P G}.
Abbreviation SM := (km (sys_state P G)).

Definition on_kernel {A} (c : km (kernel_state P) A) : SM A :=
  zoom ss_kernel (λ k s, SysState k (ss_events s) (ss_kbd s) (ss_console s) (ss_gpu s)) c.
Definition on_events {A} (c : km kevent_state A) : SM A :=
  zoom ss_events (λ e s, SysState (ss_kernel s) e (ss_kbd s) (ss_console s) (ss_gpu s)) c.

(** The driver works on the pages of the kernel. *)
Definition on_display {A} (c : km (P * G) A) : SM A :=
  zoom (λ s, (vm_pages (k_vm (ss_kernel s)), ss_gpu s))
    (λ r s, SysState (set_k_vm (set_vm_pages r.1 (k_vm (ss_kernel s))) (ss_kernel s)) (ss_events s) (ss_kbd s) (ss_console s) r.2) c.

Definition done (value : Z) : SM sys_result := kret (SysDone value false []).
(** Code that returns a value and stores at a user address. *)
Definition done_at (addr : Z) (r : Z * list Z) : SM sys_result :=
  kret (SysDone r.1 false (zip (addrs_from (length r.2) addr) r.2)).

Definition current : SM process :=
  on_kernel (let! i := cur_index in get_proc i).

(** The answer of an access check or copy; one that does not end has no answer. *)
Definition checked {A} (o : option A) : SM A := match o with Some a => kret a | None => knofuel end.

(** *** sys_device.c *)

Definition sys_putchar (ch : Z) : SM sys_result :=
  do! kmodify (λ s, SysState (ss_kernel s) (ss_events s) (ss_kbd s) (ss_console s ++ [ch mod 256]) (ss_gpu s)) in
  done 0.

(** [console] is what the firmware would answer.  The debugging output of the
    keyboard queue is left out. *)
Definition sys_getchar (console : Z) : SM sys_result :=
  let! s := kget in
  let '(r, kbd) := getchar console (ss_kbd s) in
  do! kmodify (λ s, SysState (ss_kernel s) (ss_events s) kbd (ss_console s) (ss_gpu s)) in
  match r with Some c => done c | None => kfault end.

Definition sys_gpu_info (user_info : Z) : SM sys_result :=
  let! s := kget in
  let! p := current in
  let g := ss_gpu s in
  let info := word_bytes (virtio_gpu_width g) ++ word_bytes (virtio_gpu_height g) ++
              word_bytes (virtio_gpu_pitch g) ++ word_bytes GPU_FORMAT_BGRA8888 ++ word_bytes 0 in
  let! r := checked (copy_to_user (Some p) user_info (Some info) 20) in
  kret (SysDone r.1 false r.2).

Definition sys_gpu_flush : SM sys_result :=
  let! s := kget in
  if negb (virtio_gpu_is_ready (ss_gpu s)) then done (-1)
  else
    do! on_display virtio_gpu_present in
    done 0.

(** [struct sys_event]: five words, four bytes of padding, whose content C
    leaves open and which are zero here, and a 64-bit number. *)
Definition event_bytes (e : k_event) : list Z :=
  word_bytes (ev_type e) ++ word_bytes (ev_a e) ++ word_bytes (ev_b e) ++ word_bytes (ev_c e) ++ word_bytes (ev_d e) ++
  word_bytes 0 ++ word_bytes (ev_seq e) ++ word_bytes (ev_seq e / 4294967296).

Definition sys_get_event (user_event : Z) : SM sys_result :=
  let! p := current in
  let! ok := (if user_event =? 0 then kret false else checked (proc_user_writable_ok (Some p) user_event 32)) in
  if negb ok then done (-1)
  else
    let! e := on_events kevent_pop in
    match e with
    | None => done 0
    | Some event =>
        let! r := checked (copy_to_user (Some p) user_event (Some (event_bytes event)) 32) in
        if r.1 <? 0 then done (-1) else kret (SysDone 1 false r.2)
    end.

Definition sys_wmctl (cmd user_arg : Z) : SM sys_result := done (-1).

(** *** sys_vm.c *)

Definition sys_mmap (user_addr length_ prot flags : Z) : SM sys_result :=
  let! r := on_kernel (let! i := cur_index in let! p := get_proc i in
    let! r := on_vm (proc_mmap p user_addr length_ prot flags) in
    do! put_proc i r.2 in kret r.1) in
  done r.

Definition sys_munmap (user_addr length_ : Z) : SM sys_result :=
  let! r := on_kernel (let! i := cur_index in let! p := get_proc i in
    let! r := on_vm (proc_munmap p user_addr length_) in
    do! put_proc i r.2 in kret r.1) in
  done r.

(** *** sys_proc.c *)

(** Returns when the process gets the hart back. *)
Definition sys_yield : SM sys_result := do! on_kernel do_yield in done 0.
Definition sys_exit (status : Z) : SM sys_result := do! on_kernel (proc_exit status) in kret SysGone.
Definition sys_fork : SM sys_result := let! r := on_kernel proc_fork in done r.
Definition sys_exec (ld ld32 : Z → Z) (entry_pc argv : Z) : SM Z := on_kernel (proc_exec ld ld32 entry_pc argv).

(** After [proc_waitpid]: the status goes to the user, or the call sleeps. *)
Definition waitpid_finish (p : process) (pid_ status_ptr options : Z) (r : wait_result) : SM sys_result :=
  match r with
  | WaitSleep => kret (SysSleep pid_ status_ptr options)
  | WaitReturn pid_result st =>
      if (0 <? pid_result) && negb (status_ptr =? 0) then
        let! c := checked (copy_to_user (Some p) status_ptr (Some (word_bytes (default 0 st))) 4) in
        if c.1 <? 0 then done (-1) else kret (SysDone pid_result false c.2)
      else done pid_result
  end.
Definition sys_waitpid (pid_ status_ptr options : Z) : SM sys_result :=
  let! p := current in
  let! ok := (if status_ptr =? 0 then kret true else checked (proc_user_writable_ok (Some p) status_ptr 4)) in
  if negb ok then done (-1)
  else
    let! r := on_kernel (proc_waitpid pid_ options) in
    waitpid_finish p pid_ status_ptr options r.
(** The sleeping call goes on. *)
Definition sys_waitpid_resume (pid_ status_ptr options : Z) : SM sys_result :=
  let! p := current in
  let! r := on_kernel (waitpid_resume pid_ options) in
  waitpid_finish p pid_ status_ptr options r.
Definition sys_wait (status_ptr : Z) : SM sys_result := sys_waitpid (-1) status_ptr 0.

(** *** sys_fs.c *)

(** [copy_string_from_user(kpath, user_path, USER_PATH_MAX)]; [None] where it
    returns -1. *)
Definition path_from_user (ld : Z → Z) (user_path : Z) : SM (option (list Z)) :=
  let! p := current in
  let! r := checked (copy_string_from_user (Some p) ld true user_path USER_PATH_MAX) in
  kret (if r.1 <? 0 then None else Some (until_nul r.2)).

Definition sys_open (ld : Z → Z) (user_path flags : Z) : SM sys_result :=
  let! kpath := path_from_user ld user_path in
  match kpath with
  | None => done (-1)
  | Some kpath => let! r := on_kernel (on_fs (fs_open (Some kpath) flags)) in done r
  end.

Definition sys_close (fd : Z) : SM sys_result := let! r := on_kernel (on_fs (fs_close fd)) in done r.

Definition sys_read (fd user_buf len : Z) : SM sys_result :=
  let! p := current in
  let! ok := (if negb (len =? 0) then checked (proc_user_writable_ok (Some p) user_buf len) else kret true) in
  if negb ok then done (-1)
  else let! r := on_kernel (on_fs (fs_read fd (negb (user_buf =? 0)) len)) in done_at user_buf r.

Definition sys_write (ld : Z → Z) (fd user_buf len : Z) : SM sys_result :=
  let! p := current in
  let! ok := (if negb (len =? 0) then checked (proc_user_readable_ok (Some p) user_buf len) else kret true) in
  if negb ok then done (-1)
  else
    let buf := if user_buf =? 0 then None else Some (ld <$> addrs_from (Z.to_nat len) user_buf) in
    let! r := on_kernel (on_fs (fs_write fd buf len)) in done r.

Definition sys_unlink (ld : Z → Z) (user_path : Z) : SM sys_result :=
  let! kpath := path_from_user ld user_path in
  match kpath with
  | None => done (-1)
  | Some kpath => let! r := on_kernel (on_fs (fs_unlink (Some kpath))) in done r
  end.

Definition sys_rename (ld : Z → Z) (user_old_path user_new_path : Z) : SM sys_result :=
  let! kold_path := path_from_user ld user_old_path in
  match kold_path with
  | None => done (-1)
  | Some kold_path =>
      let! knew_path := path_from_user ld user_new_path in
      match knew_path with
      | None => done (-1)
      | Some knew_path => let! r := on_kernel (on_fs (fs_rename (Some kold_path) (Some knew_path))) in done r
      end
  end.

Definition sys_listdir (user_buf len : Z) : SM sys_result :=
  let! p := current in
  let! ok := (if negb (len =? 0) then checked (proc_user_writable_ok (Some p) user_buf len) else kret true) in
  if negb ok then done (-1)
  else let! r := on_kernel (on_fs (fs_listdir (negb (user_buf =? 0)) len)) in done_at user_buf r.

(** *** syscall.c *)

Definition syscall_dispatch (ld ld32 : Z → Z) (console number : Z) (args : list Z) : SM sys_result :=
  let a i := args !!! i in
  if number =? SYS_PUTCHAR then sys_putchar (to_int (a 0%nat))
  else if number =? SYS_GETCHAR then sys_getchar console
  else if number =? SYS_YIELD then sys_yield
  else if number =? SYS_EXIT then sys_exit (to_int (a 0%nat))
  else if number =? SYS_FORK then sys_fork
  else if number =? SYS_WAIT then sys_wait (a 0%nat)
  else if number =? SYS_WAITPID then sys_waitpid (to_int (a 0%nat)) (a 1%nat) (to_int (a 2%nat))
  else if number =? SYS_OPEN then sys_open ld (a 0%nat) (to_int (a 1%nat))
  else if number =? SYS_CLOSE then sys_close (to_int (a 0%nat))
  else if number =? SYS_READ then sys_read (to_int (a 0%nat)) (a 1%nat) (a 2%nat)
  else if number =? SYS_WRITE then sys_write ld (to_int (a 0%nat)) (a 1%nat) (a 2%nat)
  else if number =? SYS_UNLINK then sys_unlink ld (a 0%nat)
  else if number =? SYS_RENAME then sys_rename ld (a 0%nat) (a 1%nat)
  else if number =? SYS_LISTDIR then sys_listdir (a 0%nat) (a 1%nat)
  else if number =? SYS_MMAP then sys_mmap (a 0%nat) (a 1%nat) (a 2%nat) (a 3%nat)
  else if number =? SYS_MUNMAP then sys_munmap (a 0%nat) (a 1%nat)
  else if number =? SYS_GPU_INFO then sys_gpu_info (a 0%nat)
  else if number =? SYS_GPU_FLUSH then sys_gpu_flush
  else if number =? SYS_GET_EVENT then sys_get_event (a 0%nat)
  else if number =? SYS_WMCTL then sys_wmctl (to_int (a 0%nat)) (a 1%nat)
  else if number =? SYS_EXEC then
    let! value := sys_exec ld ld32 (a 0%nat) (a 1%nat) in kret (SysDone value (value =? 0) [])
  else done (-1).

(** *** arch/riscv32/trap/syscall.c *)

Definition SSTATUS_SPP : Z := 256.

Definition set_sepc (v : Z) (f : trap_frame) : trap_frame :=
  TrapFrame (tf_ra f) (tf_gp f) (tf_tp f) (tf_t f) (tf_a f) (tf_s f) (tf_sp f) v (tf_sstatus f).
Definition set_a0 (v : Z) (f : trap_frame) : trap_frame :=
  TrapFrame (tf_ra f) (tf_gp f) (tf_tp f) (tf_t f) (<[0%nat := v]> (tf_a f)) (tf_s f) (tf_sp f) (tf_sepc f) (tf_sstatus f).

Definition from_user (f : trap_frame) : bool := negb (has_bits (tf_sstatus f) SSTATUS_SPP).

(** Up to [syscall_dispatch]: the frame moves past the instruction and, from
    user mode, is saved in the process, and SUM is set. *)
Definition ecall_enter (f : trap_frame) : SM trap_frame :=
  let f := set_sepc (add32 (tf_sepc f) 4) f in
  do! (if from_user f then on_kernel (
         let! i := cur_index in let! p := get_proc i in
         do! put_proc i (set_context f (tf_sepc f) p) in
         kmodify (λ k, KernelState (k_vm k) (k_fs k) (Z.lor (k_sstatus k) SSTATUS_SUM)))
       else kret tt) in
  kret f.

(** After [syscall_dispatch], for the process in slot [i] that made the call:
    the frame that is restored on return. *)
Definition ecall_return (i : nat) (f : trap_frame) (value : Z) (context_replaced : bool) : SM trap_frame :=
  on_kernel (
    let! p := get_proc i in
    let user := from_user f in
    let f := if context_replaced && user then frame p else set_a0 (wrap32 value) f in
    do! (if user then put_proc i (set_context f (tf_sepc f) p) else kret tt) in
    kret f).

(** A call that returns at once; [None] when the process sleeps or is gone. *)
Definition arch_handle_ecall (ld ld32 : Z → Z) (console : Z) (f : trap_frame) : SM (option (trap_frame * list (Z * Z))) :=
  let! i := on_kernel cur_index in
  let number := tf_a f !!! 7%nat in
  let args := take 6 (tf_a f) in
  let! f := ecall_enter f in
  let! r := syscall_dispatch ld ld32 console number args in
  match r with
  | SysDone value replaced stores =>
      let! f := ecall_return i f value replaced in kret (Some (f, stores))
  | _ => kret None
  end.
End ops.
