(* ===== verification/SyscallProps.v ===== *)
(** * System calls: theorems *)

From S2P Require Import Prelude Layout KString PageAlloc PageAllocSpec PageIface Vm Proc ProcessVm ProcessVmSpec ProcessVmProps Sched Ring Event.
From S2P Require Import Fs FsSpec FsOps FsProps UserCopy Process ProcessSpec ProcessLife ProcessProps GpuIface Syscall.

Section props.
Context {L : Layout} {P G : Type} {PO : PageOps P} {RE : ResumeEntry} {EX : Ext4Ops} {GO : GpuOps P G}.
Implicit Types s : sys_state P G.

(** ** Reaching the components *)

Definition with_kernel (k : kernel_state P) s : sys_state P G :=
  SysState k (ss_events s) (ss_kbd s) (ss_console s) (ss_gpu s).

Lemma wlp_on_kernel {A} (c : km (kernel_state P) A) (Q : A → sys_state P G → Prop) s :
  wlp c (λ a k, Q a (with_kernel k s)) (ss_kernel s) → wlp (on_kernel c) Q s.
Proof. unfold wlp, on_kernel, zoom. by destruct (c (ss_kernel s)) as [[a k]| | | |]. Qed.

Lemma wp_on_kernel {A} (c : km (kernel_state P) A) (Q : A → sys_state P G → Prop) s :
  wp c (λ a k, Q a (with_kernel k s)) (ss_kernel s) → wp (on_kernel c) Q s.
Proof. apply wp_zoom. Qed.

Lemma wlp_checked {A} (o : option A) (Q : A → sys_state P G → Prop) s :
  (∀ a, o = Some a → Q a s) → wlp (checked o) Q s.
Proof. intros HQ. unfold checked. destruct o as [a|]; [apply wlp_ret; by apply HQ|done]. Qed.

Lemma wlp_cur_index (Q : nat → kernel_state P → Prop) k : Q (k_cur k) k → wlp cur_index Q k.
Proof. done. Qed.

(** An unknown number is answered with -1 and changes nothing. *)
Lemma dispatch_unknown ld ld32 console number args s :
  number ∉ [1; 2; 3; 4; 5; 6; 7; 8; 20; 21; 22; 23; 24; 25; 26; 40; 41; 60; 61; 62; 63] →
  syscall_dispatch ld ld32 console number args s = Done (SysDone (-1) false [], s).
Proof.
  intros Hn. unfold syscall_dispatch.
  repeat match goal with
  | |- context [number =? ?c] =>
      destruct (Z.eqb_spec number c) as [->|_]; [exfalso; apply Hn; vm_compute; repeat constructor; fail|]
  end. done.
Qed.

(** ** Fork through the trap *)

(** The frame behind the [ecall] instruction with result [v]. *)
Definition returned (f : trap_frame) (v : Z) : trap_frame := set_a0 v (set_sepc (add32 (tf_sepc f) 4) f).

(** The child that the call made, if it made one. *)
Definition forked (k k' : kernel_state P) (parent : process) (f : trap_frame) (r : Z) : Prop :=
  ∃ (j : nat) old c, r = j + 1 ∧ j ≠ k_cur k ∧ k_procs k !! j = Some old ∧ state old = PROC_UNUSED ∧
    k_procs k' !! j = Some c ∧ pid c = r ∧ parent_pid c = pid parent ∧ state c = PROC_RUNNABLE ∧
    vmas c = vmas parent ∧ fds c = fds parent ∧ frame c = returned f 0.

Lemma dispatch_fork ld ld32 console args :
  syscall_dispatch (P := P) (G := G) ld ld32 console SYS_FORK args = sys_fork.
Proof. done. Qed.

Lemma ecall_enter_spec f s p (Q : trap_frame → sys_state P G → Prop) :
  k_procs (ss_kernel s) !! k_cur (ss_kernel s) = Some p → from_user f = true →
  (∀ s1, let f1 := set_sepc (add32 (tf_sepc f) 4) f in
     k_cur (ss_kernel s1) = k_cur (ss_kernel s) →
     k_procs (ss_kernel s1) = <[k_cur (ss_kernel s) := set_context f1 (tf_sepc f1) p]> (k_procs (ss_kernel s)) → Q f1 s1) →
  wlp (ecall_enter f) Q s.
Proof.
  intros Hp Hu HQ. unfold ecall_enter. cbv zeta. change (from_user (set_sepc (add32 (tf_sepc f) 4) f)) with (from_user f).
  rewrite Hu. wlp_step. apply wlp_on_kernel. wlp_step. apply wlp_cur_index. wlp_step. apply wlp_get_proc.
  intros p' Hp'. rewrite Hp in Hp'. injection Hp' as <-. wlp_step. apply wlp_put_proc. wlp_steps. by apply HQ.
Qed.

Lemma ecall_return_spec i f value s p (Q : trap_frame → sys_state P G → Prop) :
  k_procs (ss_kernel s) !! i = Some p → from_user f = true →
  (∀ s1, let f1 := set_a0 (wrap32 value) f in
     k_procs (ss_kernel s1) = <[i := set_context f1 (tf_sepc f1) p]> (k_procs (ss_kernel s)) → Q f1 s1) →
  wlp (ecall_return i f value false) Q s.
Proof.
  intros Hp Hu HQ. unfold ecall_return. apply wlp_on_kernel. wlp_step. apply wlp_get_proc. intros p' Hp'.
  rewrite Hp in Hp'. injection Hp' as <-. rewrite Hu. cbn [andb]. wlp_step. apply wlp_put_proc. wlp_steps. by apply HQ.
Qed.

(** fork as the two processes see it.  When the [ecall] returns, the caller
    goes on behind the instruction with -1 or the pid of the new process in
    [a0] and all other registers as they were, and this frame is also the one
    saved in its process; the new process, in a slot that was unused, will
    go on from the same frame with 0 in [a0]. *)
Theorem ecall_fork_correct ld ld32 console f s p f' stores s' :
  k_procs (ss_kernel s) !! k_cur (ss_kernel s) = Some p → state p ≠ PROC_UNUSED →
  from_user f = true → tf_a f !!! 7%nat = SYS_FORK → is_u32 (tf_sp f) →
  arch_handle_ecall ld ld32 console f s = Done (Some (f', stores), s') →
  ∃ r, stores = [] ∧ f' = returned f (wrap32 r) ∧
    (∃ p', k_procs (ss_kernel s') !! k_cur (ss_kernel s) = Some p' ∧ frame p' = f' ∧ pid p' = pid p ∧ state p' = state p) ∧
    (r = -1 ∨ forked (ss_kernel s) (ss_kernel s') p f r).
Proof.
  intros Hp Hl Hu Hn Hsp.
  cut (wlp (arch_handle_ecall ld ld32 console f) (λ o s', ∀ f' stores, o = Some (f', stores) →
    ∃ r, stores = [] ∧ f' = returned f (wrap32 r) ∧
    (∃ p', k_procs (ss_kernel s') !! k_cur (ss_kernel s) = Some p' ∧ frame p' = f' ∧ pid p' = pid p ∧ state p' = state p) ∧
    (r = -1 ∨ forked (ss_kernel s) (ss_kernel s') p f r)) s).
  { intros Hw Hd. exact (wlp_run _ _ _ _ _ Hw Hd _ _ eq_refl). }
  unfold arch_handle_ecall. wlp_step. apply wlp_on_kernel, wlp_cur_index. cbv zeta. wlp_step.
  apply (ecall_enter_spec f _ p); [done|done|]. intros s1 f1 Hc1 Hl1.
  change (ss_kernel (with_kernel (ss_kernel s) s)) with (ss_kernel s) in *.
  set (i := k_cur (ss_kernel s)) in *. set (p1 := set_context f1 (tf_sepc f1) p) in *.
  assert (Hi : (i < length (k_procs (ss_kernel s)))%nat) by (by eapply lookup_lt_Some).
  assert (Hp1 : k_procs (ss_kernel s1) !! k_cur (ss_kernel s1) = Some p1)
    by (rewrite Hc1, Hl1; by apply list_lookup_insert_eq).
  rewrite Hn. rewrite dispatch_fork. wlp_step.
  unfold sys_fork. wlp_step. apply wlp_on_kernel. eapply wlp_mono; [by apply (proc_fork_spec _ p1)|].
  intros r k2 [Hr [_ Hf]]. unfold done. wlp_steps.
  assert (Hslot : ∀ j q, k_procs (ss_kernel s1) !! j = Some q → state q = PROC_UNUSED → j ≠ i).
  { intros j q Hj Hq ->. rewrite Hc1 in Hp1. rewrite Hp1 in Hj. injection Hj as <-. done. }
  assert (Hpar : k_procs k2 !! i = Some p1).
  { rewrite <-Hc1 in *. destruct (fork_slot r) as [j|].
    - destruct Hf as (q & q' & Hj & Hq & -> & _). rewrite list_lookup_insert_ne; [done|]. by eapply Hslot.
    - destruct Hf as [->|(j & q & Hj & Hq & ->)]; [done|]. rewrite list_lookup_insert_ne; [done|]. by eapply Hslot. }
  apply (ecall_return_spec i f1 r _ p1); [done|done|]. intros s3 f3 Hl3. wlp_steps.
  intros f'' stores' [= <- <-]. exists r. split_and!; [done|done| |].
  - exists (set_context f3 (tf_sepc f3) p1). split; [|done]. rewrite Hl3. apply list_lookup_insert_eq.
    by eapply lookup_lt_Some.
  - unfold fork_slot in Hf. destruct (Z.ltb_spec r 0) as [Hneg|Hpos].
    { left. destruct Hr; [done|lia]. }
    right. destruct Hf as (q & c & Hj & Hq & Hl2 & Hch). set (j := Z.to_nat (r - 1)) in *.
    assert (Hji : j ≠ i) by (by eapply Hslot).
    assert (Hj0 : k_procs (ss_kernel s) !! j = Some q) by (by rewrite Hl1, list_lookup_insert_ne in Hj).
    destruct Hch as [Hpid Hpar' (Hst & _) _ _ (_ & Hvm & Hfd) _ Hfr _]. exists j, q, c.
    split_and!; try done; [lia| |rewrite Hpid; lia|].
    + rewrite Hl3, list_lookup_insert_ne by done. cbn. rewrite Hl2. apply list_lookup_insert_eq. by eapply lookup_lt_Some.
    + by apply Hfr.
Qed.

(** ** Events *)

Definition with_events (e : kevent_state) s : sys_state P G :=
  SysState (ss_kernel s) e (ss_kbd s) (ss_console s) (ss_gpu s).

Lemma wp_on_events {A} (c : km kevent_state A) (Q : A → sys_state P G → Prop) s :
  wp c (λ a e, Q a (with_events e s)) (ss_events s) → wp (on_events c) Q s.
Proof. apply wp_zoom. Qed.

Lemma wp_current s p (Q : process → sys_state P G → Prop) :
  k_procs (ss_kernel s) !! k_cur (ss_kernel s) = Some p → Q p s → wp current Q s.
Proof.
  intros Hp HQ. unfold current. apply wp_on_kernel. unfold wp, kbind, cur_index, get_proc. rewrite Hp. by destruct s.
Qed.

Lemma length_event_bytes e : length (event_bytes e) = 32%nat.
Proof. done. Qed.

(** The queue behind [sys_get_event], oldest event first. *)
Definition event_queue s : list k_event := event_items (ss_events s).

(** The process may write every byte of the [struct sys_event] at [a]. *)
Definition event_writable (p : process) (a : Z) : Prop := ∀ i, 0 ≤ i < 32 → allowed p (a + i) VMA_PROT_W.

Lemma writable_check p a :
  is_user p = true → vmas_ok (vmas p) → is_u32 a →
  ∃ b, proc_user_writable_ok (Some p) a 32 = Some b ∧ (b = true ↔ event_writable p a).
Proof.
  intros Hu Hok Ha. unfold proc_user_writable_ok. rewrite Hu. cbn [negb].
  apply range_ok_allowed; [done|done|done|unfold is_u32; lia|lia].
Qed.

(** no event is lost on its way to a user process.  [sys_get_event] always
    returns: -1, with nothing changed, exactly if the process may not write
    the 32 bytes at the given address; 0 if there is no event; and otherwise 1,
    with the oldest event, and only this one, taken out of the queue and stored
    there. *)
Theorem sys_get_event_correct s p user_event :
  k_procs (ss_kernel s) !! k_cur (ss_kernel s) = Some p → is_user p = true → vmas_ok (vmas p) →
  is_u32 user_event → user_event ≠ 0 → kevent_ok (ss_events s) →
  wp (sys_get_event user_event) (λ r s', ss_kernel s' = ss_kernel s ∧ kevent_ok (ss_events s') ∧
    ((event_writable p user_event ∧
      match event_queue s with
      | [] => r = SysDone 0 false [] ∧ event_queue s' = []
      | e :: l => r = SysDone 1 false (zip (addrs_from 32 user_event) (event_bytes e)) ∧ event_queue s' = l
      end) ∨
     (¬ event_writable p user_event ∧ r = SysDone (-1) false [] ∧ s' = s))) s.
Proof.
  intros Hp Hu Hok Ha Hnz Hq. destruct (writable_check p user_event Hu Hok Ha) as (b & Hb & Hiff).
  unfold sys_get_event. wp_step. apply (wp_current s p); [done|]. wp_step.
  rewrite (proj2 (Z.eqb_neq _ _) Hnz), Hb. unfold checked at 1. wp_steps. destruct b; cbn [negb].
  2: { unfold done. wp_steps. split_and!; [done|done|]. right. split_and!; [by rewrite <-Hiff|done|done]. }
  wp_step. apply wp_on_events. eapply wp_mono; [by apply kevent_pop_spec|]. intros o e' [Hok' Habs].
  assert (Hw : event_writable p user_event) by (by apply Hiff).
  unfold spec_pop in Habs. change (es_items (event_abs (ss_events s))) with (event_queue s) in Habs.
  destruct (event_queue s) as [|e l] eqn:Hl; injection Habs as -> Hit _.
  - unfold done. wp_steps. split_and!; [done|done|]. left. split_and!; [done|done|].
    unfold event_queue in *. cbn. by rewrite Hit.
  - unfold copy_to_user. rewrite (proj2 (Z.eqb_neq _ _) Hnz), Hb. cbn -[event_bytes addrs_from]. wp_steps.
    split_and!; [done|done|]. left. split_and!; done.
Qed.
End props.

(** ** Concrete instances *)

(** A display that is not there. *)
Definition no_gpu {P} : GpuOps P unit := {|
  virtio_gpu_init := kret (-1); virtio_gpu_is_ready := λ _, false;
  virtio_gpu_width := λ _, 0; virtio_gpu_height := λ _, 0; virtio_gpu_pitch := λ _, 0;
  virtio_gpu_backbuffer := λ _, 0; virtio_gpu_present := kret tt |}.

Section demo.
#[local] Existing Instance demo_layout.
#[local] Existing Instance no_ext4.
#[local] Existing Instance counting_pages.
#[local] Existing Instance demo_resume.
#[local] Existing Instance no_gpu.

(** One event waits in the queue. *)
Definition demo_events : kevent_state :=
  KeventState (KEvent 1 2 3 4 5 0 :: replicate 127 zero_event) 0 1 1 0.
Definition demo_sys : sys_state Z unit := SysState demo_kernel_state demo_events demo_kbd [] tt.
(** [ecall] with number 5 from user mode. *)
Definition demo_fork_frame : trap_frame :=
  TrapFrame 0 0 0 (replicate 7 0) (replicate 7 7 ++ [SYS_FORK]) (replicate 12 0) 1073741808 2149646336 32.
Definition no_memory (a : Z) : Z := 0.

Lemma ecall_fork_correct_witness :
  ∃ f' stores s', arch_handle_ecall no_memory no_memory 0 demo_fork_frame demo_sys = Done (Some (f', stores), s') ∧
  ∃ r, stores = [] ∧ f' = returned demo_fork_frame (wrap32 r) ∧
    (∃ p', k_procs (ss_kernel s') !! k_cur (ss_kernel demo_sys) = Some p' ∧ frame p' = f' ∧ pid p' = 3 ∧ state p' = PROC_RUNNABLE) ∧
    (r = -1 ∨ forked (ss_kernel demo_sys) (ss_kernel s') (demo_user 3 2 PROC_RUNNABLE) demo_fork_frame r).
Proof.
  destruct (outcome_done (arch_handle_ecall no_memory no_memory 0 demo_fork_frame demo_sys)
    (Some (returned demo_fork_frame 4, []))) as [s' Hd]; [vm_compute; reflexivity|].
  exists (returned demo_fork_frame 4), [], s'. split; [exact Hd|].
  apply (ecall_fork_correct no_memory no_memory 0 demo_fork_frame demo_sys (demo_user 3 2 PROC_RUNNABLE) _ _ s');
    [reflexivity|discriminate|reflexivity|reflexivity|unfold is_u32; cbn; lia|exact Hd].
Defined.

(** A process with areas in the window runs. *)
Definition demo_event_sys : sys_state Z unit :=
  with_kernel (KernelState (VmState 2151743488 0 0 0)
    (FsState (replicate 32 zero_inode) true false (SchedState [demo_proc 0] 0 0 0)) 0) demo_sys.

Lemma sys_get_event_correct_witness :
  wp (sys_get_event 536870916) (λ r s', ss_kernel s' = ss_kernel demo_event_sys ∧ kevent_ok (ss_events s') ∧
    ((event_writable (demo_proc 0) 536870916 ∧
      match event_queue demo_event_sys with
      | [] => r = SysDone 0 false [] ∧ event_queue s' = []
      | e :: l => r = SysDone 1 false (zip (addrs_from 32 536870916) (event_bytes e)) ∧ event_queue s' = l
      end) ∨
     (¬ event_writable (demo_proc 0) 536870916 ∧ r = SysDone (-1) false [] ∧ s' = demo_event_sys))) demo_event_sys.
Proof.
  apply sys_get_event_correct; [reflexivity|reflexivity|exact demo_vmas_ok|unfold is_u32; lia|discriminate|].
  split; [split; cbn; unfold KEVENT_Q_CAP; lia|reflexivity].
Defined.
End demo.
