(* ===== verification/SelSort.v ===== *)
(** * Selection sort on arrays

    The window manager (twice) and the input driver sort a small array in place
    with the same loops; [key] is what they compare. *)

From S2P Require Import Prelude.
From Stdlib Require Import Sorted.

Section sort.
Context {A : Type} `{Inhabited A} (key : A → Z).
Implicit Types l : list A.

(** [for (j = i + 1; j < n; j++) if (key(l[j]) < key(l[best])) best = j;] with
    [k] rounds left. *)
Fixpoint select_min (l : list A) (k j best : nat) : nat :=
  match k with
  | O => best
  | S k' => select_min l k' (S j) (if key (l !!! j) <? key (l !!! best) then j else best)
  end.

(** [tmp = l[i]; l[i] = l[best]; l[best] = tmp;] *)
Definition swap (l : list A) (i best : nat) : list A :=
  <[best := l !!! i]> (<[i := l !!! best]> l).

Fixpoint sort_loop (k i : nat) (l : list A) : list A :=
  match k with
  | O => l
  | S k' => sort_loop k' (S i) (swap l i (select_min l (length l - S i) (S i) i))
  end.
Definition selection_sort (l : list A) : list A := sort_loop (length l) 0 l.

(** ** Correctness *)

Definition key_le (x y : A) : Prop := key x ≤ key y.

Lemma select_min_spec l i : ∀ k j best,
  (k + j = length l)%nat → (i ≤ best < j)%nat →
  (∀ m, (i ≤ m < j)%nat → key (l !!! best) ≤ key (l !!! m)) →
  let r := select_min l k j best in
  (i ≤ r < length l)%nat ∧ ∀ m, (i ≤ m < length l)%nat → key (l !!! r) ≤ key (l !!! m).
Proof.
  induction k as [|k IH]; intros j best Hk Hb Hmin; simpl.
  - split; [lia|]. intros m Hm. apply Hmin. lia.
  - apply IH; [lia| |].
    + destruct (_ <? _); lia.
    + intros m Hm. destruct (Z.ltb_spec (key (l !!! j)) (key (l !!! best))) as [Hlt|Hge].
      * destruct (decide (m = j)) as [->|]; [lia|]. specialize (Hmin m ltac:(lia)). lia.
      * destruct (decide (m = j)) as [->|]; [lia|]. apply Hmin. lia.
Qed.

Lemma swap_suffix pre x l (k : nat) :
  (k < length (x :: l))%nat →
  ∃ y l', swap (pre ++ x :: l) (length pre) (length pre + k) = pre ++ y :: l' ∧
    y = (x :: l) !!! k ∧ y :: l' ≡ₚ x :: l.
Proof.
  intros Hk. unfold swap. rewrite list_lookup_total_middle by done.
  rewrite (lookup_total_app_r pre) by lia. replace (length pre + k - length pre)%nat with k by lia.
  rewrite (insert_app_r_alt pre (x :: l) (length pre)), Nat.sub_diag, insert_app_r by lia.
  destruct k as [|k]; simpl.
  - exists x, l. done.
  - destruct (lookup_lt_is_Some_2 l k) as [y Hy]; [simpl in Hk; lia|]. rewrite (list_lookup_total_correct _ _ _ Hy).
    exists y, (<[k := x]> l). split; [done|]. split; [done|].
    rewrite <-(take_drop_middle l k y Hy) at 2. rewrite insert_take_drop by (by eapply lookup_lt_Some).
    rewrite <-!Permutation_middle. apply perm_swap.
Qed.

Lemma sort_loop_spec : ∀ k pre l, length l = k →
  ∃ l', sort_loop k (length pre) (pre ++ l) = pre ++ l' ∧ l' ≡ₚ l ∧ StronglySorted key_le l'.
Proof.
  induction k as [|k IH]; intros pre l Hl.
  - destruct l; [|done]. exists []. split_and!; [done|done|constructor].
  - destruct l as [|x l]; [done|]. simpl.
    assert (Hlen : length (pre ++ x :: l) = (length pre + S k)%nat) by (rewrite length_app; simpl in *; lia).
    destruct (select_min_spec (pre ++ x :: l) (length pre) (length (pre ++ x :: l) - S (length pre)) (S (length pre)) (length pre))
      as [Hr Hmin]; [lia|lia| |].
    { intros m Hm. by replace m with (length pre) by lia. }
    set (r := select_min _ _ _ _) in *.
    destruct (swap_suffix pre x l (r - length pre)) as (y & l1 & Hsw & Hy & Hp); [simpl in *; lia|].
    replace (length pre + (r - length pre))%nat with r in Hsw by lia. rewrite Hsw.
    destruct (IH (pre ++ [y]) l1) as (l2 & Hs & Hp2 & Hso).
    { apply Permutation_length in Hp. simpl in *. lia. }
    rewrite length_app in Hs. simpl in Hs. rewrite Nat.add_1_r in Hs. rewrite <-!app_assoc in Hs. simpl in Hs.
    exists (y :: l2). split; [done|]. split; [by rewrite Hp2|]. constructor; [done|].
    apply list.Forall_forall. intros z Hz. unfold key_le.
    assert (Hzl : z ∈ x :: l) by (rewrite <-Hp, <-Hp2; by right).
    apply list_elem_of_lookup in Hzl as [m Hm].
    specialize (Hmin (length pre + m)%nat). rewrite !(lookup_total_app_r pre) in Hmin by lia.
    replace (length pre + m - length pre)%nat with m in Hmin by lia.
    rewrite (list_lookup_total_correct _ _ _ Hm), <-Hy in Hmin. apply Hmin.
    apply lookup_lt_Some in Hm. lia.
Qed.

(** The result has the same elements, in the order of their keys. *)
Lemma selection_sort_spec l : selection_sort l ≡ₚ l ∧ StronglySorted key_le (selection_sort l).
Proof.
  destruct (sort_loop_spec (length l) [] l eq_refl) as (l' & Hs & Hp & Hso). simpl in Hs.
  unfold selection_sort. by rewrite Hs.
Qed.
End sort.
