(* ===== verification/Virtq.v ===== *)
(** * Virtqueues: the split rings shared by the virtio drivers

    The block, input and display drivers declare the same structures: a table of
    descriptors, the available ring the driver fills and the used ring the
    device fills, both of 32 slots, with 16-bit indices that run freely and are
    reduced modulo 32 at each access.  [mmio] is the register interface of
    the device, a parameter: reading may change the device. *)

From S2P Require Import Prelude.

Definition VIRTQ_NUM : Z := 32.
Definition wrap16 (x : Z) : Z := x mod 65536.

Record virtq_desc := VirtqDesc { qd_addr : Z; qd_len : Z; qd_flags : Z; qd_next : Z }.
Definition zero_desc : virtq_desc := VirtqDesc 0 0 0 0.
Record virtq_avail := VirtqAvail { va_flags : Z; va_idx : Z; va_ring : list Z }.
Definition zero_avail : virtq_avail := VirtqAvail 0 0 (replicate 32 0).
Record virtq_used_elem := UsedElem { ue_id : Z; ue_len : Z }.
Record virtq_used := VirtqUsed { vu_flags : Z; vu_idx : Z; vu_ring : list virtq_used_elem }.
Definition zero_used : virtq_used := VirtqUsed 0 0 (replicate 32 (UsedElem 0 0)).

(** [avail.ring[avail.idx % VIRTQ_NUM] = head; avail.idx++;] *)
Definition avail_push (head : Z) (a : virtq_avail) : virtq_avail :=
  VirtqAvail (va_flags a) (wrap16 (va_idx a + 1)) (aset (va_ring a) (va_idx a mod VIRTQ_NUM) head).

(** What the device does to the used ring: it fills the next slot and moves the index. *)
Definition used_push (e : virtq_used_elem) (u : virtq_used) : virtq_used :=
  VirtqUsed (vu_flags u) (wrap16 (vu_idx u + 1)) (aset (vu_ring u) (vu_idx u mod VIRTQ_NUM) e).

(** [used.ring[last % VIRTQ_NUM]] *)
Definition used_at (u : virtq_used) (last : Z) : virtq_used_elem := default (UsedElem 0 0) (aget (vu_ring u) (last mod VIRTQ_NUM)).

Class Mmio (D : Type) := {
  mmio_read : Z → D → Z * D;
  mmio_write : Z → Z → D → D;
}.
#[global] Hint Mode Mmio ! : typeclass_instances.

(** The registers of [virtio-mmio]. *)
Definition MMIO_MAGIC_VALUE : Z := 0.
Definition MMIO_VERSION : Z := 4.
Definition MMIO_DEVICE_ID : Z := 8.
Definition MMIO_DEVICE_FEATURES : Z := 16.
Definition MMIO_DEVICE_FEATURES_SEL : Z := 20.
Definition MMIO_DRIVER_FEATURES : Z := 32.
Definition MMIO_DRIVER_FEATURES_SEL : Z := 36.
Definition MMIO_QUEUE_SEL : Z := 48.
Definition MMIO_QUEUE_NUM_MAX : Z := 52.
Definition MMIO_QUEUE_NUM : Z := 56.
Definition MMIO_QUEUE_READY : Z := 68.
Definition MMIO_QUEUE_NOTIFY : Z := 80.
Definition MMIO_INTERRUPT_STATUS : Z := 96.
Definition MMIO_INTERRUPT_ACK : Z := 100.
Definition MMIO_STATUS : Z := 112.
Definition MMIO_QUEUE_DESC_LOW : Z := 128.
Definition MMIO_QUEUE_DESC_HIGH : Z := 132.
Definition MMIO_QUEUE_DRIVER_LOW : Z := 144.
Definition MMIO_QUEUE_DRIVER_HIGH : Z := 148.
Definition MMIO_QUEUE_DEVICE_LOW : Z := 160.
Definition MMIO_QUEUE_DEVICE_HIGH : Z := 164.

Definition VIRTIO_MMIO_BASE : Z := 268439552.   (* 0x10001000 *)
Definition VIRTIO_MMIO_STEP : Z := 4096.
Definition VIRTIO_MAGIC : Z := 1953655158.      (* 0x74726976 *)
Definition slot_base (i : Z) : Z := VIRTIO_MMIO_BASE + i * VIRTIO_MMIO_STEP.

Definition VIRTQ_DESC_F_NEXT : Z := 1.
Definition VIRTQ_DESC_F_WRITE : Z := 2.

(** ** What the driver has not seen yet *)

Record used_ok (u : virtq_used) : Prop := {
  uo_len : length (vu_ring u) = 32%nat;
  uo_idx : 0 ≤ vu_idx u < 65536;
}.

Definition pending_count (u : virtq_used) (last : Z) : Z := (vu_idx u - last) mod 65536.
(** The elements between the driver's index and the device's, oldest first. *)
Definition pending (u : virtq_used) (last : Z) : list virtq_used_elem :=
  (λ k, used_at u (last + k)) <$> seqZ 0 (pending_count u last).

Lemma wrap_ring x : (x mod 65536) mod 32 = x mod 32.
Proof. Z.div_mod_to_equations. lia. Qed.

Lemma zero_used_ok : used_ok zero_used.
Proof. split; [done|]. cbn. lia. Qed.

Lemma used_push_ok e u : used_ok u → used_ok (used_push e u).
Proof.
  intros [Hl Hi]. split; cbn; [by rewrite length_aset|]. apply Z.mod_pos_bound. lia.
Qed.

Lemma pending_empty u last : used_ok u → 0 ≤ last < 65536 → pending u last = [] ↔ last = vu_idx u.
Proof.
  intros [Hl Hi] Hlast. unfold pending, pending_count. split.
  - intros Hn%fmap_nil_inv. assert (Hz : (vu_idx u - last) mod 65536 = 0).
    { pose proof (Z.mod_pos_bound (vu_idx u - last) 65536). apply (f_equal length) in Hn. rewrite length_seqZ in Hn. simpl in Hn. lia. }
    revert Hz. Z.div_mod_to_equations. lia.
  - intros ->. by rewrite Z.sub_diag.
Qed.

(** The driver takes the oldest element. *)
Lemma pending_pop u last :
  used_ok u → 0 ≤ last < 65536 → last ≠ vu_idx u →
  pending u last = used_at u last :: pending u (wrap16 (last + 1)).
Proof.
  intros [Hl Hi] Hlast Hne. unfold pending.
  assert (Hc : pending_count u last = Z.succ (pending_count u (wrap16 (last + 1)))).
  { unfold pending_count, wrap16. Z.div_mod_to_equations. lia. }
  assert (0 ≤ pending_count u (wrap16 (last + 1))) by (unfold pending_count; apply Z.mod_pos_bound; lia).
  rewrite Hc, seqZ_cons by lia. rewrite fmap_cons. f_equal; [by rewrite Z.add_0_r|].
  rewrite Z.pred_succ. change (Z.succ 0) with (1 + 0). rewrite <-fmap_add_seqZ, <-list_fmap_compose. apply list_fmap_ext. intros _ k _. cbn.
  unfold used_at, wrap16, VIRTQ_NUM. do 2 f_equal. Z.div_mod_to_equations. lia.
Qed.

(** The device adds one at the end, as long as the ring has room. *)
Lemma pending_push e u last :
  used_ok u → 0 ≤ last < 65536 → pending_count u last < 32 →
  pending (used_push e u) last = pending u last ++ [e].
Proof.
  intros [Hl Hi] Hlast Hroom.
  assert (Hc : pending_count (used_push e u) last = pending_count u last + 1).
  { unfold pending_count in *. cbn. unfold wrap16. Z.div_mod_to_equations. lia. }
  assert (Hn : 0 ≤ pending_count u last) by (unfold pending_count; apply Z.mod_pos_bound; lia).
  unfold pending. rewrite Hc, seqZ_app by lia. rewrite fmap_app. f_equal.
  - apply list_fmap_ext. intros _ k Hk%list_elem_of_lookup_2%elem_of_seqZ. unfold used_at. cbn. rewrite aget_aset_ne; [done|].
    unfold pending_count, VIRTQ_NUM in *. revert Hk Hroom. Z.div_mod_to_equations. lia.
  - assert (Hslot : (last + (0 + pending_count u last)) mod 32 = vu_idx u mod 32) by (unfold pending_count; Z.div_mod_to_equations; lia).
    rewrite seqZ_cons, seqZ_nil by lia. cbn [fmap list_fmap]. unfold used_at, used_push, VIRTQ_NUM. cbn [vu_ring].
    rewrite Hslot, aget_aset_eq; [done|]. rewrite Hl. apply Z.mod_pos_bound. lia.
Qed.

(** ** Loops that poll *)

(** [step] up to [p] times, until it returns [true]; by the binary digits of
    [p], so that a long timeout can be evaluated. *)
Fixpoint until_pos {S} (p : positive) (step : S → bool * S) (s : S) : bool * S :=
  match p with
  | xH => step s
  | xO q => let '(b, s1) := until_pos q step s in if b then (true, s1) else until_pos q step s1
  | xI q =>
      let '(b, s0) := step s in
      if b then (true, s0)
      else let '(b, s1) := until_pos q step s0 in if b then (true, s1) else until_pos q step s1
  end.

Fixpoint until_nat {S} (n : nat) (step : S → bool * S) (s : S) : bool * S :=
  match n with
  | O => (false, s)
  | Datatypes.S n => let '(b, s1) := step s in if b then (true, s1) else until_nat n step s1
  end.

Lemma until_nat_add {S} (step : S → bool * S) n k : ∀ s,
  until_nat (n + k) step s = let '(b, s1) := until_nat n step s in if b then (true, s1) else until_nat k step s1.
Proof.
  induction n as [|n IH]; intros s; simpl; [done|]. destruct (step s) as [[] s1]; [done|]. by rewrite IH.
Qed.

Lemma until_pos_nat {S} (step : S → bool * S) p : ∀ s, until_pos p step s = until_nat (Pos.to_nat p) step s.
Proof.
  induction p as [q IH|q IH|]; intros s.
  - rewrite Pos2Nat.inj_xI. simpl. destruct (step s) as [[] s0]; [done|]. rewrite Nat.add_0_r, until_nat_add, IH.
    destruct (until_nat (Pos.to_nat q) step s0) as [[] s1]; [done|]. apply IH.
  - rewrite Pos2Nat.inj_xO. simpl. rewrite Nat.add_0_r, until_nat_add, IH.
    destruct (until_nat (Pos.to_nat q) step s) as [[] s1]; [done|]. apply IH.
  - simpl. destruct (step s) as [[] s1]; done.
Qed.

Lemma until_inv {S} (I : S → Prop) (Q : S → Prop) (step : S → bool * S) p s :
  (∀ s, I s → I (step s).2 ∧ ((step s).1 = true → Q (step s).2)) → I s →
  I (until_pos p step s).2 ∧ ((until_pos p step s).1 = true → Q (until_pos p step s).2).
Proof.
  intros Hstep. rewrite until_pos_nat. revert s. induction (Pos.to_nat p) as [|n IH]; intros s Hs; simpl; [done|].
  destruct (Hstep s Hs) as [H1 H2]. destruct (step s) as [[] s1]; simpl in *; [auto|]. by apply IH.
Qed.
