(* ===== verification/VirtioInput.v ===== *)
(** * The input driver, [src/drivers/virtio/virtio_input.c]

    Up to four devices, each with a queue of 32 buffers for events.  A device
    fills a buffer and puts it on its used ring ([vi_arrive]) at any time between
    the calls; during a call the rings stand still.  Registers are those
    of the class [ViDevice].  Messages are left out. *)

From S2P Require Import Prelude SelSort Ring Event Virtq.

(** [struct virtio_input_event] *)
Record virtio_input_event := VirtioInputEvent { vi_type : Z; vi_code : Z; vi_value : Z }.
Definition zero_input : virtio_input_event := VirtioInputEvent 0 0 0.
Definition VI_EV_KEY : Z := 1.
Definition VI_EV_REL : Z := 2.
Definition VI_REL_X : Z := 0.
Definition VI_REL_Y : Z := 1.
Definition VI_BTN_LEFT : Z := 272.

Definition VI_MMIO_CONFIG_SEL : Z := 252.
Definition VI_MMIO_CONFIG_SUBSEL : Z := 256.
Definition VI_MMIO_CONFIG_SIZE : Z := 260.
Definition VI_MMIO_CONFIG_DATA : Z := 264.
Definition VI_MAX_DEVICES : nat := 4.
Definition KEVENT_TYPE_INPUT : Z := 1.

(** The words [vi_desc[dev]], [vi_avail[dev]], ... of one device; [vq_base] is [vi_bases[dev]]. *)
Record vi_queue := ViQueue {
  vq_desc : list virtq_desc; vq_avail : virtq_avail; vq_used : virtq_used; vq_events : list virtio_input_event;
  vq_base : Z; vq_last_used : Z }.
Definition zero_queue : vi_queue := ViQueue (replicate 32 zero_desc) zero_avail zero_used (replicate 32 zero_input) 0 0.

Record vi_state (D : Type) := ViState {
  vi_queues : list vi_queue; vi_dev_count : Z; vi_rr_next : Z; vi_ev_debug_budget : Z; vi_dev : D }.
Arguments ViState {D} _ _ _ _ _.
Arguments vi_queues {D} _.
Arguments vi_dev_count {D} _.
Arguments vi_rr_next {D} _.
Arguments vi_ev_debug_budget {D} _.
Arguments vi_dev {D} _.

(** Registers of 32 bits, and the bytes of the configuration space. *)
Class ViDevice (D : Type) := {
  vid_mmio :: Mmio D;
  vid_byte : Z → D → Z * D;
}.
#[global] Hint Mode ViDevice ! : typeclass_instances.

(** The addresses of the queues of a device and of its buffers. *)
Class ViPlaces := { vi_desc_at : Z → Z; vi_avail_at : Z → Z; vi_used_at : Z → Z; vi_event_at : Z → Z → Z }.

(** ** Names *)

Definition vi_char_is_letter (c : Z) : bool := ((97 <=? c) && (c <=? 122)) || ((65 <=? c) && (c <=? 90)).
Definition vi_to_lower (c : Z) : Z := if (65 <=? c) && (c <=? 90) then c - 65 + 97 else c.

(** [while (word[j] && name[k] && vi_to_lower(name[k]) == word[j])], where it
    ends with [word] used up: what is left of [name]. *)
Fixpoint match_at (name word : list Z) {struct word} : option (list Z) :=
  match word with
  | [] => Some name
  | c :: word' =>
      match name with
      | [] => None
      | n :: name' => if vi_to_lower n =? c then match_at name' word' else None
      end
  end.
(** The loop from the character after [prev] on; the byte after the name is NUL. *)
Fixpoint name_loop (prev : Z) (name word : list Z) : bool :=
  match name with
  | [] => false
  | c :: name' =>
      match match_at name word with
      | Some rest => if negb (vi_char_is_letter prev) && negb (vi_char_is_letter (hd 0 rest)) then true else name_loop c name' word
      | None => name_loop c name' word
      end
  end.
Definition vi_name_contains_word (name word : list Z) : bool := name_loop 32 name word.

Section driver.
Context {D : Type} {VD : ViDevice D} {VP : ViPlaces}.
Implicit Types s : vi_state D.

Definition set_vi_dev (d : D) s := ViState (vi_queues s) (vi_dev_count s) (vi_rr_next s) (vi_ev_debug_budget s) d.
Definition set_vi_queue (dev : nat) (q : vi_queue) s :=
  ViState (<[dev := q]> (vi_queues s)) (vi_dev_count s) (vi_rr_next s) (vi_ev_debug_budget s) (vi_dev s).

Definition vi_mmio_write (base off val : Z) s : vi_state D := set_vi_dev (mmio_write (add32 base off) val (vi_dev s)) s.
Definition vi_mmio_read (base off : Z) s : Z * vi_state D :=
  let '(v, d) := mmio_read (add32 base off) (vi_dev s) in (wrap32 v, set_vi_dev d s).

Definition vi_queue_push (id : Z) (q : vi_queue) : vi_queue :=
  ViQueue (vq_desc q) (avail_push id (vq_avail q)) (vq_used q) (vq_events q) (vq_base q) (vq_last_used q).

(** [data[i]] up to the NUL or [n] characters. *)
Fixpoint read_name (n : nat) (a : Z) s : list Z * vi_state D :=
  match n with
  | O => ([], s)
  | S n' =>
      let '(c, d) := vid_byte a (vi_dev s) in
      let s := set_vi_dev d s in
      if c mod 256 =? 0 then ([], s)
      else let '(l, s) := read_name n' (a + 1) s in (c mod 256 :: l, s)
  end.
(** [None] where it returns -1. *)
Definition vi_read_device_name (base name_sz : Z) s : option (list Z) * vi_state D :=
  if name_sz <=? 0 then (None, s)
  else
    let s := vi_mmio_write base VI_MMIO_CONFIG_SEL 1 s in
    let s := vi_mmio_write base VI_MMIO_CONFIG_SUBSEL 0 s in
    let '(size, s) := vi_mmio_read base VI_MMIO_CONFIG_SIZE s in
    if size =? 0 then (None, s)
    else
      let n := to_int size in
      let n := if name_sz <=? n then name_sz - 1 else n in
      let '(l, s) := read_name (Z.to_nat n) (add32 base VI_MMIO_CONFIG_DATA) s in (Some l, s).

(** [for (i = 0; i < VI_QNUM; i++) { vi_desc[dev][i] = ...; vi_queue_push(dev, i); }] *)
Definition offer_buffers (dev : Z) (q : vi_queue) : vi_queue :=
  foldl (λ q i,
    vi_queue_push i (ViQueue (aset (vq_desc q) i (VirtqDesc (vi_event_at dev i) 8 VIRTQ_DESC_F_WRITE 0)) (vq_avail q) (vq_used q)
      (vq_events q) (vq_base q) (vq_last_used q))) q (seqZ 0 32).

Definition vi_init_one_device (dev : nat) (base : Z) s : Z * vi_state D :=
  let s := vi_mmio_write base MMIO_STATUS 0 s in
  let s := vi_mmio_write base MMIO_STATUS 1 s in
  let s := vi_mmio_write base MMIO_STATUS 3 s in
  let s := vi_mmio_write base MMIO_DEVICE_FEATURES_SEL 0 s in
  let '(lo, s) := vi_mmio_read base MMIO_DEVICE_FEATURES s in
  let s := vi_mmio_write base MMIO_DEVICE_FEATURES_SEL 1 s in
  let '(hi, s) := vi_mmio_read base MMIO_DEVICE_FEATURES s in
  let dev_features := Z.lor lo (Z.shiftl hi 32) in
  if negb (has_bits dev_features (Z.shiftl 1 32)) then (-1, s)
  else
    let drv_features := Z.shiftl 1 32 in
    let s := vi_mmio_write base MMIO_DRIVER_FEATURES_SEL 0 s in
    let s := vi_mmio_write base MMIO_DRIVER_FEATURES (wrap32 drv_features) s in
    let s := vi_mmio_write base MMIO_DRIVER_FEATURES_SEL 1 s in
    let s := vi_mmio_write base MMIO_DRIVER_FEATURES (wrap32 (Z.shiftr drv_features 32)) s in
    let s := vi_mmio_write base MMIO_STATUS 11 s in
    let '(status, s) := vi_mmio_read base MMIO_STATUS s in
    if Z.land status 8 =? 0 then (-1, s)
    else
      let s := vi_mmio_write base MMIO_QUEUE_SEL 0 s in
      let '(qmax, s) := vi_mmio_read base MMIO_QUEUE_NUM_MAX s in
      if qmax <? VIRTQ_NUM then (-1, s)
      else
        let s := vi_mmio_write base MMIO_QUEUE_NUM VIRTQ_NUM s in
        let q0 := default zero_queue (vi_queues s !! dev) in
        let q := offer_buffers (Z.of_nat dev) (ViQueue (replicate 32 zero_desc) zero_avail zero_used (replicate 32 zero_input) (vq_base q0) (vq_last_used q0)) in
        let s := set_vi_queue dev q s in
        let s := vi_mmio_write base MMIO_QUEUE_DESC_LOW (vi_desc_at (Z.of_nat dev)) s in
        let s := vi_mmio_write base MMIO_QUEUE_DESC_HIGH 0 s in
        let s := vi_mmio_write base MMIO_QUEUE_DRIVER_LOW (vi_avail_at (Z.of_nat dev)) s in
        let s := vi_mmio_write base MMIO_QUEUE_DRIVER_HIGH 0 s in
        let s := vi_mmio_write base MMIO_QUEUE_DEVICE_LOW (vi_used_at (Z.of_nat dev)) s in
        let s := vi_mmio_write base MMIO_QUEUE_DEVICE_HIGH 0 s in
        let s := vi_mmio_write base MMIO_QUEUE_READY 1 s in
        let s := vi_mmio_write base MMIO_QUEUE_NOTIFY 0 s in
        let s := vi_mmio_write base MMIO_STATUS 15 s in
        (0, set_vi_queue dev (ViQueue (vq_desc q) (vq_avail q) (vq_used q) (vq_events q) base 0) s).

(** [struct vi_candidate] *)
Record vi_candidate := ViCandidate { vc_base : Z; vc_score : Z }.
#[local] Instance vi_candidate_inhabited : Inhabited vi_candidate := populate (ViCandidate 0 0).

Definition word_mouse : list Z := [109; 111; 117; 115; 101].
Definition word_tablet : list Z := [116; 97; 98; 108; 101; 116].
Definition word_keyboard : list Z := [107; 101; 121; 98; 111; 97; 114; 100].
Definition score_of (name : option (list Z)) : Z :=
  match name with
  | None => 2
  | Some name =>
      if vi_name_contains_word name word_mouse || vi_name_contains_word name word_tablet then 0
      else if vi_name_contains_word name word_keyboard then 1 else 2
  end.

(** The search over the eight slots. *)
Fixpoint find_candidates (slots : list Z) (cand : list vi_candidate) s : list vi_candidate * vi_state D :=
  match slots with
  | [] => (cand, s)
  | i :: slots' =>
      let base := slot_base i in
      let '(magic, s) := vi_mmio_read base MMIO_MAGIC_VALUE s in
      let '(version, s) := vi_mmio_read base MMIO_VERSION s in
      let '(dev, s) := vi_mmio_read base MMIO_DEVICE_ID s in
      if negb ((magic =? VIRTIO_MAGIC) && ((version =? 1) || (version =? 2)) && (dev =? 18)) then find_candidates slots' cand s
      else
        let '(name, s) := vi_read_device_name base 64 s in
        find_candidates slots'
          (if (length cand <? VI_MAX_DEVICES)%nat then cand ++ [ViCandidate base (score_of name)] else cand) s
  end.

Fixpoint init_candidates (cand : list vi_candidate) s : vi_state D :=
  match cand with
  | [] => s
  | c :: cand' =>
      if vi_dev_count s <? 4 then
        let '(rc, s) := vi_init_one_device (Z.to_nat (vi_dev_count s)) (vc_base c) s in
        init_candidates cand'
          (if rc =? 0 then ViState (vi_queues s) (vi_dev_count s + 1) (vi_rr_next s) (vi_ev_debug_budget s) (vi_dev s) else s)
      else s
  end.

Definition virtio_input_init s : Z * vi_state D :=
  let s := ViState ((λ q, ViQueue (vq_desc q) (vq_avail q) (vq_used q) (vq_events q) 0 0) <$> vi_queues s) 0 0 (vi_ev_debug_budget s) (vi_dev s) in
  let '(cand, s) := find_candidates (seqZ 0 8) [] s in
  let s := init_candidates (selection_sort vc_score cand) s in
  (if 0 <? vi_dev_count s then 0 else -1, s).

(** ** Events *)

(** The round over the devices, [n] counted off [ns]; the device comes with the event. *)
Fixpoint fetch_round (ns : list Z) s : option (nat * virtio_input_event) * vi_state D :=
  match ns with
  | [] => (None, s)
  | n :: ns' =>
      let dev := Z.to_nat ((vi_rr_next s + n) mod vi_dev_count s) in
      match vi_queues s !! dev with
      | None => (None, s)
      | Some q =>
          if vq_last_used q =? vu_idx (vq_used q) then fetch_round ns' s
          else
            let id := ue_id (used_at (vq_used q) (vq_last_used q)) in
            let q := ViQueue (vq_desc q) (vq_avail q) (vq_used q) (vq_events q) (vq_base q) (wrap16 (vq_last_used q + 1)) in
            if VIRTQ_NUM <=? id then fetch_round ns' (set_vi_queue dev q s)
            else
              let ev := default zero_input (aget (vq_events q) id) in
              let budget := if 0 <? vi_ev_debug_budget s then vi_ev_debug_budget s - 1 else vi_ev_debug_budget s in
              let s := set_vi_queue dev (vi_queue_push id q) s in
              let s := vi_mmio_write (vq_base q) MMIO_QUEUE_NOTIFY 0 s in
              (Some (dev, ev), ViState (vi_queues s) (vi_dev_count s) ((Z.of_nat dev + 1) mod vi_dev_count s) budget (vi_dev s))
      end
  end.
Definition vi_fetch_one_event s : option (nat * virtio_input_event) * vi_state D :=
  if vi_dev_count s <=? 0 then (None, s) else fetch_round (seqZ 0 (vi_dev_count s)) s.

Definition virtio_input_next_event s : option virtio_input_event * vi_state D :=
  let '(r, s) := vi_fetch_one_event s in (snd <$> r, s).

(** The acknowledgement of the interrupts of the devices. *)
Fixpoint ack_devices (devs : list nat) s : vi_state D :=
  match devs with
  | [] => s
  | dev :: devs' =>
      let base := vq_base (default zero_queue (vi_queues s !! dev)) in
      if base =? 0 then ack_devices devs' s
      else
        let '(st, s) := vi_mmio_read base MMIO_INTERRUPT_STATUS s in
        ack_devices devs' (if st =? 0 then s else vi_mmio_write base MMIO_INTERRUPT_ACK st s)
  end.

(** [while (vi_fetch_one_event(&ev, &dev) > 0) kevent_push(...)], with the
    events passed on. *)
Fixpoint forward_events (fuel : nat) : km (kevent_state * vi_state D) (list (nat * virtio_input_event)) :=
  match fuel with
  | O => knofuel
  | S fuel' =>
      let! st := kget in
      match vi_fetch_one_event st.2 with
      | (None, s) => do! kmodify (λ st, (st.1, s)) in kret []
      | (Some (dev, ev), s) =>
          do! kmodify (λ st, (st.1, s)) in
          do! zoom fst (λ k st, (k, st.2)) (kevent_push KEVENT_TYPE_INPUT (vi_type ev) (vi_code ev) (vi_value ev) 0) in
          let! l := forward_events fuel' in
          kret ((dev, ev) :: l)
      end
  end.

(** One round per element on the rings, and one to see that they are empty. *)
Definition ring_total s : nat :=
  sum_list_with (λ dev, match vi_queues s !! dev with Some q => Z.to_nat (pending_count (vq_used q) (vq_last_used q)) | None => O end)
    (seq 0 (Z.to_nat (vi_dev_count s))).
Definition virtio_input_handle_irq : km (kevent_state * vi_state D) (list (nat * virtio_input_event)) :=
  do! kmodify (λ st, (st.1, ack_devices (seq 0 (Z.to_nat (vi_dev_count st.2))) st.2)) in
  let! st := kget in
  forward_events (S (ring_total st.2)).

(** A device fills buffer [id] and puts it on the used ring. *)
Definition vi_arrive (dev : nat) (id : Z) (ev : virtio_input_event) s : vi_state D :=
  match vi_queues s !! dev with
  | Some q => set_vi_queue dev (ViQueue (vq_desc q) (vq_avail q) (used_push (UsedElem id 8) (vq_used q)) (aset (vq_events q) id ev)
                (vq_base q) (vq_last_used q)) s
  | None => s
  end.
End driver.
