(* ===== verification/Wm.v ===== *)
(** * The window manager, [src/kernel/gui/wm.c]

    The state holds the variables of the file beside the pages of the allocator,
    where images and the back buffer live, and the display driver.  Windows are
    found by their index in [wm_windows].  [int] arithmetic that overflows, which
    C leaves undefined, wraps; a division by zero is the outcome [Fault].  The
    messages of [wm_init] are left out. *)

From S2P Require Import Prelude Layout KString PageAlloc PageIface SelSort GpuIface VirtioInput.

Definition iadd (a b : Z) : Z := to_int (a + b).
Definition isub (a b : Z) : Z := to_int (a - b).
Definition imul (a b : Z) : Z := to_int (a * b).
(** [for (i = a; i < b; i++)] *)
Definition int_range (a b : Z) : list Z := seqZ a (b - a).

Definition WM_TEXT_SCREEN_W : Z := 80.
Definition WM_TEXT_SCREEN_H : Z := 25.
Definition WM_MAX_WINDOWS : nat := 8.
Definition WM_TITLE_MAX : nat := 24.
Definition WM_TEXT_MAX : nat := 4096.
Definition WM_EVENT_RING_SIZE : Z := 256.
Definition WM_TASKBAR_PX : Z := 28.

Definition WM_EV_FOCUS_IN : Z := 1.
Definition WM_EV_FOCUS_OUT : Z := 2.
Definition WM_EV_POINTER_MOVE : Z := 3.
Definition WM_EV_POINTER_BUTTON : Z := 4.
Definition WM_EV_OVERFLOW : Z := 5.
Definition WM_EV_WHEEL : Z := 6.
Definition WM_EV_KEY : Z := 7.

(** [struct wm_event] *)
Record wm_event := WmEvent {
  we_type : Z; we_window_id : Z; we_timestamp_ms : Z; we_a : Z; we_b : Z; we_c : Z; we_d : Z }.
Definition zero_wm_event : wm_event := WmEvent 0 0 0 0 0 0 0.

(** [struct wm_window]; flags are truth values but for [w_has_image], whose
    bytes matter. *)
Record wm_window := WmWindow {
  w_used : bool; w_id : Z; w_visible : bool; w_focusable : bool;
  w_x : Z; w_y : Z; w_w : Z; w_h : Z; w_z : Z;
  w_title : list Z; w_text : list Z;
  w_has_image : Z; w_image_w : Z; w_image_h : Z; w_image_pixels : Z; w_image_bytes : Z;
  w_ev_ring : list wm_event; w_ev_head : Z; w_ev_tail : Z; w_ev_overflow_latched : bool }.

Definition zero_window : wm_window :=
  WmWindow false 0 false false 0 0 0 0 0 (replicate WM_TITLE_MAX 0) (replicate WM_TEXT_MAX 0)
    0 0 0 0 0 (replicate 256 zero_wm_event) 0 0 false.
#[export] Instance wm_window_inhabited : Inhabited wm_window := populate zero_window.

Definition set_w_used v w := WmWindow v (w_id w) (w_visible w) (w_focusable w) (w_x w) (w_y w) (w_w w) (w_h w) (w_z w)
  (w_title w) (w_text w) (w_has_image w) (w_image_w w) (w_image_h w) (w_image_pixels w) (w_image_bytes w)
  (w_ev_ring w) (w_ev_head w) (w_ev_tail w) (w_ev_overflow_latched w).
Definition set_w_pos x y w := WmWindow (w_used w) (w_id w) (w_visible w) (w_focusable w) x y (w_w w) (w_h w) (w_z w)
  (w_title w) (w_text w) (w_has_image w) (w_image_w w) (w_image_h w) (w_image_pixels w) (w_image_bytes w)
  (w_ev_ring w) (w_ev_head w) (w_ev_tail w) (w_ev_overflow_latched w).
Definition set_w_size ww h w := WmWindow (w_used w) (w_id w) (w_visible w) (w_focusable w) (w_x w) (w_y w) ww h (w_z w)
  (w_title w) (w_text w) (w_has_image w) (w_image_w w) (w_image_h w) (w_image_pixels w) (w_image_bytes w)
  (w_ev_ring w) (w_ev_head w) (w_ev_tail w) (w_ev_overflow_latched w).
Definition set_w_z z w := WmWindow (w_used w) (w_id w) (w_visible w) (w_focusable w) (w_x w) (w_y w) (w_w w) (w_h w) z
  (w_title w) (w_text w) (w_has_image w) (w_image_w w) (w_image_h w) (w_image_pixels w) (w_image_bytes w)
  (w_ev_ring w) (w_ev_head w) (w_ev_tail w) (w_ev_overflow_latched w).
Definition set_w_strings title text has_image w := WmWindow (w_used w) (w_id w) (w_visible w) (w_focusable w) (w_x w) (w_y w)
  (w_w w) (w_h w) (w_z w) title text has_image (w_image_w w) (w_image_h w) (w_image_pixels w) (w_image_bytes w)
  (w_ev_ring w) (w_ev_head w) (w_ev_tail w) (w_ev_overflow_latched w).
Definition set_w_image has_image iw ih pixels bytes w := WmWindow (w_used w) (w_id w) (w_visible w) (w_focusable w) (w_x w) (w_y w)
  (w_w w) (w_h w) (w_z w) (w_title w) (w_text w) has_image iw ih pixels bytes
  (w_ev_ring w) (w_ev_head w) (w_ev_tail w) (w_ev_overflow_latched w).
Definition set_w_ring ring head tail latched w := WmWindow (w_used w) (w_id w) (w_visible w) (w_focusable w) (w_x w) (w_y w)
  (w_w w) (w_h w) (w_z w) (w_title w) (w_text w) (w_has_image w) (w_image_w w) (w_image_h w) (w_image_pixels w) (w_image_bytes w)
  ring head tail latched.

(** ** Strings in a window *)

(** The bytes [strncpy(dst, src, n)] of [lib/string.c] writes from [dst] on, one
    more than [n] when the string is shorter ([strncpy_bytes_written]). *)
Definition strncpy_bytes (src : list Z) (n : nat) : list Z :=
  if (length src <? n)%nat then src ++ replicate (n - length src + 1) 0 else take n src.

(** [title] is followed by [text], and [text] by the bytes of [has_image], the
    least significant one first. *)
Definition put_title (src : list Z) (w : wm_window) : wm_window :=
  let b := strncpy_bytes src WM_TITLE_MAX in
  set_w_strings (take WM_TITLE_MAX b)
    (match b !! WM_TITLE_MAX with Some c => <[0%nat := c]> (w_text w) | None => w_text w end) (w_has_image w) w.
Definition put_text (src : list Z) (w : wm_window) : wm_window :=
  let b := strncpy_bytes src WM_TEXT_MAX in
  set_w_strings (w_title w) (take WM_TEXT_MAX b)
    (match b !! WM_TEXT_MAX with Some c => w_has_image w - w_has_image w mod 256 + c | None => w_has_image w end) w.

(** ** Event rings *)

Definition next_tick (t : Z) : Z := (t + 1) mod 18446744073709551616.
(** The end of the function, where the event is not merged; [cur] is what the
    slot at the tail holds. *)
Definition append_event (w : wm_window) (cur : wm_event) (tick type window_id a b c d : Z) : wm_window * Z :=
  let ring := w_ev_ring w in
  let head := w_ev_head w in
  let tail := w_ev_tail w in
  let next := (tail + 1) mod WM_EVENT_RING_SIZE in
  if next =? head then
    if negb (w_ev_overflow_latched w) then
      let head' := if next =? head then (head + 1) mod WM_EVENT_RING_SIZE else head in
      (set_w_ring (aset ring tail (WmEvent WM_EV_OVERFLOW (wrap32 (w_id w)) tick (we_a cur) (we_b cur) (we_c cur) (we_d cur)))
         head' next true w, next_tick tick)
    else (w, tick)
  else
    (set_w_ring (aset ring tail (WmEvent type window_id tick a b c d)) head next (w_ev_overflow_latched w) w, next_tick tick).
(** [wm_queue_event] for [w] in use, with the value of [wm_event_tick]; [None]
    where an index is outside the ring. *)
Definition queue_event (w : wm_window) (tick type window_id a b c d : Z) : option (wm_window * Z) :=
  let ring := w_ev_ring w in
  let head := w_ev_head w in
  let tail := w_ev_tail w in
  let last := (tail + WM_EVENT_RING_SIZE - 1) mod WM_EVENT_RING_SIZE in
  match aget ring last, aget ring tail with
  | Some prev, Some cur =>
      let merge := negb (head =? tail) && (we_type prev =? type) && (we_window_id prev =? window_id) in
      if merge && (type =? WM_EV_POINTER_MOVE) then
        Some (set_w_ring (aset ring last (WmEvent (we_type prev) (we_window_id prev) tick a b c d)) head tail
                (w_ev_overflow_latched w) w, next_tick tick)
      else if merge && (type =? WM_EV_WHEEL) then
        Some (set_w_ring (aset ring last (WmEvent (we_type prev) (we_window_id prev) tick (add32 (we_a prev) a) b c d)) head tail
                (w_ev_overflow_latched w) w, next_tick tick)
      else Some (append_event w cur tick type window_id a b c d)
  | _, _ => None
  end.

(** ** The state *)

Record dirty_rect := DirtyRect { d_valid : bool; d_x0 : Z; d_y0 : Z; d_x1 : Z; d_y1 : Z }.

Record wm_vars := WmVars {
  wm_windows : list wm_window;
  wm_next_id : Z; wm_next_z : Z;
  wm_screen_w : Z; wm_screen_h : Z;
  wm_cursor_x : Z; wm_cursor_y : Z; wm_cursor_visible : bool;
  wm_focus_id : Z; wm_event_tick : Z; wm_gpu_ready : bool;
  wm_dirty : dirty_rect;
  wm_clip : dirty_rect }.   (* [d_valid] is [wm_clip_enabled] *)

Definition set_windows l v := WmVars l (wm_next_id v) (wm_next_z v) (wm_screen_w v) (wm_screen_h v) (wm_cursor_x v) (wm_cursor_y v)
  (wm_cursor_visible v) (wm_focus_id v) (wm_event_tick v) (wm_gpu_ready v) (wm_dirty v) (wm_clip v).
Definition set_next_id x v := WmVars (wm_windows v) x (wm_next_z v) (wm_screen_w v) (wm_screen_h v) (wm_cursor_x v) (wm_cursor_y v)
  (wm_cursor_visible v) (wm_focus_id v) (wm_event_tick v) (wm_gpu_ready v) (wm_dirty v) (wm_clip v).
Definition set_next_z x v := WmVars (wm_windows v) (wm_next_id v) x (wm_screen_w v) (wm_screen_h v) (wm_cursor_x v) (wm_cursor_y v)
  (wm_cursor_visible v) (wm_focus_id v) (wm_event_tick v) (wm_gpu_ready v) (wm_dirty v) (wm_clip v).
Definition set_cursor x y v := WmVars (wm_windows v) (wm_next_id v) (wm_next_z v) (wm_screen_w v) (wm_screen_h v) x y
  (wm_cursor_visible v) (wm_focus_id v) (wm_event_tick v) (wm_gpu_ready v) (wm_dirty v) (wm_clip v).
Definition set_focus_id x v := WmVars (wm_windows v) (wm_next_id v) (wm_next_z v) (wm_screen_w v) (wm_screen_h v) (wm_cursor_x v) (wm_cursor_y v)
  (wm_cursor_visible v) x (wm_event_tick v) (wm_gpu_ready v) (wm_dirty v) (wm_clip v).
Definition set_event_tick x v := WmVars (wm_windows v) (wm_next_id v) (wm_next_z v) (wm_screen_w v) (wm_screen_h v) (wm_cursor_x v) (wm_cursor_y v)
  (wm_cursor_visible v) (wm_focus_id v) x (wm_gpu_ready v) (wm_dirty v) (wm_clip v).
Definition set_dirty x v := WmVars (wm_windows v) (wm_next_id v) (wm_next_z v) (wm_screen_w v) (wm_screen_h v) (wm_cursor_x v) (wm_cursor_y v)
  (wm_cursor_visible v) (wm_focus_id v) (wm_event_tick v) (wm_gpu_ready v) x (wm_clip v).
Definition set_clip x v := WmVars (wm_windows v) (wm_next_id v) (wm_next_z v) (wm_screen_w v) (wm_screen_h v) (wm_cursor_x v) (wm_cursor_y v)
  (wm_cursor_visible v) (wm_focus_id v) (wm_event_tick v) (wm_gpu_ready v) (wm_dirty v) x.

Definition set_window (i : nat) (w : wm_window) (v : wm_vars) : wm_vars := set_windows (<[i := w]> (wm_windows v)) v.

(** ** The dirty rectangle *)

Definition wm_screen_width (v : wm_vars) : Z := wm_screen_w v.
Definition wm_screen_height (v : wm_vars) : Z := wm_screen_h v.
Definition wm_usable_h (v : wm_vars) : Z :=
  if wm_gpu_ready v then
    let h := isub (wm_screen_h v) WM_TASKBAR_PX in
    if 1 <? h then h else 1
  else WM_TEXT_SCREEN_H - 1.

Definition wm_mark_dirty_rect (x y w h : Z) (v : wm_vars) : wm_vars :=
  if (w <=? 0) || (h <=? 0) then v
  else
    let x1 := iadd x w in
    let y1 := iadd y h in
    if (x1 <=? 0) || (y1 <=? 0) || (wm_screen_w v <=? x) || (wm_screen_h v <=? y) then v
    else
      let x0 := if x <? 0 then 0 else x in
      let y0 := if y <? 0 then 0 else y in
      let x1 := if wm_screen_w v <? x1 then wm_screen_w v else x1 in
      let y1 := if wm_screen_h v <? y1 then wm_screen_h v else y1 in
      if (x1 <=? x0) || (y1 <=? y0) then v
      else
        let d := wm_dirty v in
        if negb (d_valid d) then set_dirty (DirtyRect true x0 y0 x1 y1) v
        else
          set_dirty (DirtyRect true
            (if x0 <? d_x0 d then x0 else d_x0 d) (if y0 <? d_y0 d then y0 else d_y0 d)
            (if d_x1 d <? x1 then x1 else d_x1 d) (if d_y1 d <? y1 then y1 else d_y1 d)) v.

Definition wm_mark_dirty_window_box (x y w h : Z) : wm_vars → wm_vars :=
  wm_mark_dirty_rect (isub x 4) (isub y 4) (iadd w 8) (iadd h 8).
(** [None] is NULL. *)
Definition wm_mark_dirty_window (w : option wm_window) (v : wm_vars) : wm_vars :=
  match w with
  | None => v
  | Some w => if negb (w_used w) then v else wm_mark_dirty_window_box (w_x w) (w_y w) (w_w w) (w_h w) v
  end.
Definition wm_mark_dirty_taskbar (v : wm_vars) : wm_vars :=
  let y0 := wm_usable_h v in
  let y0 := if y0 <? 0 then 0 else y0 in
  wm_mark_dirty_rect 0 y0 (wm_screen_w v) (isub (wm_screen_h v) y0) v.
Definition wm_mark_dirty_full (v : wm_vars) : wm_vars :=
  set_dirty (DirtyRect true 0 0 (wm_screen_w v) (wm_screen_h v)) v.

(** ** Windows *)

Definition vi_u32_to_s32 (v : Z) : Z := if has_bits v 2147483648 then - to_int (add32 (not32 v) 1) else to_int v.

(** The index of the window, [None] for NULL. *)
Definition wm_find (v : wm_vars) (id : Z) : option nat :=
  find_index (λ w, w_used w && (w_id w =? id)) (wm_windows v).
Definition window_at (v : wm_vars) (o : option nat) : option wm_window := o ≫= λ i, wm_windows v !! i.

Definition wm_queue_event (o : option nat) (type window_id a b c d : Z) (v : wm_vars) : option wm_vars :=
  match o with
  | None => Some v
  | Some i =>
      w ← wm_windows v !! i;
      if negb (w_used w) then Some v
      else
        '(w', tick) ← queue_event w (wm_event_tick v) type window_id a b c d;
        Some (set_event_tick tick (set_window i w' v))
  end.

Definition wm_set_focus_internal (id : Z) (v : wm_vars) : option (Z * wm_vars) :=
  if wm_focus_id v =? id then Some (0, v)
  else
    let oldw := wm_find v (wm_focus_id v) in
    let neww := wm_find v id in
    let refused := match window_at v neww with None => true | Some w => negb (w_focusable w) || negb (w_visible w) end in
    if (0 <? id) && refused then Some (-1, v)
    else
      let id_of o := wrap32 (match window_at v o with Some w => w_id w | None => 0 end) in
      let v := set_focus_id id v in
      v ← wm_queue_event oldw WM_EV_FOCUS_OUT (id_of oldw) 0 0 0 0 v;
      v ← wm_queue_event neww WM_EV_FOCUS_IN (id_of neww) 0 0 0 0 v;
      let v := wm_mark_dirty_taskbar v in
      let v := wm_mark_dirty_window (window_at v oldw) v in
      Some (0, wm_mark_dirty_window (window_at v neww) v).

(** The loop of [wm_top_at] over the windows from index [i]. *)
Fixpoint top_at (l : list wm_window) (i : nat) (x y ignore_id : Z) (best : option nat) (best_z : Z) : option nat :=
  match l with
  | [] => best
  | w :: l' =>
      if negb (w_used w) || negb (w_visible w) || (w_id w =? ignore_id) then top_at l' (S i) x y ignore_id best best_z
      else if (x <? w_x w) || (y <? w_y w) || (iadd (w_x w) (w_w w) <=? x) || (iadd (w_y w) (w_h w) <=? y)
      then top_at l' (S i) x y ignore_id best best_z
      else if best_z <? w_z w then top_at l' (S i) x y ignore_id (Some i) (w_z w)
      else top_at l' (S i) x y ignore_id best best_z
  end.
Definition wm_top_at (x y ignore_id : Z) (v : wm_vars) : option nat := top_at (wm_windows v) 0 x y ignore_id None (-1).

(** The indices of the windows that [f] keeps, in the order of the table. *)
Definition indices_of (f : wm_window → bool) (l : list wm_window) : list nat :=
  filter (λ i, f (l !!! i) = true) (seq 0 (length l)).
Definition by_z (l : list wm_window) (i : nat) : Z := w_z (l !!! i).

(** [for (i = 0; i < n; i++) wm_windows[order[i]].z = i + 1;] *)
Fixpoint assign_z (order : list nat) (z : Z) (l : list wm_window) : list wm_window :=
  match order with
  | [] => l
  | i :: order' => assign_z order' (z + 1) (alter (set_w_z z) i l)
  end.
Definition wm_repack_z (v : wm_vars) : wm_vars :=
  let l := wm_windows v in
  let order := selection_sort (by_z l) (indices_of w_used l) in
  set_next_z (length order + 1) (set_windows (assign_z order 1 l) v).

(** ** Drawing *)

(** [fb[yy * fb_w + xx] = 0xff000000u | color;] *)
Definition pixel_addr (fb fb_w x y : Z) : Z := add32 fb (mul32 4 (iadd (imul y fb_w) x)).
Definition draw_pixel (fb fb_w x y color : Z) (m : mem) : mem :=
  store32 m (pixel_addr fb fb_w x y) (Z.lor 4278190080 color).

Definition clipped (clip : dirty_rect) (x y : Z) : bool :=
  d_valid clip && ((x <? d_x0 clip) || (y <? d_y0 clip) || (d_x1 clip <=? x) || (d_y1 clip <=? y)).

Definition wm_gpu_fill_rect (clip : dirty_rect) (fb fb_w fb_h x y w h color : Z) (m : mem) : mem :=
  if fb =? 0 then m
  else
    foldl (λ m yy,
      if (yy <? 0) || (fb_h <=? yy) then m
      else foldl (λ m xx,
        if (xx <? 0) || (fb_w <=? xx) then m
        else if clipped clip xx yy then m
        else draw_pixel fb fb_w xx yy color m) m (int_range x (iadd x w))) m (int_range y (iadd y h)).

(** The image of a window: [for (yy = 0; yy < image_h && yy < h; yy++)] ... *)
Definition blit (clip : dirty_rect) (fb fb_w fb_h : Z) (w : wm_window) (m : mem) : mem :=
  foldl (λ m yy,
    foldl (λ m xx,
      let dx := iadd (w_x w) xx in
      let dy := iadd (w_y w) yy in
      if (0 <=? dx) && (dx <? fb_w) && (0 <=? dy) && (dy <? fb_h) then
        if clipped clip dx dy then m
        else draw_pixel fb fb_w dx dy (load32 m (add32 (w_image_pixels w) (mul32 4 (iadd (imul yy (w_image_w w)) xx)))) m
      else m) m (int_range 0 (Z.min (w_image_w w) (w_w w)))) m (int_range 0 (Z.min (w_image_h w) (w_h w))).

Definition COLOR_DESKTOP : Z := 1450550.   (* 0x00162236 *)
Definition COLOR_FOCUSED : Z := 3886435.   (* 0x003b4d63 *)
Definition COLOR_WINDOW : Z := 2370099.    (* 0x00242a33 *)
Definition COLOR_CURSOR : Z := 16777215.   (* 0x00ffffff *)

Definition draw_window (clip : dirty_rect) (fb fb_w fb_h focus_id : Z) (m : mem) (w : wm_window) : mem :=
  let color := if w_id w =? focus_id then COLOR_FOCUSED else COLOR_WINDOW in
  let m := wm_gpu_fill_rect clip fb fb_w fb_h (w_x w) (w_y w) (w_w w) (w_h w) color m in
  if negb (w_has_image w =? 0) && negb (w_image_pixels w =? 0) then blit clip fb fb_w fb_h w m else m.

Definition draw_scene (fb fb_w fb_h : Z) (v : wm_vars) (m : mem) : mem :=
  let clip := wm_clip v in
  let l := wm_windows v in
  let m := wm_gpu_fill_rect clip fb fb_w fb_h 0 0 fb_w fb_h COLOR_DESKTOP m in
  let order := selection_sort (by_z l) (indices_of (λ w, w_used w && w_visible w) l) in
  let m := foldl (draw_window clip fb fb_w fb_h (wm_focus_id v)) m ((λ i, l !!! i) <$> order) in
  wm_gpu_fill_rect clip fb fb_w fb_h (wm_cursor_x v) (wm_cursor_y v) 8 8 COLOR_CURSOR m.

(** ** The operations *)

Record wm_state (P G : Type) := WmState { wm : wm_vars; wm_pages : P; wm_gpu : G }.
Arguments WmState {P G} wm wm_pages wm_gpu.
Arguments wm {P G} w.
Arguments wm_pages {P G} w.
Arguments wm_gpu {P G} w.

Section ops.
Context {P G : Type} {PO : PageOps P} {GO : GpuOps P G}.
Abbreviation WM := (km (wm_state P G)).

Definition on_vars (f : wm_vars → wm_vars) : WM unit := kmodify (λ s, WmState (f (wm s)) (wm_pages s) (wm_gpu s)).
Definition vars : WM wm_vars := let! s := kget in kret (wm s).
Definition on_wm_pages {A} (c : km P A) : WM A := zoom wm_pages (λ p s, WmState (wm s) p (wm_gpu s)) c.
Definition on_gpu {A} (c : km (P * G) A) : WM A :=
  zoom (λ s, (wm_pages s, wm_gpu s)) (λ r s, WmState (wm s) r.1 r.2) c.
Definition upd_mem (f : mem → mem) : WM unit :=
  on_wm_pages (kmodify (λ p, pg_set_mem (f (pg_mem p)) p)).
(** The steps that may leave an array. *)
Definition try_vars {A} (f : wm_vars → option (A * wm_vars)) : WM A :=
  let! v := vars in
  match f v with Some (a, v') => do! on_vars (λ _, v') in kret a | None => kfault end.

Definition wm_window_free_image (i : nat) : WM unit :=
  let! v := vars in
  match wm_windows v !! i with
  | None => kfault
  | Some win =>
      do! (if negb (w_image_pixels win =? 0) && (0 <? w_image_bytes win)
           then on_wm_pages (pg_free (w_image_pixels win) (add32 (w_image_bytes win) (PAGE_SIZE - 1) / PAGE_SIZE))
           else kret tt) in
      on_vars (set_window i (set_w_image 0 0 0 0 0 win))
  end.

Definition wm_init : WM unit :=
  do! on_vars (λ v, set_next_z 1 (set_next_id 1 (set_windows (replicate WM_MAX_WINDOWS zero_window) v))) in
  let! gpu_rc := on_gpu virtio_gpu_init in
  let! s := kget in
  let g := wm_gpu s in
  let ready := gpu_rc =? 0 in
  let w := if ready then virtio_gpu_width g else WM_TEXT_SCREEN_W in
  let h := if ready then virtio_gpu_height g else WM_TEXT_SCREEN_H in
  on_vars (λ v,
    let v := WmVars (wm_windows v) (wm_next_id v) (wm_next_z v) w h (wm_cursor_x v) (wm_cursor_y v)
      (wm_cursor_visible v) (wm_focus_id v) (wm_event_tick v) ready (wm_dirty v) (wm_clip v) in
    let v := WmVars (wm_windows v) (wm_next_id v) (wm_next_z v) w h (Z.quot w 2) (Z.quot (wm_usable_h v) 2)
      true (wm_focus_id v) (wm_event_tick v) ready (wm_dirty v) (wm_clip v) in
    wm_mark_dirty_full v).

(** [a % b] of C; [None] for [b] zero. *)
Definition c_rem (a b : Z) : option Z := if b =? 0 then None else Some (Z.rem a b).

(** [title] is [None] for NULL. *)
Definition default_title : list Z := [119; 105; 110; 100; 111; 119].
Definition empty_text : list Z := [40; 101; 109; 112; 116; 121; 41].
Definition wm_create (title : option (list Z)) (w h : Z) : WM Z :=
  let! v := vars in
  match find_index (λ w, negb (w_used w)) (wm_windows v) with
  | None => kret (-1)
  | Some slot =>
      let id := wm_next_id v in
      match c_rem (imul id 37) (iadd (isub (wm_screen_w v) w) 1), c_rem (imul id 2) (iadd (isub (wm_usable_h v) h) 1) with
      | Some x, Some y =>
          let win := WmWindow true id true true x y w h (wm_next_z v) (w_title zero_window) (w_text zero_window)
            0 0 0 0 0 (w_ev_ring zero_window) 0 0 false in
          let win := put_text empty_text (put_title (default default_title title) win) in
          do! on_vars (λ v, set_next_z (iadd (wm_next_z v) 1) (set_next_id (iadd id 1) (set_window slot win v))) in
          do! on_vars (wm_mark_dirty_window (Some win)) in
          do! on_vars wm_mark_dirty_taskbar in
          kret id
      | _, _ => kfault
      end
  end.

(** The body of the operations on one window: -1 without it. *)
Definition with_window (id : Z) (body : nat → wm_window → WM Z) : WM Z :=
  let! v := vars in
  match wm_find v id with
  | None => kret (-1)
  | Some i => match wm_windows v !! i with Some win => body i win | None => kfault end
  end.

Definition wm_move (id x y : Z) : WM Z := with_window id (λ i win,
  do! on_vars (wm_mark_dirty_window (Some win)) in
  let win := set_w_pos x y win in
  do! on_vars (set_window i win) in
  do! on_vars (wm_mark_dirty_window (Some win)) in kret 0).

Definition wm_resize (id w h : Z) : WM Z := with_window id (λ i win,
  do! on_vars (wm_mark_dirty_window (Some win)) in
  let win := set_w_size w h win in
  do! on_vars (set_window i win) in
  do! on_vars (wm_mark_dirty_window (Some win)) in kret 0).

Definition wm_focus (id : Z) : WM Z := with_window id (λ i win,
  do! on_vars (λ v, set_next_z (iadd (wm_next_z v) 1) (set_window i (set_w_z (wm_next_z v) win) v)) in
  try_vars (wm_set_focus_internal id)).

Definition wm_close (id : Z) : WM Z := with_window id (λ i win,
  do! on_vars (wm_mark_dirty_window (Some win)) in
  do! wm_window_free_image i in
  do! on_vars (λ v, set_windows (alter (set_w_used false) i (wm_windows v)) v) in
  do! on_vars (λ v, if wm_focus_id v =? id then set_focus_id 0 v else v) in
  do! on_vars wm_mark_dirty_taskbar in kret 0).

Definition wm_set_text (id : Z) (text : list Z) : WM Z := with_window id (λ i win,
  let win := put_text text win in
  do! on_vars (set_window i win) in
  do! on_vars (wm_mark_dirty_window (Some win)) in kret 0).

(** [pixels] is [None] for NULL, otherwise the bytes behind the pointer, which
    [memcpy] copies. *)
Fixpoint write_bytes (m : mem) (a : Z) (l : list Z) : mem :=
  match l with [] => m | b :: l' => write_bytes (wr m a b) (add32 a 1) l' end.
(** The pages for [bytes] bytes: [if (!win->image_pixels || win->image_bytes < bytes) { ... }] *)
Definition image_room (i : nat) (win : wm_window) (bytes : Z) : WM unit :=
  if (w_image_pixels win =? 0) || (w_image_bytes win <? bytes) then
    do! wm_window_free_image i in
    let! pa := on_wm_pages (pg_alloc (add32 bytes (PAGE_SIZE - 1) / PAGE_SIZE)) in
    on_vars (λ v, set_windows (alter (λ win, set_w_image (w_has_image win) (w_image_w win) (w_image_h win) pa bytes win) i
                    (wm_windows v)) v)
  else kret tt.
Definition wm_set_image (id : Z) (pixels : option (list Z)) (w h : Z) : WM Z := with_window id (λ i win,
  match pixels with
  | None => do! wm_window_free_image i in kret 0
  | Some pixels =>
      let bytes := wrap32 (imul (imul w h) 4) in
      do! image_room i win bytes in
      let! v := vars in
      match wm_windows v !! i with
      | None => kfault
      | Some win =>
          (* memcpy(NULL, ...) *)
          if (w_image_pixels win =? 0) && negb (bytes =? 0) then kfault
          else
            do! upd_mem (λ m, write_bytes m (w_image_pixels win) (take (Z.to_nat bytes) pixels)) in
            let win := set_w_image 1 w h (w_image_pixels win) (w_image_bytes win) win in
            do! on_vars (set_window i win) in
            do! on_vars (wm_mark_dirty_window (Some win)) in kret 0
      end
  end).

Definition wm_render_gpu : WM unit :=
  let! s := kget in
  let g := wm_gpu s in
  let fb := virtio_gpu_backbuffer g in
  let d := wm_dirty (wm s) in
  if (fb =? 0) || negb (d_valid d) then kret tt
  else
    let fb_w := virtio_gpu_width g in
    let fb_h := virtio_gpu_height g in
    do! on_vars (set_clip (DirtyRect true (d_x0 d) (d_y0 d) (d_x1 d) (d_y1 d))) in
    let! v := vars in
    do! upd_mem (draw_scene fb fb_w fb_h v) in
    do! on_vars (λ v, set_dirty (DirtyRect false (d_x0 d) (d_y0 d) (d_x1 d) (d_y1 d))
                        (set_clip (DirtyRect false (d_x0 d) (d_y0 d) (d_x1 d) (d_y1 d)) v)) in
    on_gpu virtio_gpu_present.

Definition wm_render : WM unit :=
  do! on_vars wm_repack_z in
  let! v := vars in
  if wm_gpu_ready v then wm_render_gpu else kret tt.

(** The events come from [virtio_input_next_event], until there is none. *)
Definition mouse_event (ev : virtio_input_event) (changed : bool) : WM bool :=
  do! (if vi_type ev =? VI_EV_REL then
         on_vars (λ v,
           let v := if vi_code ev =? VI_REL_X then set_cursor (iadd (wm_cursor_x v) (vi_u32_to_s32 (vi_value ev))) (wm_cursor_y v) v else v in
           if vi_code ev =? VI_REL_Y then set_cursor (wm_cursor_x v) (iadd (wm_cursor_y v) (vi_u32_to_s32 (vi_value ev))) v else v)
       else kret tt) in
  let changed := changed || ((vi_type ev =? VI_EV_REL) && ((vi_code ev =? VI_REL_X) || (vi_code ev =? VI_REL_Y))) in
  if (vi_type ev =? VI_EV_KEY) && (vi_code ev =? VI_BTN_LEFT) then
    do! (if negb (vi_value ev =? 0) then
           let! v := vars in
           match window_at v (wm_top_at (wm_cursor_x v) (wm_cursor_y v) 0 v) with
           | Some w => do! wm_focus (w_id w) in kret tt
           | None => kret tt
           end
         else kret tt) in
    kret true
  else kret changed.
Fixpoint mouse_events (evs : list virtio_input_event) (changed : bool) : WM bool :=
  match evs with
  | [] => kret changed
  | ev :: evs' => let! changed := mouse_event ev changed in mouse_events evs' changed
  end.
Definition wm_poll_mouse_input (evs : list virtio_input_event) : WM bool :=
  let! changed := mouse_events evs false in
  do! (if changed : bool then on_vars wm_mark_dirty_full else kret tt) in
  kret changed.

(** [Some] event where the function returns 1. *)
Definition wm_poll_event (window_id : Z) : WM (option wm_event) :=
  let! v := vars in
  match window_at v (wm_find v window_id), wm_find v window_id with
  | Some w, Some i =>
      if w_ev_head w =? w_ev_tail w then kret None
      else
        match aget (w_ev_ring w) (w_ev_head w) with
        | None => kfault
        | Some ev =>
            do! on_vars (set_window i (set_w_ring (w_ev_ring w) ((w_ev_head w + 1) mod WM_EVENT_RING_SIZE) (w_ev_tail w)
                                         (w_ev_overflow_latched w) w)) in
            kret (Some ev)
        end
  | _, _ => kret None
  end.

Definition wm_cursor_move (dx dy : Z) : WM unit :=
  on_vars (λ v, wm_mark_dirty_full (set_cursor (iadd (wm_cursor_x v) dx) (iadd (wm_cursor_y v) dy) v)).
End ops.
