(* ===== verification/WmEvents.v ===== *)
(** * The event queues of the windows

    [queue_event] keeps a first-in first-out queue of at most 255 events: moves of
    the pointer and turns of the wheel are merged with the last event; the first
    event that finds the queue full replaces the oldest by an overflow mark, and
    from then on a full queue drops the new ones. *)

From S2P Require Import Prelude Layout KString SelSort Ring Wm.

(** ** The strings of a window *)
Lemma cstring_get m p l : ∀ (k : nat) b, cstring m p l → l !! k = Some b → rd m (p + k) = b.
Proof.
  revert p. induction l as [|c l IH]; intros p k b Hs Hk; [done|]. destruct Hs as (Hc & _ & Hl). destruct k as [|k]; simpl in Hk.
  - injection Hk as <-. by rewrite Z.add_0_r.
  - replace (p + S k) with (p + 1 + k) by lia. by apply IH.
Qed.

(** [strncpy_bytes] lists what [strncpy] of [lib/string.c] writes. *)
Lemma strncpy_bytes_written m dst src (n : nat) l :
  cstring m src l → 0 ≤ dst → 0 ≤ src → dst + n < 4294967296 → src + length l < 4294967296 →
  dst + n < src ∨ src + length l < dst →
  ∃ m', strncpy dst src n m = Some m' ∧
    (∀ (k : nat) b, strncpy_bytes l n !! k = Some b → rd m' (dst + k) = b) ∧
    (∀ a, ¬ (dst ≤ a < dst + length (strncpy_bytes l n)) → rd m' a = rd m a).
Proof.
  intros Hs Hd Hsr Hde Hse Hov. destruct (strncpy_spec m dst src n l) as (m' & Hrun & Hm'); try done; [lia|].
  exists m'. split; [done|]. pose proof Hs as Hs'. unfold strncpy_bytes. destruct (Nat.ltb_spec (length l) n) as [Hlt|Hge]; split.
  - intros k b Hb. rewrite Hm'. destruct (decide (k < length l)%nat) as [Hk|Hk].
    + rewrite lookup_app_l in Hb by done. zcases; try lia. replace (src + (dst + k - dst)) with (src + k) by lia. by apply (cstring_get _ _ l).
    + rewrite lookup_app_r in Hb by lia. apply lookup_replicate in Hb as [-> Hb]. zcases; done.
  - intros a Ha. rewrite Hm'. rewrite length_app, length_replicate in Ha. zcases; (done || lia).
  - intros k b [Hb Hk]%lookup_take_Some. rewrite Hm'. apply lookup_lt_Some in Hb as Hlk. zcases; try lia.
    replace (src + (dst + k - dst)) with (src + k) by lia. by apply (cstring_get _ _ l).
  - intros a Ha. rewrite Hm'. rewrite length_take in Ha. zcases; (done || lia).
Qed.

(** ** The rings *)

Abbreviation RING := WM_EVENT_RING_SIZE.

Definition window_events (w : wm_window) : list wm_event :=
  ring_items zero_wm_event RING (w_ev_ring w) (w_ev_head w) (w_ev_tail w).
Definition window_ring_ok (w : wm_window) : Prop := ring_ok RING (w_ev_ring w) (w_ev_head w) (w_ev_tail w).

Definition same_source (e e' : wm_event) : Prop := we_type e = we_type e' ∧ we_window_id e = we_window_id e'.
#[export] Instance same_source_dec e e' : Decision (same_source e e').
Proof. unfold same_source. apply _. Defined.

(** What the queue is after event [e], stamped with the tick. *)
Inductive queued (id : Z) (q : list wm_event) (latched : bool) (e : wm_event) : list wm_event → bool → Prop :=
| QMove q0 p : q = q0 ++ [p] → same_source p e → we_type e = WM_EV_POINTER_MOVE → queued id q latched e (q0 ++ [e]) latched
| QWheel q0 p : q = q0 ++ [p] → same_source p e → we_type e = WM_EV_WHEEL →
    queued id q latched e
      (q0 ++ [WmEvent (we_type e) (we_window_id e) (we_timestamp_ms e) (add32 (we_a p) (we_a e)) (we_b e) (we_c e) (we_d e)]) latched
| QPush : (length q < 255)%nat → queued id q latched e (q ++ [e]) latched
| QOverflow m : length q = 255%nat → latched = false → we_type m = WM_EV_OVERFLOW → we_window_id m = wrap32 id →
    we_timestamp_ms m = we_timestamp_ms e → queued id q latched e (tail q ++ [m]) true
| QDrop : length q = 255%nat → latched = true → queued id q latched e q true.

Lemma ring_gt1 : 1 < RING.
Proof. done. Qed.

(** Rewriting the last element. *)
Lemma ring_set_last a head tail x :
  ring_ok RING a head tail → head ≠ tail →
  let last := (tail + RING - 1) mod RING in
  ∃ p q0, aget a last = Some p ∧ ring_items zero_wm_event RING a head tail = q0 ++ [p] ∧
    ring_ok RING (aset a last x) head tail ∧ ring_items zero_wm_event RING (aset a last x) head tail = q0 ++ [x].
Proof.
  intros [Hl Hh Ht] Hne last.
  assert (Hlast : 0 ≤ last < RING) by (apply Z.mod_pos_bound; done).
  assert (Hnext : (last + 1) mod RING = tail).
  { unfold last, WM_EVENT_RING_SIZE in *. rewrite mod_next by (apply Z.mod_pos_bound; lia). zcases; Z.div_mod_to_equations; lia. }
  assert (Hok : ring_ok RING a head last) by (by split).
  destruct (aget_in a last) as [p Hp]; [lia|]. exists p, (ring_items zero_wm_event RING a head last).
  assert (Hnh : (last + 1) mod RING ≠ head) by congruence.
  pose proof (ring_push zero_wm_event RING ring_gt1 a head last p Hok Hnh) as [_ H1].
  pose proof (ring_push zero_wm_event RING ring_gt1 a head last x Hok Hnh) as [Hok2 H2].
  rewrite Hnext in *. rewrite (aset_aget_id _ _ _ Hp) in H1. split_and!; done.
Qed.

Lemma append_event_spec w cur tick type window_id a b c d :
  window_ring_ok w →
  let w' := (append_event w cur tick type window_id a b c d).1 in
  w' = set_w_ring (w_ev_ring w') (w_ev_head w') (w_ev_tail w') (w_ev_overflow_latched w') w ∧ window_ring_ok w' ∧
  queued (w_id w) (window_events w) (w_ev_overflow_latched w) (WmEvent type window_id tick a b c d)
    (window_events w') (w_ev_overflow_latched w').
Proof.
  intros Hr. pose proof Hr as [Hlen Hh Ht]. pose proof (ring_full_iff zero_wm_event RING ring_gt1 _ _ _ Hr) as Hfull.
  fold (window_events w) in Hfull. unfold append_event. cbv zeta.
  destruct (Z.eqb_spec ((w_ev_tail w + 1) mod RING) (w_ev_head w)) as [Hf|Hf].
  - assert (Hl : length (window_events w) = 255%nat) by (apply Hfull in Hf; unfold WM_EVENT_RING_SIZE in Hf; lia).
    destruct (w_ev_overflow_latched w) eqn:Hlat; cbn [negb fst].
    { split; [by destruct w|]. split; [done|]. rewrite Hlat. by constructor. }
    assert (Hne : w_ev_head w ≠ w_ev_tail w).
    { rewrite (ring_empty_iff zero_wm_event RING ring_gt1 _ _ _ Hr). fold (window_events w). intros He. by rewrite He in Hl. }
    destruct (ring_pop zero_wm_event RING ring_gt1 _ _ _ Hr Hne) as [Hr1 Hit].
    set (m := WmEvent WM_EV_OVERFLOW (wrap32 (w_id w)) tick (we_a cur) (we_b cur) (we_c cur) (we_d cur)).
    destruct (ring_push zero_wm_event RING ring_gt1 _ _ _ m Hr1) as [Hr2 Hit2].
    { rewrite Hf. rewrite mod_next by done. unfold WM_EVENT_RING_SIZE in *. zcases; lia. }
    split; [done|]. split; [done|]. unfold window_events at 2. cbn. rewrite Hit2.
    change (ring_items _ _ _ ((w_ev_head w + 1) mod RING) _) with (tail (ring_at zero_wm_event RING (w_ev_ring w) (w_ev_head w) ::
      ring_items zero_wm_event RING (w_ev_ring w) ((w_ev_head w + 1) mod RING) (w_ev_tail w))).
    rewrite <-Hit. by apply (QOverflow _ _ _ _ m).
  - destruct (ring_push zero_wm_event RING ring_gt1 _ _ _ (WmEvent type window_id tick a b c d) Hr Hf) as [Hr2 Hit].
    cbn [fst]. split; [done|]. split; [done|]. unfold window_events at 2. cbn. rewrite Hit. constructor. fold (window_events w).
    pose proof (length_ring_items zero_wm_event RING ring_gt1 (w_ev_ring w) (w_ev_head w) (w_ev_tail w)) as Hl.
    pose proof (ring_len_bound RING ring_gt1 (w_ev_head w) (w_ev_tail w)). fold (window_events w) in Hl.
    assert (Z.of_nat (length (window_events w)) ≠ RING - 1) by (by rewrite <-Hfull). assert (RING = 256) by done. lia.
Qed.

Lemma queue_event_spec w tick type window_id a b c d :
  window_ring_ok w →
  ∃ w' tick', queue_event w tick type window_id a b c d = Some (w', tick') ∧
    w' = set_w_ring (w_ev_ring w') (w_ev_head w') (w_ev_tail w') (w_ev_overflow_latched w') w ∧ window_ring_ok w' ∧
    queued (w_id w) (window_events w) (w_ev_overflow_latched w) (WmEvent type window_id tick a b c d)
      (window_events w') (w_ev_overflow_latched w').
Proof.
  intros Hr. pose proof Hr as [Hlen Hh Ht]. unfold queue_event.
  set (e := WmEvent type window_id tick a b c d). set (last := (w_ev_tail w + RING - 1) mod RING).
  assert (Hlast : 0 ≤ last < RING) by (apply Z.mod_pos_bound; done).
  destruct (aget_in (w_ev_ring w) last) as [prev Hprev]; [lia|]. destruct (aget_in (w_ev_ring w) (w_ev_tail w)) as [cur Hcur]; [lia|].
  rewrite Hprev, Hcur.
  assert (Hset : ∀ x, negb (w_ev_head w =? w_ev_tail w) = true → ∃ q0, window_events w = q0 ++ [prev] ∧
    ring_ok RING (aset (w_ev_ring w) last x) (w_ev_head w) (w_ev_tail w) ∧
    ring_items zero_wm_event RING (aset (w_ev_ring w) last x) (w_ev_head w) (w_ev_tail w) = q0 ++ [x]).
  { intros x Hne%negb_true_iff%Z.eqb_neq. destruct (ring_set_last _ _ _ x Hr Hne) as (p & q0 & Hp & H1 & H2 & H3).
    fold last in Hp, H2, H3. rewrite Hprev in Hp. injection Hp as <-. by exists q0. }
  destruct (negb (w_ev_head w =? w_ev_tail w) && (we_type prev =? type) && (we_window_id prev =? window_id)) eqn:Hm; cbn [andb].
  - apply andb_true_iff in Hm as [[Hne Hty%Z.eqb_eq]%andb_true_iff Hid%Z.eqb_eq].
    destruct (Z.eqb_spec type WM_EV_POINTER_MOVE) as [Hmv|_].
    { destruct (Hset (WmEvent (we_type prev) (we_window_id prev) tick a b c d) Hne) as (q0 & Hq & Hok & Hit).
      eexists _, _. split; [done|]. split; [done|]. split; [done|]. rewrite Hq. unfold window_events. cbn. rewrite Hit.
      rewrite Hty, Hid. eapply (QMove _ _ _ e); done. }
    destruct (Z.eqb_spec type WM_EV_WHEEL) as [Hmv|_].
    { destruct (Hset (WmEvent (we_type prev) (we_window_id prev) tick (add32 (we_a prev) a) b c d) Hne) as (q0 & Hq & Hok & Hit).
      eexists _, _. split; [done|]. split; [done|]. split; [done|]. rewrite Hq. unfold window_events. cbn. rewrite Hit.
      rewrite Hty, Hid. eapply (QWheel _ _ _ e); done. }
    eexists _, _. split; [apply f_equal, surjective_pairing|]. by apply append_event_spec.
  - eexists _, _. split; [apply f_equal, surjective_pairing|]. by apply append_event_spec.
Qed.
