(* ===== verification/WmDraw.v ===== *)
(** * Drawing: what each pixel of the back buffer shows *)

From S2P Require Import Prelude Layout KString SelSort Wm.

(** ** Loops that paint *)

(** A loop whose steps leave an observation alone or set it to [c]. *)
Lemma foldl_paint {B} (inv : mem → Prop) (obs : mem → Z) (hit : B → bool) (c : Z) (f : mem → B → mem) l : ∀ m,
  (∀ m b, b ∈ l → inv m → inv (f m b) ∧ obs (f m b) = if hit b then c else obs m) →
  inv m → inv (foldl f m l) ∧ obs (foldl f m l) = if existsb hit l then c else obs m.
Proof.
  induction l as [|b l IH]; intros m Hf Hm; simpl; [done|].
  destruct (Hf m b) as [Hi Ho]; [left|done|]. destruct (IH (f m b)) as [Hi' Ho']; [|done|].
  { intros m' b' Hb. apply Hf. by right. }
  split; [done|]. rewrite Ho', Ho. by destruct (hit b), (existsb hit l).
Qed.

Lemma foldl_inv {B} (inv : mem → Prop) (f : mem → B → mem) l : ∀ m,
  (∀ m b, b ∈ l → inv m → inv (f m b)) → inv m → inv (foldl f m l).
Proof.
  induction l as [|b l IH]; intros m Hf Hm; simpl; [done|]. apply IH; [|apply Hf; [left|done]].
  intros m' b' Hb. apply Hf. by right.
Qed.

Lemma existsb_range a b (g : Z → bool) p :
  (∀ i, g i = true → i = p) → existsb g (int_range a b) = (a <=? p) && (p <? b) && g p.
Proof.
  intros Hg. destruct (existsb g (int_range a b)) eqn:He.
  - apply existsb_exists in He as (i & Hi%list_elem_of_In & Hgi). pose proof (Hg i Hgi) as ->.
    apply elem_of_seqZ in Hi. rewrite Hgi. symmetry. zcases; done.
  - destruct (g p) eqn:Hgp; [|by rewrite andb_false_r]. destruct (Z.leb_spec a p); [|done]. destruct (Z.ltb_spec p b); [|done].
    exfalso. assert (Ht : existsb g (int_range a b) = true); [|congruence]. apply existsb_exists. exists p. split; [|done].
    apply list_elem_of_In, elem_of_seqZ. lia.
Qed.

(** ** Pixels *)

Section pixels.
Context (fb W H : Z).
Hypothesis Hsize : 0 < W ≤ 1024 ∧ 0 < H ≤ 768.
Hypothesis Hfb : 0 ≤ fb ∧ fb + 4 * (W * H) ≤ 4294967296.

Definition on_screen (x y : Z) : Prop := 0 ≤ x < W ∧ 0 ≤ y < H.
Definition pixel (m : mem) (x y : Z) : Z := load32 m (fb + 4 * (y * W + x)).
(** An address outside the buffer. *)
Definition outside (a : Z) : Prop := a < fb ∨ fb + 4 * (W * H) ≤ a.
Definition kept_outside (m m' : mem) : Prop := ∀ a, outside a → rd m' a = rd m a.

#[export] Instance kept_outside_po : PreOrder kept_outside.
Proof. split; [done|]. intros m1 m2 m3 H1 H2 a Ha. rewrite H2, H1; done. Qed.

Lemma pixel_index x y : on_screen x y → 0 ≤ y * W + x < W * H ∧ is_int (y * W) ∧ is_int (y * W + x).
Proof. unfold on_screen, is_int. intros. nia. Qed.

Lemma pixel_addr_eq x y : on_screen x y → pixel_addr fb W x y = fb + 4 * (y * W + x).
Proof.
  intros Hs. destruct (pixel_index x y Hs) as (Hi & Hm & Ha). unfold pixel_addr, iadd, imul.
  rewrite (to_int_id (y * W)), to_int_id by done. rewrite mul32_small, add32_small by lia. done.
Qed.

Lemma pixel_inj x y px py : on_screen x y → on_screen px py → y * W + x = py * W + px → x = px ∧ y = py.
Proof.
  intros [Hx _] [Hpx _] He.
  assert (Hm : ∀ a b, 0 ≤ a < W → (b * W + a) mod W = a).
  { intros a b Ha. rewrite Z.add_comm, Z.mod_add by lia. by apply Z.mod_small. }
  assert (x = px) as <- by (rewrite <-(Hm x y), <-(Hm px py) by done; by rewrite He).
  split; [done|]. assert (y * W = py * W) by lia. by apply (Z.mul_reg_r _ _ W); [lia|].
Qed.

Lemma lor_alpha_u32 c : is_u32 c → is_u32 (Z.lor 4278190080 c).
Proof.
  unfold is_u32. intros Hc. assert (0 ≤ Z.lor 4278190080 c) by (apply Z.lor_nonneg; lia).
  destruct (decide (Z.lor 4278190080 c = 0)); [lia|]. split; [done|]. apply (Z.log2_lt_pow2 _ 32); [lia|].
  rewrite Z.log2_lor by lia. apply Z.max_lub_lt; [done|].
  destruct (decide (c = 0)) as [->|]; [done|]. apply Z.log2_lt_pow2; lia.
Qed.

Lemma draw_pixel_spec m x y c px py :
  on_screen x y → on_screen px py → is_u32 c →
  kept_outside m (draw_pixel fb W x y c m) ∧
  pixel (draw_pixel fb W x y c m) px py = if (x =? px) && (y =? py) then Z.lor 4278190080 c else pixel m px py.
Proof.
  intros Hs Hp Hc. unfold draw_pixel. rewrite pixel_addr_eq by done.
  destruct (pixel_index x y Hs) as (Hi & _), (pixel_index px py Hp) as (Hj & _).
  split.
  - intros a Ha. rewrite rd_store32. unfold outside in Ha. by zcases.
  - unfold pixel. pose proof (pixel_inj x y px py Hs Hp) as Hinj.
    destruct (decide (y * W + x = py * W + px)) as [He|Hne].
    + destruct (Hinj He) as [-> ->]. rewrite !Z.eqb_refl. by apply load32_store32_eq, lor_alpha_u32.
    + rewrite load32_store32_ne by lia. destruct (Z.eqb_spec x px) as [->|], (Z.eqb_spec y py) as [->|]; done.
Qed.

(** A rectangle, cut at the edges of the screen and by the clip. *)
Definition in_rect (x y w h px py : Z) : bool := (x <=? px) && (px <? x + w) && (y <=? py) && (py <? y + h).

Lemma fill_rect_spec clip x y w h c m px py :
  fb ≠ 0 → is_int (x + w) → is_int (y + h) → is_u32 c → on_screen px py →
  kept_outside m (wm_gpu_fill_rect clip fb W H x y w h c m) ∧
  pixel (wm_gpu_fill_rect clip fb W H x y w h c m) px py =
    if in_rect x y w h px py && negb (clipped clip px py) then Z.lor 4278190080 c else pixel m px py.
Proof.
  intros Hn Hxw Hyh Hc Hp. unfold wm_gpu_fill_rect, iadd. rewrite (proj2 (Z.eqb_neq _ _) Hn), !to_int_id by done.
  set (hit yy xx := (xx =? px) && (yy =? py) && negb (clipped clip px py)).
  assert (Hrow : ∀ m0 yy, kept_outside m m0 →
    let m1 := if (yy <? 0) || (H <=? yy) then m0 else foldl (λ m xx,
        if (xx <? 0) || (W <=? xx) then m else if clipped clip xx yy then m else draw_pixel fb W xx yy c m) m0 (int_range x (x + w)) in
    kept_outside m m1 ∧ pixel m1 px py =
      if (yy =? py) && ((x <=? px) && (px <? x + w)) && negb (clipped clip px py) then Z.lor 4278190080 c else pixel m0 px py).
  { intros m0 yy Hm0. cbv zeta. unfold on_screen in Hp.
    destruct ((yy <? 0) || (H <=? yy)) eqn:Hy.
    { split; [done|]. destruct (Z.eqb_spec yy py) as [->|]; [|done]. revert Hy. by zcases. }
    assert (Hyr : 0 ≤ yy < H) by (revert Hy; by zcases).
    edestruct (foldl_paint (kept_outside m) (λ m, pixel m px py) (hit yy) (Z.lor 4278190080 c)) as [Hk Ho]; [|exact Hm0|].
    2: { split; [exact Hk|]. rewrite Ho. rewrite (existsb_range _ _ _ px).
         2: { unfold hit. intros i. destruct (Z.eqb_spec i px); done. }
         unfold hit. rewrite Z.eqb_refl. cbn [andb]. destruct (x <=? px), (px <? x + w), (yy =? py), (clipped clip px py); done. }
    intros m' xx _ Hm'. unfold hit. destruct (Z.ltb_spec xx 0); simpl.
    { split; [done|]. by zcases. }
    destruct (Z.leb_spec W xx); simpl; [split; [done|]; by zcases|].
    destruct (clipped clip xx yy) eqn:Hcl.
    { split; [done|]. destruct (Z.eqb_spec xx px) as [->|]; [|done]. destruct (Z.eqb_spec yy py) as [->|]; [|done]. by rewrite Hcl. }
    destruct (draw_pixel_spec m' xx yy c px py) as [Hk Ho]; [done|done|done|]. split; [by etrans|]. rewrite Ho.
    destruct (Z.eqb_spec xx px) as [->|]; [|done]. destruct (Z.eqb_spec yy py) as [->|]; [|done]. by rewrite Hcl. }
  edestruct (foldl_paint (kept_outside m) (λ m, pixel m px py)
    (λ yy, (yy =? py) && ((x <=? px) && (px <? x + w)) && negb (clipped clip px py)) (Z.lor 4278190080 c)) as [Hk Ho]; [|done|].
  2: { split; [exact Hk|]. rewrite Ho. rewrite (existsb_range _ _ _ py).
       2: { intros i. destruct (Z.eqb_spec i py); done. }
       unfold in_rect. rewrite Z.eqb_refl. cbn [andb].
       destruct (x <=? px), (px <? x + w), (y <=? py), (py <? y + h), (clipped clip px py); done. }
  intros m0 yy _ Hm0. by apply Hrow.
Qed.

(** ** Windows *)

Definition shows_image (w : wm_window) : bool := negb (w_has_image w =? 0) && negb (w_image_pixels w =? 0).

(** Positions are [int]s on both ends; the image, if one is shown, lies outside the buffer. *)
Record window_geo (w : wm_window) : Prop := {
  wg_x : is_int (w_x w) ∧ is_int (w_x w + w_w w);
  wg_y : is_int (w_y w) ∧ is_int (w_y w + w_h w);
}.
Record image_geo (w : wm_window) : Prop := {
  ig_size : 0 ≤ w_image_w w ∧ 0 ≤ w_image_h w ∧ 4 * (w_image_h w * w_image_w w) < 2147483648;
  ig_place : 0 ≤ w_image_pixels w ∧ w_image_pixels w + 4 * (w_image_h w * w_image_w w) ≤ 4294967296;
  ig_apart : ∀ a, w_image_pixels w ≤ a < w_image_pixels w + 4 * (w_image_h w * w_image_w w) → outside a;
}.

(** The pixel of the image, column [ix] and row [iy]. *)
Definition image_pixel (m : mem) (w : wm_window) (ix iy : Z) : Z :=
  load32 m (w_image_pixels w + 4 * (iy * w_image_w w + ix)).

Lemma image_load m m' w ix iy :
  image_geo w → kept_outside m m' → 0 ≤ ix < w_image_w w → 0 ≤ iy < w_image_h w →
  load32 m' (add32 (w_image_pixels w) (mul32 4 (iadd (imul iy (w_image_w w)) ix))) = image_pixel m w ix iy.
Proof.
  intros [Hs Hp Ha] Hk Hx Hy. assert (Hi : 0 ≤ iy * w_image_w w ∧ iy * w_image_w w + ix < w_image_h w * w_image_w w) by nia.
  unfold iadd, imul. rewrite (to_int_id (iy * w_image_w w)) by (unfold is_int; lia). rewrite to_int_id by (unfold is_int; lia).
  rewrite mul32_small, add32_small by lia. apply load32_ext. intros b Hb. apply Hk, Ha. lia.
Qed.

Definition in_image (w : wm_window) (px py : Z) : bool :=
  in_rect (w_x w) (w_y w) (Z.min (w_image_w w) (w_w w)) (Z.min (w_image_h w) (w_h w)) px py.

Lemma blit_drawn clip w m px py :
  window_geo w → image_geo w → on_screen px py →
  kept_outside m (blit clip fb W H w m) ∧
  pixel (blit clip fb W H w m) px py =
    if in_image w px py && negb (clipped clip px py)
    then Z.lor 4278190080 (image_pixel m w (px - w_x w) (py - w_y w)) else pixel m px py.
Proof.
  intros [[Hx Hxw] [Hy Hyh]] Hig Hp. unfold blit. set (c := Z.lor _ _).
  assert (Hrow : ∀ m0 yy, 0 ≤ yy < Z.min (w_image_h w) (w_h w) → kept_outside m m0 →
    let m1 := foldl (λ m xx,
      let dx := iadd (w_x w) xx in let dy := iadd (w_y w) yy in
      if (0 <=? dx) && (dx <? W) && (0 <=? dy) && (dy <? H) then
        if clipped clip dx dy then m
        else draw_pixel fb W dx dy (load32 m (add32 (w_image_pixels w) (mul32 4 (iadd (imul yy (w_image_w w)) xx)))) m
      else m) m0 (int_range 0 (Z.min (w_image_w w) (w_w w))) in
    kept_outside m m1 ∧ pixel m1 px py =
      if (yy =? py - w_y w) && ((w_x w <=? px) && (px <? w_x w + Z.min (w_image_w w) (w_w w))) && negb (clipped clip px py)
      then c else pixel m0 px py).
  { intros m0 yy Hyy Hm0. cbv zeta.
    edestruct (foldl_paint (kept_outside m) (λ m, pixel m px py)
      (λ xx, (xx =? px - w_x w) && (yy =? py - w_y w) && negb (clipped clip px py)) c) as [Hk Ho]; [|exact Hm0|].
    2: { split; [exact Hk|]. rewrite Ho, (existsb_range _ _ _ (px - w_x w)).
         2: { intros i. destruct (Z.eqb_spec i (px - w_x w)); done. }
         rewrite Z.eqb_refl. cbn [andb]. destruct (yy =? _); [|by rewrite !andb_false_r]. destruct (clipped clip px py); [by rewrite !andb_false_r|].
         cbn [andb negb]. zcases; done. }
    intros m' xx Hxx%elem_of_seqZ Hm'. unfold on_screen, is_int, iadd in *. rewrite !to_int_id by (unfold is_int; lia).
    destruct ((0 <=? w_x w + xx) && (w_x w + xx <? W) && (0 <=? w_y w + yy) && (w_y w + yy <? H)) eqn:Hon.
    2: { split; [done|]. destruct (Z.eqb_spec xx (px - w_x w)); [|done]. destruct (Z.eqb_spec yy (py - w_y w)); [|done].
         exfalso. revert Hon. zcases; done. }
    assert (on_screen (w_x w + xx) (w_y w + yy)) by (unfold on_screen; revert Hon; zcases; done).
    destruct (clipped clip (w_x w + xx) (w_y w + yy)) eqn:Hcl.
    { split; [done|]. destruct (Z.eqb_spec xx (px - w_x w)) as [->|]; [|done]. destruct (Z.eqb_spec yy (py - w_y w)) as [->|]; [|done].
      replace (w_x w + (px - w_x w)) with px in Hcl by lia. replace (w_y w + (py - w_y w)) with py in Hcl by lia. by rewrite Hcl. }
    destruct (draw_pixel_spec m' (w_x w + xx) (w_y w + yy)
      (load32 m' (add32 (w_image_pixels w) (mul32 4 (to_int (imul yy (w_image_w w) + xx))))) px py) as [Hk Ho];
      [done|done|apply load32_range|]. split; [by etrans|]. rewrite Ho.
    destruct (Z.eqb_spec xx (px - w_x w)) as [->|]; [|destruct (Z.eqb_spec (w_x w + xx) px); [lia|done]].
    destruct (Z.eqb_spec yy (py - w_y w)) as [->|].
    2: { destruct (Z.eqb_spec (w_y w + yy) py); [lia|]. by rewrite andb_false_r. }
    replace (w_x w + (px - w_x w)) with px in * by lia. replace (w_y w + (py - w_y w)) with py in * by lia.
    rewrite !Z.eqb_refl, Hcl. cbn [andb negb]. unfold c. f_equal. apply image_load; try done; lia. }
  edestruct (foldl_paint (kept_outside m) (λ m, pixel m px py)
    (λ yy, (yy =? py - w_y w) && ((w_x w <=? px) && (px <? w_x w + Z.min (w_image_w w) (w_w w))) && negb (clipped clip px py)) c)
    as [Hk Ho]; [|done|].
  2: { split; [exact Hk|]. rewrite Ho, (existsb_range _ _ _ (py - w_y w)).
       2: { intros i. destruct (Z.eqb_spec i (py - w_y w)); done. }
       unfold in_image, in_rect. rewrite Z.eqb_refl. cbn [andb]. destruct (clipped clip px py); [by rewrite !andb_false_r|].
       cbn [negb]. rewrite !andb_true_r. zcases; done. }
  intros m0 yy Hyy%elem_of_seqZ Hm0. apply Hrow; [lia|done].
Qed.

(** What a window shows at a pixel inside it. *)
Definition window_pixel (focus_id : Z) (m : mem) (w : wm_window) (px py : Z) : Z :=
  Z.lor 4278190080 (if shows_image w && in_image w px py then image_pixel m w (px - w_x w) (py - w_y w)
                    else if w_id w =? focus_id then COLOR_FOCUSED else COLOR_WINDOW).
Definition in_window (w : wm_window) (px py : Z) : bool := in_rect (w_x w) (w_y w) (w_w w) (w_h w) px py.

Lemma draw_window_spec clip focus_id w m px py :
  fb ≠ 0 → window_geo w → (shows_image w = true → image_geo w) → on_screen px py →
  kept_outside m (draw_window clip fb W H focus_id m w) ∧
  pixel (draw_window clip fb W H focus_id m w) px py =
    if in_window w px py && negb (clipped clip px py) then window_pixel focus_id m w px py else pixel m px py.
Proof.
  intros Hn Hg Hig Hp. unfold draw_window, window_pixel. fold (shows_image w). pose proof Hg as [[_ Hxw] [_ Hyh]].
  destruct (fill_rect_spec clip (w_x w) (w_y w) (w_w w) (w_h w) (if w_id w =? focus_id then COLOR_FOCUSED else COLOR_WINDOW) m px py)
    as [Hk Ho]; [done|done|done| |done|].
  { destruct (_ =? _); done. }
  set (m1 := wm_gpu_fill_rect _ _ _ _ _ _ _ _ _ _) in *. destruct (shows_image w) eqn:Hsh; cbn [andb]; [|done].
  destruct (blit_drawn clip w m1 px py) as [Hk2 Ho2]; [done|by apply Hig|done|]. split; [by etrans|]. rewrite Ho2, Ho.
  fold (in_window w px py).
  assert (Hin : in_image w px py = true → in_window w px py = true).
  { unfold in_image, in_window, in_rect. zcases; done. }
  destruct (in_image w px py) eqn:Hii; cbn [andb]; [rewrite (Hin eq_refl)|done]. destruct (clipped clip px py); cbn [andb negb]; [done|].
  f_equal. unfold image_pixel. apply load32_ext. intros b Hb. apply Hk. apply (Hig eq_refl).
  unfold in_image, in_rect in Hii. assert (0 ≤ px - w_x w < w_image_w w ∧ 0 ≤ py - w_y w < w_image_h w) by (revert Hii; zcases; [lia|done..]).
  nia.
Qed.
End pixels.
