(* ===== verification/WmOrder.v ===== *)
(** * The stacking order: which window is on top, and [wm_repack_z] *)

From S2P Require Import Prelude Layout KString SelSort Wm.
From Stdlib Require Import Sorted.

(** ** The window on top *)

(** What [wm_top_at] looks for. *)
Definition hit (w : wm_window) (x y ignore_id : Z) : bool :=
  w_used w && w_visible w && negb (w_id w =? ignore_id) &&
  negb ((x <? w_x w) || (y <? w_y w) || (iadd (w_x w) (w_w w) <=? x) || (iadd (w_y w) (w_h w) <=? y)).

(** [best] is the index of the window hit with the greatest [z] above [-1] among the first [n]. *)
Definition best_of (l : list wm_window) (n : nat) x y ignore_id (best : option nat) (best_z : Z) : Prop :=
  match best with
  | Some i => ∃ w, (i < n)%nat ∧ l !! i = Some w ∧ hit w x y ignore_id = true ∧ best_z = w_z w ∧ -1 < w_z w
  | None => best_z = -1
  end ∧
  ∀ j w, (j < n)%nat → l !! j = Some w → hit w x y ignore_id = true → w_z w ≤ best_z.

Lemma top_at_spec l x y ignore_id : ∀ l2 l1 best best_z, l = l1 ++ l2 →
  best_of l (length l1) x y ignore_id best best_z →
  ∃ z, best_of l (length l) x y ignore_id (top_at l2 (length l1) x y ignore_id best best_z) z.
Proof.
  induction l2 as [|w l2 IH]; intros l1 best best_z Hl Hb.
  - exists best_z. rewrite app_nil_r in Hl. by subst l1.
  - assert (Hw : l !! length l1 = Some w) by (rewrite Hl; by apply list_lookup_middle).
    assert (Hl' : l = (l1 ++ [w]) ++ l2) by (by rewrite <-app_assoc).
    assert (Hlen : length (l1 ++ [w]) = S (length l1)) by (rewrite length_app; simpl; lia).
    assert (Hskip : (hit w x y ignore_id = true → w_z w ≤ best_z) → best_of l (S (length l1)) x y ignore_id best best_z).
    { intros Hn. destruct Hb as [Hb Hmax]. split.
      - destruct best as [i|]; [|done]. destruct Hb as (w' & ? & ?). exists w'. split; [lia|done].
      - intros j w' Hj Hj' Hh. destruct (decide (j = length l1)) as [->|]; [|apply (Hmax j); [lia|done..]].
        rewrite Hw in Hj'. injection Hj' as <-. by apply Hn. }
    simpl. rewrite <-Hlen.
    assert (Hh : hit w x y ignore_id = negb (negb (w_used w) || negb (w_visible w) || (w_id w =? ignore_id)) &&
      negb ((x <? w_x w) || (y <? w_y w) || (iadd (w_x w) (w_w w) <=? x) || (iadd (w_y w) (w_h w) <=? y))).
    { unfold hit. by destruct (w_used w), (w_visible w), (w_id w =? ignore_id). }
    destruct (negb (w_used w) || negb (w_visible w) || (w_id w =? ignore_id)).
    { apply IH; [done|]. rewrite Hlen. apply Hskip. by rewrite Hh. }
    destruct ((x <? w_x w) || (y <? w_y w) || (iadd (w_x w) (w_w w) <=? x) || (iadd (w_y w) (w_h w) <=? y)).
    { apply IH; [done|]. rewrite Hlen. apply Hskip. by rewrite Hh. }
    destruct (Z.ltb_spec best_z (w_z w)) as [Hlt|Hge].
    2: { apply IH; [done|]. rewrite Hlen. apply Hskip. done. }
    apply IH; [done|]. rewrite Hlen. destruct Hb as [Hb Hmax]. split.
    + exists w. split_and!; try done; [lia|]. destruct best as [i|]; [|lia]. destruct Hb as (? & _ & _ & _ & ? & ?). lia.
    + intros j w' Hj Hj' Hh'. destruct (decide (j = length l1)) as [->|].
      * rewrite Hw in Hj'. injection Hj' as <-. done.
      * transitivity best_z; [|lia]. apply (Hmax j); [lia|done..].
Qed.

(** Windows in use have different, nonnegative [z]. *)
Definition z_ok (l : list wm_window) : Prop :=
  (∀ i w, l !! i = Some w → w_used w = true → 0 ≤ w_z w) ∧
  (∀ i j wi wj, l !! i = Some wi → l !! j = Some wj → w_used wi = true → w_used wj = true → w_z wi = w_z wj → i = j).

Lemma hit_used w x y ignore_id : hit w x y ignore_id = true → w_used w = true ∧ w_visible w = true.
Proof. unfold hit. by destruct (w_used w), (w_visible w). Qed.

Lemma wm_top_at_spec v x y ignore_id :
  z_ok (wm_windows v) →
  match wm_top_at x y ignore_id v with
  | Some i => ∃ w, wm_windows v !! i = Some w ∧ hit w x y ignore_id = true ∧
      ∀ j w', wm_windows v !! j = Some w' → hit w' x y ignore_id = true → j ≠ i → w_z w' < w_z w
  | None => ∀ j w, wm_windows v !! j = Some w → hit w x y ignore_id = false
  end.
Proof.
  intros [Hz Hinj]. unfold wm_top_at. set (l := wm_windows v) in *.
  destruct (top_at_spec l x y ignore_id l [] None (-1)) as [z [Hb Hmax]]; [done|split; [done|simpl; intros; lia]|].
  simpl in *. destruct (top_at l 0 x y ignore_id None (-1)) as [i|].
  - destruct Hb as (w & _ & Hi & Hh & -> & _). exists w. split; [done|]. split; [done|]. intros j w' Hj Hj' Hne.
    pose proof (Hmax j w' (lookup_lt_Some _ _ _ Hj) Hj Hj') as Hle.
    destruct (decide (w_z w' = w_z w)) as [He|]; [|lia]. destruct Hne. apply (Hinj j i w' w); try done; by eapply hit_used.
  - subst z. intros j w Hj. destruct (hit w x y ignore_id) eqn:Hh; [|done]. exfalso.
    pose proof (Hmax j w (lookup_lt_Some _ _ _ Hj) Hj Hh). pose proof (Hz j w Hj (proj1 (hit_used _ _ _ _ Hh))). lia.
Qed.

(** ** The order of drawing *)
Lemma elem_of_indices f l i : i ∈ indices_of f l ↔ ∃ w, l !! i = Some w ∧ f w = true.
Proof.
  unfold indices_of. rewrite list_elem_of_filter, elem_of_seq. split.
  - intros [Hf Hi]. destruct (lookup_lt_is_Some_2 l i) as [w Hw]; [lia|]. exists w. by rewrite (list_lookup_total_correct _ _ _ Hw) in Hf.
  - intros (w & Hw & Hf). rewrite (list_lookup_total_correct _ _ _ Hw). apply lookup_lt_Some in Hw. split; [done|lia].
Qed.

Lemma NoDup_indices f l : NoDup (indices_of f l).
Proof. apply NoDup_filter, NoDup_seq. Qed.

Definition draw_order (f : wm_window → bool) (l : list wm_window) : list nat := selection_sort (by_z l) (indices_of f l).

Lemma draw_order_spec f l :
  NoDup (draw_order f l) ∧ (∀ i, i ∈ draw_order f l ↔ ∃ w, l !! i = Some w ∧ f w = true) ∧
  StronglySorted (key_le (by_z l)) (draw_order f l).
Proof.
  destruct (selection_sort_spec (by_z l) (indices_of f l)) as [Hp Hs]. unfold draw_order. split_and!.
  - rewrite Hp. apply NoDup_indices.
  - intros i. rewrite Hp. apply elem_of_indices.
  - done.
Qed.

(** In a sorted list without duplicates earlier means smaller. *)
Lemma sorted_lookup {A} (key : A → Z) l (p q : nat) x y :
  StronglySorted (key_le key) l → l !! p = Some x → l !! q = Some y → (p < q)%nat → key x ≤ key y.
Proof.
  intros Hs. revert p q. induction Hs as [|z l Hs IH Hall]; intros p q Hp Hq Hlt; [done|].
  destruct q as [|q]; [lia|]. destruct p as [|p]; simpl in *.
  - injection Hp as ->. rewrite list.Forall_forall in Hall. apply Hall. by eapply list_elem_of_lookup_2.
  - apply (IH p q); [done|done|lia].
Qed.

(** ** Repacking *)
Lemma length_assign_z order : ∀ z l, length (assign_z order z l) = length l.
Proof. induction order as [|i order IH]; intros z l; simpl; [done|]. by rewrite IH, length_alter. Qed.

Lemma assign_z_lookup order : ∀ z l i,
  NoDup order →
  assign_z order z l !! i =
    match list_find (i =.) order with
    | Some (p, _) => set_w_z (z + p) <$> l !! i
    | None => l !! i
    end.
Proof.
  induction order as [|j order IH]; intros z l i Hnd; simpl; [done|]. apply NoDup_cons in Hnd as [Hj Hnd].
  rewrite IH by done. case_decide as Hij.
  - subst j. assert (Hn : list_find (i =.) order = None).
    { apply list_find_None, list.Forall_forall. intros k Hk <-. done. }
    rewrite Hn, list_lookup_alter_eq. simpl. by rewrite Z.add_0_r.
  - rewrite list_lookup_alter_ne by done. destruct (list_find (i =.) order) as [[p ?]|]; simpl; [|done].
    do 2 f_equal. lia.
Qed.

Lemma list_find_eq order (i p : nat) : NoDup order → order !! p = Some i → list_find (i =.) order = Some (p, i).
Proof.
  intros Hnd Hp. apply list_find_Some. split; [done|]. split; [done|]. intros j k Hj Hlt <-.
  pose proof (NoDup_lookup _ _ _ _ Hnd Hj Hp). lia.
Qed.

Lemma list_find_absent order (i : nat) : i ∉ order → list_find (i =.) order = None.
Proof. intros Hn. apply list_find_None, list.Forall_forall. by intros k Hk <-. Qed.

(** The new [z] of a window in use is its place in the order, from 1. *)
Record repacked (l l' : list wm_window) : Prop := {
  rp_order : ∃ order, NoDup order ∧ (∀ i, i ∈ order ↔ ∃ w, l !! i = Some w ∧ w_used w = true) ∧
    StronglySorted (key_le (by_z l)) order ∧
    (∀ (p i : nat) w, order !! p = Some i → l !! i = Some w → l' !! i = Some (set_w_z (p + 1) w)) ∧
    (∀ i, i ∉ order → l' !! i = l !! i);
}.

Lemma wm_repack_z_repacked v : repacked (wm_windows v) (wm_windows (wm_repack_z v)).
Proof.
  split. destruct (draw_order_spec w_used (wm_windows v)) as (Hnd & Hin & Hs).
  exists (draw_order w_used (wm_windows v)). split_and!; try done.
  - intros p i w Hp Hw. unfold wm_repack_z. cbn. fold (draw_order w_used (wm_windows v)).
    rewrite assign_z_lookup by done. rewrite (list_find_eq _ i p) by done. rewrite Hw. simpl. do 2 f_equal. lia.
  - intros i Hi. unfold wm_repack_z. cbn. fold (draw_order w_used (wm_windows v)).
    rewrite assign_z_lookup by done. by rewrite list_find_absent.
Qed.

Lemma repacked_window l l' i w : repacked l l' → l !! i = Some w →
  ∃ z, l' !! i = Some (set_w_z z w) ∧ (w_used w = false → z = w_z w) ∧ (w_used w = true → 1 ≤ z).
Proof.
  intros [(order & Hnd & Hin & _ & Hz & Ho)] Hw. destruct (decide (i ∈ order)) as [Hi|Hi].
  - apply list_elem_of_lookup in Hi as Hp. destruct Hp as [p Hp]. exists (p + 1). split; [by apply Hz|]. split; [|lia].
    apply Hin in Hi as (w' & Hw' & Hu). rewrite Hw in Hw'. injection Hw' as <-. by rewrite Hu.
  - exists (w_z w). rewrite Ho by done. split; [rewrite Hw; by destruct w|]. split; [done|].
    intros Hu. destruct Hi. apply Hin. eauto.
Qed.

Lemma repacked_lt l l' i j wi wj wi' wj' :
  repacked l l' → l !! i = Some wi → l !! j = Some wj → w_used wi = true → w_used wj = true →
  l' !! i = Some wi' → l' !! j = Some wj' → w_z wi < w_z wj → w_z wi' < w_z wj'.
Proof.
  intros [(order & Hnd & Hin & Hs & Hz & _)] Hi Hj Hui Huj Hi' Hj' Hlt.
  assert (Hp : i ∈ order) by (apply Hin; eauto). assert (Hq : j ∈ order) by (apply Hin; eauto).
  apply list_elem_of_lookup in Hp as [p Hp]. apply list_elem_of_lookup in Hq as [q Hq].
  rewrite (Hz p i wi) in Hi' by done. rewrite (Hz q j wj) in Hj' by done. injection Hi' as <-. injection Hj' as <-. simpl.
  assert (Hi0 : by_z l i = w_z wi) by (unfold by_z; by rewrite (list_lookup_total_correct _ _ _ Hi)).
  assert (Hj0 : by_z l j = w_z wj) by (unfold by_z; by rewrite (list_lookup_total_correct _ _ _ Hj)).
  destruct (Nat.lt_total p q) as [?|[->|?]]; [lia| |].
  - rewrite Hp in Hq. injection Hq as ->. lia.
  - pose proof (sorted_lookup (by_z l) order q p j i Hs Hq Hp ltac:(lia)). lia.
Qed.

Lemma repacked_z_ok l l' : length l' = length l → repacked l l' → z_ok l'.
Proof.
  intros Hlen Hr. pose proof Hr as [(order & Hnd & Hin & Hs & Hz & Ho)].
  assert (Hback : ∀ i w', l' !! i = Some w' → ∃ w, l !! i = Some w ∧ w_used w = w_used w').
  { intros i w' Hi. destruct (lookup_lt_is_Some_2 l i) as [w Hw]; [apply lookup_lt_Some in Hi; lia|]. exists w. split; [done|].
    destruct (repacked_window l l' i w Hr Hw) as (z & Hz' & _). rewrite Hi in Hz'. by injection Hz' as ->. }
  split.
  - intros i w' Hi Hu. destruct (Hback i w' Hi) as (w & Hw & He). destruct (repacked_window l l' i w Hr Hw) as (z & Hz' & _ & Hp).
    rewrite Hi in Hz'. injection Hz' as ->. simpl. rewrite <-He in Hu. specialize (Hp Hu). lia.
  - intros i j wi' wj' Hi Hj Hui Huj He. destruct (Hback i wi' Hi) as (wi & Hwi & Hei), (Hback j wj' Hj) as (wj & Hwj & Hej).
    assert (Hp : i ∈ order) by (apply Hin; exists wi; by rewrite Hei). assert (Hq : j ∈ order) by (apply Hin; exists wj; by rewrite Hej).
    apply list_elem_of_lookup in Hp as [p Hp]. apply list_elem_of_lookup in Hq as [q Hq].
    rewrite (Hz p i wi) in Hi by done. rewrite (Hz q j wj) in Hj by done. injection Hi as <-. injection Hj as <-. simpl in He.
    assert (p = q) as -> by lia. rewrite Hp in Hq. by injection Hq.
Qed.

(** Repacking does not change what is on top. *)
Lemma top_at_repack v x y ignore_id :
  z_ok (wm_windows v) → wm_top_at x y ignore_id (wm_repack_z v) = wm_top_at x y ignore_id v.
Proof.
  intros Hok. pose proof (wm_repack_z_repacked v) as Hr.
  assert (Hlen : length (wm_windows (wm_repack_z v)) = length (wm_windows v)) by (cbn; apply length_assign_z).
  pose proof (repacked_z_ok _ _ Hlen Hr) as Hok'.
  pose proof (wm_top_at_spec v x y ignore_id Hok) as H1. pose proof (wm_top_at_spec _ x y ignore_id Hok') as H2.
  assert (Hfwd : ∀ i w, wm_windows v !! i = Some w → ∃ w', wm_windows (wm_repack_z v) !! i = Some w' ∧
    hit w' x y ignore_id = hit w x y ignore_id ∧ w_used w' = w_used w).
  { intros i w Hi. destruct (repacked_window _ _ i w Hr Hi) as (z & Hz & _). exists (set_w_z z w). done. }
  destruct (wm_top_at x y ignore_id v) as [i|], (wm_top_at x y ignore_id (wm_repack_z v)) as [j|]; [| | |done].
  - destruct H1 as (w & Hi & Hh & Hm). destruct H2 as (w' & Hj & Hh' & Hm'). f_equal. destruct (decide (j = i)) as [|Hne]; [done|].
    destruct (Hfwd i w Hi) as (wi' & Hi' & Ei & Ui).
    destruct (lookup_lt_is_Some_2 (wm_windows v) j) as [wj Hwj]; [apply lookup_lt_Some in Hj; lia|].
    destruct (Hfwd j wj Hwj) as (wj' & Hj' & Ej & Uj). rewrite Hj in Hj'. injection Hj' as <-.
    assert (Hhj : hit wj x y ignore_id = true) by congruence.
    pose proof (Hm j wj Hwj Hhj Hne) as Hlt.
    pose proof (repacked_lt _ _ j i wj w w' wi' Hr Hwj Hi (proj1 (hit_used _ _ _ _ Hhj)) (proj1 (hit_used _ _ _ _ Hh)) Hj Hi' Hlt).
    pose proof (Hm' i wi' Hi' ltac:(congruence) ltac:(done)). lia.
  - destruct H1 as (w & Hi & Hh & _). destruct (Hfwd i w Hi) as (w' & Hi' & E & _). specialize (H2 i w' Hi'). congruence.
  - destruct H2 as (w' & Hj & Hh & _). destruct (lookup_lt_is_Some_2 (wm_windows v) j) as [w Hw]; [apply lookup_lt_Some in Hj; lia|].
    destruct (Hfwd j w Hw) as (w2 & Hj2 & E & _). rewrite Hj in Hj2. injection Hj2 as <-. specialize (H1 j w Hw). congruence.
Qed.
