(* ===== verification/WmScene.v ===== *)
(** * The scene: windows drawn in their order show the one on top *)

From S2P Require Import Prelude Layout KString SelSort Wm WmDraw WmOrder.
From Stdlib Require Import Sorted.

Section scene.
Context (fb W H : Z).
Hypothesis Hsize : 0 < W ≤ 1024 ∧ 0 < H ≤ 768.
Hypothesis Hfb : 0 ≤ fb ∧ fb + 4 * (W * H) ≤ 4294967296.
Hypothesis Hnz : fb ≠ 0.

(** A window that can be drawn. *)
Definition drawable (w : wm_window) : Prop :=
  window_geo w ∧ (shows_image w = true → image_geo fb W H w).

Lemma window_pixel_kept focus_id m m' w px py :
  drawable w → kept_outside fb W H m m' → window_pixel focus_id m' w px py = window_pixel focus_id m w px py.
Proof.
  intros [_ Hig] Hk. unfold window_pixel. destruct (shows_image w) eqn:Hs; cbn [andb]; [|done].
  destruct (in_image w px py) eqn:Hi; [|done]. f_equal. unfold image_pixel. apply load32_ext. intros b Hb. apply Hk, (Hig eq_refl).
  destruct (Hig eq_refl) as [? _ _]. unfold in_image, in_rect in Hi.
  assert (0 ≤ px - w_x w < w_image_w w ∧ 0 ≤ py - w_y w < w_image_h w) by (revert Hi; zcases; [lia|done..]). nia.
Qed.

Lemma draw_windows_spec clip focus_id px py ws : ∀ m,
  Forall drawable ws → on_screen W H px py →
  let m' := foldl (draw_window clip fb W H focus_id) m ws in
  kept_outside fb W H m m' ∧
  pixel fb W m' px py = if clipped clip px py then pixel fb W m px py
    else match last (filter (λ w, in_window w px py = true) ws) with
         | Some w => window_pixel focus_id m w px py
         | None => pixel fb W m px py
         end.
Proof.
  induction ws as [|w ws IH] using rev_ind; intros m Hd Hp; simpl.
  { split; [done|]. by destruct (clipped clip px py). }
  apply Forall_app in Hd as [Hd [Hw _]%Forall_cons]. destruct (IH m Hd Hp) as [Hk Ho].
  rewrite foldl_app. cbn [foldl]. set (m1 := foldl _ m ws) in *.
  destruct (draw_window_spec fb W H Hsize Hfb clip focus_id w m1 px py) as [Hk2 Ho2]; [done|apply Hw|apply Hw|done|].
  split; [by etrans|]. rewrite Ho2, filter_app, filter_cons, filter_nil. rewrite (window_pixel_kept _ m) by done.
  destruct (in_window w px py) eqn:Hi; cbn [andb].
  - rewrite decide_True by done. rewrite last_snoc. by destruct (clipped clip px py).
  - rewrite decide_False, app_nil_r by done. done.
Qed.

(** The pixel of the scene under a screen position. *)
Definition scene_pixel (v : wm_vars) (m : mem) (px py : Z) : Z :=
  if in_rect (wm_cursor_x v) (wm_cursor_y v) 8 8 px py then Z.lor 4278190080 COLOR_CURSOR
  else match window_at v (wm_top_at px py 0 v) with
       | Some w => window_pixel (wm_focus_id v) m w px py
       | None => Z.lor 4278190080 COLOR_DESKTOP
       end.

Definition shown (w : wm_window) : bool := w_used w && w_visible w.

Record scene_ok (v : wm_vars) : Prop := {
  sc_z : z_ok (wm_windows v);
  sc_ids : ∀ i w, wm_windows v !! i = Some w → w_used w = true → w_id w ≠ 0;
  sc_draw : ∀ i w, wm_windows v !! i = Some w → shown w = true → drawable w;
  sc_cursor : is_int (wm_cursor_x v + 8) ∧ is_int (wm_cursor_y v + 8);
}.

Lemma hit_in_window v i w px py :
  scene_ok v → wm_windows v !! i = Some w → hit w px py 0 = shown w && in_window w px py.
Proof.
  intros Hv Hi. unfold hit, shown. destruct (w_used w) eqn:Hu; [|done]. destruct (w_visible w) eqn:Hvis; [|done]. cbn [andb].
  rewrite (proj2 (Z.eqb_neq _ _) (sc_ids v Hv i w Hi Hu)). cbn [negb andb].
  assert (Hs : shown w = true) by (unfold shown; by rewrite Hu, Hvis).
  destruct (sc_draw v Hv i w Hi Hs) as [[[_ Hx] [_ Hy]] _]. unfold iadd. rewrite !to_int_id by done.
  unfold in_window, in_rect. zcases; done.
Qed.

(** The last window drawn at a position is the one [wm_top_at] finds. *)
Lemma last_drawn v px py :
  scene_ok v →
  last (filter (λ w, in_window w px py = true) ((λ i, wm_windows v !!! i) <$> draw_order shown (wm_windows v))) =
  window_at v (wm_top_at px py 0 v).
Proof.
  intros Hv. set (l := wm_windows v). destruct (draw_order_spec shown l) as (Hnd & Hin & Hs).
  set (order := draw_order shown l) in *.
  assert (Hlist : filter (λ w, in_window w px py = true) ((λ i, l !!! i) <$> order) =
                  (λ i, l !!! i) <$> filter (λ i, in_window (l !!! i) px py = true) order).
  { clear. induction order as [|i order IH]; [done|]. rewrite fmap_cons, !filter_cons. case_decide; simpl; by rewrite IH. }
  rewrite Hlist, fmap_last. set (order' := filter _ order).
  assert (Hin' : ∀ i, i ∈ order' ↔ ∃ w, l !! i = Some w ∧ hit w px py 0 = true).
  { intros i. unfold order'. rewrite list_elem_of_filter, Hin. split.
    - intros (Hw & w & Hi & Hsh). exists w. split; [done|]. rewrite (hit_in_window v i) by done.
      rewrite (list_lookup_total_correct _ _ _ Hi) in Hw. by rewrite Hsh, Hw.
    - intros (w & Hi & Hh). rewrite (hit_in_window v i) in Hh by done. apply andb_true_iff in Hh as [Hsh Hw].
      rewrite (list_lookup_total_correct _ _ _ Hi). eauto. }
  pose proof (wm_top_at_spec v px py 0 (sc_z v Hv)) as Htop. fold l in Htop.
  destruct (last order') as [i|] eqn:Hlast; simpl.
  - assert (Hi : i ∈ order') by (by apply last_Some_elem_of). apply Hin' in Hi as (w & Hi & Hh).
    destruct (wm_top_at px py 0 v) as [j|]; [|specialize (Htop i w Hi); congruence].
    destruct Htop as (w' & Hj & Hh' & Hmax). rewrite (list_lookup_total_correct _ _ _ Hi).
    destruct (decide (i = j)) as [->|Hne]; [cbn; fold l; congruence|]. exfalso.
    pose proof (Hmax i w Hi Hh Hne) as Hlt.
    assert (Hjo : j ∈ order') by (apply Hin'; eauto).
    apply last_Some in Hlast as [pre Hpre].
    assert (Hss : StronglySorted (key_le (by_z l)) order').
    { unfold order'. clear -Hs. induction Hs as [|z o Hs IH Hall]; [constructor|]. rewrite filter_cons. case_decide; [|done].
      constructor; [done|]. apply list.Forall_forall. intros k Hk%list_elem_of_filter. rewrite list.Forall_forall in Hall. apply Hall, Hk. }
    rewrite Hpre in Hjo, Hss. apply elem_of_app in Hjo as [Hjo|Hjo]; [|apply list_elem_of_singleton in Hjo; congruence].
    apply list_elem_of_lookup in Hjo as [q Hq].
    assert (by_z l j ≤ by_z l i).
    { apply (sorted_lookup (by_z l) (pre ++ [i]) q (length pre)); [done|by apply lookup_app_l_Some|by apply list_lookup_middle|by eapply lookup_lt_Some]. }
    unfold by_z in *. rewrite (list_lookup_total_correct _ _ _ Hi), (list_lookup_total_correct _ _ _ Hj) in *. lia.
  - destruct (wm_top_at px py 0 v) as [j|]; [|done]. destruct Htop as (w' & Hj & Hh' & _).
    assert (Hjo : j ∈ order') by (apply Hin'; eauto). apply last_None in Hlast. rewrite Hlast in Hjo. by apply elem_of_nil in Hjo.
Qed.

Lemma draw_scene_spec v m px py :
  scene_ok v → on_screen W H px py →
  kept_outside fb W H m (draw_scene fb W H v m) ∧
  pixel fb W (draw_scene fb W H v m) px py =
    if clipped (wm_clip v) px py then pixel fb W m px py else scene_pixel v m px py.
Proof.
  intros Hv Hp. unfold draw_scene. cbv zeta.
  destruct (fill_rect_spec fb W H Hsize Hfb (wm_clip v) 0 0 W H COLOR_DESKTOP m px py) as [Hk1 Ho1];
    [done|unfold is_int; lia..|done|done|]. set (m1 := wm_gpu_fill_rect _ _ _ _ _ _ _ _ _ m) in *.
  change (λ w, w_used w && w_visible w) with shown. fold (draw_order shown (wm_windows v)).
  destruct (draw_windows_spec (wm_clip v) (wm_focus_id v) px py ((λ i, wm_windows v !!! i) <$> draw_order shown (wm_windows v)) m1)
    as [Hk2 Ho2]; [|done|].
  { apply Forall_fmap, list.Forall_forall. intros i Hi. apply (draw_order_spec shown) in Hi as (w & Hw & Hsh). cbn.
    rewrite (list_lookup_total_correct _ _ _ Hw). by apply (sc_draw v Hv i). }
  set (m2 := foldl _ m1 _) in *.
  destruct (fill_rect_spec fb W H Hsize Hfb (wm_clip v) (wm_cursor_x v) (wm_cursor_y v) 8 8 COLOR_CURSOR m2 px py) as [Hk3 Ho3];
    [done|apply Hv|apply Hv|done|done|].
  split; [by do 2 (etrans; [eassumption|])|]. rewrite Ho3, Ho2, Ho1, last_drawn by done. unfold scene_pixel.
  assert (in_rect 0 0 W H px py = true) as -> by (unfold on_screen, in_rect in *; by zcases).
  destruct (clipped (wm_clip v) px py); cbn [andb negb]; [by rewrite andb_false_r|]. rewrite andb_true_r.
  destruct (in_rect _ _ 8 8 px py); [done|]. destruct (wm_top_at px py 0 v) as [i|] eqn:Ht; [|done].
  pose proof (wm_top_at_spec v px py 0 (sc_z v Hv)) as Hs. rewrite Ht in Hs. destruct Hs as (w & Hw & Hh & _).
  unfold window_at. cbn. rewrite Hw. apply window_pixel_kept; [|done]. apply (sc_draw v Hv i); [done|].
  unfold shown. by destruct (hit_used _ _ _ _ Hh) as [-> ->].
Qed.
End scene.
