(* ===== verification/WmInv.v ===== *)
(** * The window manager: its invariant and the operations

    Beside the well-formedness of the windows the invariant says that outside
    the dirty rectangle the back buffer already shows the scene. *)

From S2P Require Import Prelude Layout KString PageAlloc PageAllocSpec PageIface SelSort GpuIface Ring Wm WmDraw WmOrder WmScene.

(** ** Windows *)

(** Places and sizes for which no sum of coordinates overflows. *)
Record window_small (w : wm_window) : Prop := {
  ws_place : -1073741824 ≤ w_x w ≤ 1073741824 ∧ -1073741824 ≤ w_y w ≤ 1073741824;
  ws_size : 0 ≤ w_w w ≤ 536870912 ∧ 0 ≤ w_h w ≤ 536870912;
}.

Record vars_inv (v : wm_vars) : Prop := {
  vi_len : length (wm_windows v) = 8%nat;
  vi_ring : ∀ i w, wm_windows v !! i = Some w → ring_ok WM_EVENT_RING_SIZE (w_ev_ring w) (w_ev_head w) (w_ev_tail w);
  vi_id : ∀ i w, wm_windows v !! i = Some w → w_used w = true → 1 ≤ w_id w < wm_next_id v;
  vi_id_inj : ∀ i j wi wj, wm_windows v !! i = Some wi → wm_windows v !! j = Some wj →
    w_used wi = true → w_used wj = true → w_id wi = w_id wj → i = j;
  vi_z : z_ok (wm_windows v);
  vi_z_next : ∀ i w, wm_windows v !! i = Some w → w_used w = true → w_z w < wm_next_z v;
  vi_next : 1 ≤ wm_next_id v ∧ 0 ≤ wm_next_z v;
  vi_shown : ∀ i w, wm_windows v !! i = Some w → w_used w = true → w_visible w = true ∧ w_focusable w = true;
  vi_focus : wm_focus_id v = 0 ∨ ∃ i w, wm_windows v !! i = Some w ∧ w_used w = true ∧ w_id w = wm_focus_id v;
  vi_geo : ∀ i w, wm_windows v !! i = Some w → w_used w = true → window_small w;
  vi_screen : 0 < wm_screen_w v ≤ 1024 ∧ 0 < wm_screen_h v ≤ 768;
}.

Lemma window_small_geo w : window_small w → window_geo w.
Proof. intros [? ?]. split; unfold is_int; lia. Qed.

Lemma wm_find_spec v id :
  match wm_find v id with
  | Some i => ∃ w, wm_windows v !! i = Some w ∧ w_used w = true ∧ w_id w = id
  | None => ∀ i w, wm_windows v !! i = Some w → w_used w = true → w_id w ≠ id
  end.
Proof.
  unfold wm_find. destruct (find_index _ (wm_windows v)) as [i|] eqn:Hf.
  - destruct (find_index_Some _ _ _ Hf) as (w & Hi & Hw & _). apply andb_true_iff in Hw as [Hu He%Z.eqb_eq]. eauto.
  - intros i w Hi Hu He. pose proof (find_index_None _ _ _ _ Hf Hi) as Hn. cbn in Hn. by rewrite Hu, He, Z.eqb_refl in Hn.
Qed.

Lemma wm_find_Some v id i w :
  vars_inv v → wm_windows v !! i = Some w → w_used w = true → w_id w = id → wm_find v id = Some i.
Proof.
  intros Hv Hi Hu He. pose proof (wm_find_spec v id) as Hs. destruct (wm_find v id) as [j|].
  - destruct Hs as (w' & Hj & Hu' & He'). f_equal. apply (vi_id_inj v Hv j i w' w); try done. congruence.
  - by destruct (Hs i w Hi Hu).
Qed.

(** What matters of the other variables for the windows. *)
Record same_desktop (v v' : wm_vars) : Prop := {
  sd_windows : wm_windows v' = wm_windows v;
  sd_next : wm_next_id v' = wm_next_id v ∧ wm_next_z v' = wm_next_z v;
  sd_focus : wm_focus_id v' = wm_focus_id v;
  sd_screen : wm_screen_w v' = wm_screen_w v ∧ wm_screen_h v' = wm_screen_h v ∧ wm_gpu_ready v' = wm_gpu_ready v;
  sd_cursor : wm_cursor_x v' = wm_cursor_x v ∧ wm_cursor_y v' = wm_cursor_y v;
}.
#[export] Instance same_desktop_po : PreOrder same_desktop.
Proof.
  split; [by split|]. intros v1 v2 v3 [] []. destruct_and?. split; split_and?; congruence.
Qed.

Lemma vars_inv_desktop v v' : same_desktop v v' → vars_inv v → vars_inv v'.
Proof.
  intros [Hw [Hn1 Hn2] Hf (Hs1 & Hs2 & _) _] []. split; rewrite ?Hw, ?Hn1, ?Hn2, ?Hf, ?Hs1, ?Hs2; done.
Qed.

(** Replacing a window in use by another with the same id and stacking place. *)
Lemma vars_inv_update v i w w' :
  vars_inv v → wm_windows v !! i = Some w → w_used w' = w_used w → w_id w' = w_id w → w_z w' = w_z w →
  w_visible w' = w_visible w → w_focusable w' = w_focusable w →
  ring_ok WM_EVENT_RING_SIZE (w_ev_ring w') (w_ev_head w') (w_ev_tail w') → (w_used w' = true → window_small w') →
  vars_inv (set_window i w' v).
Proof.
  intros Hv Hi Hu Hid Hz Hvis Hfo Hr Hg.
  assert (Hlook : ∀ j u, <[i := w']> (wm_windows v) !! j = Some u →
    (j = i ∧ u = w') ∨ (j ≠ i ∧ wm_windows v !! j = Some u)).
  { intros j u Hj. apply list_lookup_insert_Some in Hj as [(-> & <- & _)|[? ?]]; auto. }
  assert (Hold : ∀ j u, <[i := w']> (wm_windows v) !! j = Some u →
    ∃ u0, wm_windows v !! j = Some u0 ∧ w_used u = w_used u0 ∧ w_id u = w_id u0 ∧ w_z u = w_z u0).
  { intros j u Hj. destruct (Hlook j u Hj) as [[-> ->]|[_ ?]]; eauto. }
  destruct Hv as [V1 V2 V3 V4 [V5 V5'] V6 V7 V11 V8 V9 V10]. split; cbn; try done.
  - by rewrite length_insert.
  - intros j u Hj. destruct (Hlook j u Hj) as [[-> ->]|[_ ?]]; [done|by apply (V2 j)].
  - intros j u Hj Huse. destruct (Hold j u Hj) as (u0 & H0 & E1 & E2 & _). rewrite E2. apply (V3 j); congruence.
  - intros j k u1 u2 H1 H2 Hu1 Hu2 He. destruct (Hold j u1 H1) as (a & ? & ? & ? & _), (Hold k u2 H2) as (b & ? & ? & ? & _).
    apply (V4 j k a b); congruence.
  - split.
    + intros j u Hj Huse. destruct (Hold j u Hj) as (u0 & H0 & E1 & _ & E3). rewrite E3. apply (V5 j); congruence.
    + intros j k u1 u2 H1 H2 Hu1 Hu2 He. destruct (Hold j u1 H1) as (a & ? & ? & _ & ?), (Hold k u2 H2) as (b & ? & ? & _ & ?).
      apply (V5' j k a b); congruence.
  - intros j u Hj Huse. destruct (Hold j u Hj) as (u0 & H0 & E1 & _ & E3). rewrite E3. apply (V6 j); congruence.
  - intros j u Hj Huse. destruct (Hlook j u Hj) as [[-> ->]|[_ ?]]; [|by apply (V11 j)]. rewrite Hvis, Hfo. apply (V11 i); congruence.
  - destruct V8 as [?|(j & u & Hj & Hfu & Hfid)]; [by left|right].
    destruct (decide (j = i)) as [->|Hne].
    + rewrite Hi in Hj. injection Hj as <-. exists i, w'. rewrite list_lookup_insert_eq by (by eapply lookup_lt_Some).
      split_and!; congruence.
    + exists j, u. by rewrite list_lookup_insert_ne.
  - intros j u Hj Huse. destruct (Hlook j u Hj) as [[-> ->]|[_ ?]]; [by apply Hg|by apply (V9 j)].
Qed.

(** Raising a window above all others. *)
Lemma vars_inv_raise v i w :
  vars_inv v → wm_windows v !! i = Some w → wm_next_z v < 2147483647 →
  vars_inv (set_next_z (iadd (wm_next_z v) 1) (set_window i (set_w_z (wm_next_z v) w) v)).
Proof.
  intros Hv Hi Hmax. set (w' := set_w_z (wm_next_z v) w). destruct Hv as [V1 V2 V3 V4 [V5 V5'] V6 V7 V11 V8 V9 V10].
  assert (Hnext : iadd (wm_next_z v) 1 = wm_next_z v + 1) by (apply to_int_id; unfold is_int; lia).
  assert (Hlook : ∀ j u, <[i := w']> (wm_windows v) !! j = Some u →
    (j = i ∧ u = w') ∨ (j ≠ i ∧ wm_windows v !! j = Some u)).
  { intros j u Hj. apply list_lookup_insert_Some in Hj as [(-> & <- & _)|[? ?]]; auto. }
  assert (Hold : ∀ j u, <[i := w']> (wm_windows v) !! j = Some u →
    ∃ u0, wm_windows v !! j = Some u0 ∧ w_used u = w_used u0 ∧ w_id u = w_id u0).
  { intros j u Hj. destruct (Hlook j u Hj) as [[-> ->]|[_ ?]]; eauto. }
  split; cbn; try done.
  - by rewrite length_insert.
  - intros j u Hj. destruct (Hlook j u Hj) as [[-> ->]|[_ ?]]; [by apply (V2 i w)|by apply (V2 j)].
  - intros j u Hj Huse. destruct (Hold j u Hj) as (u0 & H0 & E1 & E2). rewrite E2. apply (V3 j); congruence.
  - intros j k u1 u2 H1 H2 Hu1 Hu2 He. destruct (Hold j u1 H1) as (a & ? & ? & ?), (Hold k u2 H2) as (b & ? & ? & ?).
    apply (V4 j k a b); congruence.
  - split.
    + intros j u Hj Huse. destruct (Hlook j u Hj) as [[-> ->]|[_ ?]]; [cbn; lia|by apply (V5 j)].
    + intros j k u1 u2 H1 H2 Hu1 Hu2 He. destruct (Hlook j u1 H1) as [[-> ->]|[_ H1']], (Hlook k u2 H2) as [[-> ->]|[_ H2']]; try done.
      * pose proof (V6 k u2 H2' Hu2). cbn in He. lia.
      * pose proof (V6 j u1 H1' Hu1). cbn in He. lia.
      * by apply (V5' j k u1 u2).
  - intros j u Hj Huse. rewrite Hnext. destruct (Hlook j u Hj) as [[-> ->]|[_ Hj']]; [cbn; lia|]. pose proof (V6 j u Hj' Huse). lia.
  - rewrite Hnext. lia.
  - intros j u Hj Huse. destruct (Hlook j u Hj) as [[-> ->]|[_ ?]]; [by apply (V11 i w)|by apply (V11 j)].
  - destruct V8 as [?|(j & u & Hj & Hfu & Hfid)]; [by left|right]. destruct (decide (j = i)) as [->|Hne].
    + rewrite Hi in Hj. injection Hj as <-. exists i, w'. by rewrite list_lookup_insert_eq by (by eapply lookup_lt_Some).
    + exists j, u. by rewrite list_lookup_insert_ne.
  - intros j u Hj Huse. destruct (Hlook j u Hj) as [[-> ->]|[_ ?]]; [|by apply (V9 j)]. by destruct (V9 i w Hi Huse).
Qed.

(** Changing the focus to a window in use, or to none. *)
Lemma vars_inv_focus v id :
  vars_inv v → id = 0 ∨ (∃ i w, wm_windows v !! i = Some w ∧ w_used w = true ∧ w_id w = id) → vars_inv (set_focus_id id v).
Proof. intros [] Hf. by split. Qed.

Lemma vars_inv_tick v t : vars_inv v → vars_inv (set_event_tick t v).
Proof. intros []. by split. Qed.

(** ** The dirty rectangle *)

Definition in_dirty (v : wm_vars) (px py : Z) : Prop :=
  d_valid (wm_dirty v) = true ∧ d_x0 (wm_dirty v) ≤ px < d_x1 (wm_dirty v) ∧ d_y0 (wm_dirty v) ≤ py < d_y1 (wm_dirty v).

(** Marking keeps what is marked, adds the rectangle, and changes nothing else. *)
Definition marks (v v' : wm_vars) (r : Z → Z → Prop) : Prop :=
  same_desktop v v' ∧
  ∀ px py, 0 ≤ px < wm_screen_w v → 0 ≤ py < wm_screen_h v → in_dirty v px py ∨ r px py → in_dirty v' px py.

Lemma marks_refl v (r : Z → Z → Prop) :
  (∀ px py, 0 ≤ px < wm_screen_w v → 0 ≤ py < wm_screen_h v → ¬ r px py) → marks v v r.
Proof. intros Hr. split; [done|]. intros px py Hx Hy [?|?]; [done|by destruct (Hr px py)]. Qed.

Lemma mark_rect_marks x y w h v :
  is_int (x + w) → is_int (y + h) →
  marks v (wm_mark_dirty_rect x y w h v) (λ px py, x ≤ px < x + w ∧ y ≤ py < y + h).
Proof.
  intros Hxw Hyh. unfold wm_mark_dirty_rect, iadd. rewrite !to_int_id by done.
  destruct ((w <=? 0) || (h <=? 0)) eqn:E1.
  { apply marks_refl. intros px py _ _. revert E1. zcases; (done || lia). }
  destruct ((x + w <=? 0) || (y + h <=? 0) || (wm_screen_w v <=? x) || (wm_screen_h v <=? y)) eqn:E2.
  { apply marks_refl. intros px py. revert E2. zcases; (done || lia). }
  set (x1 := if wm_screen_w v <? x + w then wm_screen_w v else x + w).
  set (y1 := if wm_screen_h v <? y + h then wm_screen_h v else y + h).
  set (x0 := if x <? 0 then 0 else x). set (y0 := if y <? 0 then 0 else y).
  assert (Hx0 : ∀ px, 0 ≤ px < wm_screen_w v → x ≤ px < x + w → x0 ≤ px < x1) by (unfold x0, x1; intros px; zcases; lia).
  assert (Hy0 : ∀ py, 0 ≤ py < wm_screen_h v → y ≤ py < y + h → y0 ≤ py < y1) by (unfold y0, y1; intros py; zcases; lia).
  destruct ((x1 <=? x0) || (y1 <=? y0)) eqn:E3.
  { apply marks_refl. intros px py Hx Hy [Hrx Hry]. specialize (Hx0 px Hx Hrx). specialize (Hy0 py Hy Hry). revert E3. zcases; (done || lia). }
  destruct (d_valid (wm_dirty v)) eqn:Hd; cbn [negb].
  - split; [by split|]. intros px py Hx Hy [(_ & Hdx & Hdy)|[Hrx Hry]]; (split; [done|]); cbn.
    + zcases; lia.
    + specialize (Hx0 px Hx Hrx). specialize (Hy0 py Hy Hry). zcases; lia.
  - split; [by split|]. intros px py Hx Hy [(Hv & _)|[Hrx Hry]]; [congruence|]. split; [done|]. cbn.
    split; [by apply Hx0|by apply Hy0].
Qed.

Lemma marks_weaken v v' (r r' : Z → Z → Prop) : (∀ px py, r' px py → r px py) → marks v v' r → marks v v' r'.
Proof. intros Hr [Hs Hm]. split; [done|]. intros px py Hx Hy [?|?]; apply Hm; auto. Qed.

Lemma marks_trans v1 v2 v3 r1 r2 : marks v1 v2 r1 → marks v2 v3 r2 → marks v1 v3 (λ px py, r1 px py ∨ r2 px py).
Proof.
  intros [S1 M1] [S2 M2]. split; [by etrans|]. pose proof S1 as [_ _ _ (E1 & E2 & _) _].
  intros px py Hx Hy Hr. apply M2; [by rewrite E1|by rewrite E2|]. destruct Hr as [?|[?|?]]; [left; apply M1..|]; auto.
Qed.

Lemma marks_clean v v' r px py :
  marks v v' r → 0 ≤ px < wm_screen_w v → 0 ≤ py < wm_screen_h v → ¬ in_dirty v' px py → ¬ in_dirty v px py ∧ ¬ r px py.
Proof. intros [_ M] Hx Hy Hn. split; intros Hc; apply Hn, M; auto. Qed.

Lemma marks_desktop v v' r : marks v v' r → same_desktop v v'.
Proof. by intros []. Qed.

(** A window in use is marked where it is shown. *)
Lemma mark_window_marks w v :
  w_used w = true → window_small w → marks v (wm_mark_dirty_window (Some w) v) (λ px py, in_window w px py = true).
Proof.
  intros Hu [Hp Hs]. unfold wm_mark_dirty_window, wm_mark_dirty_window_box, isub, iadd. rewrite Hu. cbn [negb].
  rewrite !to_int_id by (unfold is_int; lia). eapply marks_weaken; [|apply mark_rect_marks; unfold is_int; lia].
  intros px py. unfold in_window, in_rect. zcases; (done || lia).
Qed.

Lemma mark_taskbar_marks v : vars_inv v → marks v (wm_mark_dirty_taskbar v) (λ _ _, False).
Proof.
  intros Hv. destruct (vi_screen v Hv). unfold wm_mark_dirty_taskbar. set (y0 := if _ <? 0 then 0 else _).
  assert (0 ≤ y0 ≤ 1024).
  { unfold y0, wm_usable_h, isub, WM_TASKBAR_PX, WM_TEXT_SCREEN_H. rewrite to_int_id by (unfold is_int; lia).
    destruct (wm_gpu_ready v); zcases; lia. }
  eapply marks_weaken; [|apply mark_rect_marks]; [done|unfold is_int; lia|]. unfold isub. rewrite to_int_id by (unfold is_int; lia).
  unfold is_int. lia.
Qed.

Lemma mark_full_marks v : marks v (wm_mark_dirty_full v) (λ _ _, True).
Proof. split; [by split|]. intros px py Hx Hy _. by split. Qed.

(** ** When the scene does not change *)

(** Two states agree at a point: what is hit there in one is the same window
    in the other. *)
Record agree (v v' : wm_vars) (px py : Z) : Prop := {
  ag_left : ∀ j w, wm_windows v !! j = Some w → hit w px py 0 = true → wm_windows v' !! j = Some w;
  ag_right : ∀ j w, wm_windows v' !! j = Some w → hit w px py 0 = true → wm_windows v !! j = Some w;
}.

Lemma agree_top v v' px py :
  z_ok (wm_windows v) → z_ok (wm_windows v') → agree v v' px py →
  wm_top_at px py 0 v' = wm_top_at px py 0 v.
Proof.
  intros Hz Hz' [Hl Hr]. pose proof (wm_top_at_spec v px py 0 Hz) as H1. pose proof (wm_top_at_spec v' px py 0 Hz') as H2.
  destruct (wm_top_at px py 0 v) as [i|], (wm_top_at px py 0 v') as [j|]; [| | |done].
  - destruct H1 as (w & Hi & Hh & Hm), H2 as (w' & Hj & Hh' & Hm'). f_equal. destruct (decide (j = i)) as [|Hne]; [done|].
    pose proof (Hm j w' (Hr _ _ Hj Hh') Hh' Hne). pose proof (Hm' i w (Hl _ _ Hi Hh) Hh ltac:(done)). lia.
  - destruct H1 as (w & Hi & Hh & _). specialize (H2 i w (Hl _ _ Hi Hh)). congruence.
  - destruct H2 as (w & Hi & Hh & _). specialize (H1 j w (Hr _ _ Hi Hh)). congruence.
Qed.

Lemma scene_same v v' m m' px py :
  z_ok (wm_windows v) → z_ok (wm_windows v') → agree v v' px py →
  wm_cursor_x v' = wm_cursor_x v → wm_cursor_y v' = wm_cursor_y v →
  (∀ j w, wm_windows v !! j = Some w → hit w px py 0 = true →
     window_pixel (wm_focus_id v') m' w px py = window_pixel (wm_focus_id v) m w px py) →
  scene_pixel v' m' px py = scene_pixel v m px py.
Proof.
  intros Hz Hz' Ha Hx Hy Hw. unfold scene_pixel. rewrite Hx, Hy, (agree_top v v') by done. destruct (in_rect _ _ 8 8 px py); [done|].
  pose proof (wm_top_at_spec v px py 0 Hz) as Ht. destruct (wm_top_at px py 0 v) as [i|]; [|done].
  destruct Ht as (w & Hi & Hh & _). unfold window_at. cbn. rewrite Hi, (ag_left _ _ _ _ Ha i w Hi Hh). by apply (Hw i).
Qed.

(** One window changed, outside both its old and its new place. *)
Lemma agree_update v v' i w w' px py :
  wm_windows v !! i = Some w → wm_windows v' = <[i := w']> (wm_windows v) →
  hit w px py 0 = false → hit w' px py 0 = false → agree v v' px py.
Proof.
  intros Hi Hv' Hh Hh'. split; rewrite Hv'.
  - intros j u Hj Hu. rewrite list_lookup_insert_ne; [done|]. intros <-. congruence.
  - intros j u Hj Hu. apply list_lookup_insert_Some in Hj as [(_ & <- & _)|[_ ?]]; [congruence|done].
Qed.

Lemma not_in_window_hit w px py : window_small w → in_window w px py ≠ true → hit w px py 0 = false.
Proof.
  intros Hs Hn. unfold hit. destruct (w_used w), (w_visible w), (w_id w =? 0); try done. cbn [andb negb].
  destruct Hs. unfold iadd. rewrite !to_int_id by (unfold is_int; lia). apply not_true_iff_false in Hn.
  revert Hn. unfold in_window, in_rect. zcases; done.
Qed.

Lemma hit_unused w px py : w_used w = false → hit w px py 0 = false.
Proof. unfold hit. by intros ->. Qed.

(** ** Images *)

Definition owns (w : wm_window) : Prop := w_image_pixels w ≠ 0 ∧ 0 < w_image_bytes w.
Definition image_pages (w : wm_window) : Z := (w_image_bytes w + 4095) / 4096.

Record image_ok `{Layout} (refs : Z → Z) (w : wm_window) : Prop := {
  io_bytes : 0 ≤ w_image_bytes w < 2147483648;
  io_ptr : 0 ≤ w_image_pixels w ≤ free_ram_end;
  io_block : owns w → w_image_pixels w mod 4096 = 0 ∧ free_ram ≤ w_image_pixels w ∧
    w_image_pixels w + image_pages w * 4096 ≤ free_ram_end ∧
    ∀ q, managed q → in_block (w_image_pixels w) (image_pages w) q → refs q ≠ 0;
  io_size : shows_image w = true → 0 ≤ w_image_w w ∧ 0 ≤ w_image_h w ∧ 4 * (w_image_h w * w_image_w w) ≤ w_image_bytes w;
}.

(** Every image has pages of its own, apart from the back buffer. *)
Record images_ok `{Layout} (refs : Z → Z) (fb W H : Z) (l : list wm_window) : Prop := {
  im_ok : ∀ i w, l !! i = Some w → image_ok refs w;
  im_apart : ∀ i j wi wj x, l !! i = Some wi → l !! j = Some wj → owns wi → owns wj →
    in_block (w_image_pixels wi) (image_pages wi) x → in_block (w_image_pixels wj) (image_pages wj) x → i = j;
  im_screen : fb ≠ 0 → ∀ i w x, l !! i = Some w → owns w → in_block (w_image_pixels w) (image_pages w) x → outside fb W H x;
}.

Lemma image_bytes_pages w : 0 ≤ w_image_bytes w → w_image_bytes w ≤ image_pages w * 4096.
Proof. unfold image_pages. intros. Z.div_mod_to_equations. lia. Qed.

(** Changing everything but the image. *)
Definition same_image (w w' : wm_window) : Prop :=
  w_image_pixels w' = w_image_pixels w ∧ w_image_bytes w' = w_image_bytes w ∧
  (shows_image w' = true → shows_image w = true ∧ w_image_w w' = w_image_w w ∧ w_image_h w' = w_image_h w).

Section images.
Context {L : Layout} {LOK : LayoutOk}.

Lemma image_ok_geo refs fb W H l i w :
  images_ok refs fb W H l → fb ≠ 0 → l !! i = Some w → shows_image w = true → image_geo fb W H w.
Proof.
  intros Him Hfb Hi Hs. destruct (im_ok _ _ _ _ _ Him i w Hi) as [Hb Hp Hblk Hsz]. destruct (Hsz Hs) as (H1 & H2 & H3).
  pose proof free_ram_bounds. pose proof (image_bytes_pages w ltac:(lia)).
  split; [lia| |].
  - destruct (decide (w_image_bytes w = 0)) as [Hz|Hnz].
    + split; [lia|]. transitivity free_ram_end; lia.
    + assert (Ho : owns w). { split; [|lia]. unfold shows_image in Hs. intros He. by rewrite He, andb_false_r in Hs. }
      destruct (Hblk Ho) as (_ & ? & ? & _). lia.
  - intros a Ha. assert (Ho : owns w). { split; [|lia]. unfold shows_image in Hs. intros He. by rewrite He, andb_false_r in Hs. }
    apply (im_screen _ _ _ _ _ Him Hfb i w); [done|done|]. unfold in_block. lia.
Qed.

Lemma images_ok_map refs fb W H l l' :
  images_ok refs fb W H l → (∀ j w', l' !! j = Some w' → ∃ w, l !! j = Some w ∧ same_image w w') → images_ok refs fb W H l'.
Proof.
  intros [I1 I2 I3] Hl.
  assert (Hold : ∀ j u, l' !! j = Some u → ∃ u0, l !! j = Some u0 ∧
    (owns u → owns u0) ∧ w_image_pixels u = w_image_pixels u0 ∧ image_pages u = image_pages u0).
  { intros j u Hj. destruct (Hl j u Hj) as (w & Hw & Ep & Eb & _). exists w. unfold owns, image_pages. by rewrite Ep, Eb. }
  split.
  - intros j u Hj. destruct (Hl j u Hj) as (w & Hw & Ep & Eb & Es). destruct (I1 j w Hw) as [A1 A2 A3 A4].
    split; unfold owns, image_pages in *; rewrite ?Ep, ?Eb; try done. intros Hs. destruct (Es Hs) as (Hs' & -> & ->). by apply A4.
  - intros j k u1 u2 x H1 H2 O1 O2. destruct (Hold j u1 H1) as (a & Ha & Oa & -> & ->), (Hold k u2 H2) as (b & Hb & Ob & -> & ->).
    apply (I2 j k a b); auto.
  - intros Hn j u x Hj O. destruct (Hold j u Hj) as (a & Ha & Oa & -> & ->). apply (I3 Hn j a); auto.
Qed.

Lemma same_image_refl w : same_image w w.
Proof. done. Qed.

Lemma images_ok_update refs fb W H l i w w' :
  images_ok refs fb W H l → l !! i = Some w → same_image w w' → images_ok refs fb W H (<[i := w']> l).
Proof.
  intros Him Hi Hs. apply (images_ok_map refs fb W H l); [done|]. intros j u Hj.
  apply list_lookup_insert_Some in Hj as [(<- & <- & _)|[_ ?]]; eauto using same_image_refl.
Qed.

(** The counts matter only on the pages of images. *)
Lemma images_ok_refs refs refs' fb W H l :
  images_ok refs fb W H l →
  (∀ i w q, l !! i = Some w → owns w → managed q → in_block (w_image_pixels w) (image_pages w) q → refs q ≠ 0 → refs' q ≠ 0) →
  images_ok refs' fb W H l.
Proof.
  intros [I1 I2 I3] Hr. split; [|done..]. intros i w Hi. destruct (I1 i w Hi) as [A1 A2 A3 A4]. split; try done.
  intros O. destruct (A3 O) as (? & ? & ? & Hq). split_and!; try done. intros q Hm Hb. apply (Hr i w q); auto.
Qed.

(** A window without an image in place of another. *)
Lemma images_ok_clear refs refs' fb W H l i w' :
  images_ok refs fb W H l → w_image_pixels w' = 0 → 0 ≤ w_image_bytes w' < 2147483648 →
  (∀ j u q, l !! j = Some u → j ≠ i → owns u → managed q →
     in_block (w_image_pixels u) (image_pages u) q → refs q ≠ 0 → refs' q ≠ 0) →
  images_ok refs' fb W H (<[i := w']> l).
Proof.
  intros [I1 I2 I3] Hp Hb Hr.
  assert (Hlook : ∀ j u, <[i := w']> l !! j = Some u → owns u → j ≠ i ∧ l !! j = Some u).
  { intros j u Hj Ho. apply list_lookup_insert_Some in Hj as [(_ & <- & _)|[? ?]]; [by destruct Ho|done]. }
  split.
  - intros j u Hj. apply list_lookup_insert_Some in Hj as [(<- & <- & Hlt)|[Hne Hj]].
    + destruct (lookup_lt_is_Some_2 l i Hlt) as [w0 Hw0]. destruct (I1 i w0 Hw0) as [_ Hp0 _ _].
      split; rewrite ?Hp; [done|lia|by intros []|].
      unfold shows_image. by rewrite Hp, andb_false_r.
    + destruct (I1 j u Hj) as [A1 A2 A3 A4]. split; try done. intros Ho. destruct (A3 Ho) as (? & ? & ? & Hq). split_and!; try done.
      intros q Hm Hbq. apply (Hr j u q); auto.
  - intros j k u1 u2 x H1 H2 O1 O2. destruct (Hlook j u1 H1 O1), (Hlook k u2 H2 O2). by apply (I2 j k u1 u2).
  - intros Hn j u x Hj O. destruct (Hlook j u Hj O). by apply (I3 Hn j u).
Qed.
End images.
