(* ===== verification/WmOps.v ===== *)
(** * The operations of the window manager keep its invariant *)

From S2P Require Import Prelude Layout KString PageAlloc PageAllocSpec PageIface SelSort GpuIface Ring VirtioInput Wm WmEvents WmDraw WmOrder WmScene WmInv.

Section ops.
Context {L : Layout} {LOK : LayoutOk} {P G : Type} {PO : PageOps P} {POK : PageOpsOk P} {GO : GpuOps P G} {GOK : GpuOpsOk P G}.
Implicit Types s : wm_state P G.

Abbreviation fb_of s := (virtio_gpu_backbuffer (wm_gpu s)).
Abbreviation w_of s := (virtio_gpu_width (wm_gpu s)).
Abbreviation h_of s := (virtio_gpu_height (wm_gpu s)).
Abbreviation mem_of s := (pg_mem (wm_pages s)).

(** Outside the dirty rectangle the back buffer shows the scene. *)
Definition clean s : Prop :=
  wm_gpu_ready (wm s) = true → ∀ px py, on_screen (w_of s) (h_of s) px py → ¬ in_dirty (wm s) px py →
  pixel (fb_of s) (w_of s) (mem_of s) px py = scene_pixel (wm s) (mem_of s) px py.

Record wm_core s : Prop := {
  wi_vars : vars_inv (wm s);
  wi_gpu : gpu_ok (wm_pages s) (wm_gpu s);
  wi_screen : wm_gpu_ready (wm s) = true → fb_of s ≠ 0 ∧ wm_screen_w (wm s) = w_of s ∧ wm_screen_h (wm s) = h_of s;
  wi_images : images_ok (pg_refs (wm_pages s)) (fb_of s) (w_of s) (h_of s) (wm_windows (wm s));
}.
Record wm_inv s : Prop := {
  wi_core :> wm_core s;
  wi_clean : clean s;
}.

Lemma wp_vars (Q : wm_vars → wm_state P G → Prop) s : Q (wm s) s → wp vars Q s.
Proof. done. Qed.

Lemma wp_on_vars f (Q : unit → wm_state P G → Prop) s : Q tt (WmState (f (wm s)) (wm_pages s) (wm_gpu s)) → wp (on_vars f) Q s.
Proof. done. Qed.

Definition with_vars s v : wm_state P G := WmState v (wm_pages s) (wm_gpu s).

Lemma core_vars s v' :
  wm_core s → vars_inv v' →
  wm_screen_w v' = wm_screen_w (wm s) ∧ wm_screen_h v' = wm_screen_h (wm s) ∧ wm_gpu_ready v' = wm_gpu_ready (wm s) →
  images_ok (pg_refs (wm_pages s)) (fb_of s) (w_of s) (h_of s) (wm_windows v') → wm_core (with_vars s v').
Proof. intros [I1 I2 I3 I4] Hv (E1 & E2 & E3) Him. split; cbn; try done. by rewrite E1, E2, E3. Qed.

(** Changing the variables alone: the scene may change where it gets dirty. *)
Lemma inv_vars s v' :
  wm_inv s → vars_inv v' →
  wm_screen_w v' = wm_screen_w (wm s) ∧ wm_screen_h v' = wm_screen_h (wm s) ∧ wm_gpu_ready v' = wm_gpu_ready (wm s) →
  images_ok (pg_refs (wm_pages s)) (fb_of s) (w_of s) (h_of s) (wm_windows v') →
  (∀ px py, 0 ≤ px < wm_screen_w v' → 0 ≤ py < wm_screen_h v' → ¬ in_dirty v' px py →
     ¬ in_dirty (wm s) px py ∧ scene_pixel v' (mem_of s) px py = scene_pixel (wm s) (mem_of s) px py) →
  wm_inv (with_vars s v').
Proof.
  intros [Hc I5] Hv (E1 & E2 & E3) Him Hsc. pose proof Hc as [_ _ I3 _]. split.
  - by apply core_vars.
  - intros Hr px py Hp Hnd. cbn in *. rewrite E3 in Hr. destruct (I3 Hr) as (_ & Ew & Eh). destruct Hp as [Hx Hy].
    destruct (Hsc px py) as [Hnd' ->]; [by rewrite E1, Ew|by rewrite E2, Eh|done|]. by apply I5.
Qed.

(** The common shape of the operations on one window: its old place is marked,
    it changes, and its new place is marked. *)
Lemma inv_update s i w w' v1 v3 :
  wm_inv s → wm_windows (wm s) !! i = Some w → w_used w = true →
  vars_inv (set_window i w' (wm s)) → same_image w w' →
  marks (wm s) v1 (λ px py, in_window w px py = true) →
  marks (set_window i w' v1) v3 (λ px py, in_window w' px py = true) →
  wm_inv (with_vars s v3).
Proof.
  intros Hinv Hi Hu Hv' Him [S1 M1] [S3 M3]. pose proof S1 as [W1 _ F1 (X1 & Y1 & R1) (C1 & C1')].
  pose proof S3 as [W3 _ F3 (X3 & Y3 & R3) (C3 & C3')]. cbn in *.
  assert (Hw3 : wm_windows v3 = <[i := w']> (wm_windows (wm s))) by (by rewrite W3, W1).
  assert (Hv3 : vars_inv v3).
  { apply (vars_inv_desktop (set_window i w' v1)); [done|]. apply (vars_inv_desktop (set_window i w' (wm s))); [|done].
    destruct S1. split; cbn; try done. by rewrite W1. }
  assert (Hi3 : wm_windows v3 !! i = Some w') by (rewrite Hw3; apply list_lookup_insert_eq; by eapply lookup_lt_Some).
  apply inv_vars; try done.
  - split_and!; congruence.
  - rewrite Hw3. eapply images_ok_update; [apply Hinv|done|done].
  - intros px py Hx Hy Hnd. rewrite X3 in Hx. rewrite Y3 in Hy.
    assert (Hnd1 : ¬ in_dirty v1 px py ∧ in_window w' px py ≠ true) by (split; intros Hc; apply Hnd, M3; auto).
    destruct Hnd1 as [Hnd1 Hnw']. rewrite X1 in Hx. rewrite Y1 in Hy.
    assert (Hnd0 : ¬ in_dirty (wm s) px py ∧ in_window w px py ≠ true).
    { split; intros Hc; apply Hnd1, M1; auto. }
    destruct Hnd0 as [Hnd0 Hnw]. split; [done|].
    apply scene_same; [apply (wi_vars s Hinv)|apply Hv3| |congruence|congruence|].
    + apply (agree_update _ _ i w w'); [done|done| |].
      * apply not_in_window_hit; [|done]. by apply (vi_geo _ (wi_vars s Hinv) i).
      * destruct (w_used w') eqn:Hu'; [|by apply hit_unused]. apply not_in_window_hit; [|done]. by apply (vi_geo _ Hv3 i).
    + intros j u _ _. by rewrite F3, F1.
Qed.

(** ** Moving, resizing and texts *)
Lemma with_window_spec id body (Q : Z → wm_state P G → Prop) s :
  (wm_find (wm s) id = None → Q (-1) s) →
  (∀ i w, wm_find (wm s) id = Some i → wm_windows (wm s) !! i = Some w → w_used w = true → w_id w = id → wp (body i w) Q s) →
  wp (with_window id body) Q s.
Proof.
  intros Hn Hs. unfold with_window. wp_step. apply wp_vars. pose proof (wm_find_spec (wm s) id) as Hf.
  destruct (wm_find (wm s) id) as [i|]; [|wp_steps; by apply Hn]. destruct Hf as (w & Hi & Hu & He). rewrite Hi. by apply Hs.
Qed.

(** Results of the operations on one window. *)
Definition window_result s (id r : Z) (s' : wm_state P G) : Prop :=
  wm_inv s' ∧ ((r = 0 ∧ is_Some (wm_find (wm s) id)) ∨ (r = -1 ∧ s' = s)).

Lemma wm_move_spec s id x y :
  wm_inv s → -1073741824 ≤ x ≤ 1073741824 → -1073741824 ≤ y ≤ 1073741824 →
  wp (wm_move id x y) (window_result s id) s.
Proof.
  intros Hs Hx Hy. apply with_window_spec; [by split; [|right]|]. intros i w Hf Hi Hu Hid.
  pose proof (vi_geo _ (wi_vars s Hs) i w Hi Hu) as Hg.
  wp_step. apply wp_on_vars. cbv zeta. wp_step. apply wp_on_vars. wp_step. apply wp_on_vars. wp_steps. split; [|left; split; [done|by exists i]].
  eapply (inv_update s i w (set_w_pos x y w)); [done..| | | |].
  - apply (vars_inv_update _ i w); try done; [apply Hs|by apply (vi_ring _ (wi_vars s Hs) i w)|].
    intros _. split; [done|apply Hg].
  - done.
  - by apply mark_window_marks.
  - apply mark_window_marks; [done|]. split; [done|apply Hg].
Qed.

Lemma wm_resize_spec s id ww h :
  wm_inv s → 0 ≤ ww ≤ 536870912 → 0 ≤ h ≤ 536870912 →
  wp (wm_resize id ww h) (window_result s id) s.
Proof.
  intros Hs Hw Hh. apply with_window_spec; [by split; [|right]|]. intros i w Hf Hi Hu Hid.
  pose proof (vi_geo _ (wi_vars s Hs) i w Hi Hu) as Hg.
  wp_step. apply wp_on_vars. cbv zeta. wp_step. apply wp_on_vars. wp_step. apply wp_on_vars. wp_steps. split; [|left; split; [done|by exists i]].
  eapply (inv_update s i w (set_w_size ww h w)); [done..| | | |].
  - apply (vars_inv_update _ i w); try done; [apply Hs|by apply (vi_ring _ (wi_vars s Hs) i w)|].
    intros _. split; [apply Hg|done].
  - done.
  - by apply mark_window_marks.
  - apply mark_window_marks; [done|]. split; [apply Hg|done].
Qed.

(** Setting a text may hide the image but shows no other. *)
Lemma put_text_image text w : same_image w (put_text text w).
Proof.
  split; [done|]. split; [done|]. unfold shows_image, put_text. cbn.
  destruct (strncpy_bytes text WM_TEXT_MAX !! WM_TEXT_MAX) as [c|] eqn:Hb; [|by split].
  assert (c = 0) as ->.
  { unfold strncpy_bytes in Hb. destruct (Nat.ltb_spec (length text) WM_TEXT_MAX).
    - rewrite lookup_app_r in Hb by lia. by apply lookup_replicate in Hb as [-> _].
    - apply lookup_lt_Some in Hb. rewrite length_take in Hb. lia. }
  intros Hs. split; [|done]. apply andb_true_iff in Hs as [Hs ->]. destruct (Z.eqb_spec (w_has_image w) 0) as [He|]; [|done].
  by rewrite He in Hs.
Qed.

Lemma wm_set_text_spec s id text :
  wm_inv s → wp (wm_set_text id text) (window_result s id) s.
Proof.
  intros Hs. apply with_window_spec; [by split; [|right]|]. intros i w Hf Hi Hu Hid.
  pose proof (vi_geo _ (wi_vars s Hs) i w Hi Hu) as Hg.
  cbv zeta. wp_step. apply wp_on_vars. wp_step. apply wp_on_vars. wp_steps. split; [|left; split; [done|by exists i]].
  (* only the new place is marked, which is the old one *)
  assert (Hv' : vars_inv (set_window i (put_text text w) (wm s))).
  { apply (vars_inv_update _ i w); try done; [apply Hs|by apply (vi_ring _ (wi_vars s Hs) i w)|]. intros _. by destruct Hg. }
  destruct (mark_window_marks (put_text text w) (set_window i (put_text text w) (wm s))) as [S3 M3]; [done|by destruct Hg|].
  cbn [wm wm_pages wm_gpu with_vars]. set (v3 := wm_mark_dirty_window _ _) in *. pose proof S3 as [W3 _ F3 (X3 & Y3 & R3) (C3 & C3')]. cbn in *.
  assert (Hv3 : vars_inv v3) by (by apply (vars_inv_desktop (set_window i (put_text text w) (wm s)))).
  apply inv_vars; [done|done|by split_and!| |].
  - rewrite W3. eapply images_ok_update; [apply Hs|done|apply put_text_image].
  - intros px py Hx Hy Hnd. rewrite X3 in Hx. rewrite Y3 in Hy.
    assert (Hn : ¬ in_dirty (wm s) px py ∧ in_window w px py ≠ true) by (split; intros Hc; apply Hnd, M3; auto).
    destruct Hn as [Hnd0 Hnw]. split; [done|]. apply scene_same; [apply (wi_vars s Hs)|apply Hv3| |done|done|].
    + apply (agree_update _ _ i w (put_text text w)); [done|done|by apply not_in_window_hit|].
      apply not_in_window_hit; [by destruct Hg|done].
    + intros j u _ _. by rewrite F3.
Qed.

(** ** Focus *)

(** An event queued: only the ring of the window changes. *)
Lemma queue_vars_spec v o type window_id a b c d :
  vars_inv v → (∀ i, o = Some i → is_Some (wm_windows v !! i)) →
  ∃ v', wm_queue_event o type window_id a b c d v = Some v' ∧ vars_inv v' ∧
    same_desktop (set_windows (wm_windows v') v) v' ∧ wm_dirty v' = wm_dirty v ∧
    (∀ j, o ≠ Some j → wm_windows v' !! j = wm_windows v !! j) ∧
    (∀ j w, wm_windows v !! j = Some w → ∃ w', wm_windows v' !! j = Some w' ∧ window_ring_ok w' ∧
       w' = set_w_ring (w_ev_ring w') (w_ev_head w') (w_ev_tail w') (w_ev_overflow_latched w') w).
Proof.
  intros Hv Ho. unfold wm_queue_event.
  assert (Hid : ∀ j w, wm_windows v !! j = Some w → ∃ w', wm_windows v !! j = Some w' ∧ window_ring_ok w' ∧
     w' = set_w_ring (w_ev_ring w') (w_ev_head w') (w_ev_tail w') (w_ev_overflow_latched w') w).
  { intros j w Hj. exists w. split; [done|]. split; [by apply (vi_ring v Hv j)|by destruct w]. }
  destruct o as [i|]; [|exists v; by split_and!].
  destruct (Ho i eq_refl) as [w Hi]. rewrite Hi. cbn. destruct (w_used w) eqn:Hu; cbn [negb].
  2: { exists v. by split_and!. }
  destruct (queue_event_spec w (wm_event_tick v) type window_id a b c d) as (w' & t & -> & Hw' & Hr & _); [by apply (vi_ring v Hv i)|].
  cbn. exists (set_event_tick t (set_window i w' v)). split_and!; try done.
  - apply vars_inv_tick. apply (vars_inv_update v i w); try done; try (by rewrite Hw').
    intros _. destruct (vi_geo v Hv i w Hi Hu). rewrite Hw'. by split.
  - intros j Hj. cbn. rewrite list_lookup_insert_ne by congruence. done.
  - intros j u Hj. cbn. destruct (decide (j = i)) as [->|Hne].
    + rewrite Hi in Hj. injection Hj as <-. exists w'. by rewrite list_lookup_insert_eq by (by eapply lookup_lt_Some).
    + destruct (Hid j u Hj) as (u' & Hj' & ?). exists u'. by rewrite list_lookup_insert_ne.
Qed.

Lemma mark_option_marks v o w :
  vars_inv v → window_at v o = w →
  (∀ w', w = Some w' → w_used w' = true) →
  marks v (wm_mark_dirty_window w v) (λ px py, ∃ w', w = Some w' ∧ in_window w' px py = true).
Proof.
  intros Hv Hw Hu. destruct w as [w|]; [|apply marks_refl; intros px py _ _ (? & ? & _); done].
  eapply marks_weaken; [|apply mark_window_marks]; [intros px py (w' & [= <-] & ?); done|by apply Hu|].
  unfold window_at in Hw. apply bind_Some in Hw as (i & _ & Hi). apply (vi_geo v Hv i); [done|by apply Hu].
Qed.

(** Giving the focus to another window of the desktop. *)
Lemma set_focus_spec v id i w m :
  vars_inv v → wm_find v id = Some i → wm_windows v !! i = Some w → w_id w = id → w_used w = true → wm_focus_id v ≠ id →
  ∃ v', wm_set_focus_internal id v = Some (0, v') ∧ vars_inv v' ∧ wm_focus_id v' = id ∧
    (wm_screen_w v' = wm_screen_w v ∧ wm_screen_h v' = wm_screen_h v ∧ wm_gpu_ready v' = wm_gpu_ready v) ∧
    (wm_cursor_x v' = wm_cursor_x v ∧ wm_cursor_y v' = wm_cursor_y v ∧ wm_next_z v' = wm_next_z v ∧ wm_next_id v' = wm_next_id v) ∧
    (∀ j u, wm_windows v !! j = Some u → ∃ u', wm_windows v' !! j = Some u' ∧
       u' = set_w_ring (w_ev_ring u') (w_ev_head u') (w_ev_tail u') (w_ev_overflow_latched u') u) ∧
    length (wm_windows v') = length (wm_windows v) ∧
    (∀ px py, 0 ≤ px < wm_screen_w v → 0 ≤ py < wm_screen_h v → ¬ in_dirty v' px py →
       ¬ in_dirty v px py ∧ in_window w px py ≠ true ∧ scene_pixel v' m px py = scene_pixel v m px py).
Proof.
  intros Hv Hf Hi Hid Hu Hne. unfold wm_set_focus_internal. rewrite (proj2 (Z.eqb_neq _ _) Hne), Hf. cbn [window_at mbind option_bind].
  destruct (vi_shown v Hv i w Hi Hu) as [Hvis Hfo]. rewrite Hi. rewrite Hvis, Hfo. cbn [negb orb]. rewrite andb_false_r.
  set (o := wm_find v (wm_focus_id v)). pose proof (wm_find_spec v (wm_focus_id v)) as Ho. fold o in Ho.
  assert (Hoi : o ≠ Some i). { intros He. rewrite He in Ho. destruct Ho as (w' & Hw' & _ & ?). rewrite Hi in Hw'. injection Hw' as <-. congruence. }
  destruct (queue_vars_spec (set_focus_id id v) o WM_EV_FOCUS_OUT (wrap32 (match window_at v o with Some w => w_id w | None => 0 end)) 0 0 0 0)
    as (v1 & -> & Hv1 & S1 & D1 & O1 & R1).
  { apply vars_inv_focus; [done|right; eauto]. }
  { intros j Hj. rewrite Hj in Ho. destruct Ho as (w' & ? & _). by exists w'. }
  cbn [mbind option_bind]. cbn in O1, R1, D1.
  destruct (R1 i w Hi) as (w1 & Hi1 & _ & E1).
  destruct (queue_vars_spec v1 (Some i) WM_EV_FOCUS_IN (wrap32 (w_id w)) 0 0 0 0) as (v2 & -> & Hv2 & S2 & D2 & O2 & R2); [done| |].
  { intros j [= <-]. by exists w1. }
  cbn [mbind option_bind].
  destruct (R2 i w1 Hi1) as (w2 & Hi2 & _ & E2).
  pose proof S1 as [_ [N1 N1'] F1 (X1 & Y1 & G1) (C1 & C1')]. pose proof S2 as [_ [N2 N2'] F2 (X2 & Y2 & G2) (C2 & C2')]. cbn in *.
  destruct (mark_taskbar_marks v2 Hv2) as [S3 M3]. set (v3 := wm_mark_dirty_taskbar v2) in *.
  pose proof (vars_inv_desktop _ _ S3 Hv2) as Hv3.
  assert (Huse : ∀ j u, wm_windows v !! j = Some u → ∃ u', wm_windows v2 !! j = Some u' ∧
     u' = set_w_ring (w_ev_ring u') (w_ev_head u') (w_ev_tail u') (w_ev_overflow_latched u') u).
  { intros j u Hj. destruct (R1 j u Hj) as (u1 & Hj1 & _ & Eu1). destruct (R2 j u1 Hj1) as (u2 & Hj2 & _ & Eu2).
    exists u2. split; [done|]. rewrite Eu2, Eu1. done. }
  assert (Hused : ∀ j u, wm_windows v !! j = Some u → ∀ u', wm_windows v2 !! j = Some u' → w_used u' = w_used u).
  { intros j u Hj u' Hj'. destruct (Huse j u Hj) as (u2 & Hj2 & Eu). rewrite Hj2 in Hj'. injection Hj' as <-. by rewrite Eu. }
  assert (W3 : wm_windows v3 = wm_windows v2) by apply S3.
  destruct (mark_option_marks v3 o (window_at v3 o) Hv3 eq_refl) as [S4 M4].
  { intros w' Hw'. apply bind_Some in Hw' as (j & Hj & Hw'). rewrite W3 in Hw'. rewrite Hj in Ho. destruct Ho as (u & Hu' & Huu & _).
    by rewrite (Hused j u Hu' w' Hw'). }
  set (v4 := wm_mark_dirty_window _ v3) in *. pose proof (vars_inv_desktop _ _ S4 Hv3) as Hv4.
  assert (W4 : wm_windows v4 = wm_windows v2) by (destruct S4; congruence).
  rewrite W4, Hi2. destruct (mark_window_marks w2 v4) as [S5 M5].
  { by rewrite E2, E1. } { apply (vi_geo v4 Hv4 i); [by rewrite W4|by rewrite E2, E1]. }
  set (v5 := wm_mark_dirty_window (Some w2) v4) in *. exists v5.
  pose proof (vars_inv_desktop _ _ S5 Hv4) as Hv5.
  assert (S25 : same_desktop v2 v5) by (etrans; [exact S3|etrans; [exact S4|exact S5]]).
  pose proof S25 as [W5 [N5 N5'] F5 (X5 & Y5 & G5) (C5 & C5')].
  split; [done|]. split; [done|]. split; [congruence|]. split; [split_and!; congruence|]. split; [split_and!; congruence|].
  split; [intros j u Hj; rewrite W5; by apply Huse|]. split; [rewrite (vi_len _ Hv5), (vi_len _ Hv); done|].
  intros px py Hx Hy Hnd.
  assert (Hwin2 : in_window w2 px py = in_window w px py) by (by rewrite E2, E1).
  pose proof S3 as [_ _ _ (X3 & Y3 & _) _]. pose proof S4 as [_ _ _ (X4 & Y4 & _) _].
  assert (Bx : 0 ≤ px < wm_screen_w v2) by congruence. assert (By : 0 ≤ py < wm_screen_h v2) by congruence.
  destruct (marks_clean v4 v5 _ px py (conj S5 M5)) as [H4 Hnw]; [congruence..|]. rewrite Hwin2 in Hnw.
  destruct (marks_clean v3 v4 _ px py (conj S4 M4)) as [H3 Hno]; [congruence..|].
  destruct (marks_clean v2 v3 _ px py (conj S3 M3)) as [H2 _]; [done..|].
  assert (H0 : ¬ in_dirty v px py) by (unfold in_dirty in *; by rewrite D2, D1 in H2).
  split; [done|]. split; [done|].
  (* no window that is hit here changes *)
  assert (Hold : ∀ j u, wm_windows v !! j = Some u → o = Some j → in_window u px py ≠ true).
  { intros j u Hj Hoj Hc. apply Hno. destruct (Huse j u Hj) as (u2 & Hj2 & Eu). exists u2. rewrite Hoj. cbn. rewrite W3.
    split; [done|]. by rewrite Eu. }
  assert (Hsmall : ∀ j u, wm_windows v !! j = Some u → hit u px py 0 = true → window_small u).
  { intros j u Hj Hh. apply (vi_geo v Hv j); [done|by eapply hit_used]. }
  assert (Hhit : ∀ j u, wm_windows v !! j = Some u → hit u px py 0 = true → j ≠ i ∧ o ≠ Some j).
  { intros j u Hj Hh. pose proof (Hsmall j u Hj Hh) as Hsm.
    assert (Hin : in_window u px py = true) by (destruct (in_window u px py) eqn:E; [done|]; rewrite not_in_window_hit in Hh; [done|done|congruence]).
    split; [intros ->; rewrite Hi in Hj; injection Hj as <-; done|]. intros Hoj. by apply (Hold j u Hj Hoj). }
  assert (Hsame : ∀ j, j ≠ i → o ≠ Some j → wm_windows v5 !! j = wm_windows v !! j).
  { intros j Hj Hoj. rewrite W5, O2, O1; congruence. }
  apply scene_same; [apply Hv|apply Hv5| |congruence|congruence|].
  - split.
    + intros j u Hj Hh. destruct (Hhit j u Hj Hh). by rewrite Hsame.
    + intros j u Hj Hh. destruct (lookup_lt_is_Some_2 (wm_windows v) j) as [u0 Hu0].
      { apply lookup_lt_Some in Hj. rewrite (vi_len _ Hv5) in Hj. by rewrite (vi_len _ Hv). }
      assert (Hh0 : hit u0 px py 0 = true).
      { destruct (Huse j u0 Hu0) as (u2 & Hj2 & Eu). rewrite W5, Hj2 in Hj. injection Hj as <-. by rewrite Eu in Hh. }
      destruct (Hhit j u0 Hu0 Hh0). by rewrite <-Hsame.
  - intros j u Hj Hh. destruct (Hhit j u Hj Hh) as [Hji Hjo]. unfold window_pixel.
    destruct (_ && _); [done|]. f_equal.
    assert (Hid' : w_id u ≠ wm_focus_id v5).
    { rewrite F5, F2, F1. intros He. apply Hji. apply (vi_id_inj v Hv j i u w); try done; [by eapply hit_used|congruence]. }
    rewrite (proj2 (Z.eqb_neq _ _) Hid'). assert (Hid'' : w_id u ≠ wm_focus_id v).
    { intros He. apply Hjo. apply (wm_find_Some v _ j u Hv Hj); [by eapply hit_used|done]. }
    by rewrite (proj2 (Z.eqb_neq _ _) Hid'').
Qed.

Lemma try_vars_spec {A} (f : wm_vars → option (A * wm_vars)) (Q : A → wm_state P G → Prop) s a v' :
  f (wm s) = Some (a, v') → Q a (with_vars s v') → wp (try_vars f) Q s.
Proof. intros Hf HQ. unfold try_vars. wp_step. apply wp_vars. rewrite Hf. wp_step. apply wp_on_vars. by wp_steps. Qed.

(** What [wm_focus] does: the window is on top and has the focus.  What is
    shown stays clean unless it had the focus before. *)
Definition focused s (id r : Z) (s' : wm_state P G) : Prop :=
  wm_pages s' = wm_pages s ∧ wm_gpu s' = wm_gpu s ∧ wm_core s' ∧
  (wm_screen_w (wm s') = wm_screen_w (wm s) ∧ wm_screen_h (wm s') = wm_screen_h (wm s)) ∧
  (wm_cursor_x (wm s') = wm_cursor_x (wm s) ∧ wm_cursor_y (wm s') = wm_cursor_y (wm s)) ∧
  match wm_find (wm s) id with
  | None => r = -1 ∧ s' = s
  | Some i => r = 0 ∧ wm_focus_id (wm s') = id ∧ wm_next_z (wm s') = wm_next_z (wm s) + 1 ∧
      (∃ w, wm_windows (wm s') !! i = Some w ∧ w_id w = id ∧ w_z w = wm_next_z (wm s)) ∧
      (wm_focus_id (wm s) ≠ id → clean s → clean s')
  end.

Lemma wm_focus_spec s id :
  wm_core s → wm_next_z (wm s) < 2147483647 → wp (wm_focus id) (focused s id) s.
Proof.
  intros Hs Hmax. apply with_window_spec; [intros Hn; unfold focused; by rewrite Hn|]. intros i w Hf Hi Hu Hid.
  pose proof (wi_vars s Hs) as Hv.
  wp_step. apply wp_on_vars. set (v1 := set_next_z _ _). pose proof (vars_inv_raise (wm s) i w Hv Hi Hmax) as Hv1. fold v1 in Hv1.
  assert (Hnz : wm_next_z v1 = wm_next_z (wm s) + 1) by (apply to_int_id; pose proof (vi_next _ Hv); unfold is_int; lia).
  assert (Hi1 : wm_windows v1 !! i = Some (set_w_z (wm_next_z (wm s)) w)) by (apply list_lookup_insert_eq; by eapply lookup_lt_Some).
  assert (Him1 : images_ok (pg_refs (wm_pages s)) (fb_of s) (w_of s) (h_of s) (wm_windows v1)).
  { eapply images_ok_update; [apply Hs|done|done]. }
  destruct (decide (wm_focus_id (wm s) = id)) as [He|Hne].
  - apply (try_vars_spec _ _ _ 0 v1).
    { unfold wm_set_focus_internal. cbn. by rewrite He, Z.eqb_refl. }
    unfold focused. rewrite Hf. split_and!; try done; [by apply (core_vars s v1)|by eexists].
  - assert (Hf1 : wm_find v1 id = Some i) by (by apply (wm_find_Some v1 id i _ Hv1 Hi1)).
    destruct (set_focus_spec v1 id i _ (mem_of s) Hv1 Hf1 Hi1) as (v' & Hrun & Hv' & Hfid & Hsc & Hcur & Hwin & Hlen & Hcl); [done..|].
    eapply try_vars_spec; [exact Hrun|]. unfold focused. rewrite Hf. destruct Hsc as (E1 & E2 & E3), Hcur as (C1 & C2 & C3 & C4).
    assert (Hcore : wm_core (with_vars s v')).
    { apply core_vars; try done. apply (images_ok_map _ _ _ _ (wm_windows v1)); [done|]. intros j u' Hj.
      destruct (lookup_lt_is_Some_2 (wm_windows v1) j) as [u Hu']; [apply lookup_lt_Some in Hj; lia|]. exists u. split; [done|].
      destruct (Hwin j u Hu') as (u2 & Hj2 & Eu). rewrite Hj in Hj2. injection Hj2 as <-. rewrite Eu. done. }
    split_and!; try done; [cbn; lia| |].
    + destruct (Hwin i _ Hi1) as (u & Hui & Eu). exists u. split; [done|]. by rewrite Eu.
    + intros _ Hclean Hr px py Hp Hnd. cbn in *. rewrite E3 in Hr. destruct (wi_screen s Hs Hr) as (_ & Ew & Eh). destruct Hp as [Hx Hy].
      destruct (Hcl px py) as (Hnd1 & Hnw & ->); [cbn; congruence|cbn; congruence|done|].
      rewrite (scene_same (wm s) v1 (mem_of s) (mem_of s)); [|apply Hv|apply Hv1| |done|done|done].
      * by apply Hclean.
      * apply (agree_update _ _ i w (set_w_z (wm_next_z (wm s)) w)); [done|done| |]; (apply not_in_window_hit; [|exact Hnw]).
        -- by apply (vi_geo _ Hv i).
        -- by apply (vi_geo _ Hv1 i).
Qed.

(** ** The cursor and the mouse *)
Lemma full_clean s v' :
  wm_core s → vars_inv v' →
  wm_screen_w v' = wm_screen_w (wm s) ∧ wm_screen_h v' = wm_screen_h (wm s) ∧ wm_gpu_ready v' = wm_gpu_ready (wm s) →
  wm_windows v' = wm_windows (wm s) → wm_inv (with_vars s (wm_mark_dirty_full v')).
Proof.
  intros Hs Hv (E1 & E2 & E3) Hw. destruct (mark_full_marks v') as [S M]. split.
  - apply core_vars; try done; [by apply (vars_inv_desktop v')|]. cbn. rewrite Hw. apply Hs.
  - intros Hr px py [Hx Hy] Hnd. cbn in *. rewrite E3 in Hr. destruct (wi_screen s Hs Hr) as (_ & Ew & Eh).
    exfalso. apply Hnd, M; [congruence|congruence|by right].
Qed.

Lemma vars_inv_cursor v x y : vars_inv v → vars_inv (set_cursor x y v).
Proof. intros []. by split. Qed.

Lemma wm_cursor_move_spec s dx dy : wm_inv s → wp (wm_cursor_move dx dy) (λ _ s', wm_inv s') s.
Proof. intros Hs. apply wp_on_vars. apply full_clean; [apply Hs|apply vars_inv_cursor, Hs|done|done]. Qed.

(** Events other than a click only move the cursor. *)
Lemma mouse_event_spec s ev changed :
  wm_core s → wm_next_z (wm s) < 2147483647 →
  wp (mouse_event ev changed) (λ c s', wm_core s' ∧ wm_next_z (wm s) ≤ wm_next_z (wm s') ≤ wm_next_z (wm s) + 1 ∧
    (c = false → changed = false ∧ s' = s) ∧ wm_pages s' = wm_pages s ∧ wm_gpu s' = wm_gpu s) s.
Proof.
  intros Hs Hmax. unfold mouse_event. wp_step.
  apply (wp_mono _ (λ _ s1, wm_core s1 ∧ wm_next_z (wm s1) = wm_next_z (wm s) ∧ wm_pages s1 = wm_pages s ∧ wm_gpu s1 = wm_gpu s ∧
    ((vi_type ev =? VI_EV_REL) && ((vi_code ev =? VI_REL_X) || (vi_code ev =? VI_REL_Y)) = false → s1 = s))).
  - destruct (vi_type ev =? VI_EV_REL); cbn [andb]; [|by wp_steps]. apply wp_on_vars. cbv zeta.
    assert (Hset : ∀ s0 x y, wm_core s0 → wm_core (with_vars s0 (set_cursor x y (wm s0)))).
    { intros s0 x y H0. apply core_vars; [done|apply vars_inv_cursor, H0|done|apply H0]. }
    destruct (vi_code ev =? VI_REL_X), (vi_code ev =? VI_REL_Y); cbn [orb]; split_and!; try done.
    + by apply (Hset (with_vars s _)), Hset.
    + by apply Hset.
    + by apply Hset.
    + by destruct s.
    + by destruct s.
  - intros _ s1 (H1 & Hz1 & Hp1 & Hg1 & Hsame). cbv zeta.
    destruct ((vi_type ev =? VI_EV_KEY) && (vi_code ev =? VI_BTN_LEFT)).
    2: { wp_steps. split_and!; try done; try lia. intros Hc. apply orb_false_iff in Hc as [Hc1 Hc2]. split; [done|by apply Hsame]. }
    wp_step. destruct (negb (vi_value ev =? 0)).
    2: { wp_steps. split_and!; try done; lia. }
    wp_step. apply wp_vars. destruct (window_at _ _) as [w|].
    2: { wp_steps. split_and!; try done; lia. }
    wp_step. eapply wp_mono; [apply wm_focus_spec; [done|lia]|]. intros r s2 (Hp2 & Hg2 & H2 & _ & _ & Hf).
    wp_steps. split_and!; try done; try congruence. all: destruct (wm_find _ _); [|destruct Hf as [_ ->]]; try lia; destruct Hf as (_ & _ & ? & _); lia.
Qed.

Lemma mouse_events_spec evs : ∀ s changed,
  wm_core s → wm_next_z (wm s) + length evs < 2147483647 →
  wp (mouse_events evs changed) (λ c s', wm_core s' ∧ (c = false → changed = false ∧ s' = s) ∧
    wm_pages s' = wm_pages s ∧ wm_gpu s' = wm_gpu s) s.
Proof.
  induction evs as [|ev evs IH]; intros s changed Hs Hmax; simpl in *; [by wp_steps|].
  wp_step. eapply wp_mono; [apply mouse_event_spec; [done|lia]|]. intros c s1 (H1 & Hz1 & Hc1 & Hp1 & Hg1).
  eapply wp_mono; [apply IH; [done|lia]|]. intros c' s2 (H2 & Hc2 & Hp2 & Hg2). split_and!; try congruence; try done.
  intros Hc'. destruct (Hc2 Hc') as [Hcf ->]. by apply Hc1.
Qed.

Lemma wm_poll_mouse_input_spec s evs :
  wm_inv s → wm_next_z (wm s) + length evs < 2147483647 →
  wp (wm_poll_mouse_input evs) (λ _ s', wm_inv s') s.
Proof.
  intros Hs Hmax. unfold wm_poll_mouse_input. wp_step. eapply wp_mono; [apply mouse_events_spec; [apply Hs|done]|].
  intros c s1 (H1 & Hc & _). destruct c.
  - wp_step. apply wp_on_vars. wp_steps. apply full_clean; [done|apply H1|done|done].
  - destruct (Hc eq_refl) as [_ ->]. by wp_steps.
Qed.

Lemma wm_poll_event_spec s id :
  wm_inv s → wp (wm_poll_event id) (λ r s', wm_inv s' ∧
    match wm_find (wm s) id with
    | None => r = None ∧ s' = s
    | Some i => ∃ w w', wm_windows (wm s) !! i = Some w ∧ wm_windows (wm s') !! i = Some w' ∧
        match window_events w with
        | [] => r = None ∧ s' = s
        | e :: q => r = Some e ∧ window_events w' = q
        end
    end) s.
Proof.
  intros Hs. unfold wm_poll_event. wp_step. apply wp_vars. pose proof (wm_find_spec (wm s) id) as Hf.
  destruct (wm_find (wm s) id) as [i|]; cbn; [|by wp_steps]. destruct Hf as (w & Hi & Hu & Hid). rewrite Hi.
  pose proof (wi_vars s Hs) as Hv. pose proof (vi_ring _ Hv i w Hi) as Hr.
  pose proof (ring_empty_iff zero_wm_event RING ring_gt1 _ _ _ Hr) as Hem. fold (window_events w) in Hem.
  destruct (Z.eqb_spec (w_ev_head w) (w_ev_tail w)) as [He|He].
  { wp_steps. split; [done|]. exists w, w. split_and!; try done. by rewrite (proj1 Hem He). }
  destruct (ring_pop zero_wm_event RING ring_gt1 _ _ _ Hr He) as [Hr1 Hit]. fold (window_events w) in Hit.
  destruct Hr as [Hlen Hh Ht]. destruct (aget_in (w_ev_ring w) (w_ev_head w)) as [e Hev]; [lia|]. rewrite Hev.
  wp_step. apply wp_on_vars. wp_steps. set (w' := set_w_ring _ _ _ _ w). split.
  - apply inv_vars; try done.
    + apply (vars_inv_update _ i w); try done. intros _. destruct (vi_geo _ Hv i w Hi Hu). by split.
    + eapply images_ok_update; [apply Hs|done|done].
    + intros px py Hx Hy Hnd. split; [done|].
      (* the ring of a window is not part of the scene *)
      assert (Htop : wm_top_at px py 0 (set_window i w' (wm s)) = wm_top_at px py 0 (wm s)).
      { unfold wm_top_at. cbn. generalize 0%nat at 1 2. revert Hi. generalize (None (A:=nat)) (-1). clear.
        generalize (wm_windows (wm s)). intros l. revert i. induction l as [|u l IH]; intros i o z Hi k; [done|].
        destruct i as [|i]; simpl in *; [injection Hi as ->; done|]. by rewrite !IH. }
      unfold scene_pixel. rewrite Htop. unfold window_at. cbn. destruct (in_rect _ _ 8 8 px py); [done|].
      destruct (wm_top_at px py 0 (wm s)) as [j|]; cbn; [|done].
      destruct (decide (j = i)) as [->|Hne]; [|by rewrite list_lookup_insert_ne].
      rewrite Hi, list_lookup_insert_eq by (by eapply lookup_lt_Some). done.
  - exists w, w'. cbn. rewrite list_lookup_insert_eq by (by eapply lookup_lt_Some). split_and!; try done. rewrite Hit.
    split; [|done]. unfold ring_at. rewrite Z.mod_small by done. by rewrite Hev.
Qed.
End ops.
