(* ===== verification/WmLife.v ===== *)
(** * Creating and closing windows, images, and rendering *)

From S2P Require Import Prelude Layout KString PageAlloc PageAllocSpec PageIface SelSort GpuIface Ring VirtioInput Wm WmEvents WmDraw WmOrder WmScene WmInv WmOps.
From Stdlib Require Import Sorted.

(** ** The table of windows *)
Lemma vars_inv_close v i w :
  vars_inv v → wm_windows v !! i = Some w → w_used w = true →
  let v' := set_window i (set_w_used false w) v in
  vars_inv (if wm_focus_id v =? w_id w then set_focus_id 0 v' else v').
Proof.
  intros Hv Hi Hu v'. set (w' := set_w_used false w).
  assert (Hlook : ∀ j u, <[i := w']> (wm_windows v) !! j = Some u → w_used u = true → j ≠ i ∧ wm_windows v !! j = Some u).
  { intros j u Hj Huse. apply list_lookup_insert_Some in Hj as [(_ & <- & _)|[? ?]]; done. }
  destruct Hv as [V1 V2 V3 V4 [V5 V5'] V6 V7 V11 V8 V9 V10].
  assert (Hbase : ∀ fid, fid = 0 ∨ (∃ j u, <[i := w']> (wm_windows v) !! j = Some u ∧ w_used u = true ∧ w_id u = fid) →
    vars_inv (set_focus_id fid v')).
  { intros fid Hfid. split; cbn; try done.
    - by rewrite length_insert.
    - intros j u Hj. apply list_lookup_insert_Some in Hj as [(_ & <- & _)|[_ ?]]; [by apply (V2 i w)|by apply (V2 j)].
    - intros j u Hj Huse. destruct (Hlook j u Hj Huse). by apply (V3 j).
    - intros j k u1 u2 H1 H2 Hu1 Hu2. destruct (Hlook j u1 H1 Hu1), (Hlook k u2 H2 Hu2). by apply (V4 j k).
    - split.
      + intros j u Hj Huse. destruct (Hlook j u Hj Huse). by apply (V5 j).
      + intros j k u1 u2 H1 H2 Hu1 Hu2. destruct (Hlook j u1 H1 Hu1), (Hlook k u2 H2 Hu2). by apply (V5' j k).
    - intros j u Hj Huse. destruct (Hlook j u Hj Huse). by apply (V6 j).
    - intros j u Hj Huse. destruct (Hlook j u Hj Huse). by apply (V11 j).
    - intros j u Hj Huse. destruct (Hlook j u Hj Huse). by apply (V9 j). }
  destruct (Z.eqb_spec (wm_focus_id v) (w_id w)) as [He|Hne]; [apply Hbase; by left|].
  replace v' with (set_focus_id (wm_focus_id v) v') by done. apply Hbase.
  destruct V8 as [?|(j & u & Hj & Hju & Hid)]; [by left|right]. exists j, u. rewrite list_lookup_insert_ne; [done|].
  intros <-. rewrite Hi in Hj. injection Hj as <-. done.
Qed.

Lemma vars_inv_create v i w0 w :
  vars_inv v → wm_windows v !! i = Some w0 → w_used w0 = false →
  wm_next_id v < 2147483647 → wm_next_z v < 2147483647 →
  w_used w = true → w_id w = wm_next_id v → w_z w = wm_next_z v → w_visible w = true → w_focusable w = true →
  window_ring_ok w → window_small w →
  vars_inv (set_next_z (iadd (wm_next_z v) 1) (set_next_id (iadd (wm_next_id v) 1) (set_window i w v))).
Proof.
  intros Hv Hi Hu0 Hm1 Hm2 Hu Hid Hz Hvis Hfo Hr Hg. destruct Hv as [V1 V2 V3 V4 [V5 V5'] V6 V7 V11 V8 V9 V10].
  assert (E1 : iadd (wm_next_z v) 1 = wm_next_z v + 1) by (apply to_int_id; unfold is_int; lia).
  assert (E2 : iadd (wm_next_id v) 1 = wm_next_id v + 1) by (apply to_int_id; unfold is_int; lia).
  assert (Hlook : ∀ j u, <[i := w]> (wm_windows v) !! j = Some u → (j = i ∧ u = w) ∨ (j ≠ i ∧ wm_windows v !! j = Some u)).
  { intros j u Hj. apply list_lookup_insert_Some in Hj as [(-> & <- & _)|[? ?]]; auto. }
  split; cbn; rewrite ?E1, ?E2; try done; try lia.
  - by rewrite length_insert.
  - intros j u Hj. destruct (Hlook j u Hj) as [[-> ->]|[_ ?]]; [done|by apply (V2 j)].
  - intros j u Hj Huse. destruct (Hlook j u Hj) as [[-> ->]|[_ Hj']]; [lia|]. pose proof (V3 j u Hj' Huse). lia.
  - intros j k u1 u2 H1 H2 Hu1 Hu2 He. destruct (Hlook j u1 H1) as [[-> ->]|[_ H1']], (Hlook k u2 H2) as [[-> ->]|[_ H2']]; try done.
    + pose proof (V3 k u2 H2' Hu2). lia.
    + pose proof (V3 j u1 H1' Hu1). lia.
    + by apply (V4 j k u1 u2).
  - split.
    + intros j u Hj Huse. destruct (Hlook j u Hj) as [[-> ->]|[_ ?]]; [lia|by apply (V5 j)].
    + intros j k u1 u2 H1 H2 Hu1 Hu2 He. destruct (Hlook j u1 H1) as [[-> ->]|[_ H1']], (Hlook k u2 H2) as [[-> ->]|[_ H2']]; try done.
      * pose proof (V6 k u2 H2' Hu2). lia.
      * pose proof (V6 j u1 H1' Hu1). lia.
      * by apply (V5' j k u1 u2).
  - intros j u Hj Huse. destruct (Hlook j u Hj) as [[-> ->]|[_ Hj']]; [lia|]. pose proof (V6 j u Hj' Huse). lia.
  - intros j u Hj Huse. destruct (Hlook j u Hj) as [[-> ->]|[_ ?]]; [done|by apply (V11 j)].
  - destruct V8 as [?|(j & u & Hj & Hju & Hjid)]; [by left|right]. exists j, u. rewrite list_lookup_insert_ne; [done|].
    intros <-. rewrite Hi in Hj. injection Hj as <-. congruence.
  - intros j u Hj Huse. destruct (Hlook j u Hj) as [[-> ->]|[_ ?]]; [done|by apply (V9 j)].
Qed.

Lemma vars_inv_repack v : vars_inv v → vars_inv (wm_repack_z v).
Proof.
  intros Hv. pose proof (wm_repack_z_repacked v) as Hr. destruct Hv as [V1 V2 V3 V4 V5 V6 V7 V11 V8 V9 V10].
  assert (Hlen : length (wm_windows (wm_repack_z v)) = length (wm_windows v)) by (cbn; apply length_assign_z).
  assert (Hback : ∀ j u, wm_windows (wm_repack_z v) !! j = Some u → ∃ u0 z, wm_windows v !! j = Some u0 ∧ u = set_w_z z u0).
  { intros j u Hj. destruct (lookup_lt_is_Some_2 (wm_windows v) j) as [u0 Hu0]; [apply lookup_lt_Some in Hj; lia|].
    destruct (repacked_window _ _ j u0 Hr Hu0) as (z & Hz & _). rewrite Hj in Hz. injection Hz as ->. eauto. }
  split; try done.
  - by rewrite Hlen.
  - intros j u Hj. destruct (Hback j u Hj) as (u0 & z & Hj0 & ->). by apply (V2 j u0).
  - intros j u Hj. destruct (Hback j u Hj) as (u0 & z & Hj0 & ->). by apply (V3 j u0).
  - intros j k u1 u2 H1 H2. destruct (Hback j u1 H1) as (a & z1 & Ha & ->), (Hback k u2 H2) as (b & z2 & Hb & ->). by apply (V4 j k a b).
  - by apply (repacked_z_ok (wm_windows v)).
  - intros j u Hj Hu. destruct (Hback j u Hj) as (u0 & z & Hj0 & ->).
    destruct (draw_order_spec w_used (wm_windows v)) as (Hnd & Hin & _).
    assert (Hm : j ∈ draw_order w_used (wm_windows v)) by (apply Hin; eauto). apply list_elem_of_lookup in Hm as [p Hp].
    unfold wm_repack_z in Hj. cbn in Hj. fold (draw_order w_used (wm_windows v)) in Hj.
    rewrite assign_z_lookup, (list_find_eq _ j p), Hj0 in Hj by done. cbn in Hj. injection Hj as Hj. rewrite <-Hj. cbn.
    apply lookup_lt_Some in Hp. unfold draw_order in *. lia.
  - cbn. destruct V7. split; [done|lia].
  - intros j u Hj. destruct (Hback j u Hj) as (u0 & z & Hj0 & ->). by apply (V11 j u0).
  - destruct V8 as [?|(j & u & Hj & Hu & Hid)]; [by left|right]. destruct (repacked_window _ _ j u Hr Hj) as (z & Hz & _). by exists j, (set_w_z z u).
  - intros j u Hj Hu. destruct (Hback j u Hj) as (u0 & z & Hj0 & ->). by destruct (V9 j u0 Hj0 Hu).
Qed.

(** Repacking does not change the scene. *)
Lemma scene_repack v m px py : vars_inv v → scene_pixel (wm_repack_z v) m px py = scene_pixel v m px py.
Proof.
  intros Hv. unfold scene_pixel. rewrite top_at_repack by apply Hv. change (wm_cursor_x (wm_repack_z v)) with (wm_cursor_x v).
  change (wm_cursor_y (wm_repack_z v)) with (wm_cursor_y v). destruct (in_rect _ _ 8 8 px py); [done|].
  pose proof (wm_top_at_spec v px py 0 (vi_z v Hv)) as Ht. destruct (wm_top_at px py 0 v) as [i|]; [|done].
  destruct Ht as (w & Hi & _). unfold window_at. cbn [mbind option_bind]. rewrite Hi.
  destruct (repacked_window _ _ i w (wm_repack_z_repacked v) Hi) as (z & -> & _). done.
Qed.

Lemma write_bytes_rd l : ∀ m a x, 0 ≤ a → a + length l ≤ 4294967296 → ¬ (a ≤ x < a + length l) → rd (write_bytes m a l) x = rd m x.
Proof.
  induction l as [|b l IH]; intros m a x Ha Hl Hx; simpl in *; [done|].
  destruct (decide (a + 1 = 4294967296)) as [He|Hne].
  - destruct l; simpl in *; [|lia]. rewrite rd_wr. zcases; done.
  - rewrite add32_small by lia. rewrite IH by lia. rewrite rd_wr. zcases; done.
Qed.

Section life.
Context {L : Layout} {LOK : LayoutOk} {P G : Type} {PO : PageOps P} {POK : PageOpsOk P} {GO : GpuOps P G} {GOK : GpuOpsOk P G}.
Implicit Types s : wm_state P G.

Abbreviation fb_of s := (virtio_gpu_backbuffer (wm_gpu s)).
Abbreviation w_of s := (virtio_gpu_width (wm_gpu s)).
Abbreviation h_of s := (virtio_gpu_height (wm_gpu s)).
Abbreviation mem_of s := (pg_mem (wm_pages s)).

Lemma clean_step s s' :
  wm_inv s → wm_gpu s' = wm_gpu s →
  wm_screen_w (wm s') = wm_screen_w (wm s) ∧ wm_screen_h (wm s') = wm_screen_h (wm s) ∧ wm_gpu_ready (wm s') = wm_gpu_ready (wm s) →
  (wm_gpu_ready (wm s) = true → ∀ px py, on_screen (w_of s) (h_of s) px py →
     pixel (fb_of s) (w_of s) (mem_of s') px py = pixel (fb_of s) (w_of s) (mem_of s) px py) →
  (∀ px py, 0 ≤ px < wm_screen_w (wm s) → 0 ≤ py < wm_screen_h (wm s) → ¬ in_dirty (wm s') px py →
     ¬ in_dirty (wm s) px py ∧ scene_pixel (wm s') (mem_of s') px py = scene_pixel (wm s) (mem_of s) px py) →
  clean s'.
Proof.
  intros Hs Hg (E1 & E2 & E3) Hpx Hsc Hr px py Hp Hnd. rewrite Hg in *. rewrite E3 in Hr. destruct (wi_screen s Hs Hr) as (_ & Ew & Eh).
  pose proof Hp as [Hx Hy]. rewrite Hpx by done. destruct (Hsc px py) as [Hnd' ->]; [by rewrite Ew|by rewrite Eh|done|]. by apply Hs.
Qed.

(** ** Closing *)
Lemma wp_on_wm_pages {A} (c : km P A) (Q : A → wm_state P G → Prop) s :
  wp c (λ a p, Q a (WmState (wm s) p (wm_gpu s))) (wm_pages s) → wp (on_wm_pages c) Q s.
Proof. apply (wp_zoom wm_pages (λ p s, WmState (wm s) p (wm_gpu s))). Qed.

Lemma image_pages_count w : 0 ≤ w_image_bytes w < 2147483648 →
  add32 (w_image_bytes w) (PAGE_SIZE - 1) / PAGE_SIZE = image_pages w.
Proof. intros Hb. unfold PAGE_SIZE. rewrite add32_small by lia. done. Qed.

Lemma free_image_spec s i w :
  wm_core s → wm_windows (wm s) !! i = Some w →
  wp (wm_window_free_image i) (λ _ s', wm s' = set_window i (set_w_image 0 0 0 0 0 w) (wm s) ∧ wm_gpu s' = wm_gpu s ∧
    mem_of s' = mem_of s ∧ wm_core s') s.
Proof.
  intros Hs Hi. unfold wm_window_free_image. wp_step. apply wp_vars. rewrite Hi.
  pose proof (wi_images s Hs) as Him. destruct (im_ok _ _ _ _ _ Him i w Hi) as [Hb Hptr Hblk Hsz].
  set (w' := set_w_image 0 0 0 0 0 w).
  assert (Hv' : vars_inv (set_window i w' (wm s))).
  { apply (vars_inv_update _ i w); try done; [apply Hs|by apply (vi_ring _ (wi_vars s Hs) i w)|].
    intros Hu. by destruct (vi_geo _ (wi_vars s Hs) i w Hi Hu). }
  assert (Hfinal : ∀ p, gpu_ok p (wm_gpu s) →
    images_ok (pg_refs p) (fb_of s) (w_of s) (h_of s) (<[i := w']> (wm_windows (wm s))) →
    wm_core (WmState (set_window i w' (wm s)) p (wm_gpu s))).
  { intros p Hg Hio. split; cbn; [done|done|apply Hs|done]. }
  wp_step. destruct (negb (w_image_pixels w =? 0) && (0 <? w_image_bytes w)) eqn:Hown.
  - assert (Ho : owns w). { apply andb_true_iff in Hown as [H1%negb_true_iff%Z.eqb_neq H2%Z.ltb_lt]. by split. }
    destruct (Hblk Ho) as (Hal & Hlo & Hhi & Hq). rewrite image_pages_count by done.
    apply wp_on_wm_pages. eapply wp_mono; [apply pg_free_spec; try done|].
    + eapply gpu_pages, Hs.
    + unfold image_pages. destruct Ho. Z.div_mod_to_equations. lia.
    + intros [] p (Hp & Hm & [_ Hoth]). apply wp_on_vars. cbn [wm wm_pages wm_gpu]. split_and!; try done. apply Hfinal.
      * eapply gpu_ok_ext; [apply Hs|done|]. intros Hnz q Hqm Hqr Hfb. rewrite Hoth; [done|done|].
        intros Hin. destruct (im_screen _ _ _ _ _ Him Hnz i w q Hi Ho Hin); lia.
      * eapply images_ok_clear; [exact Him|done|done|]. intros j u q Hj Hne Hou Hqm Hqb Hqr. rewrite Hoth; [done|done|]. intros Hin.
        apply Hne. by apply (im_apart _ _ _ _ _ Him j i u w q).
  - wp_step. apply wp_on_vars. split_and!; try done. apply Hfinal; [apply Hs|]. eapply images_ok_clear; [exact Him|done..|auto].
Qed.

(** One window changed with its marks around it; the focus may go away from a
    window that is no longer shown. *)
Lemma gone_scene v v' i w w' m px py :
  vars_inv v → vars_inv v' → wm_windows v !! i = Some w → w_used w = true → wm_windows v' = <[i := w']> (wm_windows v) →
  w_used w' = false → wm_cursor_x v' = wm_cursor_x v ∧ wm_cursor_y v' = wm_cursor_y v →
  wm_focus_id v' = (if wm_focus_id v =? w_id w then 0 else wm_focus_id v) →
  in_window w px py ≠ true → scene_pixel v' m px py = scene_pixel v m px py.
Proof.
  intros Hv Hv' Hi Hu Hw' Hu' (Hcx & Hcy) Hf Hn.
  assert (Hh : hit w px py 0 = false) by (apply not_in_window_hit; [by apply (vi_geo v Hv i)|done]).
  apply scene_same; [apply Hv|apply Hv'| |done|done|].
  - apply (agree_update v v' i w w'); [done|done|done|by apply hit_unused].
  - intros j u Hj Hju. rewrite Hf. destruct (Z.eqb_spec (wm_focus_id v) (w_id w)) as [He|]; [|done].
    destruct (hit_used _ _ _ _ Hju) as [Huu _]. unfold window_pixel.
    pose proof (vi_id v Hv j u Hj Huu). rewrite (proj2 (Z.eqb_neq (w_id u) 0)) by lia.
    rewrite (proj2 (Z.eqb_neq (w_id u) (wm_focus_id v))); [done|]. intros Heq.
    assert (j = i) as -> by (apply (vi_id_inj v Hv j i u w); congruence). congruence.
Qed.

Lemma alter_lookup {A} (f : A → A) (l : list A) i x : l !! i = Some x → alter f i l = <[i := f x]> l.
Proof. revert i. induction l as [|y l IH]; intros [|i] Hi; simpl in *; try done; [by injection Hi as ->|]. f_equal. by apply IH. Qed.

Lemma wm_close_spec s id :
  wm_inv s → wp (wm_close id) (λ r s', wm_inv s' ∧
    match wm_find (wm s) id with
    | None => r = -1 ∧ s' = s
    | Some _ => r = 0 ∧ wm_find (wm s') id = None ∧ wm_focus_id (wm s') ≠ id
    end) s.
Proof.
  intros Hs. apply with_window_spec; [by intros ->|]. intros i w Hf Hi Hu Hid. rewrite Hf. pose proof (wi_vars s Hs) as Hv.
  destruct (mark_window_marks w (wm s) Hu (vi_geo _ Hv i w Hi Hu)) as [S1 M1].
  wp_step. apply wp_on_vars. set (v1 := wm_mark_dirty_window (Some w) (wm s)) in *. clearbody v1.
  pose proof S1 as [W1 [N1 N1'] F1 (X1 & Y1 & G1) (C1 & C1')].
  wp_step. eapply wp_mono.
  { apply (free_image_spec _ i w).
    2: { cbn [wm]. by rewrite W1. }
    apply (core_vars s v1); [apply Hs|by apply (vars_inv_desktop (wm s))|done|].
    rewrite W1. apply Hs. }
  intros [] s2 (E2 & Eg & Em & Hc2). cbn [wm wm_pages wm_gpu] in *. set (w1 := set_w_image 0 0 0 0 0 w) in *.
  assert (Hi2 : wm_windows (wm s2) !! i = Some w1).
  { rewrite E2. cbn. rewrite W1. apply list_lookup_insert_eq. by eapply lookup_lt_Some. }
  wp_step. apply wp_on_vars. wp_step. apply wp_on_vars. wp_step. apply wp_on_vars. wp_steps. cbn [wm wm_pages wm_gpu].
  rewrite (alter_lookup _ _ i w1) by done. fold (set_window i (set_w_used false w1) (wm s2)).
  set (v2 := set_window i (set_w_used false w1) (wm s2)).
  assert (Hfoc : wm_focus_id v2 = wm_focus_id (wm s)) by (cbn; rewrite E2; cbn; done).
  pose proof (vars_inv_close (wm s2) i w1 (wi_vars _ Hc2) Hi2 Hu) as Hv3. cbv zeta in Hv3. fold v2 in Hv3.
  change (wm_focus_id (wm s2)) with (wm_focus_id v2) in Hv3. change (w_id w1) with (w_id w) in Hv3. rewrite Hid in Hv3.
  set (v3 := if wm_focus_id v2 =? id then set_focus_id 0 v2 else v2) in *.
  assert (E3 : wm_windows v3 = <[i := set_w_used false w1]> (wm_windows (wm s)) ∧ wm_screen_w v3 = wm_screen_w (wm s) ∧
    wm_screen_h v3 = wm_screen_h (wm s) ∧ wm_gpu_ready v3 = wm_gpu_ready (wm s) ∧ wm_cursor_x v3 = wm_cursor_x (wm s) ∧
    wm_cursor_y v3 = wm_cursor_y (wm s) ∧ wm_dirty v3 = wm_dirty v1 ∧
    wm_focus_id v3 = if wm_focus_id (wm s) =? id then 0 else wm_focus_id (wm s)).
  { unfold v3. rewrite Hfoc. unfold v2. rewrite E2. destruct (wm_focus_id (wm s) =? id); cbn; rewrite W1, list_insert_insert_eq; by split_and!. }
  destruct E3 as (W3 & X3 & Y3 & G3 & C3 & C3' & D3 & F3).
  destruct (mark_taskbar_marks v3 Hv3) as [S4 M4]. set (v4 := wm_mark_dirty_taskbar v3) in *. clearbody v4.
  pose proof S4 as [W4 [N4 N4'] F4 (X4 & Y4 & G4) (C4 & C4')]. pose proof (vars_inv_desktop _ _ S4 Hv3) as Hv4.
  assert (Hvi : wm_find v4 id = None).
  { pose proof (wm_find_spec v4 id) as Hf4. destruct (wm_find v4 id) as [j|]; [|done]. destruct Hf4 as (u & Hj & Huu & Hju).
    rewrite W4, W3 in Hj. apply list_lookup_insert_Some in Hj as [(_ & <- & _)|[Hne Hj]]; [done|].
    destruct Hne. symmetry. apply (vi_id_inj _ Hv j i u w); congruence. }
  pose proof (vi_id _ Hv i w Hi Hu) as Hidr.
  split; [|split; [done|split; [done|]]].
  2: { rewrite F4, F3. destruct (Z.eqb_spec (wm_focus_id (wm s)) id); [lia|done]. }
  split.
  - apply (core_vars s2 v4 Hc2 Hv4).
    + rewrite E2. cbn. rewrite X1, Y1, G1. split_and!; congruence.
    + rewrite W4, W3. replace (<[i:=set_w_used false w1]> (wm_windows (wm s))) with (<[i:=set_w_used false w1]> (wm_windows (wm s2))).
      2: { rewrite E2. cbn. by rewrite W1, list_insert_insert_eq. }
      eapply images_ok_update; [apply (wi_images _ Hc2)|exact Hi2|done].
  - apply (clean_step s); [done|exact Eg|cbn; split_and!; congruence|by intros; cbn; rewrite Em|].
    intros px py Hx Hy Hnd. cbn [wm wm_pages] in *. rewrite Em.
    assert (Hnd3 : ¬ in_dirty v3 px py) by (intros Hc; apply Hnd, M4; [congruence|congruence|by left]).
    assert (Hnd1 : ¬ in_dirty v1 px py) by (by unfold in_dirty in *; rewrite <-D3).
    destruct (marks_clean (wm s) v1 _ px py (conj S1 M1) Hx Hy Hnd1) as [Hnd0 Hnw]. split; [done|].
    apply (gone_scene _ _ i w (set_w_used false w1)); try done; [by rewrite W4|split; congruence|by rewrite F4, F3, Hid].
Qed.

(** ** Creating *)
Lemma rem_bound a b x : c_rem a b = Some x → b ≠ 0 ∧ Z.abs x < Z.abs b ∧ (0 ≤ a → 0 ≤ x).
Proof.
  unfold c_rem. destruct (Z.eqb_spec b 0); [done|]. intros [= <-]. split; [done|]. split; [by apply Z.rem_bound_abs|].
  intros. by apply Z.rem_nonneg.
Qed.

Lemma usable_h_bound v : vars_inv v → 1 ≤ wm_usable_h v ≤ 768.
Proof.
  intros Hv. destruct (vi_screen v Hv). unfold wm_usable_h, isub, WM_TASKBAR_PX, WM_TEXT_SCREEN_H.
  rewrite to_int_id by (unfold is_int; lia). destruct (wm_gpu_ready v); zcases; lia.
Qed.

(** The first free slot gets a window above all others; where it fits, it is
    placed inside the part of the screen above the taskbar. *)
Definition created s (i : nat) (ww h r : Z) (s' : wm_state P G) : Prop :=
  r = wm_next_id (wm s) ∧ wm_find (wm s') r = Some i ∧
  (∀ j, j ≠ i → wm_windows (wm s') !! j = wm_windows (wm s) !! j) ∧
  ∃ w, wm_windows (wm s') !! i = Some w ∧ w_w w = ww ∧ w_h w = h ∧ window_events w = [] ∧
    (∀ j u, j ≠ i → wm_windows (wm s') !! j = Some u → w_used u = true → w_z u < w_z w) ∧
    (37 * r ≤ 2147483647 → ww ≤ wm_screen_w (wm s) → h ≤ wm_usable_h (wm s) →
       0 ≤ w_x w ∧ w_x w + ww ≤ wm_screen_w (wm s) ∧ 0 ≤ w_y w ∧ w_y w + h ≤ wm_usable_h (wm s)).

Lemma wm_create_spec s title ww h :
  wm_inv s → 0 ≤ ww ≤ 536870912 → 0 ≤ h ≤ 536870912 →
  ww ≠ wm_screen_w (wm s) + 1 → h ≠ wm_usable_h (wm s) + 1 →
  wm_next_id (wm s) < 2147483647 → wm_next_z (wm s) < 2147483647 →
  wp (wm_create title ww h) (λ r s', wm_inv s' ∧
    match find_index (λ w, negb (w_used w)) (wm_windows (wm s)) with
    | None => r = -1 ∧ s' = s
    | Some i => created s i ww h r s'
    end) s.
Proof.
  intros Hs Hww Hh Hnw Hnh Hm1 Hm2. pose proof (wi_vars s Hs) as Hv. unfold wm_create. wp_step. apply wp_vars.
  destruct (find_index _ (wm_windows (wm s))) as [i|] eqn:Hfi; [|by wp_steps].
  destruct (find_index_Some _ _ _ Hfi) as (w0 & Hi & Hu0%negb_true_iff & _).
  pose proof (usable_h_bound _ Hv) as Hus. pose proof (vi_screen _ Hv) as [Hsw Hsh]. pose proof (vi_next _ Hv) as [Hnx1 Hnx2].
  set (id := wm_next_id (wm s)) in *.
  assert (Ex : iadd (isub (wm_screen_w (wm s)) ww) 1 = wm_screen_w (wm s) - ww + 1).
  { unfold iadd, isub. rewrite !to_int_id; unfold is_int; rewrite ?to_int_id; unfold is_int; lia. }
  assert (Ey : iadd (isub (wm_usable_h (wm s)) h) 1 = wm_usable_h (wm s) - h + 1).
  { unfold iadd, isub. rewrite !to_int_id; unfold is_int; rewrite ?to_int_id; unfold is_int; lia. }
  rewrite Ex, Ey. destruct (c_rem (imul id 37) _) as [x|] eqn:Hx.
  2: { unfold c_rem in Hx. destruct (Z.eqb_spec (wm_screen_w (wm s) - ww + 1) 0); [lia|done]. }
  destruct (c_rem (imul id 2) _) as [y|] eqn:Hy.
  2: { unfold c_rem in Hy. destruct (Z.eqb_spec (wm_usable_h (wm s) - h + 1) 0); [lia|done]. }
  apply rem_bound in Hx as (_ & Hx & Hx0), Hy as (_ & Hy & Hy0).
  cbv zeta. set (w := put_text _ _).
  assert (Hw : w_used w = true ∧ w_id w = id ∧ w_z w = wm_next_z (wm s) ∧ w_visible w = true ∧ w_focusable w = true ∧
    window_small w ∧ w_image_pixels w = 0 ∧ w_image_bytes w = 0 ∧ window_ring_ok w ∧ window_events w = [] ∧
    w_x w = x ∧ w_y w = y ∧ w_w w = ww ∧ w_h w = h).
  { split_and!; try done. split; cbn; lia. }
  clearbody w. destruct Hw as (Hu & Hid & Hz & Hvis & Hfo & Hg & Hip & Hib & Hr & Hev & Exw & Eyw & Eww & Ehw).
  wp_step. apply wp_on_vars. wp_step. apply wp_on_vars. wp_step. apply wp_on_vars. wp_steps. cbn [wm wm_pages wm_gpu].
  assert (Hv1 : vars_inv (set_next_z (iadd (wm_next_z (wm s)) 1) (set_next_id (iadd id 1) (set_window i w (wm s))))).
  { by apply (vars_inv_create _ i w0). }
  set (v1 := set_next_z _ _) in *. change (wm_next_z (set_next_id _ _)) with (wm_next_z (wm s)) in v1.
  destruct (marks_trans v1 _ _ _ _ (mark_window_marks w v1 Hu Hg)
    (mark_taskbar_marks _ (vars_inv_desktop _ _ (marks_desktop _ _ _ (mark_window_marks w v1 Hu Hg)) Hv1))) as [S2 M2].
  set (v2 := wm_mark_dirty_taskbar _) in *. clearbody v2. pose proof S2 as [W2 [N2 N2'] F2 (X2 & Y2 & G2) (C2 & C2')].
  pose proof (vars_inv_desktop _ _ S2 Hv1) as Hv2. cbn in W2, N2, N2', F2, X2, Y2, G2, C2, C2'.
  assert (Hi2 : wm_windows v2 !! i = Some w) by (rewrite W2; apply list_lookup_insert_eq; by eapply lookup_lt_Some).
  split.
  - apply (inv_vars s v2); try done; [rewrite W2; eapply images_ok_clear; [apply Hs|done|by rewrite Hib|auto]|].
    intros px py Hpx Hpy Hnd. rewrite X2 in Hpx. rewrite Y2 in Hpy.
    destruct (marks_clean v1 v2 _ px py (conj S2 M2) Hpx Hpy Hnd) as [Hnd1 Hnw1]. split; [done|].
    apply scene_same; [apply Hv|apply Hv2| |done|done|by intros; rewrite F2].
    apply (agree_update _ _ i w0 w); [done|done|by apply hit_unused|]. apply not_in_window_hit; [done|tauto].
  - split; [done|]. split; [by apply (wm_find_Some _ _ i w)|]. split.
    { intros j Hj. cbn [wm]. by rewrite W2, list_lookup_insert_ne by done. }
    exists w. split_and!; try done.
    + intros j u Hj Hju Huu. cbn [wm] in Hju. rewrite W2, list_lookup_insert_ne in Hju by done. rewrite Hz. by apply (vi_z_next _ Hv j).
    + intros Hlim Hfw Hfh. unfold imul in Hx0, Hy0. rewrite to_int_id in Hx0, Hy0 by (unfold is_int; lia).
      rewrite Exw, Eyw. lia.
Qed.
End life.
