(* ===== verification/WmImage.v ===== *)
(** * The images of windows: room for one, and its pixels *)

From S2P Require Import Prelude Layout KString PageAlloc PageAllocSpec PageIface SelSort GpuIface Ring VirtioInput Wm WmEvents WmDraw WmOrder WmScene WmInv WmOps WmLife.

Section images.
Context {L : Layout} {LOK : LayoutOk} {P G : Type} {PO : PageOps P} {POK : PageOpsOk P} {GO : GpuOps P G} {GOK : GpuOpsOk P G}.
Implicit Types s : wm_state P G.

Abbreviation fb_of s := (virtio_gpu_backbuffer (wm_gpu s)).
Abbreviation w_of s := (virtio_gpu_width (wm_gpu s)).
Abbreviation h_of s := (virtio_gpu_height (wm_gpu s)).
Abbreviation mem_of s := (pg_mem (wm_pages s)).

Lemma fb_range refs fb W H : framebuffer_ok refs fb W H → 0 ≤ fb ∧ fb + 4 * (W * H) ≤ 4294967296.
Proof. intros [_ _ Hp _]. pose proof free_ram_bounds. lia. Qed.

(** The page of an address in an aligned block. *)
Lemma block_page a n x :
  a mod 4096 = 0 → free_ram ≤ a → a + n * 4096 ≤ free_ram_end → in_block a n x →
  managed (x - x mod 4096) ∧ in_block a n (x - x mod 4096).
Proof.
  unfold in_block, managed. intros Ha Hlo Hhi Hx. assert (a ≤ x - x mod 4096) by (Z.div_mod_to_equations; lia).
  pose proof (Z.mod_pos_bound x 4096). split_and!; try lia. Z.div_mod_to_equations; lia.
Qed.

(** Two blocks of pages, one in use and one not, are apart. *)
Lemma blocks_apart (refs : Z → Z) a n b k x :
  a mod 4096 = 0 → free_ram ≤ a → a + n * 4096 ≤ free_ram_end → (∀ q, managed q → in_block a n q → refs q = 0) →
  (∀ q, managed q → in_block b k q → refs q ≠ 0) → b mod 4096 = 0 →
  in_block a n x → ¬ in_block b k x.
Proof.
  intros Ha Hlo Hhi Hf Hu Hb Hxa Hxb. destruct (block_page a n x) as [Hm Hpa]; try done.
  apply (Hu _ Hm); [|by apply Hf]. unfold in_block in *. split; [|pose proof (Z.mod_pos_bound x 4096); lia].
  Z.div_mod_to_equations; lia.
Qed.

(** The copy of the pixels stays in the block of the window. *)
Definition kept_but (w : wm_window) (m m' : mem) : Prop :=
  ∀ x, ¬ (owns w ∧ in_block (w_image_pixels w) (image_pages w) x) → rd m' x = rd m x.

(** A window whose image changed, marked where it is. *)
Lemma image_clean s s' i w w' :
  wm_inv s → wm_core s' → wm_gpu s' = wm_gpu s → wm_windows (wm s) !! i = Some w → w_used w = true → w_used w' = true →
  wm_windows (wm s') = <[i := w']> (wm_windows (wm s)) → (w_x w' = w_x w ∧ w_y w' = w_y w ∧ w_w w' = w_w w ∧ w_h w' = w_h w) →
  marks (set_windows (wm_windows (wm s')) (wm s)) (wm s') (λ px py, in_window w px py = true) →
  kept_but w' (mem_of s) (mem_of s') → wm_inv s'.
Proof.
  intros Hs Hc Hg Hi Hu Hu' Hw (Ex & Ey & Ew & Eh) Hmk Hk. pose proof Hmk as [[_ _ F (X & Y & R) (C & C')] _]. cbn in *. split; [done|].
  assert (Hi' : wm_windows (wm s') !! i = Some w') by (rewrite Hw; apply list_lookup_insert_eq; by eapply lookup_lt_Some).
  assert (Hin : ∀ px py, in_window w' px py = in_window w px py) by (intros; unfold in_window; congruence).
  pose proof (wi_images s' Hc) as Him'.
  apply (clean_step s); [done|done|done| |].
  - intros Hr px py Hp. destruct (wi_screen s Hs Hr) as (Hnz & _ & _).
    pose proof (gpu_buffer _ _ (wi_gpu s Hs) Hnz) as Hfb.
    destruct (pixel_index _ _ _ (fb_size _ _ _ _ Hfb) (fb_range _ _ _ _ Hfb) px py Hp) as (Hi0 & _).
    apply load32_ext. intros b Hb. apply Hk. intros [Ho Hbl]. rewrite <-Hg in Hnz. destruct (im_screen _ _ _ _ _ Him' Hnz i w' b Hi' Ho Hbl); rewrite Hg in *; lia.
  - intros px py Hx Hy Hnd. destruct (marks_clean _ _ _ px py Hmk Hx Hy Hnd) as [Hnd0 Hnw]. split; [done|].
    pose proof (wi_vars s Hs) as Hv. pose proof (wi_vars s' Hc) as Hv'.
    assert (Hh : hit w px py 0 = false) by (apply not_in_window_hit; [by apply (vi_geo _ Hv i)|done]).
    apply scene_same; [apply Hv|apply Hv'| |done|done|].
    + apply (agree_update _ _ i w w'); [done|done|done|]. apply not_in_window_hit; [by apply (vi_geo _ Hv' i)|by rewrite Hin].
    + intros j u Hj Hju. rewrite F. unfold window_pixel. destruct (shows_image u && in_image u px py) eqn:Hsi; [|done].
      apply andb_true_iff in Hsi as [Hsu Hiu]. f_equal. apply load32_ext. intros b Hb. apply Hk. intros [Ho Hbl].
      assert (Hne : j ≠ i) by (intros ->; congruence).
      assert (Hj' : wm_windows (wm s') !! j = Some u) by (by rewrite Hw, list_lookup_insert_ne).
      destruct (im_ok _ _ _ _ _ Him' j u Hj') as [Hbu Hpu _ Hsz]. destruct (Hsz Hsu) as (Z1 & Z2 & Z3).
      assert (Hlt : 0 ≤ px - w_x u < w_image_w u ∧ 0 ≤ py - w_y u < w_image_h u) by (revert Hiu; unfold in_image, in_rect; zcases; [lia|done..]).
      assert (Hidx : 0 ≤ (py - w_y u) * w_image_w u + (px - w_x u) < w_image_h u * w_image_w u) by nia.
      assert (Hou : owns u).
      { split; [|lia]. intros He. unfold shows_image in Hsu. by rewrite He, andb_false_r in Hsu. }
      apply Hne. apply (im_apart _ _ _ _ _ Him' j i u w' b); try done. pose proof (image_bytes_pages u ltac:(lia)). unfold in_block. lia.
Qed.

(** ** Room for an image *)

(** In state [s] there is no room for [bytes] bytes of image in window [i]: once
    the old image of the window has been freed, the allocator refuses the pages. *)
Definition room_failed s (i : nat) (bytes : Z) : Prop :=
  ∃ s1 p', wm_window_free_image i s = Done (tt, s1) ∧ pg_alloc ((bytes + 4095) / 4096) (wm_pages s1) = Done (0, p').

Lemma given_images refs refs' fb W H l i w m m' r bytes :
  images_ok refs fb W H l → l !! i = Some w → w_image_pixels w = 0 → 0 ≤ bytes < 2147483648 → r ≠ 0 →
  pg_given refs refs' m m' r ((bytes + 4095) / 4096) →
  (fb ≠ 0 → framebuffer_ok refs fb W H) →
  images_ok refs' fb W H (<[i := set_w_image 0 0 0 r bytes w]> l).
Proof.
  intros Him Hi Hp0 Hb Hr [Ga [Glo Ghi] Gf Go _ _] Hfb. set (n := (bytes + 4095) / 4096) in *. set (w' := set_w_image 0 0 0 r bytes w).
  assert (Hn : 0 ≤ n) by (unfold n; Z.div_mod_to_equations; lia).
  assert (Hfree : ∀ q, managed q → in_block r n q → refs q = 0) by (intros q Hq Hbq; by apply Gf).
  destruct Him as [I1 I2 I3].
  assert (Happ : ∀ j u x, l !! j = Some u → owns u → in_block (w_image_pixels u) (image_pages u) x → ¬ in_block r n x).
  { intros j u x Hj Ho Hxu Hxr. destruct (I1 j u Hj) as [_ _ Hblk _]. destruct (Hblk Ho) as (A1 & A2 & A3 & A4).
    by apply (blocks_apart refs r n (w_image_pixels u) (image_pages u) x). }
  split.
  - intros j u Hj. apply list_lookup_insert_Some in Hj as [(<- & <- & _)|[Hne Hj]].
    + pose proof free_ram_bounds. split; cbn; [done|lia| |done].
      intros _. split_and!; try done. intros q Hq Hbq. by rewrite (proj2 (Gf q Hq Hbq)).
    + destruct (I1 j u Hj) as [A1 A2 A3 A4]. split; try done. intros Ho. destruct (A3 Ho) as (B1 & B2 & B3 & B4). split_and!; try done.
      intros q Hq Hbq. rewrite Go; [by apply B4|done|]. by apply (Happ j u).
  - intros j k u1 u2 x H1 H2 O1 O2 B1 B2.
    apply list_lookup_insert_Some in H1 as [(<- & <- & _)|[N1 H1]], H2 as [(<- & <- & _)|[N2 H2]]; [done| | |by apply (I2 j k u1 u2 x)].
    + by destruct (Happ k u2 x H2 O2 B2).
    + by destruct (Happ j u1 x H1 O1 B1).
  - intros Hnz j u x Hj Ho Hx. apply list_lookup_insert_Some in Hj as [(<- & <- & _)|[_ Hj]]; [|by apply (I3 Hnz j u)].
    destruct (Hfb Hnz) as [F1 F2 F3 F4]. change (w_image_pixels w') with r in Hx. change (image_pages w') with n in Hx.
    unfold outside. destruct (decide (x < fb)); [by left|]. destruct (decide (fb + 4 * (W * H) ≤ x)); [by right|]. exfalso.
    destruct (block_page r n x) as [Hm Hbl]; try done. apply (F4 _ Hm); [|by apply Hfree].
    pose proof (Z.mod_pos_bound x 4096). split; [|lia]. Z.div_mod_to_equations; lia.
Qed.

Lemma given_refs refs refs' m m' r n q :
  pg_given refs refs' m m' r n → managed q → refs q ≠ 0 → refs' q ≠ 0.
Proof.
  intros Hg Hq Hr. destruct (decide (in_block r n q)) as [Hb|Hb].
  - by rewrite (proj2 (given_fresh _ _ _ _ _ _ Hg q Hq Hb)).
  - by rewrite (given_others _ _ _ _ _ _ Hg q Hq Hb).
Qed.

Lemma page_count bytes : 0 ≤ bytes < 2147483648 → add32 bytes (PAGE_SIZE - 1) / PAGE_SIZE = (bytes + 4095) / 4096.
Proof. intros Hb. unfold PAGE_SIZE. rewrite add32_small by lia. done. Qed.

Lemma set_window_same i w v : wm_windows v !! i = Some w → set_window i w v = v.
Proof. intros Hi. unfold set_window. rewrite list_insert_id by done. by destruct v. Qed.

Lemma image_room_spec s i w bytes :
  wm_core s → wm_windows (wm s) !! i = Some w → 0 ≤ bytes < 2147483648 →
  wp (image_room i w bytes) (λ _ s', ∃ u, wm s' = set_window i u (wm s) ∧ wm_gpu s' = wm_gpu s ∧
    u = set_w_image (w_has_image u) (w_image_w u) (w_image_h u) (w_image_pixels u) (w_image_bytes u) w ∧
    wm_core s' ∧ kept_but u (mem_of s) (mem_of s') ∧ bytes ≤ w_image_bytes u ∧ (w_image_pixels u = 0 → room_failed s i bytes)) s.
Proof.
  intros Hs Hi Hb. unfold image_room. destruct ((w_image_pixels w =? 0) || (w_image_bytes w <? bytes)) eqn:Hroom.
  2: { wp_steps. exists w. split; [by rewrite set_window_same|]. split; [done|]. split; [by destruct w|].
       apply orb_false_iff in Hroom as [H1%Z.eqb_neq H2%Z.ltb_ge]. by split_and!. }
  wp_step. eapply wp_mono; [by apply wp_run, (free_image_spec s i w)|]. intros [] s1 (F1 & E1 & G1 & M1 & Hc1).
  set (w1 := set_w_image 0 0 0 0 0 w) in *. rewrite page_count by done.
  assert (Hi1 : wm_windows (wm s1) !! i = Some w1) by (rewrite E1; apply list_lookup_insert_eq; by eapply lookup_lt_Some).
  assert (Hn : 0 ≤ (bytes + 4095) / 4096 < 1048576) by (Z.div_mod_to_equations; lia).
  destruct (wp_elim _ _ _ (pg_alloc_spec (wm_pages s1) _ (gpu_pages _ _ (wi_gpu _ Hc1)) Hn)) as (r & p & Hrun & Hp & Hr).
  wp_step. apply wp_on_wm_pages. eapply wp_done; [exact Hrun|]. apply wp_on_vars. cbn [wm wm_pages wm_gpu].
  rewrite (alter_lookup _ _ i w1) by done. set (u := set_w_image _ _ _ r bytes w1). exists u.
  split; [by rewrite E1; cbn; rewrite list_insert_insert_eq|]. split; [done|]. split; [done|].
  assert (Hv : vars_inv (set_window i u (wm s1))).
  { apply (vars_inv_update _ i w1); try done; [apply Hc1|by apply (vi_ring _ (wi_vars _ Hc1) i w1)|].
    intros Hu. by destruct (vi_geo _ (wi_vars _ Hc1) i w1 Hi1 Hu). }
  assert (Hcore : images_ok (pg_refs p) (fb_of s1) (w_of s1) (h_of s1) (<[i := u]> (wm_windows (wm s1))) →
    (∀ q, managed q → pg_refs (wm_pages s1) q ≠ 0 → pg_refs p q ≠ 0) → wm_core (WmState (set_window i u (wm s1)) p (wm_gpu s1))).
  { intros Him Hq. split; cbn; [done| |apply Hc1|done]. eapply gpu_ok_ext; [apply Hc1|done|]. auto. }
  change (w_image_pixels u) with r. destruct (decide (r = 0)) as [->|Hr0].
  - destruct Hr as [Hm Hq]. split_and!.
    + apply Hcore; [|intros q Hqm; by rewrite Hq]. eapply images_ok_clear; [apply Hc1|done|done|]. intros j v q _ _ _ Hqm _. by rewrite Hq.
    + intros x _. cbn. by rewrite Hm, M1.
    + done.
    + intros _. by exists s1, p.
  - split_and!; [| |done|done].
    + apply Hcore; [|intros q Hqm; by eapply given_refs].
      eapply given_images; [apply Hc1|exact Hi1|done|done|done|exact Hr|]. intros Hnz. by apply gpu_buffer, Hnz; apply Hc1.
    + intros x Hx. cbn. rewrite (given_frame _ _ _ _ _ _ Hr); [by rewrite M1|]. intros Hbl. apply Hx. split; [|done].
      split; [done|]. cbn. destruct (decide (bytes = 0)) as [He|]; [|lia]. exfalso. unfold in_block in Hbl. rewrite He in Hbl.
      change ((0 + 4095) / 4096) with 0 in Hbl. lia.
Qed.

(** ** Setting an image *)
Lemma write_bytes_get l : ∀ m a (k : nat) b, 0 ≤ a → a + length l ≤ 4294967296 → l !! k = Some b → 0 ≤ b < 256 → rd (write_bytes m a l) (a + k) = b.
Proof.
  induction l as [|c l IH]; intros m a k b Ha Hl Hk Hb; [done|]. simpl in *.
  destruct (decide (a + 1 = 4294967296)) as [He|Hne].
  { destruct l; simpl in *; [|lia]. destruct k; simpl in Hk; [|done]. injection Hk as ->. rewrite rd_wr. zcases; by apply Z.mod_small. }
  rewrite add32_small by lia. destruct k as [|k]; simpl in Hk.
  - injection Hk as ->. rewrite write_bytes_rd by lia. rewrite rd_wr. zcases; by apply Z.mod_small.
  - replace (a + S k) with (a + 1 + k) by lia. apply IH; [lia|lia|done|done].
Qed.

(** The size of an image that fits its pages. *)
Lemma images_ok_show refs fb W H l i u iw ih :
  images_ok refs fb W H l → l !! i = Some u → 0 ≤ iw → 0 ≤ ih → 4 * (ih * iw) ≤ w_image_bytes u →
  images_ok refs fb W H (<[i := set_w_image 1 iw ih (w_image_pixels u) (w_image_bytes u) u]> l).
Proof.
  intros [I1 I2 I3] Hi Hw Hh Hsz. set (w' := set_w_image 1 iw ih _ _ u).
  assert (Hback : ∀ j x, <[i := w']> l !! j = Some x → ∃ y, l !! j = Some y ∧
    w_image_pixels x = w_image_pixels y ∧ w_image_bytes x = w_image_bytes y).
  { intros j x Hj. apply list_lookup_insert_Some in Hj as [(<- & <- & _)|[_ Hj]]; eauto. }
  split.
  - intros j x Hj. apply list_lookup_insert_Some in Hj as [(<- & <- & _)|[_ Hj]]; [|by apply (I1 j)].
    destruct (I1 i u Hi) as [A1 A2 A3 _]. by split.
  - intros j k u1 u2 x H1 H2. destruct (Hback j u1 H1) as (a & Ha & E & E'), (Hback k u2 H2) as (b & Hb & B & B').
    unfold owns, image_pages. rewrite E, E', B, B'. by apply (I2 j k a b).
  - intros Hn j x a Hj. destruct (Hback j x Hj) as (y & Hy & E & E'). unfold owns, image_pages. rewrite E, E'. by apply (I3 Hn j y).
Qed.

Lemma core_set_mem s m : wm_core s → wm_core (WmState (wm s) (pg_set_mem m (wm_pages s)) (wm_gpu s)).
Proof.
  intros [I1 I2 I3 I4]. split; cbn; [done| |done|].
  - eapply gpu_ok_ext; [exact I2|apply pg_set_mem_ok; by eapply gpu_pages|]. intros _ q _ Hq _. by rewrite pg_refs_set_mem.
  - eapply images_ok_refs; [exact I4|]. intros j x q _ _ _ _ Hq. by rewrite pg_refs_set_mem.
Qed.

(** The window shows the pixels that were given, row after row. *)
Definition image_set s (id iw ih : Z) (px : list Z) (r : Z) (s' : wm_state P G) : Prop :=
  wm_inv s' ∧
  match wm_find (wm s) id with
  | None => r = -1 ∧ s' = s
  | Some i => r = 0 ∧ (∀ j, j ≠ i → wm_windows (wm s') !! j = wm_windows (wm s) !! j) ∧
      ∃ w, wm_windows (wm s') !! i = Some w ∧ w_has_image w = 1 ∧ w_image_w w = iw ∧ w_image_h w = ih ∧
        (px ≠ [] → shows_image w = true) ∧
        ∀ k b, px !! k = Some b → rd (mem_of s') (w_image_pixels w + Z.of_nat k) = b
  end.

Lemma wm_set_image_spec s id px iw ih :
  wm_inv s → 0 ≤ iw → 0 ≤ ih → 4 * (iw * ih) < 2147483648 → Z.of_nat (length px) = 4 * (iw * ih) → Forall (λ b, 0 ≤ b < 256) px →
  wpf (wm_set_image id (Some px) iw ih) (image_set s id iw ih px)
    (∃ i, wm_find (wm s) id = Some i ∧ room_failed s i (4 * (iw * ih))) s.
Proof.
  intros Hs Hiw Hih Hmax Hlen Hbytes. unfold wm_set_image, with_window. apply wpf_bind, wp_vars.
  pose proof (wm_find_spec (wm s) id) as Hf. unfold image_set. destruct (wm_find (wm s) id) as [i|] eqn:Hfind; [|by apply wp_wpf].
  destruct Hf as (w & Hi & Hu & Hid). rewrite Hi. pose proof (wi_vars s Hs) as Hv.
  assert (Hb : wrap32 (imul (imul iw ih) 4) = 4 * (iw * ih)).
  { assert (0 ≤ iw * ih) by nia. unfold imul. rewrite (to_int_id (iw * ih)) by (unfold is_int; lia).
    rewrite to_int_id by (unfold is_int; lia). rewrite wrap32_small by (unfold is_u32; lia). lia. }
  rewrite Hb. set (bytes := 4 * (iw * ih)) in *. assert (Hbr : 0 ≤ bytes < 2147483648) by (unfold bytes; nia).
  rewrite take_ge by lia.
  apply wpf_bind. eapply wp_mono; [apply image_room_spec; [apply Hs|done|done]|]. cbv beta.
  intros [] s1 (u & E1 & G1 & Eu & Hc1 & Hk1 & Hsz & Hfail). apply wpf_bind, wp_vars.
  assert (Hi1 : wm_windows (wm s1) !! i = Some u) by (rewrite E1; apply list_lookup_insert_eq; by eapply lookup_lt_Some).
  rewrite Hi1. destruct ((w_image_pixels u =? 0) && negb (bytes =? 0)) eqn:Hnull.
  { apply andb_true_iff in Hnull as [H0%Z.eqb_eq _]. exists i. split; [done|by apply Hfail]. }
  assert (Hnz : bytes ≠ 0 → w_image_pixels u ≠ 0).
  { intros Hnb H0. rewrite H0, Z.eqb_refl, (proj2 (Z.eqb_neq _ _) Hnb) in Hnull. done. }
  clear Hnull Hfail. destruct (im_ok _ _ _ _ _ (wi_images _ Hc1) i u Hi1) as [Hub Hup Hublk _]. pose proof free_ram_bounds as Hfr.
  assert (Hroom : bytes ≠ 0 → owns u ∧ w_image_pixels u + bytes ≤ free_ram_end ∧
    ∀ x, w_image_pixels u ≤ x < w_image_pixels u + bytes → in_block (w_image_pixels u) (image_pages u) x).
  { intros Hnb. assert (Ho : owns u) by (split; [auto|lia]). destruct (Hublk Ho) as (_ & _ & Hend & _).
    pose proof (image_bytes_pages u (proj1 Hub)). split_and!; [done|lia|]. unfold in_block. lia. }
  apply wp_wpf. wp_step. apply wp_on_wm_pages, wp_modify. cbv zeta. wp_step. apply wp_on_vars. wp_step. apply wp_on_vars. wp_steps.
  cbn [wm wm_pages wm_gpu]. set (w' := set_w_image 1 iw ih _ _ u).
  assert (Hg : window_small u) by (apply (vi_geo _ (wi_vars _ Hc1) i); [done|by rewrite Eu]).
  assert (Hu' : w_used w' = true) by (change (w_used u = true); by rewrite Eu).
  assert (Hv' : vars_inv (set_window i w' (wm s1))).
  { apply (vars_inv_update _ i u); try done; [apply Hc1|by apply (vi_ring _ (wi_vars _ Hc1) i u)|]. intros _. by destruct Hg. }
  destruct (mark_window_marks w' (set_window i w' (wm s1)) Hu') as [S3 M3]; [by destruct Hg|].
  set (v3 := wm_mark_dirty_window _ _) in *. clearbody v3. pose proof S3 as [W3 [N3 N3'] F3 (X3 & Y3 & R3) (C3 & C3')].
  cbn in W3, N3, N3', F3, X3, Y3, R3, C3, C3'.
  assert (Hw3 : wm_windows v3 = <[i := w']> (wm_windows (wm s))) by (by rewrite W3, E1; cbn; rewrite list_insert_insert_eq).
  set (m' := write_bytes _ _ px). set (p' := pg_set_mem m' (wm_pages s1)).
  assert (Hm' : pg_mem p' = m') by apply pg_mem_set.
  assert (Hout : ∀ x, ¬ (owns w' ∧ in_block (w_image_pixels w') (image_pages w') x) → rd m' x = rd (mem_of s1) x).
  { intros x Hx. unfold m'. destruct (decide (bytes = 0)) as [He|Hnb]; [by destruct px; simpl in Hlen; [|lia]|].
    destruct (Hroom Hnb) as (Ho & Hend & Hblk). apply write_bytes_rd; [lia|lia|]. rewrite Hlen. intros Hin. apply Hx. split; [done|by apply Hblk]. }
  split; [|split; [done|split]].
  - apply (image_clean s _ i w w'); cbn [wm wm_pages wm_gpu]; try done.
    + apply (core_set_mem (with_vars s1 v3)), (core_vars s1 v3 Hc1); [by apply (vars_inv_desktop (set_window i w' (wm s1)))|done|].
      rewrite W3. eapply images_ok_show; [apply Hc1|done|lia..].
    + change (w_x u = w_x w ∧ w_y u = w_y w ∧ w_w u = w_w w ∧ w_h u = w_h w). by rewrite Eu.
    + split.
      * split; cbn; try done; rewrite ?N3, ?N3', ?F3, ?X3, ?Y3, ?R3, ?C3, ?C3', E1; by split_and?.
      * intros px0 py0 Hx Hy Hd. cbn in Hx, Hy. apply M3; [by rewrite E1|by rewrite E1|]. rewrite E1.
        destruct Hd as [?|Hd]; [by left|right]. unfold in_window in *. change (in_rect (w_x u) (w_y u) (w_w u) (w_h u) px0 py0 = true). by rewrite Eu.
    + intros x Hx. rewrite Hm', Hout by done. apply Hk1. exact Hx.
  - intros j Hj. cbn [wm]. by rewrite Hw3, list_lookup_insert_ne by done.
  - exists w'. split; [cbn [wm]; rewrite Hw3; apply list_lookup_insert_eq; by eapply lookup_lt_Some|]. split_and!; try done.
    + intros Hne. unfold shows_image. cbn. destruct (Z.eqb_spec (w_image_pixels u) 0) as [H0|]; [|done]. exfalso. apply Hnz; [|done].
      destruct px; simpl in Hlen; [done|lia].
    + intros k b Hkb. cbn [wm_pages]. fold p'. rewrite Hm'. apply lookup_lt_Some in Hkb as Hlt. destruct (Hroom ltac:(lia)) as (_ & Hend & _).
      apply write_bytes_get; [cbn; lia|cbn; lia|done|]. rewrite list.Forall_forall in Hbytes. apply Hbytes. by eapply list_elem_of_lookup_2.
Qed.
End images.
