(* ===== verification/WmRender.v ===== *)
(** * Rendering: the back buffer shows the scene *)

From S2P Require Import Prelude Layout KString PageAlloc PageAllocSpec PageIface SelSort GpuIface Ring VirtioInput Wm WmEvents WmDraw WmOrder WmScene WmInv WmOps WmLife WmImage.

Section render.
Context {L : Layout} {LOK : LayoutOk} {P G : Type} {PO : PageOps P} {POK : PageOpsOk P} {GO : GpuOps P G} {GOK : GpuOpsOk P G}.
Implicit Types s : wm_state P G.

Abbreviation fb_of s := (virtio_gpu_backbuffer (wm_gpu s)).
Abbreviation w_of s := (virtio_gpu_width (wm_gpu s)).
Abbreviation h_of s := (virtio_gpu_height (wm_gpu s)).
Abbreviation mem_of s := (pg_mem (wm_pages s)).

(** The cursor can be drawn: its right and lower edges are [int]s. *)
Definition cursor_ok (v : wm_vars) : Prop := is_int (wm_cursor_x v + 8) ∧ is_int (wm_cursor_y v + 8).

Lemma core_scene s v :
  wm_core s → fb_of s ≠ 0 → vars_inv v → cursor_ok v →
  images_ok (pg_refs (wm_pages s)) (fb_of s) (w_of s) (h_of s) (wm_windows v) →
  scene_ok (fb_of s) (w_of s) (h_of s) v.
Proof.
  intros Hs Hnz Hv Hc Him. split; [apply Hv| | |done].
  - intros i w Hi Hu. pose proof (vi_id v Hv i w Hi Hu). lia.
  - intros i w Hi Hsh. unfold shown in Hsh. apply andb_true_iff in Hsh as [Hu _].
    split; [by apply window_small_geo, (vi_geo v Hv i)|]. by apply (image_ok_geo (pg_refs (wm_pages s)) _ _ _ (wm_windows v) i).
Qed.

(** The scene does not depend on the back buffer. *)
Lemma scene_kept refs fb W H v m m' px py :
  framebuffer_ok refs fb W H → fb ≠ 0 → scene_ok fb W H v → kept_outside fb W H m m' → scene_pixel v m' px py = scene_pixel v m px py.
Proof.
  intros Hfb Hnz Hv Hk. unfold scene_pixel. destruct (in_rect _ _ 8 8 px py); [done|].
  pose proof (wm_top_at_spec v px py 0 (sc_z _ _ _ v Hv)) as Ht. destruct (wm_top_at px py 0 v) as [i|]; [|done].
  destruct Ht as (w & Hi & Hh & _). unfold window_at. cbn [mbind option_bind]. rewrite Hi.
  eapply window_pixel_kept; [apply Hfb|by eapply fb_range|done| |exact Hk]. apply (sc_draw _ _ _ v Hv i); [done|]. unfold shown. by destruct (hit_used _ _ _ _ Hh) as [-> ->].
Qed.

(** What rendering leaves: the screen shows the scene of the state before, the
    rest of memory is as it was, nothing is dirty; a picture that was dirty is
    presented. *)
Record rendered s s' : Prop := {
  rn_vars : wm s' = set_clip (wm_clip (wm s')) (set_dirty (wm_dirty (wm s')) (wm_repack_z (wm s)));
  rn_clean : d_valid (wm_dirty (wm s')) = false;
  rn_pixels : ∀ px py, on_screen (w_of s) (h_of s) px py →
    pixel (fb_of s) (w_of s) (mem_of s') px py = scene_pixel (wm s) (mem_of s) px py;
  rn_rest : kept_outside (fb_of s) (w_of s) (h_of s) (mem_of s) (mem_of s');
  rn_gpu : fb_of s' = fb_of s ∧ w_of s' = w_of s ∧ h_of s' = h_of s;
  rn_present : if d_valid (wm_dirty (wm s)) then virtio_gpu_present (wm_pages s', wm_gpu s) = Done (tt, (wm_pages s', wm_gpu s'))
               else wm_pages s' = wm_pages s ∧ wm_gpu s' = wm_gpu s;
}.

Lemma core_repack s : wm_core s → wm_core (with_vars s (wm_repack_z (wm s))).
Proof.
  intros Hs. apply core_vars; [done|apply vars_inv_repack, Hs|done|]. eapply images_ok_map; [apply Hs|].
  intros j w' Hj. pose proof (wm_repack_z_repacked (wm s)) as Hr.
  destruct (lookup_lt_is_Some_2 (wm_windows (wm s)) j) as [w Hw].
  { apply lookup_lt_Some in Hj. cbn in Hj. by rewrite length_assign_z in Hj. }
  destruct (repacked_window _ _ j w Hr Hw) as (z & Hz & _). rewrite Hj in Hz. injection Hz as ->. by exists w.
Qed.

Lemma wp_on_gpu {A} (c : km (P * G) A) (Q : A → wm_state P G → Prop) s :
  wp c (λ a r, Q a (WmState (wm s) r.1 r.2)) (wm_pages s, wm_gpu s) → wp (on_gpu c) Q s.
Proof. apply (wp_zoom (λ s, (wm_pages s, wm_gpu s)) (λ r s, WmState (wm s) r.1 r.2)). Qed.

Lemma dirty_clipped v px py :
  d_valid (wm_dirty v) = true →
  clipped (DirtyRect true (d_x0 (wm_dirty v)) (d_y0 (wm_dirty v)) (d_x1 (wm_dirty v)) (d_y1 (wm_dirty v))) px py = true ↔ ¬ in_dirty v px py.
Proof. intros Hd. unfold clipped, in_dirty. rewrite Hd. cbn [andb d_valid d_x0 d_y0 d_x1 d_y1]. zcases; split; try done; lia. Qed.

Lemma wm_render_spec s :
  wm_inv s → wm_gpu_ready (wm s) = true → cursor_ok (wm s) →
  wp wm_render (λ _ s', wm_inv s' ∧ rendered s s') s.
Proof.
  intros Hs Hr Hcur. destruct (wi_screen s Hs Hr) as (Hnz & Ew & Eh). pose proof (gpu_buffer _ _ (wi_gpu s Hs) Hnz) as Hfb.
  unfold wm_render. wp_step. apply wp_on_vars. wp_step. apply wp_vars. cbn [wm wm_pages wm_gpu].
  set (v1 := wm_repack_z (wm s)). assert (Hc1 := core_repack s Hs). fold v1 in Hc1.
  pose proof (wi_vars _ Hc1) as Hv1. cbn in Hv1.
  change (wm_gpu_ready v1) with (wm_gpu_ready (wm s)). rewrite Hr. unfold wm_render_gpu. wp_step. wp_step. cbn [wm wm_pages wm_gpu].
  rewrite (proj2 (Z.eqb_neq _ _) Hnz). change (wm_dirty v1) with (wm_dirty (wm s)).
  assert (Hsc1 : ∀ px py, scene_pixel v1 (mem_of s) px py = scene_pixel (wm s) (mem_of s) px py) by (intros; apply scene_repack, Hs).
  destruct (d_valid (wm_dirty (wm s))) eqn:Hd; cbn [orb negb].
  2: { assert (Hpx : ∀ px py, on_screen (w_of s) (h_of s) px py → pixel (fb_of s) (w_of s) (mem_of s) px py = scene_pixel (wm s) (mem_of s) px py).
       { intros px py Hp. apply Hs; [done|done|]. intros [Hd' _]. congruence. }
       wp_steps. split; split; try done.
       - intros _ px py Hp _. cbn in *. rewrite Hsc1. by apply Hpx.
       - cbn. by rewrite Hd. }
  set (D := wm_dirty (wm s)) in *.
  wp_step. apply wp_on_vars. wp_step. apply wp_vars. wp_step. apply wp_on_wm_pages, wp_modify. wp_step. apply wp_on_vars.
  cbn [wm wm_pages wm_gpu]. set (v2 := set_clip _ v1). set (m2 := draw_scene _ _ _ v2 _). set (p2 := pg_set_mem m2 (wm_pages s)).
  set (v3 := set_dirty _ _).
  assert (Hsok : scene_ok (fb_of s) (w_of s) (h_of s) v2).
  { apply core_scene; [apply Hs|done|by destruct Hv1|done|apply (wi_images _ Hc1)]. }
  assert (Hdraw : ∀ px py, on_screen (w_of s) (h_of s) px py → kept_outside (fb_of s) (w_of s) (h_of s) (mem_of s) m2 ∧
    pixel (fb_of s) (w_of s) m2 px py = scene_pixel (wm s) (mem_of s) px py).
  { intros px py Hp. destruct (draw_scene_spec _ _ _ (fb_size _ _ _ _ Hfb) (fb_range _ _ _ _ Hfb) Hnz v2 (mem_of s) px py Hsok Hp) as [Hk Ho].
    split; [exact Hk|]. fold m2 in Ho. rewrite Ho. change (scene_pixel v2 (mem_of s) px py) with (scene_pixel v1 (mem_of s) px py). rewrite Hsc1.
    destruct (clipped (wm_clip v2) px py) eqn:Hcl; [|done]. apply Hs; [done|done|]. by apply dirty_clipped. }
  assert (Hk : kept_outside (fb_of s) (w_of s) (h_of s) (mem_of s) m2).
  { destruct (fb_size _ _ _ _ Hfb). apply (Hdraw 0 0). split; lia. }
  assert (Hm2 : pg_mem p2 = m2) by apply pg_mem_set.
  assert (Hc3 : wm_core (WmState v3 p2 (wm_gpu s))).
  { apply (core_set_mem (with_vars s v3)), (core_vars s v3); [apply Hs|by destruct Hv1|done|apply (wi_images _ Hc1)]. }
  apply wp_on_gpu. destruct (wp_elim _ _ _ (gpu_present_spec p2 (wm_gpu s) (wi_gpu _ Hc3))) as ([] & [p3 g3] & Hrun & Hp3 & Hok3 & Hf3 & Hw3 & Hh3).
  cbn in Hp3, Hok3, Hf3, Hw3, Hh3. subst p3. eapply wp_done; [exact Hrun|]. cbn [fst snd wm wm_pages wm_gpu]. split.
  - split.
    + destruct Hc3 as [K1 K2 K3 K4]. cbn in K3, K4. split; cbn [wm wm_pages wm_gpu]; [done|done|by rewrite Hf3, Hw3, Hh3|by rewrite Hf3, Hw3, Hh3].
    + intros _ px py Hp _. cbn [wm wm_pages wm_gpu] in *. rewrite Hf3, Hw3, Hh3 in *. rewrite Hm2.
      destruct (Hdraw px py Hp) as [_ ->]. rewrite <-Hsc1. symmetry. exact (scene_kept _ _ _ _ v2 _ _ px py Hfb Hnz Hsok Hk).
  - split; cbn [wm wm_pages wm_gpu]; try done.
    + intros px py Hp. rewrite Hm2. by apply Hdraw.
    + by rewrite Hm2.
    + fold D. by rewrite Hd.
Qed.
End render.
