(* ===== verification/VirtioGpu.v ===== *)
(** * The display driver, [src/drivers/virtio/virtio_gpu.c]

    The state holds the variables of the file and the device, a parameter.
    Requests and responses are the bytes of the structures on the stack of the
    command that sends them.  The device answers requests in its own time:
    before each look at [vg_used] it may have completed some.  An answer
    is written to the buffer of the request it answers, which the model
    identifies by the value of [vg_avail.idx] when it was sent; the buffer of a
    command that has given up is gone, and such an answer changes only the used
    ring.  Other processes run while a command sleeps; what they do is part of
    [vgd_sleep], and they leave the variables of the driver alone.  Messages
    are left out. *)

From S2P Require Import Prelude Layout KString PageAlloc PageAllocSpec PageIface GpuIface Virtq.

Record vg_answer := VgAnswer { an_serial : Z; an_bytes : list Z; an_elem : virtq_used_elem }.

(** The device and its surroundings. *)
Class VgDevice (D : Type) := {
  vgd_mmio :: Mmio D;
  (** The doorbell: the device sees the queue and the bytes of the request. *)
  vgd_notify : list virtq_desc → virtq_avail → list Z → D → D;
  (** What it has completed since. *)
  vgd_poll : D → list vg_answer * D;
  (** [current_proc && current_proc != idle_proc], and [waitq_sleep(&vg_waitq)]. *)
  vgd_in_process : D → bool;
  vgd_sleep : D → list vg_answer * D;
}.
#[global] Hint Mode VgDevice ! : typeclass_instances.

(** Where the compiler and the linker put the buffers of a command and the queue. *)
Class VgPlaces := { req_at : Z; resp_at : Z; vg_desc_at : Z; vg_avail_at : Z; vg_used_at : Z }.

Record vg_state (D : Type) := VgState {
  vg_desc : list virtq_desc; vg_avail : virtq_avail; vg_used : virtq_used;
  vg_base : Z; vg_ready : bool; vg_last_used : Z; vg_last_error : Z;
  vg_width_px : Z; vg_height_px : Z; vg_pitch_px : Z; vg_resource_id : Z;
  vg_backbuffer : Z; vg_backbuffer_pages : Z;
  vg_dev : D }.
Arguments VgState {D} _ _ _ _ _ _ _ _ _ _ _ _ _ _.
Arguments vg_desc {D} _.
Arguments vg_avail {D} _.
Arguments vg_used {D} _.
Arguments vg_base {D} _.
Arguments vg_ready {D} _.
Arguments vg_last_used {D} _.
Arguments vg_last_error {D} _.
Arguments vg_width_px {D} _.
Arguments vg_height_px {D} _.
Arguments vg_pitch_px {D} _.
Arguments vg_resource_id {D} _.
Arguments vg_backbuffer {D} _.
Arguments vg_backbuffer_pages {D} _.
Arguments vg_dev {D} _.

Section setters.
Context {D : Type}.
Implicit Types g : vg_state D.
Definition set_vg_queue desc avail used last g := VgState desc avail used (vg_base g) (vg_ready g) last (vg_last_error g)
  (vg_width_px g) (vg_height_px g) (vg_pitch_px g) (vg_resource_id g) (vg_backbuffer g) (vg_backbuffer_pages g) (vg_dev g).
Definition set_vg_base x g := VgState (vg_desc g) (vg_avail g) (vg_used g) x (vg_ready g) (vg_last_used g) (vg_last_error g)
  (vg_width_px g) (vg_height_px g) (vg_pitch_px g) (vg_resource_id g) (vg_backbuffer g) (vg_backbuffer_pages g) (vg_dev g).
Definition set_vg_ready x g := VgState (vg_desc g) (vg_avail g) (vg_used g) (vg_base g) x (vg_last_used g) (vg_last_error g)
  (vg_width_px g) (vg_height_px g) (vg_pitch_px g) (vg_resource_id g) (vg_backbuffer g) (vg_backbuffer_pages g) (vg_dev g).
Definition set_vg_last_error x g := VgState (vg_desc g) (vg_avail g) (vg_used g) (vg_base g) (vg_ready g) (vg_last_used g) x
  (vg_width_px g) (vg_height_px g) (vg_pitch_px g) (vg_resource_id g) (vg_backbuffer g) (vg_backbuffer_pages g) (vg_dev g).
Definition set_vg_size w h pitch g := VgState (vg_desc g) (vg_avail g) (vg_used g) (vg_base g) (vg_ready g) (vg_last_used g) (vg_last_error g)
  w h pitch (vg_resource_id g) (vg_backbuffer g) (vg_backbuffer_pages g) (vg_dev g).
Definition set_vg_resource_id x g := VgState (vg_desc g) (vg_avail g) (vg_used g) (vg_base g) (vg_ready g) (vg_last_used g) (vg_last_error g)
  (vg_width_px g) (vg_height_px g) (vg_pitch_px g) x (vg_backbuffer g) (vg_backbuffer_pages g) (vg_dev g).
Definition set_vg_backbuffer bb pages g := VgState (vg_desc g) (vg_avail g) (vg_used g) (vg_base g) (vg_ready g) (vg_last_used g) (vg_last_error g)
  (vg_width_px g) (vg_height_px g) (vg_pitch_px g) (vg_resource_id g) bb pages (vg_dev g).
Definition set_vg_dev (x : D) g := VgState (vg_desc g) (vg_avail g) (vg_used g) (vg_base g) (vg_ready g) (vg_last_used g) (vg_last_error g)
  (vg_width_px g) (vg_height_px g) (vg_pitch_px g) (vg_resource_id g) (vg_backbuffer g) (vg_backbuffer_pages g) x.
End setters.

Definition VG_STATUS_ACKNOWLEDGE : Z := 1.
Definition VG_STATUS_DRIVER : Z := 2.
Definition VG_STATUS_DRIVER_OK : Z := 4.
Definition VG_STATUS_FEATURES_OK : Z := 8.
Definition VG_FB_MAX_W : Z := 1024.
Definition VG_FB_MAX_H : Z := 768.
Definition VIRTIO_GPU_CMD_GET_DISPLAY_INFO : Z := 256.
Definition VIRTIO_GPU_CMD_RESOURCE_CREATE_2D : Z := 257.
Definition VIRTIO_GPU_CMD_RESOURCE_UNREF : Z := 258.
Definition VIRTIO_GPU_CMD_SET_SCANOUT : Z := 259.
Definition VIRTIO_GPU_CMD_RESOURCE_FLUSH : Z := 260.
Definition VIRTIO_GPU_CMD_TRANSFER_TO_HOST_2D : Z := 261.
Definition VIRTIO_GPU_CMD_RESOURCE_ATTACH_BACKING : Z := 262.
Definition VIRTIO_GPU_RESP_OK_NODATA : Z := 4352.
Definition VIRTIO_GPU_RESP_OK_DISPLAY_INFO : Z := 4353.

(** ** The structures of the protocol, packed and little-endian *)

Definition le32 (v : Z) : list Z := [v mod 256; v / 256 mod 256; v / 65536 mod 256; v / 16777216 mod 256].
Definition le64 (v : Z) : list Z := le32 (v mod 4294967296) ++ le32 (v / 4294967296).
(** The 32-bit word at a byte offset. *)
Definition word_at (l : list Z) (off : nat) : Z :=
  let b i := default 0 (l !! (off + i)%nat) mod 256 in b 0%nat + 256 * b 1%nat + 65536 * b 2%nat + 16777216 * b 3%nat.

(** [struct virtio_gpu_ctrl_hdr], zero but for its type. *)
Definition ctrl_hdr (type : Z) : list Z := le32 type ++ le32 0 ++ le64 0 ++ le32 0 ++ le32 0.
Definition gpu_rect (x y w h : Z) : list Z := le32 x ++ le32 y ++ le32 w ++ le32 h.
Definition hdr_size : nat := 24.
Definition display_info_size : nat := 408.

Section driver.
Context {D : Type} {VD : VgDevice D} {VP : VgPlaces}.
Implicit Types g : vg_state D.

Definition vg_mmio_write (off val : Z) g : vg_state D := set_vg_dev (mmio_write (add32 (vg_base g) off) val (vg_dev g)) g.
Definition vg_mmio_read (off : Z) g : Z * vg_state D :=
  let '(v, d) := mmio_read (add32 (vg_base g) off) (vg_dev g) in (wrap32 v, set_vg_dev d g).

(** The bytes an answer puts in the response buffer. *)
Definition overwrite (bytes resp : list Z) : list Z := take (length resp) (bytes ++ drop (length bytes) resp).
(** The answers of the device arrive; [serial] and [resp] are those of the request waited for. *)
Definition receive_one (serial : Z) (st : list Z * vg_state D) (a : vg_answer) : list Z * vg_state D :=
  (if an_serial a =? serial then overwrite (an_bytes a) st.1 else st.1,
   set_vg_queue (vg_desc st.2) (vg_avail st.2) (used_push (an_elem a) (vg_used st.2)) (vg_last_used st.2) st.2).
Definition receive (serial : Z) (answers : list vg_answer) (st : list Z * vg_state D) : list Z * vg_state D :=
  foldl (receive_one serial) st answers.

(** [vg_last_used != vg_used.idx], after what the device did in the meantime. *)
Definition look (serial : Z) (st : list Z * vg_state D) : bool * (list Z * vg_state D) :=
  let '(answers, d) := vgd_poll (vg_dev st.2) in
  let st := receive serial answers (st.1, set_vg_dev d st.2) in
  (negb (vg_last_used st.2 =? vu_idx (vg_used st.2)), st).
(** [waitq_sleep(&vg_waitq)], then the loop's condition. *)
Definition sleep_look (serial : Z) (st : list Z * vg_state D) : bool * (list Z * vg_state D) :=
  let '(answers, d) := vgd_sleep (vg_dev st.2) in
  look serial (receive serial answers (st.1, set_vg_dev d st.2)).

(** [req] and [resp] are the contents of the two buffers; the response comes back. *)
Definition vg_submit (req resp : list Z) g : (Z * list Z) * vg_state D :=
  if negb (vg_ready g) || (length req =? 0)%nat || (length resp =? 0)%nat then ((-1, resp), g)
  else
    let desc := aset (vg_desc g) 0 (VirtqDesc req_at (length req) VIRTQ_DESC_F_NEXT 1) in
    let desc := aset desc 1 (VirtqDesc resp_at (length resp) VIRTQ_DESC_F_WRITE 0) in
    let serial := va_idx (vg_avail g) in
    let avail := avail_push 0 (vg_avail g) in
    let g := set_vg_queue desc avail (vg_used g) (vg_last_used g) g in
    let g := vg_mmio_write MMIO_QUEUE_NOTIFY 0 g in
    let g := set_vg_dev (vgd_notify desc avail req (vg_dev g)) g in
    let '(_, st) := until_pos 20000000 (look serial) (resp, g) in
    let '(answered, st) := look serial st in
    let st :=
      if negb answered && vgd_in_process (vg_dev st.2) then
        let '(answered, st) := look serial st in
        if answered then st else (until_pos 100 (sleep_look serial) st).2
      else st in
    let '(answered, (resp, g)) := look serial st in
    if negb answered then ((-1, resp), g)
    else
      let id := ue_id (used_at (vg_used g) (vg_last_used g)) in
      if negb (id =? 0) then ((-1, resp), g)
      else ((0, resp), set_vg_queue (vg_desc g) (vg_avail g) (vg_used g) (wrap16 (vg_last_used g + 1)) g).

Definition zeros (n : nat) : list Z := replicate n 0.

(** The response, with 0 or -1. *)
Definition vg_cmd_get_display_info g : (Z * list Z) * vg_state D :=
  let '((rc, out), g) := vg_submit (ctrl_hdr VIRTIO_GPU_CMD_GET_DISPLAY_INFO) (zeros display_info_size) g in
  if rc <? 0 then ((-1, out), g)
  else if negb (word_at out 0 =? VIRTIO_GPU_RESP_OK_DISPLAY_INFO) then ((-1, out), g)
  else ((0, out), g).

(** The commands whose answer is a header: [return (resp.type == VIRTIO_GPU_RESP_OK_NODATA) ? 0 : -1;] *)
Definition vg_simple_cmd (req : list Z) g : Z * vg_state D :=
  let '((rc, resp), g) := vg_submit req (zeros hdr_size) g in
  if rc <? 0 then (-1, g) else (if word_at resp 0 =? VIRTIO_GPU_RESP_OK_NODATA then 0 else -1, g).

Definition vg_cmd_resource_create_2d (resource_id width height : Z) : vg_state D → Z * vg_state D :=
  vg_simple_cmd (ctrl_hdr VIRTIO_GPU_CMD_RESOURCE_CREATE_2D ++ le32 resource_id ++ le32 1 ++ le32 width ++ le32 height).
Definition vg_cmd_resource_attach_backing (resource_id addr len : Z) : vg_state D → Z * vg_state D :=
  vg_simple_cmd (ctrl_hdr VIRTIO_GPU_CMD_RESOURCE_ATTACH_BACKING ++ le32 resource_id ++ le32 1 ++ le64 addr ++ le32 len ++ le32 0).
Definition vg_cmd_set_scanout (resource_id width height : Z) : vg_state D → Z * vg_state D :=
  vg_simple_cmd (ctrl_hdr VIRTIO_GPU_CMD_SET_SCANOUT ++ gpu_rect 0 0 width height ++ le32 0 ++ le32 resource_id).
Definition vg_cmd_transfer_to_host_2d (resource_id width height : Z) : vg_state D → Z * vg_state D :=
  vg_simple_cmd (ctrl_hdr VIRTIO_GPU_CMD_TRANSFER_TO_HOST_2D ++ gpu_rect 0 0 width height ++ le64 0 ++ le32 resource_id ++ le32 0).
Definition vg_cmd_resource_flush (resource_id width height : Z) : vg_state D → Z * vg_state D :=
  vg_simple_cmd (ctrl_hdr VIRTIO_GPU_CMD_RESOURCE_FLUSH ++ gpu_rect 0 0 width height ++ le32 resource_id ++ le32 0).
Definition vg_cmd_resource_unref (resource_id : Z) g : vg_state D :=
  (vg_submit (ctrl_hdr VIRTIO_GPU_CMD_RESOURCE_UNREF ++ le32 resource_id ++ le32 0) (zeros hdr_size) g).2.

Definition vg_present g : vg_state D :=
  if negb (vg_ready g) then g
  else
    let '(rc, g) := vg_cmd_transfer_to_host_2d (vg_resource_id g) (vg_width_px g) (vg_height_px g) g in
    if rc <? 0 then g else (vg_cmd_resource_flush (vg_resource_id g) (vg_width_px g) (vg_height_px g) g).2.

(** The search of the device over the 32 slots. *)
Fixpoint vg_find (slots : list Z) g : vg_state D :=
  match slots with
  | [] => g
  | i :: slots' =>
      let base := slot_base i in
      let '(magic, d) := mmio_read (base + MMIO_MAGIC_VALUE) (vg_dev g) in
      let g := set_vg_dev d g in
      if wrap32 magic =? VIRTIO_MAGIC then
        let '(dev, d) := mmio_read (base + MMIO_DEVICE_ID) (vg_dev g) in
        let g := set_vg_dev d g in
        if wrap32 dev =? 16 then set_vg_base base g else vg_find slots' g
      else vg_find slots' g
  end.

(** The first mode that is enabled and not empty; 0 and 0 without one. *)
Fixpoint first_mode (dinfo : list Z) (n i : nat) : Z * Z :=
  match n with
  | O => (0, 0)
  | S n' =>
      let off := (24 + 24 * i)%nat in
      let w := word_at dinfo (off + 8) in
      let h := word_at dinfo (off + 12) in
      if negb (word_at dinfo (off + 16) =? 0) && (0 <? w) && (0 <? h) then (w, h) else first_mode dinfo n' (S i)
  end.
Definition pick_size (dinfo : list Z) : Z * Z :=
  let '(w, h) := first_mode dinfo 16 0 in
  let '(w, h) := if (w =? 0) || (h =? 0) then (640, 480) else (w, h) in
  (if VG_FB_MAX_W <? w then VG_FB_MAX_W else w, if VG_FB_MAX_H <? h then VG_FB_MAX_H else h).

(** The negotiation with the device found, and the set-up of the queue: [Some] error. *)
Definition vg_negotiate g : option Z * vg_state D :=
  let g := vg_mmio_write MMIO_STATUS 0 g in
  let g := vg_mmio_write MMIO_STATUS VG_STATUS_ACKNOWLEDGE g in
  let g := vg_mmio_write MMIO_STATUS (Z.lor VG_STATUS_ACKNOWLEDGE VG_STATUS_DRIVER) g in
  let g := vg_mmio_write MMIO_DEVICE_FEATURES_SEL 0 g in
  let '(lo, g) := vg_mmio_read MMIO_DEVICE_FEATURES g in
  let g := vg_mmio_write MMIO_DEVICE_FEATURES_SEL 1 g in
  let '(hi, g) := vg_mmio_read MMIO_DEVICE_FEATURES g in
  let dev_features := Z.lor lo (Z.shiftl hi 32) in
  if negb (has_bits dev_features (Z.shiftl 1 32)) then (Some 7, g)
  else
    let drv_features := Z.shiftl 1 32 in
    let g := vg_mmio_write MMIO_DRIVER_FEATURES_SEL 0 g in
    let g := vg_mmio_write MMIO_DRIVER_FEATURES (wrap32 drv_features) g in
    let g := vg_mmio_write MMIO_DRIVER_FEATURES_SEL 1 g in
    let g := vg_mmio_write MMIO_DRIVER_FEATURES (wrap32 (Z.shiftr drv_features 32)) g in
    let g := vg_mmio_write MMIO_STATUS (Z.lor (Z.lor VG_STATUS_ACKNOWLEDGE VG_STATUS_DRIVER) VG_STATUS_FEATURES_OK) g in
    let '(status, g) := vg_mmio_read MMIO_STATUS g in
    if Z.land status VG_STATUS_FEATURES_OK =? 0 then (Some 8, g)
    else
      let g := vg_mmio_write MMIO_QUEUE_SEL 0 g in
      let '(qmax, g) := vg_mmio_read MMIO_QUEUE_NUM_MAX g in
      if qmax <? VIRTQ_NUM then (Some 2, g)
      else
        let g := vg_mmio_write MMIO_QUEUE_NUM VIRTQ_NUM g in
        let g := set_vg_queue (replicate 32 zero_desc) zero_avail zero_used 0 g in
        let g := vg_mmio_write MMIO_QUEUE_DESC_LOW vg_desc_at g in
        let g := vg_mmio_write MMIO_QUEUE_DESC_HIGH 0 g in
        let g := vg_mmio_write MMIO_QUEUE_DRIVER_LOW vg_avail_at g in
        let g := vg_mmio_write MMIO_QUEUE_DRIVER_HIGH 0 g in
        let g := vg_mmio_write MMIO_QUEUE_DEVICE_LOW vg_used_at g in
        let g := vg_mmio_write MMIO_QUEUE_DEVICE_HIGH 0 g in
        let g := vg_mmio_write MMIO_QUEUE_READY 1 g in
        let g := vg_mmio_write MMIO_STATUS
          (Z.lor (Z.lor (Z.lor VG_STATUS_ACKNOWLEDGE VG_STATUS_DRIVER) VG_STATUS_FEATURES_OK) VG_STATUS_DRIVER_OK) g in
        (None, set_vg_ready true g).

(** With the pages of the allocator. *)
Context {P : Type} {PO : PageOps P}.
Abbreviation GM := (km (P * vg_state D)).
Definition on_g (f : vg_state D → vg_state D) : GM unit := kmodify (λ s, (s.1, f s.2)).
Definition run_g {A} (f : vg_state D → A * vg_state D) : GM A :=
  λ s, let '(a, g) := f s.2 in Done (a, (s.1, g)).
Definition on_p {A} (c : km P A) : GM A := zoom fst (λ p s, (p, s.2)) c.
Definition get_g : GM (vg_state D) := let! s := kget in kret s.2.

Definition vg_release_backbuffer : GM unit :=
  let! g := get_g in
  if (vg_backbuffer g =? 0) || (vg_backbuffer_pages g =? 0) then kret tt
  else do! on_p (pg_free (vg_backbuffer g) (vg_backbuffer_pages g)) in on_g (set_vg_backbuffer 0 0).

(** [vg_ready = 0; vg_last_error = e; return -1;] *)
Definition vg_fail (e : Z) : GM Z := do! on_g (λ g, set_vg_last_error e (set_vg_ready false g)) in kret (-1).

(** From the size of the screen on. *)
Definition vg_setup (w h : Z) : GM Z :=
  do! on_g (λ g, set_vg_resource_id 1 (set_vg_size w h (mul32 w 4) g)) in
  let bytes := mul32 (mul32 w 4) h in
  let pages := add32 bytes (PAGE_SIZE - 1) / PAGE_SIZE in
  do! on_g (λ g, set_vg_backbuffer (vg_backbuffer g) pages g) in
  let! bb_pa := on_p (pg_alloc pages) in
  if (bb_pa =? 0) || (bb_pa <? 2147483648) then vg_fail 9
  else
    do! on_g (λ g, set_vg_backbuffer bb_pa pages g) in
    let! rc := run_g (vg_cmd_resource_create_2d 1 w h) in
    if rc <? 0 then do! vg_release_backbuffer in vg_fail 4
    else
      let! rc := run_g (vg_cmd_resource_attach_backing 1 bb_pa bytes) in
      if rc <? 0 then do! on_g (vg_cmd_resource_unref 1) in do! vg_release_backbuffer in vg_fail 5
      else
        let! rc := run_g (vg_cmd_set_scanout 1 w h) in
        if rc <? 0 then do! on_g (vg_cmd_resource_unref 1) in do! vg_release_backbuffer in vg_fail 6
        else
          do! on_p (kmodify (λ p, pg_set_mem (memset (pg_mem p) bb_pa 0 bytes) p)) in
          do! on_g vg_present in
          do! on_g (set_vg_last_error 0) in
          kret 0.

Definition vg_init : GM Z :=
  let! g := get_g in
  if vg_ready g then kret 0
  else
    do! on_g (λ g, set_vg_resource_id 0 (set_vg_last_error 0 g)) in
    do! vg_release_backbuffer in
    do! on_g (λ g, vg_find (seqZ 0 32) (set_vg_base 0 g)) in
    let! g := get_g in
    if vg_base g =? 0 then do! on_g (set_vg_last_error 1) in kret (-1)
    else
      let! e := run_g vg_negotiate in
      match e with
      | Some e => do! on_g (set_vg_last_error e) in kret (-1)
      | None =>
          let! r := run_g vg_cmd_get_display_info in
          if r.1 <? 0 then vg_fail 3
          else let '(w, h) := pick_size r.2 in vg_setup w h
      end.

#[export] Instance virtio_gpu_ops : GpuOps P (vg_state D) := {
  virtio_gpu_init := vg_init;
  virtio_gpu_is_ready g := vg_ready g;
  virtio_gpu_width g := to_int (vg_width_px g);
  virtio_gpu_height g := to_int (vg_height_px g);
  virtio_gpu_pitch g := to_int (vg_pitch_px g);
  virtio_gpu_backbuffer g := if vg_ready g then vg_backbuffer g else 0;
  virtio_gpu_present := on_g vg_present;
}.
End driver.
