(* ===== verification/VirtioGpuSpec.v ===== *)
(** * The display driver: commands, set-up, and the interface it implements *)

From S2P Require Import Prelude Layout KString PageAlloc PageAllocSpec PageIface GpuIface Virtq VirtioGpu.

(** ** What commands leave alone *)

Section frame.
Context {D : Type} {VD : VgDevice D} {VP : VgPlaces}.
Implicit Types g : vg_state D.

(** Only the queue and the device change. *)
Record vg_kept g g' : Prop := {
  vk_base : vg_base g' = vg_base g;
  vk_ready : vg_ready g' = vg_ready g;
  vk_error : vg_last_error g' = vg_last_error g;
  vk_size : vg_width_px g' = vg_width_px g ∧ vg_height_px g' = vg_height_px g ∧ vg_pitch_px g' = vg_pitch_px g;
  vk_resource : vg_resource_id g' = vg_resource_id g;
  vk_buffer : vg_backbuffer g' = vg_backbuffer g ∧ vg_backbuffer_pages g' = vg_backbuffer_pages g;
}.
#[export] Instance vg_kept_po : PreOrder vg_kept.
Proof. split; [by split|]. intros g1 g2 g3 [] []. destruct_and?. split; split_and?; congruence. Qed.

(** The indices and rings of the queue are in range. *)
Record vg_queue_ok g : Prop := {
  gq_desc : length (vg_desc g) = 32%nat;
  gq_avail : length (va_ring (vg_avail g)) = 32%nat ∧ 0 ≤ va_idx (vg_avail g) < 65536;
  gq_used : used_ok (vg_used g);
  gq_last : 0 ≤ vg_last_used g < 65536;
}.

Lemma receive_kept serial answers : ∀ st,
  let st' := receive serial answers st in
  vg_kept st.2 st'.2 ∧ length st'.1 = length st.1 ∧ vg_last_used st'.2 = vg_last_used st.2 ∧ vg_avail st'.2 = vg_avail st.2 ∧
  (vg_queue_ok st.2 → vg_queue_ok st'.2).
Proof.
  unfold receive. induction answers as [|a l IH]; intros st; [done|]. cbn [foldl].
  destruct (IH (receive_one serial st a)) as (K & Hl & Hu & Ha & Hq). split_and!.
  - etrans; [|exact K]. by split.
  - rewrite Hl. cbn. destruct (an_serial a =? serial); [|done]. unfold overwrite. rewrite length_take, length_app, length_drop. lia.
  - by rewrite Hu.
  - by rewrite Ha.
  - intros [Q1 Q2 Q3 Q4]. apply Hq. split; cbn; try done. by apply used_push_ok.
Qed.

Lemma look_kept serial st :
  let st' := (look serial st).2 in
  vg_kept st.2 st'.2 ∧ length st'.1 = length st.1 ∧ vg_last_used st'.2 = vg_last_used st.2 ∧ vg_avail st'.2 = vg_avail st.2 ∧
  (vg_queue_ok st.2 → vg_queue_ok st'.2).
Proof.
  unfold look. destruct (vgd_poll (vg_dev st.2)) as [answers d]. cbn [snd].
  destruct (receive_kept serial answers (st.1, set_vg_dev d st.2)) as (K & Hl & Hu & Ha & Hq). cbn [fst snd] in *. split_and!; try done.
  - etrans; [|exact K]. by split.
  - intros Q. apply Hq. by destruct Q.
Qed.

Lemma sleep_look_kept serial st :
  let st' := (sleep_look serial st).2 in
  vg_kept st.2 st'.2 ∧ length st'.1 = length st.1 ∧ vg_last_used st'.2 = vg_last_used st.2 ∧ vg_avail st'.2 = vg_avail st.2 ∧
  (vg_queue_ok st.2 → vg_queue_ok st'.2).
Proof.
  unfold sleep_look. destruct (vgd_sleep (vg_dev st.2)) as [answers d].
  destruct (receive_kept serial answers (st.1, set_vg_dev d st.2)) as (K & Hl & Hu & Ha & Hq). cbn [fst snd] in *.
  destruct (look_kept serial (receive serial answers (st.1, set_vg_dev d st.2))) as (K' & Hl' & Hu' & Ha' & Hq'). split_and!.
  - etrans; [|exact K']. etrans; [|exact K]. by split.
  - by rewrite Hl'.
  - by rewrite Hu'.
  - by rewrite Ha'.
  - intros Q. apply Hq', Hq. by destruct Q.
Qed.

(** The wait for an answer, from the request on. *)
Definition await (serial : Z) (st : list Z * vg_state D) : bool * (list Z * vg_state D) :=
  let '(_, st) := until_pos 20000000 (look serial) st in
  let '(answered, st) := look serial st in
  let st :=
    if negb answered && vgd_in_process (vg_dev st.2) then
      let '(answered, st) := look serial st in
      if answered then st else (until_pos 100 (sleep_look serial) st).2
    else st in
  look serial st.

Lemma await_inv (I : list Z * vg_state D → Prop) serial st :
  (∀ st, I st → I (look serial st).2) → (∀ st, I st → I (sleep_look serial st).2) → I st → I (await serial st).2.
Proof.
  intros Hl Hs H0. unfold await.
  destruct (until_inv I (λ _, True) (look serial) 20000000 st) as [H1 _]; [by auto|done|].
  destruct (until_pos 20000000 (look serial) st) as [? st1]. cbn [snd] in H1.
  pose proof (Hl st1 H1) as H2. destruct (look serial st1) as [answered st2]. cbn [snd] in H2. apply Hl.
  destruct (negb answered && vgd_in_process (vg_dev st2.2)); [|done].
  pose proof (Hl st2 H2) as H3. destruct (look serial st2) as [[] st3]; cbn [snd] in H3; [done|].
  destruct (until_inv I (λ _, True) (sleep_look serial) 100 st3) as [H4 _]; [by auto|done|done].
Qed.

Lemma vg_submit_await req resp g :
  vg_submit req resp g =
  if negb (vg_ready g) || (length req =? 0)%nat || (length resp =? 0)%nat then ((-1, resp), g)
  else
    let desc := aset (aset (vg_desc g) 0 (VirtqDesc req_at (length req) VIRTQ_DESC_F_NEXT 1)) 1
                  (VirtqDesc resp_at (length resp) VIRTQ_DESC_F_WRITE 0) in
    let avail := avail_push 0 (vg_avail g) in
    let g1 := vg_mmio_write MMIO_QUEUE_NOTIFY 0 (set_vg_queue desc avail (vg_used g) (vg_last_used g) g) in
    let '(answered, (resp, g)) := await (va_idx (vg_avail g)) (resp, set_vg_dev (vgd_notify desc avail req (vg_dev g1)) g1) in
    if negb answered then ((-1, resp), g)
    else if negb (ue_id (used_at (vg_used g) (vg_last_used g)) =? 0) then ((-1, resp), g)
    else ((0, resp), set_vg_queue (vg_desc g) (vg_avail g) (vg_used g) (wrap16 (vg_last_used g + 1)) g).
Proof.
  unfold vg_submit, await. destruct (negb (vg_ready g) || _ || _); [done|]. cbv zeta.
  destruct (until_pos 20000000 _ _) as [b st1]. destruct (look _ st1) as [answered st2]. done.
Qed.

(** A command returns 0 or -1, keeps the variables and the shape of the queue. *)
Lemma vg_submit_kept req resp g :
  vg_queue_ok g →
  let r := vg_submit req resp g in
  (r.1.1 = 0 ∨ r.1.1 = -1) ∧ length r.1.2 = length resp ∧ vg_kept g r.2 ∧ vg_queue_ok r.2.
Proof.
  intros Hq. rewrite vg_submit_await. destruct (negb (vg_ready g) || _ || _).
  { cbn. split_and!; auto. done. }
  cbv zeta. set (desc := aset _ 1 _). set (avail := avail_push _ _). set (g2 := set_vg_dev _ _).
  assert (K2 : vg_kept g g2) by (by split).
  assert (Q2 : vg_queue_ok g2).
  { destruct Hq as [Q1 [Q2 Q2'] Q3 Q4]. split; [|split|done|done].
    - change (length desc = 32%nat). unfold desc. by rewrite !length_aset.
    - change (length (va_ring avail) = 32%nat). unfold avail, avail_push. cbn [va_ring]. by rewrite length_aset.
    - change (0 ≤ wrap16 (va_idx (vg_avail g) + 1) < 65536). unfold wrap16. apply Z.mod_pos_bound. lia. }
  pose proof (await_inv (λ st, vg_kept g st.2 ∧ vg_queue_ok st.2 ∧ length st.1 = length resp) (va_idx (vg_avail g)) (resp, g2)) as H.
  destruct H as (K3 & Q3 & L3).
  - intros st (K & Q & L). destruct (look_kept (va_idx (vg_avail g)) st) as (K' & L' & _ & _ & Q'). split_and!; [by etrans|auto|congruence].
  - intros st (K & Q & L). destruct (sleep_look_kept (va_idx (vg_avail g)) st) as (K' & L' & _ & _ & Q'). split_and!; [by etrans|auto|congruence].
  - done.
  - destruct (await _ _) as [answered [resp' g3]]. cbn [fst snd] in *. destruct (negb answered); [cbn; auto|].
    destruct (negb _); [cbn; auto|]. cbn. split_and!; auto.
    + etrans; [exact K3|]. by split.
    + destruct Q3 as [Q5 Q6 Q7 Q8]. split; cbn; try done. unfold wrap16. apply Z.mod_pos_bound. lia.
Qed.

Lemma vg_simple_kept req g :
  vg_queue_ok g → let r := vg_simple_cmd req g in (r.1 = 0 ∨ r.1 = -1) ∧ vg_kept g r.2 ∧ vg_queue_ok r.2.
Proof.
  intros Hq. unfold vg_simple_cmd. destruct (vg_submit_kept req (zeros hdr_size) g Hq) as (_ & _ & K & Q).
  destruct (vg_submit _ _ _) as [[rc resp] g1]. cbn [fst snd] in *. destruct (rc <? 0); [cbn; auto|]. destruct (_ =? _); cbn; auto.
Qed.

Lemma vg_display_kept g :
  vg_queue_ok g → let r := vg_cmd_get_display_info g in (r.1.1 = 0 ∨ r.1.1 = -1) ∧ vg_kept g r.2 ∧ vg_queue_ok r.2.
Proof.
  intros Hq. unfold vg_cmd_get_display_info.
  destruct (vg_submit_kept (ctrl_hdr VIRTIO_GPU_CMD_GET_DISPLAY_INFO) (zeros display_info_size) g Hq) as (_ & _ & K & Q).
  destruct (vg_submit _ _ _) as [[rc resp] g1]. cbn [fst snd] in *. destruct (rc <? 0); [cbn; auto|]. destruct (negb _); cbn; auto.
Qed.

Lemma vg_display_eq g rc out g' :
  vg_queue_ok g → vg_cmd_get_display_info g = ((rc, out), g') → vg_kept g g' ∧ vg_queue_ok g'.
Proof. intros Hq He. destruct (vg_display_kept g Hq) as (_ & K & Q). rewrite He in K, Q. done. Qed.

Lemma vg_present_kept g : vg_queue_ok g → vg_kept g (vg_present g) ∧ vg_queue_ok (vg_present g).
Proof.
  intros Hq. unfold vg_present. destruct (negb (vg_ready g)); [done|]. unfold vg_cmd_transfer_to_host_2d, vg_cmd_resource_flush.
  set (req := ctrl_hdr _ ++ _). destruct (vg_simple_kept req g Hq) as (_ & K & Q). destruct (vg_simple_cmd req g) as [rc g1]. cbn [fst snd] in *.
  destruct (rc <? 0); [done|]. destruct (vg_simple_kept (ctrl_hdr VIRTIO_GPU_CMD_RESOURCE_FLUSH ++
    gpu_rect 0 0 (vg_width_px g1) (vg_height_px g1) ++ le32 (vg_resource_id g1) ++ le32 0) g1 Q) as (_ & K' & Q').
  split; [by etrans|done].
Qed.
End frame.

(** ** Setting the device up *)

Section init.
Context {L : Layout} {LOK : LayoutOk} {P D : Type} {PO : PageOps P} {POK : PageOpsOk P} {VD : VgDevice D} {VP : VgPlaces}.
Implicit Types (p : P) (g : vg_state D).

Definition fb_pages (w h : Z) : Z := (4 * (w * h) + 4095) / 4096.

(** Between calls: a back buffer exactly when the driver is ready. *)
Record vg_inv p g : Prop := {
  gi_pages : pg_ok p;
  gi_queue : vg_queue_ok g;
  gi_off : vg_ready g = false → vg_backbuffer g = 0;
  gi_on : vg_ready g = true → vg_backbuffer g ≠ 0 ∧
    framebuffer_ok (pg_refs p) (vg_backbuffer g) (vg_width_px g) (vg_height_px g);
}.

(** What [virtio_gpu_init] returns: a fresh black back buffer, or an error
    code and no page kept but those the allocator could not take back. *)
Definition vg_started p (rc : Z) p' (g' : vg_state D) : Prop :=
  vg_inv p' g' ∧
  (rc = 0 ∧ vg_ready g' = true ∧ vg_last_error g' = 0 ∧
     (∀ q, managed q → ¬ in_block (vg_backbuffer g') (fb_pages (vg_width_px g') (vg_height_px g')) q → pg_refs p' q = pg_refs p q) ∧
     (∀ x, vg_backbuffer g' ≤ x < vg_backbuffer g' + 4 * (vg_width_px g' * vg_height_px g') → rd (pg_mem p') x = 0)
   ∨ rc = -1 ∧ vg_ready g' = false ∧ 1 ≤ vg_last_error g' ≤ 9 ∧
     (∀ q, managed q → pg_refs p' q = pg_refs p q ∨ pg_refs p q = 0 ∧ pg_refs p' q = 1)).

Lemma on_g_wp (f : vg_state D → vg_state D) (Q : unit → P * vg_state D → Prop) p g : Q tt (p, f g) → wp (on_g f) Q (p, g).
Proof. done. Qed.

Lemma run_g_wp {A} (f : vg_state D → A * vg_state D) (Q : A → P * vg_state D → Prop) p g :
  Q (f g).1 (p, (f g).2) → wp (run_g f) Q (p, g).
Proof. unfold wp, run_g. cbn [fst snd]. by destruct (f g). Qed.

Lemma run_g_eq {A} (f : vg_state D → A * vg_state D) (Q : A → P * vg_state D → Prop) p g :
  (∀ a g', f g = (a, g') → Q a (p, g')) → wp (run_g f) Q (p, g).
Proof. unfold wp, run_g. cbn [fst snd]. destruct (f g). auto. Qed.

Lemma on_p_wp {A} (c : km P A) (Q : A → P * vg_state D → Prop) p g :
  wp c (λ a p', Q a (p', g)) p → wp (on_p c) Q (p, g).
Proof. apply (wp_zoom fst (λ (p : P) (s : P * vg_state D), (p, s.2)) c Q (p, g)). Qed.

Lemma get_g_wp (Q : vg_state D → P * vg_state D → Prop) p g : Q g (p, g) → wp get_g Q (p, g).
Proof. done. Qed.

(** The tail of the error paths: the pages go back. *)
Lemma release_fail p0 p g e n :
  vg_queue_ok g → pg_ok p → vg_backbuffer g ≠ 0 → vg_backbuffer_pages g = n → 0 < n → 1 ≤ e ≤ 9 →
  vg_backbuffer g mod 4096 = 0 → free_ram ≤ vg_backbuffer g → vg_backbuffer g + n * 4096 ≤ free_ram_end →
  (∀ q, managed q → in_block (vg_backbuffer g) n q → pg_refs p0 q = 0 ∧ pg_refs p q = 1) →
  (∀ q, managed q → ¬ in_block (vg_backbuffer g) n q → pg_refs p q = pg_refs p0 q) →
  wp (do! vg_release_backbuffer in vg_fail e) (λ rc s, vg_started p0 rc s.1 s.2) (p, g).
Proof.
  intros Hq Hp Hbb Hn Hpos He Hal Hlo Hhi Hin Hout. wp_step. unfold vg_release_backbuffer. wp_step. apply get_g_wp.
  rewrite Hn, (proj2 (Z.eqb_neq _ _) Hbb), (proj2 (Z.eqb_neq n 0)) by lia. cbn [orb]. wp_step. apply on_p_wp.
  eapply wp_mono; [apply pg_free_spec; try done|].
  { intros q Hqm Hqb. by rewrite (proj2 (Hin q Hqm Hqb)). }
  intros [] p1 (Hp1 & _ & [Hdrop Hoth]). apply on_g_wp. unfold vg_fail. wp_step. apply on_g_wp. wp_steps. cbn [fst snd]. split.
  - destruct Hq. split; cbn; done.
  - right. split_and!; try done; cbn; try lia. intros q Hqm. destruct (decide (in_block (vg_backbuffer g) n q)) as [Hb|Hb].
    + destruct (Hin q Hqm Hb) as [H0 H1]. destruct (Hdrop q Hqm Hb) as [Hd|[_ Hd]]; [left; lia|right; lia].
    + left. by rewrite Hoth, Hout.
Qed.

Lemma fb_pages_eq w h : 0 < w ≤ 1024 → 0 < h ≤ 768 →
  mul32 (mul32 w 4) h = 4 * (w * h) ∧ add32 (4 * (w * h)) (PAGE_SIZE - 1) / PAGE_SIZE = fb_pages w h ∧
  0 < fb_pages w h < 1048576 ∧ 4 * (w * h) ≤ fb_pages w h * 4096.
Proof.
  intros Hw Hh. assert (0 < w * h ≤ 786432) by nia. unfold fb_pages, PAGE_SIZE.
  rewrite (mul32_small w 4), mul32_small, add32_small by lia. split_and!; [lia|done|Z.div_mod_to_equations; lia..].
Qed.

Lemma vg_setup_spec p g w h :
  pg_ok p → vg_queue_ok g → vg_ready g = true → vg_backbuffer g = 0 → 0 < w ≤ 1024 → 0 < h ≤ 768 →
  wp (vg_setup w h) (λ rc s, vg_started p rc s.1 s.2) (p, g).
Proof.
  intros Hp Hq Hr Hbb Hw Hh. destruct (fb_pages_eq w h Hw Hh) as (Eb & Ep & Hn & Hroom). unfold vg_setup.
  wp_step. apply on_g_wp. cbv zeta. rewrite Eb, Ep. set (n := fb_pages w h) in *. wp_step. apply on_g_wp. wp_step. apply on_p_wp.
  eapply wp_mono; [apply pg_alloc_spec; [done|lia]|]. intros r p1 [Hp1 Hr1].
  destruct (Z.eqb_spec r 0) as [->|Hr0]; cbn [orb].
  { rewrite decide_True in Hr1 by done. unfold vg_fail. wp_step. apply on_g_wp. wp_steps. destruct Hr1 as [_ Hrefs]. split.
    - destruct Hq. split; cbn; done.
    - right. split_and!; try done. intros q Hqm. left. by apply Hrefs. }
  rewrite decide_False in Hr1 by done. destruct Hr1 as [Ga [Glo Ghi] Gf Go Gz Gm]. pose proof free_ram_bounds as Hfr.
  rewrite (proj2 (Z.ltb_ge r 2147483648)) by lia. wp_step. apply on_g_wp. set (g1 := set_vg_backbuffer r n _).
  assert (Hq1 : vg_queue_ok g1) by (by destruct Hq).
  assert (Hsafe : ∀ g2 e, vg_kept g1 g2 → vg_queue_ok g2 → 1 ≤ e ≤ 9 →
    wp (do! vg_release_backbuffer in vg_fail e) (λ rc s, vg_started p rc s.1 s.2) (p1, g2)).
  { intros g2 e [_ _ _ _ _ [B1 B2]] Hq2 He. cbn in B1, B2. apply (release_fail p p1 g2 e n); rewrite ?B1; try done; try lia. }
  wp_step. apply run_g_wp. destruct (vg_simple_kept (ctrl_hdr VIRTIO_GPU_CMD_RESOURCE_CREATE_2D ++ le32 1 ++ le32 1 ++ le32 w ++ le32 h) g1 Hq1)
    as (_ & K2 & Q2). unfold vg_cmd_resource_create_2d. destruct (vg_simple_cmd _ g1) as [rc2 g2]. cbn [fst snd] in *.
  destruct (rc2 <? 0); [by apply Hsafe|].
  wp_step. apply run_g_wp. destruct (vg_simple_kept (ctrl_hdr VIRTIO_GPU_CMD_RESOURCE_ATTACH_BACKING ++ le32 1 ++ le32 1 ++ le64 r ++ le32 (4 * (w * h)) ++ le32 0) g2 Q2)
    as (_ & K3 & Q3). unfold vg_cmd_resource_attach_backing. destruct (vg_simple_cmd _ g2) as [rc3 g3]. cbn [fst snd] in *.
  assert (K13 : vg_kept g1 g3) by (by etrans).
  assert (Hunref : ∀ g4 e, vg_kept g1 g4 → vg_queue_ok g4 → 1 ≤ e ≤ 9 →
    wp (do! on_g (vg_cmd_resource_unref 1) in do! vg_release_backbuffer in vg_fail e) (λ rc s, vg_started p rc s.1 s.2) (p1, g4)).
  { intros g4 e K4 Q4 He. wp_step. apply on_g_wp. destruct (vg_submit_kept (ctrl_hdr VIRTIO_GPU_CMD_RESOURCE_UNREF ++ le32 1 ++ le32 0)
      (zeros hdr_size) g4 Q4) as (_ & _ & K5 & Q5). apply Hsafe; [by etrans|done|done]. }
  destruct (rc3 <? 0); [by apply Hunref|].
  wp_step. apply run_g_wp. destruct (vg_simple_kept (ctrl_hdr VIRTIO_GPU_CMD_SET_SCANOUT ++ gpu_rect 0 0 w h ++ le32 0 ++ le32 1) g3 Q3)
    as (_ & K4 & Q4). unfold vg_cmd_set_scanout. destruct (vg_simple_cmd _ g3) as [rc4 g4]. cbn [fst snd] in *.
  assert (K14 : vg_kept g1 g4) by (by etrans). destruct (rc4 <? 0); [by apply Hunref|].
  wp_step. apply on_p_wp, wp_modify. wp_step. apply on_g_wp. wp_step. apply on_g_wp. wp_steps. cbn [fst snd].
  destruct (vg_present_kept g4 Q4) as [K5 Q5]. assert (K : vg_kept g1 (vg_present g4)) by (by etrans).
  destruct K as [_ Kr _ (Kw & Kh & _) _ [Kb Kn]]. cbn in Kr, Kw, Kh, Kb, Kn. set (g5 := vg_present g4) in *. split.
  - split; cbn; [by apply pg_set_mem_ok|by destruct Q5|congruence|]. intros _. rewrite Kb, Kw, Kh. split; [done|]. split; [done|done|lia|].
    intros q Hqm Hqb. rewrite pg_refs_set_mem. rewrite (proj2 (Gf q Hqm ltac:(unfold in_block; lia))). done.
  - left. cbn. rewrite Kb, Kw, Kh, Kr. split_and!; try done.
    + intros q Hqm Hqb. rewrite pg_refs_set_mem. by apply Go.
    + intros x Hx. rewrite pg_mem_set, memset_rd by lia. zcases; done.
Qed.

Lemma vg_find_kept slots : ∀ g, vg_queue_ok g →
  let g' := vg_find slots g in vg_kept (set_vg_base (vg_base g') g) g' ∧ vg_queue_ok g'.
Proof.
  induction slots as [|i slots IH]; intros g Hq; cbn [vg_find]; [by split|].
  destruct (mmio_read _ (vg_dev g)) as [magic d1].
  assert (Hrec : ∀ d, let g' := vg_find slots (set_vg_dev d g) in vg_kept (set_vg_base (vg_base g') g) g' ∧ vg_queue_ok g').
  { intros d. destruct (IH (set_vg_dev d g)) as [[] Q]; [by destruct Hq|]. split; [by split|done]. }
  destruct (_ =? VIRTIO_MAGIC); [|apply Hrec].
  cbn [vg_dev set_vg_dev]. destruct (mmio_read _ d1) as [dev d2]. destruct (_ =? 16); [|apply Hrec].
  split; [by split|by destruct Hq].
Qed.

(** Reads and writes of registers change the device only. *)
Definition dev_only g g' : Prop := ∃ d, g' = set_vg_dev d g.

Lemma mmio_write_dev off v g : dev_only g (vg_mmio_write off v g).
Proof. by eexists. Qed.

Lemma mmio_read_dev off g : dev_only g (vg_mmio_read off g).2.
Proof. unfold vg_mmio_read. destruct (mmio_read _ _) as [v d]. by exists d. Qed.

#[local] Instance dev_only_po : PreOrder dev_only.
Proof.
  split; [intros g; exists (vg_dev g); by destruct g|]. intros g1 g2 g3 [d1 ->] [d2 ->]. by exists d2.
Qed.

Lemma dev_only_kept g g' : dev_only g g' → vg_queue_ok g → vg_kept g g' ∧ vg_queue_ok g'.
Proof. intros [d ->] Hq. split; [by split|by destruct Hq]. Qed.

(** The last register write of a chain comes off. *)
Ltac dev_chain := repeat first [reflexivity | (etrans; [|apply mmio_write_dev])].

Lemma vg_negotiate_spec g :
  vg_queue_ok g →
  let r := vg_negotiate g in
  vg_queue_ok r.2 ∧
  match r.1 with
  | Some e => vg_kept g r.2 ∧ e ∈ [7; 8; 2]
  | None => vg_kept (set_vg_ready true g) r.2
  end.
Proof.
  intros Hq. unfold vg_negotiate. cbv zeta.
  set (g1 := vg_mmio_write MMIO_DEVICE_FEATURES_SEL 0 _). assert (H1 : dev_only g g1) by (unfold g1; dev_chain).
  pose proof (mmio_read_dev MMIO_DEVICE_FEATURES g1) as H2. destruct (vg_mmio_read _ g1) as [lo g2]. cbn [snd] in H2.
  set (g3 := vg_mmio_write _ 1 g2). assert (H3 : dev_only g g3) by (unfold g3; etrans; [exact H1|]; etrans; [exact H2|]; dev_chain).
  pose proof (mmio_read_dev MMIO_DEVICE_FEATURES g3) as H4. destruct (vg_mmio_read _ g3) as [hi g4]. cbn [snd] in H4.
  assert (H04 : dev_only g g4) by (by etrans). clearbody g1 g3. clear H1 H2 H3 H4.
  destruct (negb _).
  { destruct (dev_only_kept g g4 H04 Hq). cbn. split_and!; try done. by left. }
  match goal with |- context [vg_mmio_read MMIO_STATUS ?x] => set (g5 := x) end.
  assert (H5 : dev_only g g5) by (etrans; [exact H04|]; unfold g5; dev_chain). clearbody g5.
  pose proof (mmio_read_dev MMIO_STATUS g5) as H6. destruct (vg_mmio_read _ g5) as [status g6]. cbn [snd] in H6.
  assert (H06 : dev_only g g6) by (by etrans). destruct (_ =? 0).
  { destruct (dev_only_kept g g6 H06 Hq). cbn. split_and!; try done. right. by left. }
  set (g7 := vg_mmio_write MMIO_QUEUE_SEL 0 g6). assert (H7 : dev_only g g7) by (etrans; [exact H06|]; unfold g7; dev_chain). clearbody g7.
  pose proof (mmio_read_dev MMIO_QUEUE_NUM_MAX g7) as H8. destruct (vg_mmio_read _ g7) as [qmax g8]. cbn [snd] in H8.
  assert (H08 : dev_only g g8) by (by etrans). destruct (qmax <? VIRTQ_NUM).
  { destruct (dev_only_kept g g8 H08 Hq). cbn. split_and!; try done. right. right. by left. }
  set (g9 := vg_mmio_write _ VIRTQ_NUM g8). assert (H9 : dev_only g g9) by (etrans; [exact H08|]; unfold g9; dev_chain). clearbody g9.
  destruct H9 as [d9 ->]. match goal with |- context [set_vg_ready true ?x] => set (g10 := x) end.
  assert (H10 : dev_only (set_vg_queue (replicate 32 zero_desc) zero_avail zero_used 0 (set_vg_dev d9 g)) g10) by (unfold g10; dev_chain).
  clearbody g10. destruct H10 as [d10 ->]. cbn [fst snd]. split; [|by split].
  split; cbn; [done|lia|apply zero_used_ok|lia].
Qed.

(** The size is that of a mode, cut to what the driver supports. *)
Lemma word_at_nonneg l off : 0 ≤ word_at l off.
Proof.
  unfold word_at. pose proof (λ x, Z.mod_pos_bound x 256). assert (∀ x, 0 ≤ x mod 256) by (intros x; apply H; lia).
  pose proof (H0 (default 0 (l !! (off + 0)%nat))). pose proof (H0 (default 0 (l !! (off + 1)%nat))).
  pose proof (H0 (default 0 (l !! (off + 2)%nat))). pose proof (H0 (default 0 (l !! (off + 3)%nat))). lia.
Qed.

Lemma first_mode_nonneg dinfo n : ∀ i, 0 ≤ (first_mode dinfo n i).1 ∧ 0 ≤ (first_mode dinfo n i).2.
Proof.
  induction n as [|n IH]; intros i; cbn [first_mode]; [done|]. cbv zeta. destruct (_ && _); [|apply IH].
  cbn. split; apply word_at_nonneg.
Qed.

Lemma pick_size_range dinfo : 0 < (pick_size dinfo).1 ≤ 1024 ∧ 0 < (pick_size dinfo).2 ≤ 768.
Proof.
  unfold pick_size. pose proof (first_mode_nonneg dinfo 16 0) as [Hw Hh]. destruct (first_mode dinfo 16 0) as [w h]. cbn [fst snd] in *.
  unfold VG_FB_MAX_W, VG_FB_MAX_H. destruct (Z.eqb_spec w 0), (Z.eqb_spec h 0); cbn [orb fst snd]; zcases; lia.
Qed.

#[local] Opaque vg_submit vg_cmd_get_display_info vg_negotiate vg_find vg_setup.
Lemma fail_started p g e :
  pg_ok p → vg_queue_ok g → vg_ready g = false → vg_backbuffer g = 0 → 1 ≤ e ≤ 9 → vg_started p (-1) p (set_vg_last_error e g).
Proof.
  intros Hp Q R B He. split; [|right; cbn; split_and!; try done; try lia; intros q _; by left].
  destruct Q. split; cbn; try done. congruence.
Qed.

Lemma vg_display_spec p g :
  pg_ok p → vg_queue_ok g → vg_ready g = true → vg_backbuffer g = 0 →
  wp (let! r := run_g vg_cmd_get_display_info in
      if r.1 <? 0 then vg_fail 3 else let '(w, h) := pick_size r.2 in vg_setup w h) (λ rc s, vg_started p rc s.1 s.2) (p, g).
Proof.
  intros Hp Hq Hr Hb. wp_step. apply run_g_eq. intros [rc dinfo] g1 Hdi.
  destruct (vg_display_eq g rc dinfo g1 Hq Hdi) as ([_ Kr _ _ _ [Kb _]] & Q1). rewrite Hr in Kr. rewrite Hb in Kb.
  cbn [fst snd]. clear Hdi. destruct (rc <? 0).
  { unfold vg_fail. wp_step. apply on_g_wp. wp_steps. apply (fail_started p (set_vg_ready false g1)); [done|by destruct Q1|done|done|lia]. }
  destruct (pick_size_range dinfo) as [Hw Hh]. destruct (pick_size dinfo) as [w h]. by apply vg_setup_spec.
Qed.

Lemma vg_init_spec p g :
  vg_inv p g → vg_ready g = false → wp vg_init (λ rc s, vg_started p rc s.1 s.2) (p, g).
Proof.
  intros [Hp Hq Hoff _] Hr. pose proof (Hoff Hr) as Hbb. unfold vg_init. wp_step. apply get_g_wp. rewrite Hr.
  wp_step. apply on_g_wp. set (g1 := set_vg_resource_id 0 _). wp_step. unfold vg_release_backbuffer. wp_step. apply get_g_wp.
  change (vg_backbuffer g1) with (vg_backbuffer g). rewrite Hbb. cbn [Z.eqb orb]. wp_step. wp_step. apply on_g_wp.
  destruct (vg_find_kept (seqZ 0 32) (set_vg_base 0 g1)) as [K2 Q2]; [by destruct Hq|]. revert K2 Q2. generalize (vg_find (seqZ 0 32) (set_vg_base 0 g1)). intros g2 K2 Q2.
  destruct K2 as [_ Kr _ _ _ [Kb _]]. cbn in Kr, Kb. rewrite Hr in Kr. rewrite Hbb in Kb.
  wp_step. apply get_g_wp. destruct (vg_base g2 =? 0).
  { wp_step. apply on_g_wp. wp_steps. by apply fail_started. }
  wp_step. apply run_g_wp. destruct (vg_negotiate_spec g2 Q2) as [Q3 N3]. destruct (vg_negotiate g2) as [e g3]. cbn [fst snd] in *.
  destruct e as [e|].
  { destruct N3 as [[_ Kr3 _ _ _ [Kb3 _]] He]. wp_step. apply on_g_wp. wp_steps. apply fail_started; [done|done|congruence|congruence|].
    repeat (apply elem_of_cons in He as [->|He]; [lia|]). by apply elem_of_nil in He. }
  destruct N3 as [_ Kr3 _ _ _ [Kb3 _]]. cbn in Kr3, Kb3.
  apply vg_display_spec; congruence.
Qed.

(** The driver keeps its promise to the window manager. *)
#[export] Program Instance virtio_gpu_ops_ok : GpuOpsOk P (vg_state D) := {
  gpu_ok := vg_inv;
}.
Next Obligation. intros p g []. done. Qed.
Next Obligation.
  intros p p' g [Hp Hq Hoff Hon] Hp' Hr. split; try done. intros Hrd. destruct (Hon Hrd) as [Hnz [F1 F2 F3 F4]]. split; [done|].
  cbn in Hr. rewrite Hrd in Hr. rewrite !to_int_id in Hr by (unfold is_int; lia).
  split; try done. intros q Hqm Hqb. apply Hr; auto.
Qed.
Next Obligation.
  intros p g [Hp Hq Hoff Hon] Hnz. cbn in *. destruct (vg_ready g) eqn:Hr; [|done]. destruct (Hon eq_refl) as [_ Hf].
  rewrite !to_int_id by (destruct Hf; unfold is_int; lia). done.
Qed.
Next Obligation.
  intros p g [Hp Hq Hoff Hon]. apply on_g_wp. cbn. destruct (vg_present_kept g Hq) as [[_ Kr _ (Kw & Kh & _) _ [Kb _]] Q].
  split; [done|]. rewrite Kr, Kw, Kh, Kb. split_and!; try done. split; rewrite ?Kr, ?Kb, ?Kw, ?Kh; done.
Qed.
Next Obligation.
  intros p g Hg. destruct (vg_ready g) eqn:Hr.
  - cbn. unfold vg_init. wp_step. apply get_g_wp. rewrite Hr. wp_steps. split; [done|]. intros _. cbn. rewrite Hr. by apply Hg.
  - eapply wp_mono; [by apply vg_init_spec|]. cbn. intros rc [p' g'] [Hi Hres]. split; [done|]. intros ->. cbn in *.
    destruct Hres as [(_ & Hr' & _)|[? _]]; [|done]. rewrite Hr'. by apply Hi.
Qed.
End init.
