(* ===== verification/VirtioGpuProps.v ===== *)
(** * The display driver: every command gets its own answer, and starting up

    [VgHonest] states what the virtio specification asks of a device: it
    answers a request once, with the head of its chain, in a buffer of that
    request, and sends nothing unasked. *)

From S2P Require Import Prelude Layout KString PageAlloc PageAllocSpec PageAllocProps PageIface GpuIface Virtq VirtioGpu VirtioGpuSpec.

(** What the device did while the driver waited: nothing yet, or the answer. *)
Definition answered_by {D} (owes : D → option (Z * list Z) → Prop) (answer_ok : list Z → list Z → Prop) (serial : Z) (req : list Z)
    (r : list vg_answer * D) : Prop :=
  ∃ a, r.1 = [a] ∧ an_serial a = serial ∧ ue_id (an_elem a) = 0 ∧ answer_ok req (an_bytes a) ∧ owes r.2 None.

Class VgHonest (D : Type) `{VgDevice D} := {
  (** The request the device has not answered yet, and an answer to a request. *)
  vgd_owes : D → option (Z * list Z) → Prop;
  vgd_answer_ok : list Z → list Z → Prop;
  (** Polls until it answers. *)
  vgd_delay : D → nat;
  owes_write d a v o : vgd_owes d o → vgd_owes (mmio_write a v d) o;
  owes_notify d descs avail req : vgd_owes d None →
    vgd_owes (vgd_notify descs avail req d) (Some (wrap16 (va_idx avail - 1), req));
  owes_none d : vgd_owes d None →
    ((vgd_poll d).1 = [] ∧ vgd_owes (vgd_poll d).2 None) ∧ ((vgd_sleep d).1 = [] ∧ vgd_owes (vgd_sleep d).2 None);
  owes_poll d n req : vgd_owes d (Some (n, req)) →
    ((vgd_poll d).1 = [] ∧ vgd_owes (vgd_poll d).2 (Some (n, req)) ∧ (vgd_delay (vgd_poll d).2 < vgd_delay d)%nat) ∨
    answered_by vgd_owes vgd_answer_ok n req (vgd_poll d);
  owes_sleep d n req : vgd_owes d (Some (n, req)) →
    ((vgd_sleep d).1 = [] ∧ vgd_owes (vgd_sleep d).2 (Some (n, req))) ∨
    answered_by vgd_owes vgd_answer_ok n req (vgd_sleep d);
}.

Section submit.
Context {D : Type} {VD : VgDevice D} {VP : VgPlaces} {VH : VgHonest D}.
Implicit Types g : vg_state D.

Section wait.
Context (serial : Z) (req resp0 : list Z).

(** Before and after the answer. *)
Definition waiting (st : list Z * vg_state D) : Prop :=
  vgd_owes (vg_dev st.2) (Some (serial, req)) ∧ st.1 = resp0 ∧ vu_idx (vg_used st.2) = vg_last_used st.2 ∧ vg_queue_ok st.2.
Definition served (st : list Z * vg_state D) : Prop :=
  vgd_owes (vg_dev st.2) None ∧ (∃ bytes, vgd_answer_ok req bytes ∧ st.1 = overwrite bytes resp0) ∧
  vu_idx (vg_used st.2) = wrap16 (vg_last_used st.2 + 1) ∧ ue_id (used_at (vg_used st.2) (vg_last_used st.2)) = 0 ∧ vg_queue_ok st.2.

Lemma receive_answer st d a :
  waiting st → vgd_owes d None → an_serial a = serial → ue_id (an_elem a) = 0 → vgd_answer_ok req (an_bytes a) →
  served (receive serial [a] (st.1, set_vg_dev d st.2)).
Proof.
  intros (_ & Hr & Hi & [Q1 Q2 [Q3 Q3'] Q4]) Hd Hs He Ha. unfold receive. cbn [foldl]. unfold receive_one. cbn [fst snd].
  rewrite Hs, Z.eqb_refl. split; [done|]. split; [by exists (an_bytes a); rewrite Hr|]. split; [cbn; by rewrite Hi|]. split.
  - unfold used_at, used_push. cbn [fst snd vu_ring vg_used set_vg_queue set_vg_dev vg_last_used]. 
    rewrite Hi. rewrite aget_aset_eq; [done|].
    rewrite Q3. unfold VIRTQ_NUM. apply Z.mod_pos_bound. lia.
  - split; cbn; try done. by apply used_push_ok.
Qed.

Lemma receive_none (st : list Z * vg_state D) d : receive serial [] (st.1, set_vg_dev d st.2) = (st.1, set_vg_dev d st.2).
Proof. done. Qed.

Lemma look_waiting st :
  waiting st →
  (waiting (look serial st).2 ∧ (look serial st).1 = false ∧ (vgd_delay (vg_dev (look serial st).2.2) < vgd_delay (vg_dev st.2))%nat) ∨
  (served (look serial st).2 ∧ (look serial st).1 = true).
Proof.
  intros Hw. pose proof Hw as (Hd & Hr & Hi & Q). unfold look. destruct (owes_poll _ _ _ Hd) as [(Hn & Hd' & Hlt)|(a & Hn & Hs & He & Ha & Hd')];
    destruct (vgd_poll (vg_dev st.2)) as [answers d]; cbn [fst snd] in *; subst answers.
  - left. rewrite receive_none. cbn [fst snd vg_used vg_last_used set_vg_dev vg_dev]. split_and!; [|by rewrite Hi, Z.eqb_refl|done].
    split_and!; try done. by destruct Q.
  - right. pose proof (receive_answer st d a Hw Hd' Hs He Ha) as Hsv. split; [done|]. destruct Hsv as (_ & _ & Hx & _ & [_ _ _ Hl]).
    rewrite Hx. apply negb_true_iff, Z.eqb_neq. unfold wrap16. set (x := vg_last_used _) in *. Z.div_mod_to_equations; lia.
Qed.

Lemma look_served st : served st → served (look serial st).2 ∧ (look serial st).1 = true.
Proof.
  intros (Hd & Hb & Hx & He & Q). unfold look. destruct (proj1 (owes_none _ Hd)) as [Hn Hd'].
  destruct (vgd_poll (vg_dev st.2)) as [answers d]; cbn [fst snd] in *; subst answers. rewrite receive_none. cbn [fst snd]. split.
  - split; [done|]. split; [done|]. split_and!; try done. by destruct Q.
  - change (negb (vg_last_used st.2 =? vu_idx (vg_used st.2)) = true). rewrite Hx. destruct Q as [_ _ _ Hl].
    apply negb_true_iff, Z.eqb_neq. unfold wrap16. Z.div_mod_to_equations; lia.
Qed.

Lemma sleep_look_phase st :
  waiting st ∨ served st →
  (waiting (sleep_look serial st).2 ∧ (sleep_look serial st).1 = false) ∨ (served (sleep_look serial st).2 ∧ (sleep_look serial st).1 = true).
Proof.
  intros [Hw|Hs]; unfold sleep_look.
  - pose proof Hw as (Hd & Hr & Hi & Q). destruct (owes_sleep _ _ _ Hd) as [(Hn & Hd')|(a & Hn & Hs & He & Ha & Hd')];
      destruct (vgd_sleep (vg_dev st.2)) as [answers d]; cbn [fst snd] in *; subst answers.
    + rewrite receive_none. assert (Hw' : waiting (st.1, set_vg_dev d st.2)) by (split_and!; try done; by destruct Q).
      destruct (look_waiting _ Hw') as [(? & ? & _)|?]; auto.
    + right. apply look_served, receive_answer; done.
  - pose proof Hs as (Hd & Hb & Hx & He & Q). destruct (proj2 (owes_none _ Hd)) as [Hn Hd'].
    destruct (vgd_sleep (vg_dev st.2)) as [answers d]; cbn [fst snd] in *; subst answers. rewrite receive_none. right. apply look_served.
    split; [done|]. split; [done|]. split_and!; try done. by destruct Q.
Qed.

Lemma until_look n : ∀ st, waiting st →
  let r := until_nat n (look serial) st in
  (waiting r.2 ∧ (n + vgd_delay (vg_dev r.2.2) ≤ vgd_delay (vg_dev st.2))%nat) ∨ served r.2.
Proof.
  induction n as [|n IH]; intros st Hw; simpl; [left; by split|].
  destruct (look_waiting st Hw) as [(Hw' & Hf & Hlt)|(Hs & Ht)]; destruct (look serial st) as [b st1]; cbn [fst snd] in *; subst b; [|by right].
  destruct (IH st1 Hw') as [[? ?]|?]; [left; split; [done|lia]|by right].
Qed.

Lemma await_spec st :
  waiting st →
  let r := await serial st in
  (served r.2 ∧ r.1 = true) ∨ (waiting r.2 ∧ r.1 = false ∧ (Pos.to_nat 20000000 < vgd_delay (vg_dev st.2))%nat).
Proof.
  intros Hw. unfold await. rewrite until_pos_nat. generalize (Pos.to_nat 20000000). intros n.
  pose proof (until_look n st Hw) as H1. cbv zeta in H1. destruct (until_nat n (look serial) st) as [b0 st1]. cbn [snd] in H1.
  set (late := (n < vgd_delay (vg_dev st.2))%nat).
  assert (H2 : (served (look serial st1).2 ∧ (look serial st1).1 = true) ∨ (waiting (look serial st1).2 ∧ (look serial st1).1 = false ∧ late)).
  { destruct H1 as [[Hw1 Hle]|Hs1]; [|left; by apply look_served].
    destruct (look_waiting st1 Hw1) as [(? & ? & ?)|?]; [right|by left]. split_and!; try done. unfold late. lia. }
  destruct (look serial st1) as [b st2]. cbn [fst snd] in H2. destruct H2 as [[Hs2 ->]|(Hw2 & -> & Hlate)]; cbn [negb andb].
  { left. by apply look_served. }
  assert (Hend : ∀ st, waiting st ∨ served st →
    (served (look serial st).2 ∧ (look serial st).1 = true) ∨ (waiting (look serial st).2 ∧ (look serial st).1 = false ∧ late)).
  { intros st' [Hw'|Hs']; [|left; by apply look_served]. destruct (look_waiting st' Hw') as [(? & ? & _)|?]; [right|left]; done. }
  destruct (vgd_in_process (vg_dev st2.2)); [|apply Hend; by left].
  destruct (Hend st2 (or_introl Hw2)) as [[Hs3 Hb]|(Hw3 & Hb & _)]; destruct (look serial st2) as [b st3]; cbn [fst snd] in *; subst b; apply Hend.
  { by right. }
  destruct (until_inv (λ st, waiting st ∨ served st) (λ _, True) (sleep_look serial) 100 st3) as [Hu _]; [|by left|done].
  intros st' Hst'. destruct (sleep_look_phase st' Hst') as [[? _]|[? _]]; auto.
Qed.
End wait.

(** The state between commands: nothing is owed and nothing unseen. *)
Definition idle g : Prop := vgd_owes (vg_dev g) None ∧ vu_idx (vg_used g) = vg_last_used g.

(** With a device that keeps to the virtio protocol, a command sent while
    none is outstanding either returns 0 with the device's answer to this very
    command in its response buffer, leaving the driver idle again, or returns
    -1, and then the device needed more than the 20000000 polls the driver
    waits. *)
Theorem vg_submit_answered g req resp :
  vg_ready g = true → vg_queue_ok g → idle g → req ≠ [] → resp ≠ [] →
  let '((rc, resp'), g') := vg_submit req resp g in
  (rc = 0 ∧ idle g' ∧ ∃ bytes, vgd_answer_ok req bytes ∧ resp' = overwrite bytes resp) ∨
  (rc = -1 ∧ resp' = resp ∧ ∃ d, (∃ descs d0, d = vgd_notify descs (avail_push 0 (vg_avail g)) req d0) ∧
     (Pos.to_nat 20000000 < vgd_delay d)%nat).
Proof.
  intros Hr Hq [Hd Hi] Hreq Hresp. rewrite vg_submit_await, Hr. destruct req as [|x req]; [done|]. destruct resp as [|y resp]; [done|].
  cbn [negb orb length Nat.eqb]. cbv zeta. set (desc := aset _ 1 _). set (avail := avail_push 0 _). set (g1 := vg_mmio_write _ _ _).
  set (d := vgd_notify desc avail (x :: req) (vg_dev g1)).
  assert (Hw : waiting (va_idx (vg_avail g)) (x :: req) (y :: resp) (y :: resp, set_vg_dev d g1)).
  { split_and!; [|done|done|].
    - cbn [snd vg_dev set_vg_dev]. replace (va_idx (vg_avail g)) with (wrap16 (va_idx avail - 1)).
      + apply owes_notify, owes_write, Hd.
      + destruct Hq as [_ [_ Ha] _ _]. cbn. unfold wrap16. Z.div_mod_to_equations; lia.
    - destruct Hq as [Q1 [Q2 Q2'] Q3 Q4]. split; [|split|done|done].
      + change (length desc = 32%nat). unfold desc. by rewrite !length_aset.
      + change (length (va_ring avail) = 32%nat). unfold avail, avail_push. cbn [va_ring]. by rewrite length_aset.
      + change (0 ≤ wrap16 (va_idx (vg_avail g) + 1) < 65536). unfold wrap16. apply Z.mod_pos_bound. lia. }
  pose proof (await_spec _ _ _ _ Hw) as Ha. cbv zeta in Ha. destruct (await _ _) as [b [resp' g']]. cbn [fst snd] in Ha.
  destruct Ha as [[(Hd' & Hb & Hx & He & Q) ->]|((Hd' & Hb & Hx & Q) & -> & Hlate)]; cbn [negb].
  - cbn [fst snd] in He. rewrite He. cbn. left. split; [done|]. split; [done|]. exact Hb.
  - right. split; [done|]. split; [done|]. exists d. split; [by eauto|exact Hlate].
Qed.
End submit.

(** [virtio_gpu_init] always returns.  A driver that is ready is left alone.
    Otherwise it returns 0 with the driver ready, a screen of at most 1024 by
    768, and a back buffer of zeroes in fresh pages, no other page touched; or
    it returns -1 with an error code from 1 to 9, not ready, with every
    page given back that it had taken (up to pages the allocator cannot record
    as free). *)
Theorem virtio_gpu_init_correct {L : Layout} {LOK : LayoutOk} {P D : Type} {PO : PageOps P} {POK : PageOpsOk P} {VD : VgDevice D} {VP : VgPlaces} (p : P) (g : vg_state D) :
  vg_inv p g →
  wp virtio_gpu_init (λ rc s, if vg_ready g then rc = 0 ∧ s = (p, g) else vg_started p rc s.1 s.2) (p, g).
Proof.
  intros Hg. destruct (vg_ready g) eqn:Hr; [|by apply vg_init_spec].
  cbn. unfold vg_init. wp_step. apply get_g_wp. rewrite Hr. by wp_steps.
Qed.

(** ** A device *)

Section demo.
#[local] Existing Instance demo_layout.
#[local] Existing Instance demo_layout_ok.

(** It answers at the third look and shows one mode of 8 by 4 pixels; [Some] is
    the request it owes. *)
Definition demo_dev : Type := option (Z * list Z * nat).
Definition demo_answer (req : list Z) : list Z :=
  if word_at req 0 =? VIRTIO_GPU_CMD_GET_DISPLAY_INFO
  then ctrl_hdr VIRTIO_GPU_RESP_OK_DISPLAY_INFO ++ gpu_rect 0 0 8 4 ++ le32 1 ++ le32 0
  else ctrl_hdr VIRTIO_GPU_RESP_OK_NODATA.
Definition demo_poll (d : demo_dev) : list vg_answer * demo_dev :=
  match d with
  | None => ([], None)
  | Some (n, req, S k) => ([], Some (n, req, k))
  | Some (n, req, O) => ([VgAnswer n (demo_answer req) (UsedElem 0 24)], None)
  end.
Definition demo_register (a : Z) : Z :=
  if a =? VIRTIO_MMIO_BASE + MMIO_MAGIC_VALUE then VIRTIO_MAGIC
  else if a =? VIRTIO_MMIO_BASE + MMIO_DEVICE_ID then 16
  else if a =? VIRTIO_MMIO_BASE + MMIO_DEVICE_FEATURES then 1
  else if a =? VIRTIO_MMIO_BASE + MMIO_STATUS then 15
  else if a =? VIRTIO_MMIO_BASE + MMIO_QUEUE_NUM_MAX then 64
  else 0.

#[local] Instance demo_mmio : Mmio demo_dev := { mmio_read a d := (demo_register a, d); mmio_write _ _ d := d }.
#[local] Instance demo_gpu_device : VgDevice demo_dev := {
  vgd_notify _ avail req _ := Some (wrap16 (va_idx avail - 1), req, 2%nat);
  vgd_poll := demo_poll;
  vgd_in_process _ := false;
  vgd_sleep := demo_poll;
}.
#[local] Instance demo_places : VgPlaces := {| req_at := 4096; resp_at := 8192; vg_desc_at := 12288; vg_avail_at := 16384; vg_used_at := 20480 |}.

Definition demo_owes (d : demo_dev) (o : option (Z * list Z)) : Prop := fst <$> d = o.
#[local] Program Instance demo_honest : VgHonest demo_dev := {
  vgd_owes := demo_owes;
  vgd_answer_ok req bytes := bytes = demo_answer req;
  vgd_delay d := match d with Some (_, k) => k | None => O end;
}.
Next Obligation. done. Qed.
Next Obligation. done. Qed.
Next Obligation. intros [[[n req] k]|] Hd; done. Qed.
Next Obligation.
  intros [[[n req] [|k]]|] n' req' Hd; [| |done]; injection Hd as -> ->; [right|left; split_and!; try done; cbn; lia].
  by eexists.
Qed.
Next Obligation.
  intros [[[n req] [|k]]|] n' req' Hd; [| |done]; injection Hd as -> ->; [right|by left]. by eexists.
Qed.

Definition boot_gpu : vg_state demo_dev :=
  VgState (replicate 32 zero_desc) zero_avail zero_used 0 false 0 0 0 0 0 0 0 0 None.
Definition ready_gpu : vg_state demo_dev := set_vg_base VIRTIO_MMIO_BASE (set_vg_ready true boot_gpu).

Lemma boot_queue : vg_queue_ok boot_gpu.
Proof. split; cbn; [done|lia|apply zero_used_ok|lia]. Qed.

Lemma vg_submit_answered_witness :
  vg_ready ready_gpu = true ∧
  let '((rc, resp'), g') := vg_submit (ctrl_hdr VIRTIO_GPU_CMD_GET_DISPLAY_INFO) (zeros display_info_size) ready_gpu in
  (rc = 0 ∧ idle g' ∧ ∃ bytes, vgd_answer_ok (ctrl_hdr VIRTIO_GPU_CMD_GET_DISPLAY_INFO) bytes ∧ resp' = overwrite bytes (zeros display_info_size)) ∨
  (rc = -1 ∧ resp' = zeros display_info_size ∧
     ∃ d, (∃ descs d0, d = vgd_notify descs (avail_push 0 (vg_avail ready_gpu)) (ctrl_hdr VIRTIO_GPU_CMD_GET_DISPLAY_INFO) d0) ∧
     (Pos.to_nat 20000000 < vgd_delay d)%nat).
Proof.
  split; [reflexivity|]. apply vg_submit_answered; [reflexivity|by destruct boot_queue|by split|done|done].
Defined.

(** The driver starts on this device. *)
Example demo_start :
  (let '(e, g) := vg_negotiate (vg_find (seqZ 0 32) boot_gpu) in
   let '((rc, dinfo), g) := vg_cmd_get_display_info g in (e, rc, pick_size dinfo)) = (None, 0, (8, 4)).
Proof. vm_compute. reflexivity. Qed.

Lemma boot_vg_inv : vg_inv (boot_alloc_state ∅) boot_gpu.
Proof. split; [apply boot_ok|apply boot_queue|done|done]. Qed.

Lemma virtio_gpu_init_correct_witness :
  vg_inv (boot_alloc_state ∅) boot_gpu ∧
  wp virtio_gpu_init (λ rc s, vg_started (boot_alloc_state ∅) rc s.1 s.2) (boot_alloc_state ∅, boot_gpu).
Proof. split; [apply boot_vg_inv|]. apply (virtio_gpu_init_correct (boot_alloc_state ∅) boot_gpu), boot_vg_inv. Defined.
End demo.
