(* ===== verification/WmProps.v ===== *)
(** * Properties of the window manager *)

From S2P Require Import Prelude Layout KString PageAlloc PageAllocSpec PageAllocProps PageIface SelSort GpuIface Ring VirtioInput Wm WmEvents WmDraw WmOrder WmScene WmInv WmOps WmLife WmImage WmRender.
From S2P Require Import Virtq VirtioGpu VirtioGpuSpec VirtioGpuProps.

Section props.
Context {L : Layout} {LOK : LayoutOk} {P G : Type} {PO : PageOps P} {POK : PageOpsOk P} {GO : GpuOps P G} {GOK : GpuOpsOk P G}.
Implicit Types s : wm_state P G.

Abbreviation fb_of s := (virtio_gpu_backbuffer (wm_gpu s)).
Abbreviation w_of s := (virtio_gpu_width (wm_gpu s)).
Abbreviation h_of s := (virtio_gpu_height (wm_gpu s)).
Abbreviation mem_of s := (pg_mem (wm_pages s)).

(** ** Initialisation *)
Lemma zero_windows_inv v w h :
  wm_windows v = replicate WM_MAX_WINDOWS zero_window → wm_next_id v = 1 → wm_next_z v = 1 → wm_focus_id v = 0 →
  wm_screen_w v = w → wm_screen_h v = h → 0 < w ≤ 1024 → 0 < h ≤ 768 → vars_inv v.
Proof.
  intros Hw Hi Hz Hf Ew Eh Hsw Hsh.
  assert (Hl : ∀ i x, wm_windows v !! i = Some x → x = zero_window) by (intros i x; rewrite Hw; by intros [-> _]%lookup_replicate).
  assert (Hu : ∀ i x, wm_windows v !! i = Some x → w_used x = true → False) by (intros i x ->%Hl; done).
  split; try (intros; by exfalso; eauto).
  - by rewrite Hw.
  - intros i x ->%Hl. by split.
  - split; intros; by exfalso; eauto.
  - lia.
  - by left.
  - lia.
Qed.

(** Starting from a driver in order and no focus, the desktop is empty and the
    whole screen is marked to be drawn. *)
Lemma wm_init_spec s :
  gpu_ok (wm_pages s) (wm_gpu s) → wm_focus_id (wm s) = 0 →
  wp wm_init (λ _ s', wm_inv s' ∧ wm_windows (wm s') = replicate WM_MAX_WINDOWS zero_window ∧ wm_next_id (wm s') = 1 ∧ wm_next_z (wm s') = 1 ∧
    (wm_gpu_ready (wm s') = false → wm_screen_w (wm s') = 80 ∧ wm_screen_h (wm s') = 25) ∧
    wm_cursor_x (wm s') = wm_screen_w (wm s') / 2 ∧ wm_cursor_y (wm s') = wm_usable_h (wm s') / 2 ∧ wm_focus_id (wm s') = 0 ∧
    wm_dirty (wm s') = DirtyRect true 0 0 (wm_screen_w (wm s')) (wm_screen_h (wm s'))) s.
Proof.
  intros Hg Hf. unfold wm_init. wp_step. apply wp_on_vars. wp_step. apply wp_on_gpu. cbn [wm wm_pages wm_gpu].
  eapply wp_mono; [by apply gpu_init_spec|]. intros rc [p g] [Hg' Hrc]. cbn [fst snd] in *. wp_step. wp_step. cbn [wm wm_pages wm_gpu].
  set (w := if rc =? 0 then virtio_gpu_width g else _). set (h := if rc =? 0 then virtio_gpu_height g else _).
  assert (Hsz : 0 < w ≤ 1024 ∧ 0 < h ≤ 768).
  { unfold w, h. destruct (Z.eqb_spec rc 0) as [He|]; [apply (gpu_buffer _ _ Hg' (Hrc He))|]. unfold WM_TEXT_SCREEN_W, WM_TEXT_SCREEN_H. lia. }
  apply wp_on_vars. cbv zeta. cbn [wm wm_pages wm_gpu]. split; [|split_and!; try done].
  - match goal with |- context [wm_mark_dirty_full ?v] => apply (full_clean (WmState v p g) v) end; cbn [wm wm_pages wm_gpu]; try done.
    + split; cbn [wm wm_pages wm_gpu]; [|done| |].
      * eapply zero_windows_inv; [reflexivity|reflexivity|reflexivity|exact Hf|reflexivity|reflexivity|exact (proj1 Hsz)|exact (proj2 Hsz)].
      * cbn. intros Hr. unfold w, h. rewrite Hr. apply Z.eqb_eq in Hr. split_and!; [by apply Hrc|done|done].
      * pose proof free_ram_bounds. assert (Hno : ∀ i x, replicate WM_MAX_WINDOWS zero_window !! i = Some x → x = zero_window) by (by intros i x [-> _]%lookup_replicate).
        split.
        -- intros i x ->%Hno. split; cbn; [lia| |by intros [? _]|done]. unfold free_ram_end in *. lia.
        -- intros i j x y a ->%Hno _ [Hc _]. done.
        -- intros _ i x a ->%Hno [Hc _]. done.
    + eapply zero_windows_inv; [reflexivity|reflexivity|reflexivity|exact Hf|reflexivity|reflexivity|exact (proj1 Hsz)|exact (proj2 Hsz)].
  - cbn. intros Hr. unfold w, h. rewrite Hr. done.
  - cbn. rewrite Z.quot_div_nonneg by lia. done.
  - match goal with |- wm_cursor_y (wm_mark_dirty_full ?v) = _ => change (Z.quot (wm_usable_h v) 2 = wm_usable_h v / 2); assert (0 ≤ wm_usable_h v) end.
    { unfold wm_usable_h, isub, WM_TASKBAR_PX, WM_TEXT_SCREEN_H. cbn [wm_gpu_ready wm_screen_h]. rewrite to_int_id by (unfold is_int; lia). zcases; lia. }
    by rewrite Z.quot_div_nonneg by lia.
Qed.

(** ** Every sequence of calls *)

(** The calls of [kernel/wm.h] after [wm_init]. *)
Inductive wm_op :=
| OpCreate (title : option (list Z)) (w h : Z)
| OpMove (id x y : Z)
| OpResize (id w h : Z)
| OpFocus (id : Z)
| OpClose (id : Z)
| OpText (id : Z) (text : list Z)
| OpImage (id : Z) (pixels : list Z) (w h : Z)
| OpMouse (evs : list virtio_input_event)
| OpEvent (id : Z)
| OpCursor (dx dy : Z)
| OpRender.

Definition run_op (o : wm_op) : km (wm_state P G) unit :=
  match o with
  | OpCreate title w h => do! wm_create title w h in kret tt
  | OpMove id x y => do! wm_move id x y in kret tt
  | OpResize id w h => do! wm_resize id w h in kret tt
  | OpFocus id => do! wm_focus id in kret tt
  | OpClose id => do! wm_close id in kret tt
  | OpText id text => do! wm_set_text id text in kret tt
  | OpImage id px w h => do! wm_set_image id (Some px) w h in kret tt
  | OpMouse evs => do! wm_poll_mouse_input evs in kret tt
  | OpEvent id => do! wm_poll_event id in kret tt
  | OpCursor dx dy => wm_cursor_move dx dy
  | OpRender => wm_render
  end.

(** Arguments for which no [int] overflows and nothing is divided by zero; the
    focus goes to a window that does not have it.  The calls of [wm_op] set an
    image or nothing: [wm_set_image] with NULL pixels is not among them. *)
Definition op_allowed (o : wm_op) (v : wm_vars) : Prop :=
  match o with
  | OpCreate _ w h => 0 ≤ w ≤ 536870912 ∧ 0 ≤ h ≤ 536870912 ∧ w ≠ wm_screen_w v + 1 ∧ h ≠ wm_usable_h v + 1 ∧
      wm_next_id v < 2147483647 ∧ wm_next_z v < 2147483647
  | OpMove _ x y => -1073741824 ≤ x ≤ 1073741824 ∧ -1073741824 ≤ y ≤ 1073741824
  | OpResize _ w h => 0 ≤ w ≤ 536870912 ∧ 0 ≤ h ≤ 536870912
  | OpFocus id => wm_focus_id v ≠ id ∧ wm_next_z v < 2147483647
  | OpImage _ px w h => 0 ≤ w ∧ 0 ≤ h ∧ 4 * (w * h) < 2147483648 ∧ Z.of_nat (length px) = 4 * (w * h) ∧ Forall (λ b, 0 ≤ b < 256) px
  | OpMouse evs => wm_next_z v + length evs < 2147483647
  | OpRender => cursor_ok v
  | OpClose _ | OpText _ _ | OpEvent _ | OpCursor _ _ => True
  end.

(** The one way out: in this state there is no memory for the image. *)
Definition op_fault (o : wm_op) (s : wm_state P G) : Prop :=
  match o with OpImage id _ w h => ∃ i, wm_find (wm s) id = Some i ∧ room_failed s i (4 * (w * h)) | _ => False end.

Lemma wpf_then {A} (c : km (wm_state P G) A) (R : wm_state P G → Prop) (F : Prop) s :
  wpf c (λ _ s', R s') F s → wpf (do! c in kret tt) (λ _ s', R s') F s.
Proof. unfold wpf, kbind. by destruct (c s) as [[a s']| | | |]. Qed.

Lemma wm_render_text s : wm_inv s → wm_gpu_ready (wm s) = false → wp wm_render (λ _ s', wm_inv s') s.
Proof.
  intros Hs Hr. unfold wm_render. wp_step. apply wp_on_vars. wp_step. apply wp_vars. cbn [wm wm_pages wm_gpu].
  change (wm_gpu_ready (wm_repack_z (wm s))) with (wm_gpu_ready (wm s)). rewrite Hr. wp_steps. split; [by apply core_repack, Hs|].
  intros Hr'. cbn in Hr'. congruence.
Qed.

Lemma run_op_inv o s : wm_inv s → op_allowed o (wm s) → wpf (run_op o) (λ _ s', wm_inv s') (op_fault o s) s.
Proof.
  intros Hs Ho. destruct o as [title w h|id x y|id w h|id|id|id text|id px w h|evs|id|dx dy|]; cbn [run_op op_allowed op_fault] in *; destruct_and?.
  1-9: apply (wpf_then _ wm_inv).
  - apply wp_wpf. eapply wp_mono; [by apply wm_create_spec|]. intros r s' [Hi _]. exact Hi.
  - apply wp_wpf. eapply wp_mono; [by apply wm_move_spec|]. intros r s' [Hi _]. exact Hi.
  - apply wp_wpf. eapply wp_mono; [by apply wm_resize_spec|]. intros r s' [Hi _]. exact Hi.
  - apply wp_wpf. eapply wp_mono; [apply wm_focus_spec; [apply Hs|done]|]. intros r s' (Hp & Hg & Hc & _ & _ & Hf).
    destruct (wm_find (wm s) id); [|by destruct Hf as [_ ->]]. split; [done|]. apply Hf; [done|apply Hs].
  - apply wp_wpf. eapply wp_mono; [by apply wm_close_spec|]. intros r s' [Hi _]. exact Hi.
  - apply wp_wpf. eapply wp_mono; [by apply wm_set_text_spec|]. intros r s' [Hi _]. exact Hi.
  - eapply wpf_mono; [by apply wm_set_image_spec| |done]. intros r s' [Hi _]. exact Hi.
  - apply wp_wpf. eapply wp_mono; [by apply wm_poll_mouse_input_spec|]. intros r s' Hi. exact Hi.
  - apply wp_wpf. eapply wp_mono; [by apply wm_poll_event_spec|]. intros r s' [Hi _]. exact Hi.
  - by apply wp_wpf, wm_cursor_move_spec.
  - apply wp_wpf. destruct (wm_gpu_ready (wm s)) eqn:Hr; [|by apply wm_render_text].
    eapply wp_mono; [by apply wm_render_spec|]. intros [] s' [Hi _]. exact Hi.
Qed.



(** ** Rendering *)

(** C16: [wm_render] on a display shows the scene: every pixel of the back
    buffer is the cursor, the image or colour of the topmost window
    that covers it, or the desktop, although only the dirty rectangle is
    painted.  Memory outside the back buffer is unchanged, the stacking order
    is kept, nothing is dirty any more, and a picture that was dirty is
    presented to the device as it is left. *)
Theorem wm_render_correct s :
  wm_inv s → wm_gpu_ready (wm s) = true → cursor_ok (wm s) →
  ∃ s', wm_render s = Done (tt, s') ∧
    (∀ px py, on_screen (w_of s) (h_of s) px py → pixel (fb_of s) (w_of s) (mem_of s') px py = scene_pixel (wm s) (mem_of s) px py) ∧
    (∀ a, outside (fb_of s) (w_of s) (h_of s) a → rd (mem_of s') a = rd (mem_of s) a) ∧
    (∀ px py, scene_pixel (wm s') (mem_of s') px py = scene_pixel (wm s) (mem_of s) px py) ∧
    d_valid (wm_dirty (wm s')) = false ∧
    (d_valid (wm_dirty (wm s)) = true → virtio_gpu_present (wm_pages s', wm_gpu s) = Done (tt, (wm_pages s', wm_gpu s'))).
Proof.
  intros Hs Hr Hc. destruct (wp_elim _ _ _ (wm_render_spec s Hs Hr Hc)) as ([] & s' & Hrun & Hs' & [Rv Rc Rp Rk Rg Rpr]).
  exists s'. split; [exact Hrun|]. split; [exact Rp|]. split; [exact Rk|]. split; [|split; [done|intros Hd; by rewrite Hd in Rpr]].
  intros px py. destruct (wi_screen s Hs Hr) as (Hnz & _).
  transitivity (scene_pixel (wm_repack_z (wm s)) (mem_of s) px py); [|apply scene_repack, Hs]. rewrite Rv.
  change (scene_pixel (wm_repack_z (wm s)) (mem_of s') px py = scene_pixel (wm_repack_z (wm s)) (mem_of s) px py).
  eapply scene_kept; [apply gpu_buffer, Hnz; apply Hs|done| |exact Rk].
  apply core_scene; [apply Hs|done|apply vars_inv_repack, Hs|done|apply (wi_images _ (core_repack s Hs))].
Qed.

(** Drawing only what is dirty is as good as drawing everything: rendering a
    state in which the back buffer shows the scene outside the dirty rectangle, and rendering it with the whole screen marked dirty, leave the same
    picture. *)
Theorem wm_render_incremental s :
  wm_inv s → wm_gpu_ready (wm s) = true → cursor_ok (wm s) →
  ∃ s1 s2, wm_render s = Done (tt, s1) ∧
    wm_render (WmState (wm_mark_dirty_full (wm s)) (wm_pages s) (wm_gpu s)) = Done (tt, s2) ∧
    wm_windows (wm s1) = wm_windows (wm s2) ∧
    ∀ px py, on_screen (w_of s) (h_of s) px py →
      pixel (fb_of s) (w_of s) (mem_of s1) px py = pixel (fb_of s) (w_of s) (mem_of s2) px py.
Proof.
  intros Hs Hr Hc. set (sf := WmState (wm_mark_dirty_full (wm s)) (wm_pages s) (wm_gpu s)).
  assert (Hsf : wm_inv sf) by (apply (full_clean s); [apply Hs|apply Hs|done|done]).
  destruct (wp_elim _ _ _ (wm_render_spec s Hs Hr Hc)) as ([] & s1 & Hrun1 & _ & R1).
  destruct (wp_elim _ _ _ (wm_render_spec sf Hsf Hr Hc)) as ([] & s2 & Hrun2 & _ & R2).
  exists s1, s2. split; [exact Hrun1|]. split; [exact Hrun2|]. split.
  - rewrite (rn_vars _ _ R1), (rn_vars _ _ R2). done.
  - intros px py Hp. rewrite (rn_pixels _ _ R1 px py Hp). symmetry. apply (rn_pixels _ _ R2 px py Hp).
Qed.

(** ** Windows *)

(** [wm_create] takes the first free slot, or returns -1 and changes
    nothing when all eight are in use.  The new window has the next id, no
    events, and lies above all others; if its size fits, it lies wholly
    on the screen above the taskbar.  The other windows are as they were. *)
Theorem wm_create_correct s title w h :
  wm_inv s → op_allowed (OpCreate title w h) (wm s) →
  wp (wm_create title w h) (λ r s', wm_inv s' ∧
    match find_index (λ w, negb (w_used w)) (wm_windows (wm s)) with
    | None => r = -1 ∧ s' = s
    | Some i => created s i w h r s'
    end) s.
Proof. intros Hs (Hw & Hh & Hnw & Hnh & Hid & Hz). by apply wm_create_spec. Qed.

(** [wm_set_image] gives the window pages for the image, apart from the back
    buffer and from the images of the other windows, and the window shows the
    pixels handed in, byte for byte; without the window it returns -1 and
    changes nothing.  It faults only when the allocator has no pages. *)
Theorem wm_set_image_correct s id px iw ih :
  wm_inv s → op_allowed (OpImage id px iw ih) (wm s) →
  match wm_set_image id (Some px) iw ih s with
  | Done (r, s') => image_set s id iw ih px r s'
  | Fault => ∃ i, wm_find (wm s) id = Some i ∧ room_failed s i (4 * (iw * ih))
  | _ => False
  end.
Proof. intros Hs (Hw & Hh & Hmax & Hlen & Hb). by apply (wm_set_image_spec s id px iw ih). Qed.

(** A press of the left button. *)
Definition press : virtio_input_event := VirtioInputEvent VI_EV_KEY VI_BTN_LEFT 1.

(** A press of the left button gives the focus to the window seen under the
    cursor: of all visible windows that cover the point the one with
    the greatest [z], which is also put on top; elsewhere the focus stays. *)
Theorem click_focuses_what_is_seen s :
  wm_inv s → wm_next_z (wm s) < 2147483647 →
  let x := wm_cursor_x (wm s) in
  let y := wm_cursor_y (wm s) in
  wp (mouse_event press false) (λ c s', c = true ∧ wm_core s' ∧
    ((∃ i w, wm_windows (wm s) !! i = Some w ∧ hit w x y 0 = true ∧
        (∀ j w', wm_windows (wm s) !! j = Some w' → hit w' x y 0 = true → j ≠ i → w_z w' < w_z w) ∧
        wm_focus_id (wm s') = w_id w ∧
        ∃ u, wm_windows (wm s') !! i = Some u ∧ w_id u = w_id w ∧ w_z u = wm_next_z (wm s)) ∨
     (s' = s ∧ ∀ j w', wm_windows (wm s) !! j = Some w' → hit w' x y 0 = false))) s.
Proof.
  intros Hs Hmax x y. pose proof (wi_vars s Hs) as Hv. unfold mouse_event, press.
  cbn [vi_type vi_code vi_value]. change (VI_EV_KEY =? VI_EV_REL) with false. change ((VI_EV_KEY =? VI_EV_KEY) && (VI_BTN_LEFT =? VI_BTN_LEFT)) with true.
  cbv iota zeta. cbn [orb andb negb Z.eqb]. wp_step. wp_step. wp_step. wp_step. apply wp_vars. fold x y.
  pose proof (wm_top_at_spec (wm s) x y 0 (vi_z _ Hv)) as Ht. destruct (wm_top_at x y 0 (wm s)) as [i|]; cbn [window_at mbind option_bind].
  - destruct Ht as (w & Hi & Hh & Hm). rewrite Hi. destruct (hit_used _ _ _ _ Hh) as [Hu _]. wp_step.
    eapply wp_mono; [apply wm_focus_spec; [apply Hs|done]|]. intros r s' (_ & _ & Hc & _ & _ & Hf).
    rewrite (wm_find_Some _ _ i w Hv Hi Hu eq_refl) in Hf. destruct Hf as (_ & Hfo & _ & (u & Hu') & _). wp_steps.
    split; [done|]. split; [done|]. left. exists i, w. split_and!; try done. by exists u.
  - wp_steps. split; [done|]. split; [apply Hs|]. right. split; [done|]. exact Ht.
Qed.

(** [wm_queue_event] implements a queue of at most 255 events: an event is put at
    the end; a pointer move, or a turn of the wheel, is merged with the
    last event when that one is of the same kind and window; the first event
    that finds the queue full replaces the oldest by an overflow mark at the
    end, and after that a full queue drops new events. *)
Theorem wm_queue_event_refines v i w type window_id a b c d :
  vars_inv v → wm_windows v !! i = Some w → w_used w = true →
  ∃ v' w', wm_queue_event (Some i) type window_id a b c d v = Some v' ∧
    wm_windows v' = <[i := w']> (wm_windows v) ∧ vars_inv v' ∧
    queued (w_id w) (window_events w) (w_ev_overflow_latched w) (WmEvent type window_id (wm_event_tick v) a b c d)
      (window_events w') (w_ev_overflow_latched w').
Proof.
  intros Hv Hi Hu. destruct (queue_vars_spec v (Some i) type window_id a b c d Hv) as (v' & Hq & Hv' & _).
  { intros j [= <-]. by exists w. }
  destruct (queue_event_spec w (wm_event_tick v) type window_id a b c d (vi_ring v Hv i w Hi)) as (w' & t & He & _ & _ & Hqd).
  exists v', w'. split; [done|]. unfold wm_queue_event in Hq. rewrite Hi in Hq. cbn in Hq. rewrite Hu in Hq. cbn in Hq. rewrite He in Hq.
  injection Hq as <-. done.
Qed.

(** Setting a text shorter than 4096 bytes writes one byte past the field
    [text], into [has_image] behind it: a window that showed an image, with
    [has_image] 1, shows it no more. *)
Theorem wm_set_text_hides_image s id i w text :
  wm_inv s → wm_find (wm s) id = Some i → wm_windows (wm s) !! i = Some w → w_has_image w = 1 → (length text < WM_TEXT_MAX)%nat →
  wp (wm_set_text id text) (λ r s', r = 0 ∧ ∃ w', wm_windows (wm s') !! i = Some w' ∧
    w_image_pixels w' = w_image_pixels w ∧ shows_image w' = false) s.
Proof.
  intros Hs Hf Hi Hh Hl. apply with_window_spec; [by rewrite Hf|]. intros j u Hj Hju Hu Hid. rewrite Hf in Hj. injection Hj as <-.
  rewrite Hi in Hju. injection Hju as <-. cbv zeta. wp_step. apply wp_on_vars. wp_step. apply wp_on_vars. wp_steps. split; [done|].
  exists (put_text text w). cbn [wm]. destruct (mark_window_marks (put_text text w) (set_window i (put_text text w) (wm s)) Hu) as [[W _ _ _ _] _].
  { by destruct (vi_geo _ (wi_vars s Hs) i w Hi Hu). }
  rewrite W. split; [apply list_lookup_insert_eq; by eapply lookup_lt_Some|]. split; [done|].
  unfold shows_image, put_text, strncpy_bytes. cbn [set_w_strings w_has_image]. rewrite (proj2 (Nat.ltb_lt _ _) Hl).
  rewrite lookup_app_r by lia. rewrite lookup_replicate_2 by lia. rewrite Hh. done.
Qed.
End props.

(** ** A desktop *)

Section demo.
#[local] Existing Instance demo_layout.
#[local] Existing Instance demo_layout_ok.
#[local] Existing Instance demo_mmio.
#[local] Existing Instance demo_gpu_device.
#[local] Existing Instance demo_places.

(** The variables at boot. *)
Definition boot_wm : wm_vars :=
  WmVars (replicate WM_MAX_WINDOWS zero_window) 1 1 WM_TEXT_SCREEN_W WM_TEXT_SCREEN_H 0 0 false 0 0 false
    (DirtyRect false 0 0 0 0) (DirtyRect false 0 0 0 0).
Definition boot_desktop : wm_state alloc_state (vg_state demo_dev) := WmState boot_wm (boot_alloc_state ∅) boot_gpu.

Lemma boot_gpu_ok : gpu_ok (wm_pages boot_desktop) (wm_gpu boot_desktop).
Proof. exact boot_vg_inv. Qed.

Definition small_vars (v : wm_vars) : bool :=
  wm_gpu_ready v && (wm_screen_w v =? 8) && (wm_screen_h v =? 4) && (wm_cursor_x v =? 4) && (wm_cursor_y v =? 0).

Lemma demo_desktop_runs : match wm_init boot_desktop with Done (_, s) => small_vars (wm s) | _ => false end = true.
Proof. vm_compute. reflexivity. Qed.

Lemma demo_desktop :
  ∃ s, wm_init boot_desktop = Done (tt, s) ∧ wm_inv s ∧ wm_gpu_ready (wm s) = true ∧ wm_screen_w (wm s) = 8 ∧ wm_screen_h (wm s) = 4 ∧
    cursor_ok (wm s) ∧ wm_next_id (wm s) = 1 ∧ wm_next_z (wm s) = 1 ∧ wm_windows (wm s) = replicate WM_MAX_WINDOWS zero_window.
Proof.
  destruct (wp_elim _ _ _ (wm_init_spec boot_desktop boot_gpu_ok eq_refl)) as ([] & s & Hrun & Hi & Hw & H1 & H2 & _).
  pose proof demo_desktop_runs as Hv. rewrite Hrun in Hv. unfold small_vars in Hv.
  apply andb_true_iff in Hv as [[[[Hr Hsw%Z.eqb_eq]%andb_true_iff Hsh%Z.eqb_eq]%andb_true_iff Hx%Z.eqb_eq]%andb_true_iff Hy%Z.eqb_eq].
  exists s. split; [exact Hrun|]. clear Hrun. split_and!; try assumption. unfold cursor_ok. rewrite Hx, Hy. by split.
Qed.


Lemma wm_render_correct_witness :
  ∃ s s' : wm_state alloc_state (vg_state demo_dev), wm_inv s ∧ wm_render s = Done (tt, s') ∧
    ∀ px py, scene_pixel (wm s') (pg_mem (wm_pages s')) px py = scene_pixel (wm s) (pg_mem (wm_pages s)) px py.
Proof.
  destruct demo_desktop as (s & _ & Hi & Hr & _ & _ & Hc & _). destruct (wm_render_correct s Hi Hr Hc) as (s' & Hrun & _ & _ & Hsc & _).
  exists s, s'. split_and!; assumption.
Defined.

Lemma wm_render_incremental_witness :
  ∃ s s1 s2 : wm_state alloc_state (vg_state demo_dev), wm_inv s ∧ wm_render s = Done (tt, s1) ∧
    wm_render (WmState (wm_mark_dirty_full (wm s)) (wm_pages s) (wm_gpu s)) = Done (tt, s2) ∧ wm_windows (wm s1) = wm_windows (wm s2).
Proof.
  destruct demo_desktop as (s & _ & Hi & Hr & _ & _ & Hc & _). destruct (wm_render_incremental s Hi Hr Hc) as (s1 & s2 & H1 & H2 & H3 & _).
  exists s, s1, s2. split_and!; assumption.
Defined.

Lemma wm_create_correct_witness :
  ∃ s : wm_state alloc_state (vg_state demo_dev), wm_inv s ∧
    wp (wm_create None 4 1) (λ r s', wm_inv s' ∧ created s 0 4 1 r s') s.
Proof.
  destruct demo_desktop as (s & _ & Hi & Hr & Hw & Hh & Hc & Hid & Hz & Hl). exists s. split; [exact Hi|].
  pose proof (wm_create_correct s None 4 1 Hi) as Ht. rewrite Hl in Ht. apply Ht. unfold op_allowed, wm_usable_h. rewrite Hw, Hr, Hh, Hid, Hz.
  split_and!; done.
Defined.

(** A window of 4 by 1 pixels under the cursor, with an image of 2 by 2. *)
Definition demo_pixels : list Z := replicate 16 7.
Definition busy_desktop : outcome (unit * wm_state alloc_state (vg_state demo_dev)) :=
  (do! wm_init in do! run_op (OpCreate None 4 1) in run_op (OpImage 1 demo_pixels 2 2)) boot_desktop.
Definition busy_check (v : wm_vars) : bool :=
  match wm_windows v !! 0%nat with
  | Some w => w_used w && (w_id w =? 1) && (w_has_image w =? 1) && (wm_next_z v <? 100)
  | None => false
  end.

Lemma busy_desktop_runs : match busy_desktop with Done (_, s) => busy_check (wm s) | _ => false end = true.
Proof. vm_compute. reflexivity. Qed.

Lemma demo_busy :
  ∃ (s : wm_state alloc_state (vg_state demo_dev)) w, wm_inv s ∧ wm_windows (wm s) !! 0%nat = Some w ∧ w_used w = true ∧ w_id w = 1 ∧
    w_has_image w = 1 ∧ wm_next_z (wm s) < 2147483647.
Proof.
  destruct demo_desktop as (s0 & Hrun & Hi & Hr & Hw & Hh & Hc & Hid & Hz & Hl).
  pose proof busy_desktop_runs as Hb. unfold busy_desktop in Hb. rewrite (kbind_done _ _ _ _ _ Hrun) in Hb. clear Hrun.
  assert (Ha : op_allowed (OpCreate None 4 1) (wm s0)).
  { unfold op_allowed, wm_usable_h. rewrite Hw, Hr, Hh, Hid, Hz. split_and!; done. }
  pose proof (run_op_inv _ s0 Hi Ha) as H1. unfold wpf in H1. unfold kbind in Hb.
  destruct (run_op (OpCreate None 4 1) s0) as [[[] s1]| | | |]; try done.
  assert (Ha1 : op_allowed (OpImage 1 demo_pixels 2 2) (wm s1)).
  { unfold op_allowed. split_and!; try done. by apply Forall_replicate. }
  pose proof (run_op_inv _ s1 H1 Ha1) as H2. unfold wpf in H2. destruct (run_op (OpImage 1 demo_pixels 2 2) s1) as [[[] s2]| | | |]; try done.
  unfold busy_check in Hb. destruct (wm_windows (wm s2) !! 0%nat) as [w|] eqn:Hw0; [|done].
  apply andb_true_iff in Hb as [[[Hu Hi1%Z.eqb_eq]%andb_true_iff Him%Z.eqb_eq]%andb_true_iff Hz2%Z.ltb_lt].
  exists s2, w. split_and!; try assumption. lia.
Qed.

Lemma wm_set_image_correct_witness :
  ∃ s : wm_state alloc_state (vg_state demo_dev), wm_inv s ∧
    match wm_set_image 1 (Some demo_pixels) 2 2 s with
    | Done (r, s') => image_set s 1 2 2 demo_pixels r s'
    | Fault => ∃ i, wm_find (wm s) 1 = Some i ∧ room_failed s i (4 * (2 * 2))
    | _ => False
    end.
Proof.
  destruct demo_busy as (s & w & Hi & _). exists s. split; [exact Hi|]. apply (wm_set_image_correct s 1 demo_pixels 2 2 Hi).
  unfold op_allowed. split_and!; try done. by apply Forall_replicate.
Defined.

Lemma click_focuses_what_is_seen_witness :
  ∃ s : wm_state alloc_state (vg_state demo_dev), wm_inv s ∧ wm_next_z (wm s) < 2147483647 ∧
    wp (mouse_event press false) (λ c s', c = true ∧ wm_core s') s.
Proof.
  destruct demo_busy as (s & w & Hi & _ & _ & _ & _ & Hz). exists s. split; [exact Hi|]. split; [exact Hz|].
  eapply wp_mono; [apply (click_focuses_what_is_seen s Hi Hz)|]. intros c s' (Hc & Hs' & _). split; assumption.
Defined.

Lemma wm_queue_event_refines_witness :
  ∃ (s : wm_state alloc_state (vg_state demo_dev)) v' w w', wm_queue_event (Some 0%nat) WM_EV_WHEEL 1 3 0 0 0 (wm s) = Some v' ∧
    queued 1 (window_events w) (w_ev_overflow_latched w) (WmEvent WM_EV_WHEEL 1 (wm_event_tick (wm s)) 3 0 0 0)
      (window_events w') (w_ev_overflow_latched w').
Proof.
  destruct demo_busy as (s & w & Hi & H0 & Hu & Hid & _ & _).
  destruct (wm_queue_event_refines (wm s) 0 w WM_EV_WHEEL 1 3 0 0 0 (wi_vars s Hi) H0 Hu) as (v' & w' & Hq & _ & _ & Hqd).
  rewrite Hid in Hqd. exists s, v', w, w'. split; assumption.
Defined.

Lemma wm_set_text_hides_image_witness :
  ∃ (s : wm_state alloc_state (vg_state demo_dev)) w, w_has_image w = 1 ∧
    wp (wm_set_text 1 [104; 105]) (λ r s', r = 0 ∧ ∃ w', wm_windows (wm s') !! 0%nat = Some w' ∧
      w_image_pixels w' = w_image_pixels w ∧ shows_image w' = false) s.
Proof.
  destruct demo_busy as (s & w & Hi & H0 & Hu & Hid & Him & _). exists s, w. split; [exact Him|].
  apply wm_set_text_hides_image; [exact Hi|by apply (wm_find_Some _ 1 0 w (wi_vars s Hi))|exact H0|exact Him|cbn; unfold WM_TEXT_MAX; lia].
Defined.
End demo.
