(* ===== verification/VirtioInputProps.v ===== *)
(** * The input driver: names, round robin, and what an interrupt passes on *)

From S2P Require Import Prelude SelSort Ring Event Virtq VirtioInput.
From Stdlib Require Import Sorted.

(** ** Names *)
Lemma match_at_iff name word rest :
  match_at name word = Some rest ↔ ∃ mid, name = mid ++ rest ∧ vi_to_lower <$> mid = word.
Proof.
  revert name. induction word as [|c word IH]; intros name; simpl.
  - split; [intros [= ->]; by exists []|]. intros (mid & -> & Hm). by apply fmap_nil_inv in Hm as ->.
  - destruct name as [|n name]; [split; [done|]; by intros ([|??] & ? & ?)|].
    destruct (Z.eqb_spec (vi_to_lower n) c) as [Hc|Hc].
    + rewrite IH. split.
      * intros (mid & -> & Hm). exists (n :: mid). split; [done|]. cbn. by rewrite Hm, Hc.
      * intros ([|m mid] & He & Hm); [done|]. injection He as <- ->. injection Hm as _ Hm. by exists mid.
    + split; [done|]. intros ([|m mid] & He & Hm); [done|]. injection He as <- _. by injection Hm.
Qed.

(** A word in a name: letter by letter up to case, with no letter before or after. *)
Definition word_at_place (prev : Z) (name word : list Z) : Prop :=
  ∃ pre mid post, name = pre ++ mid ++ post ∧ vi_to_lower <$> mid = word ∧
    vi_char_is_letter (default prev (last pre)) = false ∧ vi_char_is_letter (hd 0 post) = false.

Lemma name_loop_iff word name : word ≠ [] → ∀ prev, name_loop prev name word = true ↔ word_at_place prev name word.
Proof.
  intros Hw. induction name as [|c name IH]; intros prev; cbn [name_loop].
  { split; [done|]. intros (pre & mid & post & He & Hm & _). symmetry in He. apply app_eq_nil in He as [_ He].
    apply app_eq_nil in He as [-> _]. by destruct Hw. }
  assert (Htail : name_loop c name word = true → word_at_place prev (c :: name) word).
  { intros (pre & mid & post & -> & Hm & Hp & Hn)%IH. exists (c :: pre), mid, post. split_and!; try done.
    rewrite last_cons. by destruct (last pre). }
  assert (Hhead : word_at_place prev (c :: name) word →
    (∃ rest, match_at (c :: name) word = Some rest ∧ vi_char_is_letter prev = false ∧ vi_char_is_letter (hd 0 rest) = false) ∨
    name_loop c name word = true).
  { intros ([|x pre] & mid & post & He & Hm & Hp & Hn).
    - left. exists post. split_and!; [|done|done]. apply match_at_iff. by exists mid.
    - right. injection He as <- ->. apply IH. exists pre, mid, post. split_and!; try done. rewrite last_cons in Hp. by destruct (last pre). }
  destruct (match_at (c :: name) word) as [rest|] eqn:Hmt.
  - destruct (vi_char_is_letter prev) eqn:Hp, (vi_char_is_letter (hd 0 rest)) eqn:Hn; cbn [negb andb].
    4: { split; [|done]. intros _. apply match_at_iff in Hmt as (mid & He & Hm). by exists [], mid, rest. }
    all: split; [exact Htail|]; intros [(r & [= <-] & ? & ?)|?]%Hhead; [congruence|done].
  - split; [exact Htail|]. intros [(r & ? & _)|?]%Hhead; done.
Qed.

(** [vi_name_contains_word] finds a word exactly where it occurs in the name
    as a whole word, whatever the case of its letters: some stretch of the
    name is the word in lower case, with no letter right before or after. *)
Theorem vi_name_contains_word_correct name word :
  word ≠ [] → vi_name_contains_word name word = true ↔ word_at_place 32 name word.
Proof. intros Hw. by apply name_loop_iff. Qed.

(** ** Queues *)

(** The events a device has delivered and the driver has not taken, oldest first. *)
Definition queue_events (q : vi_queue) : list virtio_input_event :=
  (λ e, default zero_input (aget (vq_events q) (ue_id e))) <$> pending (vq_used q) (vq_last_used q).

Record queue_ok (q : vi_queue) : Prop := {
  qo_used : used_ok (vq_used q);
  qo_avail : length (va_ring (vq_avail q)) = 32%nat;
  qo_events : length (vq_events q) = 32%nat;
  qo_last : 0 ≤ vq_last_used q < 65536;
  (** The device names buffers of the queue. *)
  qo_ids : Forall (λ e, 0 ≤ ue_id e < 32) (pending (vq_used q) (vq_last_used q));
}.

Section driver.
Context {D : Type} {VD : ViDevice D} {VP : ViPlaces}.
Implicit Types s : vi_state D.

Record vi_ok s : Prop := {
  vo_len : length (vi_queues s) = 4%nat;
  vo_count : 0 ≤ vi_dev_count s ≤ 4;
  vo_rr : 0 < vi_dev_count s → 0 ≤ vi_rr_next s < vi_dev_count s;
  vo_queues : ∀ d q, vi_queues s !! d = Some q → (d < Z.to_nat (vi_dev_count s))%nat → queue_ok q;
}.

Definition events_of s (d : nat) : list virtio_input_event :=
  match vi_queues s !! d with Some q => queue_events q | None => [] end.

(** An event of device [d] is taken: its buffer goes back to the device, and the
    next round starts behind [d]. *)
Record taken s (d : nat) s' : Prop := {
  tk_events : ∀ d', events_of s' d' = if decide (d' = d) then tail (events_of s d') else events_of s d';
  tk_rr : vi_rr_next s' = (Z.of_nat d + 1) mod vi_dev_count s;
  tk_count : vi_dev_count s' = vi_dev_count s;
  tk_returned : ∀ q q', vi_queues s !! d = Some q → vi_queues s' !! d = Some q' →
    va_idx (vq_avail q') = wrap16 (va_idx (vq_avail q) + 1) ∧
    aget (va_ring (vq_avail q')) (va_idx (vq_avail q) mod 32) = Some (ue_id (used_at (vq_used q) (vq_last_used q)));
}.

Lemma queue_take q :
  queue_ok q → vq_last_used q ≠ vu_idx (vq_used q) →
  let id := ue_id (used_at (vq_used q) (vq_last_used q)) in
  let q' := ViQueue (vq_desc q) (avail_push id (vq_avail q)) (vq_used q) (vq_events q) (vq_base q) (wrap16 (vq_last_used q + 1)) in
  queue_ok q' ∧ 0 ≤ id < 32 ∧ queue_events q = default zero_input (aget (vq_events q) id) :: queue_events q'.
Proof.
  intros [Q1 Q2 Q3 Q4 Q5] Hne id q'. pose proof (pending_pop _ _ Q1 Q4 Hne) as Hp. rewrite Hp in Q5.
  apply Forall_cons in Q5 as [Hid Hrest]. split; [|split; [done|]].
  - split; cbn; try done; [by rewrite length_aset|]. unfold wrap16. apply Z.mod_pos_bound. lia.
  - unfold queue_events. rewrite Hp. done.
Qed.

Lemma fetch_round_spec s : vi_ok s → 0 < vi_dev_count s → ∀ ns,
  (∀ n, n ∈ ns → events_of s (Z.to_nat ((vi_rr_next s + n) mod vi_dev_count s)) = []) ∧ fetch_round ns s = (None, s) ∨
  ∃ ns1 n ns2 ev s', ns = ns1 ++ n :: ns2 ∧
    (∀ m, m ∈ ns1 → events_of s (Z.to_nat ((vi_rr_next s + m) mod vi_dev_count s)) = []) ∧
    let d := Z.to_nat ((vi_rr_next s + n) mod vi_dev_count s) in
    fetch_round ns s = (Some (d, ev), s') ∧ head (events_of s d) = Some ev ∧ taken s d s' ∧ vi_ok s'.
Proof.
  intros Hs Hc. pose proof Hs as [V1 V2 V3 V4]. induction ns as [|n ns IH]; cbn [fetch_round].
  { left. split; [|done]. by intros n Hn%elem_of_nil. }
  set (d := Z.to_nat ((vi_rr_next s + n) mod vi_dev_count s)).
  assert (Hd : (d < Z.to_nat (vi_dev_count s))%nat) by (unfold d; pose proof (Z.mod_pos_bound (vi_rr_next s + n) (vi_dev_count s)); lia).
  destruct (lookup_lt_is_Some_2 (vi_queues s) d) as [q Hq]; [lia|]. rewrite Hq. pose proof (V4 d q Hq Hd) as Hqo.
  destruct (Z.eqb_spec (vq_last_used q) (vu_idx (vq_used q))) as [He|Hne].
  - assert (Hem : events_of s d = []).
    { unfold events_of. rewrite Hq. unfold queue_events. by rewrite (proj2 (pending_empty _ _ (qo_used _ Hqo) (qo_last _ Hqo)) He). }
    destruct IH as [[Hall Hrun]|(ns1 & n' & ns2 & ev & s' & -> & Hall & Hrest)].
    + left. split; [|done]. intros m [->|Hm]%elem_of_cons; [done|by apply Hall].
    + right. exists (n :: ns1), n', ns2, ev, s'. split; [done|]. split; [|done]. intros m [->|Hm]%elem_of_cons; [done|by apply Hall].
  - destruct (queue_take q Hqo Hne) as (Hq' & Hid & Hev). cbv zeta in *. set (id := ue_id (used_at (vq_used q) (vq_last_used q))) in *.
    rewrite (proj2 (Z.leb_gt VIRTQ_NUM id)) by (unfold VIRTQ_NUM; lia).
    right. eexists [], n, ns, _, _. split; [done|]. split; [by intros m Hm%elem_of_nil|]. cbv zeta. split; [reflexivity|].
    fold d. cbn [vq_events]. split; [unfold events_of; rewrite Hq, Hev; done|].
    assert (Hlt : (d < length (vi_queues s))%nat) by (by eapply lookup_lt_Some). split.
    + split; cbn.
      * intros d'. unfold events_of. cbn. case_decide as Hdd.
        -- subst d'. rewrite list_lookup_insert_eq by done. rewrite Hq, Hev. done.
        -- by rewrite list_lookup_insert_ne by done.
      * done.
      * done.
      * intros q0 q1 H0 H1. rewrite Hq in H0. injection H0 as <-. rewrite list_lookup_insert_eq in H1 by done. injection H1 as <-. cbn.
        split; [done|]. unfold VIRTQ_NUM. rewrite aget_aset_eq; [done|]. rewrite (qo_avail _ Hqo). apply Z.mod_pos_bound. lia.
    + split; cbn; try done.
      * by rewrite length_insert.
      * intros _. apply Z.mod_pos_bound. lia.
      * intros d' q1 H1 Hd'. apply list_lookup_insert_Some in H1 as [(<- & <- & _)|[_ ?]]; [exact Hq'|by apply (V4 d')].
Qed.

(** How far device [d] is from its turn. *)
Definition turn s (d : nat) : Z := (Z.of_nat d - vi_rr_next s) mod vi_dev_count s.

Lemma turn_back s d : (d < Z.to_nat (vi_dev_count s))%nat → Z.to_nat ((vi_rr_next s + turn s d) mod vi_dev_count s) = d.
Proof.
  intros Hd. unfold turn. rewrite Zplus_mod_idemp_r. replace (vi_rr_next s + (Z.of_nat d - vi_rr_next s)) with (Z.of_nat d) by lia.
  rewrite Z.mod_small by lia. lia.
Qed.

Lemma vi_fetch_spec s :
  vi_ok s →
  match vi_fetch_one_event s with
  | (None, s') => s' = s ∧ ∀ d, (d < Z.to_nat (vi_dev_count s))%nat → events_of s d = []
  | (Some (d, ev), s') => (d < Z.to_nat (vi_dev_count s))%nat ∧ head (events_of s d) = Some ev ∧ taken s d s' ∧ vi_ok s' ∧
      ∀ d', (d' < Z.to_nat (vi_dev_count s))%nat → turn s d' < turn s d → events_of s d' = []
  end.
Proof.
  intros Hs. pose proof Hs as [V1 V2 V3 V4]. unfold vi_fetch_one_event. destruct (Z.leb_spec (vi_dev_count s) 0) as [Hc|Hc].
  { split; [done|]. intros d Hd. lia. }
  specialize (V3 Hc). set (c := vi_dev_count s) in *.
  pose proof (turn_back s) as Hat. fold c in Hat.
  assert (Hturn : ∀ d, 0 ≤ turn s d < c) by (intros d; apply Z.mod_pos_bound; lia).
  destruct (fetch_round_spec s Hs Hc (seqZ 0 c)) as [[Hall ->]|(ns1 & n & ns2 & ev & s' & Hns & Hall & Hrun & Hhd & Htk & Hok)].
  - split; [done|]. intros d Hd. rewrite <-(Hat d Hd). apply Hall, elem_of_seqZ. specialize (Hturn d). lia.
  - rewrite Hrun. fold c in Hrun, Hhd, Htk, Hall |- *. set (d := Z.to_nat ((vi_rr_next s + n) mod c)) in *.
    assert (Hlen : n = Z.of_nat (length ns1) ∧ n < c).
    { assert (Hn : seqZ 0 c !! length ns1 = Some n) by (rewrite Hns; by apply list_lookup_middle). apply lookup_seqZ in Hn. lia. }
    assert (Hd : (d < Z.to_nat c)%nat) by (unfold d; pose proof (Z.mod_pos_bound (vi_rr_next s + n) c); lia).
    split; [done|]. split; [done|]. split; [done|]. split; [done|]. intros d' Hd' Hlt.
    assert (Htn : turn s d = n).
    { unfold turn, d. fold c. rewrite Z2Nat.id by (apply Z.mod_pos_bound; lia). rewrite Zminus_mod_idemp_l.
      replace (vi_rr_next s + n - vi_rr_next s) with n by lia. apply Z.mod_small. lia. }
    rewrite <-(Hat d' Hd'). apply Hall. specialize (Hturn d').
    apply list_elem_of_lookup. exists (Z.to_nat (turn s d')).
    assert (Hl : seqZ 0 c !! Z.to_nat (turn s d') = Some (turn s d')) by (apply lookup_seqZ; lia).
    rewrite Hns, lookup_app_l in Hl by lia. done.
Qed.

(** [vi_fetch_one_event] serves the devices in turn: it takes the oldest event of
    the first device, counted from [vi_rr_next] on, that has one, gives the
    buffer back to that device and starts behind it the next time; the events
    of the others stay.  It returns nothing, and changes nothing, exactly when
    no device has an event. *)
Theorem vi_fetch_one_event_correct s :
  vi_ok s →
  match vi_fetch_one_event s with
  | (None, s') => s' = s ∧ ∀ d, (d < Z.to_nat (vi_dev_count s))%nat → events_of s d = []
  | (Some (d, ev), s') => (d < Z.to_nat (vi_dev_count s))%nat ∧ head (events_of s d) = Some ev ∧ taken s d s' ∧ vi_ok s' ∧
      ∀ d', (d' < Z.to_nat (vi_dev_count s))%nat → turn s d' < turn s d → events_of s d' = []
  end.
Proof. apply vi_fetch_spec. Qed.

(** ** Fairness *)

(** Between two calls the devices may deliver more. *)
Record more s s' : Prop := {
  mo_ok : vi_ok s';
  mo_count : vi_dev_count s' = vi_dev_count s;
  mo_rr : vi_rr_next s' = vi_rr_next s;
  mo_events : ∀ d, events_of s d `prefix_of` events_of s' d;
}.

(** [k] calls with arrivals before each, and the devices served. *)
Inductive rounds : nat → vi_state D → list nat → vi_state D → Prop :=
| RoundsEnd s : rounds 0 s [] s
| RoundsServe k s s1 d ev s2 l s3 :
    more s s1 → vi_fetch_one_event s1 = (Some (d, ev), s2) → rounds k s2 l s3 → rounds (S k) s (d :: l) s3
| RoundsNone k s s1 s2 l s3 :
    more s s1 → vi_fetch_one_event s1 = (None, s2) → rounds k s2 l s3 → rounds (S k) s l s3.

Lemma turn_after s d d0 c :
  vi_dev_count s = c → 0 < c → (d < Z.to_nat c)%nat → (d0 < Z.to_nat c)%nat → 0 ≤ vi_rr_next s < c → turn s d0 < turn s d →
  (Z.of_nat d - (Z.of_nat d0 + 1) mod c) mod c = turn s d - turn s d0 - 1.
Proof.
  intros Hc Hpos Hd Hd0 Hrr. unfold turn. rewrite Hc. intros Hlt.
  rewrite Zminus_mod_idemp_r.
  pose proof (Z.mod_pos_bound (Z.of_nat d - vi_rr_next s) c Hpos). pose proof (Z.mod_pos_bound (Z.of_nat d0 - vi_rr_next s) c Hpos).
  pose proof (Z.div_mod (Z.of_nat d - vi_rr_next s) c ltac:(lia)). pose proof (Z.div_mod (Z.of_nat d0 - vi_rr_next s) c ltac:(lia)).
  rewrite <-(Z.mod_small ((Z.of_nat d - vi_rr_next s) mod c - (Z.of_nat d0 - vi_rr_next s) mod c - 1) c) by lia.
  rewrite (Z.mod_eq (Z.of_nat d - vi_rr_next s)), (Z.mod_eq (Z.of_nat d0 - vi_rr_next s)) by lia.
  replace (Z.of_nat d - vi_rr_next s - c * ((Z.of_nat d - vi_rr_next s) / c) - (Z.of_nat d0 - vi_rr_next s - c * ((Z.of_nat d0 - vi_rr_next s) / c)) - 1)
    with (Z.of_nat d - (Z.of_nat d0 + 1) + ((Z.of_nat d0 - vi_rr_next s) / c - (Z.of_nat d - vi_rr_next s) / c) * c) by lia.
  by rewrite Z.mod_add by lia.
Qed.

Lemma rounds_serve d : ∀ k s l s', rounds k s l s' →
  vi_ok s → (d < Z.to_nat (vi_dev_count s))%nat → events_of s d ≠ [] → turn s d < k → d ∈ l.
Proof.
  intros k s l s' Hr. induction Hr as [s|k s s1 d0 ev s2 l s3 [Hok1 Hc1 Hrr1 Hev1] Hf Hr IH|k s s1 s2 l s3 [Hok1 Hc1 Hrr1 Hev1] Hf Hr IH];
    intros Hs Hd Hne Ht.
  - pose proof (Z.mod_pos_bound (Z.of_nat d - vi_rr_next s) (vi_dev_count s)). unfold turn in Ht. lia.
  - pose proof (vi_fetch_spec s1 Hok1) as Hfs. rewrite Hf, Hc1 in Hfs. destruct Hfs as (Hd0 & _ & [Tev Trr Tc _] & Hok2 & Hfirst).
    destruct (decide (d0 = d)) as [->|Hn]; [left|right].
    assert (Hne1 : events_of s1 d ≠ []). { destruct (Hev1 d) as [tl Htl]. rewrite Htl. by destruct (events_of s d). }
    assert (Hturn : turn s1 d = turn s d) by (unfold turn; by rewrite Hc1, Hrr1).
    pose proof (vo_rr _ Hs ltac:(lia)) as Hrr.
    assert (Hlt : turn s1 d0 < turn s1 d).
    { destruct (Z.lt_trichotomy (turn s1 d0) (turn s1 d)) as [?|[He|Hgt]]; [done| |].
      - exfalso. apply Hn. rewrite <-(turn_back s1 d0), <-(turn_back s1 d), He by (by rewrite Hc1). done.
      - exfalso. apply Hne1. by apply Hfirst. }
    apply IH; [done|by rewrite Tc, Hc1| |].
    + rewrite Tev, decide_False by done. done.
    + unfold turn at 1. rewrite Trr, Tc, Hc1. rewrite (turn_after s1 d d0 (vi_dev_count s)); [|done|lia|done|done|by rewrite Hrr1|done].
      assert (0 ≤ turn s1 d0) by (apply Z.mod_pos_bound; lia). lia.
  - pose proof (vi_fetch_spec s1 Hok1) as Hfs. rewrite Hf, Hc1 in Hfs. destruct Hfs as [_ Hem]. exfalso.
    destruct (Hev1 d) as [tl Htl]. rewrite Hem in Htl by done. by destruct (events_of s d).
Qed.

(** No device starves: one that has an event waiting is served within as many
    calls of [vi_fetch_one_event] as there are devices, whatever the others
    deliver in the meantime. *)
Theorem vi_fetch_fair s d l s' :
  vi_ok s → (d < Z.to_nat (vi_dev_count s))%nat → events_of s d ≠ [] →
  rounds (Z.to_nat (vi_dev_count s)) s l s' → d ∈ l.
Proof.
  intros Hs Hd Hne Hr. eapply rounds_serve; [done|done|done|done|]. destruct (vo_count s Hs).
  pose proof (Z.mod_pos_bound (Z.of_nat d - vi_rr_next s) (vi_dev_count s)). unfold turn. lia.
Qed.

(** ** The interrupt *)
Lemma sum_pop (f f' : nat → nat) d l : NoDup l → d ∈ l → f d = S (f' d) → (∀ x, x ≠ d → f' x = f x) →
  sum_list_with f l = S (sum_list_with f' l).
Proof.
  intros Hnd Hd Hfd Hf. induction Hnd as [|x l Hx Hnd IH]; [by apply elem_of_nil in Hd|]. simpl. apply elem_of_cons in Hd as [->|Hd].
  - rewrite Hfd. assert (Hs : sum_list_with f' l = sum_list_with f l); [|lia]. clear IH. induction l as [|y l IHl]; [done|].
    apply not_elem_of_cons in Hx as [Hxy Hx]. apply NoDup_cons in Hnd as [_ Hnd]. simpl. rewrite IHl, Hf by done. done.
  - rewrite IH, (Hf x) by (done || congruence). lia.
Qed.

Lemma ring_total_events s : vi_ok s → ring_total s = sum_list_with (λ d, length (events_of s d)) (seq 0 (Z.to_nat (vi_dev_count s))).
Proof.
  intros Hs. unfold ring_total. generalize (seq 0 (Z.to_nat (vi_dev_count s))). intros l. induction l as [|d l IH]; [done|]. simpl. rewrite IH. f_equal.
  unfold events_of. destruct (vi_queues s !! d) as [q|]; [|done]. unfold queue_events, pending. by rewrite length_fmap, length_fmap, length_seqZ.
Qed.

(** The events of device [d] in a log. *)
Definition log_of (d : nat) (log : list (nat * virtio_input_event)) : list virtio_input_event :=
  snd <$> filter (λ p, p.1 = d) log.
Definition push_event (a : event_spec) (p : nat * virtio_input_event) : event_spec :=
  spec_push KEVENT_TYPE_INPUT (vi_type p.2) (vi_code p.2) (vi_value p.2) 0 a.

(** Every event of every device is passed on, in its order. *)
Record forwarded (k : kevent_state) s (log : list (nat * virtio_input_event)) (k' : kevent_state) s' : Prop := {
  fw_log : ∀ d, (d < Z.to_nat (vi_dev_count s))%nat → log_of d log = events_of s d;
  fw_devices : Forall (λ p, p.1 < Z.to_nat (vi_dev_count s))%nat log;
  fw_empty : ∀ d, (d < Z.to_nat (vi_dev_count s))%nat → events_of s' d = [];
  fw_pushed : event_abs k' = foldl push_event (event_abs k) log;
  fw_ok : vi_ok s' ∧ kevent_ok k';
  fw_count : vi_dev_count s' = vi_dev_count s;
}.

Lemma forward_events_spec fuel : ∀ k s,
  vi_ok s → kevent_ok k → (ring_total s < fuel)%nat →
  wp (forward_events fuel) (λ log st', forwarded k s log st'.1 st'.2) (k, s).
Proof.
  induction fuel as [|fuel IH]; intros k s Hs Hk Hf; [lia|]. cbn [forward_events]. wp_step. wp_step. cbn [snd].
  pose proof (vi_fetch_spec s Hs) as Hfs. destruct (vi_fetch_one_event s) as [[[d ev]|] s1].
  - destruct Hfs as (Hd & Hhd & [Tev Trr Tc _] & Hok1 & _). wp_step. wp_step. cbn [fst]. wp_step.
    apply (wp_zoom fst (λ (k : kevent_state) (st : kevent_state * vi_state D), (k, st.2))). cbn [fst snd].
    eapply wp_mono; [by apply kevent_push_spec|]. intros _ k1 (_ & Hk1 & Habs). wp_step.
    assert (Htot : ring_total s = S (ring_total s1)).
    { rewrite !ring_total_events, Tc by done. apply (sum_pop _ _ d); [apply NoDup_seq|apply elem_of_seq; lia| |].
      - cbn. rewrite Tev, decide_True by done. by destruct (events_of s d).
      - intros x Hx. cbn. by rewrite Tev, decide_False. }
    eapply wp_mono; [apply IH; [done|done|lia]|]. intros log [k2 s2] [F1 F0 F2 F3 F4 F5]. cbn [fst snd] in *. rewrite Tc in F1, F0, F2, F5. wp_steps. split; try done.
    + intros d' Hd'. cbn [fst snd]. unfold log_of. rewrite filter_cons. cbn [fst]. specialize (F1 d' Hd'). unfold log_of in F1.
      case_decide as Hdd; [|by rewrite F1, Tev, decide_False].
      subst d'. rewrite fmap_cons, F1, Tev, decide_True by done. cbn [snd]. destruct (events_of s d); [done|]. by injection Hhd as ->.
    + by constructor.
    + cbn [foldl fst]. rewrite F3, Habs. done.
  - destruct Hfs as [-> Hem]. wp_step. wp_step. wp_steps. cbn [fst snd]. split; try done. intros d Hd. by rewrite Hem.
Qed.

(** Acknowledging changes registers only. *)
Lemma ack_devices_only devs : ∀ s, ∃ dv, ack_devices devs s = set_vi_dev dv s.
Proof.
  induction devs as [|d devs IH]; intros s; cbn [ack_devices]; [exists (vi_dev s); by destruct s|].
  destruct (_ =? 0); [apply IH|]. unfold vi_mmio_read. destruct (mmio_read _ _) as [v dv].
  destruct (wrap32 v =? 0).
  - destruct (IH (set_vi_dev dv s)) as [dv' ->]. by exists dv'.
  - destruct (IH (vi_mmio_write (vq_base (default zero_queue (vi_queues s !! d))) MMIO_INTERRUPT_ACK (wrap32 v) (set_vi_dev dv s))) as [dv' ->]. by exists dv'.
Qed.

(** C40: With well-formed rings and a well-formed event queue an input interrupt
    passes on everything the devices have delivered by then, and nothing else:
    the loop ends, the events it pushes are, device by device, those on the
    device's ring in the order they came, none is left on the rings, and the
    event queue is what pushing them one by one, as a first-in first-out buffer
    that drops its oldest entry when full, makes of it.  Rings and queue stay
    well formed. *)
Theorem virtio_input_handle_irq_correct k s :
  vi_ok s → kevent_ok k →
  wp virtio_input_handle_irq (λ log st', forwarded k s log st'.1 st'.2) (k, s).
Proof.
  intros Hs Hk. unfold virtio_input_handle_irq. wp_step. wp_step. wp_step. wp_step. cbn [fst snd].
  destruct (ack_devices_only (seq 0 (Z.to_nat (vi_dev_count s))) s) as [dv ->].
  eapply wp_mono; [apply forward_events_spec; [by destruct Hs|done|lia]|]. intros log [k' s'] [F1 F0 F2 F3 F4 F5]. by split.
Qed.

(** A delivery adds the event at the end of its queue, if the device uses a
    buffer it holds and the ring has room. *)
Lemma vi_arrive_spec s d q id ev :
  vi_ok s → (d < Z.to_nat (vi_dev_count s))%nat → vi_queues s !! d = Some q → 0 ≤ id < 32 →
  Forall (λ e, ue_id e ≠ id) (pending (vq_used q) (vq_last_used q)) → pending_count (vq_used q) (vq_last_used q) < 32 →
  more s (vi_arrive d id ev s) ∧ events_of (vi_arrive d id ev s) d = events_of s d ++ [ev].
Proof.
  intros [V1 V2 V3 V4] Hd Hq Hid Hfresh Hroom. destruct (V4 d q Hq Hd) as [Q1 Q2 Q3 Q4 Q5]. unfold vi_arrive. rewrite Hq.
  set (q' := ViQueue _ _ _ _ _ _). assert (Hlt : (d < length (vi_queues s))%nat) by (by eapply lookup_lt_Some).
  assert (Hev : queue_events q' = queue_events q ++ [ev]).
  { unfold queue_events. cbn [vq_used vq_last_used vq_events q']. rewrite pending_push, fmap_app by done. f_equal.
    - apply list_fmap_ext. intros i e He. rewrite aget_aset_ne; [done|]. rewrite list.Forall_forall in Hfresh.
      intros ->. by apply (Hfresh e); [eapply list_elem_of_lookup_2|].
    - cbn. rewrite aget_aset_eq by lia. done. }
  assert (Hsame : ∀ d', events_of (set_vi_queue d q' s) d' = if decide (d' = d) then events_of s d' ++ [ev] else events_of s d').
  { intros d'. unfold events_of. cbn. case_decide as Hdd; [subst d'; by rewrite list_lookup_insert_eq, Hq by done|by rewrite list_lookup_insert_ne]. }
  split; [split|by rewrite Hsame, decide_True by done]; try done.
  - split; cbn; try done; [by rewrite length_insert|]. intros d' q1 H1 Hd'. apply list_lookup_insert_Some in H1 as [(<- & <- & _)|[_ ?]]; [|by apply (V4 d')].
    split; cbn; try done; [by apply used_push_ok|by rewrite length_aset|]. rewrite pending_push by done. apply Forall_app. split; [done|]. by apply Forall_singleton.
  - intros d'. rewrite Hsame. case_decide; [by apply prefix_app_r|done].
Qed.

(** ** Initialisation *)

(** Registers only. *)
Definition regs s s' : Prop := ∃ dv, s' = set_vi_dev dv s.
#[local] Instance regs_po : PreOrder regs.
Proof. split; [intros s; exists (vi_dev s); by destruct s|]. intros s1 s2 s3 [d1 ->] [d2 ->]. by exists d2. Qed.

Lemma vi_write_regs base off v s : regs s (vi_mmio_write base off v s).
Proof. by eexists. Qed.

Lemma vi_read_regs base off s : regs s (vi_mmio_read base off s).2.
Proof. unfold vi_mmio_read. destruct (mmio_read _ _) as [v dv]. by exists dv. Qed.

Lemma regs_set_queue dev q s s' : regs s s' → regs (set_vi_queue dev q s) (set_vi_queue dev q s').
Proof. intros [dv ->]. by exists dv. Qed.

Lemma set_queue_twice dev q q' s : set_vi_queue dev q (set_vi_queue dev q' s) = set_vi_queue dev q s.
Proof. unfold set_vi_queue. cbn. by rewrite list_insert_insert_eq. Qed.

Ltac regs_chain := repeat first [reflexivity | (etrans; [|apply vi_write_regs])].

(** A queue after set-up: nothing delivered, every buffer with the device. *)
Definition fresh_queue (dev : nat) (base : Z) (q : vi_queue) : Prop :=
  vq_base q = base ∧ queue_ok q ∧ queue_events q = [] ∧
  va_idx (vq_avail q) = 32 ∧ va_ring (vq_avail q) = seqZ 0 32 ∧
  ∀ i, 0 ≤ i < 32 → aget (vq_desc q) i = Some (VirtqDesc (vi_event_at (Z.of_nat dev) i) 8 VIRTQ_DESC_F_WRITE 0).

Lemma offered_fresh dev base base0 last0 :
  let q := offer_buffers (Z.of_nat dev) (ViQueue (replicate 32 zero_desc) zero_avail zero_used (replicate 32 zero_input) base0 last0) in
  fresh_queue dev base (ViQueue (vq_desc q) (vq_avail q) (vq_used q) (vq_events q) base 0).
Proof.
  intros q. split; [done|]. split; [|split; [done|split; [done|split; [done|]]]].
  - split; [split; [vm_compute; done|vm_compute; done]|vm_compute; done|vm_compute; done|vm_compute; done|vm_compute; constructor].
  - intros i Hi. assert (Hin : i ∈ seqZ 0 32) by (apply elem_of_seqZ; lia).
    cbn in Hin. repeat (apply elem_of_cons in Hin as [->|Hin]; [reflexivity|]). by apply elem_of_nil in Hin.
Qed.

Lemma vi_init_one_spec dev base s :
  (dev < length (vi_queues s))%nat →
  let r := vi_init_one_device dev base s in
  (r.1 = -1 ∧ regs s r.2) ∨ (r.1 = 0 ∧ ∃ q, fresh_queue dev base q ∧ regs (set_vi_queue dev q s) r.2).
Proof.
  intros Hdev. unfold vi_init_one_device. cbv zeta.
  set (s1 := vi_mmio_write base MMIO_DEVICE_FEATURES_SEL 0 _). assert (H1 : regs s s1) by (unfold s1; regs_chain).
  pose proof (vi_read_regs base MMIO_DEVICE_FEATURES s1) as H2. destruct (vi_mmio_read _ _ s1) as [lo s2]. cbn [snd] in H2.
  pose proof (vi_read_regs base MMIO_DEVICE_FEATURES (vi_mmio_write base MMIO_DEVICE_FEATURES_SEL 1 s2)) as H3.
  destruct (vi_mmio_read _ _ (vi_mmio_write _ _ 1 s2)) as [hi s3]. cbn [snd] in H3.
  assert (H03 : regs s s3) by (etrans; [exact H1|]; etrans; [exact H2|]; etrans; [apply vi_write_regs|exact H3]).
  destruct (negb _); [by left|].
  match goal with |- context [vi_mmio_read base MMIO_STATUS ?x] => set (s4 := x) end.
  assert (H4 : regs s s4) by (etrans; [exact H03|]; unfold s4; regs_chain).
  pose proof (vi_read_regs base MMIO_STATUS s4) as H5. destruct (vi_mmio_read _ _ s4) as [status s5]. cbn [snd] in H5.
  assert (H05 : regs s s5) by (by etrans). destruct (_ =? 0); [by left|].
  pose proof (vi_read_regs base MMIO_QUEUE_NUM_MAX (vi_mmio_write base MMIO_QUEUE_SEL 0 s5)) as H6.
  destruct (vi_mmio_read _ _ (vi_mmio_write _ _ 0 s5)) as [qmax s6]. cbn [snd] in H6.
  assert (H06 : regs s s6) by (etrans; [exact H05|]; etrans; [apply vi_write_regs|exact H6]). destruct (qmax <? VIRTQ_NUM); [by left|].
  right. split; [done|]. destruct (lookup_lt_is_Some_2 (vi_queues s) dev Hdev) as [q0 Hq0]. destruct H06 as [dv ->].
  cbn [snd]. set (s7 := vi_mmio_write base MMIO_QUEUE_NUM VIRTQ_NUM (set_vi_dev dv s)). assert (H7 : regs s s7) by (by eexists).
  change (vi_queues s7) with (vi_queues s). clearbody s7. rewrite Hq0. cbn [default from_option id].
  generalize (offered_fresh dev base (vq_base q0) (vq_last_used q0)). cbv zeta.
  generalize (offer_buffers (Z.of_nat dev) (ViQueue (replicate 32 zero_desc) zero_avail zero_used (replicate 32 zero_input) (vq_base q0) (vq_last_used q0))).
  intros q Hf. exists (ViQueue (vq_desc q) (vq_avail q) (vq_used q) (vq_events q) base 0). split; [exact Hf|].
  match goal with |- regs _ (set_vi_queue dev _ ?x) => assert (Hx : regs (set_vi_queue dev q s7) x) by regs_chain end.
  apply (regs_set_queue dev (ViQueue (vq_desc q) (vq_avail q) (vq_used q) (vq_events q) base 0)) in Hx. rewrite set_queue_twice in Hx.
  etrans; [|exact Hx]. by apply regs_set_queue.
Qed.

Lemma find_candidates_regs slots : ∀ cand s,
  let r := find_candidates slots cand s in regs s r.2 ∧ (length cand ≤ 4 → length r.1 ≤ 4)%nat.
Proof.
  induction slots as [|i slots IH]; intros cand s; cbn [find_candidates]; [done|].
  pose proof (vi_read_regs (slot_base i) MMIO_MAGIC_VALUE s) as H1. destruct (vi_mmio_read _ _ s) as [magic s1]. cbn [snd] in H1.
  pose proof (vi_read_regs (slot_base i) MMIO_VERSION s1) as H2. destruct (vi_mmio_read _ _ s1) as [version s2]. cbn [snd] in H2.
  pose proof (vi_read_regs (slot_base i) MMIO_DEVICE_ID s2) as H3. destruct (vi_mmio_read _ _ s2) as [dev s3]. cbn [snd] in H3.
  assert (H03 : regs s s3) by (etrans; [exact H1|]; by etrans). destruct (negb _).
  { destruct (IH cand s3) as [Hr Hl]. split; [by etrans|done]. }
  assert (Hname : regs s3 (vi_read_device_name (slot_base i) 64 s3).2).
  { unfold vi_read_device_name. cbn [Z.leb Z.compare]. cbv zeta.
    set (sa := vi_mmio_write _ VI_MMIO_CONFIG_SUBSEL 0 _). assert (Ha : regs s3 sa) by (unfold sa; regs_chain).
    pose proof (vi_read_regs (slot_base i) VI_MMIO_CONFIG_SIZE sa) as Hb. destruct (vi_mmio_read _ _ sa) as [size sb]. cbn [snd] in Hb.
    assert (Hab : regs s3 sb) by (by etrans). destruct (size =? 0); [done|].
    assert (Hrd : ∀ n a st, regs st (read_name n a st).2).
    { induction n as [|n IHn]; intros a st; cbn [read_name]; [done|]. destruct (vid_byte a (vi_dev st)) as [c dv].
      assert (Hst : regs st (set_vi_dev dv st)) by (by exists dv). destruct (_ =? 0); [done|].
      specialize (IHn (a + 1) (set_vi_dev dv st)). destruct (read_name n _ _) as [l st']. cbn [snd] in *. by etrans. }
    match goal with |- context [read_name ?n ?a sb] => specialize (Hrd n a sb); destruct (read_name n a sb) as [l sc] end. cbn [snd] in *. by etrans. }
  destruct (vi_read_device_name _ _ s3) as [name s4]. cbn [snd] in Hname.
  set (cand' := if (length cand <? VI_MAX_DEVICES)%nat then _ else _). destruct (IH cand' s4) as [Hr Hl]. split.
  - etrans; [exact H03|]. by etrans.
  - intros Hc. apply Hl. unfold cand'. destruct (Nat.ltb_spec (length cand) VI_MAX_DEVICES); [|done]. rewrite length_app. cbn. unfold VI_MAX_DEVICES in *. lia.
Qed.

#[local] Existing Instance vi_candidate_inhabited.

(** The devices taken so far: fresh queues, in the order of [used]. *)
Definition started s (used : list Z) : Prop :=
  length (vi_queues s) = 4%nat ∧ vi_rr_next s = 0 ∧ vi_dev_count s = length used ∧ (length used ≤ 4)%nat ∧
  ∀ d base, used !! d = Some base → ∃ q, vi_queues s !! d = Some q ∧ fresh_queue d base q.

Lemma init_candidates_spec cand : ∀ s used, started s used →
  ∃ used', started (init_candidates cand s) (used ++ used') ∧ used' `sublist_of` (vc_base <$> cand).
Proof.
  induction cand as [|c cand IH]; intros s used Hst; cbn [init_candidates].
  { exists []. rewrite app_nil_r. done. }
  pose proof Hst as (Hl & Hrr & Hc & Hmax & Hq). destruct (Z.ltb_spec (vi_dev_count s) 4) as [Hlt|Hge].
  2: { exists []. rewrite app_nil_r. split; [done|]. apply sublist_nil_l. }
  rewrite Hc, Nat2Z.id. destruct (vi_init_one_spec (length used) (vc_base c) s) as [[Hr [dv Hs']]|[Hr (q & Hfr & [dv Hs'])]]; [lia| |];
    destruct (vi_init_one_device _ _ s) as [rc s']; cbn [fst snd] in *; subst rc s'; cbn [Z.eqb].
  - destruct (IH (set_vi_dev dv s) used) as (used' & H1 & H2); [done|]. exists used'. split; [done|]. cbn. by apply sublist_cons.
  - destruct (IH (ViState (<[length used := q]> (vi_queues s)) (vi_dev_count s + 1) (vi_rr_next s) (vi_ev_debug_budget s) dv) (used ++ [vc_base c])) as (used' & H1 & H2).
    { split_and!; cbn; try done; try (rewrite ?length_insert, ?length_app; cbn; lia).
      intros d base Hd. apply lookup_snoc_Some in Hd as [[Hd Hb]|[-> <-]].
      - destruct (Hq d base Hb) as (q' & Hq' & Hf'). exists q'. by rewrite list_lookup_insert_ne by lia.
      - exists q. rewrite list_lookup_insert_eq by lia. done. }
    exists (vc_base c :: used'). split; [by rewrite <-app_assoc in H1|]. cbn. by apply sublist_skip.
Qed.

(** [virtio_input_init] takes at most four of the input devices it finds, mice
    and tablets before keyboards before others, and returns 0 exactly when it
    has one.  Each device it takes starts with an empty used ring and all 32
    buffers offered, and the state is one in which events can be fetched. *)
Theorem virtio_input_init_correct s :
  length (vi_queues s) = 4%nat →
  let '(rc, s') := virtio_input_init s in
  (rc = 0 ∧ 0 < vi_dev_count s' ∨ rc = -1 ∧ vi_dev_count s' = 0) ∧ vi_ok s' ∧
  ∃ (cand : list vi_candidate) (used : list Z), StronglySorted (key_le vc_score) cand ∧ (length cand ≤ 4)%nat ∧
    used `sublist_of` (vc_base <$> cand) ∧ vi_dev_count s' = length used ∧
    ∀ d base, used !! d = Some base → ∃ q, vi_queues s' !! d = Some q ∧ fresh_queue d base q.
Proof.
  intros Hl. unfold virtio_input_init. cbv zeta. set (s0 := ViState _ 0 0 _ _).
  destruct (find_candidates_regs (seqZ 0 8) [] s0) as [[dv Hs1] Hlen]. destruct (find_candidates _ _ s0) as [cand s1]. cbn [fst snd] in *. subst s1.
  destruct (selection_sort_spec vc_score cand) as [Hperm Hsort].
  destruct (init_candidates_spec (selection_sort vc_score cand) (set_vi_dev dv s0) []) as (used & Hst & Hsub).
  { split_and!; cbn; try done; [by rewrite length_fmap|lia]. }
  cbn [app] in Hst. destruct Hst as (L1 & L2 & L3 & L4 & L5). set (s' := init_candidates _ _) in *. clearbody s'. split; [|split].
  - destruct (Z.ltb_spec 0 (vi_dev_count s')); [by left|right]. split; [done|lia].
  - split; [done|lia|lia|]. intros d q Hq Hd. destruct (lookup_lt_is_Some_2 used d) as [base Hb]; [lia|].
    destruct (L5 d base Hb) as (q' & Hq' & Hf). rewrite Hq in Hq'. injection Hq' as <-. apply Hf.
  - exists (selection_sort vc_score cand), used. split_and!; try done. rewrite (Permutation_length Hperm). by apply Hlen; cbn; lia.
Qed.
End driver.

(** ** Two devices: a mouse in slot 1 and a keyboard in slot 0 *)
Section demo.

Definition demo_name (slot : Z) : list Z :=
  if slot =? 0 then [75; 101; 121; 98; 111; 97; 114; 100] else if slot =? 1 then [81; 32; 77; 111; 117; 115; 101] else [].
Definition demo_register (a : Z) : Z :=
  let slot := (a - VIRTIO_MMIO_BASE) / VIRTIO_MMIO_STEP in
  let off := (a - VIRTIO_MMIO_BASE) mod VIRTIO_MMIO_STEP in
  if 2 <=? slot then 0
  else if off =? MMIO_MAGIC_VALUE then VIRTIO_MAGIC
  else if off =? MMIO_VERSION then 2
  else if off =? MMIO_DEVICE_ID then 18
  else if off =? MMIO_DEVICE_FEATURES then 1
  else if off =? MMIO_STATUS then 11
  else if off =? MMIO_QUEUE_NUM_MAX then 64
  else if off =? VI_MMIO_CONFIG_SIZE then length (demo_name slot)
  else if off =? MMIO_INTERRUPT_STATUS then 1 else 0.
#[local] Instance demo_mmio : Mmio unit := { mmio_read a d := (demo_register a, d); mmio_write _ _ d := d }.
#[local] Instance demo_input_device : ViDevice unit := {
  vid_byte a d :=
    let slot := (a - VIRTIO_MMIO_BASE) / VIRTIO_MMIO_STEP in
    (default 0 (aget (demo_name slot) ((a - VIRTIO_MMIO_BASE) mod VIRTIO_MMIO_STEP - VI_MMIO_CONFIG_DATA)), d) }.
#[local] Instance demo_places : ViPlaces := {
  vi_desc_at d := 4096 * (1 + d); vi_avail_at d := 4096 * (5 + d); vi_used_at d := 4096 * (9 + d);
  vi_event_at d i := 4096 * (13 + d) + 8 * i }.

Definition demo_events : kevent_state := KeventState (replicate 128 zero_event) 0 0 0 0.
Definition demo_boot : vi_state unit := ViState (replicate 4 zero_queue) 0 0 0 tt.
Definition demo_button : virtio_input_event := VirtioInputEvent VI_EV_KEY VI_BTN_LEFT 1.
Definition demo_left : virtio_input_event := VirtioInputEvent VI_EV_REL VI_REL_X 4294967295.
Definition demo_key : virtio_input_event := VirtioInputEvent VI_EV_KEY 30 1.
(** The mouse has delivered two events, the keyboard one. *)
Definition demo_busy : vi_state unit :=
  vi_arrive 1 0 demo_key (vi_arrive 0 1 demo_button (vi_arrive 0 0 demo_left (virtio_input_init demo_boot).2)).

(** The mouse comes first although it is in the later slot. *)
Lemma demo_init_facts :
  (virtio_input_init demo_boot).1 = 0 ∧ vi_dev_count demo_busy = 2 ∧
  vq_base <$> take 2 (vi_queues demo_busy) = [slot_base 1; slot_base 0] ∧
  events_of demo_busy 0 = [demo_left; demo_button] ∧ events_of demo_busy 1 = [demo_key].
Proof. by vm_compute. Qed.

Lemma demo_busy_ok : vi_ok demo_busy.
Proof.
  assert (H : Forall queue_ok (take 2 (vi_queues demo_busy))).
  { vm_compute. repeat constructor; by vm_compute. }
  split; [by vm_compute|by vm_compute|by vm_compute|]. intros d q Hq Hd.
  assert (Hd2 : (d < 2)%nat) by (revert Hd; change (Z.to_nat (vi_dev_count demo_busy)) with 2%nat; done).
  rewrite list.Forall_forall in H. apply H, list_elem_of_lookup. exists d. by rewrite lookup_take_lt.
Qed.

Lemma vi_name_contains_word_correct_witness :
  word_at_place 32 [81; 32; 77; 111; 117; 115; 101] word_mouse ∧ ¬ word_at_place 32 [109; 111; 117; 115; 101; 112; 97; 100] word_mouse.
Proof.
  split.
  - apply vi_name_contains_word_correct; [done|by vm_compute].
  - rewrite <-vi_name_contains_word_correct by done. by vm_compute.
Defined.

Lemma vi_fetch_one_event_correct_witness :
  (vi_fetch_one_event demo_busy).1 = Some (0%nat, demo_left) ∧
  match vi_fetch_one_event demo_busy with (Some (d, _), s') => taken demo_busy d s' | _ => False end.
Proof.
  pose proof (vi_fetch_one_event_correct demo_busy demo_busy_ok) as H.
  assert (He : (vi_fetch_one_event demo_busy).1 = Some (0%nat, demo_left)) by (by vm_compute).
  split; [exact He|]. destruct (vi_fetch_one_event demo_busy) as [[[d ev]|] s']; [|discriminate He]. apply H.
Defined.

Lemma vi_fetch_fair_witness : ∃ l s', rounds 2 demo_busy l s' ∧ 1%nat ∈ l.
Proof.
  assert (Hr : ∃ l s', rounds 2 demo_busy l s').
  { assert (He : (vi_fetch_one_event demo_busy).1 = Some (0%nat, demo_left)) by (by vm_compute).
    pose proof (vi_fetch_spec demo_busy demo_busy_ok) as H. destruct (vi_fetch_one_event demo_busy) as [[[d ev]|] s1] eqn:E1; [|discriminate He].
    destruct H as (_ & _ & _ & Hok & _). assert (Hrefl : ∀ s : vi_state unit, vi_ok s → more s s) by (by split).
    destruct (vi_fetch_one_event s1) as [[[d' ev']|] s2] eqn:E2.
    - exists [d; d'], s2. eapply RoundsServe; [by apply Hrefl, demo_busy_ok|exact E1|].
      eapply RoundsServe; [by apply Hrefl|exact E2|constructor].
    - exists [d], s2. eapply RoundsServe; [by apply Hrefl, demo_busy_ok|exact E1|].
      eapply RoundsNone; [by apply Hrefl|exact E2|constructor]. }
  destruct Hr as (l & s' & Hr). exists l, s'. split; [exact Hr|].
  apply (vi_fetch_fair demo_busy 1 l s' demo_busy_ok); [vm_compute; lia|by vm_compute|exact Hr].
Defined.

Lemma virtio_input_handle_irq_correct_witness :
  wp virtio_input_handle_irq (λ log st', log_of 0 log = [demo_left; demo_button] ∧ log_of 1 log = [demo_key]) (demo_events, demo_busy).
Proof.
  eapply wp_mono; [apply virtio_input_handle_irq_correct; [exact demo_busy_ok|by split; [by vm_compute|]]|].
  intros log st' H. split; (rewrite (fw_log _ _ _ _ _ H); [by vm_compute|vm_compute; lia]).
Defined.

Lemma virtio_input_init_correct_witness : vi_ok (virtio_input_init demo_boot).2 ∧ (virtio_input_init demo_boot).1 = 0.
Proof.
  pose proof (virtio_input_init_correct demo_boot eq_refl) as H.
  split; [|by vm_compute]. destruct (virtio_input_init demo_boot) as [rc s']. apply H.
Defined.
End demo.
