(* ===== verification/Bytes.v ===== *)
(** * Stretches of bytes in memory

    What a device or a copy loop puts at an address, and what is read there. *)

From S2P Require Import Prelude KString.

Definition get_bytes (m : mem) (a n : Z) : list Z := rd m <$> seqZ a n.
Fixpoint put_bytes (m : mem) (a : Z) (l : list Z) : mem :=
  match l with
  | [] => m
  | b :: l' => put_bytes (wr m a b) (a + 1) l'
  end.
Definition is_bytes (l : list Z) : Prop := Forall (λ b, 0 ≤ b < 256) l.

Lemma length_get_bytes m a n : length (get_bytes m a n) = Z.to_nat n.
Proof. unfold get_bytes. by rewrite length_fmap, length_seqZ. Qed.

Lemma get_bytes_lookup m a n (k : nat) : k < n → get_bytes m a n !! k = Some (rd m (a + k)).
Proof. intros Hk. unfold get_bytes. rewrite list_lookup_fmap, lookup_seqZ_lt by lia. done. Qed.

Lemma get_bytes_ext m m' a a' n :
  (∀ k, 0 ≤ k < n → rd m (a + k) = rd m' (a' + k)) → get_bytes m a n = get_bytes m' a' n.
Proof.
  intros H. apply list_eq_same_length with (n := Z.to_nat n); [by rewrite length_get_bytes..|].
  intros i x y Hi. rewrite !get_bytes_lookup by lia. intros [= <-] [= <-]. apply H. lia.
Qed.

Lemma get_bytes_app m a n k : 0 ≤ n → 0 ≤ k → get_bytes m a (n + k) = get_bytes m a n ++ get_bytes m (a + n) k.
Proof. intros. unfold get_bytes. by rewrite seqZ_app, fmap_app by lia. Qed.

Lemma get_bytes_is m a n : is_bytes (get_bytes m a n).
Proof. apply list.Forall_forall. intros b (x & -> & _)%list_elem_of_fmap. apply rd_range. Qed.

Lemma put_bytes_out l : ∀ m a x, ¬ (a ≤ x < a + length l) → rd (put_bytes m a l) x = rd m x.
Proof.
  induction l as [|b l IH]; intros m a x Hx; cbn in *; [done|].
  rewrite IH by lia. apply rd_wr_ne. lia.
Qed.

Lemma put_bytes_in l : ∀ m a (k : nat) b, l !! k = Some b → 0 ≤ b < 256 → rd (put_bytes m a l) (a + k) = b.
Proof.
  induction l as [|b0 l IH]; intros m a k b Hk Hb; [done|]. destruct k as [|k]; cbn in *.
  - injection Hk as ->. rewrite put_bytes_out by lia. rewrite Z.add_0_r, rd_wr_eq. by apply Z.mod_small.
  - replace (a + S k) with (a + 1 + k) by lia. by apply IH.
Qed.

Lemma get_put m a l : is_bytes l → get_bytes (put_bytes m a l) a (length l) = l.
Proof.
  intros Hl. apply list_eq_same_length with (n := length l); [done|by rewrite length_get_bytes, Nat2Z.id|].
  intros i x y Hi. rewrite get_bytes_lookup by lia. intros [= <-] Hy. apply put_bytes_in; [done|].
  unfold is_bytes in Hl. rewrite list.Forall_forall in Hl. by eapply Hl, list_elem_of_lookup_2.
Qed.

Lemma get_put_ne m a l b n : b + n ≤ a ∨ a + length l ≤ b → get_bytes (put_bytes m a l) b n = get_bytes m b n.
Proof. intros H. apply get_bytes_ext. intros k Hk. apply put_bytes_out. lia. Qed.
