(* ===== verification/VirtioBlk.v ===== *)
(** * The disk driver, [src/drivers/virtio/virtio_blk.c]

    Several processes may be inside [blk_read] at once, up to eight of them with
    a request slot.  The function is cut at the points where others get the
    hart or the device works on: each critical section (under [blk_lock], with
    interrupts off, on the only hart) is one step, and so is the code between
    two of them.  The device takes requests from the available ring and
    completes them in any order, at any time between these steps; a completion
    that comes while [blk_process_used_locked] runs counts as one before it or
    after it.  [bk_mem] is the memory the buffers of the callers lie in;
    the driver's own variables are not part of it.  Messages are left out. *)

From S2P Require Import Prelude KString Bytes Virtq.

Definition VIRTIO_BLK_T_IN : Z := 0.
Definition BLK_REQ_MAX : Z := 8.

(** [struct blk_slot], with the fields of its [req] first. *)
Record blk_slot := BlkSlot {
  sl_type : Z; sl_reserved : Z; sl_sector : Z;
  sl_status : Z; sl_in_use : Z; sl_done : Z }.
Definition zero_slot : blk_slot := BlkSlot 0 0 0 0 0 0.

Record blk_state (D : Type) := BlkState {
  bk_desc : list virtq_desc; bk_avail : virtq_avail; bk_used : virtq_used;
  blk_slots : list blk_slot; used_idx : Z; blk_ready : bool; virtio_base : Z;
  (** The processes asleep on [blk_waitq]. *)
  blk_waitq : list nat;
  bk_mem : mem; bk_dev : D }.
Arguments BlkState {D} _ _ _ _ _ _ _ _ _ _.
Arguments bk_desc {D} _.
Arguments bk_avail {D} _.
Arguments bk_used {D} _.
Arguments blk_slots {D} _.
Arguments used_idx {D} _.
Arguments blk_ready {D} _.
Arguments virtio_base {D} _.
Arguments blk_waitq {D} _.
Arguments bk_mem {D} _.
Arguments bk_dev {D} _.

(** Where the linker puts the variables; a slot has 19 bytes, its status comes
    behind the 16 bytes of the request. *)
Class BlkPlaces := { blk_slots_at : Z; bk_desc_at : Z; bk_avail_at : Z; bk_used_at : Z }.
Definition BLK_SLOT_SIZE : Z := 19.

Section driver.
Context {D : Type} {MM : Mmio D} {BP : BlkPlaces}.
Implicit Types s : blk_state D.

Definition set_bk_dev (d : D) s :=
  BlkState (bk_desc s) (bk_avail s) (bk_used s) (blk_slots s) (used_idx s) (blk_ready s) (virtio_base s) (blk_waitq s) (bk_mem s) d.
Definition set_bk_base (b : Z) s :=
  BlkState (bk_desc s) (bk_avail s) (bk_used s) (blk_slots s) (used_idx s) (blk_ready s) b (blk_waitq s) (bk_mem s) (bk_dev s).
Definition set_used_idx (i : Z) s :=
  BlkState (bk_desc s) (bk_avail s) (bk_used s) (blk_slots s) i (blk_ready s) (virtio_base s) (blk_waitq s) (bk_mem s) (bk_dev s).
Definition set_blk_slots (l : list blk_slot) s :=
  BlkState (bk_desc s) (bk_avail s) (bk_used s) l (used_idx s) (blk_ready s) (virtio_base s) (blk_waitq s) (bk_mem s) (bk_dev s).
Definition set_bk_queue (desc : list virtq_desc) (avail : virtq_avail) s :=
  BlkState desc avail (bk_used s) (blk_slots s) (used_idx s) (blk_ready s) (virtio_base s) (blk_waitq s) (bk_mem s) (bk_dev s).
Definition set_blk_waitq (q : list nat) s :=
  BlkState (bk_desc s) (bk_avail s) (bk_used s) (blk_slots s) (used_idx s) (blk_ready s) (virtio_base s) q (bk_mem s) (bk_dev s).
(** What the device writes: the used ring, the status of a slot, and memory. *)
Definition set_bk_answer (u : virtq_used) (l : list blk_slot) (m : mem) s :=
  BlkState (bk_desc s) (bk_avail s) u l (used_idx s) (blk_ready s) (virtio_base s) (blk_waitq s) m (bk_dev s).

Definition blk_mmio_write (off val : Z) s : blk_state D := set_bk_dev (mmio_write (add32 (virtio_base s) off) val (bk_dev s)) s.
Definition blk_mmio_read (off : Z) s : Z * blk_state D :=
  let '(v, d) := mmio_read (add32 (virtio_base s) off) (bk_dev s) in (wrap32 v, set_bk_dev d s).

Definition blk_head_for_slot (slot_idx : Z) : Z := wrap16 (slot_idx * 3).

Definition set_done (v : Z) (sl : blk_slot) := BlkSlot (sl_type sl) (sl_reserved sl) (sl_sector sl) (sl_status sl) (sl_in_use sl) v.
Definition set_status (v : Z) (sl : blk_slot) := BlkSlot (sl_type sl) (sl_reserved sl) (sl_sector sl) v (sl_in_use sl) (sl_done sl).

(** [while (used_idx != used.idx)]; [n] bounds the rounds. *)
Fixpoint process_used (n : nat) s : blk_state D :=
  match n with
  | O => s
  | S n' =>
      if used_idx s =? vu_idx (bk_used s) then s
      else
        let head := ue_id (used_at (bk_used s) (used_idx s)) in
        let s := set_used_idx (wrap16 (used_idx s + 1)) s in
        if negb (head mod 3 =? 0) then process_used n' s
        else
          let slot_idx := head / 3 in
          if BLK_REQ_MAX <=? slot_idx then process_used n' s
          else
            match aget (blk_slots s) slot_idx with
            | None => process_used n' s
            | Some sl =>
                if sl_in_use sl =? 0 then process_used n' s
                else process_used n' (set_blk_slots (aset (blk_slots s) slot_idx (set_done 1 sl)) s)
            end
  end.
(** As many rounds as the index of the device is ahead. *)
Definition blk_process_used_locked s : blk_state D := process_used (Z.to_nat (pending_count (bk_used s) (used_idx s))) s.

(** The search of [blk_init] over the eight slots of the bus. *)
Fixpoint find_disk (slots : list Z) s : option Z * blk_state D :=
  match slots with
  | [] => (None, s)
  | i :: slots' =>
      let base := slot_base i in
      let '(magic, d) := mmio_read (add32 base MMIO_MAGIC_VALUE) (bk_dev s) in
      let '(version, d) := mmio_read (add32 base MMIO_VERSION) d in
      let '(device, d) := mmio_read (add32 base MMIO_DEVICE_ID) d in
      let s := set_bk_dev d s in
      if (wrap32 magic =? VIRTIO_MAGIC) && ((wrap32 version =? 1) || (wrap32 version =? 2)) && (wrap32 device =? 2)
      then (Some base, s) else find_disk slots' s
  end.

Definition blk_init s : Z * blk_state D :=
  let s := set_bk_base 0 s in
  match find_disk (seqZ 0 8) s with
  | (None, s) => (-1, s)
  | (Some base, s) =>
      let s := set_bk_base base s in
      let s := blk_mmio_write MMIO_STATUS 0 s in
      let s := blk_mmio_write MMIO_STATUS 1 s in
      let s := blk_mmio_write MMIO_STATUS 3 s in
      let s := blk_mmio_write MMIO_DRIVER_FEATURES_SEL 0 s in
      let s := blk_mmio_write MMIO_DRIVER_FEATURES 0 s in
      let s := blk_mmio_write MMIO_DRIVER_FEATURES_SEL 1 s in
      let s := blk_mmio_write MMIO_DRIVER_FEATURES 0 s in
      let s := blk_mmio_write MMIO_STATUS 11 s in
      let '(status, s) := blk_mmio_read MMIO_STATUS s in
      if negb (has_bits status 8) then (-1, s)
      else
        let s := blk_mmio_write MMIO_QUEUE_SEL 0 s in
        let '(qmax, s) := blk_mmio_read MMIO_QUEUE_NUM_MAX s in
        if qmax <? VIRTQ_NUM then (-1, s)
        else if VIRTQ_NUM <? BLK_REQ_MAX * 3 then (-1, s)
        else
          let s := blk_mmio_write MMIO_QUEUE_NUM VIRTQ_NUM s in
          let s := BlkState (replicate 32 zero_desc) zero_avail zero_used (blk_slots s) (used_idx s) (blk_ready s) (virtio_base s)
                     (blk_waitq s) (bk_mem s) (bk_dev s) in
          let s := blk_mmio_write MMIO_QUEUE_DESC_LOW bk_desc_at s in
          let s := blk_mmio_write MMIO_QUEUE_DESC_HIGH 0 s in
          let s := blk_mmio_write MMIO_QUEUE_DRIVER_LOW bk_avail_at s in
          let s := blk_mmio_write MMIO_QUEUE_DRIVER_HIGH 0 s in
          let s := blk_mmio_write MMIO_QUEUE_DEVICE_LOW bk_used_at s in
          let s := blk_mmio_write MMIO_QUEUE_DEVICE_HIGH 0 s in
          let s := blk_mmio_write MMIO_QUEUE_READY 1 s in
          let s := blk_mmio_write MMIO_STATUS 15 s in
          (0, BlkState (bk_desc s) (bk_avail s) (bk_used s) (replicate 8 zero_slot) 0 true (virtio_base s) [] (bk_mem s) (bk_dev s))
  end.

(** ** [blk_read], step by step *)

Fixpoint first_free (l : list blk_slot) : option nat :=
  match l with
  | [] => None
  | sl :: l' => if sl_in_use sl =? 0 then Some O else S <$> first_free l'
  end.
(** The first critical section: process what is used, and take the first free slot. *)
Definition blk_read_choose s : option nat * blk_state D :=
  let s := blk_process_used_locked s in
  match first_free (blk_slots s) with
  | Some i =>
      let sl := default zero_slot (blk_slots s !! i) in
      (Some i, set_blk_slots (<[i := BlkSlot (sl_type sl) (sl_reserved sl) (sl_sector sl) 255 1 0]> (blk_slots s)) s)
  | None => (None, s)
  end.

(** [slot->req.type = ...; slot->req.reserved = ...; slot->req.sector = ...;] *)
Definition blk_read_fill (i : nat) (sector : Z) s : blk_state D :=
  let sl := default zero_slot (blk_slots s !! i) in
  set_blk_slots (<[i := BlkSlot VIRTIO_BLK_T_IN 0 sector (sl_status sl) (sl_in_use sl) (sl_done sl)]> (blk_slots s)) s.

(** The chain of three descriptors of a slot. *)
Definition chain_req (i : nat) : virtq_desc :=
  VirtqDesc (blk_slots_at + BLK_SLOT_SIZE * i) 16 VIRTQ_DESC_F_NEXT (wrap16 (blk_head_for_slot i + 1)).
Definition chain_buf (i : nat) (buf : Z) : virtq_desc :=
  VirtqDesc buf 512 (Z.lor VIRTQ_DESC_F_NEXT VIRTQ_DESC_F_WRITE) (wrap16 (blk_head_for_slot i + 2)).
Definition chain_status (i : nat) : virtq_desc :=
  VirtqDesc (blk_slots_at + BLK_SLOT_SIZE * i + 16) 1 VIRTQ_DESC_F_WRITE 0.
(** The second critical section: describe the request and pass it to the device. *)
Definition blk_read_submit (i : nat) (buf : Z) s : blk_state D :=
  let head := blk_head_for_slot i in
  let desc := aset (bk_desc s) head (chain_req i) in
  let desc := aset desc (wrap16 (head + 1)) (chain_buf i buf) in
  let desc := aset desc (wrap16 (head + 2)) (chain_status i) in
  blk_mmio_write MMIO_QUEUE_NOTIFY 0 (set_bk_queue desc (avail_push head (bk_avail s)) s).

(** The critical section of the last loop: [Some] with the result when done. *)
Definition blk_read_poll (i : nat) s : option Z * blk_state D :=
  let s := blk_process_used_locked s in
  let sl := default zero_slot (blk_slots s !! i) in
  if sl_done sl =? 0 then (None, s)
  else
    let ok := sl_status sl =? 0 in
    (Some (if ok then 0 else -1),
     set_blk_slots (<[i := BlkSlot (sl_type sl) (sl_reserved sl) (sl_sector sl) (sl_status sl) 0 0]> (blk_slots s)) s).

(** [waitq_wake_all(&blk_waitq)] *)
Definition blk_wake_all s : blk_state D := set_blk_waitq [] s.

(** Where a call of [blk_read] is. *)
Inductive br_pc :=
| BrStart
| BrChoose
| BrChooseSleep
| BrFill (slot : nat)
| BrSubmit (slot : nat)
| BrPoll (slot : nat)
| BrPollSleep (slot : nat)
| BrReturned (r : Z).
Record br_thread := BrThread { th_sector : Z; th_buf : Z; th_pc : br_pc }.

(** [if (current_proc) waitq_sleep(&blk_waitq); else wfi]: asleep, or just later. *)
Definition blk_sleep (in_proc : bool) (tid : nat) s : blk_state D :=
  if in_proc then set_blk_waitq (blk_waitq s ++ [tid]) s else s.

(** The next step of call number [tid]. *)
Definition blk_read (tid : nat) (in_proc : bool) (t : br_thread) s : br_pc * blk_state D :=
  match th_pc t with
  | BrStart => (if negb (blk_ready s) || (th_buf t =? 0) then BrReturned (-1) else BrChoose, s)
  | BrChoose => let '(r, s) := blk_read_choose s in (match r with Some i => BrFill i | None => BrChooseSleep end, s)
  | BrChooseSleep => (BrChoose, blk_sleep in_proc tid s)
  | BrFill i => (BrSubmit i, blk_read_fill i (th_sector t) s)
  | BrSubmit i => (BrPoll i, blk_read_submit i (th_buf t) s)
  | BrPoll i => match blk_read_poll i s with (Some r, s) => (BrReturned r, blk_wake_all s) | (None, s) => (BrPollSleep i, s) end
  | BrPollSleep i => (BrPoll i, blk_sleep in_proc tid s)
  | BrReturned r => (BrReturned r, s)
  end.

Definition blk_handle_irq s : blk_state D :=
  if virtio_base s =? 0 then s
  else
    let '(st, s) := blk_mmio_read MMIO_INTERRUPT_STATUS s in
    if st =? 0 then s
    else
      let s := blk_mmio_write MMIO_INTERRUPT_ACK st s in
      blk_wake_all (blk_process_used_locked s).

(** ** The device *)

(** The whole system: the driver, what the device has seen of the available ring and
    what it works on, and the calls of [blk_read]. *)
Record blk_sys := BlkSys { sy_blk : blk_state D; sy_seen : Z; sy_taken : list Z; sy_calls : list br_thread }.

(** The slot a descriptor points to, by the address of its request or its status. *)
Definition slot_at (a : Z) : nat := Z.to_nat ((a - blk_slots_at) / BLK_SLOT_SIZE).
(** The three descriptors of the chain at [head]. *)
Definition chain_at (desc : list virtq_desc) (head : Z) : option (virtq_desc * virtq_desc * virtq_desc) :=
  d0 ← aget desc head;
  d1 ← aget desc (qd_next d0);
  d2 ← aget desc (qd_next d1);
  Some (d0, d1, d2).

(** The device takes the next available chain. *)
Definition dev_take (y : blk_sys) : blk_sys :=
  let a := bk_avail (sy_blk y) in
  BlkSys (sy_blk y) (wrap16 (sy_seen y + 1)) (sy_taken y ++ [default 0 (aget (va_ring a) (sy_seen y mod VIRTQ_NUM))]) (sy_calls y).

(** It completes the chain at [head]: [data] goes to the buffer, [st] to the
    status, the chain to the used ring. *)
Definition dev_answer (d : virtq_desc * virtq_desc * virtq_desc) (head st : Z) (data : list Z) s : blk_state D :=
  let i := slot_at (qd_addr d.2) in
  set_bk_answer (used_push (UsedElem head (length data + 1)) (bk_used s))
    (alter (set_status st) i (blk_slots s)) (put_bytes (bk_mem s) (qd_addr d.1.2) data) s.
End driver.
Arguments BlkSys {D} _ _ _ _.
Arguments sy_blk {D} _.
Arguments sy_seen {D} _.
Arguments sy_taken {D} _.
Arguments sy_calls {D} _.
Arguments blk_sys : clear implicits.

(** What the device may do with a request: a read that succeeds fills the buffer with the
    sector; one that fails leaves anything there. *)
Definition dev_allowed (disk : Z → list Z) (sl : blk_slot) (len st : Z) (data : list Z) : Prop :=
  is_bytes data ∧ Z.of_nat (length data) ≤ len ∧ (st = 0 → sl_type sl = VIRTIO_BLK_T_IN ∧ data = disk (sl_sector sl)).

Definition returned (t : br_thread) : bool := match th_pc t with BrReturned _ => true | _ => false end.
Definition apart (a b : Z) : Prop := a + 512 ≤ b ∨ b + 512 ≤ a.

(** One step of the system; the callers pass buffers of 512 bytes that no other
    running call uses. *)
Inductive blk_step `{Mmio D} `{BlkPlaces} (disk : Z → list Z) : blk_sys D → blk_sys D → Prop :=
| StepCall y sector buf :
    is_u32 sector → 0 ≤ buf → buf + 512 ≤ 4294967296 →
    (∀ t, t ∈ sy_calls y → returned t = false → apart (th_buf t) buf) →
    blk_step disk y (BlkSys (sy_blk y) (sy_seen y) (sy_taken y) (sy_calls y ++ [BrThread sector buf BrStart]))
| StepRun y tid in_proc t :
    sy_calls y !! tid = Some t → tid ∉ blk_waitq (sy_blk y) →
    blk_step disk y
      (BlkSys (blk_read tid in_proc t (sy_blk y)).2 (sy_seen y) (sy_taken y)
        (<[tid := BrThread (th_sector t) (th_buf t) (blk_read tid in_proc t (sy_blk y)).1]> (sy_calls y)))
| StepIrq y : blk_step disk y (BlkSys (blk_handle_irq (sy_blk y)) (sy_seen y) (sy_taken y) (sy_calls y))
| StepTake y : sy_seen y ≠ va_idx (bk_avail (sy_blk y)) → blk_step disk y (dev_take y)
| StepComplete y l1 head l2 d st data :
    sy_taken y = l1 ++ head :: l2 → chain_at (bk_desc (sy_blk y)) head = Some d → 0 ≤ st < 256 →
    dev_allowed disk (default zero_slot (blk_slots (sy_blk y) !! slot_at (qd_addr d.1.1))) (qd_len d.1.2) st data →
    blk_step disk y (BlkSys (dev_answer d head st data (sy_blk y)) (sy_seen y) (l1 ++ l2) (sy_calls y)).
