(* ===== verification/VirtioBlkInv.v ===== *)
(** * What holds of the disk driver between any two steps

    Each slot in use belongs to one call; each chain the device or a ring holds
    belongs to a call that waits for it; and a slot marked done carries the
    result of its own request. *)

From S2P Require Import Prelude KString Virtq Bytes VirtioBlk.

(** The available ring read as the device reads it, with the theory of [pending]. *)
Definition avail_as_used (a : virtq_avail) : virtq_used := VirtqUsed (va_flags a) (va_idx a) ((λ h, UsedElem h 0) <$> va_ring a).
Definition avail_pending (a : virtq_avail) (seen : Z) : list Z := ue_id <$> pending (avail_as_used a) seen.

Lemma avail_as_used_push h a : 0 ≤ va_idx a → avail_as_used (avail_push h a) = used_push (UsedElem h 0) (avail_as_used a).
Proof.
  intros Hi. unfold avail_as_used, avail_push, used_push, VIRTQ_NUM. cbn. f_equal. unfold aset.
  destruct (_ <? 0); [done|]. by rewrite list_fmap_insert.
Qed.

Lemma avail_next a seen :
  length (va_ring a) = 32%nat → ue_id (used_at (avail_as_used a) seen) = default 0 (aget (va_ring a) (seen mod VIRTQ_NUM)).
Proof.
  intros Hl. unfold used_at, avail_as_used, VIRTQ_NUM. cbn. unfold aget. destruct (_ <? 0); [done|].
  rewrite list_lookup_fmap. by destruct (va_ring a !! _).
Qed.

(** The slot a call holds, and the one whose request it has submitted and waits
    for, be it about to look at the slot or about to sleep after a look. *)
Definition call_slot (t : br_thread) : option nat :=
  match th_pc t with BrFill i | BrSubmit i | BrPoll i | BrPollSleep i => Some i | _ => None end.
Definition call_waits (t : br_thread) : option nat :=
  match th_pc t with BrPoll i | BrPollSleep i => Some i | _ => None end.

Definition asks (sl : blk_slot) (sector : Z) : Prop := sl_type sl = VIRTIO_BLK_T_IN ∧ sl_sector sl = sector.

(** The chain [blk_read] builds for a slot. *)
Definition chain_of `{BlkPlaces} (i : nat) (buf : Z) := (chain_req i, chain_buf i buf, chain_status i).

Section inv.
Context {D : Type} {MM : Mmio D} {BP : BlkPlaces} (disk : Z → list Z).
Implicit Types s : blk_state D.
Implicit Types y : blk_sys D.

Definition answered s : list Z := ue_id <$> pending (bk_used s) (used_idx s).
Definition posted y : list Z := avail_pending (bk_avail (sy_blk y)) (sy_seen y) ++ sy_taken y.

(** The result that awaits a call. *)
Definition result_ok s (t : br_thread) (sl : blk_slot) : Prop :=
  sl_status sl = 0 → get_bytes (bk_mem s) (th_buf t) 512 = disk (th_sector t).

(** A request on its way to the device, on its way back, or back. *)
Inductive request_at s (po : list Z) (t : br_thread) (i : nat) (sl : blk_slot) : Prop :=
| RequestPosted : sl_done sl = 0 → 3 * Z.of_nat i ∈ po →
    chain_at (bk_desc s) (3 * i) = Some (chain_of i (th_buf t)) → asks sl (th_sector t) →
    request_at s po t i sl
| RequestAnswered : sl_done sl = 0 → 3 * Z.of_nat i ∈ answered s → result_ok s t sl → request_at s po t i sl
| RequestDone : sl_done sl = 1 → 3 * Z.of_nat i ∉ po ++ answered s → result_ok s t sl → request_at s po t i sl.

Definition call_ok s (po : list Z) (t : br_thread) : Prop :=
  match th_pc t with
  | BrFill i => ∃ sl, blk_slots s !! i = Some sl ∧ sl_in_use sl = 1 ∧ sl_done sl = 0
  | BrSubmit i => ∃ sl, blk_slots s !! i = Some sl ∧ sl_in_use sl = 1 ∧ sl_done sl = 0 ∧ asks sl (th_sector t)
  | BrPoll i | BrPollSleep i => ∃ sl, blk_slots s !! i = Some sl ∧ sl_in_use sl = 1 ∧ request_at s po t i sl
  | _ => True
  end.

Record blk_shape s (seen : Z) : Prop := {
  bh_desc : length (bk_desc s) = 32%nat;
  bh_avail : used_ok (avail_as_used (bk_avail s));
  bh_used : used_ok (bk_used s);
  bh_slots : length (blk_slots s) = 8%nat;
  bh_idx : 0 ≤ used_idx s < 65536;
  bh_seen : 0 ≤ seen < 65536;
}.

Record blk_inv y : Prop := {
  bi_shape : blk_shape (sy_blk y) (sy_seen y);
  bi_calls : ∀ tid t, sy_calls y !! tid = Some t → call_ok (sy_blk y) (posted y) t;
  bi_excl : ∀ tid1 tid2 t1 t2 i, sy_calls y !! tid1 = Some t1 → sy_calls y !! tid2 = Some t2 →
    call_slot t1 = Some i → call_slot t2 = Some i → tid1 = tid2;
  bi_owned : ∀ i sl, blk_slots (sy_blk y) !! i = Some sl →
    sl_in_use sl = 0 ∨ ∃ tid t, sy_calls y !! tid = Some t ∧ call_slot t = Some i;
  bi_nodup : NoDup (posted y ++ answered (sy_blk y));
  bi_out : ∀ h, h ∈ posted y ++ answered (sy_blk y) → ∃ (i : nat) tid t sl,
    h = 3 * i ∧ sy_calls y !! tid = Some t ∧ call_waits t = Some i ∧ blk_slots (sy_blk y) !! i = Some sl ∧ sl_done sl = 0;
  bi_bufs : ∀ tid1 tid2 t1 t2, sy_calls y !! tid1 = Some t1 → sy_calls y !! tid2 = Some t2 → tid1 ≠ tid2 →
    returned t1 = false → returned t2 = false → apart (th_buf t1) (th_buf t2);
}.

Lemma polls_slot t i : call_waits t = Some i → call_slot t = Some i.
Proof. unfold call_waits, call_slot. by destruct (th_pc t). Qed.

Lemma slot_running t i : call_slot t = Some i → returned t = false.
Proof. unfold call_slot, returned. by destruct (th_pc t). Qed.

Lemma call_slot_in_use s po t i :
  call_ok s po t → call_slot t = Some i → ∃ sl, blk_slots s !! i = Some sl ∧ sl_in_use sl = 1.
Proof. unfold call_ok, call_slot. destruct (th_pc t); intros H [= ->]; destruct H as (sl & ? & ? & _); eauto. Qed.

Lemma call_waits_request s po t i :
  call_ok s po t → call_waits t = Some i → ∃ sl, blk_slots s !! i = Some sl ∧ sl_in_use sl = 1 ∧ request_at s po t i sl.
Proof. unfold call_ok, call_waits. destruct (th_pc t); intros H [= ->]; exact H. Qed.

(** Only the sector and the buffer of a call count. *)
Lemma request_same s po t pc i sl : request_at s po t i sl → request_at s po (BrThread (th_sector t) (th_buf t) pc) i sl.
Proof. intros [H1 H2 H3 H4|H1 H2 H3|H1 H2 H3]; [by constructor 1|by constructor 2|by constructor 3]. Qed.

(** At most eight chains are out, so the rings have room. *)
Lemma heads_bound (l : list Z) : NoDup l → (∀ h, h ∈ l → ∃ i : nat, (i < 8)%nat ∧ h = 3 * i) → (length l ≤ 8)%nat.
Proof.
  intros Hnd Hl. change 8%nat with (length ((λ i : nat, 3 * Z.of_nat i) <$> seq 0 8)).
  apply submseteq_length, NoDup_submseteq; [done|]. intros h Hh. destruct (Hl h Hh) as (i & Hi & ->).
  apply list_elem_of_fmap. exists i. split; [done|]. apply elem_of_seq. lia.
Qed.

Lemma out_bound y : blk_inv y → (length (posted y ++ answered (sy_blk y)) ≤ 8)%nat.
Proof.
  intros H. apply heads_bound; [apply H|]. intros h Hh. destruct (bi_out y H h Hh) as (i & _ & _ & sl & -> & _ & _ & Hs & _).
  exists i. split; [|done]. apply lookup_lt_Some in Hs. by rewrite (bh_slots _ _ (bi_shape y H)) in Hs.
Qed.

(** What a call relies on. *)
Record call_frame s s' (po po' : list Z) (t : br_thread) : Prop := {
  cf_slot : ∀ i, call_slot t = Some i → blk_slots s' !! i = blk_slots s !! i ∧
    (∀ buf, chain_at (bk_desc s) (3 * i) = Some (chain_of i buf) → chain_at (bk_desc s') (3 * i) = Some (chain_of i buf)) ∧
    (3 * Z.of_nat i ∈ po' ↔ 3 * Z.of_nat i ∈ po) ∧ (3 * Z.of_nat i ∈ answered s' ↔ 3 * Z.of_nat i ∈ answered s);
  cf_mem : returned t = false → get_bytes (bk_mem s') (th_buf t) 512 = get_bytes (bk_mem s) (th_buf t) 512;
}.

Lemma request_frame s s' po po' t (i : nat) sl :
  (∀ buf, chain_at (bk_desc s) (3 * i) = Some (chain_of i buf) → chain_at (bk_desc s') (3 * i) = Some (chain_of i buf)) →
  (3 * Z.of_nat i ∈ po' ↔ 3 * Z.of_nat i ∈ po) → (3 * Z.of_nat i ∈ answered s' ↔ 3 * Z.of_nat i ∈ answered s) →
  get_bytes (bk_mem s') (th_buf t) 512 = get_bytes (bk_mem s) (th_buf t) 512 →
  request_at s po t i sl → request_at s' po' t i sl.
Proof.
  intros Hc Hp Ha Hm [H1 H2 H3 H4|H1 H2 H3|H1 H2 H3]; unfold result_ok in *.
  - constructor 1; [done|by apply Hp|by apply Hc|done].
  - constructor 2; [done|by apply Ha|]. unfold result_ok. by rewrite Hm.
  - constructor 3; [done| |unfold result_ok; by rewrite Hm]. by rewrite elem_of_app, Hp, Ha, <-elem_of_app.
Qed.

Lemma call_ok_frame s s' po po' t : call_frame s s' po po' t → call_ok s po t → call_ok s' po' t.
Proof.
  intros [Hs Hm]. unfold call_ok, call_slot, returned in *.
  destruct (th_pc t) as [| | |i|i|i|i|r]; try done; destruct (Hs i eq_refl) as (-> & Hc & Hp & Ha); try done.
  all: intros (sl & H1 & H2 & H3); exists sl; split; [done|]; split; [done|]; by eapply request_frame; [..|exact H3]; try apply Hm.
Qed.
End inv.

(** ** Every step of the disk driver and of its device keeps the invariant *)

Section steps.
Context {D : Type} {MM : Mmio D} {BP : BlkPlaces} (disk : Z → list Z).
Hypothesis disk_ok : ∀ sector, length (disk sector) = 512%nat.
Implicit Types s : blk_state D.
Implicit Types y : blk_sys D.
Notation blk_inv := (blk_inv disk).
Notation call_ok := (call_ok disk).

Lemma posted_eq s s' seen taken calls calls' :
  bk_avail s' = bk_avail s → posted (BlkSys s' seen taken calls') = posted (BlkSys s seen taken calls).
Proof. intros H. unfold posted. cbn. by rewrite H. Qed.

(** ** The used ring *)

(** The oldest answer is that of a call that waits; marking its slot done keeps the invariant. *)
Lemma mark_done_inv s seen taken calls :
  blk_inv (BlkSys s seen taken calls) → used_idx s ≠ vu_idx (bk_used s) →
  ∃ (i : nat) sl, ue_id (used_at (bk_used s) (used_idx s)) = 3 * i ∧ blk_slots s !! i = Some sl ∧ sl_in_use sl = 1 ∧
    let s' := set_blk_slots (<[i := set_done 1 sl]> (blk_slots s)) (set_used_idx (wrap16 (used_idx s + 1)) s) in
    blk_inv (BlkSys s' seen taken calls) ∧ answered s = 3 * Z.of_nat i :: answered s'.
Proof.
  intros H Hne. pose proof H as [Hsh Hcalls Hex Hown Hnd Hout Hbuf]. cbn in *. pose proof Hsh as [S1 S2 S3 S4 S5 S6].
  pose proof (pending_pop _ _ S3 S5 Hne) as Hpop. set (h := ue_id (used_at (bk_used s) (used_idx s))).
  set (rest := ue_id <$> pending (bk_used s) (wrap16 (used_idx s + 1))).
  assert (Han : answered s = h :: rest) by (unfold answered; by rewrite Hpop). rewrite Han in *.
  destruct (Hout h) as (i & tid & t & sl & Hh & Ht & Hpl & Hsl & Hd0); [by apply elem_of_app; right; left|].
  destruct (call_waits_request _ _ _ _ _ (Hcalls tid t Ht) Hpl) as (sl' & Hsl' & Hin & Hreq). rewrite Hsl in Hsl'. injection Hsl' as <-.
  exists i, sl. split; [done|]. split; [done|]. split; [done|]. cbv zeta. set (s' := set_blk_slots _ _).
  assert (Han' : answered s' = rest) by done. rewrite Han', Hh in *. split; [|done].
  assert (Hlt : (i < length (blk_slots s))%nat) by (by eapply lookup_lt_Some).
  apply NoDup_app in Hnd as (Hnd1 & Hnd2 & Hnd3). apply NoDup_cons in Hnd3 as [Hn3 Hnd3].
  assert (Hpo : posted (BlkSys s' seen taken calls) = posted (BlkSys s seen taken calls)) by done.
  split; cbn [sy_blk sy_seen sy_taken sy_calls]; rewrite ?Hpo, ?Han'.
  - split; cbn; try done; [by rewrite length_insert|]. unfold wrap16. apply Z.mod_pos_bound. lia.
  - intros tid' t' Ht'. destruct (decide (call_slot t' = Some i)) as [Hi|Hi].
    + assert (tid' = tid) as -> by (eapply Hex; [exact Ht'|exact Ht|exact Hi|by apply polls_slot]).
      rewrite Ht in Ht'. injection Ht' as <-.
      assert (Hres : result_ok disk s t sl).
      { destruct Hreq as [_ Hp _ _|_ _ Hr|Hd1 _ _]; [|done|by rewrite Hd0 in Hd1]. exfalso. apply (Hnd2 (3 * i)); [done|by left]. }
      assert (Hnew : ∃ sl1, blk_slots s' !! i = Some sl1 ∧ sl_in_use sl1 = 1 ∧ request_at disk s' (posted (BlkSys s seen taken calls)) t i sl1).
      { exists (set_done 1 sl). split; [by apply list_lookup_insert_eq|]. split; [done|]. constructor 3; [done| |done].
        rewrite Han', elem_of_app. intros [Hp|Hr]; [|done]. apply (Hnd2 _ Hp). by left. }
      unfold call_waits, VirtioBlkInv.call_ok in *. destruct (th_pc t); try done; by injection Hpl as ->.
    + eapply call_ok_frame; [|by apply (Hcalls tid')]. split; [|done]. intros j Hj. assert (j ≠ i) by congruence.
      cbn. rewrite list_lookup_insert_ne by done. split; [done|]. split; [done|]. split; [done|]. rewrite Han', Han, elem_of_cons.
      split; [by right|intros [?|?]; [lia|done]].
  - exact Hex.
  - intros j slj Hj. apply list_lookup_insert_Some in Hj as [(<- & <- & _)|[_ Hj]]; [|by apply Hown].
    destruct (Hown i sl Hsl) as [?|?]; [by left|by right].
  - apply NoDup_app. split; [done|]. split; [|done]. intros x Hx Hr. apply (Hnd2 x Hx). by right.
  - intros x Hx. assert (Hxi : x ≠ 3 * i). { intros ->. apply elem_of_app in Hx as [Hx|Hx]; [|done]. apply (Hnd2 _ Hx). by left. }
    destruct (Hout x) as (j & tid' & t' & slj & -> & Ht' & Hpj & Hsj & Hdj); [rewrite elem_of_app, elem_of_cons in *; tauto|].
    exists j, tid', t', slj. split_and!; try done. cbn. rewrite list_lookup_insert_ne; [done|]. intros ->. lia.
  - exact Hbuf.
Qed.

(** The fields [process_used] leaves alone. *)
Definition only_done s s' : Prop := ∃ l k, s' = set_blk_slots l (set_used_idx k s).

Lemma process_used_inv n : ∀ s seen taken calls,
  blk_inv (BlkSys s seen taken calls) → (length (answered s) ≤ n)%nat →
  let s' := process_used n s in
  blk_inv (BlkSys s' seen taken calls) ∧ answered s' = [] ∧ only_done s s'.
Proof.
  assert (Hrefl : ∀ s, only_done s s) by (intros s; exists (blk_slots s), (used_idx s); by destruct s).
  induction n as [|n IH]; intros s seen taken calls H Hn; cbn [process_used]; cbv zeta.
  { split; [done|]. split; [|done]. by destruct (answered s); [|simpl in Hn; lia]. }
  destruct (Z.eqb_spec (used_idx s) (vu_idx (bk_used s))) as [He|Hne].
  { split; [done|]. split; [|done]. unfold answered. pose proof (bi_shape _ _ H) as Hsh. cbn in Hsh.
    by rewrite (proj2 (pending_empty _ _ (bh_used _ _ Hsh) (bh_idx _ _ Hsh)) He). }
  destruct (mark_done_inv s seen taken calls H Hne) as (i & sl & Hh & Hsl & Hin & H' & Han). rewrite Hh.
  replace (3 * i) with (i * 3) by lia. rewrite Z.mod_mul, Z.div_mul by lia. cbn [negb Z.eqb].
  assert (Hi : (i < 8)%nat) by (pose proof (bh_slots _ _ (bi_shape _ _ H)) as Hl; cbn in Hl; apply lookup_lt_Some in Hsl; lia).
  rewrite (proj2 (Z.leb_gt BLK_REQ_MAX i)) by (unfold BLK_REQ_MAX; lia). cbn [blk_slots set_used_idx]. rewrite aget_of_nat, Hsl, Hin, aset_of_nat. cbn [Z.eqb].
  rewrite Han in Hn. simpl in Hn. destruct (IH _ _ _ _ H' ltac:(lia)) as (H1 & H2 & (l & k & H3)). split; [done|]. split; [done|]. exists l, k. exact H3.
Qed.

Lemma process_inv s seen taken calls :
  blk_inv (BlkSys s seen taken calls) →
  blk_inv (BlkSys (blk_process_used_locked s) seen taken calls) ∧ answered (blk_process_used_locked s) = [] ∧
  only_done s (blk_process_used_locked s).
Proof. intros H. apply process_used_inv; [done|]. unfold answered, pending. by rewrite !length_fmap, length_seqZ. Qed.

(** ** One call moves *)

(** Call [tid] becomes [t'], its slot [i] becomes [sl'] and nothing else of what the other calls rely on changes. *)
Lemma call_moves s s' seen taken calls tid t pc' (i : nat) sl' :
  blk_inv (BlkSys s seen taken calls) → calls !! tid = Some t →
  (call_slot t = Some i ∨ call_slot t = None ∧ ∀ sl, blk_slots s !! i = Some sl → sl_in_use sl = 0) →
  blk_slots s' = <[i := sl']> (blk_slots s) → blk_shape s' seen →
  let t' := BrThread (th_sector t) (th_buf t) pc' in
  let y := BlkSys s seen taken calls in
  let y' := BlkSys s' seen taken (<[tid := t']> calls) in
  returned t = false →
  (call_slot t' = Some i ∨ sl_in_use sl' = 0 ∧ call_slot t' = None) →
  call_ok s' (posted y') t' →
  (∀ j : nat, (j < length (blk_slots s))%nat → j ≠ i → (∀ buf, chain_at (bk_desc s) (3 * j) = Some (chain_of j buf) → chain_at (bk_desc s') (3 * j) = Some (chain_of j buf)) ∧
     (3 * Z.of_nat j ∈ posted y' ↔ 3 * Z.of_nat j ∈ posted y)) →
  answered s' = answered s → bk_mem s' = bk_mem s →
  NoDup (posted y' ++ answered s') →
  (3 * Z.of_nat i ∈ posted y' ++ answered s' → call_waits t' = Some i ∧ sl_done sl' = 0) →
  (∀ h, h ∈ posted y' → h = 3 * i ∨ h ∈ posted y) →
  blk_inv y'.
Proof.
  intros H Ht Hslot Hsl' Hsh' t' y y' Hrun Ht' Hok Hfr Han Hmem Hnd Hout' Hposted.
  destruct H as [Hsh Hcalls Hex Hown Hnd0 Hout Hbuf]. cbn [sy_blk sy_seen sy_taken sy_calls] in *. fold y in Hcalls, Hnd0, Hout.
  assert (Hother : ∀ tid1 t1 j, calls !! tid1 = Some t1 → tid1 ≠ tid → call_slot t1 = Some j → j ≠ i).
  { intros tid1 t1 j H1 Hn Hj ->. destruct Hslot as [Hi|[_ Hfree]]; [by apply Hn, (Hex tid1 tid t1 t i)|].
    destruct (call_slot_in_use _ _ _ _ _ (Hcalls _ _ H1) Hj) as (sl1 & Hs1 & Hu1). rewrite (Hfree _ Hs1) in Hu1. done. }
  assert (Hlt : (tid < length calls)%nat) by (by eapply lookup_lt_Some).
  assert (Hslots : ∀ j, j ≠ i → blk_slots s' !! j = blk_slots s !! j) by (intros j Hj; rewrite Hsl'; by apply list_lookup_insert_ne).
  split; cbn [sy_blk sy_seen sy_taken sy_calls y']; fold y'.
  - exact Hsh'.
  - intros tid1 t1 H1. apply list_lookup_insert_Some in H1 as [(<- & <- & _)|[Hn H1]]; [exact Hok|].
    eapply call_ok_frame; [|by apply (Hcalls tid1)]. split; [|by rewrite Hmem]. intros j Hj.
    assert (Hji : j ≠ i) by (by eapply Hother). destruct (call_slot_in_use _ _ _ _ _ (Hcalls _ _ H1) Hj) as (sl1 & Hs1 & _).
    destruct (Hfr j (lookup_lt_Some _ _ _ Hs1) Hji). rewrite Hslots, Han by done. done.
  - intros tid1 tid2 t1 t2 j H1 H2 Hj1 Hj2.
    apply list_lookup_insert_Some in H1 as [(<- & <- & _)|[Hn1 H1]]; apply list_lookup_insert_Some in H2 as [(<- & <- & _)|[Hn2 H2]]; try done.
    + assert (j ≠ i) by (by eapply Hother). destruct Ht' as [?|[_ ?]]; congruence.
    + assert (j ≠ i) by (by eapply Hother). destruct Ht' as [?|[_ ?]]; congruence.
    + by eapply Hex.
  - intros j slj Hj. destruct (decide (j = i)) as [->|Hji].
    + rewrite Hsl' in Hj. apply list_lookup_insert_Some in Hj as [(_ & <- & _)|[? _]]; [|done].
      destruct Ht' as [Hi|[Hu _]]; [|by left]. right. exists tid, t'. split; [by apply list_lookup_insert_eq|done].
    + rewrite Hslots in Hj by done. destruct (Hown j slj Hj) as [?|(tid1 & t1 & H1 & Hj1)]; [by left|right].
      exists tid1, t1. split; [|done]. rewrite list_lookup_insert_ne; [done|]. intros <-. rewrite Ht in H1. injection H1 as <-.
      destruct Hslot as [?|[? _]]; congruence.
  - exact Hnd.
  - intros h Hh. destruct (decide (h = 3 * i)) as [->|Hhi].
    + destruct (Hout' Hh) as [Hp Hd]. exists i, tid, t', sl'. split_and!; try done; [by apply list_lookup_insert_eq|].
      assert (Hl : (i < length (blk_slots s))%nat).
      { destruct Ht' as [Hi|[_ Hno]]; [|apply polls_slot in Hp; congruence].
        destruct (call_slot_in_use _ _ _ _ _ Hok Hi) as (sl1 & Hs1 & _). apply lookup_lt_Some in Hs1. by rewrite Hsl', length_insert in Hs1. }
      rewrite Hsl'. by apply list_lookup_insert_eq.
    + destruct (Hout h) as (j & tid1 & t1 & slj & -> & H1 & Hp & Hs & Hd).
      { rewrite elem_of_app in *. destruct Hh as [Hh|Hh]; [|right; by rewrite <-Han]. destruct (Hposted h Hh); [done|by left]. }
      assert (Hji : j ≠ i) by lia. exists j, tid1, t1, slj. rewrite Hslots by done. split_and!; try done.
      rewrite list_lookup_insert_ne; [done|]. intros <-. rewrite Ht in H1. injection H1 as <-. apply polls_slot in Hp. destruct Hslot as [?|[? _]]; congruence.
  - intros tid1 tid2 t1 t2 H1 H2 Hne Hr1 Hr2.
    apply list_lookup_insert_Some in H1 as [(<- & <- & _)|[Hn1 H1]]; apply list_lookup_insert_Some in H2 as [(<- & <- & _)|[Hn2 H2]]; try done; cbn [th_buf t'].
    + by eapply (Hbuf tid tid2).
    + by eapply (Hbuf tid1 tid).
    + by eapply (Hbuf tid1 tid2).
Qed.

(** Registers, the wait queue and the like. *)
Lemma inv_outside s seen taken calls rdy base q (d : D) :
  blk_inv (BlkSys s seen taken calls) →
  blk_inv (BlkSys (BlkState (bk_desc s) (bk_avail s) (bk_used s) (blk_slots s) (used_idx s) rdy base q (bk_mem s) d) seen taken calls).
Proof.
  intros [[S1 S2 S3 S4 S5 S6] H2 H3 H4 H5 H6 H7]. split; [by split| |exact H3|exact H4|exact H5|exact H6|exact H7].
  intros tid t Ht. eapply call_ok_frame; [|by apply (H2 tid)]. by split.
Qed.

(** A call moves on without touching a slot. *)
Lemma pc_moves s seen taken calls tid t pc' :
  blk_inv (BlkSys s seen taken calls) → calls !! tid = Some t →
  let t' := BrThread (th_sector t) (th_buf t) pc' in
  call_slot t' = call_slot t → call_waits t' = call_waits t → (returned t' = false → returned t = false) →
  (∀ po, call_ok s po t → call_ok s po t') →
  blk_inv (BlkSys s seen taken (<[tid := t']> calls)).
Proof.
  intros [Hsh Hcalls Hex Hown Hnd Hout Hbuf] Ht t' Hcs Hcp Hret Hok. cbn [sy_blk sy_seen sy_taken sy_calls] in *.
  assert (Hlt : (tid < length calls)%nat) by (by eapply lookup_lt_Some).
  assert (Hat : ∀ tid1 t1, <[tid := t']> calls !! tid1 = Some t1 → ∃ t0, calls !! tid1 = Some t0 ∧ call_slot t1 = call_slot t0 ∧
    th_buf t1 = th_buf t0 ∧ (returned t1 = false → returned t0 = false)).
  { intros tid1 t1 H1. apply list_lookup_insert_Some in H1 as [(<- & <- & _)|[_ H1]]; [by exists t|by exists t1]. }
  split; cbn [sy_blk sy_seen sy_taken sy_calls].
  - done.
  - intros tid1 t1 H1. apply list_lookup_insert_Some in H1 as [(<- & <- & _)|[_ H1]]; [apply Hok, (Hcalls tid); done|by apply (Hcalls tid1)].
  - intros tid1 tid2 t1 t2 j H1 H2 Hj1 Hj2. destruct (Hat _ _ H1) as (u1 & Hu1 & E1 & _). destruct (Hat _ _ H2) as (u2 & Hu2 & E2 & _).
    rewrite E1 in Hj1. rewrite E2 in Hj2. by eapply Hex.
  - intros i sl Hs. destruct (Hown i sl Hs) as [?|(tid1 & t1 & H1 & Hi)]; [by left|right]. destruct (decide (tid1 = tid)) as [->|Hn].
    + exists tid, t'. split; [by apply list_lookup_insert_eq|]. rewrite Ht in H1. injection H1 as <-. by rewrite Hcs.
    + exists tid1, t1. by rewrite list_lookup_insert_ne.
  - done.
  - intros h Hh. destruct (Hout h Hh) as (i & tid1 & t1 & sl & -> & H1 & Hp & Hs & Hd). destruct (decide (tid1 = tid)) as [->|Hn].
    + exists i, tid, t', sl. split_and!; try done; [by apply list_lookup_insert_eq|]. rewrite Ht in H1. injection H1 as <-. by rewrite Hcp.
    + exists i, tid1, t1, sl. split_and!; try done. by rewrite list_lookup_insert_ne.
  - intros tid1 tid2 t1 t2 H1 H2 Hne Hr1 Hr2. destruct (Hat _ _ H1) as (u1 & Hu1 & _ & -> & E1). destruct (Hat _ _ H2) as (u2 & Hu2 & _ & -> & E2).
    apply (Hbuf tid1 tid2); auto.
Qed.

(** ** The steps of [blk_read] *)
Lemma first_free_Some l i : first_free l = Some i → ∃ sl, l !! i = Some sl ∧ sl_in_use sl = 0.
Proof.
  revert i. induction l as [|sl l IH]; intros i; cbn; [done|]. destruct (Z.eqb_spec (sl_in_use sl) 0) as [He|He].
  - intros [= <-]. by exists sl.
  - destruct (first_free l) as [j|]; [|done]. intros [= <-]. by apply IH.
Qed.

Lemma first_free_None l : first_free l = None → Forall (λ sl, sl_in_use sl ≠ 0) l.
Proof.
  induction l as [|sl l IH]; cbn; [done|]. destruct (Z.eqb_spec (sl_in_use sl) 0) as [He|He]; [done|].
  destruct (first_free l); [done|]. intros _. constructor; auto.
Qed.

Ltac open_inv H :=
  let Hsh := fresh "Hsh" in pose proof H as [Hsh Hcalls Hex Hown Hnd Hout Hbuf]; cbn [sy_blk sy_seen sy_taken sy_calls] in *; pose proof Hsh as [S1 S2 S3 S4 S5 S6].

Lemma choose_inv s seen taken calls tid t :
  blk_inv (BlkSys s seen taken calls) → calls !! tid = Some t → th_pc t = BrChoose →
  let '(r, s') := blk_read_choose s in
  blk_inv (BlkSys s' seen taken (<[tid := BrThread (th_sector t) (th_buf t) match r with Some i => BrFill i | None => BrChooseSleep end]> calls)).
Proof.
  intros H Ht Hpc. destruct (process_inv s seen taken calls H) as (H1 & Han & _). unfold blk_read_choose. cbv zeta. set (s1 := blk_process_used_locked s) in *.
  destruct (first_free (blk_slots s1)) as [i|] eqn:Hff.
  2: { apply pc_moves; try done; unfold call_slot, call_waits, returned; by rewrite Hpc. }
  destruct (first_free_Some _ _ Hff) as (sl & Hsl & Hu). rewrite Hsl. cbn [default from_option id].
  assert (Hlt : (i < length (blk_slots s1))%nat) by (by eapply lookup_lt_Some).
  open_inv H1. assert (Hfree : ∀ tid1 t1, calls !! tid1 = Some t1 → call_slot t1 ≠ Some i).
  { intros tid1 t1 Ht1 Hi. destruct (call_slot_in_use _ _ _ _ _ (Hcalls _ _ Ht1) Hi) as (sl1 & Hs1 & Hu1). rewrite Hsl in Hs1. injection Hs1 as <-. lia. }
  eapply (call_moves s1 _ seen taken calls tid t (BrFill i) i); try done.
  - right. split; [unfold call_slot; by rewrite Hpc|]. intros sl1 Hs1. rewrite Hsl in Hs1. by injection Hs1 as <-.
  - split; cbn; try done. by rewrite length_insert.
  - unfold returned. by rewrite Hpc.
  - by left.
  - exists (BlkSlot (sl_type sl) (sl_reserved sl) (sl_sector sl) 255 1 0). split; [by apply list_lookup_insert_eq|done].
  - intros Hh. exfalso. destruct (Hout (3 * i) Hh) as (j & tid1 & t1 & slj & Hji & Ht1 & Hp & _). assert (j = i) as -> by lia.
    by apply (Hfree tid1 t1), polls_slot.
  - by right.
Qed.

Lemma fill_inv s seen taken calls tid t i :
  blk_inv (BlkSys s seen taken calls) → calls !! tid = Some t → th_pc t = BrFill i →
  blk_inv (BlkSys (blk_read_fill i (th_sector t) s) seen taken (<[tid := BrThread (th_sector t) (th_buf t) (BrSubmit i)]> calls)).
Proof.
  intros H Ht Hpc. open_inv H. pose proof (Hcalls tid t Ht) as Hok. unfold VirtioBlkInv.call_ok in Hok. rewrite Hpc in Hok. destruct Hok as (sl & Hsl & Hu & Hd).
  unfold blk_read_fill. rewrite Hsl. cbn [default from_option id]. assert (Hlt : (i < length (blk_slots s))%nat) by (by eapply lookup_lt_Some).
  assert (Hsi : call_slot t = Some i) by (unfold call_slot; by rewrite Hpc).
  eapply (call_moves s _ seen taken calls tid t (BrSubmit i) i); try done.
  - by left.
  - split; cbn; try done. by rewrite length_insert.
  - by eapply slot_running.
  - by left.
  - eexists. split; [by apply list_lookup_insert_eq|done].
  - intros Hh. exfalso. destruct (Hout (3 * i) Hh) as (j & tid1 & t1 & slj & Hji & Ht1 & Hp & _). assert (j = i) as -> by lia.
    assert (tid1 = tid) as -> by (by eapply Hex; [..|apply polls_slot|]). rewrite Ht in Ht1. injection Ht1 as <-. unfold call_waits in Hp. by rewrite Hpc in Hp.
  - by right.
Qed.

(** The chain is built where the device looks for it, and the others' stay. *)
Lemma chain_built (desc : list virtq_desc) (i : nat) buf :
  length desc = 32%nat → (i < 8)%nat →
  let head := blk_head_for_slot i in
  let desc' := aset (aset (aset desc head (chain_req i)) (wrap16 (head + 1)) (chain_buf i buf)) (wrap16 (head + 2)) (chain_status i) in
  head = 3 * i ∧ length desc' = 32%nat ∧ chain_at desc' (3 * i) = Some (chain_of i buf) ∧
  ∀ (j : nat) b, (j < 8)%nat → j ≠ i → chain_at desc (3 * j) = Some (chain_of j b) → chain_at desc' (3 * j) = Some (chain_of j b).
Proof.
  intros Hl Hi head desc'.
  assert (Hhead : ∀ j : nat, (j < 8)%nat → blk_head_for_slot j = 3 * j) by (intros j Hj; unfold blk_head_for_slot, wrap16; rewrite Z.mod_small; lia).
  assert (Hw : ∀ (j : nat) k, (j < 8)%nat → 0 ≤ k ≤ 2 → wrap16 (blk_head_for_slot j + k) = 3 * j + k).
  { intros j k Hj Hk. rewrite Hhead by done. unfold wrap16. apply Z.mod_small. lia. }
  unfold desc', head. rewrite !Hw, !Hhead by (done || lia).
  split; [done|]. split; [by rewrite !length_aset|]. split.
  - unfold chain_at, chain_of. rewrite 2!aget_aset_ne, aget_aset_eq by lia. cbn. rewrite Hw by (done || lia).
    rewrite aget_aset_ne, aget_aset_eq by (rewrite ?length_aset; lia). cbn. rewrite Hw by (done || lia).
    rewrite aget_aset_eq by (rewrite ?length_aset; lia). done.
  - intros j b Hj Hji. unfold chain_at, chain_of. rewrite 3!aget_aset_ne by lia.
    destruct (aget desc (3 * j)) as [d0|]; [|done]. cbn. intros Hc.
    destruct (aget desc (qd_next d0)) as [d1|] eqn:E1; [|done]. cbn in Hc.
    destruct (aget desc (qd_next d1)) as [d2|] eqn:E2; [|done]. cbn in Hc. injection Hc as -> -> ->. cbn in *.
    rewrite Hw in E1 by (done || lia). rewrite Hw by (done || lia). rewrite 3!aget_aset_ne, E1 by lia. cbn.
    rewrite Hw in E2 by (done || lia). rewrite Hw by (done || lia). rewrite 3!aget_aset_ne, E2 by lia. done.
Qed.

Lemma posted_push s seen taken calls calls' h d :
  blk_inv (BlkSys s seen taken calls) →
  let s' := blk_mmio_write MMIO_QUEUE_NOTIFY 0 (set_bk_queue d (avail_push h (bk_avail s)) s) in
  posted (BlkSys s' seen taken calls') ≡ₚ h :: posted (BlkSys s seen taken calls) ∧
  used_ok (avail_as_used (bk_avail s')).
Proof.
  intros H s'. pose proof (out_bound _ _ H) as Hb. open_inv H.
  assert (He : avail_as_used (bk_avail s') = used_push (UsedElem h 0) (avail_as_used (bk_avail s))) by (apply avail_as_used_push; destruct S2 as [_ Hr]; cbn in Hr; lia).
  split; [|rewrite He; by apply used_push_ok]. unfold posted, avail_pending in *. cbn [sy_blk sy_seen sy_taken]. rewrite He.
  rewrite pending_push; [|done|done|].
  - rewrite fmap_app. cbn. rewrite <-app_assoc. cbn. apply Permutation_sym, Permutation_middle.
  - cbn [sy_blk sy_seen sy_taken] in Hb. rewrite !length_app, length_fmap in Hb. unfold pending in Hb. rewrite length_fmap, length_seqZ in Hb. lia.
Qed.

Lemma submit_inv s seen taken calls tid t i :
  blk_inv (BlkSys s seen taken calls) → calls !! tid = Some t → th_pc t = BrSubmit i →
  blk_inv (BlkSys (blk_read_submit i (th_buf t) s) seen taken (<[tid := BrThread (th_sector t) (th_buf t) (BrPoll i)]> calls)).
Proof.
  intros H Ht Hpc. open_inv H. pose proof (Hcalls tid t Ht) as Hok. unfold VirtioBlkInv.call_ok in Hok. rewrite Hpc in Hok. destruct Hok as (sl & Hsl & Hu & Hd & Hask).
  assert (Hlt : (i < length (blk_slots s))%nat) by (by eapply lookup_lt_Some). assert (Hi : (i < 8)%nat) by lia.
  destruct (chain_built (bk_desc s) i (th_buf t) S1 Hi) as (Hh & Hdl & Hch & Hothers). unfold blk_read_submit. cbv zeta in *. rewrite Hh in *.
  set (desc := aset _ _ (chain_status i)) in *. generalize dependent desc. intros desc Hdl Hch Hothers.
  set (calls' := <[tid := _]> calls). destruct (posted_push s seen taken calls calls' (3 * i) desc H) as [Hp Hav]. cbv zeta in *.
  set (s' := blk_mmio_write _ _ _) in *.
  assert (Hsi : call_slot t = Some i) by (unfold call_slot; by rewrite Hpc).
  assert (Hnot : 3 * Z.of_nat i ∉ posted (BlkSys s seen taken calls) ++ answered s).
  { intros Hin. destruct (Hout (3 * i) Hin) as (j & tid1 & t1 & slj & Hji & Ht1 & Hpl & _). assert (j = i) as -> by lia.
    assert (tid1 = tid) as -> by (by eapply Hex; [..|apply polls_slot|]). rewrite Ht in Ht1. injection Ht1 as <-. unfold call_waits in Hpl. by rewrite Hpc in Hpl. }
  eapply (call_moves s s' seen taken calls tid t (BrPoll i) i sl); try done.
  - by left.
  - by rewrite list_insert_id.
  - by eapply slot_running.
  - by left.
  - exists sl. split; [done|]. split; [done|]. constructor 1; [done| |done|done]. fold calls'. rewrite Hp. by left.
  - intros j Hj Hji. fold calls'. split.
    + intros b. apply Hothers; [lia|done].
    + rewrite Hp, elem_of_cons. split; [intros [?|?]; [lia|done]|by right].
  - fold calls'. change (answered s') with (answered s). rewrite Hp. cbn. by constructor.
  - intros h. fold calls'. rewrite Hp, elem_of_cons. done.
Qed.

(** What [blk_read] returns, and what is then in the buffer. *)
Definition read_result s (t : br_thread) (r : Z) : Prop :=
  r = 0 ∧ get_bytes (bk_mem s) (th_buf t) 512 = disk (th_sector t) ∨ r = -1.

Lemma poll_inv s seen taken calls tid t i :
  blk_inv (BlkSys s seen taken calls) → calls !! tid = Some t → th_pc t = BrPoll i →
  match blk_read_poll i s with
  | (Some r, s') => read_result s' t r ∧
      blk_inv (BlkSys (blk_wake_all s') seen taken (<[tid := BrThread (th_sector t) (th_buf t) (BrReturned r)]> calls))
  | (None, s') => 3 * Z.of_nat i ∈ posted (BlkSys s seen taken calls) ∧
      blk_inv (BlkSys s' seen taken (<[tid := BrThread (th_sector t) (th_buf t) (BrPollSleep i)]> calls))
  end.
Proof.
  intros H Ht Hpc. destruct (process_inv s seen taken calls H) as (H1 & Han & Hod). unfold blk_read_poll. cbv zeta. set (s1 := blk_process_used_locked s) in *.
  open_inv H1. assert (Hpl : call_waits t = Some i) by (unfold call_waits; by rewrite Hpc).
  destruct (call_waits_request _ _ _ _ _ (Hcalls tid t Ht) Hpl) as (sl & Hsl & Hu & Hreq). rewrite Hsl. cbn [default from_option id].
  assert (Hpo : posted (BlkSys s1 seen taken calls) = posted (BlkSys s seen taken calls)) by (destruct Hod as (l & k & ->); done).
  assert (Hlt : (i < length (blk_slots s1))%nat) by (by eapply lookup_lt_Some).
  destruct Hreq as [Hd Hin _ _|_ Hin _|Hd Hnot Hres]; [| |].
  - rewrite Hd. cbn [Z.eqb]. split; [by rewrite <-Hpo|]. apply pc_moves; try done; unfold call_slot, call_waits, returned, VirtioBlkInv.call_ok; rewrite ?Hpc; try done.
    intros po (sl1 & ? & ? & ?). exists sl1. split_and!; [done|done|by apply request_same].
  - rewrite Han in Hin. by apply elem_of_nil in Hin.
  - rewrite Hd. cbn [Z.eqb]. split.
    + unfold read_result, result_ok in *. cbn. destruct (Z.eqb_spec (sl_status sl) 0); [left; auto|by right].
    + apply (inv_outside (set_blk_slots _ s1)).
      eapply (call_moves s1 _ seen taken calls tid t (BrReturned _) i); try done.
      * left. by apply polls_slot.
      * split; cbn; try done. by rewrite length_insert.
      * by eapply slot_running, polls_slot.
      * by right.
      * by right.
Qed.

(** ** The device *)
Lemma take_inv s seen taken calls :
  blk_inv (BlkSys s seen taken calls) → seen ≠ va_idx (bk_avail s) → blk_inv (dev_take (BlkSys s seen taken calls)).
Proof.
  intros H Hne. open_inv H. unfold dev_take. cbn [sy_blk sy_seen sy_taken sy_calls].
  rewrite <-avail_next by (destruct S2 as [Hl _]; cbn in Hl; by rewrite length_fmap in Hl).
  pose proof (pending_pop _ _ S2 S6 Hne) as Hpop. set (h := ue_id _). set (y' := BlkSys s _ _ calls).
  assert (Hp : posted y' ≡ₚ posted (BlkSys s seen taken calls)).
  { unfold posted, avail_pending. cbn [sy_blk sy_seen sy_taken y']. rewrite Hpop, fmap_cons. fold h. cbn. rewrite app_assoc. symmetry. apply Permutation_cons_append. }
  split; cbn [sy_blk sy_seen sy_taken sy_calls y']; fold y'; try done.
  - split; try done. unfold wrap16. apply Z.mod_pos_bound. lia.
  - intros tid t Ht. eapply call_ok_frame; [|by apply (Hcalls tid)]. split; [|done]. intros i Hi. by rewrite Hp.
  - by rewrite Hp.
  - intros x. rewrite Hp. apply Hout.
Qed.

Lemma complete_inv s seen l1 head l2 calls d st data :
  blk_inv (BlkSys s seen (l1 ++ head :: l2) calls) → chain_at (bk_desc s) head = Some d → 
  dev_allowed disk (default zero_slot (blk_slots s !! slot_at (qd_addr d.1.1))) (qd_len d.1.2) st data →
  blk_inv (BlkSys (dev_answer d head st data s) seen (l1 ++ l2) calls).
Proof.
  intros H Hd Hall. pose proof (out_bound _ _ H) as Hb. open_inv H. set (y := BlkSys s seen _ calls) in *.
  assert (Hin : head ∈ posted y) by (unfold posted, y; cbn; rewrite !elem_of_app, elem_of_cons; tauto).
  destruct (Hout head) as (i & tid & t & sl & -> & Ht & Hpl & Hsl & Hd0); [rewrite elem_of_app; tauto|].
  destruct (call_waits_request _ _ _ _ _ (Hcalls tid t Ht) Hpl) as (sl' & Hsl' & Hu & Hreq). rewrite Hsl in Hsl'. injection Hsl' as <-.
  assert (Hpost : chain_at (bk_desc s) (3 * i) = Some (chain_of i (th_buf t)) ∧ asks sl (th_sector t)).
  { destruct Hreq as [_ _ ? ?|_ Ha _|Hd1 _ _]; [done| |by rewrite Hd0 in Hd1]. exfalso. apply NoDup_app in Hnd as (_ & Hnd & _). by apply (Hnd _ Hin). }
  destruct Hpost as [Hch Hask]. rewrite Hd in Hch. injection Hch as ->. unfold chain_of in *. cbn [fst snd] in Hall.
  assert (Hat : slot_at (qd_addr (chain_req i)) = i ∧ slot_at (qd_addr (chain_status i)) = i).
  { unfold slot_at, chain_req, chain_status, BLK_SLOT_SIZE. cbn [qd_addr].
    replace (blk_slots_at + 19 * i - blk_slots_at) with (i * 19) by lia. replace (blk_slots_at + 19 * i + 16 - blk_slots_at) with (16 + i * 19) by lia.
    rewrite Z.div_mul, Z.div_add by lia. change (16 / 19) with 0. lia. }
  destruct Hat as [Hat1 Hat2]. rewrite Hat1, Hsl in Hall. destruct Hall as (Hby & Hlen & Hok). cbn [default from_option id chain_buf qd_len] in *.
  unfold dev_answer. cbn [fst snd]. rewrite Hat2. cbn [chain_buf qd_addr]. set (s' := set_bk_answer _ _ _ s).
  assert (Han : answered s' = answered s ++ [3 * Z.of_nat i]).
  { unfold answered, s'. cbn [bk_used used_idx set_bk_answer]. rewrite pending_push, fmap_app; [done|done|done|].
    rewrite length_app in Hb. unfold answered, pending in Hb. cbn [sy_blk y] in Hb. rewrite !length_fmap, length_seqZ in Hb. lia. }
  set (y' := BlkSys s' seen (l1 ++ l2) calls).
  assert (Hpy : posted y ≡ₚ 3 * Z.of_nat i :: posted y').
  { unfold posted, y, y'. cbn [sy_blk sy_seen sy_taken bk_avail s' set_bk_answer]. rewrite !app_assoc. symmetry. apply Permutation_middle. }
  assert (Hperm : posted y' ++ answered s' ≡ₚ posted y ++ answered s).
  { rewrite Han, Hpy, app_assoc. cbn. symmetry. apply Permutation_cons_append. }
  assert (Hslots : ∀ j slj, blk_slots s !! j = Some slj → ∃ slj', blk_slots s' !! j = Some slj' ∧ sl_in_use slj' = sl_in_use slj ∧ sl_done slj' = sl_done slj).
  { intros j slj Hj. unfold s'. cbn. destruct (decide (j = i)) as [->|Hji].
    - rewrite list_lookup_alter_eq, Hj. cbn. by exists (set_status st slj).
    - rewrite list_lookup_alter_ne by done. by exists slj. }
  split; cbn [sy_blk sy_seen sy_taken sy_calls y']; fold y'.
  - split; cbn; try done; [by apply used_push_ok|by rewrite length_alter].
  - intros tid1 t1 Ht1. destruct (decide (call_slot t1 = Some i)) as [Hi|Hi].
    + assert (tid1 = tid) as -> by (by eapply Hex; [..|apply polls_slot]). rewrite Ht in Ht1. injection Ht1 as <-.
      assert (Hnew : ∃ sl1, blk_slots s' !! i = Some sl1 ∧ sl_in_use sl1 = 1 ∧ request_at disk s' (posted y') t i sl1).
      { exists (set_status st sl). split; [unfold s'; cbn; by rewrite list_lookup_alter_eq, Hsl|]. split; [done|]. constructor 2; [done|rewrite Han, elem_of_app; right; by left|].
        intros Hst. cbn in Hst. destruct (Hok Hst) as [_ Hdata]. destruct Hask as [_ Hsec]. pose proof (get_put (bk_mem s) (th_buf t) data Hby) as Hg.
        assert (Hl : length data = 512%nat) by (rewrite Hdata; apply disk_ok). rewrite Hl in Hg. rewrite <-Hsec, <-Hdata. exact Hg. }
      unfold call_waits, VirtioBlkInv.call_ok in *. destruct (th_pc t); try done; by injection Hpl as ->.
    + eapply call_ok_frame; [|by apply (Hcalls tid1)]. split.
      * intros j Hj. assert (j ≠ i) by congruence. unfold s' at 1. cbn. rewrite list_lookup_alter_ne by done. split; [done|]. split; [done|].
        rewrite Han, Hpy, elem_of_app, elem_of_cons, list_elem_of_singleton. split; split; try tauto; intros [?|?]; lia || done.
      * intros Hr. unfold s'. cbn. apply get_put_ne. assert (tid1 ≠ tid). { intros ->. rewrite Ht in Ht1. injection Ht1 as <-. by apply polls_slot in Hpl. }
        assert (Hap : apart (th_buf t1) (th_buf t)) by (eapply (Hbuf tid1 tid); try done; by eapply slot_running, polls_slot). unfold apart in Hap. lia.
  - exact Hex.
  - intros j slj' Hj'. assert (Hj : is_Some (blk_slots s !! j)).
    { apply lookup_lt_is_Some. apply lookup_lt_Some in Hj'. unfold s' in Hj'. cbn in Hj'. by rewrite length_alter in Hj'. }
    destruct Hj as [slj Hj]. destruct (Hslots j slj Hj) as (x & Hx & Hux & _). rewrite Hj' in Hx. injection Hx as <-. rewrite Hux. by apply Hown.
  - by rewrite Hperm.
  - intros h. rewrite Hperm. intros Hh. destruct (Hout h Hh) as (j & tid1 & t1 & slj & -> & Ht1 & Hp & Hs & Hdj). destruct (Hslots j slj Hs) as (x & Hx & _ & Hdx).
    exists j, tid1, t1, x. split_and!; try done. lia.
  - exact Hbuf.
Qed.

Lemma call_inv s seen taken calls sector buf :
  blk_inv (BlkSys s seen taken calls) → (∀ t, t ∈ calls → returned t = false → apart (th_buf t) buf) →
  blk_inv (BlkSys s seen taken (calls ++ [BrThread sector buf BrStart])).
Proof.
  intros H Hap. open_inv H. split; cbn [sy_blk sy_seen sy_taken sy_calls].
  - done.
  - intros tid t Ht. apply lookup_snoc_Some in Ht as [[_ Ht]|[_ <-]]; [by apply (Hcalls tid)|done].
  - intros tid1 tid2 t1 t2 i H1 H2 Hi1 Hi2. apply lookup_snoc_Some in H1 as [[_ H1]|[_ <-]]; [|done].
    apply lookup_snoc_Some in H2 as [[_ H2]|[_ <-]]; [|done]. by eapply Hex.
  - intros i sl Hs. destruct (Hown i sl Hs) as [?|(tid & t & Ht & Hi)]; [by left|right]. exists tid, t. split; [by apply lookup_app_l_Some|done].
  - done.
  - intros h Hh. destruct (Hout h Hh) as (i & tid & t & sl & ? & Ht & ?). exists i, tid, t, sl. split; [done|]. split; [by apply lookup_app_l_Some|done].
  - intros tid1 tid2 t1 t2 H1 H2 Hne Hr1 Hr2.
    apply lookup_snoc_Some in H1 as [[L1 H1]|[L1 <-]]; apply lookup_snoc_Some in H2 as [[L2 H2]|[L2 <-]]; cbn [th_buf].
    + by apply (Hbuf tid1 tid2).
    + apply Hap; [by eapply list_elem_of_lookup_2|done].
    + assert (Ha : apart (th_buf t2) buf) by (apply Hap; [by eapply list_elem_of_lookup_2|done]). unfold apart in *. lia.
    + lia.
Qed.
End steps.
