(* ===== verification/VirtioBlkProps.v ===== *)
(** * The disk driver: what holds whatever the order of calls, completions and interrupts *)

From S2P Require Import Prelude KString Bytes Virtq VirtioBlk VirtioBlkInv.

Section props.
Context {D : Type} {MM : Mmio D} {BP : BlkPlaces}.
Implicit Types s : blk_state D.
Implicit Types y : blk_sys D.

(** ** Initialisation *)

(** The driver after [blk_init]: empty rings, free slots. *)
Record blk_fresh s : Prop := {
  fr_queue : bk_desc s = replicate 32 zero_desc ∧ bk_avail s = zero_avail ∧ bk_used s = zero_used ∧ used_idx s = 0;
  fr_slots : blk_slots s = replicate 8 zero_slot;
  fr_ready : blk_ready s = true;
  fr_waitq : blk_waitq s = [];
}.

Lemma blk_fresh_inv disk s : blk_fresh s → blk_inv disk (BlkSys s 0 [] []).
Proof.
  intros [(H1 & H2 & H3 & H4) H5 H6 H7].
  assert (Ha : answered s = []) by (unfold answered; by rewrite H3, H4).
  assert (Hp : posted (BlkSys s 0 [] []) = []) by (unfold posted; cbn [sy_blk sy_seen sy_taken]; by rewrite H2).
  split; cbn [sy_blk sy_seen sy_taken sy_calls]; rewrite ?Hp, ?Ha; try done.
  - split; rewrite ?H1, ?H2, ?H3, ?H4, ?H5; try done.
  - intros i sl Hs. left. rewrite H5 in Hs. apply lookup_replicate in Hs as [-> _]. done.
  - constructor.
  - intros h Hh. by apply elem_of_nil in Hh.
Qed.

(** Registers only. *)
Definition dev_only s s' : Prop := ∃ d, s' = set_bk_dev d s.
#[local] Instance dev_only_po : PreOrder dev_only.
Proof. split; [intros s; exists (bk_dev s); by destruct s|]. intros s1 s2 s3 [d1 ->] [d2 ->]. by exists d2. Qed.

Lemma blk_write_only off v s : dev_only s (blk_mmio_write off v s).
Proof. by eexists. Qed.

Lemma blk_read_only off s : dev_only s (blk_mmio_read off s).2.
Proof. unfold blk_mmio_read. destruct (mmio_read _ _) as [v d]. by exists d. Qed.

Ltac dev_chain := repeat first [reflexivity | (etrans; [|apply blk_write_only])].

Lemma find_disk_spec slots : ∀ s,
  (∃ d, (find_disk slots s).2 = set_bk_dev d s) ∧
  ((find_disk slots s).1 = None ∨ ∃ i, i ∈ slots ∧ (find_disk slots s).1 = Some (slot_base i)).
Proof.
  induction slots as [|i slots IH]; intros s; cbn [find_disk].
  { split; [exists (bk_dev s); by destruct s|by left]. }
  destruct (mmio_read _ (bk_dev s)) as [m1 d1]. destruct (mmio_read _ d1) as [m2 d2]. destruct (mmio_read _ d2) as [m3 d3].
  destruct (_ && _ && _).
  - split; [by exists d3|]. right. exists i. split; [by left|done].
  - destruct (IH (set_bk_dev d3 s)) as [[d H1] H2]. split; [exists d; by rewrite H1|].
    destruct H2 as [?|(j & Hj & ?)]; [by left|right]. exists j. split; [by right|done].
Qed.

(** [blk_init] returns 0 only with a block device of the bus, an empty queue and eight
    free request slots, from which the driver runs; otherwise it returns -1.  It
    writes no memory outside its own variables. *)
Theorem blk_init_correct s :
  let '(r, s') := blk_init s in
  bk_mem s' = bk_mem s ∧
  (r = -1 ∨ r = 0 ∧ blk_fresh s' ∧ ∃ i, 0 ≤ i < 8 ∧ virtio_base s' = slot_base i).
Proof.
  unfold blk_init. cbv zeta. destruct (find_disk_spec (seqZ 0 8) (set_bk_base 0 s)) as [[d Hd] Hb].
  destruct (find_disk _ _) as [[base|] s1]; cbn [fst snd] in *; subst s1; [|by split; [|left]].
  destruct Hb as [?|(i & Hi%elem_of_seqZ & [= ->])]; [done|].
  set (s0 := set_bk_base (slot_base i) _). set (s2 := blk_mmio_write MMIO_STATUS 11 _). assert (H2 : dev_only s0 s2) by (unfold s2; dev_chain).
  pose proof (blk_read_only MMIO_STATUS s2) as H3. destruct (blk_mmio_read _ s2) as [st s3]. cbn [snd] in H3.
  assert (H03 : dev_only s0 s3) by (by etrans). clearbody s2. destruct (negb _); [destruct H03 as [d3 ->]; by split; [|left]|].
  pose proof (blk_read_only MMIO_QUEUE_NUM_MAX (blk_mmio_write MMIO_QUEUE_SEL 0 s3)) as H4. destruct (blk_mmio_read _ (blk_mmio_write _ _ s3)) as [qm s4]. cbn [snd] in H4.
  assert (H04 : dev_only s0 s4) by (etrans; [exact H03|]; etrans; [apply blk_write_only|exact H4]).
  destruct (qm <? VIRTQ_NUM); [destruct H04 as [d4 ->]; by split; [|left]|]. change (VIRTQ_NUM <? BLK_REQ_MAX * 3) with false. cbv iota.
  destruct (blk_write_only MMIO_QUEUE_NUM VIRTQ_NUM s4) as [d5 ->]. destruct H04 as [d4 ->].
  match goal with |- context [blk_mmio_write MMIO_QUEUE_DESC_LOW _ ?x] => set (s5 := x) end.
  set (s6 := blk_mmio_write MMIO_STATUS 15 _). assert (H6 : dev_only s5 s6) by (unfold s6; dev_chain). clearbody s6. destruct H6 as [d6 ->].
  split; [done|]. right. split; [done|]. split; [by split|]. exists i. split; [lia|done].
Qed.

(** ** Every order of steps *)

Context (disk : Z → list Z).

(** What can happen after a successful [blk_init]. *)
Definition blk_reachable y : Prop :=
  ∃ s0, blk_fresh s0 ∧ rtc (blk_step disk) (BlkSys s0 0 [] []) y.

Hypothesis disk_ok : ∀ sector, length (disk sector) = 512%nat.

Lemma irq_inv s seen taken calls :
  blk_inv disk (BlkSys s seen taken calls) → blk_inv disk (BlkSys (blk_handle_irq s) seen taken calls).
Proof.
  intros H. unfold blk_handle_irq. destruct (_ =? 0); [done|].
  destruct (blk_read_only MMIO_INTERRUPT_STATUS s) as [d Hd]. destruct (blk_mmio_read _ s) as [st s1]. cbn [snd] in Hd. subst s1.
  assert (H1 : blk_inv disk (BlkSys (set_bk_dev d s) seen taken calls)) by (by apply inv_outside).
  destruct (st =? 0); [done|]. apply inv_outside, process_inv. by apply inv_outside.
Qed.

Lemma run_inv s seen taken calls tid in_proc t :
  blk_inv disk (BlkSys s seen taken calls) → calls !! tid = Some t →
  blk_inv disk (BlkSys (blk_read tid in_proc t s).2 seen taken (<[tid := BrThread (th_sector t) (th_buf t) (blk_read tid in_proc t s).1]> calls)).
Proof.
  intros H Ht. unfold blk_read. destruct (th_pc t) as [| | |i|i|i|i|r] eqn:Hpc; cbn [fst snd].
  - apply pc_moves; try done; destruct (_ || _); unfold call_slot, call_waits, returned; by rewrite ?Hpc.
  - pose proof (choose_inv disk s seen taken calls tid t H Ht Hpc) as Hc. by destruct (blk_read_choose s) as [r s'].
  - assert (H' : blk_inv disk (BlkSys (blk_sleep in_proc tid s) seen taken calls)) by (unfold blk_sleep; destruct in_proc; [by apply inv_outside|done]).
    apply pc_moves; try done; unfold call_slot, call_waits, returned; by rewrite ?Hpc.
  - by apply fill_inv.
  - by apply submit_inv.
  - pose proof (poll_inv disk s seen taken calls tid t i H Ht Hpc) as Hp. destruct (blk_read_poll i s) as [[r|] s']; apply Hp.
  - assert (H' : blk_inv disk (BlkSys (blk_sleep in_proc tid s) seen taken calls)) by (unfold blk_sleep; destruct in_proc; [by apply inv_outside|done]).
    apply pc_moves; try done; unfold call_slot, call_waits, returned, call_ok; rewrite ?Hpc; try done.
    intros po (sl & ? & ? & ?). exists sl. split_and!; [done|done|by apply request_same].
  - apply pc_moves; try done; unfold call_slot, call_waits, returned; by rewrite ?Hpc.
Qed.

Lemma step_inv y y' : blk_inv disk y → blk_step disk y y' → blk_inv disk y'.
Proof.
  intros H Hs. destruct Hs as [y sector buf Hs Hb1 Hb2 Hap|y tid ip t Ht Hw|y|y Hne|y l1 head l2 d st data Htk Hd Hst Hall];
    destruct y as [s seen taken calls]; cbn [sy_blk sy_seen sy_taken sy_calls] in *.
  - by apply call_inv.
  - by apply run_inv.
  - by apply irq_inv.
  - by apply take_inv.
  - subst taken. by apply complete_inv.
Qed.

Lemma reachable_inv y : blk_reachable y → blk_inv disk y.
Proof.
  intros (s0 & Hf & Hr). pose proof (blk_fresh_inv disk s0 Hf) as Hi. induction Hr as [y|y1 y2 y3 Hs _ IH]; [done|]. by eapply IH, step_inv.
Qed.

(** Whatever the order in which calls of [blk_read], the device and interrupts take their steps:
    no two calls ever hold the same slot, a slot is in use exactly while some call holds it,
    no chain is handed to the device twice at a time, and at most eight are out, so
    that neither ring of 32 entries can overflow. *)
Theorem blk_slots_exclusive y :
  blk_reachable y →
  (∀ tid1 tid2 t1 t2 i, sy_calls y !! tid1 = Some t1 → sy_calls y !! tid2 = Some t2 →
     call_slot t1 = Some i → call_slot t2 = Some i → tid1 = tid2) ∧
  (∀ i sl, blk_slots (sy_blk y) !! i = Some sl →
     sl_in_use sl ≠ 0 ↔ ∃ tid t, sy_calls y !! tid = Some t ∧ call_slot t = Some i) ∧
  NoDup (posted y ++ answered (sy_blk y)) ∧ (length (posted y ++ answered (sy_blk y)) ≤ 8)%nat.
Proof.
  intros H%reachable_inv. pose proof (out_bound _ _ H) as Hb. destruct H as [Hsh Hcalls Hex Hown Hnd Hout Hbuf].
  split; [exact Hex|]. split; [|done]. intros i sl Hs. split.
  - intros Hu. by destruct (Hown i sl Hs).
  - intros (tid & t & Ht & Hi). destruct (call_slot_in_use _ _ _ _ _ (Hcalls _ _ Ht) Hi) as (sl' & Hs' & Hu). rewrite Hs in Hs'. injection Hs' as <-. lia.
Qed.

(** C13: When [blk_read] returns 0, its buffer holds the sector that call asked for,
    whichever other calls were under way, in whatever order the device answered
    and whenever the interrupts came; it returns 0 or -1. *)
Theorem blk_read_correct y tid in_proc t r s' :
  blk_reachable y → sy_calls y !! tid = Some t → returned t = false →
  blk_read tid in_proc t (sy_blk y) = (BrReturned r, s') →
  r = 0 ∧ get_bytes (bk_mem s') (th_buf t) 512 = disk (th_sector t) ∨ r = -1.
Proof.
  intros H%reachable_inv Ht Hr Hrun. destruct y as [s seen taken calls]. cbn [sy_blk sy_calls] in *. unfold blk_read, returned in *.
  destruct (th_pc t) as [| | |i|i|i|i|r'] eqn:Hpc; try done.
  - destruct (_ || _); [|done]. injection Hrun as <- <-. by right.
  - destruct (blk_read_choose s) as [[?|] ?]; done.
  - pose proof (poll_inv disk s seen taken calls tid t i H Ht Hpc) as Hp. destruct (blk_read_poll i s) as [[r1|] s1]; [|done].
    injection Hrun as <- <-. apply Hp.
Qed.

(** The handler of the interrupt leaves the available ring alone, and empties
    the wait queue when the device signals. *)
Lemma irq_avail s seen taken calls :
  blk_inv disk (BlkSys s seen taken calls) → bk_avail (blk_handle_irq s) = bk_avail s.
Proof.
  intros H. unfold blk_handle_irq. destruct (_ =? 0); [done|].
  destruct (blk_read_only MMIO_INTERRUPT_STATUS s) as [d Hd]. destruct (blk_mmio_read _ s) as [st s2]. cbn [snd] in Hd. subst s2.
  destruct (st =? 0); [done|].
  assert (Hi : blk_inv disk (BlkSys (blk_mmio_write MMIO_INTERRUPT_ACK st (set_bk_dev d s)) seen taken calls))
    by (by apply (inv_outside disk (set_bk_dev d s)), (inv_outside disk s)).
  destruct (process_inv disk _ _ _ _ Hi) as (_ & _ & (l & k & He)). unfold blk_wake_all. cbn [bk_avail set_blk_waitq]. by rewrite He.
Qed.

Lemma irq_wakes s :
  virtio_base s ≠ 0 → (blk_mmio_read MMIO_INTERRUPT_STATUS s).1 ≠ 0 → blk_waitq (blk_handle_irq s) = [].
Proof.
  intros Hbase Hst. unfold blk_handle_irq. rewrite (proj2 (Z.eqb_neq _ 0) Hbase).
  destruct (blk_mmio_read _ s) as [st s2]. cbn [fst] in Hst. by rewrite (proj2 (Z.eqb_neq _ 0) Hst).
Qed.

(** A look at a slot the device no longer works on ends the call. *)
Lemma poll_returns s seen taken calls tid t i :
  blk_inv disk (BlkSys s seen taken calls) → calls !! tid = Some t → th_pc t = BrPoll i →
  3 * Z.of_nat i ∉ posted (BlkSys s seen taken calls) → ∃ r, (blk_read tid true t s).1 = BrReturned r.
Proof.
  intros H Ht Hpc Hnot. pose proof (poll_inv disk s seen taken calls tid t i H Ht Hpc) as Hp. unfold blk_read. rewrite Hpc.
  destruct (blk_read_poll i s) as [[r|] s2]; [by exists r|]. by destruct Hp as [Hin _].
Qed.

(** C37: A read completes: take any reachable state and a call that is in its
    waiting loop before a look at its slot, awake or asleep there, and whose
    request the device is no longer working on.  Then the look ends the call,
    whether or not the interrupt has been handled by then; and an interrupt the
    device signals makes sure that the call is not asleep.  (A call that has
    already looked in vain and is about to sleep is not in such a state before
    it has gone to sleep, and then needs a later interrupt.) *)
Theorem blk_read_completes y tid t i :
  blk_reachable y → sy_calls y !! tid = Some t → th_pc t = BrPoll i → 3 * Z.of_nat i ∉ posted y →
  (∃ r, (blk_read tid true t (sy_blk y)).1 = BrReturned r) ∧
  let s1 := blk_handle_irq (sy_blk y) in
  (∃ r, (blk_read tid true t s1).1 = BrReturned r) ∧
  (virtio_base (sy_blk y) ≠ 0 → (blk_mmio_read MMIO_INTERRUPT_STATUS (sy_blk y)).1 ≠ 0 → tid ∉ blk_waitq s1).
Proof.
  intros H%reachable_inv Ht Hpc Hnot. destruct y as [s seen taken calls]. cbn [sy_blk sy_calls] in *.
  split; [by eapply poll_returns|]. split.
  - eapply poll_returns; [by apply irq_inv|done..|]. by rewrite (posted_eq s _ seen taken calls calls) by (by eapply irq_avail).
  - intros Hb Hst. rewrite irq_wakes by done. apply not_elem_of_nil.
Qed.
End props.

(** ** Runs that can be evaluated *)
Section play.
Context {D : Type} {MM : Mmio D} {BP : BlkPlaces} (disk : Z → list Z).
Hypothesis disk_bytes : ∀ sector, length (disk sector) = 512%nat ∧ is_bytes (disk sector).

Inductive blk_event := EvCall (sector buf : Z) | EvRun (tid : nat) | EvIrq | EvTake | EvComplete (st : Z).

(** The step of an event where it is allowed; a completion is that of the chain taken first. *)
Definition blk_do (e : blk_event) (y : blk_sys D) : option (blk_sys D) :=
  match e with
  | EvCall sector buf =>
      if (0 <=? sector) && (sector <? 4294967296) && (0 <=? buf) && (buf + 512 <=? 4294967296) &&
         forallb (λ t, returned t || (th_buf t + 512 <=? buf) || (buf + 512 <=? th_buf t)) (sy_calls y)
      then Some (BlkSys (sy_blk y) (sy_seen y) (sy_taken y) (sy_calls y ++ [BrThread sector buf BrStart])) else None
  | EvRun tid =>
      match sy_calls y !! tid with
      | Some t =>
          if bool_decide (tid ∈ blk_waitq (sy_blk y)) then None
          else Some (BlkSys (blk_read tid true t (sy_blk y)).2 (sy_seen y) (sy_taken y)
                 (<[tid := BrThread (th_sector t) (th_buf t) (blk_read tid true t (sy_blk y)).1]> (sy_calls y)))
      | None => None
      end
  | EvIrq => Some (BlkSys (blk_handle_irq (sy_blk y)) (sy_seen y) (sy_taken y) (sy_calls y))
  | EvTake => if sy_seen y =? va_idx (bk_avail (sy_blk y)) then None else Some (dev_take y)
  | EvComplete st =>
      match sy_taken y with
      | head :: l2 =>
          match chain_at (bk_desc (sy_blk y)) head with
          | Some d =>
              let sl := default zero_slot (blk_slots (sy_blk y) !! slot_at (qd_addr d.1.1)) in
              if (0 <=? st) && (st <? 256) && (qd_len d.1.2 =? 512) && (sl_type sl =? VIRTIO_BLK_T_IN)
              then Some (BlkSys (dev_answer d head st (disk (sl_sector sl)) (sy_blk y)) (sy_seen y) l2 (sy_calls y)) else None
          | None => None
          end
      | [] => None
      end
  end.

Lemma blk_do_step e y y' : blk_do e y = Some y' → blk_step disk y y'.
Proof.
  destruct e as [sector buf|tid| | |st]; cbn [blk_do].
  - destruct (_ && _) eqn:Hg; [|done]. intros [= <-]. rewrite !andb_true_iff, !Z.leb_le, Z.ltb_lt, forallb_forall in Hg.
    destruct Hg as [[[[H1 H2] H3] H4] H5]. apply StepCall; [done|done|done|]. intros t Ht Hr. specialize (H5 t (proj1 (list_elem_of_In _ _) Ht)).
    rewrite Hr in H5. cbn in H5. rewrite orb_true_iff, !Z.leb_le in H5. unfold apart. lia.
  - destruct (sy_calls y !! tid) as [t|] eqn:Ht; [|done]. case_bool_decide; [done|]. intros [= <-]. by apply StepRun.
  - intros [= <-]. apply StepIrq.
  - destruct (Z.eqb_spec (sy_seen y) (va_idx (bk_avail (sy_blk y)))); [done|]. intros [= <-]. by apply StepTake.
  - destruct (sy_taken y) as [|head l2] eqn:Htk; [done|]. destruct (chain_at _ head) as [d|] eqn:Hd; [|done].
    set (sl := default _ _). destruct (_ && _) eqn:Hg; [|done]. intros [= <-]. rewrite !andb_true_iff, Z.leb_le, Z.ltb_lt, !Z.eqb_eq in Hg.
    destruct Hg as [[[H1 H2] H3] H4]. destruct (disk_bytes (sl_sector sl)) as [Hl Hb].
    apply (StepComplete disk y [] head l2 d st); [done|done|done|]. fold sl. split; [done|]. split; [rewrite Hl, H3; lia|]. intros _. by split.
Qed.

Fixpoint blk_play (es : list blk_event) (y : blk_sys D) : option (blk_sys D) :=
  match es with
  | [] => Some y
  | e :: es' => match blk_do e y with Some y' => blk_play es' y' | None => None end
  end.

Lemma blk_play_steps es : ∀ y y', blk_play es y = Some y' → rtc (blk_step disk) y y'.
Proof.
  induction es as [|e es IH]; intros y y'; cbn [blk_play]; [by intros [= <-]|].
  destruct (blk_do e y) as [y1|] eqn:He; [|done]. intros H. eapply rtc_l; [by apply (blk_do_step e)|by apply IH].
Qed.
End play.

(** ** A disk in slot 3 *)
Section demo.

Definition demo_disk (sector : Z) : list Z := replicate 512 (sector mod 256).
Definition demo_register (a : Z) : Z :=
  if negb ((a - VIRTIO_MMIO_BASE) / VIRTIO_MMIO_STEP =? 3) then 0
  else
    let off := (a - VIRTIO_MMIO_BASE) mod VIRTIO_MMIO_STEP in
    if off =? MMIO_MAGIC_VALUE then VIRTIO_MAGIC
    else if off =? MMIO_VERSION then 2
    else if off =? MMIO_DEVICE_ID then 2
    else if off =? MMIO_STATUS then 11
    else if off =? MMIO_QUEUE_NUM_MAX then 256
    else if off =? MMIO_INTERRUPT_STATUS then 1 else 0.
#[local] Instance demo_mmio : Mmio unit := { mmio_read a d := (demo_register a, d); mmio_write _ _ d := d }.
#[local] Instance demo_places : BlkPlaces := { blk_slots_at := 2149580800; bk_desc_at := 2149584896; bk_avail_at := 2149588992; bk_used_at := 2149593088 }.

Definition demo_boot : blk_state unit :=
  BlkState (replicate 32 zero_desc) zero_avail zero_used (replicate 8 zero_slot) 0 false 0 [] ∅ tt.
Definition demo_ready : blk_sys unit := BlkSys (blk_init demo_boot).2 0 [] [].

Lemma demo_disk_ok sector : length (demo_disk sector) = 512%nat ∧ is_bytes (demo_disk sector).
Proof.
  split; [apply length_replicate|]. apply Forall_replicate. apply Z.mod_pos_bound. lia.
Qed.

Lemma demo_ready_fresh : blk_fresh (blk_init demo_boot).2.
Proof. split; by vm_compute. Qed.

Lemma demo_reachable es y : blk_play demo_disk es demo_ready = Some y → blk_reachable demo_disk y.
Proof. intros H. exists (blk_init demo_boot).2. split; [apply demo_ready_fresh|]. eapply blk_play_steps; [apply demo_disk_ok|exact H]. Qed.

(** Two reads, both on their way to the device; the device has taken both and answered the first. *)
Definition demo_events : list blk_event :=
  [EvCall 7 2150629376; EvRun 0; EvRun 0; EvRun 0; EvRun 0; EvCall 9 2150630400; EvRun 1; EvRun 1; EvRun 1; EvRun 1; EvTake; EvTake; EvComplete 0].
Definition demo_two : blk_sys unit := default demo_ready (blk_play demo_disk demo_events demo_ready).

Lemma demo_two_reachable : blk_reachable demo_disk demo_two.
Proof. apply (demo_reachable demo_events). unfold demo_two. by vm_compute. Qed.

Lemma blk_slots_exclusive_witness : posted demo_two = [3] ∧ answered (sy_blk demo_two) = [0] ∧ NoDup (posted demo_two ++ answered (sy_blk demo_two)).
Proof.
  split; [by vm_compute|]. split; [by vm_compute|].
  exact (proj1 (proj2 (proj2 (blk_slots_exclusive demo_disk (λ n, proj1 (demo_disk_ok n)) demo_two demo_two_reachable)))).
Defined.

Lemma blk_read_correct_witness :
  ∃ t s', sy_calls demo_two !! 0%nat = Some t ∧ blk_read 0 true t (sy_blk demo_two) = (BrReturned 0, s') ∧
    get_bytes (bk_mem s') (th_buf t) 512 = demo_disk 7.
Proof.
  assert (Ht : sy_calls demo_two !! 0%nat = Some (BrThread 7 2150629376 (BrPoll 0))) by (by vm_compute).
  assert (Hr : (blk_read 0 true (BrThread 7 2150629376 (BrPoll 0)) (sy_blk demo_two)).1 = BrReturned 0) by (by vm_compute).
  destruct (blk_read 0 true (BrThread 7 2150629376 (BrPoll 0)) (sy_blk demo_two)) as [pc s'] eqn:He. cbn [fst] in Hr. subst pc.
  exists (BrThread 7 2150629376 (BrPoll 0)), s'. split; [exact Ht|]. split; [exact He|].
  destruct (blk_read_correct demo_disk (λ n, proj1 (demo_disk_ok n)) demo_two 0 true _ 0 s' demo_two_reachable Ht eq_refl He) as [[_ H]|H]; [exact H|discriminate H].
Defined.

Lemma blk_read_completes_witness :
  let t := BrThread 7 2150629376 (BrPoll 0) in
  (∃ r, (blk_read 0 true t (sy_blk demo_two)).1 = BrReturned r) ∧
  (∃ r, (blk_read 0 true t (blk_handle_irq (sy_blk demo_two))).1 = BrReturned r) ∧
  0%nat ∉ blk_waitq (blk_handle_irq (sy_blk demo_two)).
Proof.
  intros t. assert (Ht : sy_calls demo_two !! 0%nat = Some t) by (by vm_compute).
  assert (Hp : 3 * Z.of_nat 0 ∉ posted demo_two)
    by (assert (posted demo_two = [3]) as -> by (by vm_compute); by rewrite list_elem_of_singleton).
  destruct (blk_read_completes demo_disk (λ n, proj1 (demo_disk_ok n)) demo_two 0 t 0 demo_two_reachable Ht eq_refl Hp)
    as (H1 & H2 & H3).
  split; [exact H1|]. split; [exact H2|]. apply H3; by vm_compute.
Defined.

(** The interrupt comes when the call has seen that its request is not done and is about to sleep. *)
Definition late_events : list blk_event :=
  [EvCall 7 2150629376; EvRun 0; EvRun 0; EvRun 0; EvRun 0; EvRun 0; EvTake; EvComplete 0; EvIrq; EvRun 0].

(** C39: [blk_read] can miss its wake-up: between its look at [done] and [waitq_sleep] the lock is
    released, and an interrupt that comes there marks the request done and wakes
    nobody.  There is a reachable state in which the call sleeps although its
    request is done and the device has nothing left that could interrupt again. *)
Theorem blk_read_lost_wakeup :
  ∃ (y : blk_sys unit) t, blk_reachable demo_disk y ∧ sy_calls y !! 0%nat = Some t ∧ th_pc t = BrPoll 0 ∧ 0%nat ∈ blk_waitq (sy_blk y) ∧
    sl_done <$> blk_slots (sy_blk y) !! 0%nat = Some 1 ∧ posted y = [] ∧ answered (sy_blk y) = [].
Proof.
  destruct (blk_play demo_disk late_events demo_ready) as [y|] eqn:He; [|by vm_compute in He].
  assert (Hy : y = default demo_ready (blk_play demo_disk late_events demo_ready)) by (by rewrite He).
  exists y, (BrThread 7 2150629376 (BrPoll 0)). split; [by apply (demo_reachable late_events)|]. rewrite Hy. clear He Hy.
  split; [by vm_compute|]. split; [done|]. split; [vm_compute; by left|]. split; [by vm_compute|]. split; by vm_compute.
Qed.
End demo.
