(* ===== verification/Trap.v ===== *)
(** * Traps, [src/arch/riscv32/trap/trap.c], and the interrupt controller, [src/arch/riscv32/plic.c]

    Here everything the kernel keeps comes together: the state behind the system
    calls with the display driver, the other two drivers and the interrupt
    controller.  The cause and the address of a trap are what the hart put in its
    registers; [current_proc] is the process of the kernel state, which is set
    when traps can come. *)

From S2P Require Import Prelude Layout KString PageAlloc PageAllocSpec PageIface Vm Proc ProcessVm Sched WaitQ Ring Event Printf Fs.
From S2P Require Import UserCopy Process GpuIface Syscall Virtq VirtioInput VirtioGpu VirtioBlk.

Definition SCAUSE_ECALL_FROM_UMODE : Z := 8.
Definition SCAUSE_ECALL_FROM_SMODE : Z := 9.
Definition SCAUSE_SUPERVISOR_EXTERNAL_IRQ : Z := 2147483657.   (* 0x80000000 | 9 *)
Definition SCAUSE_INST_PAGE_FAULT : Z := 12.
Definition SCAUSE_LOAD_PAGE_FAULT : Z := 13.
Definition SCAUSE_STORE_PAGE_FAULT : Z := 15.
Definition SIE_SEIE : Z := 512.
Definition KEVENT_TYPE_GPU_IRQ : Z := 2.

(** ** The interrupt controller *)
Section plic.
Context {D : Type} {MM : Mmio D}.

Definition PLIC_BASE : Z := 201326592.   (* 0x0c000000 *)
Definition PLIC_PRIORITY (irq : Z) : Z := add32 PLIC_BASE (mul32 irq 4).
Definition PLIC_SENABLE : Z := PLIC_BASE + 8320.
Definition PLIC_SPRIORITY : Z := PLIC_BASE + 2101248.
Definition PLIC_SCLAIM : Z := PLIC_BASE + 2101252.

Definition plic_init (d : D) : D :=
  let d := foldl (λ d irq, mmio_write (PLIC_PRIORITY irq) 1 d) d (seqZ 1 64) in
  let d := mmio_write PLIC_SENABLE 4294967295 d in
  let d := mmio_write (PLIC_SENABLE + 4) 4294967295 d in
  mmio_write PLIC_SPRIORITY 0 d.
Definition plic_claim (d : D) : Z * D := let '(v, d) := mmio_read PLIC_SCLAIM d in (wrap32 v, d).
Definition plic_complete (irq : Z) (d : D) : D := mmio_write PLIC_SCLAIM irq d.
End plic.

(** ** Causes *)

Definition is_syscall_scause (scause : Z) : bool := (scause =? SCAUSE_ECALL_FROM_UMODE) || (scause =? SCAUSE_ECALL_FROM_SMODE).

Definition page_fault_access (scause : Z) : Z :=
  if scause =? SCAUSE_INST_PAGE_FAULT then VMA_PROT_X
  else if scause =? SCAUSE_LOAD_PAGE_FAULT then VMA_PROT_R
  else if scause =? SCAUSE_STORE_PAGE_FAULT then VMA_PROT_W
  else 0.

Definition scause_name (scause : Z) : list Z :=
  bytes_of (if scause =? SCAUSE_ECALL_FROM_UMODE then "ecall-u"%string
            else if scause =? SCAUSE_ECALL_FROM_SMODE then "ecall-s"%string
            else if scause =? SCAUSE_SUPERVISOR_EXTERNAL_IRQ then "sext-irq"%string
            else if scause =? SCAUSE_INST_PAGE_FAULT then "inst-page-fault"%string
            else if scause =? SCAUSE_LOAD_PAGE_FAULT then "load-page-fault"%string
            else if scause =? SCAUSE_STORE_PAGE_FAULT then "store-page-fault"%string
            else "unknown"%string).

(** The control registers trap.c writes, except [sstatus], which belongs to the kernel state. *)
Record csrs := Csrs { csr_stvec : Z; csr_sscratch : Z; csr_sie : Z; csr_sip : Z }.

(** The address of [kernel_entry], in [trap/entry.c]. *)
Class TrapEntry := { kernel_entry : Z }.

Record trap_state (P Dg Di Db Dp : Type) := TrapState {
  ts_sys : sys_state P (vg_state Dg);
  ts_input : vi_state Di;
  ts_disk : blk_state Db;
  (** The processes asleep on [vg_waitq]. *)
  ts_vg_waitq : list nat;
  ts_plic : Dp;
  ts_csrs : csrs;
  g_last_user_scause : Z; g_last_user_stval : Z; g_last_user_sepc : Z;
}.
Arguments TrapState {P Dg Di Db Dp} _ _ _ _ _ _ _ _ _.
Arguments ts_sys {P Dg Di Db Dp} _.
Arguments ts_input {P Dg Di Db Dp} _.
Arguments ts_disk {P Dg Di Db Dp} _.
Arguments ts_vg_waitq {P Dg Di Db Dp} _.
Arguments ts_plic {P Dg Di Db Dp} _.
Arguments ts_csrs {P Dg Di Db Dp} _.
Arguments g_last_user_scause {P Dg Di Db Dp} _.
Arguments g_last_user_stval {P Dg Di Db Dp} _.
Arguments g_last_user_sepc {P Dg Di Db Dp} _.

(** How a trap ends: back to the code that was interrupted, with the frame that is
    restored and what was stored in user memory; in another process, the
    interrupted one asleep or gone; or with the machine shut down. *)
Inductive trap_end :=
| TrapReturn (f : trap_frame) (stores : list (Z * Z))
| TrapSwitched
| TrapHalted.

Section trap.
Context {L : Layout} {P Dg Di Db Dp : Type} {PO : PageOps P} {RE : ResumeEntry} {TE : TrapEntry} {EX : Ext4Ops}.
Context {VD : VgDevice Dg} {VP : VgPlaces} {VI : ViDevice Di} {MB : Mmio Db} {MP : Mmio Dp}.
Abbreviation TM := (km (trap_state P Dg Di Db Dp)).
Implicit Types t : trap_state P Dg Di Db Dp.

Definition set_ts_sys x t : trap_state P Dg Di Db Dp := TrapState x (ts_input t) (ts_disk t) (ts_vg_waitq t) (ts_plic t) (ts_csrs t) (g_last_user_scause t) (g_last_user_stval t) (g_last_user_sepc t).
Definition set_ts_drivers input disk q t : trap_state P Dg Di Db Dp := TrapState (ts_sys t) input disk q (ts_plic t) (ts_csrs t) (g_last_user_scause t) (g_last_user_stval t) (g_last_user_sepc t).
Definition set_ts_plic x t : trap_state P Dg Di Db Dp := TrapState (ts_sys t) (ts_input t) (ts_disk t) (ts_vg_waitq t) x (ts_csrs t) (g_last_user_scause t) (g_last_user_stval t) (g_last_user_sepc t).
Definition set_ts_csrs x t : trap_state P Dg Di Db Dp := TrapState (ts_sys t) (ts_input t) (ts_disk t) (ts_vg_waitq t) (ts_plic t) x (g_last_user_scause t) (g_last_user_stval t) (g_last_user_sepc t).
Definition set_last_user a b c t : trap_state P Dg Di Db Dp := TrapState (ts_sys t) (ts_input t) (ts_disk t) (ts_vg_waitq t) (ts_plic t) (ts_csrs t) a b c.
Definition set_ss_kernel (k : kernel_state P) (s : sys_state P (vg_state Dg)) := SysState k (ss_events s) (ss_kbd s) (ss_console s) (ss_gpu s).
Definition set_ss_events e (s : sys_state P (vg_state Dg)) := SysState (ss_kernel s) e (ss_kbd s) (ss_console s) (ss_gpu s).
Definition set_ss_gpu (g : vg_state Dg) (s : sys_state P (vg_state Dg)) := SysState (ss_kernel s) (ss_events s) (ss_kbd s) (ss_console s) g.
Definition set_k_sstatus v (k : kernel_state P) := KernelState (k_vm k) (k_fs k) v.

Definition on_sys {A} (c : km (sys_state P (vg_state Dg)) A) : TM A := zoom ts_sys set_ts_sys c.

Definition arch_trap_init : TM unit := kmodify (λ t,
  let t := set_ts_csrs (Csrs kernel_entry 0 0 (csr_sip (ts_csrs t))) t in
  let k := ss_kernel (ts_sys t) in
  set_ts_sys (set_ss_kernel (set_k_sstatus (Z.land (k_sstatus k) (not32 SSTATUS_SIE)) k) (ts_sys t)) t).

Definition arch_trap_enable_interrupts : TM unit := kmodify (λ t,
  let t := set_ts_csrs (Csrs (csr_stvec (ts_csrs t)) (csr_sscratch (ts_csrs t)) SIE_SEIE (csr_sip (ts_csrs t))) t in
  let k := ss_kernel (ts_sys t) in
  set_ts_sys (set_ss_kernel (set_k_sstatus (Z.lor (k_sstatus k) SSTATUS_SIE) k) (ts_sys t)) t).

(** *** What is printed *)

Definition kprintf (fmt : string) (args : list arg) : TM unit :=
  match printf (bytes_of fmt) args with
  | Some out => on_sys (kmodify (λ s, SysState (ss_kernel s) (ss_events s) (ss_kbd s) (ss_console s ++ out) (ss_gpu s)))
  | None => knofuel
  end.

Definition words (l : list Z) : list arg := AWord <$> l.

Definition newline : string := String (Ascii.ascii_of_nat 10) EmptyString.

Definition dump_trap_frame (f : trap_frame) : TM unit :=
  do! kprintf ("trap tf0: ra=%x sp=%x gp=%x tp=%x" ++ newline) (words [tf_ra f; tf_sp f; tf_gp f; tf_tp f]) in
  do! kprintf ("trap tf1: a0=%x a1=%x a2=%x a3=%x a4=%x a5=%x a6=%x a7=%x" ++ newline) (words ((λ i, tf_a f !!! i) <$> seq 0 8)) in
  do! kprintf ("trap tf2: t0=%x t1=%x t2=%x t3=%x t4=%x t5=%x t6=%x" ++ newline) (words ((λ i, tf_t f !!! i) <$> seq 0 7)) in
  kprintf ("trap tf3: s0=%x s1=%x s2=%x s3=%x s4=%x s5=%x s6=%x s7=%x s8=%x s9=%x s10=%x s11=%x" ++ newline)
    (words ((λ i, tf_s f !!! i) <$> seq 0 12)).

Definition proc_state_code (x : proc_state) : Z :=
  match x with PROC_UNUSED => 0 | PROC_RUNNABLE => 1 | PROC_BLOCKED => 2 | PROC_ZOMBIE => 3 end.

(** The stack pointer of the process is printed as the offset [sp] keeps. *)
Definition dump_trap_context (scause stval pc : Z) (f : trap_frame) : TM unit :=
  let! t := kget in
  let k := ss_kernel (ts_sys t) in
  do! kprintf ("trap: scause=%x(%s) stval=%x sepc=%x sstatus=%x satp=%x sip=%x sie=%x" ++ newline)
    [AWord scause; AStr (scause_name scause); AWord stval; AWord pc; AWord (k_sstatus k); AWord (csr_satp (k_vm k));
     AWord (csr_sip (ts_csrs t)); AWord (csr_sie (ts_csrs t))] in
  let! p := on_sys current in
  do! kprintf ("trap proc: pid=%d state=%d is_user=%d sp=%x proc_sepc=%x proc_satp=%x" ++ newline)
    (words [pid p; proc_state_code (state p); if is_user p then 1 else 0; sp p; sepc p; satp p]) in
  dump_trap_frame f.

(** *** Interrupts *)

(** The process table after [waitq_wake_all] of a queue with the processes [l]. *)
Definition wake_processes (l : list nat) (k : kernel_state P) : kernel_state P :=
  set_k_procs (fold_left wake_one (Some <$> l) (k_procs k)) k.
Definition wake (l : list nat) : TM unit :=
  on_sys (kmodify (λ s, set_ss_kernel (wake_processes l (ss_kernel s)) s)).

(** [virtio_input_handle_irq] on its part of the state. *)
Definition input_irq : TM unit :=
  do! zoom (λ t, (ss_events (ts_sys t), ts_input t))
        (λ r t, set_ts_drivers r.2 (ts_disk t) (ts_vg_waitq t) (set_ts_sys (set_ss_events r.1 (ts_sys t)) t)) virtio_input_handle_irq in
  kret tt.

(** [blk_handle_irq], with the processes it makes runnable. *)
Definition disk_irq : TM unit :=
  let! t := kget in
  let d := blk_handle_irq (ts_disk t) in
  let woken := filter (λ i, i ∉ blk_waitq d) (blk_waitq (ts_disk t)) in
  do! kmodify (λ t, set_ts_drivers (ts_input t) d (ts_vg_waitq t) t) in
  wake woken.

(** [virtio_gpu_handle_irq], the end of [src/drivers/virtio/virtio_gpu.c] *)
Definition virtio_gpu_handle_irq : TM unit :=
  let! t := kget in
  let g := ss_gpu (ts_sys t) in
  if vg_base g =? 0 then kret tt
  else
    let '(st, g) := vg_mmio_read MMIO_INTERRUPT_STATUS g in
    do! on_sys (kmodify (set_ss_gpu g)) in
    if st =? 0 then kret tt
    else
      do! on_sys (kmodify (λ s, set_ss_gpu (vg_mmio_write MMIO_INTERRUPT_ACK st (ss_gpu s)) s)) in
      do! kmodify (λ t, set_ts_drivers (ts_input t) (ts_disk t) [] t) in
      do! wake (ts_vg_waitq t) in
      do! on_sys (on_events (kevent_push KEVENT_TYPE_GPU_IRQ st 0 0 0)) in
      kret tt.

(** [while (1) { irq = plic_claim(); if (irq == 0) break; ... }], with the
    sources that were served. *)
Fixpoint external_loop (fuel : nat) : TM (list Z) :=
  match fuel with
  | O => knofuel
  | S fuel' =>
      let! t := kget in
      let '(irq, d) := plic_claim (ts_plic t) in
      do! kmodify (set_ts_plic d) in
      if irq =? 0 then kret []
      else
        do! (if irq <=? 64 then do! input_irq in do! disk_irq in virtio_gpu_handle_irq else kret tt) in
        do! kmodify (λ t, set_ts_plic (plic_complete irq (ts_plic t)) t) in
        let! l := external_loop fuel' in
        kret (irq :: l)
  end.

(** *** The dispatch *)

(** [ld], [ld32] and [console] are what a system call reads of user memory and of the
    firmware; [n] bounds the rounds of the interrupt loop. *)
Definition handle_trap (n : nat) (scause stval : Z) (ld ld32 : Z → Z) (console : Z) (f : trap_frame) : TM trap_end :=
  let user_pc := tf_sepc f in
  if scause =? SCAUSE_SUPERVISOR_EXTERNAL_IRQ then do! external_loop n in kret (TrapReturn f [])
  else if is_syscall_scause scause then
    let! r := on_sys (arch_handle_ecall ld ld32 console f) in
    match r with Some (f, stores) => kret (TrapReturn f stores) | None => kret TrapSwitched end
  else
    let access := page_fault_access scause in
    let! p := on_sys current in
    let! r := (if is_user p && negb (access =? 0) then on_sys (on_kernel (on_vm (proc_handle_user_page_fault p stval access))) else kret (-1)) in
    if r =? 0 then kret (TrapReturn f [])
    else if is_user p then
      do! kmodify (set_last_user scause stval user_pc) in
      do! dump_trap_context scause stval user_pc f in
      do! on_sys (on_kernel (proc_exit 128)) in
      kret TrapSwitched
    else
      do! kprintf ("kernel: unexpected trap; shutting down" ++ newline) [] in
      do! dump_trap_context scause stval user_pc f in
      kret TrapHalted.
End trap.
