(* ===== verification/TrapProps.v ===== *)
(** * Traps: interrupts reach the drivers, faults the right process *)

From S2P Require Import Prelude Layout KString PageAlloc PageAllocSpec PageAllocProps PageIface Vm VmSpec Proc ProcessVm ProcessVmSpec ProcessVmPages ProcessVmProps.
From S2P Require Import Sched WaitQ Ring Event Printf Fs FsSpec FsOps FsProps UserCopy Process ProcessSpec ProcessLife ProcessProps GpuIface Syscall.
From S2P Require Import Bytes Virtq VirtioInput VirtioInputProps VirtioGpu VirtioGpuSpec VirtioGpuProps VirtioBlk VirtioBlkInv VirtioBlkProps Trap.

(** ** Messages *)

(** The arguments a format asks for: [true] for a string, [false] for a word. *)
Fixpoint fmt_args (fmt : list Z) : list bool :=
  match fmt with
  | [] => []
  | c :: fmt1 =>
      if c =? 37 then
        match fmt1 with
        | [] => []
        | d :: fmt2 => (if d =? 115 then [true] else if (d =? 100) || (d =? 120) then [false] else []) ++ fmt_args fmt2
        end
      else fmt_args fmt1
  end.
Definition is_str (a : arg) : bool := match a with AStr _ => true | AWord _ => false end.

(** With the arguments it asks for, a message is always printed to its end. *)
Lemma printf_total_len n : ∀ fmt args, (length fmt ≤ n)%nat → is_str <$> args = fmt_args fmt → is_Some (printf fmt args).
Proof.
  induction n as [|n IH]; intros fmt args Hn Ha; (destruct fmt as [|c fmt1]; [done|]); [simpl in Hn; lia|]. cbn [printf fmt_args] in *.
  destruct (c =? 37); [|apply fmap_is_Some, IH; [simpl in Hn; lia|done]].
  destruct fmt1 as [|d fmt2]; [done|]. simpl in Hn. destruct (Z.eqb_spec d 37) as [->|_].
  { apply fmap_is_Some, IH; [lia|done]. }
  destruct (d =? 115).
  { destruct args as [|[w|s] args]; try done. injection Ha as Ha. apply fmap_is_Some, IH; [lia|done]. }
  destruct (d =? 100).
  { destruct args as [|[w|s] args]; try done. injection Ha as Ha. destruct (print_d_spec w) as (out & -> & _). apply fmap_is_Some, IH; [lia|done]. }
  destruct (d =? 120); cbn [orb] in Ha.
  { destruct args as [|[w|s] args]; try done. injection Ha as Ha. apply fmap_is_Some, IH; [lia|done]. }
  apply IH; [lia|done].
Qed.

Lemma printf_total fmt args : is_str <$> args = fmt_args fmt → is_Some (printf fmt args).
Proof. by apply (printf_total_len (length fmt)). Qed.

(** ** Waking *)










(** ** Interrupts *)



(** A controller with finitely many interrupts pending, none of which comes again
    while the handler runs.  A claim takes the next one, which is then in service
    until it is completed; 0 stands for none. *)
Class PlicOk (Dp : Type) {MP : Mmio Dp} := {
  plic_pending : Dp → list Z;
  plic_in_service : Dp → list Z;
  plic_claim_none : ∀ d, plic_pending d = [] →
    (plic_claim d).1 = 0 ∧ plic_pending (plic_claim d).2 = [] ∧ plic_in_service (plic_claim d).2 = plic_in_service d;
  plic_claim_some : ∀ d irq l, plic_pending d = irq :: l →
    irq ≠ 0 ∧ (plic_claim d).1 = irq ∧ plic_pending (plic_claim d).2 = l ∧ plic_in_service (plic_claim d).2 = irq :: plic_in_service d;
  plic_complete_ok : ∀ irq d l, plic_in_service d = irq :: l →
    plic_in_service (plic_complete irq d) = l ∧ plic_pending (plic_complete irq d) = plic_pending d;
}.


Section irq.
Context {L : Layout} {P Dg Di Db Dp : Type} {PO : PageOps P} {RE : ResumeEntry} {TE : TrapEntry} {EX : Ext4Ops}.
Context {VD : VgDevice Dg} {VP : VgPlaces} {VI : ViDevice Di} {MB : Mmio Db} {BP : BlkPlaces} {MP : Mmio Dp} {PK : PlicOk Dp}.
Implicit Types t : trap_state P Dg Di Db Dp.
Abbreviation kern t := (ss_kernel (ts_sys t)).
































End irq.

(** ** Exceptions *)
Section fault.
Context {L : Layout} {LOK : LayoutOk} {P Dg Di Db Dp : Type} {PO : PageOps P} {POK : PageOpsOk P} {RE : ResumeEntry} {TE : TrapEntry} {EX : Ext4Ops}.
Context {VD : VgDevice Dg} {VP : VgPlaces} {VI : ViDevice Di} {MB : Mmio Db} {MP : Mmio Dp}.
Implicit Types t : trap_state P Dg Di Db Dp.
Abbreviation kern t := (ss_kernel (ts_sys t)).

Definition set_ss_console (l : list Z) (s : sys_state P (vg_state Dg)) := SysState (ss_kernel s) (ss_events s) (ss_kbd s) l (ss_gpu s).
(** Nothing but output. *)
Definition printed t t' : Prop := ∃ out, t' = set_ts_sys (set_ss_console (ss_console (ts_sys t) ++ out) (ts_sys t)) t.
#[local] Instance printed_po : PreOrder printed.
Proof.
  split.
  - intros t. exists []. unfold set_ts_sys, set_ss_console. rewrite app_nil_r. by destruct t as [[]].
  - intros t1 t2 t3 [o1 ->] [o2 ->]. exists (o1 ++ o2). unfold set_ts_sys, set_ss_console. cbn. by rewrite app_assoc.
Qed.

Lemma kprintf_spec fmt args t t0 : is_str <$> args = fmt_args (bytes_of fmt) → printed t0 t → wp (kprintf fmt args) (λ _ t', printed t0 t') t.
Proof.
  intros [out Ho]%printf_total H0. unfold kprintf. rewrite Ho. apply wp_zoom. wp_step. etrans; [exact H0|]. by exists out.
Qed.

Lemma current_spec t p : k_procs (kern t) !! k_cur (kern t) = Some p →
  wp (on_sys current) (λ p' t', p' = p ∧ t' = t) t.
Proof.
  intros Hp. unfold current. apply wp_zoom, wp_zoom. wp_step. eapply wp_done; [done|]. unfold get_proc, wp. rewrite Hp. cbn.
  split; [done|]. unfold set_ts_sys. by destruct t as [[]].
Qed.

Lemma dump_spec scause stval pc f t t0 p :
  printed t0 t → k_procs (kern t) !! k_cur (kern t) = Some p →
  wp (dump_trap_context scause stval pc f) (λ _ t', printed t0 t') t.
Proof.
  intros H0 Hp. unfold dump_trap_context. wp_step. wp_step. wp_step.
  eapply wp_mono; [apply (kprintf_spec _ _ t t); [by vm_compute|done]|]. intros [] t1 H1. cbn beta in H1. wp_step.
  assert (Hp1 : k_procs (kern t1) !! k_cur (kern t1) = Some p) by (destruct H1 as [out ->]; exact Hp).
  eapply wp_mono; [by apply current_spec|]. intros p' t2 [-> ->]. wp_step.
  assert (H01 : printed t0 t1) by (by etrans).
  eapply wp_mono; [apply (kprintf_spec _ _ t1 t0); [by vm_compute|done]|]. intros [] t2 H2. cbn beta in H2. unfold dump_trap_frame.
  wp_step. eapply wp_mono; [apply (kprintf_spec _ _ t2 t0); [by vm_compute|done]|]. intros [] t3 H3. cbn beta in H3.
  wp_step. eapply wp_mono; [apply (kprintf_spec _ _ t3 t0); [by vm_compute|done]|]. intros [] t4 H4. cbn beta in H4.
  wp_step. eapply wp_mono; [apply (kprintf_spec _ _ t4 t0); [by vm_compute|done]|]. intros [] t5 H5. cbn beta in H5.
  apply kprintf_spec; [by vm_compute|done].
Qed.

(** What a trap that is no interrupt and no system call does to a user process: the
    page it needs is there and it goes on; or it is gone, because the trap is no
    page fault or because the fault was refused ([fault_post] for -1 says why). *)
Definition fault_outcome t p root scause stval f (r : trap_end) t' : Prop :=
  let access := page_fault_access scause in
  (∃ v, access ≠ 0 ∧ fault_post (k_vm (kern t)) p root (page_floor stval) access 0 v ∧
     r = TrapReturn f [] ∧ t' = set_ts_sys (set_ss_kernel (set_k_vm v (kern t)) (ts_sys t)) t) ∨
  (r = TrapSwitched ∧ g_last_user_scause t' = scause ∧ g_last_user_stval t' = stval ∧ g_last_user_sepc t' = tf_sepc f ∧
   ∃ v, (if decide (access = 0) then v = k_vm (kern t) else fault_post (k_vm (kern t)) p root (page_floor stval) access (-1) v) ∧
     exit_post (set_k_vm v (kern t)) p 128 (kern t')).

Lemma kill_spec t (Q : trap_end → trap_state P Dg Di Db Dp → Prop) p scause stval f :
  kernel_ok (kern t) → k_procs (kern t) !! k_cur (kern t) = Some p → state p ≠ PROC_UNUSED →
  (∀ t', g_last_user_scause t' = scause → g_last_user_stval t' = stval → g_last_user_sepc t' = tf_sepc f →
     exit_post (kern t) p 128 (kern t') → Q TrapSwitched t') →
  wp (do! kmodify (set_last_user scause stval (tf_sepc f)) in
      do! dump_trap_context scause stval (tf_sepc f) f in
      do! on_sys (on_kernel (proc_exit 128)) in
      kret TrapSwitched) Q t.
Proof.
  intros Hk Hp Hl HQ. wp_step. wp_step. wp_step. set (t1 := set_last_user _ _ _ t).
  eapply wp_mono; [apply (dump_spec _ _ _ _ t1 t1 p); [done|exact Hp]|]. intros [] t2 [out ->]. wp_step. apply wp_zoom, wp_zoom.
  eapply wp_mono; [by apply (proc_exit_spec _ p)|]. intros [] k' Hx. wp_step. by apply HQ.
Qed.

(** C26: a fault of a user process never takes the kernel down.  Let the running
    process be a user process whose space is well formed, with the page at the
    faulting address, if there is one, in use or part of the image.  A page fault is
    served, with the page accessible and the contents it had as [proc_handle_user_page_fault]
    promises, and the process repeats the instruction with its registers as they
    were, unless the fault is refused; it is refused only if the areas of the process
    do not grant the access, if the page is mapped without a right other than
    writing, or if the allocator cannot give two pages.  Then, and for every exception that is
    no page fault, the cause is recorded and the process exits with status 128. *)
Theorem user_exception_correct t p root n scause stval ld ld32 console f :
  scause ≠ SCAUSE_SUPERVISOR_EXTERNAL_IRQ → is_syscall_scause scause = false → is_u32 stval →
  kernel_ok (kern t) → k_procs (kern t) !! k_cur (kern t) = Some p → state p ≠ PROC_UNUSED →
  process_space (k_vm (kern t)) p root →
  (∀ pa pr, query_page (vmem (k_vm (kern t))) root (page_floor stval) = Some (pa, pr) → frame_ok (k_vm (kern t)) root pa) →
  wp (handle_trap n scause stval ld ld32 console f) (fault_outcome t p root scause stval f) t.
Proof.
  intros Hirq Hsys Hst Hk Hp Hl Hps Hfr. unfold handle_trap. rewrite (proj2 (Z.eqb_neq _ _) Hirq), Hsys. wp_step.
  eapply wp_mono; [by apply current_spec|]. intros p' t' [-> ->]. rewrite (psp_user _ _ _ Hps). cbn [andb]. wp_step.
  destruct (Z.eqb_spec (page_fault_access scause) 0) as [Ha|Ha]; cbn [negb].
  - wp_step. cbn [Z.eqb]. apply (kill_spec t _ p); try done. intros t' H1 H2 H3 Hx. right. split_and!; try done.
    exists (k_vm (kern t)). rewrite decide_True by done. split; [done|]. replace (set_k_vm (k_vm (kern t)) (kern t)) with (kern t); [done|by destruct (kern t)].
  - apply wp_zoom, wp_zoom, wp_zoom. eapply wp_mono; [by apply proc_handle_user_page_fault_spec|]. intros r v Hr.
    destruct (Z.eqb_spec r 0) as [->|Hr0].
    + wp_step. left. by exists v.
    + match goal with |- wp _ _ ?x => apply (kill_spec x _ p); try done; [by destruct Hk|] end.
      intros t' H1 H2 H3 Hx. right. split_and!; try done. exists v. rewrite decide_False by done. split; [|done].
      assert (r = -1) as ->; [|done]. destruct Hr as [_ Hr]. rewrite decide_False in Hr by done. apply Hr.
Qed.
End fault.

(** ** Concrete instances *)
Section demo.
#[local] Existing Instance demo_layout.
#[local] Existing Instance demo_layout_ok.
#[local] Existing Instance no_ext4.
#[local] Existing Instance VirtioGpuProps.demo_gpu_device.
#[local] Existing Instance VirtioGpuProps.demo_places.
#[local] Existing Instance VirtioInputProps.demo_input_device.
#[local] Existing Instance VirtioBlkProps.demo_mmio.
#[local] Existing Instance VirtioBlkProps.demo_places.
#[local] Instance demo_resume : ResumeEntry := {| arch_resume_from_trap := 2149584896 |}.
#[local] Instance demo_entry : TrapEntry := {| kernel_entry := 2149584640 |}.

(** A controller that hands out the sources of a list, with those in service. *)
#[local] Instance demo_controller : Mmio (list positive * list Z) := {
  mmio_read a d := if a =? PLIC_SCLAIM then match d.1 with [] => (0, d) | x :: l => (1 + Z.pos x mod 64, (l, (1 + Z.pos x mod 64) :: d.2)) end else (0, d);
  mmio_write a v d := if a =? PLIC_SCLAIM then (d.1, tail d.2) else d }.
#[local] Program Instance demo_plic_ok : PlicOk (list positive * list Z) := {
  plic_pending d := (λ x, 1 + Z.pos x mod 64) <$> d.1;
  plic_in_service d := d.2 }.
Next Obligation. intros [[|x d] l] Hz; [|done]. by split_and!. Qed.
Next Obligation.
  intros [[|x d] l0] irq l Hz; [done|]. injection Hz as <- <-. pose proof (Z.mod_pos_bound (Z.pos x) 64).
  change (plic_claim (x :: d, l0)) with (wrap32 (1 + Z.pos x mod 64), (d, (1 + Z.pos x mod 64) :: l0)). cbn [fst snd].
  rewrite wrap32_small by (unfold is_u32; lia). split_and!; try done. lia.
Qed.
Next Obligation.
  intros irq [d l0] l Hl. cbn in Hl. subst l0. change (plic_complete irq (d, irq :: l)) with (d, l). done.
Qed.

Definition demo_trap {P} (k : kernel_state P) : trap_state P VirtioGpuProps.demo_dev unit unit (list positive * list Z) :=
  TrapState (SysState k VirtioInputProps.demo_events (KbdState (replicate 64 0) 0 0) [] VirtioGpuProps.ready_gpu)
    VirtioInputProps.demo_busy (sy_blk VirtioBlkProps.demo_two) [] ([3%positive], []) (Csrs 2149584640 0 512 0) 0 0 0.



(** The idle process and a user process with its area, about to store to a page it has not touched. *)
Definition fault_kernel (s : vm_state alloc_state) : kernel_state alloc_state :=
  KernelState s (FsState (replicate 32 zero_inode) true false
    (SchedState ([demo_task 1 1 1; demo_proc (kernel_root_pt s)] ++ replicate 6 zero_process) 1 0 0)) 0.

Lemma fault_kernel_ok s : kernel_ok (fault_kernel s).
Proof.
  split.
  - split; cbn [fault_kernel k_fs inodes fs_sched ext4_ready]; [done| | |split; cbn; lia| |done].
    + apply Forall_replicate. split; [apply length_replicate|cbn; lia|done].
    + intros i j a b n Ha. apply lookup_replicate in Ha as [-> _]. done.
    + assert (Hz : ∀ p, fds p = replicate 16 zero_fd → proc_fds_ok (replicate 32 zero_inode) p).
      { intros p Hp. unfold proc_fds_ok. rewrite Hp. apply zero_fds_ok. }
      apply Forall_app. split; [repeat (apply Forall_cons_2; [by apply Hz|]); apply Forall_nil_2|]. apply Forall_replicate. by apply Hz.
  - intros i p Hi Hs. cbn in Hi. destruct i as [|[|i]]; [by injection Hi as <-..|].
    change (replicate 6 zero_process !! i = Some p) in Hi. apply lookup_replicate in Hi as [-> _]. done.
Qed.

Lemma user_exception_correct_witness :
  ∃ s : vm_state alloc_state,
    wp (handle_trap 1 SCAUSE_STORE_PAGE_FAULT 536875012 (λ _, 0) (λ _, 0) 0 zero_frame)
      (fault_outcome (demo_trap (fault_kernel s)) (demo_proc (kernel_root_pt s)) (kernel_root_pt s) SCAUSE_STORE_PAGE_FAULT 536875012 zero_frame)
      (demo_trap (fault_kernel s)).
Proof.
  destruct demo_process_space as (s & Hks & Hps). exists s.
  apply user_exception_correct; [discriminate|reflexivity|unfold is_u32; lia|apply fault_kernel_ok|reflexivity|discriminate|exact Hps|].
  intros pa pr Hq. change (k_vm (ss_kernel (ts_sys (demo_trap (fault_kernel s))))) with s in *.
  rewrite demo_window in Hq; [discriminate Hq|exact Hks|]. change (page_floor 536875012) with 536875008. lia.
Defined.
End demo.
