(* ===== verification/Boot.v ===== *)
(** * The start of the kernel and its main loop, [src/kernel/main.c]

    [kernel_main] runs once, from a state in which the loader has cleared nothing:
    it zeroes the variables itself and calls the initialisations in order.  The
    loop it ends in is given by one round. *)

From S2P Require Import Prelude Layout KString PageAlloc PageAllocSpec PageIface Vm Proc ProcessVm Sched WaitQ Ring Event Printf Fs.
From S2P Require Import UserCopy Process GpuIface Syscall Virtq VirtioInput VirtioGpu VirtioBlk Trap.

(** The code addresses of [idle_entry] and [user_init_entry]. *)
Class MainEntries := { idle_entry : Z; user_init_entry : Z }.

(** The page allocator with its variables zeroed, and what the start relies on:
    this is a state it can run from, the memory is the same, and a first page
    can be had. *)
Class ZeroPages (P : Type) := { zero_pages : P → P }.
Class ZeroPagesOk `{Layout} (P : Type) `{PageOps P} `{!PageOpsOk P} `{!ZeroPages P} : Prop := {
  zero_pages_ok p : pg_ok (zero_pages p);
  zero_pages_mem p : pg_mem (zero_pages p) = pg_mem p;
  zero_pages_gives p p' : pg_alloc 1 (zero_pages p) ≠ Done (0, p');
}.

(** The variables of [page_alloc.c]: [next_paddr] and [meta_top] have initial
    values, so they are not in [.bss]; the memory the run nodes are in is not
    either. *)
#[export] Instance zero_alloc_state : ZeroPages alloc_state := {|
  zero_pages p := AllocState (run_heap p) 0 0 (next_paddr p) (meta_top p) false 0 [] 0 0 (pmem p) |}.

(** [kernel_main] ends in its loop, or in [fatal_boot_error]. *)
Inductive boot_end := BootLoop | BootHalted.

Section boot.
Context {L : Layout} {P Dg Di Db Dp : Type} {PO : PageOps P} {RE : ResumeEntry} {TE : TrapEntry} {EX : Ext4Ops} {ME : MainEntries} {ZP : ZeroPages P}.
Context {VD : VgDevice Dg} {VP : VgPlaces} {VI : ViDevice Di} {MB : Mmio Db} {MP : Mmio Dp}.
Abbreviation TM := (km (trap_state P Dg Di Db Dp)).
Implicit Types t : trap_state P Dg Di Db Dp.

(** [memset(__bss, 0, ...)]: every variable without an initial value.  What belongs to the
    hart and the devices stays, and so does the memory outside the kernel's variables. *)
Definition clear_bss t : trap_state P Dg Di Db Dp :=
  let k := ss_kernel (ts_sys t) in
  TrapState
    (SysState
      (KernelState (VmState (zero_pages (vm_pages (k_vm k))) 0 0 (csr_satp (k_vm k)))
         (FsState (replicate 32 zero_inode) false false (SchedState (replicate 8 zero_process) 0 0 (hart_satp (k_sched k)))) (k_sstatus k))
      (KeventState (replicate 128 zero_event) 0 0 0 0) (KbdState (replicate 64 0) 0 0) (ss_console (ts_sys t))
      (VgState (replicate 32 zero_desc) zero_avail zero_used 0 false 0 0 0 0 0 0 0 0 (vg_dev (ss_gpu (ts_sys t)))))
    (ViState (replicate 4 zero_queue) 0 0 (vi_ev_debug_budget (ts_input t)) (vi_dev (ts_input t)))
    (BlkState (replicate 32 zero_desc) zero_avail zero_used (replicate 8 zero_slot) 0 false 0 [] (bk_mem (ts_disk t)) (bk_dev (ts_disk t)))
    [] (ts_plic t) (ts_csrs t) 0 0 0.

Definition fatal_boot_error (msg : string) : TM boot_end :=
  do! kprintf ("%s" ++ newline) [AStr (bytes_of msg)] in
  kret BootHalted.

Definition say (line : string) : TM unit := kprintf (line ++ newline) [].

Definition banner : TM unit :=
  do! say "  _____ _    _  _____ _____ __  __  ____ _______ ____   _____ " in
  do! say " / ____| |  | |/ ____|_   _|  \/  |/ __ \__   __/ __ \ / ____|" in
  do! say "| (___ | |  | | |  __  | | | \  / | |  | | | | | |  | | (___  " in
  do! say " \___ \| |  | | | |_ | | | | |\/| | |  | | | | | |  | |\___ \ " in
  do! say " ____) | |__| | |__| |_| |_| |  | | |__| | | | | |__| |____) |" in
  say "|_____/ \____/ \_____|_____|_|  |_|\____/  |_|  \____/|_____/ ".

(** [idle_proc = ...; current_proc = idle_proc;] *)
Definition set_idle (i : nat) : TM unit :=
  on_sys (on_kernel (kmodify (λ k, set_k_sched (SchedState (k_procs k) i i (hart_satp (k_sched k))) k))).

(** [kernel_main] up to [vm_init], with its result. *)
Definition early_init : TM Z :=
  do! kmodify clear_bss in
  do! banner in
  do! arch_trap_init in
  do! say "kernel: initializing events..." in
  do! on_sys (on_events kevent_init) in
  do! say "kernel: initializing plic..." in
  do! kmodify (λ t, set_ts_plic (plic_init (ts_plic t)) t) in
  do! say "kernel: initializing vm..." in
  on_sys (on_kernel (on_vm vm_init)).

(** Up to the scheduler loop. *)
Definition kernel_main : TM boot_end :=
  let! r := early_init in
  if r <? 0 then fatal_boot_error "kernel: vm_init failed"
  else
    do! say "kernel: creating idle process..." in
    let! idle := on_sys (on_kernel (create_process idle_entry)) in
    match idle with
    | None => fatal_boot_error "kernel: failed to create idle process"
    | Some i =>
        do! set_idle i in
        do! say "kernel: enabling interrupts..." in
        do! arch_trap_enable_interrupts in
        do! say "kernel: initializing fs..." in
        do! on_sys (on_kernel (on_fs fs_init)) in
        do! say "kernel: creating shell process..." in
        let! shell := on_sys (on_kernel (create_process user_init_entry)) in
        do! (match shell with None => say "create_process failed" | Some _ => kret tt end) in
        do! say "kernel: entering scheduler loop..." in
        kret BootLoop
    end.

Definition has_live_app_proc (l : list process) : bool :=
  existsb (λ p, negb (pid p =? 0) && (bool_decide (state p = PROC_RUNNABLE) || bool_decide (state p = PROC_BLOCKED))) l.

(** One round of the loop; the result tells whether the shell was started again. *)
Definition main_round : TM bool :=
  do! on_sys (on_kernel proc_reap_orphan_zombies) in
  let! t := kget in
  let live := has_live_app_proc (k_procs (ss_kernel (ts_sys t))) in
  do! (if live then kret tt
       else
         do! kprintf ("kernel: respawn shell init (last trap scause=%x stval=%x sepc=%x)" ++ newline)
           (words [g_last_user_scause t; g_last_user_stval t; g_last_user_sepc t]) in
         let! _ := on_sys (on_kernel (create_process user_init_entry)) in
         kret tt) in
  do! on_sys (on_kernel do_yield) in
  kret (negb live).
End boot.
