(* ===== verification/BootProps.v ===== *)
(** * The kernel starts in a state its parts rely on *)

From S2P Require Import Prelude Layout KString PageAlloc PageAllocInv PageAllocSpec PageAllocProps PageIface Vm VmSpec VmBoot VmProps Proc ProcessVm Sched WaitQ Ring Event Printf.
From S2P Require Import Fs FsSpec FsOps FsProps UserCopy Process ProcessSpec ProcessLife ProcessProps GpuIface Syscall.
From S2P Require Import Virtq VirtioInput VirtioInputProps VirtioGpu VirtioGpuSpec VirtioGpuProps VirtioBlk VirtioBlkProps Trap TrapProps Boot.

#[local] Existing Instance printed_po.

(** The allocator of [page_alloc.c] gives the first page at [__free_ram]. *)
#[export] Instance zero_alloc_state_ok `{L : Layout} `{!LayoutOk} : ZeroPagesOk alloc_state.
Proof.
  split.
  - intros p. split; [done|by left].
  - done.
  - intros p p' Hr. pose proof free_ram_bounds as Hb. pose proof free_ram_end_eq as He. unfold NPAGES in He.
    set (s := zero_pages p) in *. destruct (init_establishes (set_alloc_lock 1 s)) as (s0 & Hrun & Hi & _ & _ & Hn & Hmt & _); [done|].
    assert (Hfr : free_runs s0 = 0) by (by apply (seg_nil_iff _ _ [] (ri_runs _ _ _ (ai_struct _ _ _ Hi)))).
    destruct (bump_alloc_run s s0 1 (free_ram + 4096)) as [rc Hrc]; try done.
    + rewrite Hn. unfold PAGE_SIZE. rewrite mul32_small, add32_small; lia.
    + rewrite Hn, Hmt. area_lia.
    + change (alloc_pages 1 s = Done (0, p')) in Hr. rewrite Hrc, Hn in Hr. injection Hr as Hr _. lia.
Qed.

Section props.
Context {L : Layout} {LOK : LayoutOk} {P Dg Di Db Dp : Type} {PO : PageOps P} {POK : PageOpsOk P} {RE : ResumeEntry} {TE : TrapEntry} {EX : Ext4Ops}.
Context {ME : MainEntries} {ZP : ZeroPages P} {ZOK : ZeroPagesOk P} {VD : VgDevice Dg} {VP : VgPlaces} {VI : ViDevice Di} {MB : Mmio Db} {MP : Mmio Dp}.
Implicit Types t : trap_state P Dg Di Db Dp.
Abbreviation kern t := (ss_kernel (ts_sys t)).

(** A line of output changes nothing the steps of the start look at. *)
Lemma say_spec line t (Q : unit → trap_state P Dg Di Db Dp → Prop) :
  fmt_args (bytes_of (line ++ newline)) = [] → (∀ t', printed t t' → Q tt t') → wp (say line) Q t.
Proof.
  intros Hf HQ. eapply wp_mono; [apply (kprintf_spec _ [] t t); [by rewrite Hf|reflexivity]|]. intros [] t' Ht'. by apply HQ.
Qed.

Lemma banner_spec t (Q : unit → trap_state P Dg Di Db Dp → Prop) : (∀ t', printed t t' → Q tt t') → wp banner Q t.
Proof.
  intros HQ. unfold banner.
  wp_step. apply say_spec; [by vm_compute|]. intros t1 H1. wp_step. apply say_spec; [by vm_compute|]. intros t2 H2.
  wp_step. apply say_spec; [by vm_compute|]. intros t3 H3. wp_step. apply say_spec; [by vm_compute|]. intros t4 H4.
  wp_step. apply say_spec; [by vm_compute|]. intros t5 H5. apply say_spec; [by vm_compute|]. intros t6 H6.
  apply HQ. do 5 (etrans; [eassumption|]). done.
Qed.

(** The state the loop of [kernel_main] starts in. *)
Record booted t : Prop := {
  bt_space : vm_ok (k_vm (kern t)) ∧ kernel_space (k_vm (kern t)) ∧ csr_satp (k_vm (kern t)) = kernel_satp_value (k_vm (kern t));
  bt_inv : kernel_inv (kern t);
  bt_procs : ∃ idle shell, k_procs (kern t) = [idle; shell] ++ replicate 6 zero_process ∧
    fresh_process false 1 0 idle ∧ switch_frame idle !! 0%nat = Some idle_entry ∧
    fresh_process false 1 1 shell ∧ switch_frame shell !! 0%nat = Some user_init_entry;
  bt_running : k_cur (kern t) = 0%nat ∧ idle_proc (k_sched (kern t)) = 0%nat;
  bt_files : ∀ n, file_of (k_fs (kern t)) n = if decide (n = README) then Some readme_text else None;
  bt_events : kevent_ok (ss_events (ts_sys t)) ∧ event_abs (ss_events (ts_sys t)) = EventSpec [] 0;
  bt_traps : csr_stvec (ts_csrs t) = kernel_entry ∧ csr_sie (ts_csrs t) = SIE_SEIE ∧ Z.testbit (k_sstatus (kern t)) 1 = true;
}.

Lemma zero_fs_boot i p :
  fds p = replicate 16 zero_fd → (i < 8)%nat → ∀ satp_, fs_boot (FsState (replicate 32 zero_inode) false false (SchedState (<[i := p]> (replicate 8 zero_process)) i i satp_)).
Proof.
  intros Hp Hi satp_. split; [done|split; cbn; [by rewrite length_insert|lia|lia]|]. cbn [fs_sched procs].
  assert (Hz : ∀ q, fds q = replicate 16 zero_fd → length (fds q) = 16%nat ∧ Forall (λ d, fd_used d = false) (fds q)).
  { intros q ->. split; [done|]. by apply Forall_replicate. }
  apply Forall_insert; [apply Forall_replicate; by apply Hz|by apply Hz].
Qed.

Lemma say_then {A} line (c : km (trap_state P Dg Di Db Dp) A) t Q :
  fmt_args (bytes_of (line ++ newline)) = [] → (∀ t', printed t t' → wp c Q t') → wp (do! say line in c) Q t.
Proof. intros Hf HQ. wp_step. by apply say_spec. Qed.

(** What the steps of the start change. *)
Definition parts t := (kern t, ss_events (ts_sys t), ts_csrs t).

Lemma printed_parts t t' : printed t t' → parts t' = parts t.
Proof. by intros [out ->]. Qed.

Lemma wp_kernel {A} (c : km (kernel_state P) A) t Q :
  wp c (λ a k, ∀ t', parts t' = (k, ss_events (ts_sys t), ts_csrs t) → Q a t') (kern t) → wp (on_sys (on_kernel c)) Q t.
Proof. intros H. apply wp_zoom, wp_zoom. eapply wp_mono; [exact H|]. intros a k Hk. by apply Hk. Qed.

Lemma wp_events {A} (c : km kevent_state A) t Q :
  wp c (λ a e, ∀ t', parts t' = (kern t, e, ts_csrs t) → Q a t') (ss_events (ts_sys t)) → wp (on_sys (on_events c)) Q t.
Proof. intros H. apply wp_zoom, wp_zoom. eapply wp_mono; [exact H|]. intros a k Hk. by apply Hk. Qed.

(** The process [create_process] puts in slot [i]. *)
Definition kernel_process (k : kernel_state P) (i : nat) (pc : Z) : process :=
  arch_init_switch_context (k_sstatus k) (set_satp (vm_kernel_satp (k_vm k)) (init_process_common (i + 1) 0 false PROC_PRIORITY_MIN)) pc.

Lemma create_process_at pc k i :
  alloc_process_slot (k_procs k) = Some i →
  create_process pc k = Done (Some i, set_k_procs (<[i := kernel_process k i pc]> (k_procs k)) k).
Proof. intros H. unfold create_process, kbind, kget. by rewrite H. Qed.

Lemma kernel_process_fresh k i pc : fresh_process false 1 i (kernel_process k i pc) ∧ switch_frame (kernel_process k i pc) !! 0%nat = Some pc.
Proof. done. Qed.

(** The first part: traps, events, the controller and the kernel's map, for
    which the allocator has a page. *)
Lemma early_spec t (Q : Z → trap_state P Dg Di Db Dp → Prop) :
  (∀ t', vm_ok (k_vm (kern t')) → kernel_space (k_vm (kern t')) → csr_satp (k_vm (kern t')) = kernel_satp_value (k_vm (kern t')) →
     k_fs (kern t') = k_fs (kern (clear_bss t)) → kevent_ok (ss_events (ts_sys t')) → event_abs (ss_events (ts_sys t')) = EventSpec [] 0 →
     csr_stvec (ts_csrs t') = kernel_entry → Q 0 t') →
  wp early_init Q t.
Proof.
  intros HQ. unfold early_init. wp_step. wp_step. wp_step. apply banner_spec. intros t1 H1%printed_parts. wp_step. unfold arch_trap_init. wp_step.
  set (t2 := set_ts_sys _ _). apply say_then; [by vm_compute|]. intros t3 H3%printed_parts. wp_step. apply wp_events.
  unfold parts in *. cbn in H3. injection H1 as K1 E1 C1. injection H3 as K3 E3 C3.
  eapply wp_mono; [apply kevent_init_spec; rewrite E3; by rewrite E1|]. intros [] e (He & Habs) t4 H4. injection H4 as K4 E4 C4.
  apply say_then; [by vm_compute|]. intros t5 H5%printed_parts. injection H5 as K5 E5 C5. wp_step. wp_step. set (t6 := set_ts_plic _ _).
  apply say_then; [by vm_compute|]. intros t7 H7%printed_parts. injection H7 as K7 E7 C7. apply wp_kernel. apply wp_zoom.
  assert (Hk : kern t7 = set_k_sstatus (Z.land (k_sstatus (kern t1)) (not32 SSTATUS_SIE)) (kern t1)) by (rewrite K7; cbn; by rewrite K5, K4, K3).
  assert (Hpg : vm_pages (k_vm (kern t7)) = zero_pages (vm_pages (k_vm (kern t)))) by (rewrite Hk; cbn; by rewrite K1).
  eapply wp_mono; [apply vm_init_spec; unfold vm_ok; rewrite Hpg; apply zero_pages_ok|].
  intros r v [Hv Hr] t8 H8. injection H8 as K8 E8 C8. case_decide as Hr0.
  2: { exfalso. destruct Hr as [_ [v' Hno]]. unfold on_pages, zoom in Hno. rewrite Hpg in Hno.
       destruct (pg_alloc 1 _) as [[a p']| | | |] eqn:Ha; try done. injection Hno as -> _. by apply zero_pages_gives in Ha. }
  subst r. destruct Hr as [Hks Hsatp]. apply HQ; rewrite ?K8, ?E8, ?C8; cbn; try done.
  - rewrite Hk. cbn. by rewrite K1.
  - rewrite E7. cbn. by rewrite E5, E4.
  - rewrite E7. cbn. by rewrite E5, E4.
  - rewrite C7. cbn. by rewrite C5, C4, C3.
Qed.

Lemma sie_set x : Z.testbit (Z.lor x SSTATUS_SIE) 1 = true.
Proof. rewrite Z.lor_spec. by rewrite orb_true_r. Qed.

(** With the idle process alone in the table, the invariant of the kernel holds. *)
Lemma first_inv (k : kernel_state P) p0 satp_ :
  fs_ok (k_fs k) → k_sched k = SchedState (<[0%nat := p0]> (replicate 8 zero_process)) 0 0 satp_ → fresh_process false 1 0 p0 → kernel_inv k.
Proof.
  intros Hf Hs (Hpid & Hst & _).
  assert (Hact : active_at k 0) by (exists p0; rewrite Hs; split; [done|unfold active; by rewrite Hst]).
  split; [split; [done|]|by rewrite Hs|by rewrite Hs]. intros i p Hi Hu. rewrite Hs in Hi. cbn [procs] in Hi.
  apply list_lookup_insert_Some in Hi as [(<- & <- & _)|[_ Hi]]; [by rewrite Hpid|]. by apply lookup_replicate in Hi as [-> _].
Qed.

Lemma kernel_main_spec t : wp kernel_main (λ r t', r = BootLoop ∧ booted t') t.
Proof.
  unfold kernel_main. wp_step. apply early_spec. intros t1 Hv Hks Hsatp Hfs He Ha Hst. cbn [Z.ltb Z.compare].
  apply say_then; [by vm_compute|]. intros t2 H2%printed_parts. injection H2 as K2 E2 C2. wp_step. apply wp_kernel.
  assert (Hpr : k_procs (kern t2) = replicate 8 zero_process) by (rewrite K2, Hfs; done).
  eapply wp_done; [apply (create_process_at _ _ 0); rewrite Hpr; reflexivity|]. rewrite Hpr. intros t3 H3. injection H3 as K3 E3 C3.
  rewrite K2 in K3. set (p0 := kernel_process (kern t1) 0 idle_entry) in *.
  wp_step. apply wp_kernel. wp_step. intros t4 H4. injection H4 as K4 E4 C4.
  apply say_then; [by vm_compute|]. intros t5 H5%printed_parts. injection H5 as K5 E5 C5. wp_step. unfold arch_trap_enable_interrupts. wp_step.
  set (t6 := set_ts_sys _ _). apply say_then; [by vm_compute|]. intros t7 H7%printed_parts. injection H7 as K7 E7 C7. wp_step. apply wp_kernel, wp_zoom.
  assert (Hk7 : kern t7 = set_k_sstatus (Z.lor (k_sstatus (kern t1)) SSTATUS_SIE)
    (set_k_fs (FsState (replicate 32 zero_inode) false false (SchedState (<[0%nat := p0]> (replicate 8 zero_process)) 0 0 (hart_satp (k_sched (kern t1))))) (kern t1))).
  { rewrite K7. cbn. rewrite K5, K4, K3. unfold set_k_procs, set_k_sched, set_k_fs, set_fs_sched. cbn [k_vm k_fs k_sstatus fs_sched procs]. by rewrite Hfs. }
  assert (Hp0 : fds p0 = replicate 16 zero_fd) by done.
  eapply wp_mono; [apply fs_init_spec; rewrite Hk7; cbn [k_fs set_k_sstatus set_k_fs]; by apply zero_fs_boot; [|lia]|].
  intros [] fs (Hfok & Hfi & Hfsch & Hfile) t8 H8. injection H8 as K8 E8 C8.
  apply say_then; [by vm_compute|]. intros t9 H9%printed_parts. injection H9 as K9 E9 C9. wp_step. apply wp_kernel.
  rewrite K9, K8. rewrite Hk7 in Hfsch. cbn in Hfsch.
  assert (Hpr9 : k_procs (set_k_fs fs (kern t7)) = <[0%nat := p0]> (replicate 8 zero_process)) by (cbn; by rewrite Hfsch).
  eapply wp_done; [apply (create_process_at _ _ 1); rewrite Hpr9; reflexivity|]. rewrite Hpr9. intros t10 H10. injection H10 as K10 E10 C10.
  set (p1 := kernel_process (set_k_fs fs (kern t7)) 1 user_init_entry) in *. wp_step. wp_step.
  apply say_then; [by vm_compute|]. intros t11 H11%printed_parts. injection H11 as K11 E11 C11. wp_step. split; [done|].
  assert (Hev : ss_events (ts_sys t11) = ss_events (ts_sys t1)) by (rewrite E11, E10, E9, E8, E7; cbn; by rewrite E5, E4, E3, E2).
  assert (Hcs : ts_csrs t11 = Csrs (csr_stvec (ts_csrs t1)) (csr_sscratch (ts_csrs t1)) SIE_SEIE (csr_sip (ts_csrs t1)))
    by (rewrite C11, C10, C9, C8, C7; cbn; by rewrite C5, C4, C3, C2).
  rewrite Hk7 in K10. split; rewrite ?Hev, ?Hcs, ?K11, ?K10; try done.
  - eapply (kstep_inv (set_k_fs fs (kern t7))); [by apply (first_inv _ p0 (hart_satp (k_sched (kern t1))))|].
    eapply (StepCreate _ _ user_init_entry). rewrite (create_process_at _ _ 1) by (by rewrite Hpr9). rewrite Hpr9. fold p1. by rewrite Hk7.
  - exists p0, p1. done.
  - cbn. by rewrite Hfsch.
  - split; [done|]. split; [done|]. apply sie_set.
Qed.

(** C23: The kernel starts: whatever is in its memory and in the machine's
    registers, [kernel_main] reaches its scheduler loop; neither of its calls of
    [fatal_boot_error] is reached, because the zeroed allocator has a page for
    the kernel's page table.  In the loop the kernel's own address space is
    active and maps exactly what it should, the idle process and the shell are
    in the first two slots and nothing else is in the table, the file system
    holds its README, the event queue is empty, and traps lead to the kernel with
    external interrupts enabled; this is the state the other components'
    invariants start from. *)
Theorem kernel_main_correct t : wp kernel_main (λ r t', r = BootLoop ∧ booted t') t.
Proof. apply kernel_main_spec. Qed.

(** The branch of the main loop that starts the shell again is dead code: in every
    state the kernel can get to after its start, [has_live_app_proc] finds a process,
    for it counts the idle process, which is never unused or a zombie. *)
Theorem main_never_respawns t k :
  booted t → rtc kstep (kern t) k → has_live_app_proc (k_procs k) = true.
Proof.
  intros Hb Hs. assert (Hk : kernel_inv k).
  { pose proof (bt_inv t Hb) as Hk. induction Hs as [|k0 k1 k2 Hs _ IH]; [done|]. by apply IH, (kstep_inv k0 k1). }
  destruct (ki_idle k Hk) as (p & Hp & Hu & Hz). unfold has_live_app_proc. apply existsb_exists. exists p.
  split; [apply list_elem_of_In; by eapply list_elem_of_lookup_2|].
  pose proof (ko_table k (ki_ok k Hk) _ p Hp Hu) as Hpid. rewrite (proj2 (Z.eqb_neq (pid p) 0)) by lia. cbn [negb andb].
  destruct (state p); done.
Qed.
End props.

(** ** Concrete instances *)
Section demo.
#[local] Existing Instance demo_layout.
#[local] Existing Instance demo_layout_ok.
#[local] Existing Instance no_ext4.
#[local] Existing Instance VirtioGpuProps.demo_gpu_device.
#[local] Existing Instance VirtioGpuProps.demo_places.
#[local] Existing Instance VirtioInputProps.demo_input_device.
#[local] Existing Instance VirtioBlkProps.demo_mmio.
#[local] Existing Instance demo_resume.
#[local] Existing Instance demo_entry.
#[local] Existing Instance demo_controller.
#[local] Instance demo_entries : MainEntries := {| idle_entry := 2149585000; user_init_entry := 2149589000 |}.

(** A machine whose memory still holds the processes of an earlier run. *)
Definition demo_machine : trap_state alloc_state VirtioGpuProps.demo_dev unit unit (list positive * list Z) := demo_trap (fault_kernel boot_vm).

Lemma kernel_main_correct_witness : wp kernel_main (λ r t', r = BootLoop ∧ booted t') demo_machine.
Proof. exact (kernel_main_correct demo_machine). Defined.

Lemma demo_boots : ∃ t, kernel_main demo_machine = Done (BootLoop, t) ∧ booted t.
Proof. destruct (wp_elim _ _ _ (kernel_main_spec demo_machine)) as (r & t & Hrun & -> & Hb). exists t. exact (conj Hrun Hb). Qed.

Lemma main_never_respawns_witness :
  ∃ t : trap_state alloc_state VirtioGpuProps.demo_dev unit unit (list positive * list Z),
    kernel_main demo_machine = Done (BootLoop, t) ∧ has_live_app_proc (k_procs (ss_kernel (ts_sys t))) = true.
Proof.
  destruct demo_boots as (t & Hrun & Hb). exists t. split; [exact Hrun|].
  exact (main_never_respawns t _ Hb (rtc_refl _ _)).
Defined.
End demo.
