(* ===== verification/Ext4.v ===== *)
(** * The reader of ext4 disks, [src/fs/ext4.c]

    The variables and the local buffers of the file are places in one byte memory, so
    that buffers that are used for two things at once, and reads past the end of one, are
    what they are on the machine.  [blk_read] is an interface: a return
    code and the bytes the buffer gets.  Divisions by zero and shifts by 32 or
    more, which C leaves undefined, are faults. *)

From S2P Require Import Prelude KString Bytes.

Definition EXT4_SUPER_MAGIC : Z := 61267.   (* 0xEF53 *)
Definition EXT4_EXT_MAGIC : Z := 62218.     (* 0xf30a *)
Definition EXT4_MAX_ROOT_ENTRIES : Z := 64.
Definition EXT4_NAME_MAX : Z := 64.

(** ** Structures *)

(** Fields in order with their sizes; all structures are packed. *)
Fixpoint offset_of (fields : list (string * Z)) (name : string) : Z :=
  match fields with
  | [] => 0
  | (f, size) :: fields' => if String.eqb f name then 0 else size + offset_of fields' name
  end.
Definition size_of (fields : list (string * Z)) : Z := foldr (λ f n, f.2 + n) 0 fields.

Definition ext4_super : list (string * Z) := [
  ("s_inodes_count", 4); ("s_blocks_count_lo", 4); ("s_r_blocks_count_lo", 4); ("s_free_blocks_count_lo", 4);
  ("s_free_inodes_count", 4); ("s_first_data_block", 4); ("s_log_block_size", 4); ("s_log_cluster_size", 4);
  ("s_blocks_per_group", 4); ("s_clusters_per_group", 4); ("s_inodes_per_group", 4); ("s_mtime", 4); ("s_wtime", 4);
  ("s_mnt_count", 2); ("s_max_mnt_count", 2); ("s_magic", 2); ("s_state", 2); ("s_errors", 2); ("s_minor_rev_level", 2);
  ("s_lastcheck", 4); ("s_checkinterval", 4); ("s_creator_os", 4); ("s_rev_level", 4); ("s_def_resuid", 2);
  ("s_def_resgid", 2); ("s_first_ino", 4); ("s_inode_size", 2); ("s_block_group_nr", 2); ("s_feature_compat", 4);
  ("s_feature_incompat", 4); ("s_feature_ro_compat", 4); ("s_uuid", 16); ("s_volume_name", 16); ("s_last_mounted", 64);
  ("s_algorithm_usage_bitmap", 4); ("pad0", 254 - 104 - 4); ("s_desc_size", 2)]%string.
Definition ext4_group_desc : list (string * Z) := [
  ("bg_block_bitmap_lo", 4); ("bg_inode_bitmap_lo", 4); ("bg_inode_table_lo", 4); ("bg_free_blocks_count_lo", 2);
  ("bg_free_inodes_count_lo", 2); ("bg_used_dirs_count_lo", 2); ("bg_flags", 2); ("bg_exclude_bitmap_lo", 4);
  ("bg_block_bitmap_csum_lo", 2); ("bg_inode_bitmap_csum_lo", 2); ("bg_itable_unused_lo", 2); ("bg_checksum", 2);
  ("bg_block_bitmap_hi", 4); ("bg_inode_bitmap_hi", 4); ("bg_inode_table_hi", 4)]%string.
Definition ext4_inode : list (string * Z) := [
  ("i_mode", 2); ("i_uid", 2); ("i_size_lo", 4); ("i_atime", 4); ("i_ctime", 4); ("i_mtime", 4); ("i_dtime", 4);
  ("i_gid", 2); ("i_links_count", 2); ("i_blocks_lo", 4); ("i_flags", 4); ("i_osd1", 4); ("i_block", 60);
  ("i_generation", 4); ("i_file_acl_lo", 4); ("i_size_high", 4); ("i_obso_faddr", 4)]%string.
Definition ext4_extent_header : list (string * Z) := [
  ("eh_magic", 2); ("eh_entries", 2); ("eh_max", 2); ("eh_depth", 2); ("eh_generation", 4)]%string.
Definition ext4_extent_idx : list (string * Z) := [("ei_block", 4); ("ei_leaf_lo", 4); ("ei_leaf_hi", 2); ("ei_unused", 2)]%string.
Definition ext4_extent : list (string * Z) := [("ee_block", 4); ("ee_len", 2); ("ee_start_hi", 2); ("ee_start_lo", 4)]%string.
Definition ext4_dirent : list (string * Z) := [("inode", 4); ("rec_len", 2); ("name_len", 1); ("file_type", 1)]%string.
Definition ext4_file_entry : list (string * Z) := [("name", 64); ("inode", 4)]%string.

Definition load16 (m : mem) (a : Z) : Z := rd m a + 256 * rd m (a + 1).
(** Fields of two and of four bytes of a structure at [a]. *)
Definition field16 (m : mem) (st : list (string * Z)) (a : Z) (f : string) : Z := load16 m (add32 a (offset_of st f)).
Definition field32 (m : mem) (st : list (string * Z)) (a : Z) (f : string) : Z := load32 m (add32 a (offset_of st f)).

(** ** The interface of the disk *)
Class Disk := {
  disk_init : Z;
  (** The return code of [blk_read], and the bytes it leaves in the buffer. *)
  disk_read : Z → Z * list Z;
}.

(** Where the variables and the local buffers are. *)
Class Ext4Places := {
  sb : Z; block_buf : Z; block_buf2 : Z; inode_buf : Z; root_files : Z;
  sbraw : Z;        (* [ext4_mount] *)
  gd : Z;           (* [read_inode] *)
  root_ino : Z;     (* [root] of [scan_root_dir] *)
  name_buf : Z;     (* [name] of [scan_root_dir] *)
  file_ino : Z;     (* [ino] of [ext4_read_file] *)
}.

Record ext4_state := Ext4State {
  e_mem : mem; block_size : Z; inode_size : Z; groups_count : Z; desc_size : Z; mounted : bool; root_file_count : Z }.
Definition set_e_mem m s := Ext4State m (block_size s) (inode_size s) (groups_count s) (desc_size s) (mounted s) (root_file_count s).
Definition set_block_size v s := Ext4State (e_mem s) v (inode_size s) (groups_count s) (desc_size s) (mounted s) (root_file_count s).
Definition set_sizes i d s := Ext4State (e_mem s) (block_size s) i (groups_count s) d (mounted s) (root_file_count s).
Definition set_groups_count v s := Ext4State (e_mem s) (block_size s) (inode_size s) v (desc_size s) (mounted s) (root_file_count s).
Definition set_mounted v s := Ext4State (e_mem s) (block_size s) (inode_size s) (groups_count s) (desc_size s) v (root_file_count s).
Definition set_root_file_count v s := Ext4State (e_mem s) (block_size s) (inode_size s) (groups_count s) (desc_size s) (mounted s) v.

Section ext4.
Context {DK : Disk} {EP : Ext4Places}.
Abbreviation EM := (km ext4_state).

Definition upd (f : mem → mem) : EM unit := kmodify (λ s, set_e_mem (f (e_mem s)) s).
Definition mem_now : EM mem := let! s := kget in kret (e_mem s).
Definition udiv (a b : Z) : EM Z := if b =? 0 then kfault else kret (a / b).
Definition umod (a b : Z) : EM Z := if b =? 0 then kfault else kret (a mod b).

Definition blk_read (sector buf : Z) : EM Z :=
  let '(r, bytes) := disk_read sector in
  do! upd (λ m, put_bytes m buf bytes) in
  kret r.

(** ** Blocks *)

Fixpoint read_sectors (n : nat) (i first_sector p : Z) : EM Z :=
  match n with
  | O => kret 0
  | S n' =>
      let! r := blk_read (add32 first_sector i) (add32 p (mul32 i 512)) in
      if r <? 0 then kret (-1) else read_sectors n' (i + 1) first_sector p
  end.
Definition read_block (block buf : Z) : EM Z :=
  let! s := kget in
  let sectors := block_size s / 512 in
  read_sectors (Z.to_nat sectors) 0 (mul32 block sectors) buf.

Definition load_group_desc (group dst : Z) : EM Z :=
  let! s := kget in
  let gd_table_block := if block_size s =? 1024 then 2 else 1 in
  let! gds_per_block := udiv (block_size s) (desc_size s) in
  let! q := udiv group gds_per_block in
  let block := add32 gd_table_block q in
  let! index_in_block := umod group gds_per_block in
  let! r := read_block block block_buf in
  if r <? 0 then kret (-1)
  else
    do! upd (λ m, memcpy m dst (add32 block_buf (mul32 index_in_block (desc_size s))) (size_of ext4_group_desc)) in
    kret 0.

(** [read_inode] from the first block of the inode on. *)
Definition read_table_entry (block off_in_block out : Z) : EM Z :=
  let! s := kget in
  let! r := read_block block block_buf in
  if r <? 0 then kret (-1)
  else if add32 off_in_block (inode_size s) <=? block_size s then
    do! upd (λ m, memcpy m inode_buf (add32 block_buf off_in_block) (inode_size s)) in
    do! upd (λ m, memcpy m out inode_buf (size_of ext4_inode)) in
    kret 0
  else
    let first := sub32 (block_size s) off_in_block in
    do! upd (λ m, memcpy m inode_buf (add32 block_buf off_in_block) first) in
    let! r := read_block (add32 block 1) block_buf2 in
    if r <? 0 then kret (-1)
    else
      do! upd (λ m, memcpy m (add32 inode_buf first) block_buf2 (sub32 (inode_size s) first)) in
      do! upd (λ m, memcpy m out inode_buf (size_of ext4_inode)) in
      kret 0.

Definition read_inode (inum out : Z) : EM Z :=
  if inum =? 0 then kret (-1)
  else
    let idx := sub32 inum 1 in
    let! m := mem_now in
    let per_group := field32 m ext4_super sb "s_inodes_per_group" in
    let! group := udiv idx per_group in
    let! local := umod idx per_group in
    let! r := load_group_desc group gd in
    if r <? 0 then kret (-1)
    else
      let! m := mem_now in
      if negb (field32 m ext4_group_desc gd "bg_inode_table_hi" =? 0) then kret (-1)
      else
        let inode_table_block := field32 m ext4_group_desc gd "bg_inode_table_lo" in
        let! s := kget in
        let inode_off := mul32 local (inode_size s) in
        let! q := udiv inode_off (block_size s) in
        let block := add32 inode_table_block q in
        let! off_in_block := umod inode_off (block_size s) in
        read_table_entry block off_in_block out.

(** ** Extents *)

(** The search in [n] extents from number [i] on, at [ex]; [None] stands for -1. *)
Fixpoint search_extents (n : nat) (i ex lblock : Z) (m : mem) : option Z :=
  match n with
  | O => None
  | S n' =>
      let e := add32 ex (12 * i) in
      let start := field32 m ext4_extent e "ee_block" in
      let len := Z.land (field16 m ext4_extent e "ee_len") 32767 in
      if (start <=? lblock) && (lblock <? add32 start len) then
        if negb (field16 m ext4_extent e "ee_start_hi" =? 0) then None
        else Some (add32 (field32 m ext4_extent e "ee_start_lo") (sub32 lblock start))
      else search_extents n' (i + 1) ex lblock m
  end.
(** [chosen], as the address of an index entry. *)
Fixpoint choose_index (n : nat) (i ix lblock : Z) (chosen : option Z) (m : mem) : option Z :=
  match n with
  | O => chosen
  | S n' =>
      let e := add32 ix (12 * i) in
      if field32 m ext4_extent_idx e "ei_block" <=? lblock then choose_index n' (i + 1) ix lblock (Some e) m else chosen
  end.

Definition extent_find_physical (ino lblock : Z) : EM (option Z) :=
  let! m := mem_now in
  let eh := add32 ino (offset_of ext4_inode "i_block") in
  if negb (field16 m ext4_extent_header eh "eh_magic" =? EXT4_EXT_MAGIC) then kret None
  else
    let n := Z.to_nat (field16 m ext4_extent_header eh "eh_entries") in
    let depth := field16 m ext4_extent_header eh "eh_depth" in
    if depth =? 0 then kret (search_extents n 0 (add32 eh (size_of ext4_extent_header)) lblock m)
    else if depth =? 1 then
      match choose_index n 0 (add32 eh (size_of ext4_extent_header)) lblock None m with
      | None => kret None
      | Some chosen =>
          if negb (field16 m ext4_extent_idx chosen "ei_leaf_hi" =? 0) then kret None
          else
            let! r := read_block (field32 m ext4_extent_idx chosen "ei_leaf_lo") block_buf in
            if r <? 0 then kret None
            else
              let! m := mem_now in
              if negb (field16 m ext4_extent_header block_buf "eh_magic" =? EXT4_EXT_MAGIC) || negb (field16 m ext4_extent_header block_buf "eh_depth" =? 0)
              then kret None
              else kret (search_extents (Z.to_nat (field16 m ext4_extent_header block_buf "eh_entries")) 0
                           (add32 block_buf (size_of ext4_extent_header)) lblock m)
      end
    else kret None.

(** ** Contents *)

(** [while (done < remaining)]; the result is [done]. *)
Fixpoint read_loop (fuel : nat) (ino off dst remaining done : Z) : EM Z :=
  if remaining <=? done then kret done
  else
    match fuel with
    | O => knofuel
    | S fuel' =>
        let! s := kget in
        let pos := add32 off done in
        let! lblock := udiv pos (block_size s) in
        let! boff := umod pos (block_size s) in
        let chunk := sub32 (block_size s) boff in
        let chunk := if sub32 remaining done <? chunk then sub32 remaining done else chunk in
        let! p := extent_find_physical ino lblock in
        match p with
        | None => kret done
        | Some pblock =>
            let! r := read_block pblock block_buf in
            if r <? 0 then kret done
            else
              do! upd (λ m, memcpy m (add32 dst done) (add32 block_buf boff) chunk) in
              read_loop fuel' ino off dst remaining (add32 done chunk)
        end
    end.
(** A round handles all that is left of a block. *)
Definition read_fuel (remaining bs : Z) : nat := S (S (Z.to_nat (remaining / bs))).

Definition inode_read_data (ino off buf len : Z) : EM Z :=
  let! m := mem_now in
  if negb (field32 m ext4_inode ino "i_size_high" =? 0) then kret (-1)
  else
    let file_size := field32 m ext4_inode ino "i_size_lo" in
    if file_size <=? off then kret 0
    else
      let remaining := if file_size <? add32 off len then sub32 file_size off else len in
      let! s := kget in
      let! done := read_loop (read_fuel remaining (block_size s)) ino off buf remaining 0 in
      kret (to_int done).

(** ** The root directory *)

Definition store8 (m : mem) (a v : Z) : mem := wr m (wrap32 a) v.
(** [name[0] == '.' && (name[1] == '\0' || (name[1] == '.' && name[2] == '\0'))] *)
Definition is_dot (m : mem) : bool :=
  (rd m name_buf =? 46) &&
  ((rd m (add32 name_buf 1) =? 0) || ((rd m (add32 name_buf 1) =? 46) && (rd m (add32 name_buf 2) =? 0))).
Definition entry_at (i : Z) : Z := add32 root_files (mul32 i (size_of ext4_file_entry)).

(** The body of the inner loop behind the test of [rec_len]: [true] when the table is full. *)
Definition take_entry (p : Z) : EM bool :=
  let! m := mem_now in
  let de := add32 block_buf p in
  let inode := field32 m ext4_dirent de "inode" in
  let name_len := rd m (add32 de (offset_of ext4_dirent "name_len")) in
  if negb (inode =? 0) && (0 <? name_len) && (name_len <? EXT4_NAME_MAX) then
    do! upd (λ m, memcpy m name_buf (add32 de (size_of ext4_dirent)) name_len) in
    do! upd (λ m, store8 m (name_buf + name_len) 0) in
    let! m := mem_now in
    if is_dot m then kret false
    else
      let! s := kget in
      do! upd (λ m, memcpy m (entry_at (root_file_count s)) name_buf (name_len + 1)) in
      do! upd (λ m, store32 m (add32 (entry_at (root_file_count s)) (offset_of ext4_file_entry "inode")) inode) in
      do! kmodify (λ s, set_root_file_count (root_file_count s + 1) s) in
      kret (EXT4_MAX_ROOT_ENTRIES <=? root_file_count s + 1)
  else kret false.

(** [while (p + sizeof(struct ext4_dirent) <= (uint32_t) n)] *)
Fixpoint scan_block (fuel : nat) (n p : Z) : EM unit :=
  if add32 p (size_of ext4_dirent) <=? n then
    match fuel with
    | O => knofuel
    | S fuel' =>
        let! m := mem_now in
        let rec_len := field16 m ext4_dirent (add32 block_buf p) "rec_len" in
        if rec_len =? 0 then kret tt
        else
          let! full := take_entry p in
          if full then kret tt else scan_block fuel' n (add32 p rec_len)
    end
  else kret tt.

(** [while (off < size && root_file_count < EXT4_MAX_ROOT_ENTRIES)] *)
Fixpoint scan_loop (fuel : nat) (size off : Z) : EM unit :=
  let! s := kget in
  if (off <? size) && (root_file_count s <? EXT4_MAX_ROOT_ENTRIES) then
    match fuel with
    | O => knofuel
    | S fuel' =>
        let! n := inode_read_data root_ino off block_buf (block_size s) in
        if n <=? 0 then kret tt
        else
          do! scan_block (S (Z.to_nat n)) (wrap32 n) 0 in
          scan_loop fuel' size (add32 off (block_size s))
    end
  else kret tt.

Definition scan_root_dir : EM Z :=
  let! r := read_inode 2 root_ino in
  if r <? 0 then kret (-1)
  else
    let! m := mem_now in
    if negb (field32 m ext4_inode root_ino "i_size_high" =? 0) then kret (-1)
    else
      let size := field32 m ext4_inode root_ino "i_size_lo" in
      do! kmodify (set_root_file_count 0) in
      let! s := kget in
      do! scan_loop (read_fuel size (block_size s)) size 0 in
      kret 0.

(** ** The interface *)

(** [ext4_mount] behind the test of the block size; [m] holds the superblock. *)
Definition mount_sized (m : mem) : EM Z :=
  let isize := field16 m ext4_super sb "s_inode_size" in
  let dsize := field16 m ext4_super sb "s_desc_size" in
  do! kmodify (set_sizes (if isize =? 0 then 128 else isize) (if dsize =? 0 then 32 else dsize)) in
  let blocks := field32 m ext4_super sb "s_blocks_count_lo" in
  let per_group := field32 m ext4_super sb "s_blocks_per_group" in
  let! groups := udiv (sub32 (add32 blocks per_group) 1) per_group in
  do! kmodify (set_groups_count groups) in
  if groups =? 0 then kret (-15)
  else
    let! r := scan_root_dir in
    if r <? 0 then kret (-16)
    else
      do! kmodify (set_mounted true) in
      kret 0.

Definition ext4_mount : EM Z :=
  let! s := kget in
  if mounted s then kret 0
  else if disk_init <? 0 then kret (-10)
  else
    let! r := blk_read 2 sbraw in
    if r <? 0 then kret (-11)
    else
      let! r := blk_read 3 (add32 sbraw 512) in
      if r <? 0 then kret (-12)
      else
        do! upd (λ m, memcpy m sb sbraw (size_of ext4_super)) in
        let! m := mem_now in
        if negb (field16 m ext4_super sb "s_magic" =? EXT4_SUPER_MAGIC) then kret (-13)
        else
          let log := field32 m ext4_super sb "s_log_block_size" in
          if 32 <=? log then kfault
          else
            let bs := wrap32 (Z.shiftl 1024 log) in
            do! kmodify (set_block_size bs) in
            if 4096 <? bs then kret (-14) else mount_sized m.

(** [str_eq], of the string at [a] and the string [b]. *)
Fixpoint str_eq_at (m : mem) (a : Z) (b : list Z) : bool :=
  match b with
  | [] => rd m a =? 0
  | c :: b' => negb (rd m a =? 0) && (rd m a =? c) && str_eq_at m (add32 a 1) b'
  end.
Fixpoint lookup_loop (n : nat) (i : Z) (name : list Z) (m : mem) : Z :=
  match n with
  | O => -1
  | S n' => if str_eq_at m (entry_at i) name then i else lookup_loop n' (i + 1) name m
  end.
Definition ext4_lookup (name : list Z) : EM Z :=
  let! s := kget in
  if negb (mounted s) then kret (-1)
  else kret (lookup_loop (Z.to_nat (root_file_count s)) 0 name (e_mem s)).

Definition ext4_read_file (file_index offset buf len : Z) : EM Z :=
  let! s := kget in
  if negb (mounted s) || (file_index <? 0) || (root_file_count s <=? file_index) then kret (-1)
  else
    let! r := read_inode (field32 (e_mem s) ext4_file_entry (entry_at file_index) "inode") file_ino in
    if r <? 0 then kret (-1) else inode_read_data file_ino offset buf len.

(** [str_len]; a name has fewer than 64 characters. *)
Fixpoint str_len_at (fuel : nat) (m : mem) (a : Z) : option Z :=
  match fuel with
  | O => None
  | S fuel' => if rd m a =? 0 then Some 0 else Z.succ <$> str_len_at fuel' m (add32 a 1)
  end.
Fixpoint listdir_loop (k : nat) (i buf len out : Z) : EM Z :=
  match k with
  | O => kret out
  | S k' =>
      let! m := mem_now in
      match str_len_at 65 m (entry_at i) with
      | None => knofuel
      | Some n =>
          if len <=? add32 (add32 out n) 1 then kret out
          else
            do! upd (λ m, memcpy m (add32 buf out) (entry_at i) n) in
            do! upd (λ m, store8 m (buf + out + n) 10) in
            listdir_loop k' (i + 1) buf len (add32 (add32 out n) 1)
      end
  end.
Definition ext4_listdir (buf len : Z) : EM Z :=
  let! s := kget in
  if negb (mounted s) || (buf =? 0) || (len =? 0) then kret (-1)
  else
    let! out := listdir_loop (Z.to_nat (root_file_count s)) 0 buf len 0 in
    do! (if out <? len then upd (λ m, store8 m (buf + out) 0) else kret tt) in
    kret (to_int out).
End ext4.
