(* ===== verification/Ext4Spec.v ===== *)
(** * Blocks and extents of an ext4 disk

    What a block of the disk holds, which blocks an inode names, and that the
    code finds them. *)

From S2P Require Import Prelude KString Bytes Ext4.

(** ** Memory *)

(** Only the [n] bytes at [a] may differ. *)
Definition changes (a n : Z) (m m' : mem) : Prop := ∀ x, ¬ (a ≤ x < a + n) → rd m' x = rd m x.
#[export] Instance changes_po a n : PreOrder (changes a n).
Proof. split; [by intros m x _|]. intros m1 m2 m3 H1 H2 x Hx. by rewrite H2, H1. Qed.

Lemma changes_mono a n a' n' m m' : a' ≤ a → a + n ≤ a' + n' → changes a n m m' → changes a' n' m m'.
Proof. intros H1 H2 H x Hx. apply H. lia. Qed.

Lemma put_changes m a l n : Z.of_nat (length l) ≤ n → changes a n m (put_bytes m a l).
Proof. intros Hl x Hx. apply put_bytes_out. lia. Qed.

Lemma memcpy_changes m dst src n k :
  0 ≤ dst → 0 ≤ src → 0 ≤ n ≤ k → dst + n ≤ 4294967296 → src + n ≤ 4294967296 → dst ≤ src ∨ src + n ≤ dst →
  changes dst k m (memcpy m dst src n).
Proof. intros H1 H2 H3 H4 H5 H6 x Hx. rewrite memcpy_rd by lia. zcases; done. Qed.

Lemma get_bytes_changes m m' a n b k : changes a n m m' → b + k ≤ a ∨ a + n ≤ b → get_bytes m' b k = get_bytes m b k.
Proof. intros H Hd. apply get_bytes_ext. intros i Hi. apply H. lia. Qed.

Lemma load16_ext m m' a a' : (∀ k, 0 ≤ k < 2 → rd m (a + k) = rd m' (a' + k)) → load16 m a = load16 m' a'.
Proof. intros H. unfold load16. rewrite (H 1) by lia. specialize (H 0 ltac:(lia)). rewrite !Z.add_0_r in H. by rewrite H. Qed.

Lemma load16_range m a : 0 ≤ load16 m a < 65536.
Proof. unfold load16. pose proof (rd_range m a). pose proof (rd_range m (a + 1)). lia. Qed.

(** What the disk driver promises: it returns 0 with a whole sector, or -1. *)
Class DiskOk {DK : Disk} := {
  disk_read_ok : ∀ k, (disk_read k).1 = 0 ∧ length (disk_read k).2 = 512%nat ∧ is_bytes (disk_read k).2 ∨
    (disk_read k).1 = -1 ∧ (length (disk_read k).2 ≤ 512)%nat;
}.

(** The variables other than memory stay. *)
Definition same_vars (s s' : ext4_state) : Prop := s' = set_e_mem (e_mem s') s.
#[export] Instance same_vars_po : PreOrder same_vars.
Proof. split; [by intros []|]. intros s1 s2 s3 H1 H2. unfold same_vars in *. etrans; [exact H2|]. by rewrite H1 at 1. Qed.

Lemma same_vars_set s m : same_vars s (set_e_mem m s).
Proof. done. Qed.

(** Offsets of fields and sizes of structures as numbers. *)
Ltac offsets :=
  unfold field16, field32;
  repeat match goal with
  | |- context [offset_of ?st ?f] => let o := eval vm_compute in (offset_of st f) in change (offset_of st f) with o
  | |- context [size_of ?st] => let o := eval vm_compute in (size_of st) in change (size_of st) with o
  end.

Section spec.
Context {DK : Disk} {DOK : DiskOk} {EP : Ext4Places}.

(** ** Blocks *)

Definition disk_sector (k : Z) : option (list Z) := if (disk_read k).1 <? 0 then None else Some (disk_read k).2.
Fixpoint disk_sectors (n : nat) (i first : Z) : option (list Z) :=
  match n with
  | O => Some []
  | S n' => match disk_sector (add32 first i) with None => None | Some l => app l <$> disk_sectors n' (i + 1) first end
  end.
(** The bytes of a block, if all its sectors can be read. *)
Definition disk_block (bs b : Z) : option (list Z) := disk_sectors (Z.to_nat (bs / 512)) 0 (mul32 b (bs / 512)).

Lemma read_sectors_spec (n : nat) : ∀ i first p s,
  0 ≤ i → 0 ≤ p → p + 512 * (i + n) ≤ 4294967296 →
  wp (read_sectors n i first p) (λ r s', same_vars s s' ∧ changes (p + 512 * i) (512 * n) (e_mem s) (e_mem s') ∧
    match disk_sectors n i first with
    | Some l => r = 0 ∧ get_bytes (e_mem s') (p + 512 * i) (512 * n) = l
    | None => r = -1
    end) s.
Proof.
  induction n as [|n IH]; intros i first p s Hi Hp Hend; cbn [read_sectors disk_sectors].
  { wp_step. done. }
  wp_step. unfold blk_read, upd. assert (Ha : add32 p (mul32 i 512) = p + 512 * i) by (rewrite mul32_small, add32_small; lia).
  rewrite Ha. pose proof (disk_read_ok (add32 first i)) as Hd. unfold disk_sector.
  destruct (disk_read (add32 first i)) as [r bytes]. cbn [fst snd] in *. wp_steps.
  assert (Hlen : Z.of_nat (length bytes) ≤ 512) by (destruct Hd as [(_ & -> & _)|[_ ?]]; lia).
  assert (Hc : changes (p + 512 * i) 512 (e_mem s) (put_bytes (e_mem s) (p + 512 * i) bytes)) by (by apply put_changes).
  destruct Hd as [(-> & Hl & Hb)|[-> Hl]]; cbn [Z.ltb Z.compare].
  2: { wp_steps. split; [done|]. split; [|done]. eapply changes_mono; [..|exact Hc]; lia. }
  eapply wp_mono; [apply IH; lia|]. intros r' s' (Hv & Hc' & Hr). cbn [e_mem set_e_mem] in *. split; [by etrans; [apply same_vars_set|exact Hv]|].
  assert (Hcc : changes (p + 512 * i) (512 * S n) (e_mem s) (e_mem s')).
  { etrans; [eapply changes_mono; [..|exact Hc]; lia|eapply changes_mono; [..|exact Hc']; lia]. }
  split; [done|]. destruct (disk_sectors n (i + 1) first) as [l|]; cbn; [|done]. destruct Hr as [-> Hg]. split; [done|].
  replace (512 * S n) with (512 + 512 * n) by lia. rewrite get_bytes_app by lia. f_equal.
  - rewrite (get_bytes_changes _ _ _ _ _ _ Hc') by lia. pose proof (get_put (e_mem s) (p + 512 * i) bytes Hb) as Hgp. rewrite Hl in Hgp. exact Hgp.
  - by replace (p + 512 * i + 512) with (p + 512 * (i + 1)) by lia.
Qed.

Definition good_size (bs : Z) : Prop := bs = 1024 ∨ bs = 2048 ∨ bs = 4096.

Lemma good_size_bounds bs : good_size bs → 1024 ≤ bs ≤ 4096 ∧ bs = 512 * (bs / 512).
Proof. intros [->|[->| ->]]; (split; [lia|done]). Qed.

Lemma read_block_spec b buf s :
  good_size (block_size s) → 0 ≤ buf → buf + 4096 ≤ 4294967296 →
  wp (read_block b buf) (λ r s', same_vars s s' ∧ changes buf (block_size s) (e_mem s) (e_mem s') ∧
    match disk_block (block_size s) b with
    | Some l => r = 0 ∧ get_bytes (e_mem s') buf (block_size s) = l
    | None => r = -1
    end) s.
Proof.
  intros Hbs Hb He. destruct (good_size_bounds _ Hbs) as [Hr Hm]. unfold read_block. do 2 wp_step.
  eapply wp_mono; [apply read_sectors_spec; lia|]. intros r s' (Hv & Hc & Hp). unfold disk_block.
  replace (512 * Z.to_nat (block_size s / 512)) with (block_size s) in * by lia. rewrite Z.add_0_r in *. done.
Qed.

Lemma disk_sectors_length (n : nat) : ∀ i first l, disk_sectors n i first = Some l → length l = (512 * n)%nat ∧ is_bytes l.
Proof.
  induction n as [|n IH]; intros i first l; cbn [disk_sectors]; [intros [= <-]; split; [done|constructor]|].
  unfold disk_sector. pose proof (disk_read_ok (add32 first i)) as Hd. destruct (disk_read (add32 first i)) as [r bytes]. cbn [fst snd] in *.
  destruct Hd as [(-> & Hl & Hb)|[-> _]]; cbn [Z.ltb Z.compare]; [|done].
  destruct (disk_sectors n (i + 1) first) as [l'|] eqn:E; [|done]. cbn. intros [= <-]. destruct (IH _ _ _ E) as [Hl' Hb'].
  split; [rewrite length_app; lia|by apply Forall_app].
Qed.

Lemma disk_block_length bs b l : good_size bs → disk_block bs b = Some l → Z.of_nat (length l) = bs ∧ is_bytes l.
Proof.
  intros Hbs H. destruct (good_size_bounds _ Hbs) as [Hr Hm]. destruct (disk_sectors_length _ _ _ _ H) as [Hl Hb]. split; [lia|done].
Qed.

(** ** Extents *)

(** An extent as the code reads it: the upper bit of [ee_len], which marks an
    uninitialised extent, is masked away, so the length 32768 of a full
    initialised one counts as 0. *)
Record extent := Extent { x_block : Z; x_len : Z; x_hi : Z; x_lo : Z }.
Definition extent_at (m : mem) (a : Z) : extent :=
  Extent (load32 m a) (Z.land (load16 m (a + 4)) 32767) (load16 m (a + 6)) (load32 m (a + 8)).
Definition extents (m : mem) (a i n : Z) : list extent := (λ k, extent_at m (a + 12 * k)) <$> seqZ i n.
Record index := Index { n_block : Z; n_lo : Z; n_hi : Z }.
Definition index_at (m : mem) (a : Z) : index := Index (load32 m a) (load32 m (a + 4)) (load16 m (a + 8)).
Definition indexes (m : mem) (a i n : Z) : list index := (λ k, index_at m (a + 12 * k)) <$> seqZ i n.

Definition in_extent (x : extent) (lb : Z) : bool := (x_block x <=? lb) && (lb <? add32 (x_block x) (x_len x)).
Fixpoint search (l : list extent) (lb : Z) : option Z :=
  match l with
  | [] => None
  | x :: l' =>
      if in_extent x lb then if negb (x_hi x =? 0) then None else Some (add32 (x_lo x) (sub32 lb (x_block x)))
      else search l' lb
  end.
Fixpoint choose (l : list index) (lb : Z) (cur : option index) : option index :=
  match l with
  | [] => cur
  | x :: l' => if n_block x <=? lb then choose l' lb (Some x) else cur
  end.

(** The extents in the bytes of a leaf block. *)
Definition leaf_extents (l : list Z) : option (list extent) :=
  let m := put_bytes ∅ 0 l in
  if negb (load16 m 0 =? EXT4_EXT_MAGIC) || negb (load16 m 6 =? 0) then None else Some (extents m 12 0 (load16 m 2)).

(** The block of the disk for block [lb] of the file whose inode is at [ino]. *)
Definition block_map (bs : Z) (m : mem) (ino lb : Z) : option Z :=
  let eh := ino + 40 in
  if negb (load16 m eh =? EXT4_EXT_MAGIC) then None
  else
    let n := load16 m (eh + 2) in
    if load16 m (eh + 6) =? 0 then search (extents m (eh + 12) 0 n) lb
    else if load16 m (eh + 6) =? 1 then
      x ← choose (indexes m (eh + 12) 0 n) lb None;
      if negb (n_hi x =? 0) then None
      else l ← disk_block bs (n_lo x); es ← leaf_extents l; search es lb
    else None.

(** The entries lie inside the inode, and those of every leaf inside its block. *)
Definition tree_ok (bs : Z) (m : mem) (ino : Z) : Prop :=
  load16 m (ino + 42) ≤ 4 ∧
  (load16 m (ino + 46) = 1 → ∀ x l, x ∈ indexes m (ino + 52) 0 (load16 m (ino + 42)) → disk_block bs (n_lo x) = Some l →
    12 + 12 * load16 (put_bytes ∅ 0 l) 2 ≤ bs).

Lemma search_extents_list n : ∀ i ex lb m, 0 ≤ i → 0 ≤ ex → ex + 12 * (i + Z.of_nat n) ≤ 4294967296 →
  search_extents n i ex lb m = search (extents m ex i n) lb.
Proof.
  induction n as [|n IH]; intros i ex lb m Hi He Hend; cbn [search_extents]; [done|].
  unfold extents. rewrite seqZ_cons by lia. cbn [fmap list_fmap search]. offsets. rewrite (add32_small ex) by lia.
  rewrite (add32_small _ 0), (add32_small _ 4), (add32_small _ 6), (add32_small _ 8), Z.add_0_r by lia. rewrite IH by lia. unfold in_extent, extents, extent_at. cbn [x_block x_len x_hi x_lo].
  replace (Z.pred (S n)) with (Z.of_nat n) by lia. done.
Qed.

Lemma choose_index_list n : ∀ i ix lb m c, 0 ≤ i → 0 ≤ ix → ix + 12 * (i + Z.of_nat n) ≤ 4294967296 →
  index_at m <$> choose_index n i ix lb c m = choose (indexes m ix i n) lb (index_at m <$> c) ∧
  (∀ e, choose_index n i ix lb c m = Some e → c = Some e ∨ ∃ k, i ≤ k < i + n ∧ e = ix + 12 * k).
Proof.
  induction n as [|n IH]; intros i ix lb m c Hi He Hend; cbn [choose_index]; [split; [done|by left]|].
  unfold indexes. rewrite seqZ_cons by lia. cbn [fmap list_fmap choose]. offsets. rewrite (add32_small ix), (add32_small _ 0), Z.add_0_r by lia.
  unfold index_at at 3. cbn [n_block]. destruct (_ <=? lb); [|split; [done|by left]].
  destruct (IH (i + 1) ix lb m (Some (ix + 12 * i))) as [H1 H2]; [lia|lia|lia|]. split.
  - rewrite H1. unfold indexes. by replace (Z.pred (S n)) with (Z.of_nat n) by lia.
  - intros e Hce. right. destruct (H2 e Hce) as [[= <-]|(k & Hk & ->)]; [exists i|exists k]; (split; [lia|done]).
Qed.

(** Extents depend on their bytes only. *)
Lemma extents_ext m m' a a' n :
  (∀ k, 0 ≤ k < 12 * n → rd m (a + k) = rd m' (a' + k)) → extents m a 0 n = extents m' a' 0 n.
Proof.
  intros H. apply list_fmap_ext. intros _ k Hk%list_elem_of_lookup_2%elem_of_seqZ. unfold extent_at. f_equal.
  - apply load32_shift. intros j Hj. replace (a + 12 * k + j) with (a + (12 * k + j)) by lia. replace (a' + 12 * k + j) with (a' + (12 * k + j)) by lia. apply H. lia.
  - f_equal. apply load16_ext. intros j Hj. replace (a + 12 * k + 4 + j) with (a + (12 * k + 4 + j)) by lia.
    replace (a' + 12 * k + 4 + j) with (a' + (12 * k + 4 + j)) by lia. apply H. lia.
  - apply load16_ext. intros j Hj. replace (a + 12 * k + 6 + j) with (a + (12 * k + 6 + j)) by lia.
    replace (a' + 12 * k + 6 + j) with (a' + (12 * k + 6 + j)) by lia. apply H. lia.
  - apply load32_shift. intros j Hj. replace (a + 12 * k + 8 + j) with (a + (12 * k + 8 + j)) by lia.
    replace (a' + 12 * k + 8 + j) with (a' + (12 * k + 8 + j)) by lia. apply H. lia.
Qed.

(** The same for index entries. *)
Lemma index_at_ext m m' a a' : (∀ k, 0 ≤ k < 12 → rd m (a + k) = rd m' (a' + k)) → index_at m a = index_at m' a'.
Proof.
  intros H. unfold index_at. f_equal; [apply load32_shift|apply load32_shift|apply load16_ext]; intros j Hj.
  - apply H. lia.
  - rewrite <-!Z.add_assoc. apply H. lia.
  - rewrite <-!Z.add_assoc. apply H. lia.
Qed.

Lemma indexes_ext m m' a a' n :
  (∀ k, 0 ≤ k < 12 * n → rd m (a + k) = rd m' (a' + k)) → indexes m a 0 n = indexes m' a' 0 n.
Proof.
  intros H. apply list_fmap_ext. intros _ k Hk%list_elem_of_lookup_2%elem_of_seqZ. apply index_at_ext.
  intros j Hj. rewrite <-!Z.add_assoc. apply H. lia.
Qed.

(** The bytes of an inode decide which blocks it names. *)
Definition same_bytes (n : Z) (m : mem) (a : Z) (m' : mem) (a' : Z) : Prop := ∀ k, 0 ≤ k < n → rd m (a + k) = rd m' (a' + k).

Lemma load16_same n m a m' a' k : same_bytes n m a m' a' → 0 ≤ k → k + 2 ≤ n → load16 m (a + k) = load16 m' (a' + k).
Proof. intros H Hk Hn. apply load16_ext. intros j Hj. rewrite <-!Z.add_assoc. apply H. lia. Qed.

Lemma load32_same n m a m' a' k : same_bytes n m a m' a' → 0 ≤ k → k + 4 ≤ n → load32 m (a + k) = load32 m' (a' + k).
Proof. intros H Hk Hn. apply load32_shift. intros j Hj. rewrite <-!Z.add_assoc. apply H. lia. Qed.

Lemma same_bytes_sub n m a m' a' k j : same_bytes n m a m' a' → 0 ≤ k → k + j ≤ n → same_bytes j m (a + k) m' (a' + k).
Proof. intros H Hk Hj i Hi. rewrite <-!Z.add_assoc. apply H. lia. Qed.

Lemma same_bytes_sym n m a m' a' : same_bytes n m a m' a' → same_bytes n m' a' m a.
Proof. intros H k Hk. symmetry. by apply H. Qed.

Lemma block_map_same bs m a m' a' lb : same_bytes 100 m a m' a' → load16 m (a + 42) ≤ 4 → block_map bs m a lb = block_map bs m' a' lb.
Proof.
  intros H H4. unfold block_map. pose proof (load16_range m (a + 42)).
  rewrite <-!(Z.add_assoc _ 40). change (40 + 2) with 42. change (40 + 6) with 46. change (40 + 12) with 52.
  rewrite <-!(load16_same _ _ _ _ _ _ H) by lia.
  rewrite <-(extents_ext m m' (a + 52) (a' + 52)) by (apply (same_bytes_sub _ _ _ _ _ _ _ H); lia).
  rewrite <-(indexes_ext m m' (a + 52) (a' + 52)) by (apply (same_bytes_sub _ _ _ _ _ _ _ H); lia). done.
Qed.

Lemma tree_ok_same bs m a m' a' : same_bytes 100 m a m' a' → tree_ok bs m a → tree_ok bs m' a'.
Proof.
  intros H [H4 Hl]. pose proof (load16_range m (a + 42)). unfold tree_ok. rewrite <-!(load16_same _ _ _ _ _ _ H) by lia.
  split; [done|]. intros H1 x l Hx. apply (Hl H1). rewrite (indexes_ext m m' (a + 52) (a' + 52)); [done|].
  apply (same_bytes_sub _ _ _ _ _ _ _ H); lia.
Qed.

Lemma same_bytes_changes a n m m' b k : changes a n m m' → b + k ≤ a ∨ a + n ≤ b → same_bytes k m b m' b.
Proof. intros H Hd i Hi. symmetry. apply H. lia. Qed.

(** A buffer that holds [l] is like [l] at address 0. *)
Lemma get_bytes_same m a n l : get_bytes m a n = l → same_bytes n m a (put_bytes ∅ 0 l) 0.
Proof.
  intros <- k Hk. rewrite <-(Z2Nat.id k) by lia. rewrite (put_bytes_in _ _ _ _ (rd m (a + Z.to_nat k))); [done| |apply rd_range].
  apply get_bytes_lookup. lia.
Qed.

Lemma search_leaf m l bs lb : get_bytes m block_buf bs = l → 0 ≤ block_buf → block_buf + bs ≤ 4294967296 → 16 ≤ bs →
  12 + 12 * load16 (put_bytes ∅ 0 l) 2 ≤ bs →
  (if negb (field16 m ext4_extent_header block_buf "eh_magic" =? EXT4_EXT_MAGIC) || negb (field16 m ext4_extent_header block_buf "eh_depth" =? 0)
   then None
   else search_extents (Z.to_nat (field16 m ext4_extent_header block_buf "eh_entries")) 0
          (add32 block_buf (size_of ext4_extent_header)) lb m) = (es ← leaf_extents l; search es lb).
Proof.
  intros Hg Hb He H8 Hfit. apply get_bytes_same in Hg as Hs. unfold leaf_extents. offsets.
  rewrite (add32_small block_buf 0), (add32_small block_buf 2), (add32_small block_buf 6) by lia.
  rewrite !(load16_same _ _ _ _ _ _ Hs) by lia. rewrite !Z.add_0_l. destruct (_ || _); [done|]. cbn [mbind option_bind].
  pose proof (load16_range (put_bytes ∅ 0 l) 2). rewrite (add32_small block_buf 12) by lia.
  rewrite search_extents_list by lia. rewrite Z2Nat.id by lia. f_equal. apply extents_ext.
  apply (same_bytes_sub _ _ _ _ 0 12 _ Hs); lia.
Qed.

Lemma extent_find_physical_spec ino lb s :
  good_size (block_size s) → 0 ≤ block_buf → block_buf + 4096 ≤ 4294967296 → 0 ≤ ino → ino + 100 ≤ 4294967296 →
  tree_ok (block_size s) (e_mem s) ino →
  wp (extent_find_physical ino lb) (λ p s', same_vars s s' ∧ changes block_buf (block_size s) (e_mem s) (e_mem s') ∧
    p = block_map (block_size s) (e_mem s) ino lb) s.
Proof.
  intros Hbs Hb He Hi Hie [H4 Hleaf]. destruct (good_size_bounds _ Hbs) as [Hr _]. set (m := e_mem s) in *.
  pose proof (load16_range m (ino + 42)) as Hn. unfold extent_find_physical, mem_now. wp_steps. offsets. fold m.
  rewrite (add32_small ino 40), (add32_small _ 0), (add32_small _ 2), (add32_small _ 6), (add32_small _ 12) by lia.
  unfold block_map. rewrite Z.add_0_r. replace (ino + 40 + 2) with (ino + 42) by lia.
  replace (ino + 40 + 12) with (ino + 52) by lia.
  destruct (negb (load16 m (ino + 40) =? _)); [wp_steps; by split_and!|].
  destruct (_ =? 0) eqn:E0.
  { wp_steps. split_and!; [done|done|]. rewrite search_extents_list by lia. by rewrite Z2Nat.id by lia. }
  destruct (_ =? 1) eqn:E1; [|wp_steps; by split_and!].
  destruct (choose_index_list (Z.to_nat (load16 m (ino + 42))) 0 (ino + 52) lb m None) as [Hch Hat]; [lia|lia|lia|].
  rewrite Z2Nat.id in Hch by lia. cbn [fmap option_fmap option_map] in Hch. rewrite <-Hch.
  destruct (choose_index _ _ _ _ _ _) as [e|]; cbn [fmap option_fmap option_map mbind option_bind]; [|wp_steps; by split_and!].
  destruct (Hat e eq_refl) as [?|(k & Hk & ->)]; [done|]. rewrite Z2Nat.id in Hk by lia.
  rewrite (add32_small _ 8), (add32_small _ 4) by lia. unfold index_at at 1. cbn [n_hi].
  destruct (negb _); [wp_steps; by split_and!|]. wp_steps. eapply wp_mono; [apply read_block_spec; done|].
  intros r s' (Hv & Hc & Hblk). cbn [index_at n_lo]. destruct (disk_block _ _) as [l|] eqn:El; cbn [mbind option_bind].
  2: { subst r. cbn. wp_steps. by split_and!. }
  destruct Hblk as [-> Hg]. cbn [Z.ltb Z.compare]. wp_steps.
  assert (Hfit : 12 + 12 * load16 (put_bytes ∅ 0 l) 2 ≤ block_size s).
  { apply (Hleaf ltac:(replace (ino + 46) with (ino + 40 + 6) by lia; lia) (index_at m (ino + 52 + 12 * k))); [|done]. apply list_elem_of_fmap. exists k. split; [done|]. apply elem_of_seqZ. lia. }
  pose proof (search_leaf (e_mem s') l (block_size s) lb Hg ltac:(lia) ltac:(lia) ltac:(lia) Hfit) as Hs. revert Hs. offsets.
  intros <-. destruct (_ || _); wp_steps; by split_and!.
Qed.
End spec.
