(* ===== verification/Ext4Read.v ===== *)
(** * What an extent tree means

    A well-formed tree is read as the set of its extents: the search of the
    code finds the block of the disk exactly when some extent covers the block
    of the file. *)

From Stdlib Require Import Sorting.Sorted.
From S2P Require Import Prelude KString Bytes Ext4 Ext4Spec.

Definition x_end (x : extent) : Z := x_block x + x_len x.
Definition covers (x : extent) (lb : Z) : Prop := x_block x ≤ lb < x_end x.
(** Block [lb] of the file is block [pb] of the disk by the extent [x]. *)
Definition maps_to (x : extent) (lb pb : Z) : Prop := covers x lb ∧ x_hi x = 0 ∧ pb = x_lo x + (lb - x_block x).

(** Extents are in order, do not overlap, and stay below 2^32. *)
Definition extent_ok (x : extent) : Prop := 0 ≤ x_block x ∧ 0 ≤ x_len x ∧ 0 ≤ x_lo x ∧ x_end x < 4294967296 ∧ x_lo x + x_len x ≤ 4294967296.
Definition extents_ok (l : list extent) : Prop := Forall extent_ok l ∧ StronglySorted (λ x y, x_end x ≤ x_block y) l.

Lemma search_iff l lb pb : extents_ok l → search l lb = Some pb ↔ ∃ x, x ∈ l ∧ maps_to x lb pb.
Proof.
  intros [Hok Hs]. induction l as [|x l IH]; cbn [search]; [split; [done|by intros (x & ?%elem_of_nil & _)]|].
  apply Forall_cons in Hok as [(? & ? & ? & ? & ?) Hok]. inversion Hs as [|? ? Hs' Hx]; subst. specialize (IH Hok Hs').
  unfold x_end in *. rewrite list.Forall_forall in Hx. unfold in_extent. rewrite add32_small by lia.
  destruct ((x_block x <=? lb) && (lb <? x_block x + x_len x)) eqn:E.
  - apply andb_prop in E as [E1%Z.leb_le E2%Z.ltb_lt]. rewrite sub32_small by lia. destruct (x_hi x =? 0) eqn:Eh; cbn [negb].
    + rewrite add32_small by lia. split.
      * intros [= <-]. exists x. split; [by left|]. repeat split; unfold x_end; lia.
      * intros (y & [->|Hy]%elem_of_cons & (Hc1 & Hc2) & _ & ->); [done|]. specialize (Hx y Hy). unfold x_end in *. lia.
    + split; [done|]. intros (y & [->|Hy]%elem_of_cons & (Hc1 & Hc2) & Hh & _); [lia|]. specialize (Hx y Hy). lia.
  - rewrite IH. split; intros (y & Hy & Hm).
    + exists y. split; [by right|done].
    + apply elem_of_cons in Hy as [->|Hy]; [|by exists y]. destruct Hm as [[Hc1 Hc2] _]. unfold x_end in *. lia.
Qed.

Lemma choose_sorted l lb : ∀ c, StronglySorted (λ x y, n_block x < n_block y) l →
  match choose l lb c with
  | None => c = None ∧ ∀ y, y ∈ l → lb < n_block y
  | Some x => c = Some x ∧ (∀ y, y ∈ l → lb < n_block y) ∨
              x ∈ l ∧ n_block x ≤ lb ∧ ∀ y, y ∈ l → n_block y ≤ lb → n_block y < n_block x ∨ y = x
  end.
Proof.
  induction l as [|x l IH]; intros c Hs; cbn [choose].
  { destruct c; [left|]; (split; [done|by intros y ?%elem_of_nil]). }
  inversion Hs as [|? ? Hs' Hx]; subst. rewrite list.Forall_forall in Hx. destruct (n_block x <=? lb) eqn:E.
  - specialize (IH (Some x) Hs'). destruct (choose l lb (Some x)) as [z|]; [|by destruct IH]. right.
    destruct IH as [[[= <-] Hn]|(Hz & Hzl & Hn)].
    + split; [by left|]. split; [lia|]. intros y [->|Hy]%elem_of_cons ?; [by right|]. specialize (Hn y Hy). lia.
    + split; [by right|]. split; [done|]. intros y [->|Hy]%elem_of_cons ?; [left; by apply Hx|by apply Hn].
  - assert (Hall : ∀ y, y ∈ x :: l → lb < n_block y) by (intros y [->|Hy]%elem_of_cons; [lia|specialize (Hx y Hy); lia]).
    destruct c; [left|]; by split.
Qed.

Section tree.
Context {DK : Disk} {DOK : DiskOk} {EP : Ext4Places}.

(** The extents under an index entry. *)
Definition leaf_of (bs : Z) (x : index) : list extent :=
  if negb (n_hi x =? 0) then [] else default [] (l ← disk_block bs (n_lo x); leaf_extents l).
(** All extents of the inode at [ino]. *)
Definition file_extents (bs : Z) (m : mem) (ino : Z) : list extent :=
  if negb (load16 m (ino + 40) =? EXT4_EXT_MAGIC) then []
  else if load16 m (ino + 46) =? 0 then extents m (ino + 52) 0 (load16 m (ino + 42))
  else if load16 m (ino + 46) =? 1 then indexes m (ino + 52) 0 (load16 m (ino + 42)) ≫= leaf_of bs
  else [].

(** A sorted tree: the index entries are in order, and the extents of a leaf
    lie between its key and the next one. *)
Definition tree_sorted (bs : Z) (m : mem) (ino : Z) : Prop :=
  (load16 m (ino + 46) = 0 → extents_ok (extents m (ino + 52) 0 (load16 m (ino + 42)))) ∧
  (load16 m (ino + 46) = 1 →
    let ixs := indexes m (ino + 52) 0 (load16 m (ino + 42)) in
    StronglySorted (λ x y, n_block x < n_block y) ixs ∧
    ∀ x, x ∈ ixs → extents_ok (leaf_of bs x) ∧
      ∀ e, e ∈ leaf_of bs x → n_block x ≤ x_block e ∧ ∀ y, y ∈ ixs → n_block x < n_block y → x_end e ≤ n_block y).

Lemma leaf_search bs x lb :
  (if negb (n_hi x =? 0) then None else l ← disk_block bs (n_lo x); es ← leaf_extents l; search es lb) = search (leaf_of bs x) lb.
Proof. unfold leaf_of. destruct (negb _); [done|]. destruct (disk_block _ _) as [l|]; cbn; [|done]. by destruct (leaf_extents l). Qed.

Lemma block_map_iff bs m ino lb pb : tree_sorted bs m ino →
  block_map bs m ino lb = Some pb ↔ ∃ x, x ∈ file_extents bs m ino ∧ maps_to x lb pb.
Proof.
  intros [H0 H1]. unfold block_map, file_extents. replace (ino + 40 + 2) with (ino + 42) by lia.
  replace (ino + 40 + 6) with (ino + 46) by lia. replace (ino + 40 + 12) with (ino + 52) by lia.
  assert (Hnil : (None : option Z) = Some pb ↔ ∃ x, x ∈ @nil extent ∧ maps_to x lb pb) by (split; [done|by intros (x & ?%elem_of_nil & _)]).
  destruct (negb (load16 m (ino + 40) =? _)); [done|].
  destruct (load16 m (ino + 46) =? 0) eqn:E0; [apply search_iff, H0; lia|].
  destruct (load16 m (ino + 46) =? 1) eqn:E1; [|done]. destruct (H1 ltac:(lia)) as [Hs Hl]. clear H0 H1 Hnil.
  set (ixs := indexes m (ino + 52) 0 (load16 m (ino + 42))) in *. pose proof (choose_sorted ixs lb None Hs) as Hc.
  destruct (choose ixs lb None) as [y|]; cbn [mbind option_bind].
  - destruct Hc as [[? _]|(Hy & Hyl & Hmax)]; [done|]. rewrite leaf_search. rewrite search_iff by (by apply Hl). split.
    + intros (e & He & Hm). exists e. split; [|done]. apply list_elem_of_bind. by exists y.
    + intros (e & (x & He & Hx)%list_elem_of_bind & Hm). exists e. split; [|done].
      destruct (proj2 (Hl x Hx) e He) as [Hk Hnext]. destruct Hm as [[Hc1 Hc2] _].
      destruct (Hmax x Hx ltac:(lia)) as [Hlt| ->]; [|done]. specialize (Hnext y Hy Hlt). lia.
  - destruct Hc as [_ Hall]. split; [done|]. intros (e & (x & He & Hx)%list_elem_of_bind & [Hc1 Hc2] & _).
    destruct (proj2 (Hl x Hx) e He) as [Hk _]. specialize (Hall x Hx). lia.
Qed.

End tree.

(** ** Contents of files on an ext4 disk

    What the bytes of a file are, and that [inode_read_data] delivers them. *)

(** ** Frames of several buffers *)

Definition apart (r r' : Z * Z) : Prop := r.1 + r.2 ≤ r'.1 ∨ r'.1 + r'.2 ≤ r.1.
Lemma apart_sym r r' : apart r r' → apart r' r.
Proof. unfold apart. lia. Qed.
Definition within (r r' : Z * Z) : Prop := r'.1 ≤ r.1 ∧ r.1 + r.2 ≤ r'.1 + r'.2.
(** Only bytes of the regions [rs] may differ. *)
Definition touches (rs : list (Z * Z)) (m m' : mem) : Prop :=
  ∀ x, Forall (λ r, ¬ (r.1 ≤ x < r.1 + r.2)) rs → rd m' x = rd m x.
#[export] Instance touches_po rs : PreOrder (touches rs).
Proof. split; [by intros m x _|]. intros m1 m2 m3 H1 H2 x Hx. by rewrite H2, H1. Qed.

Lemma changes_touches a n r rs m m' : changes a n m m' → r ∈ rs → within (a, n) r → touches rs m m'.
Proof. intros H Hr [Hw1 Hw2] x Hx. apply H. rewrite list.Forall_forall in Hx. specialize (Hx r Hr). cbn in *. lia. Qed.

Lemma touches_same rs m m' a n : touches rs m m' → Forall (apart (a, n)) rs → same_bytes n m a m' a.
Proof.
  intros H Ha k Hk. symmetry. apply H. eapply Forall_impl; [exact Ha|]. intros r Hr. unfold apart in Hr. cbn in *. lia.
Qed.

Lemma touches_mono rs rs' m m' : touches rs m m' → Forall (λ r, Exists (within r) rs') rs → touches rs' m m'.
Proof.
  intros H Hw x Hx. apply H. eapply Forall_impl; [exact Hw|]. cbn. intros r (r' & Hr' & [H1 H2])%Exists_exists.
  rewrite list.Forall_forall in Hx. specialize (Hx r' Hr'). cbn in *. lia.
Qed.

Lemma same_bytes_trans n m1 a1 m2 a2 m3 a3 : same_bytes n m1 a1 m2 a2 → same_bytes n m2 a2 m3 a3 → same_bytes n m1 a1 m3 a3.
Proof. intros H1 H2 k Hk. by rewrite H1, H2. Qed.

Lemma same_bytes_le n k m a m' a' : same_bytes n m a m' a' → k ≤ n → same_bytes k m a m' a'.
Proof. intros H Hk i Hi. apply H. lia. Qed.

(** A goal for every region of a list. *)
Ltac each := repeat first [apply List.Forall_nil | apply List.Forall_cons].

Section read.
Context {DK : Disk} {DOK : DiskOk} {EP : Ext4Places}.
Context (buf_lo : 0 ≤ block_buf) (buf_hi : block_buf + 4096 ≤ 4294967296).

(** ** The file an inode stands for *)

Definition file_block (bs : Z) (m : mem) (ino lb : Z) : option (list Z) := pb ← block_map bs m ino lb; disk_block bs pb.
(** The inode at [ino] holds the file with the blocks [fb]. *)
Definition holds (bs : Z) (m : mem) (ino : Z) (fb : Z → option (list Z)) : Prop :=
  tree_ok bs m ino ∧ ∀ lb, file_block bs m ino lb = fb lb.
Definition byte_of (bs : Z) (fb : Z → option (list Z)) (k : Z) : option Z := l ← fb (k / bs); l !! Z.to_nat (k mod bs).

Lemma holds_same bs m a m' a' fb : same_bytes 100 m a m' a' → holds bs m a fb → holds bs m' a' fb.
Proof.
  intros Hs [Ht Hf]. split; [by eapply tree_ok_same|]. intros lb. rewrite <-Hf. unfold file_block.
  rewrite (block_map_same bs m a m' a'); [done|done|]. by destruct Ht.
Qed.

Lemma holds_length bs m ino fb lb l : good_size bs → holds bs m ino fb → fb lb = Some l → Z.of_nat (length l) = bs ∧ is_bytes l.
Proof.
  intros Hbs [_ Hf] Hl. rewrite <-Hf in Hl. unfold file_block in Hl. destruct (block_map _ _ _ _); [|done]. by eapply disk_block_length.
Qed.

(** Finding and loading a block, as [inode_read_data] does it. *)
Lemma find_load {A} ino lb fb (none : km ext4_state A) (some : Z → km ext4_state A) (Q : A → ext4_state → Prop) s :
  good_size (block_size s) → 0 ≤ ino → ino + 100 ≤ 4294967296 → holds (block_size s) (e_mem s) ino fb →
  (∀ s', same_vars s s' → changes block_buf (block_size s) (e_mem s) (e_mem s') →
    match fb lb with
    | None => wp none Q s'
    | Some l => get_bytes (e_mem s') block_buf (block_size s) = l → ∀ r, r = 0 → wp (some r) Q s'
    end) →
  wp (extent_find_physical ino lb) (λ p,
    wp (match p with
        | None => none
        | Some pblock => let! r := read_block pblock block_buf in if r <? 0 then none else some r
        end) Q) s.
Proof.
  intros Hbs Hi Hie [Ht Hf] HQ. eapply wp_mono; [by apply extent_find_physical_spec|]. intros p s1 (Hv & Hc & Hp).
  specialize (Hf lb). unfold file_block in Hf. rewrite <-Hp in Hf. destruct p as [pb|]; cbn in Hf.
  2: { specialize (HQ s1 Hv Hc). by rewrite <-Hf in HQ. }
  assert (Hb1 : block_size s1 = block_size s) by (by rewrite Hv).
  wp_step. eapply wp_mono; [apply read_block_spec; [by rewrite Hb1|done|done]|]. intros r s2 (Hv2 & Hc2 & Hr). rewrite Hb1 in *.
  specialize (HQ s2 ltac:(by etrans) ltac:(by etrans)). rewrite <-Hf in HQ. destruct (disk_block _ pb) as [l|].
  - destruct Hr as [-> Hg]. by apply HQ.
  - by subst r.
Qed.

(** ** The loop *)
Lemma byte_of_at bs fb pos l k : 0 < bs → fb (pos / bs) = Some l → 0 ≤ k → pos mod bs + k < bs →
  byte_of bs fb (pos + k) = l !! Z.to_nat (pos mod bs + k).
Proof.
  intros Hb Hl Hk Hc. unfold byte_of. pose proof (Z.div_mod pos bs ltac:(lia)). pose proof (Z.mod_pos_bound pos bs ltac:(lia)).
  assert (Hq : (pos + k) / bs = pos / bs) by (symmetry; apply (Z.div_unique _ _ _ (pos mod bs + k)); lia).
  assert (Hr : (pos + k) mod bs = pos mod bs + k) by (symmetry; apply (Z.mod_unique _ _ (pos / bs)); lia).
  by rewrite Hq, Hr, Hl.
Qed.

(** After a copy of [chunk] bytes of the loaded block, the destination holds the bytes of the file. *)
Lemma copy_chunk bs fb pos l m m' dst chunk :
  0 < bs → bs ≤ 4096 → fb (pos / bs) = Some l → get_bytes m block_buf bs = l →
  0 ≤ chunk → pos mod bs + chunk ≤ bs → 0 ≤ dst → dst + chunk ≤ 4294967296 →
  dst ≤ block_buf + pos mod bs ∨ block_buf + pos mod bs + chunk ≤ dst →
  m' = memcpy m dst (block_buf + pos mod bs) chunk →
  ∀ k, 0 ≤ k < chunk → byte_of bs fb (pos + k) = Some (rd m' (dst + k)).
Proof.
  intros Hb Hb4 Hl Hg Hc Hpc Hd Hde Hov -> k Hk. pose proof (Z.mod_pos_bound pos bs ltac:(lia)).
  rewrite (byte_of_at _ _ _ l) by (done || lia). rewrite memcpy_rd by lia.
  replace ((dst <=? dst + k) && (dst + k <? dst + chunk)) with true by (symmetry; apply andb_true_intro; split; lia).
  rewrite <-Hg, get_bytes_lookup by lia. f_equal. f_equal. lia.
Qed.

Lemma read_loop_spec (fuel : nat) ino off dst remaining fb : ∀ got s,
  good_size (block_size s) → 0 ≤ ino → ino + 100 ≤ 4294967296 → holds (block_size s) (e_mem s) ino fb →
  0 ≤ got ≤ remaining → 0 ≤ off → off + remaining < 4294967296 → 0 ≤ dst → dst + remaining ≤ 4294967296 →
  apart (ino, 100) (block_buf, block_size s) → apart (ino, 100) (dst, remaining) → apart (dst, remaining) (block_buf, block_size s) →
  (got < remaining → remaining - got + (off + got) mod block_size s ≤ block_size s * fuel) →
  wp (read_loop fuel ino off dst remaining got) (λ r s',
    same_vars s s' ∧ touches [(block_buf, block_size s); (dst, remaining)] (e_mem s) (e_mem s') ∧ got ≤ r ≤ remaining ∧
    (∀ k, 0 ≤ k < got → rd (e_mem s') (dst + k) = rd (e_mem s) (dst + k)) ∧
    (∀ k, got ≤ k < r → byte_of (block_size s) fb (off + k) = Some (rd (e_mem s') (dst + k))) ∧
    (r = remaining ∨ byte_of (block_size s) fb (off + r) = None)) s.
Proof.
  induction fuel as [|fuel IH]; intros got s Hbs Hi Hie Hh Hdone Hoff Hor Hdst Hde Hap1 Hap2 Hap3 Hfuel;
    destruct (good_size_bounds _ Hbs) as [Hr _]; cbn [read_loop]; (destruct (Z.leb_spec remaining got); [wp_steps; split_and!; [done|done|lia|lia|done|lia|left; lia]|]).
  { pose proof (Z.mod_pos_bound (off + got) (block_size s)). lia. }
  unfold udiv, umod. do 2 wp_step. replace (block_size s =? 0) with false by lia. wp_steps.
  rewrite add32_small by lia. set (pos := off + got) in *. pose proof (Z.mod_pos_bound pos (block_size s) ltac:(lia)) as Hmod.
  rewrite !sub32_small by lia. set (chunk := if _ <? _ then _ else _).
  assert (Hchunk : 0 < chunk ∧ chunk ≤ remaining - got ∧ pos mod block_size s + chunk ≤ block_size s ∧
    (chunk = remaining - got ∨ pos mod block_size s + chunk = block_size s)) by (unfold chunk; zcases; lia). clearbody chunk.
  apply (find_load ino _ fb); [done..|]. intros s1 Hv Hc. assert (Hb1 : block_size s1 = block_size s) by (by rewrite Hv).
  destruct (fb (pos / block_size s)) as [l|] eqn:El.
  2: { wp_steps. split_and!; [done| |lia|lia| |lia|].
    - apply (changes_touches block_buf (block_size s) (block_buf, block_size s)); [done|by left|split; cbn; lia].
    - intros k Hk. apply Hc. unfold apart in Hap3. cbn in *. lia.
    - right. unfold byte_of. fold pos. by rewrite El. }
  intros Hg r ->. unfold upd. wp_steps. rewrite (add32_small got chunk), (add32_small dst), (add32_small block_buf) by lia.
  set (m2 := memcpy _ _ _ _).
  assert (Hov : dst + got ≤ block_buf + pos mod block_size s ∨ block_buf + pos mod block_size s + chunk ≤ dst + got)
    by (unfold apart in Hap3; cbn in *; lia).
  assert (Hm2 : changes (dst + got) chunk (e_mem s1) m2) by (apply memcpy_changes; lia).
  assert (Ht2 : touches [(block_buf, block_size s); (dst, remaining)] (e_mem s) m2).
  { etrans; [eapply changes_touches; [exact Hc|by left|split; cbn; lia]|].
    eapply changes_touches; [exact Hm2|right; by left|split; cbn; lia]. }
  assert (Hs2 : same_bytes 100 (e_mem s) ino m2 ino) by (eapply touches_same; [exact Ht2|each; done]).
  eapply wp_mono; [apply (IH _ (set_e_mem m2 s1)); cbn [block_size set_e_mem e_mem]; rewrite ?Hb1; try done; try lia; [by eapply holds_same|..]|].
  - intros Hlt. specialize (Hfuel ltac:(lia)). assert (Hfull : pos mod block_size s + chunk = block_size s) by lia.
    replace (block_size s * S fuel) with (block_size s * fuel + block_size s) in Hfuel by lia.
    replace ((off + (got + chunk)) mod block_size s) with 0; [lia|]. apply (Z.mod_unique _ _ (pos / block_size s + 1)); [lia|].
    pose proof (Z.div_mod pos (block_size s) ltac:(lia)). lia.
  - cbn [block_size set_e_mem e_mem]. rewrite Hb1. intros r s3 (Hv3 & Ht3 & Hr3 & Hold & Hnew & Hend). split_and!.
    + etrans; [exact Hv|]. etrans; [apply same_vars_set|exact Hv3].
    + by etrans.
    + lia.
    + lia.
    + intros k Hk. rewrite Hold by lia. rewrite (Hm2 (dst + k)) by lia. apply Hc. unfold apart in Hap3. cbn in *. lia.
    + intros k Hk. destruct (decide (k < got + chunk)); [|by apply Hnew; lia]. rewrite Hold by lia.
      replace (off + k) with (pos + (k - got)) by lia. replace (dst + k) with (dst + got + (k - got)) by lia.
      eapply (copy_chunk _ _ _ l (e_mem s1) _ _ chunk); try done; lia.
    + done.
Qed.

(** The file of an inode ends at its size. *)
Definition inode_size_of (m : mem) (ino : Z) : Z := load32 m (ino + 4).
Definition size_fits (m : mem) (ino : Z) : Prop := load32 m (ino + 108) = 0.

Lemma read_fuel_enough remaining bs : 0 ≤ remaining → 0 < bs → remaining + bs ≤ bs * read_fuel remaining bs.
Proof.
  intros Hr Hb. unfold read_fuel. pose proof (Z.div_mod remaining bs ltac:(lia)). pose proof (Z.mod_pos_bound remaining bs ltac:(lia)).
  pose proof (Z.div_pos remaining bs ltac:(lia) ltac:(lia)).
  replace (Z.of_nat (S (S (Z.to_nat (remaining / bs))))) with (remaining / bs + 2) by lia. lia.
Qed.

Lemma inode_read_data_spec ino off buf len fb s :
  good_size (block_size s) → 0 ≤ ino → ino + 116 ≤ 4294967296 → holds (block_size s) (e_mem s) ino fb →
  size_fits (e_mem s) ino → 0 ≤ off → 0 ≤ len < 2147483648 → off + len < 4294967296 → 0 ≤ buf → buf + len ≤ 4294967296 →
  apart (ino, 116) (block_buf, block_size s) → apart (ino, 116) (buf, len) → apart (buf, len) (block_buf, block_size s) →
  wp (inode_read_data ino off buf len) (λ r s',
    let want := Z.min len (Z.max 0 (inode_size_of (e_mem s) ino - off)) in
    same_vars s s' ∧ touches [(block_buf, block_size s); (buf, want)] (e_mem s) (e_mem s') ∧ 0 ≤ r ≤ want ∧
    (∀ k, 0 ≤ k < r → byte_of (block_size s) fb (off + k) = Some (rd (e_mem s') (buf + k))) ∧
    (r = want ∨ byte_of (block_size s) fb (off + r) = None)) s.
Proof.
  intros Hbs Hi Hie Hh Hsz Hoff Hlen Hol Hb Hbe Ha1 Ha2 Ha3. destruct (good_size_bounds _ Hbs) as [Hr _].
  unfold inode_read_data, mem_now. wp_steps. offsets. rewrite (add32_small ino 108), (add32_small ino 4) by lia.
  unfold size_fits in Hsz. rewrite Hsz. cbn [negb Z.eqb]. fold (inode_size_of (e_mem s) ino).
  pose proof (load32_range (e_mem s) (ino + 4)) as Hu. fold (inode_size_of (e_mem s) ino) in Hu. unfold is_u32 in Hu.
  set (size := inode_size_of (e_mem s) ino) in *. destruct (Z.leb_spec size off).
  { wp_steps. replace (Z.min len (Z.max 0 (size - off))) with 0 by lia. split_and!; [done|done|lia|lia|lia|by left]. }
  wp_steps. rewrite add32_small by lia. set (remaining := if _ <? _ then _ else _).
  assert (Hrem : remaining = Z.min len (Z.max 0 (size - off))) by (unfold remaining; rewrite ?sub32_small by lia; zcases; lia).
  rewrite <-Hrem. clearbody remaining. unfold apart in *. cbn [fst snd] in *.
  eapply wp_mono; [apply (read_loop_spec _ _ _ _ _ fb); try done; try lia; unfold apart; cbn [fst snd]; try lia|].
  { intros _. pose proof (read_fuel_enough remaining (block_size s)). pose proof (Z.mod_pos_bound (off + 0) (block_size s)). lia. }
  intros r s' (Hv & Ht & Hrr & _ & Hk & He). wp_steps. rewrite to_int_id by (unfold is_int; lia). done.
Qed.

(** The call of [scan_root_dir] reads a block of the directory into the buffer that
    blocks are read into. *)
Lemma inode_read_data_in_place ino off fb s :
  good_size (block_size s) → 0 ≤ ino → ino + 116 ≤ 4294967296 → holds (block_size s) (e_mem s) ino fb →
  size_fits (e_mem s) ino → 0 ≤ off → off + block_size s < 4294967296 → off mod block_size s = 0 → off < inode_size_of (e_mem s) ino →
  wp (inode_read_data ino off block_buf (block_size s)) (λ r s',
    same_vars s s' ∧ changes block_buf (block_size s) (e_mem s) (e_mem s') ∧
    match fb (off / block_size s) with
    | Some l => r = Z.min (block_size s) (inode_size_of (e_mem s) ino - off) ∧ get_bytes (e_mem s') block_buf r = take (Z.to_nat r) l
    | None => r = 0
    end) s.
Proof.
  intros Hbs Hi Hie Hh Hsz Hoff Hol Hal Hlt. destruct (good_size_bounds _ Hbs) as [Hr _].
  unfold inode_read_data, mem_now. wp_steps. offsets. rewrite (add32_small ino 108), (add32_small ino 4) by lia.
  unfold size_fits in Hsz. rewrite Hsz. cbn [negb Z.eqb]. fold (inode_size_of (e_mem s) ino).
  pose proof (load32_range (e_mem s) (ino + 4)) as Hu. fold (inode_size_of (e_mem s) ino) in Hu. unfold is_u32 in Hu.
  set (size := inode_size_of (e_mem s) ino) in *. replace (size <=? off) with false by lia.
  wp_steps. rewrite (add32_small off) by lia. set (remaining := if _ <? _ then _ else _).
  assert (Hrem : remaining = Z.min (block_size s) (size - off)) by (unfold remaining; rewrite ?sub32_small by lia; zcases; lia).
  rewrite <-Hrem. clearbody remaining. unfold read_fuel. cbn [read_loop]. replace (remaining <=? 0) with false by lia.
  unfold udiv, umod. do 2 wp_step. replace (block_size s =? 0) with false by lia. wp_steps. rewrite (add32_small off 0), Z.add_0_r by lia.
  rewrite Hal. rewrite !sub32_small by lia. rewrite !Z.sub_0_r.
  replace (if remaining <? block_size s then remaining else block_size s) with remaining by (zcases; lia).
  apply (find_load ino _ fb); [done|lia|lia|done|]. intros s1 Hv Hc. destruct (fb _) as [l|]; [|wp_steps; done].
  intros Hg r ->. unfold upd. wp_steps. rewrite (add32_small 0), (add32_small block_buf 0), !Z.add_0_r, Z.add_0_l by lia.
  replace (remaining <=? remaining) with true by lia. wp_steps. rewrite to_int_id by (unfold is_int; lia). cbn [e_mem set_e_mem].
  assert (Hself : ∀ x, rd (memcpy (e_mem s1) block_buf block_buf remaining) x = rd (e_mem s1) x).
  { intros x. rewrite memcpy_rd by lia. zcases; try done; f_equal; lia. }
  split; [by etrans; [exact Hv|apply same_vars_set]|]. split; [intros x Hx; rewrite Hself; by apply Hc|]. split; [done|].
  rewrite <-Hg. replace (block_size s) with (remaining + (block_size s - remaining)) by lia. rewrite get_bytes_app by lia.
  rewrite take_app_le by (rewrite length_get_bytes; lia). rewrite take_ge by (rewrite length_get_bytes; lia).
  apply get_bytes_ext. intros k _. apply Hself.
Qed.
End read.
