(* ===== verification/Ext4Inode.v ===== *)
(** * Inodes of an ext4 disk

    Where the disk keeps an inode, and that [read_inode] fetches it. *)

From S2P Require Import Prelude KString Bytes Ext4 Ext4Spec Ext4Read.

(** ** Places *)

(** The objects of the file and of the frames that are live during a mount, with their sizes. *)
Definition places {EP : Ext4Places} : list (Z * Z) :=
  [(sb, 352); (block_buf, 4096); (block_buf2, 4096); (inode_buf, 4096); (root_files, 4352);
   (gd, 44); (sbraw, 1024); (root_ino, 116); (name_buf, 64)].
Class PlacesOk {EP : Ext4Places} := {
  places_range : ∀ (i : nat) r, places !! i = Some r → 0 ≤ r.1 ∧ r.1 + r.2 ≤ 4294967296;
  places_apart : ∀ (i j : nat) r r', places !! i = Some r → places !! j = Some r' → i ≠ j → apart r r';
  file_ino_range : 0 ≤ file_ino ∧ file_ino + 116 ≤ 4294967296;
  file_ino_apart : Forall (apart (file_ino, 116)) (take 6 places);
}.

(** The range of place [i], and that places [i] and [j] do not overlap. *)
Ltac range i := let H := fresh in pose proof (places_range i _ eq_refl) as H; cbn [fst snd] in H.
Ltac disj i j := let H := fresh in pose proof (places_apart i j _ _ eq_refl eq_refl ltac:(discriminate)) as H; unfold apart in H; cbn [fst snd] in H.

(** ** Copies of bytes *)
Lemma get_bytes_memcpy m d s n : 0 ≤ d → 0 ≤ s → 0 ≤ n → d + n ≤ 4294967296 → s + n ≤ 4294967296 → d ≤ s ∨ s + n ≤ d →
  get_bytes (memcpy m d s n) d n = get_bytes m s n.
Proof. intros. apply get_bytes_ext. intros k Hk. rewrite memcpy_rd by lia. zcases; try lia. f_equal. lia. Qed.

Lemma get_bytes_sub m a k o n : 0 ≤ o → 0 ≤ n → o + n ≤ k → get_bytes m (a + o) n = take (Z.to_nat n) (drop (Z.to_nat o) (get_bytes m a k)).
Proof.
  intros Ho Hn Hk. apply list_eq_same_length with (n := Z.to_nat n); [rewrite length_take, length_drop, length_get_bytes; lia|by rewrite length_get_bytes|].
  intros i x y Hi. rewrite get_bytes_lookup by lia. rewrite lookup_take_lt, lookup_drop, get_bytes_lookup by lia. intros [= <-] [= <-].
  f_equal. lia.
Qed.

Lemma get_bytes_take m a k n : 0 ≤ n ≤ k → get_bytes m a n = take (Z.to_nat n) (get_bytes m a k).
Proof. intros Hn. rewrite <-(Z.add_0_r a) at 1. rewrite (get_bytes_sub m a k) by lia. by rewrite drop_0. Qed.

Lemma get_bytes_touches rs m m' a n : touches rs m m' → Forall (apart (a, n)) rs → get_bytes m' a n = get_bytes m a n.
Proof. intros H Ha. apply get_bytes_ext. intros k Hk. symmetry. by eapply touches_same. Qed.

Lemma same_vars_upd s s' m : same_vars s s' → same_vars s (set_e_mem m s').
Proof. intros Hv. etrans; [exact Hv|apply same_vars_set]. Qed.

Section inode.
Context {DK : Disk} {DOK : DiskOk} {EP : Ext4Places} {POK : PlacesOk}.

(** ** Group descriptors *)

Definition desc_block (bs ds g : Z) : Z := add32 (if bs =? 1024 then 2 else 1) (g / (bs / ds)).
Definition desc_off (bs ds g : Z) : Z := (g mod (bs / ds)) * ds.
(** The sizes and the number of inodes of a group; the 44 bytes the code copies lie in the block. *)
Definition desc_ok (bs ds g : Z) : Prop := 0 ≤ g ∧ 0 < ds ≤ bs ∧ desc_off bs ds g + 44 ≤ bs.

Lemma read_block_at b buf s : good_size (block_size s) → (0 ≤ buf ∧ buf + 4096 ≤ 4294967296) →
  wp (read_block b buf) (λ r s', same_vars s s' ∧ changes buf 4096 (e_mem s) (e_mem s') ∧
    match disk_block (block_size s) b with
    | Some l => r = 0 ∧ get_bytes (e_mem s') buf (block_size s) = l
    | None => r = -1
    end) s.
Proof.
  intros Hbs [Hb He]. eapply wp_mono; [by apply read_block_spec|]. intros r s' (Hv & Hc & Hr). split_and!; [done| |done].
  destruct (good_size_bounds _ Hbs). eapply changes_mono; [..|exact Hc]; lia.
Qed.

Lemma load_group_desc_spec g s : good_size (block_size s) → desc_ok (block_size s) (desc_size s) g →
  wp (load_group_desc g gd) (λ r s', same_vars s s' ∧ touches [(block_buf, 4096); (gd, 44)] (e_mem s) (e_mem s') ∧
    match disk_block (block_size s) (desc_block (block_size s) (desc_size s) g) with
    | Some l => r = 0 ∧ get_bytes (e_mem s') gd 44 = take 44 (drop (Z.to_nat (desc_off (block_size s) (desc_size s) g)) l)
    | None => r = -1
    end) s.
Proof.
  intros Hbs (Hg & Hds & Hfit). destruct (good_size_bounds _ Hbs) as [Hr _]. range 1%nat. range 5%nat. disj 1%nat 5%nat.
  assert (Hq : 0 < block_size s / desc_size s) by (apply Z.div_str_pos; lia).
  pose proof (Z.mod_pos_bound g (block_size s / desc_size s) ltac:(lia)) as Hm. unfold desc_off in *.
  unfold load_group_desc, udiv, umod. do 2 wp_step. replace (desc_size s =? 0) with false by lia. wp_steps.
  replace (block_size s / desc_size s =? 0) with false by lia. wp_steps. eapply wp_mono; [by apply read_block_at|].
  intros r s1 (Hv & Hc & Hl). fold (desc_block (block_size s) (desc_size s) g) in Hl.
  assert (Ht : touches [(block_buf, 4096); (gd, 44)] (e_mem s) (e_mem s1)) by (eapply changes_touches; [exact Hc|by left|split; cbn; lia]).
  destruct (disk_block _ _) as [l|]; [|subst r; cbn; wp_steps; done]. destruct Hl as [-> Hl]. cbn [Z.ltb Z.compare]. unfold upd. wp_steps.
  cbn [e_mem set_e_mem]. offsets. rewrite mul32_small, (add32_small block_buf) by nia. split_and!; [by etrans; [exact Hv|apply same_vars_set]| |done|].
  - etrans; [exact Ht|]. eapply changes_touches; [apply (memcpy_changes _ _ _ 44 44); nia|right; by left|split; cbn; lia].
  - rewrite get_bytes_memcpy by nia. rewrite (get_bytes_sub _ _ (block_size s)) by nia. by rewrite Hl.
Qed.

(** ** Inodes *)

(** The first 116 bytes of inode [inum], from the disk. *)
Definition disk_inode (bs isz ds ipg inum : Z) : option (list Z) :=
  if inum =? 0 then None
  else
    let g := (inum - 1) / ipg in
    l ← disk_block bs (desc_block bs ds g);
    let d := put_bytes ∅ 0 (take 44 (drop (Z.to_nat (desc_off bs ds g)) l)) in
    if negb (load32 d 40 =? 0) then None
    else
      let off := (inum - 1) mod ipg * isz in
      let b := add32 (load32 d 8) (off / bs) in
      let o := Z.to_nat (off mod bs) in
      l1 ← disk_block bs b;
      if off mod bs + isz <=? bs then Some (take 116 (drop o l1))
      else l2 ← disk_block bs (add32 b 1); Some (take 116 (drop o l1 ++ l2)).

(** The number of inodes of a group, in the copy of the superblock. *)
Definition per_group (m : mem) : Z := load32 m (sb + 40).
(** Sizes that fit the buffers. *)
Definition sizes_ok (s : ext4_state) : Prop :=
  good_size (block_size s) ∧ 116 ≤ inode_size s ≤ block_size s ∧ 0 < desc_size s ≤ block_size s ∧
  0 < per_group (e_mem s) ∧ per_group (e_mem s) * inode_size s < 4294967296.

Lemma length_disk_inode bs isz ds ipg inum l : good_size bs → 116 ≤ isz → 0 < ipg →
  disk_inode bs isz ds ipg inum = Some l → length l = 116%nat.
Proof.
  intros Hbs Hi Hp. destruct (good_size_bounds _ Hbs) as [Hr _]. unfold disk_inode. destruct (_ =? 0); [done|].
  destruct (disk_block bs (desc_block _ _ _)); cbn [mbind option_bind]; [|done]. destruct (negb _); [done|].
  destruct (disk_block bs (add32 _ (_ / bs))) as [l1|] eqn:E1; cbn [mbind option_bind]; [|done]. apply (disk_block_length bs) in E1 as [Hl1 _]; [|done].
  pose proof (Z.mod_pos_bound ((inum - 1) mod ipg * isz) bs ltac:(lia)). destruct (Z.leb_spec ((inum - 1) mod ipg * isz mod bs + isz) bs).
  - intros [= <-]. rewrite length_take, length_drop. lia.
  - destruct (disk_block bs (add32 _ 1)) as [l2|] eqn:E2; cbn [mbind option_bind]; [|done]. apply (disk_block_length bs) in E2 as [Hl2 _]; [|done].
    intros [= <-]. rewrite length_take, length_app, length_drop. lia.
Qed.

(** What [read_inode] may write apart from its result. *)
Definition scratch : list (Z * Z) := [(block_buf, 4096); (block_buf2, 4096); (inode_buf, 4096); (gd, 44)].

Lemma same_vars_sizes s s' : same_vars s s' → block_size s' = block_size s ∧ inode_size s' = inode_size s ∧ desc_size s' = desc_size s ∧
  mounted s' = mounted s ∧ root_file_count s' = root_file_count s.
Proof. intros ->. done. Qed.

Lemma touches_region r rs m m' : changes r.1 r.2 m m' → r ∈ rs → touches rs m m'.
Proof. intros H Hr. eapply changes_touches; [exact H|exact Hr|split; cbn; lia]. Qed.

Lemma touches_memcpy r rs m dst src n : r ∈ rs → within (dst, n) r → 0 ≤ dst → 0 ≤ src → 0 ≤ n → dst + n ≤ 4294967296 → src + n ≤ 4294967296 →
  dst ≤ src ∨ src + n ≤ dst → touches rs m (memcpy m dst src n).
Proof. intros Hr Hw ??????. eapply changes_touches; [apply (memcpy_changes _ _ _ n n); lia|exact Hr|done]. Qed.

(** The two copies that take the inode from the block buffers to [out]. *)
Lemma copy_inode_one m out bs isz o l1 :
  get_bytes m block_buf bs = l1 → 116 ≤ isz ≤ 4096 → 0 ≤ o → o + isz ≤ bs → bs ≤ 4096 → 0 ≤ out → out + 116 ≤ 4294967296 → apart (out, 116) (inode_buf, 4096) →
  let m' := memcpy (memcpy m inode_buf (block_buf + o) isz) out inode_buf 116 in
  get_bytes m' out 116 = take 116 (drop (Z.to_nat o) l1) ∧ touches ((out, 116) :: scratch) m m'.
Proof.
  intros Hg Hi Ho Hoi Hb Hout Hoe Ha m'. range 1%nat. range 3%nat. disj 1%nat 3%nat. unfold apart in Ha. cbn [fst snd] in Ha. split.
  - unfold m'. rewrite get_bytes_memcpy by lia. rewrite (get_bytes_take _ _ isz) by lia. rewrite get_bytes_memcpy by lia.
    rewrite (get_bytes_sub _ _ bs), Hg by lia. rewrite take_take. f_equal. lia.
  - transitivity (memcpy m inode_buf (block_buf + o) isz); [apply (touches_memcpy (inode_buf, 4096)); [by do 3 right; left|split; cbn; lia|lia..]|].
    apply (touches_memcpy (out, 116)); [by left|split; cbn; lia|lia..].
Qed.

Lemma copy_inode_two m1 m2 out bs isz o l1 l2 first :
  let mi := memcpy m1 inode_buf (block_buf + o) first in
  get_bytes m1 block_buf bs = l1 → changes block_buf2 4096 mi m2 → get_bytes m2 block_buf2 bs = l2 →
  116 ≤ isz ≤ bs → 0 ≤ o < bs → first = bs - o → bs < o + isz → 1024 ≤ bs ≤ 4096 → 0 ≤ out → out + 116 ≤ 4294967296 → apart (out, 116) (inode_buf, 4096) →
  let m' := memcpy (memcpy m2 (inode_buf + first) block_buf2 (isz - first)) out inode_buf 116 in
  get_bytes m' out 116 = take 116 (drop (Z.to_nat o) l1 ++ l2) ∧ touches ((out, 116) :: scratch) m2 m' ∧ touches scratch m1 mi.
Proof.
  intros mi Hg Hc Hg2 Hi Ho Hf Hoi Hb Hout Hoe Ha m'. range 1%nat. range 2%nat. range 3%nat. disj 1%nat 3%nat. disj 2%nat 3%nat. unfold apart in Ha. cbn [fst snd] in Ha. split_and!.
  - unfold m'. rewrite get_bytes_memcpy by lia. rewrite (get_bytes_take _ _ isz) by lia. replace isz with (first + (isz - first)) at 2 by lia.
    rewrite get_bytes_app by lia. rewrite (get_bytes_memcpy m2 (inode_buf + first)) by lia.
    rewrite (get_bytes_changes m2 _ (inode_buf + first) (isz - first)) by (first [apply memcpy_changes; lia|lia]).
    rewrite (get_bytes_changes _ _ _ _ _ _ Hc) by lia. unfold mi. rewrite get_bytes_memcpy by lia. rewrite (get_bytes_sub _ _ bs), Hg by lia.
    rewrite (get_bytes_take _ _ bs), Hg2 by lia. rewrite take_ge with (n := Z.to_nat first) by (rewrite length_drop, <-Hg, length_get_bytes; lia).
    rewrite !take_app. rewrite take_take. f_equal. f_equal. rewrite length_drop, <-Hg, length_get_bytes. lia.
  - transitivity (memcpy m2 (inode_buf + first) block_buf2 (isz - first)); [apply (touches_memcpy (inode_buf, 4096)); [by do 3 right; left|split; cbn; lia|lia..]|].
    apply (touches_memcpy (out, 116)); [by left|split; cbn; lia|lia..].
  - apply (touches_memcpy (inode_buf, 4096)); [by do 2 right; left|split; cbn; lia|lia..].
Qed.

(** A field of the copied group descriptor. *)
Lemma gd_field m l k : get_bytes m gd 44 = l → 0 ≤ k → k + 4 ≤ 44 → load32 m (gd + k) = load32 (put_bytes ∅ 0 l) k.
Proof. intros Hg Hk Hk4. apply get_bytes_same in Hg. by rewrite (load32_same _ _ _ _ _ _ Hg) by lia. Qed.

Lemma read_table_entry_spec b o out s :
  good_size (block_size s) → 116 ≤ inode_size s ≤ block_size s → 0 ≤ o < block_size s → 0 ≤ out → out + 116 ≤ 4294967296 →
  apart (out, 116) (inode_buf, 4096) →
  wp (read_table_entry b o out) (λ r s', same_vars s s' ∧ touches ((out, 116) :: scratch) (e_mem s) (e_mem s') ∧
    match (l1 ← disk_block (block_size s) b;
           if o + inode_size s <=? block_size s then Some (take 116 (drop (Z.to_nat o) l1))
           else l2 ← disk_block (block_size s) (add32 b 1); Some (take 116 (drop (Z.to_nat o) l1 ++ l2))) with
    | Some l => r = 0 ∧ get_bytes (e_mem s') out 116 = l
    | None => r = -1
    end) s.
Proof.
  intros Hbs Hi Ho Hout Hoe Ha. destruct (good_size_bounds _ Hbs) as [Hr _]. range 1%nat. range 2%nat. range 3%nat.
  unfold read_table_entry. do 3 wp_step. eapply wp_mono; [by apply read_block_at|]. intros r1 s1 (Hv1 & Hc1 & Hl1).
  assert (Ht1 : touches scratch (e_mem s) (e_mem s1)) by (apply (touches_region (block_buf, 4096)); [done|by left]).
  assert (Hsub : ∀ m m', touches scratch m m' → touches ((out, 116) :: scratch) m m') by (intros m m' Ht x Hx; apply Ht; by inversion Hx).
  destruct (disk_block _ b) as [l1|]; cbn [mbind option_bind]; [|subst r1; cbn; wp_steps; by auto].
  destruct Hl1 as [-> Hg1]. cbn [Z.ltb Z.compare]. offsets. rewrite (add32_small o), (add32_small block_buf o) by lia. unfold upd.
  destruct (Z.leb_spec (o + inode_size s) (block_size s)).
  { wp_steps. cbn [e_mem set_e_mem]. destruct (copy_inode_one (e_mem s1) out (block_size s) (inode_size s) o l1) as [HA HB]; [done|lia..|done|].
    split_and!; [by repeat apply same_vars_upd|etrans; [by apply Hsub|done]|done|done]. }
  rewrite !sub32_small by lia. rewrite (add32_small inode_buf) by lia. wp_steps.
  assert (Hb1 : block_size s1 = block_size s) by (by rewrite Hv1).
  eapply wp_mono; [by apply read_block_at; cbn [block_size set_e_mem]; rewrite ?Hb1|]. cbn [e_mem set_e_mem block_size]. rewrite Hb1.
  intros r2 s2 (Hv2 & Hc2 & Hl2). set (mi := memcpy (e_mem s1) inode_buf _ _) in *.
  assert (Hti : touches scratch (e_mem s) mi).
  { etrans; [exact Ht1|]. disj 1%nat 3%nat. apply (touches_memcpy (inode_buf, 4096)); [by do 2 right; left|split; cbn; lia|lia..]. }
  assert (Ht2 : touches scratch (e_mem s) (e_mem s2)) by (etrans; [exact Hti|apply (touches_region (block_buf2, 4096)); [done|right; by left]]).
  assert (Hv : same_vars s s2) by (etrans; [exact Hv1|etrans; [apply same_vars_set|exact Hv2]]).
  destruct (disk_block _ (add32 b 1)) as [l2|]; cbn [mbind option_bind]; [|subst r2; cbn; wp_steps; by auto].
  destruct Hl2 as [-> Hg2]. cbn [Z.ltb Z.compare]. wp_steps. cbn [e_mem set_e_mem].
  destruct (copy_inode_two (e_mem s1) (e_mem s2) out (block_size s) (inode_size s) o l1 l2 (block_size s - o)) as (HA & HB & _); [done|done|done|lia..|done|].
  split_and!; [by repeat apply same_vars_upd|etrans; [by apply Hsub|done]|done|done].
Qed.

Lemma read_inode_spec inum out s :
  sizes_ok s → is_u32 inum → desc_ok (block_size s) (desc_size s) ((inum - 1) / per_group (e_mem s)) ∨ inum = 0 →
  0 ≤ out → out + 116 ≤ 4294967296 → apart (out, 116) (inode_buf, 4096) →
  wp (read_inode inum out) (λ r s', same_vars s s' ∧ touches ((out, 116) :: scratch) (e_mem s) (e_mem s') ∧
    match disk_inode (block_size s) (inode_size s) (desc_size s) (per_group (e_mem s)) inum with
    | Some l => r = 0 ∧ get_bytes (e_mem s') out 116 = l
    | None => r = -1
    end) s.
Proof.
  intros (Hbs & Hi & Hds & Hpg & Hmul) Hu Hd Hout Hoe Ha. destruct (good_size_bounds _ Hbs) as [Hr _]. unfold is_u32 in Hu.
  unfold read_inode, disk_inode. destruct (inum =? 0) eqn:E0; [wp_steps; done|]. destruct Hd as [Hd|?]; [|lia].
  unfold mem_now, udiv, umod. wp_steps. offsets. range 0%nat. range 1%nat. range 5%nat. rewrite (add32_small sb 40) by lia. fold (per_group (e_mem s)).
  set (pg := per_group (e_mem s)) in *. replace (pg =? 0) with false by lia. wp_steps. rewrite (sub32_small inum) by lia.
  pose proof (Z.mod_pos_bound (inum - 1) pg ltac:(lia)) as Hm.
  eapply wp_mono; [by apply load_group_desc_spec|]. intros r1 s1 (Hv1 & Ht1 & Hl1).
  assert (Ht1' : touches ((out, 116) :: scratch) (e_mem s) (e_mem s1)).
  { eapply touches_mono; [exact Ht1|]. each; [right; left|do 4 right; left]; (split; cbn; lia). }
  destruct (disk_block _ (desc_block _ _ _)) as [l|]; cbn [mbind option_bind]; [|subst r1; cbn; wp_steps; done].
  destruct Hl1 as [-> Hg]. cbn [Z.ltb Z.compare]. wp_steps. rewrite (add32_small gd 40), (add32_small gd 8) by lia.
  rewrite !(gd_field _ _ _ Hg) by lia. destruct (negb _); [wp_steps; done|].
  destruct (same_vars_sizes _ _ Hv1) as (Hb & Hin & _). wp_steps. rewrite Hb, Hin.
  replace (block_size s =? 0) with false by lia. rewrite mul32_small by nia. wp_steps.
  pose proof (Z.mod_pos_bound ((inum - 1) mod pg * inode_size s) (block_size s) ltac:(lia)) as Ho.
  eapply wp_mono; [apply read_table_entry_spec; rewrite ?Hb, ?Hin; done|]. rewrite Hb, Hin. intros r s' (Hv & Ht & Hres).
  split_and!; [by etrans|by etrans|done].
Qed.
End inode.
