(* ===== verification/Ext4Dir.v ===== *)
(** * The root directory of an ext4 disk

    Which entries a block of a directory holds, the table that a mount makes of
    them, and that [scan_root_dir] fills the table. *)

From S2P Require Import Prelude KString Bytes Ext4 Ext4Spec Ext4Read Ext4Inode.

(** ** Directory entries *)

Abbreviation dir_entry := (list Z * Z)%type.
(** [.] and [..], as strings of C. *)
Definition dot_name (name : list Z) : bool :=
  match name ++ [0] with
  | 46 :: 0 :: _ => true
  | 46 :: 46 :: 0 :: _ => true
  | _ => false
  end.
(** What is kept of an entry with these fields. *)
Definition keep (ino : Z) (name : list Z) : list dir_entry :=
  if negb (ino =? 0) && (0 <? length name) && (length name <? 64) && negb (dot_name name) then [(name, ino)] else [].
Definition name_at (m : mem) (a : Z) : list Z := get_bytes m (a + 8) (rd m (a + 6)).

(** The entries of the [n] bytes at address 0 of [d], from [p] on. *)
Fixpoint parse (fuel : nat) (d : mem) (n p : Z) : list dir_entry :=
  match fuel with
  | O => []
  | S fuel' =>
      if (p + 8 <=? n) && negb (load16 d (p + 4) =? 0)
      then keep (load32 d p) (name_at d p) ++ parse fuel' d n (p + load16 d (p + 4))
      else []
  end.
Definition dir_entries (d : mem) (n : Z) : list dir_entry := parse (S (Z.to_nat n)) d n 0.
(** All names lie in the [n] bytes. *)
Fixpoint parse_fits (fuel : nat) (d : mem) (n p : Z) : bool :=
  match fuel with
  | O => true
  | S fuel' =>
      if (p + 8 <=? n) && negb (load16 d (p + 4) =? 0)
      then (p + 8 + rd d (p + 6) <=? n) && parse_fits fuel' d n (p + load16 d (p + 4))
      else true
  end.
Definition dir_fits (d : mem) (n : Z) : bool := parse_fits (S (Z.to_nat n)) d n 0.

Lemma keep_cases ino name : keep ino name = [] ∨
  keep ino name = [(name, ino)] ∧ 0 < length name < 64 ∧ ino ≠ 0 ∧ dot_name name = false.
Proof. unfold keep. destruct (_ && _) eqn:E; [right|by left]. destruct (dot_name name); [lia|]. split_and!; [done|lia..|done]. Qed.

(** ** Copies whose source may be anywhere *)
Lemma memcpy_frame m dst src n : 0 ≤ dst → 0 ≤ n → dst + n ≤ 4294967296 → changes dst n m (memcpy m dst src n).
Proof.
  intros Hd Hn He x Hx. unfold memcpy. rewrite <-(Z2Nat.id n) in He, Hx by done. revert dst src m Hd He Hx.
  induction (Z.to_nat n) as [|k IH]; intros dst src m Hd He Hx; cbn; [done|]. destruct (decide (k = 0%nat)) as [->|].
  - cbn. apply rd_wr_ne. lia.
  - rewrite add32_small by lia. rewrite IH by lia. apply rd_wr_ne. lia.
Qed.

(** A string with its NUL in memory. *)
Definition str_in (m : mem) (a : Z) (name : list Z) : Prop := get_bytes m a (length name + 1) = name ++ [0].

Lemma str_in_rd m a (name : list Z) (k : nat) (c : Z) : str_in m a name → (name ++ [0]) !! k = Some c → rd m (a + k) = c.
Proof.
  intros Hs Hc. assert (Hk : (k < length (name ++ [0%Z]))%nat) by (by eapply lookup_lt_Some). rewrite length_app in Hk. cbn in Hk.
  unfold str_in in Hs. rewrite <-Hs, get_bytes_lookup in Hc by lia. congruence.
Qed.

Lemma str_in_changes m m' a n b name : changes a n m m' → b + (length name + 1) ≤ a ∨ a + n ≤ b → str_in m b name → str_in m' b name.
Proof. intros Hc Hd Hs. unfold str_in. by rewrite (get_bytes_changes _ _ _ _ _ _ Hc). Qed.

Lemma is_dot_name {EP : Ext4Places} m name : 0 ≤ name_buf → name_buf + 64 ≤ 4294967296 → str_in m name_buf name → 0 < length name < 64 → is_dot m = dot_name name.
Proof.
  intros Hn He Hs Hl. unfold is_dot, dot_name. rewrite !add32_small by lia.
  pose proof (str_in_rd m name_buf name 0) as H0. pose proof (str_in_rd m name_buf name 1) as H1. pose proof (str_in_rd m name_buf name 2) as H2.
  change (Z.of_nat 0) with 0 in H0. change (Z.of_nat 1) with 1 in H1. change (Z.of_nat 2) with 2 in H2. rewrite Z.add_0_r in H0.
  destruct name as [|c0 name]; cbn in Hl; [lia|]. cbn [app lookup list_lookup] in *. rewrite (H0 _ Hs eq_refl).
  destruct name as [|c1 name]; cbn [app lookup list_lookup] in *; rewrite (H1 _ Hs eq_refl).
  - destruct (Z.eqb_spec c0 46) as [->|]; [done|]. cbn. by repeat (case_match; try done).
  - destruct (Z.eqb_spec c0 46) as [->|]; [|by repeat (case_match; try done)]. cbn [andb].
    destruct (Z.eqb_spec c1 0) as [->|]; [done|]. cbn [orb]. destruct (Z.eqb_spec c1 46) as [->|]; [|by repeat (case_match; try done)].
    destruct name as [|c2 name]; cbn [app lookup list_lookup] in *; rewrite (H2 _ Hs eq_refl); [done|].
    destruct (Z.eqb_spec c2 0) as [->|]; [done|]. by repeat (case_match; try done).
Qed.

Section dir.
Context {DK : Disk} {DOK : DiskOk} {EP : Ext4Places} {POK : PlacesOk}.

(** ** The table *)

Definition slot (i : Z) : Z := root_files + 68 * i.
Definition entry_in (m : mem) (i : Z) (e : dir_entry) : Prop :=
  0 < length e.1 < 64 ∧ str_in m (slot i) e.1 ∧ load32 m (slot i + 64) = e.2.
Definition table (m : mem) (l : list dir_entry) : Prop := ∀ (i : nat) e, l !! i = Some e → entry_in m i e.

Lemma slot_range i : 0 ≤ i < 64 → 0 ≤ slot i ∧ slot i + 68 ≤ root_files + 4352 ∧ slot i + 68 ≤ 4294967296 ∧ entry_at i = slot i.
Proof.
  intros Hi. range 4%nat. unfold slot, entry_at. offsets. rewrite mul32_small, add32_small by lia. lia.
Qed.

Lemma entry_in_frame m m' i e rs : touches rs m m' → Forall (apart (slot i, 68)) rs → entry_in m i e → entry_in m' i e.
Proof.
  intros Ht Ha (Hl & Hs & Hi). pose proof (touches_same _ _ _ _ _ Ht Ha) as Hsame. split; [done|]. split.
  - unfold str_in in *. rewrite <-Hs. apply get_bytes_ext. intros k Hk. symmetry. apply Hsame. lia.
  - rewrite <-Hi. symmetry. apply (load32_same _ _ _ _ _ 64 Hsame); lia.
Qed.

Lemma table_frame m m' l rs : (length l ≤ 64)%nat → touches rs m m' → Forall (apart (root_files, 4352)) rs → table m l → table m' l.
Proof.
  intros Hl Ht Ha H i e He. apply lookup_lt_Some in He as Hi. eapply entry_in_frame; [exact Ht| |by apply H].
  eapply Forall_impl; [exact Ha|]. intros r. unfold apart, slot. cbn. lia.
Qed.

(** All variables but the memory and the number of files stay. *)
Definition same_sizes (s s' : ext4_state) : Prop := s' = set_root_file_count (root_file_count s') (set_e_mem (e_mem s') s).
#[export] Instance same_sizes_po : PreOrder same_sizes.
Proof. split; [by intros []|]. intros s1 s2 s3 H1 H2. unfold same_sizes in *. etrans; [exact H2|]. by rewrite H1 at 1. Qed.
Lemma same_vars_same_sizes s s' : same_vars s s' → same_sizes s s'.
Proof. intros Hv. unfold same_sizes. rewrite Hv. by destruct s. Qed.
Lemma same_sizes_eq s s' : same_sizes s s' → block_size s' = block_size s ∧ inode_size s' = inode_size s ∧ desc_size s' = desc_size s ∧ mounted s' = mounted s.
Proof. intros ->. done. Qed.

(** Writing entry [i] keeps the entries before it. *)
Lemma add_entry m l name ino : str_in m name_buf name → table m l → (length l < 64)%nat → 0 < length name < 64 → is_u32 ino →
  let m' := store32 (memcpy m (slot (length l)) name_buf (length name + 1)) (slot (length l) + 64) ino in
  table m' (l ++ [(name, ino)]) ∧ touches [(root_files, 4352)] m m'.
Proof.
  intros Hs Ht Hl Hn Hi m'. destruct (slot_range (length l)) as (Hs0 & Hs1 & Hs2 & _); [lia|]. range 8%nat. disj 4%nat 8%nat.
  set (a := slot (length l)) in *. set (m1 := memcpy m a name_buf (length name + 1)) in *.
  assert (Hlow : root_files ≤ a) by (unfold a, slot; lia).
  assert (Hc1 : changes a (length name + 1) m m1) by (apply memcpy_changes; lia).
  assert (Hc2 : changes (a + 64) 4 m1 m') by (intros x Hx; unfold m'; rewrite rd_store32; zcases; done).
  assert (Hc : changes a 68 m m') by (etrans; [eapply changes_mono; [..|exact Hc1]; lia|eapply changes_mono; [..|exact Hc2]; lia]).
  split; [|eapply changes_touches; [exact Hc|by left|split; cbn; lia]].
  intros i e [[Hil He]|[-> <-]]%lookup_snoc_Some.
  - eapply (entry_in_frame m m' i e [(a, 68)]); [|each; unfold apart, a, slot; cbn; lia|by apply Ht].
    eapply changes_touches; [exact Hc|by left|split; cbn; lia].
  - split; [done|]. fold a. cbn [fst snd]. split; [|by apply load32_store32_eq].
    apply (str_in_changes m1 m' (a + 64) 4); [done|lia|]. unfold str_in, m1. rewrite get_bytes_memcpy by lia. exact Hs.
Qed.

(** The name is copied to [name] of [scan_root_dir]. *)
Lemma copy_name m src nl : 0 < nl < 64 →
  let m1 := memcpy m name_buf src nl in let m2 := store8 m1 (name_buf + nl) 0 in
  let name := get_bytes m1 name_buf nl in
  str_in m2 name_buf name ∧ touches [(name_buf, 64)] m m2 ∧ Z.of_nat (length name) = nl ∧
  (0 ≤ src → src + nl ≤ 4294967296 → src + nl ≤ name_buf ∨ name_buf + 64 ≤ src → name = get_bytes m src nl).
Proof.
  intros Hnl m1 m2 name. range 8%nat. assert (Hlen : Z.of_nat (length name) = nl) by (unfold name; rewrite length_get_bytes; lia).
  assert (Hc1 : changes name_buf nl m m1) by (apply memcpy_frame; lia).
  assert (Hw : m2 = wr m1 (name_buf + nl) 0) by (unfold m2, store8; by rewrite wrap32_small by (unfold is_u32; lia)).
  assert (Hc2 : changes (name_buf + nl) 1 m1 m2) by (intros x Hx; rewrite Hw; apply rd_wr_ne; lia).
  split_and!; [| |done|].
  - unfold str_in. rewrite get_bytes_app, Hlen by lia. f_equal.
    + by rewrite (get_bytes_changes _ _ _ _ _ _ Hc2) by lia.
    + unfold get_bytes. rewrite seqZ_cons by lia. cbn [fmap list_fmap]. by rewrite Hw, rd_wr_eq.
  - etrans; (eapply changes_touches; [eassumption|by left|split; cbn; lia]).
  - intros Hs He Hd. unfold name, m1. rewrite get_bytes_memcpy by lia. done.
Qed.

Lemma take_entry_spec p n d l s :
  0 ≤ p → p + 8 ≤ n → n ≤ 4096 → same_bytes n (e_mem s) block_buf d 0 → table (e_mem s) l →
  root_file_count s = length l → (length l < 64)%nat →
  wp (take_entry p) (λ full s', same_sizes s s' ∧ touches [(name_buf, 64); (root_files, 4352)] (e_mem s) (e_mem s') ∧
    ∃ l', table (e_mem s') (l ++ l') ∧ root_file_count s' = length (l ++ l') ∧ (length (l ++ l') ≤ 64)%nat ∧
      full = (64 <=? length (l ++ l')) ∧ (p + 8 + rd d (p + 6) ≤ n → l' = keep (load32 d p) (name_at d p))) s.
Proof.
  intros Hp Hpn Hn Hd Ht Hcnt Hl. range 1%nat. range 8%nat. disj 1%nat 8%nat. disj 1%nat 4%nat. disj 4%nat 8%nat.
  assert (Hskip : (p + 8 + rd d (p + 6) ≤ n → keep (load32 d p) (name_at d p) = []) →
    ∀ s', same_sizes s s' → root_file_count s' = root_file_count s → touches [(name_buf, 64); (root_files, 4352)] (e_mem s) (e_mem s') → table (e_mem s') l →
    same_sizes s s' ∧ touches [(name_buf, 64); (root_files, 4352)] (e_mem s) (e_mem s') ∧
    ∃ l', table (e_mem s') (l ++ l') ∧ root_file_count s' = length (l ++ l') ∧ (length (l ++ l') ≤ 64)%nat ∧
      false = (64 <=? length (l ++ l')) ∧ (p + 8 + rd d (p + 6) ≤ n → l' = keep (load32 d p) (name_at d p))).
  { intros Hk s' Hv Hc Htt Htab. split_and!; [done|done|]. exists []. rewrite app_nil_r. split_and!; [done|lia|lia|lia|]. intros. by rewrite Hk. }
  unfold take_entry, mem_now. wp_steps. offsets. rewrite (add32_small block_buf p), (add32_small (block_buf + p)), (add32_small (block_buf + p)), Z.add_0_r by lia.
  assert (Hino : load32 (e_mem s) (block_buf + p) = load32 d p) by (by rewrite (load32_same _ _ _ _ _ p Hd) by lia).
  assert (Hnl : rd (e_mem s) (block_buf + p + 6) = rd d (p + 6)) by (rewrite <-Z.add_assoc, Hd by lia; done).
  rewrite Hino, Hnl. set (ino := load32 d p) in *. set (nl := rd d (p + 6)) in *. unfold EXT4_NAME_MAX.
  assert (Hlen : Z.of_nat (length (name_at d p)) = nl) by (unfold name_at; rewrite length_get_bytes; pose proof (rd_range d (p + 6)); lia).
  destruct (_ && _ && _) eqn:E.
  2: { wp_steps. apply Hskip; try done. intros _. unfold keep. rewrite Hlen, E. done. }
  assert (Hnl64 : 0 < nl < 64) by lia. unfold upd. wp_steps. cbn [e_mem set_e_mem].
  destruct (copy_name (e_mem s) (add32 (block_buf + p) 8) nl Hnl64) as (Hs2 & Ht2 & Hname & Hin).
  set (m2 := store8 _ _ _) in *. set (name := get_bytes _ name_buf nl) in *.
  assert (Hsame : p + 8 + nl ≤ n → name_at d p = name).
  { intros Hfit. rewrite add32_small in Hin by lia. rewrite Hin by lia. apply get_bytes_ext. fold nl. intros k Hk.
    rewrite <-!Z.add_assoc. rewrite Hd by lia. by rewrite Z.add_0_l. }
  assert (Ht2' : touches [(name_buf, 64); (root_files, 4352)] (e_mem s) m2) by (eapply touches_mono; [exact Ht2|each; left; split; cbn; lia]).
  assert (Htab : table m2 l) by (eapply table_frame; [lia|exact Ht2|each; unfold apart; cbn; lia|done]).
  rewrite (is_dot_name m2 name) by (done || lia). destruct (dot_name name) eqn:Edot.
  { wp_steps. apply Hskip; try done. intros Hfit. unfold keep. rewrite Hsame, Edot by done. by rewrite andb_false_r. }
  wp_steps. cbn [e_mem set_e_mem root_file_count set_root_file_count]. rewrite Hcnt.
  destruct (slot_range (length l)) as (Hr0 & Hr1 & Hr2 & ->); [lia|]. rewrite (add32_small (slot _)) by lia.
  destruct (add_entry m2 l name ino) as [HA HB]; [done..|lia|lia|apply load32_range|]. rewrite Hname in HA, HB.
  assert (Hll : length (l ++ [(name, ino)]) = S (length l)) by (rewrite length_app; cbn; lia).
  split_and!; [done| |].
  - etrans; [exact Ht2'|]. eapply touches_mono; [exact HB|]. each. right; left. split; cbn; lia.
  - exists [(name, ino)]. rewrite Hll. unfold EXT4_MAX_ROOT_ENTRIES. split_and!; [done|lia|lia|f_equal; lia|].
    intros Hfit. rewrite Hsame by done. unfold keep. rewrite Edot, Hname, E. done.
Qed.

(** ** The scan *)

(** The first [root_file_count] entries of [root_files] are [l]. *)
Definition filled (s : ext4_state) (l : list dir_entry) : Prop :=
  table (e_mem s) l ∧ root_file_count s = length l ∧ (length l ≤ 64)%nat.
Definition dir_places : list (Z * Z) := [(name_buf, 64); (root_files, 4352)].

Lemma block_buf_apart n : n ≤ 4096 → Forall (apart (block_buf, n)) dir_places.
Proof. intros Hn. disj 1%nat 8%nat. disj 1%nat 4%nat. each; unfold apart; cbn; lia. Qed.

Lemma take_app_room (l' k r : list dir_entry) (room : nat) : (length l' ≤ room)%nat → r = take (room - length l') k → l' ++ r = take room (l' ++ k).
Proof. intros Hl ->. by rewrite take_app, (take_ge l') by lia. Qed.

Lemma take_room (e k : list dir_entry) (room : nat) : take room e ++ take (room - length (take room e)) k = take room (e ++ k).
Proof. rewrite take_app, length_take. f_equal. f_equal. lia. Qed.

Lemma scan_block_spec (fuel : nat) n d : ∀ p l s,
  0 ≤ p ≤ 100000 → n ≤ 4096 → n ≤ p + fuel → same_bytes n (e_mem s) block_buf d 0 → filled s l → (length l < 64)%nat →
  wp (scan_block fuel n p) (λ _ s', same_sizes s s' ∧ touches dir_places (e_mem s) (e_mem s') ∧
    ∃ l', filled s' (l ++ l') ∧ (parse_fits fuel d n p = true → l' = take (64 - length l) (parse fuel d n p))) s.
Proof.
  induction fuel as [|fuel IH]; intros p l s Hp Hn Hf Hd (Ht & Hc & Hl64) Hl; cbn [scan_block parse parse_fits]; offsets; rewrite (add32_small p) by lia;
    (destruct (Z.leb_spec (p + 8) n); [|cbn [andb]; wp_steps; split_and!; [done|done|]; exists []; rewrite app_nil_r; split; [done|by rewrite take_nil]]).
  { lia. }
  unfold mem_now. wp_steps. range 1%nat. rewrite (add32_small block_buf), (add32_small _ 4) by lia.
  assert (Hrec : load16 (e_mem s) (block_buf + p + 4) = load16 d (p + 4)) by (rewrite <-Z.add_assoc, (load16_same _ _ _ _ _ _ Hd), Z.add_0_l by lia; done).
  rewrite Hrec. pose proof (load16_range d (p + 4)) as Hr. destruct (_ =? 0) eqn:E0; cbn [andb negb].
  { wp_steps. split_and!; [done|done|]. exists []. rewrite app_nil_r. split; [done|by rewrite take_nil]. }
  wp_step. eapply wp_mono; [apply (take_entry_spec p n d l); done || lia|]. intros full s1 (Hv1 & Ht1 & l1 & Htab & Hcnt & Hlen & Hfull & Hk).
  assert (Hd1 : same_bytes n (e_mem s1) block_buf d 0).
  { eapply same_bytes_trans; [apply same_bytes_sym; eapply touches_same; [exact Ht1|by apply block_buf_apart]|done]. }
  rewrite length_app in Hlen, Hfull. symmetry in Hfull. destruct full.
  - wp_steps. split_and!; [done|done|]. exists l1. split; [split_and!; [done|done|rewrite length_app; lia]|].
    intros [Hfit _]%andb_prop. rewrite <-(Hk ltac:(lia)). rewrite <-(app_nil_r l1) at 1. apply take_app_room; [lia|].
    apply Z.leb_le in Hfull. by replace (64 - length l - length l1)%nat with 0%nat by lia.
  - apply Z.leb_gt in Hfull. rewrite (add32_small p) by lia. eapply wp_mono; [apply (IH _ (l ++ l1)); rewrite ?length_app; try done; [lia..|split_and!; [done|done|rewrite length_app; lia]|lia]|].
    intros [] s2 (Hv2 & Ht2 & l2 & Hfill & Hpar). split_and!; [by etrans|by etrans|]. exists (l1 ++ l2). rewrite app_assoc. split; [done|].
    intros [Hfit Hrest]%andb_prop. rewrite <-(Hk ltac:(lia)). apply take_app_room; [lia|]. rewrite (Hpar Hrest), length_app. f_equal. lia.
Qed.

(** The part of a directory of [size] bytes in the block at [off]. *)
Definition part_len (bs size off : Z) : Z := Z.min bs (size - off).
Definition part (bs size off : Z) (b : list Z) : mem := put_bytes ∅ 0 (take (Z.to_nat (part_len bs size off)) b).
(** The entries of a directory up to the first block that cannot be read. *)
Fixpoint dir_listing (k : nat) (bs : Z) (fb : Z → option (list Z)) (size off : Z) : list dir_entry :=
  match k with
  | O => []
  | S k' =>
      if off <? size then
        match fb (off / bs) with
        | None => []
        | Some b => dir_entries (part bs size off b) (part_len bs size off) ++ dir_listing k' bs fb size (off + bs)
        end
      else []
  end.
Definition listing_fits (bs : Z) (fb : Z → option (list Z)) (size : Z) : Prop :=
  ∀ off b, 0 ≤ off < size → off mod bs = 0 → fb (off / bs) = Some b → dir_fits (part bs size off b) (part_len bs size off) = true.

Definition scan_places : list (Z * Z) := (block_buf, 4096) :: dir_places.

Lemma root_ino_apart : Forall (apart (root_ino, 116)) scan_places.
Proof. disj 7%nat 1%nat. disj 7%nat 8%nat. disj 7%nat 4%nat. each; unfold apart; cbn; lia. Qed.

Lemma touches_cons r rs m m' : touches rs m m' → touches (r :: rs) m m'.
Proof. intros H x Hx. apply H. by inversion Hx. Qed.

(** What the scan needs of the inode of the directory. *)
Definition dir_inode (bs : Z) (m : mem) (fb : Z → option (list Z)) (size : Z) : Prop :=
  holds bs m root_ino fb ∧ size_fits m root_ino ∧ inode_size_of m root_ino = size.

Lemma dir_inode_touches bs m m' fb size : touches scan_places m m' → dir_inode bs m fb size → dir_inode bs m' fb size.
Proof.
  intros Ht (Hh & Hf & Hs). pose proof (touches_same _ _ _ _ _ Ht root_ino_apart) as Hsame. split_and!.
  - eapply holds_same; [|done]. eapply same_bytes_le; [done|lia].
  - unfold size_fits in *. by rewrite <-(load32_same _ _ _ _ _ 108 Hsame) by lia.
  - unfold inode_size_of in *. by rewrite <-(load32_same _ _ _ _ _ 4 Hsame) by lia.
Qed.

Lemma scan_loop_spec (fuel : nat) size fb : ∀ off l s,
  good_size (block_size s) → dir_inode (block_size s) (e_mem s) fb size → 0 ≤ size ≤ 4294963200 → 0 ≤ off → off mod block_size s = 0 →
  (off < size → size - off ≤ block_size s * fuel) → filled s l →
  wp (scan_loop fuel size off) (λ _ s', same_sizes s s' ∧ touches scan_places (e_mem s) (e_mem s') ∧
    ∃ l', filled s' (l ++ l') ∧ (listing_fits (block_size s) fb size → l' = take (64 - length l) (dir_listing fuel (block_size s) fb size off))) s.
Proof.
  induction fuel as [|fuel IH]; intros off l s Hbs Hdir Hsz Hoff Hal Hfuel (Ht & Hc & Hl); destruct (good_size_bounds _ Hbs) as [Hr _];
    cbn [scan_loop dir_listing]; do 2 wp_step; unfold EXT4_MAX_ROOT_ENTRIES; (destruct (Z.ltb_spec off size) as [Hlt|]; cbn [andb];
      [|wp_steps; split_and!; [done|done|]; exists []; rewrite app_nil_r; split; [done|by rewrite take_nil]]); [lia|].
  destruct (Z.ltb_spec (root_file_count s) 64).
  2: { wp_steps. split_and!; [done|done|]. exists []. rewrite app_nil_r. split; [done|]. by replace (64 - length l)%nat with 0%nat by lia. }
  range 1%nat. range 7%nat. wp_step. destruct Hdir as (Hh & Hf & His). eapply wp_mono; [unshelve eapply (inode_read_data_in_place _ _ root_ino off fb); done || lia|].
  intros r s1 (Hv1 & Hc1 & Hb). rewrite His in Hb.
  assert (Ht1 : touches scan_places (e_mem s) (e_mem s1)) by (eapply changes_touches; [exact Hc1|by left|split; cbn; lia]).
  assert (Htab1 : filled s1 l).
  { split_and!; [|by rewrite Hv1|done]. disj 4%nat 1%nat.
    eapply (table_frame _ _ _ [(block_buf, block_size s)]); [done|eapply changes_touches; [exact Hc1|by left|split; cbn; lia]|each; unfold apart; cbn; lia|done]. }
  destruct (fb (off / block_size s)) as [b|] eqn:Eb.
  2: { subst r. cbn. wp_steps. split_and!; [by apply same_vars_same_sizes|done|]. exists []. rewrite app_nil_r. split; [done|by rewrite take_nil]. }
  destruct Hb as [Hrn Hg]. fold (part_len (block_size s) size off) in Hrn. set (n := part_len _ _ _) in *.
  assert (Hn : 0 < n ≤ block_size s) by (unfold n, part_len; lia). subst r. replace (n <=? 0) with false by lia. wp_step.
  rewrite wrap32_small by (unfold is_u32; lia). apply get_bytes_same in Hg. fold (part (block_size s) size off b) in Hg.
  eapply wp_mono; [apply (scan_block_spec _ n (part (block_size s) size off b) 0 l); done || lia|]. intros [] s2 (Hv2 & Ht2 & l1 & Hfill & Hpar).
  destruct (same_sizes_eq s s2) as (Hb2 & _); [etrans; [by apply same_vars_same_sizes|done]|].
  assert (Ht2' : touches scan_places (e_mem s) (e_mem s2)) by (etrans; [exact Ht1|by apply touches_cons]).
  rewrite (add32_small off) by lia.
  eapply wp_mono; [apply (IH _ (l ++ l1)); rewrite ?Hb2; try done; try lia; [by eapply dir_inode_touches|..]|].
  - rewrite Z.add_mod, Hal, Z.mod_same, Z.mod_0_l; lia.
  - intros [] s3 (Hv3 & Ht3 & l2 & Hfill3 & Hpar3). rewrite Hb2 in *.
    split_and!; [etrans; [by apply same_vars_same_sizes|by etrans]|by etrans|]. exists (l1 ++ l2). rewrite app_assoc. split; [done|].
    intros Hfit. specialize (Hpar (Hfit off b ltac:(lia) Hal Eb)). fold (dir_entries (part (block_size s) size off b) n) in Hpar.
    rewrite (Hpar3 Hfit), length_app, Nat.sub_add_distr, Hpar. apply take_room.
Qed.
End dir.

(** ** Directories as they are written

    A directory block made of entries is scanned as these entries. *)

(** An entry of a directory, [file_type] and padding included. *)
Record dirent := Dirent { de_inode : Z; de_rec_len : Z; de_type : Z; de_name : list Z }.
Definition dirent_ok (e : dirent) : Prop :=
  is_u32 (de_inode e) ∧ 8 + length (de_name e) ≤ de_rec_len e < 65536 ∧ length (de_name e) < 256 ∧
  0 ≤ de_type e < 256 ∧ is_bytes (de_name e).

Definition bytes_of (v : Z) : list Z := [v mod 256; v / 256 mod 256; v / 65536 mod 256; v / 16777216 mod 256].
Definition encode (e : dirent) : list Z :=
  bytes_of (de_inode e) ++ take 2 (bytes_of (de_rec_len e)) ++ [Z.of_nat (length (de_name e)); de_type e] ++
  de_name e ++ replicate (Z.to_nat (de_rec_len e - 8 - length (de_name e))) 0.
Definition encode_dir (es : list dirent) : list Z := es ≫= encode.
(** What a listing shows of it. *)
Definition visible (es : list dirent) : list dir_entry := es ≫= λ e, keep (de_inode e) (de_name e).

Lemma length_encode e : dirent_ok e → Z.of_nat (length (encode e)) = de_rec_len e.
Proof. intros (_ & Hr & _). unfold encode. rewrite !length_app, length_replicate. cbn. lia. Qed.

Lemma bytes_of_is v : is_bytes (bytes_of v).
Proof. unfold bytes_of. repeat constructor; Z.div_mod_to_equations; lia. Qed.

Lemma encode_is e : dirent_ok e → is_bytes (encode e).
Proof.
  intros (_ & _ & Hn & Ht & Hb). unfold encode, is_bytes. rewrite !Forall_app. split_and!.
  - apply bytes_of_is.
  - apply Forall_take, bytes_of_is.
  - repeat constructor; lia.
  - done.
  - apply Forall_replicate. lia.
Qed.

Lemma encode_dir_is es : Forall dirent_ok es → is_bytes (encode_dir es).
Proof. intros H. unfold is_bytes, encode_dir. apply Forall_bind. eapply Forall_impl; [exact H|]. apply encode_is. Qed.

(** Reading the bytes of a list. *)
Lemma rd_image l p x r k b : is_bytes l → l = p ++ x ++ r → x !! k = Some b → rd (put_bytes ∅ 0 l) (length p + Z.of_nat k) = b.
Proof.
  intros Hb Hl Hk. assert (Hlk : l !! (length p + k)%nat = Some b).
  { rewrite Hl, lookup_app_r by lia. replace (length p + k - length p)%nat with k by lia. rewrite lookup_app_l; [done|]. by eapply lookup_lt_Some. }
  replace (length p + Z.of_nat k) with (0 + (length p + k)%nat) by lia. apply put_bytes_in; [done|].
  unfold is_bytes in Hb. rewrite list.Forall_forall in Hb. eapply Hb. by eapply list_elem_of_lookup_2.
Qed.

(** The fields of an entry written behind [p]. *)
Lemma encoded_fields l p e r : dirent_ok e → is_bytes l → l = p ++ encode e ++ r →
  let d := put_bytes ∅ 0 l in
  load32 d (length p) = de_inode e ∧ load16 d (length p + 4) = de_rec_len e ∧ rd d (length p + 6) = length (de_name e) ∧
  name_at d (length p) = de_name e.
Proof.
  intros (Hi & Hrec & Hn & _ & Hb) Hl He d. assert (Hat : ∀ k b, encode e !! k = Some b → rd d (length p + Z.of_nat k) = b) by (intros k b; by apply (rd_image l p (encode e) r)).
  pose proof (Hat 0%nat _ eq_refl) as H0. pose proof (Hat 1%nat _ eq_refl) as H1. pose proof (Hat 2%nat _ eq_refl) as H2. pose proof (Hat 3%nat _ eq_refl) as H3.
  pose proof (Hat 4%nat _ eq_refl) as H4. pose proof (Hat 5%nat _ eq_refl) as H5. pose proof (Hat 6%nat _ eq_refl) as H6.
  change (Z.of_nat 0) with 0 in H0. change (Z.of_nat 1) with 1 in H1. change (Z.of_nat 2) with 2 in H2. change (Z.of_nat 3) with 3 in H3.
  change (Z.of_nat 4) with 4 in H4. change (Z.of_nat 5) with 5 in H5. change (Z.of_nat 6) with 6 in H6. rewrite Z.add_0_r in H0. unfold is_u32 in Hi.
  split_and!.
  - unfold load32. rewrite H0, H1, H2, H3. Z.div_mod_to_equations. lia.
  - unfold load16. rewrite H4. replace (length p + 4 + 1) with (length p + 5) by lia. rewrite H5. Z.div_mod_to_equations. lia.
  - done.
  - unfold name_at. rewrite H6. apply list_eq_same_length with (n := length (de_name e)); [done|rewrite length_get_bytes; lia|].
    intros i x y Hix Hx Hy. rewrite get_bytes_lookup in Hx by lia. injection Hx as <-.
    replace (length p + 8 + i) with (length p + Z.of_nat (8 + i)) by lia. apply Hat.
    exact (lookup_app_l_Some _ (replicate (Z.to_nat (de_rec_len e - 8 - length (de_name e))) 0) _ _ Hy).
Qed.

Lemma parse_encode (fuel : nat) es : ∀ l p, Forall dirent_ok es → is_bytes l → l = p ++ encode_dir es → (length es ≤ fuel)%nat →
  parse fuel (put_bytes ∅ 0 l) (length l) (length p) = visible es ∧ parse_fits fuel (put_bytes ∅ 0 l) (length l) (length p) = true.
Proof.
  revert es. induction fuel as [|fuel IH]; intros es l p Hok Hb Hl Hf; cbn [parse parse_fits]; [by destruct es; cbn in Hf; [|lia]|].
  destruct es as [|e es]. { cbn in Hl. rewrite app_nil_r in Hl. subst l. by replace (length p + 8 <=? length p) with false by lia. }
  apply Forall_cons in Hok as [He Hok]. change (encode_dir (e :: es)) with (encode e ++ encode_dir es) in Hl. destruct (encoded_fields l p e (encode_dir es) He Hb Hl) as (-> & -> & -> & ->).
  pose proof (length_encode e He) as Hlen. pose proof He as (_ & Hr & _). assert (Hll : Z.of_nat (length l) = length p + de_rec_len e + length (encode_dir es)) by (rewrite Hl, !length_app; lia).
  replace (length p + 8 <=? length l) with true by lia. replace (de_rec_len e =? 0) with false by lia. cbn [andb negb].
  replace (length p + 8 + length (de_name e) <=? length l) with true by lia. cbn [andb].
  replace (length p + de_rec_len e) with (Z.of_nat (length (p ++ encode e))) by (rewrite length_app; lia).
  destruct (IH es l (p ++ encode e)) as [-> ->]; [done|done|by rewrite <-app_assoc|cbn in Hf; lia|done].
Qed.
