(* ===== verification/Ext4Mount.v ===== *)
(** * Mounting an ext4 disk

    The root directory is scanned and the superblock is read; the result and the table
    of files are functions of what is on the disk. *)

From S2P Require Import Prelude KString Bytes Ext4 Ext4Spec Ext4Read Ext4Inode Ext4Dir.

(** The bytes [l] at address 0. *)
Abbreviation image l := (put_bytes ∅ 0 l).

#[local] Opaque memcpy.

Section mount.
Context {DK : Disk} {DOK : DiskOk} {EP : Ext4Places} {POK : PlacesOk}.

(** ** The root directory *)

(** The blocks and the size of the file whose inode has the bytes [l]. *)
Definition inode_blocks (bs : Z) (l : list Z) (lb : Z) : option (list Z) := file_block bs (image l) 0 lb.
Definition inode_len (l : list Z) : Z := load32 (image l) 4.
Definition inode_large (l : list Z) : bool := negb (load32 (image l) 108 =? 0).
Definition root_listing (bs : Z) (l : list Z) : list dir_entry :=
  dir_listing (read_fuel (inode_len l) bs) bs (inode_blocks bs l) (inode_len l) 0.
(** The tree of the directory is sound, and its size leaves room for the offset of the scan. *)
Definition root_ok (bs : Z) (l : list Z) : Prop := tree_ok bs (image l) 0 ∧ inode_len l ≤ 4294963200.

Definition root_places : list (Z * Z) := (root_ino, 116) :: scratch ++ dir_places.

Lemma inode_in_memory bs m a l : get_bytes m a 116 = l → tree_ok bs (image l) 0 →
  holds bs m a (inode_blocks bs l) ∧ inode_size_of m a = inode_len l ∧ (size_fits m a ↔ inode_large l = false).
Proof.
  intros Hg Ht. apply get_bytes_same in Hg. split_and!.
  - eapply holds_same; [apply same_bytes_sym; eapply same_bytes_le; [exact Hg|lia]|]. by split.
  - unfold inode_size_of, inode_len. by rewrite (load32_same _ _ _ _ _ 4 Hg) by lia.
  - unfold size_fits, inode_large. rewrite (load32_same _ _ _ _ _ 108 Hg), Z.add_0_l by lia. rewrite negb_false_iff. by rewrite Z.eqb_eq.
Qed.

Lemma scan_root_dir_spec s :
  sizes_ok s → desc_ok (block_size s) (desc_size s) (1 / per_group (e_mem s)) →
  (∀ l, disk_inode (block_size s) (inode_size s) (desc_size s) (per_group (e_mem s)) 2 = Some l → root_ok (block_size s) l) →
  wp scan_root_dir (λ r s', same_sizes s s' ∧ touches root_places (e_mem s) (e_mem s') ∧
    match disk_inode (block_size s) (inode_size s) (desc_size s) (per_group (e_mem s)) 2 with
    | None => r = -1
    | Some l =>
        if inode_large l then r = -1
        else r = 0 ∧ ∃ t, filled s' t ∧ (listing_fits (block_size s) (inode_blocks (block_size s) l) (inode_len l) → t = take 64 (root_listing (block_size s) l))
    end) s.
Proof.
  intros Hok Hd Hroot. range 7%nat. disj 7%nat 3%nat. unfold scan_root_dir. wp_step.
  eapply wp_mono; [apply read_inode_spec; [done|unfold is_u32; lia|left; exact Hd|lia|lia|unfold apart; cbn; lia]|].
  intros r s1 (Hv1 & Ht1 & Hl). assert (Ht1' : touches root_places (e_mem s) (e_mem s1)).
  { intros x Hx. apply Ht1. unfold root_places in Hx. rewrite app_comm_cons in Hx. by apply Forall_app in Hx as [Hx _]. }
  destruct (disk_inode _ _ _ _ 2) as [l|]; [|subst r; cbn; wp_steps; split_and!; [by apply same_vars_same_sizes|done|done]].
  destruct Hl as [-> Hg]. cbn [Z.ltb Z.compare]. unfold mem_now. wp_steps. offsets. rewrite (add32_small root_ino 108), (add32_small root_ino 4) by lia.
  destruct (Hroot l eq_refl) as [Htree Hmax]. destruct (inode_in_memory (block_size s) _ _ _ Hg Htree) as (Hh & Hsize & Hfit).
  fold (inode_size_of (e_mem s1) root_ino). rewrite Hsize. unfold size_fits in Hfit.
  destruct (inode_large l).
  { destruct (_ =? 0) eqn:E0; cbn [negb]; [|wp_steps; split_and!; [by apply same_vars_same_sizes|done|done]]. apply Z.eqb_eq in E0. by apply Hfit in E0. }
  rewrite (proj2 Hfit eq_refl). cbn [Z.eqb negb]. wp_steps.
  destruct (same_vars_sizes _ _ Hv1) as (Hb & _). cbn [block_size set_root_file_count]. rewrite Hb.
  destruct Hok as (Hbs & _). destruct (good_size_bounds _ Hbs) as [Hr _].
  pose proof (load32_range (image l) 4) as Hu. fold (inode_len l) in Hu. unfold is_u32 in Hu.
  eapply wp_mono; [apply (scan_loop_spec _ _ (inode_blocks (block_size s) l) 0 [] (set_root_file_count 0 s1))|].
  - by rewrite <-Hb in Hbs.
  - cbn [block_size set_root_file_count e_mem]. rewrite Hb. split_and!; [done|by apply Hfit|done].
  - lia.
  - lia.
  - apply Z.mod_0_l. cbn [block_size set_root_file_count]. lia.
  - intros _. cbn [block_size set_root_file_count]. rewrite Hb. pose proof (read_fuel_enough (inode_len l) (block_size s)). lia.
  - split_and!; [by intros i e ?|done|cbn; lia].
  - cbn [block_size set_root_file_count e_mem]. rewrite Hb. intros [] s2 (Hv2 & Ht2 & t & Hfill & Ht). wp_steps. split_and!.
    + etrans; [by apply same_vars_same_sizes|]. etrans; [|exact Hv2]. done.
    + etrans; [exact Ht1'|]. intros x Hx. apply Ht2. unfold root_places, scan_places, scratch in *. cbn in Hx.
      inversion_clear Hx as [|? ? _ Hx1]. inversion_clear Hx1 as [|? ? Hb1 Hx2]. inversion_clear Hx2 as [|? ? _ Hx3]. inversion_clear Hx3 as [|? ? _ Hx4]. inversion_clear Hx4. by constructor.
    + done.
    + exists t. split; [done|]. intros Hf. rewrite (Ht Hf). done.
Qed.

(** ** The superblock *)

Definition super_image : option mem := a ← disk_sector 2; b ← disk_sector 3; Some (image (a ++ b)).
Definition sup_bs (d : mem) : Z := 1024 * 2 ^ load32 d 24.
Definition sup_isz (d : mem) : Z := if load16 d 88 =? 0 then 128 else load16 d 88.
Definition sup_ds (d : mem) : Z := if load16 d 350 =? 0 then 32 else load16 d 350.
Definition sup_groups (d : mem) : Z := sub32 (add32 (load32 d 4) (load32 d 32)) 1 / load32 d 32.
Definition sup_root (d : mem) : option (list Z) := disk_inode (sup_bs d) (sup_isz d) (sup_ds d) (load32 d 40) 2.

(** A superblock of a file system of version ext4: sizes within the buffers, groups that are not empty. *)
Definition super_ok (d : mem) : Prop :=
  116 ≤ sup_isz d ≤ sup_bs d ∧ 0 < sup_ds d ≤ sup_bs d ∧ 0 < load32 d 32 ∧
  0 < load32 d 40 ∧ load32 d 40 * sup_isz d < 4294967296 ∧ desc_ok (sup_bs d) (sup_ds d) (1 / load32 d 40) ∧
  ∀ l, sup_root d = Some l → root_ok (sup_bs d) l.

(** The result of a mount. *)
Definition mount_result : Z :=
  if disk_init <? 0 then -10
  else match disk_sector 2, disk_sector 3 with
  | None, _ => -11
  | _, None => -12
  | Some a, Some b =>
      let d := image (a ++ b) in
      if negb (load16 d 56 =? EXT4_SUPER_MAGIC) then -13
      else if 2 <? load32 d 24 then -14
      else if sup_groups d =? 0 then -15
      else match sup_root d with
           | None => -16
           | Some l => if inode_large l then -16 else 0
           end
  end.

Lemma blk_read_spec k buf s :
  wp (blk_read k buf) (λ r s', same_vars s s' ∧ changes buf 512 (e_mem s) (e_mem s') ∧
    match disk_sector k with
    | Some l => r = 0 ∧ get_bytes (e_mem s') buf 512 = l
    | None => r = -1
    end) s.
Proof.
  unfold blk_read, upd, disk_sector. pose proof (disk_read_ok k) as Hd. destruct (disk_read k) as [r l]. cbn [fst snd] in *. wp_steps.
  cbn [e_mem set_e_mem]. assert (Hc : changes buf 512 (e_mem s) (put_bytes (e_mem s) buf l)) by (apply put_changes; destruct Hd as [(_ & -> & _)|[_ ?]]; lia).
  destruct Hd as [(-> & Hl & Hb)|[-> _]]; cbn [Z.ltb Z.compare]; split_and!; try done.
  pose proof (get_put (e_mem s) buf l Hb) as Hg. by rewrite Hl in Hg.
Qed.

(** Block sizes that pass the test of the buffer size. *)
Lemma block_size_shift log : 0 ≤ log < 22 → wrap32 (Z.shiftl 1024 log) = 1024 * 2 ^ log ∧ (4096 <? 1024 * 2 ^ log) = (2 <? log).
Proof.
  intros Hl. rewrite Z.shiftl_mul_pow2 by lia.
  assert (H : 1024 * 2 ^ log < 4294967296) by (change 4294967296 with (1024 * 2 ^ 22); apply Z.mul_lt_mono_pos_l; [lia|]; apply Z.pow_lt_mono_r; lia).
  pose proof (Z.pow_pos_nonneg 2 log). rewrite wrap32_small by (unfold is_u32; lia). split; [done|].
  destruct (Z.ltb_spec 2 log).
  - assert (2 ^ 3 ≤ 2 ^ log) by (apply Z.pow_le_mono_r; lia). lia.
  - assert (2 ^ log ≤ 2 ^ 2) by (apply Z.pow_le_mono_r; lia). lia.
Qed.

Lemma small_log_good log : 0 ≤ log → (2 <? log) = false → good_size (1024 * 2 ^ log).
Proof. intros H1 H2. assert (log = 0 ∨ log = 1 ∨ log = 2) as [->|[->| ->]] by lia; unfold good_size; lia. Qed.

(** The variables agree with the superblock [d]. *)
Definition mounted_on (d : mem) (s : ext4_state) : Prop :=
  block_size s = sup_bs d ∧ inode_size s = sup_isz d ∧ desc_size s = sup_ds d ∧ per_group (e_mem s) = load32 d 40.
Definition mount_places : list (Z * Z) := (sb, 352) :: (sbraw, 1024) :: root_places.

Lemma mounted_on_sizes d s : good_size (sup_bs d) → super_ok d → mounted_on d s → sizes_ok s.
Proof. intros Hb (Hi & Hd & _ & Hp & Hm & _) (E1 & E2 & E3 & E4). unfold sizes_ok. by rewrite E1, E2, E3, E4. Qed.

Lemma sb_apart : Forall (apart (sb, 352)) root_places.
Proof.
  disj 0%nat 1%nat. disj 0%nat 2%nat. disj 0%nat 3%nat. disj 0%nat 4%nat. disj 0%nat 5%nat. disj 0%nat 7%nat. disj 0%nat 8%nat.
  unfold root_places, scratch, dir_places. cbn [app]. each; unfold apart; cbn; lia.
Qed.

Lemma per_group_touches m m' : touches root_places m m' → per_group m' = per_group m.
Proof. intros Ht. pose proof (touches_same _ _ _ _ _ Ht sb_apart) as Hs. symmetry. by apply (load32_same _ _ _ _ _ 40 Hs). Qed.

Lemma mount_sized_spec m d s :
  e_mem s = m → same_bytes 352 m sb d 0 → block_size s = sup_bs d → good_size (sup_bs d) → super_ok d → mounted s = false →
  wp (mount_sized m) (λ r s', touches mount_places (e_mem s) (e_mem s') ∧ mounted s' = (r =? 0) ∧
    if sup_groups d =? 0 then r = -15
    else match sup_root d with
         | None => r = -16
         | Some l =>
             if inode_large l then r = -16
             else r = 0 ∧ mounted_on d s' ∧ ∃ t, filled s' t ∧
               (listing_fits (sup_bs d) (inode_blocks (sup_bs d) l) (inode_len l) → t = take 64 (root_listing (sup_bs d) l))
         end) s.
Proof.
  intros Hm Hs Hbs Hgood Hok Hmt. range 0%nat. unfold mount_sized. offsets.
  rewrite (add32_small sb 88), (add32_small sb 350), (add32_small sb 4), (add32_small sb 32) by lia.
  rewrite (load16_same _ _ _ _ _ 88 Hs), (load16_same _ _ _ _ _ 350 Hs), (load32_same _ _ _ _ _ 4 Hs), (load32_same _ _ _ _ _ 32 Hs), !Z.add_0_l by lia.
  fold (sup_isz d) (sup_ds d). pose proof Hok as (Hisz & Hds & Hbpg & Hpg & Hmul & Hdesc & Hroot). unfold udiv. do 2 wp_step.
  replace (load32 d 32 =? 0) with false by lia. wp_steps. fold (sup_groups d). destruct (sup_groups d =? 0); [wp_steps; done|]. wp_steps.
  set (s1 := set_groups_count _ _).
  assert (Hpg1 : per_group (e_mem s1) = load32 d 40).
  { unfold per_group. cbn [e_mem s1 set_groups_count set_sizes]. rewrite Hm. by rewrite (load32_same _ _ _ _ _ 40 Hs), Z.add_0_l by lia. }
  assert (Hon : mounted_on d s1) by done. pose proof (mounted_on_sizes d s1 Hgood Hok Hon) as Hsz. pose proof Hon as (E1 & E2 & E3 & _).
  eapply wp_mono; [apply scan_root_dir_spec; rewrite ?E1, ?E2, ?E3, ?Hpg1; done|]. rewrite E1, E2, E3, Hpg1. fold (sup_root d).
  intros r s2 (Hv & Ht & Hres). change (e_mem s1) with (e_mem s) in Ht.
  assert (Htm : touches mount_places (e_mem s) (e_mem s2)) by (by do 2 apply touches_cons).
  destruct (same_sizes_eq _ _ Hv) as (F1 & F2 & F3 & F4).
  destruct (sup_root d) as [l|]; [|subst r; cbn; wp_steps; split_and!; [done|by rewrite F4|done]].
  destruct (inode_large l); [subst r; cbn; wp_steps; split_and!; [done|by rewrite F4|done]|]. destruct Hres as [-> Hres]. cbn [Z.ltb Z.compare]. wp_steps.
  split_and!; [done|done|done| |exact Hres]. split_and!; cbn [set_mounted block_size inode_size desc_size e_mem];
    [by rewrite F1|by rewrite F2|by rewrite F3|by rewrite (per_group_touches _ _ Ht)].
Qed.

Lemma super_in_memory s1 s2 a b :
  get_bytes (e_mem s1) sbraw 512 = a → changes (sbraw + 512) 512 (e_mem s1) (e_mem s2) → get_bytes (e_mem s2) (sbraw + 512) 512 = b →
  let m := memcpy (e_mem s2) sb sbraw 352 in same_bytes 352 m sb (image (a ++ b)) 0 ∧ changes sb 352 (e_mem s2) m.
Proof.
  intros Ha Hc Hb m. range 0%nat. range 6%nat. disj 0%nat 6%nat.
  assert (Hg : get_bytes (e_mem s2) sbraw 1024 = a ++ b).
  { change 1024 with (512 + 512). rewrite get_bytes_app by lia. f_equal; [|done]. by rewrite (get_bytes_changes _ _ _ _ _ _ Hc) by lia. }
  apply get_bytes_same in Hg. split; [|apply memcpy_changes; lia]. intros k Hk. rewrite <-Hg by lia. unfold m. rewrite memcpy_rd by lia.
  zcases; try lia. f_equal. lia.
Qed.

(** What a mount assumes of the disk. *)
Definition super_sane : Prop := ∀ d, super_image = Some d → load16 d 56 = EXT4_SUPER_MAGIC → load32 d 24 < 22 ∧ (load32 d 24 ≤ 2 → super_ok d).

(** The outcome of a successful mount. *)
Definition mount_done (s : ext4_state) : Prop :=
  ∃ d l t, super_image = Some d ∧ sup_root d = Some l ∧ good_size (sup_bs d) ∧ super_ok d ∧ mounted_on d s ∧ filled s t ∧
    (listing_fits (sup_bs d) (inode_blocks (sup_bs d) l) (inode_len l) → t = take 64 (root_listing (sup_bs d) l)).

Lemma ext4_mount_spec s : super_sane → mounted s = false →
  wp ext4_mount (λ r s', r = mount_result ∧ mounted s' = (r =? 0) ∧ touches mount_places (e_mem s) (e_mem s') ∧ (r = 0 → mount_done s')) s.
Proof.
  intros Hsane Hmt. range 0%nat. range 6%nat. unfold ext4_mount, mount_result. do 2 wp_step. rewrite Hmt.
  destruct (disk_init <? 0); [wp_steps; by split_and!|]. wp_step. eapply wp_mono; [apply blk_read_spec|]. intros r1 s1 (Hv1 & Hc1 & Ha).
  assert (Ht1 : touches mount_places (e_mem s) (e_mem s1)) by (eapply changes_touches; [exact Hc1|right; by left|split; cbn; lia]).
  assert (Hm1 : mounted s1 = false) by (by rewrite Hv1).
  destruct (disk_sector 2) as [a|] eqn:Ea; [|subst r1; cbn; wp_steps; by split_and!]. destruct Ha as [-> Ha]. cbn [Z.ltb Z.compare]. wp_step.
  rewrite (add32_small sbraw) by lia. eapply wp_mono; [apply blk_read_spec|]. intros r2 s2 (Hv2 & Hc2 & Hb).
  assert (Ht2 : touches mount_places (e_mem s) (e_mem s2)) by (etrans; [exact Ht1|eapply changes_touches; [exact Hc2|right; by left|split; cbn; lia]]).
  assert (Hm2 : mounted s2 = false) by (by rewrite Hv2).
  destruct (disk_sector 3) as [b|] eqn:Eb; [|subst r2; cbn; wp_steps; by split_and!]. destruct Hb as [-> Hb]. cbn [Z.ltb Z.compare].
  unfold upd, mem_now. wp_steps. cbn [e_mem set_e_mem]. offsets. destruct (super_in_memory s1 s2 a b Ha Hc2 Hb) as [Hs Hc3]. set (m := memcpy _ _ _ _) in *.
  assert (Ht3 : touches mount_places (e_mem s) m) by (etrans; [exact Ht2|eapply changes_touches; [exact Hc3|by left|split; cbn; lia]]).
  assert (Hd : super_image = Some (image (a ++ b))) by (unfold super_image; by rewrite Ea, Eb). set (d := image (a ++ b)) in *.
  rewrite (add32_small sb 56), (add32_small sb 24), (load16_same _ _ _ _ _ 56 Hs), (load32_same _ _ _ _ _ 24 Hs), !Z.add_0_l by lia.
  destruct (load16 d 56 =? EXT4_SUPER_MAGIC) eqn:Emag; cbn [negb]; [|wp_steps; by split_and!]. apply Z.eqb_eq in Emag.
  destruct (Hsane d Hd Emag) as [Hlog Hok]. pose proof (load32_range d 24) as Hu. unfold is_u32 in Hu.
  replace (32 <=? load32 d 24) with false by lia. destruct (block_size_shift (load32 d 24) ltac:(lia)) as [-> Hcmp]. wp_step. wp_step.
  rewrite Hcmp. destruct (2 <? load32 d 24) eqn:E2; [wp_steps; by split_and!|].
  eapply wp_mono; [apply (mount_sized_spec _ d); try done; [apply small_log_good; [lia|done]|apply Hok; lia]|].
  intros r s' (Ht & Hm & Hres). change (e_mem (set_block_size _ _)) with m in Ht.
  assert (Htt : touches mount_places (e_mem s) (e_mem s')) by (by etrans).
  destruct (sup_groups d =? 0); [by subst r|]. destruct (sup_root d) as [l|] eqn:El; [|by subst r]. destruct (inode_large l); [by subst r|].
  destruct Hres as (-> & Hon & t & Hfill & Hlist). split_and!; [done|done|done|]. intros _. exists d, l, t.
  split_and!; try done; [apply small_log_good; [lia|done]|apply Hok; lia].
Qed.
End mount.
