(* ===== verification/Ext4Ops.v ===== *)
(** * Files of a mounted ext4 disk

    [ext4_lookup], [ext4_listdir] and [ext4_read_file] on the table a mount has made. *)

From S2P Require Import Prelude KString Bytes Ext4 Ext4Spec Ext4Read Ext4Inode Ext4Dir Ext4Mount.

#[local] Opaque memcpy.

(** ** Names as strings of C *)

Fixpoint cstr (l : list Z) : list Z :=
  match l with
  | [] => []
  | c :: l' => if c =? 0 then [] else c :: cstr l'
  end.

Lemma cstr_length l : (length (cstr l) ≤ length l)%nat.
Proof. induction l as [|c l IH]; cbn; [lia|]. destruct (c =? 0); cbn; lia. Qed.

Lemma cstr_prefix l : ∃ r, l ++ [0] = cstr l ++ 0 :: r.
Proof.
  induction l as [|c l [r IH]]; cbn; [by exists []|]. destruct (Z.eqb_spec c 0) as [->|]; [by eexists|]. exists r. cbn. by rewrite IH.
Qed.

Lemma cstr_nonzero l : Forall (λ c, c ≠ 0) (cstr l).
Proof. induction l as [|c l IH]; cbn; [done|]. destruct (Z.eqb_spec c 0); by constructor. Qed.

(** The string in memory, without the bytes behind its NUL. *)
Lemma str_in_cstr m a name : str_in m a name → str_in m a (cstr name).
Proof.
  unfold str_in. intros Hs. destruct (cstr_prefix name) as [r Hr]. pose proof (cstr_length name).
  rewrite (get_bytes_take _ _ (length name + 1)), Hs, Hr by lia. rewrite take_app, take_ge by lia. f_equal.
  replace (Z.to_nat (length (cstr name) + 1) - length (cstr name))%nat with 1%nat by lia. done.
Qed.

Lemma str_in_tail m a c l : str_in m a (c :: l) → rd m a = c ∧ str_in m (a + 1) l.
Proof.
  intros Hs. split; [rewrite <-(Z.add_0_r a); by apply (str_in_rd m a (c :: l) 0)|]. unfold str_in in *.
  replace (length (c :: l) + 1) with (1 + (length l + 1)) in Hs by (cbn; lia). rewrite get_bytes_app in Hs by lia. by injection Hs.
Qed.

Lemma str_in_nil m a : str_in m a [] → rd m a = 0.
Proof. intros Hs. rewrite <-(Z.add_0_r a). by apply (str_in_rd m a [] 0). Qed.

Lemma str_eq_at_correct m b : ∀ a l, 0 ≤ a → a + length l + 1 ≤ 4294967296 → str_in m a l → Forall (λ c, c ≠ 0) l →
  str_eq_at m a b = bool_decide (l = b).
Proof.
  induction b as [|c b IH]; intros a l Ha He Hs Hl; cbn [str_eq_at].
  - destruct l as [|x l]; [by rewrite (str_in_nil m a Hs)|]. apply str_in_tail in Hs as [-> _]. apply Forall_cons in Hl as [Hx _].
    by replace (x =? 0) with false by lia.
  - destruct l as [|x l]; [by rewrite (str_in_nil m a Hs)|]. apply str_in_tail in Hs as [-> Hs]. apply Forall_cons in Hl as [Hx Hl].
    replace (x =? 0) with false by lia. cbn [negb andb length] in *. destruct (Z.eqb_spec x c) as [->|Hne]; cbn [andb].
    + rewrite add32_small by lia. rewrite (IH _ l) by (done || lia). apply bool_decide_ext. naive_solver.
    + symmetry. apply bool_decide_eq_false. congruence.
Qed.

Lemma str_len_at_correct m l : ∀ (fuel : nat) a, 0 ≤ a → a + length l + 1 ≤ 4294967296 → (length l < fuel)%nat → str_in m a l → Forall (λ c, c ≠ 0) l →
  str_len_at fuel m a = Some (Z.of_nat (length l)).
Proof.
  induction l as [|c l IH]; intros [|fuel] a Ha He Hf Hs Hl; cbn in Hf; try lia; cbn [str_len_at].
  - by rewrite (str_in_nil m a Hs).
  - apply str_in_tail in Hs as [-> Hs]. apply Forall_cons in Hl as [Hx Hl]. replace (c =? 0) with false by lia. cbn [length] in *.
    rewrite add32_small by lia. rewrite IH by (done || lia). cbn. f_equal. lia.
Qed.

Section ops.
Context {DK : Disk} {DOK : DiskOk} {EP : Ext4Places} {POK : PlacesOk}.

(** The disk with superblock [d] is mounted with the files [t]. *)
Definition mounted_ok (d : mem) (t : list dir_entry) (s : ext4_state) : Prop :=
  mounted s = true ∧ good_size (sup_bs d) ∧ super_ok d ∧ mounted_on d s ∧ filled s t.

Lemma table_name t s (i : nat) e : filled s t → t !! i = Some e →
  0 ≤ entry_at i ∧ entry_at i + length (cstr e.1) + 1 ≤ 4294967296 ∧ str_in (e_mem s) (entry_at i) (cstr e.1) ∧ (length (cstr e.1) < 64)%nat ∧
  entry_at i + 68 ≤ root_files + 4352 ∧ root_files ≤ entry_at i ∧ load32 (e_mem s) (entry_at i + 64) = e.2 ∧ entry_at i + 68 ≤ 4294967296.
Proof.
  intros (Ht & _ & Hl) He. apply lookup_lt_Some in He as Hi. destruct (Ht i e He) as (Hn & Hs & Hino). pose proof (cstr_length e.1).
  destruct (slot_range i) as (H1 & H2 & H3 & ->); [lia|]. split_and!; try lia; [by apply str_in_cstr|unfold slot; lia].
Qed.

(** ** Lookup *)
Lemma lookup_loop_spec s t name : filled s t → ∀ (n i : nat), (i + n)%nat = length t →
  lookup_loop n i name (e_mem s) =
    match list_find (λ e, cstr e.1 = name) (drop i t) with Some (k, _) => Z.of_nat (i + k) | None => -1 end.
Proof.
  intros Hf. induction n as [|n IH]; intros i Hi; cbn [lookup_loop]; [by rewrite drop_ge by lia|].
  destruct (lookup_lt_is_Some_2 t i ltac:(lia)) as [e He]. rewrite (drop_S _ e) by done. cbn [list_find].
  destruct (table_name _ _ _ _ Hf He) as (H1 & H2 & H3 & _). rewrite (str_eq_at_correct _ _ _ (cstr e.1)) by (done || apply cstr_nonzero).
  case_bool_decide as Hc; case_decide; try done; [by rewrite Nat.add_0_r|].
  replace (Z.of_nat i + 1) with (Z.of_nat (S i)) by lia. rewrite IH by lia. destruct (list_find _ _) as [[k x]|]; cbn; [|done]. f_equal. lia.
Qed.

Lemma ext4_lookup_spec d t name s : mounted_ok d t s →
  wp (ext4_lookup name) (λ r s', s' = s ∧ r = match list_find (λ e, cstr e.1 = name) t with Some (k, _) => Z.of_nat k | None => -1 end) s.
Proof.
  intros (Hm & _ & _ & _ & Hf). unfold ext4_lookup. wp_steps. rewrite Hm. wp_steps. split; [done|].
  pose proof (lookup_loop_spec s t name Hf (length t) 0 ltac:(lia)) as H. rewrite drop_0 in H. destruct Hf as (_ & -> & _). by rewrite Nat2Z.id.
Qed.

(** ** Listing *)

(** The names, each with a newline, as long as one more fits in front of the NUL. *)
Fixpoint list_text (t : list dir_entry) (room : Z) : list Z :=
  match t with
  | [] => []
  | e :: t' =>
      let line := cstr e.1 ++ [10] in
      if length line <? room then line ++ list_text t' (room - length line) else []
  end.

Lemma list_text_length t : ∀ room, 0 < room → length (list_text t room) < room.
Proof.
  induction t as [|e t IH]; intros room Hr; cbn [list_text]; [cbn; lia|]. destruct (Z.ltb_spec (length (cstr e.1 ++ [10])) room); [|cbn; lia].
  rewrite length_app. specialize (IH (room - length (cstr e.1 ++ [10])) ltac:(lia)). lia.
Qed.

Lemma filled_frame s s' t rs : filled s t → root_file_count s' = root_file_count s → touches rs (e_mem s) (e_mem s') → Forall (apart (root_files, 4352)) rs → filled s' t.
Proof. intros (Ht & Hc & Hl) Hs Htt Ha. split_and!; [by eapply table_frame|by rewrite Hs|done]. Qed.

(** One line of the listing. *)
Lemma write_line m a src n : 0 ≤ a → 0 ≤ src → 0 ≤ n → a + n + 1 ≤ 4294967296 → src + n ≤ 4294967296 → a + n ≤ src ∨ src + n ≤ a →
  let m' := store8 (memcpy m a src n) (a + n) 10 in
  get_bytes m' a (n + 1) = get_bytes m src n ++ [10] ∧ changes a (n + 1) m m'.
Proof.
  intros Ha Hs Hn He Hse Hd m'. assert (Hm' : m' = wr (memcpy m a src n) (a + n) 10) by (unfold m', store8; by rewrite wrap32_small by (unfold is_u32; lia)).
  assert (Hc : changes (a + n) 1 (memcpy m a src n) m') by (intros x Hx; rewrite Hm'; apply rd_wr_ne; lia). split.
  - rewrite get_bytes_app by lia. f_equal.
    + rewrite (get_bytes_changes _ _ _ _ _ _ Hc) by lia. apply get_bytes_memcpy; lia.
    + unfold get_bytes. rewrite seqZ_cons by lia. cbn [fmap list_fmap]. by rewrite Hm', rd_wr_eq.
  - transitivity (memcpy m a src n); [apply memcpy_changes; lia|]. eapply changes_mono; [..|exact Hc]; lia.
Qed.

Lemma listdir_loop_spec t buf len : apart (buf, len) (root_files, 4352) → 0 ≤ buf → buf + len ≤ 4294967296 → len < 2147483648 →
  ∀ (k i : nat) out s, filled s t → (i + k)%nat = length t → 0 ≤ out < len →
  wp (listdir_loop k i buf len out) (λ r s', same_vars s s' ∧ changes (buf + out) (len - out) (e_mem s) (e_mem s') ∧
    r = out + length (list_text (drop i t) (len - out)) ∧
    get_bytes (e_mem s') (buf + out) (r - out) = list_text (drop i t) (len - out)) s.
Proof.
  intros Ha Hb Hbe Hlen. induction k as [|k IH]; intros i out s Hf Hi Hout; cbn [listdir_loop].
  { wp_steps. rewrite drop_ge by lia. cbn [list_text length]. split_and!; [done|done|lia|]. by replace (out - out) with 0 by lia. }
  destruct (lookup_lt_is_Some_2 t i ltac:(lia)) as [e He]. rewrite (drop_S _ e) by done. cbn [list_text].
  destruct (table_name _ _ _ _ Hf He) as (H1 & H2 & H3 & H4 & H5 & H6 & _). unfold mem_now. wp_steps.
  rewrite (str_len_at_correct _ (cstr e.1)) by (done || lia || apply cstr_nonzero). rewrite length_app. cbn [length]. set (name := cstr e.1) in *.
  rewrite (add32_small out), (add32_small _ 1) by lia. unfold apart in Ha. cbn [fst snd] in Ha.
  destruct (Z.leb_spec len (out + length name + 1)).
  { wp_steps. rewrite (proj2 (Z.ltb_ge (length name + 1)%nat (len - out))) by lia. cbn [length]. split_and!; [done|done|lia|]. by replace (out - out) with 0 by lia. }
  rewrite (proj2 (Z.ltb_lt (length name + 1)%nat (len - out))) by lia. unfold upd. wp_steps. cbn [e_mem set_e_mem]. rewrite (add32_small buf out) by lia.
  destruct (write_line (e_mem s) (buf + out) (entry_at i) (length name)) as [Hg Hc]; [lia..|]. set (m1 := store8 _ _ _) in *.
  set (s1 := set_e_mem m1 _). assert (Hs1 : s1 = set_e_mem m1 s) by done. clearbody s1. subst s1.
  assert (Hline : get_bytes m1 (buf + out) (length name + 1) = name ++ [10]).
  { rewrite Hg. f_equal. unfold str_in in H3. rewrite (get_bytes_take _ _ (length name + 1)), H3 by lia. rewrite take_app_le by lia. apply take_ge. lia. }
  replace (Z.of_nat i + 1) with (Z.of_nat (S i)) by lia.
  eapply wp_mono; [apply (IH (S i) (out + length name + 1) (set_e_mem m1 s)); [|lia|lia]|].
  - eapply (filled_frame s _ t [(buf, len)]); [done|done|eapply changes_touches; [exact Hc|by left|split; cbn; lia]|each; unfold apart; cbn; lia].
  - cbn [e_mem set_e_mem]. intros r s' (Hv & Hc' & Hr & Hg'). replace (len - (out + length name + 1)) with (len - out - (length name + 1)%nat) in * by lia.
    set (rest := list_text _ _) in *. split_and!.
    + etrans; [apply same_vars_set|exact Hv].
    + etrans; [eapply changes_mono; [..|exact Hc]; lia|eapply changes_mono; [..|exact Hc']; lia].
    + rewrite !length_app. cbn [length]. lia.
    + replace (r - out) with (length name + 1 + (r - (out + length name + 1))) by lia. rewrite get_bytes_app by lia. f_equal.
      * by rewrite (get_bytes_changes _ _ _ _ _ _ Hc') by lia.
      * by replace (buf + out + (length name + 1)) with (buf + (out + length name + 1)) by lia.
Qed.

Lemma ext4_listdir_spec d t buf len s : mounted_ok d t s → apart (buf, len) (root_files, 4352) → 0 < buf → buf + len ≤ 4294967296 → 0 < len < 2147483648 →
  wp (ext4_listdir buf len) (λ r s', same_vars s s' ∧ changes buf len (e_mem s) (e_mem s') ∧
    r = length (list_text t len) ∧ get_bytes (e_mem s') buf (r + 1) = list_text t len ++ [0]) s.
Proof.
  intros (Hm & _ & _ & _ & Hf) Ha Hb Hbe Hlen. unfold ext4_listdir. do 2 wp_step. rewrite Hm.
  replace (buf =? 0) with false by lia. replace (len =? 0) with false by lia. cbn [negb orb]. wp_step.
  pose proof Hf as (_ & Hc & _). rewrite Hc, Nat2Z.id.
  eapply wp_mono; [apply (listdir_loop_spec t buf len Ha ltac:(lia) Hbe ltac:(lia) (length t) 0 0); [done|lia|lia]|]. rewrite drop_0, Z.sub_0_r, Z.add_0_r.
  intros out s' (Hv & Hch & Hr & Hg). rewrite Z.sub_0_r in Hg. pose proof (list_text_length t len ltac:(lia)) as Hroom. replace (out <? len) with true by lia.
  unfold upd. wp_steps. rewrite to_int_id by (unfold is_int; lia). cbn [e_mem set_e_mem]. unfold store8. rewrite wrap32_small by (unfold is_u32; lia).
  assert (Hw : changes (buf + out) 1 (e_mem s') (wr (e_mem s') (buf + out) 0)) by (intros x Hx; apply rd_wr_ne; lia). split_and!.
  - by apply same_vars_upd.
  - etrans; [exact Hch|]. eapply changes_mono; [..|exact Hw]; lia.
  - lia.
  - rewrite get_bytes_app by lia. f_equal.
    + by rewrite (get_bytes_changes _ _ _ _ _ _ Hw) by lia.
    + unfold get_bytes. rewrite seqZ_cons by lia. cbn [fmap list_fmap]. by rewrite rd_wr_eq.
Qed.

(** ** Reading *)
Lemma mounted_ok_frame d t s s' rs : mounted_ok d t s → same_vars s s' → touches rs (e_mem s) (e_mem s') →
  Forall (apart (sb, 352)) rs → Forall (apart (root_files, 4352)) rs → mounted_ok d t s'.
Proof.
  intros (Hm & Hb & Hok & (E1 & E2 & E3 & E4) & Hf) Hv Ht Hsb Hrf. destruct (same_vars_sizes _ _ Hv) as (F1 & F2 & F3 & F4 & F5).
  split_and!; [by rewrite F4|done|done| |by eapply filled_frame]. split_and!; [by rewrite F1|by rewrite F2|by rewrite F3|].
  rewrite <-E4. symmetry. pose proof (touches_same _ _ _ _ _ Ht Hsb) as Hs. by apply (load32_same _ _ _ _ _ 40 Hs).
Qed.

(** The bytes from [off] on of the file with inode [l] have been read: all that
    were asked for, or those before the first block that cannot be read. *)
Definition bytes_read (bs : Z) (l : list Z) (off len : Z) (m : mem) (buf r : Z) : Prop :=
  let want := Z.min len (Z.max 0 (inode_len l - off)) in
  0 ≤ r ≤ want ∧
  (∀ k, 0 ≤ k < r → byte_of bs (inode_blocks bs l) (off + k) = Some (rd m (buf + k))) ∧
  (r = want ∨ byte_of bs (inode_blocks bs l) (off + r) = None).

Lemma inode_read_data_large ino off buf len s : 0 ≤ ino → ino + 116 ≤ 4294967296 → ¬ size_fits (e_mem s) ino →
  wp (inode_read_data ino off buf len) (λ r s', r = -1 ∧ s' = s) s.
Proof.
  intros Hi Hie Hf. unfold inode_read_data, mem_now. wp_steps. offsets. rewrite (add32_small ino 108) by lia. unfold size_fits in Hf.
  replace (load32 (e_mem s) (ino + 108) =? 0) with false by lia. wp_steps. done.
Qed.

(** The buffers that [ext4_read_file] uses or must keep. *)
Definition read_places : list (Z * Z) := (file_ino, 116) :: take 6 places.

Lemma read_file_frames buf len : Forall (apart (buf, len)) read_places →
  let rs := (file_ino, 116) :: scratch ++ [(buf, len)] in
  Forall (apart (sb, 352)) rs ∧ Forall (apart (root_files, 4352)) rs ∧ apart (buf, len) (file_ino, 116) ∧ apart (buf, len) (block_buf, 4096).
Proof.
  intros Ha rs. pose proof file_ino_apart as Hf. unfold read_places, rs, scratch in *. cbn [take places app] in *.
  rewrite !Forall_cons in Ha. rewrite !Forall_cons in Hf.
  destruct Ha as (A1 & A2 & A3 & A4 & A5 & A6 & A7 & _). destruct Hf as (B1 & B2 & B3 & B4 & B5 & B6 & _).
  split_and!; [| |done|done]; each; first [by apply apart_sym|done|by apply (places_apart 0 1)|by apply (places_apart 0 2)|by apply (places_apart 0 3)
    |by apply (places_apart 0 5)|by apply (places_apart 4 1)|by apply (places_apart 4 2)|by apply (places_apart 4 3)|by apply (places_apart 4 5)].
Qed.

Lemma ext4_read_file_spec d t (i : nat) e off buf len s :
  mounted_ok d t s → t !! i = Some e →
  desc_ok (sup_bs d) (sup_ds d) ((e.2 - 1) / load32 d 40) ∨ e.2 = 0 →
  (∀ l, disk_inode (sup_bs d) (sup_isz d) (sup_ds d) (load32 d 40) e.2 = Some l → tree_ok (sup_bs d) (image l) 0) →
  0 ≤ off → 0 ≤ len < 2147483648 → off + len < 4294967296 → 0 ≤ buf → buf + len ≤ 4294967296 → Forall (apart (buf, len)) read_places →
  wp (ext4_read_file i off buf len) (λ r s', mounted_ok d t s' ∧
    match disk_inode (sup_bs d) (sup_isz d) (sup_ds d) (load32 d 40) e.2 with
    | None => r = -1
    | Some l => if inode_large l then r = -1 else bytes_read (sup_bs d) l off len (e_mem s') buf r
    end) s.
Proof.
  intros Hmo He Hdesc Htree Hoff Hlen Hol Hb Hbe Hap. pose proof Hmo as (Hm & Hgood & Hok & Hon & Hf).
  pose proof (mounted_on_sizes d s Hgood Hok Hon) as Hsz. destruct (read_file_frames buf len Hap) as (Hsb & Hrf & Hb1 & Hb2).
  pose proof Hon as (E1 & E2 & E3 & E4). destruct (good_size_bounds _ Hgood) as [Hr _]. pose proof file_ino_range as [Hfi Hfe]. range 1%nat.
  pose proof file_ino_apart as Hfa. cbn [take places] in Hfa. repeat rewrite Forall_cons in Hfa. destruct Hfa as (_ & Hfb & _ & Hfin & _).
  destruct (table_name _ _ _ _ Hf He) as (_ & _ & _ & _ & _ & Hent & Hino & Hrange). range 4%nat.
  pose proof Hf as (_ & Hcnt & _). apply lookup_lt_Some in He as Hi. unfold ext4_read_file. do 2 wp_step. rewrite Hm, Hcnt.
  replace (Z.of_nat i <? 0) with false by lia. replace (Z.of_nat (length t) <=? Z.of_nat i) with false by lia. cbn [negb orb]. offsets.
  rewrite (add32_small (entry_at i)), Hino by lia. wp_step.
  eapply wp_mono; [apply read_inode_spec; rewrite ?E1, ?E3, ?E4; try done; rewrite <-Hino; apply load32_range|]. rewrite E1, E2, E3, E4.
  intros r1 s1 (Hv1 & Ht1 & Hl). set (rs := (file_ino, 116) :: scratch ++ [(buf, len)]) in *.
  assert (Ht1' : touches rs (e_mem s) (e_mem s1)).
  { intros x Hx. apply Ht1. unfold rs in Hx. rewrite app_comm_cons in Hx. by apply Forall_app in Hx as [Hx _]. }
  pose proof (mounted_ok_frame d t s s1 rs Hmo Hv1 Ht1' Hsb Hrf) as Hmo1. destruct (disk_inode _ _ _ _ _) as [l|]; [|subst r1; cbn; wp_steps; done].
  destruct Hl as [-> Hg]. cbn [Z.ltb Z.compare]. destruct (inode_in_memory (sup_bs d) _ _ _ Hg (Htree l eq_refl)) as (Hh & Hlenl & Hfit).
  assert (Hbs1 : block_size s1 = sup_bs d) by (by destruct Hmo1 as (_ & _ & _ & (-> & _) & _)).
  destruct (inode_large l) eqn:El.
  { eapply wp_mono; [apply inode_read_data_large; [done|done|]|]; [intros Hx; by apply Hfit in Hx|]. intros r s2 [-> ->]. done. }
  unfold apart in Hfb, Hb1, Hb2. cbn [fst snd] in *.
  eapply wp_mono; [unshelve eapply (inode_read_data_spec _ _ file_ino off buf len (inode_blocks (sup_bs d) l)); rewrite ?Hbs1; try done; try lia; [by apply Hfit|unfold apart; cbn; lia..]|].
  cbn zeta. rewrite Hbs1, Hlenl. intros r s2 (Hv2 & Ht2 & Hres). split; [|exact Hres].
  eapply (mounted_ok_frame d t s1 s2 rs); try done. eapply touches_mono; [exact Ht2|]. unfold rs, scratch. cbn [app]. each.
  - right; left. split; cbn; lia.
  - do 5 right; left. split; cbn; lia.
Qed.
End ops.
