(* ===== verification/Ext4Props.v ===== *)
(** * What holds of the ext4 reader *)

From Stdlib Require Import Sorting.Sorted.
From S2P Require Import Prelude KString Bytes Ext4 Ext4Spec Ext4Read Ext4Inode Ext4Dir Ext4Mount Ext4Ops.

#[local] Opaque memcpy.

Section props.
Context {DK : Disk} {DOK : DiskOk} {EP : Ext4Places} {POK : PlacesOk}.

(** C30: On a well-formed tree [extent_find_physical] answers [pb] exactly when an extent of the
    file, in the inode or in any leaf of it, maps the block of the file to [pb] and lies in the first
    2^32 blocks of the disk; else it answers -1.  The length of an extent is the low 15 bits of
    [ee_len], as in the code, so an extent of 32768 blocks counts as empty. *)
Theorem extent_find_physical_correct ino lb s :
  good_size (block_size s) → 0 ≤ block_buf → block_buf + 4096 ≤ 4294967296 → 0 ≤ ino → ino + 100 ≤ 4294967296 →
  tree_ok (block_size s) (e_mem s) ino → tree_sorted (block_size s) (e_mem s) ino →
  wp (extent_find_physical ino lb) (λ p s', same_vars s s' ∧ changes block_buf (block_size s) (e_mem s) (e_mem s') ∧
    ∀ pb, p = Some pb ↔ ∃ x, x ∈ file_extents (block_size s) (e_mem s) ino ∧ maps_to x lb pb) s.
Proof.
  intros H1 H2 H3 H4 H5 H6 Hs. eapply wp_mono; [by apply extent_find_physical_spec|]. intros p s' (Hv & Hc & ->).
  split_and!; [done|done|]. intros pb. by apply block_map_iff.
Qed.
(** A directory block is read back as it was written: when the block buffer
    holds the encoding of a list of well-formed entries, [scan_block] adds exactly the visible
    ones to the table, with their names and inode numbers and in their order: all but
    unused entries, [.], [..] and names of 64 characters or more, as far as the table has room. *)
Theorem scan_block_roundtrip es l s :
  Forall dirent_ok es → (length (encode_dir es) ≤ 4096)%nat → get_bytes (e_mem s) block_buf (length (encode_dir es)) = encode_dir es →
  filled s l → (length l < 64)%nat →
  wp (scan_block (S (length (encode_dir es))) (length (encode_dir es)) 0)
    (λ _ s', same_sizes s s' ∧ touches dir_places (e_mem s) (e_mem s') ∧ filled s' (l ++ take (64 - length l) (visible es))) s.
Proof.
  intros Hok Hn Hg Hf Hl. apply get_bytes_same in Hg as Hs. set (n := length (encode_dir es)) in *.
  eapply wp_mono; [apply (scan_block_spec (S n) n (put_bytes ∅ 0 (encode_dir es)) 0 l); done || lia|]. intros [] s' (Hv & Ht & l' & Hfill & Hpar). split_and!; [done|done|].
  destruct (parse_encode (S n) es (encode_dir es) [] Hok (encode_dir_is es Hok) eq_refl) as [Hp Hfit].
  { clear -Hok. unfold n. clear n. induction Hok as [|e es He _ IH]; cbn; [lia|]. pose proof (length_encode e He). destruct He as (_ & ? & _).
    unfold encode_dir in *. rewrite length_app. lia. }
  change (Z.of_nat (@length Z [])) with 0 in Hp, Hfit. fold n in Hp, Hfit. rewrite Hp in Hpar. by rewrite <-(Hpar Hfit).
Qed.

(** C32: A mount of a sane disk returns: 0 without any change if there is a
    mounted disk; otherwise one of the codes -10 to -16 for the first step that
    fails (driver, superblock sectors, magic number, block size, number of
    groups, root directory), and then no disk is mounted; or 0, and then the
    variables are those of the superblock, the table holds files with proper
    names, and nothing but the objects of the file system has been written.  If
    moreover every entry of the root directory lies inside its block, the table
    holds the first 64 visible entries of that directory.  A disk is sane
    ([super_sane]) if its superblock cannot be read or has another magic number,
    or else its logarithmic block size is below 22 and, when it is at most 2, the
    inode size is at least 116 and at most the block size, the descriptor size
    is positive and at most the block size, there are blocks and inodes in a
    group, the inodes of a group take less than 2^32 bytes, the descriptor of the
    root's group lies in its block, and the root's extent tree stays inside its
    inode and its blocks, with a size of at most 2^32 - 4096.  The code tests none
    of this; on other disks it divides by zero or leaves its buffers. *)
Theorem ext4_mount_correct s : super_sane →
  wp ext4_mount (λ r s',
    if mounted s then r = 0 ∧ s' = s
    else r = mount_result ∧ mounted s' = (r =? 0) ∧ touches mount_places (e_mem s) (e_mem s') ∧ (r = 0 → mount_done s')) s.
Proof.
  intros Hs. destruct (mounted s) eqn:E; [|by apply ext4_mount_spec]. unfold ext4_mount. do 2 wp_step. rewrite E. by wp_steps.
Qed.

(** ** Any sequence of calls *)

Inductive ext4_call := Mount | Lookup (name : list Z) | Listdir (buf len : Z) | ReadFile (index offset buf len : Z).
Definition run_call (c : ext4_call) : km ext4_state Z :=
  match c with
  | Mount => ext4_mount
  | Lookup name => ext4_lookup name
  | Listdir buf len => ext4_listdir buf len
  | ReadFile index offset buf len => ext4_read_file index offset buf len
  end.
Fixpoint run_calls (cs : list ext4_call) : km ext4_state unit :=
  match cs with
  | [] => kret tt
  | c :: cs' => let! _ := run_call c in run_calls cs'
  end.
(** A buffer of the caller, apart from the objects of the file system. *)
Definition buffer_ok (buf len : Z) : Prop :=
  0 ≤ buf ∧ 0 ≤ len < 2147483648 ∧ buf + len ≤ 4294967296 ∧ Forall (apart (buf, len)) read_places.
Definition call_ok (c : ext4_call) : Prop :=
  match c with
  | Listdir buf len => buffer_ok buf len
  | ReadFile index offset buf len => buffer_ok buf len ∧ 0 ≤ offset ∧ offset + len < 4294967296
  | _ => True
  end.
(** The inodes of the files are sound. *)
Definition files_ok (d : mem) (t : list dir_entry) : Prop :=
  ∀ e, e ∈ t → desc_ok (sup_bs d) (sup_ds d) ((e.2 - 1) / load32 d 40) ∧
    ∀ l, disk_inode (sup_bs d) (sup_isz d) (sup_ds d) (load32 d 40) e.2 = Some l → tree_ok (sup_bs d) (image l) 0.

Lemma listdir_keeps d t buf len s : mounted_ok d t s → buffer_ok buf len → wp (ext4_listdir buf len) (λ _, mounted_ok d t) s.
Proof.
  intros Hm (Hb & Hl & He & Ha). destruct (decide (buf = 0 ∨ len = 0)) as [H0|].
  { unfold ext4_listdir. do 2 wp_step. rewrite <-orb_assoc. replace ((buf =? 0) || (len =? 0)) with true by lia. rewrite orb_true_r. by wp_steps. }
  pose proof Ha as Ha'. unfold read_places in Ha'. cbn [take places] in Ha'. rewrite !Forall_cons in Ha'. destruct Ha' as (_ & A1 & _ & _ & _ & A5 & _).
  eapply wp_mono; [apply (ext4_listdir_spec d t); done || lia|]. intros r s' (Hv & Hc & _).
  eapply (mounted_ok_frame d t s s' [(buf, len)]); [done|done|eapply changes_touches; [exact Hc|by left|split; cbn; lia]|each; by apply apart_sym..].
Qed.

Lemma read_file_keeps d t i off buf len s : mounted_ok d t s → files_ok d t → buffer_ok buf len → 0 ≤ off → off + len < 4294967296 →
  wp (ext4_read_file i off buf len) (λ _, mounted_ok d t) s.
Proof.
  intros Hm Hf (Hb & Hl & He & Ha) Hoff Hol. pose proof Hm as (Hmt & _ & _ & _ & _ & Hcnt & _).
  destruct (decide (0 ≤ i < root_file_count s)) as [Hi|Hi].
  - destruct (lookup_lt_is_Some_2 t (Z.to_nat i) ltac:(lia)) as [e Ht]. destruct (Hf e) as [Hd Htr]; [by eapply list_elem_of_lookup_2|].
    rewrite <-(Z2Nat.id i) by lia. eapply wp_mono; [eapply (ext4_read_file_spec d t _ e); try done; by left|]. by intros r s' [? _].
  - unfold ext4_read_file. do 2 wp_step. rewrite <-orb_assoc. replace ((i <? 0) || (root_file_count s <=? i)) with true by lia. rewrite orb_true_r. by wp_steps.
Qed.

Lemma call_keeps d t c s : mounted_ok d t s → files_ok d t → call_ok c → wp (run_call c) (λ _, mounted_ok d t) s.
Proof.
  intros Hm Hf Hc. destruct c as [|name|buf len|i off buf len]; cbn [run_call].
  - destruct Hm as [Hmt Hm]. unfold ext4_mount. do 2 wp_step. rewrite Hmt. by wp_steps.
  - eapply wp_mono; [by apply (ext4_lookup_spec d t)|]. by intros r s' [-> _].
  - by apply listdir_keeps.
  - destruct Hc as (? & ? & ?). by apply read_file_keeps.
Qed.

(** C31: Once a disk is mounted, it stays well formed: if the files in the table
    are sound, then, whatever calls with proper arguments follow, each of them
    returns, and the table still holds the same at most 64 files, each with a
    name of 1 to 63 bytes and its NUL, and the sizes are still those of the
    superblock and fit the buffers.  A file is sound ([files_ok]) if the 44 bytes
    the code takes for the descriptor of its group lie in one block and the
    extent tree of its inode, where that can be read, stays inside the inode and
    its blocks.  Arguments are proper ([call_ok]) if a buffer lies below the end
    of memory, has less than 2^31 bytes and is apart from the objects of the file
    system, and the offset of a read plus its length is less than 2^32. *)
Theorem ext4_stays_mounted d t cs s : mounted_ok d t s → files_ok d t → Forall call_ok cs →
  wp (run_calls cs) (λ _, mounted_ok d t) s.
Proof.
  intros Hm Hf. revert s Hm. induction cs as [|c cs IH]; intros s Hm Hc; cbn [run_calls]; [by wp_steps|].
  apply Forall_cons in Hc as [Hc Hcs]. wp_step. eapply wp_mono; [by apply (call_keeps d t)|]. intros r s' Hm'. by apply IH.
Qed.

(** C33: [ext4_listdir] writes the names of the files, in order and each with a newline, as many as fit with a NUL
    behind them: it returns the length of this text, which is less than the length of the buffer, and writes nothing outside the
    buffer. *)
Theorem ext4_listdir_correct d t buf len s :
  mounted_ok d t s → apart (buf, len) (root_files, 4352) → 0 < buf → buf + len ≤ 4294967296 → 0 < len < 2147483648 →
  wp (ext4_listdir buf len) (λ r s', same_vars s s' ∧ changes buf len (e_mem s) (e_mem s') ∧ 0 ≤ r < len ∧
    r = length (list_text t len) ∧ get_bytes (e_mem s') buf (r + 1) = list_text t len ++ [0]) s.
Proof.
  intros Hm Ha Hb Hbe Hlen. eapply wp_mono; [by apply (ext4_listdir_spec d t)|]. intros r s' (Hv & Hc & Hr & Hg).
  pose proof (list_text_length t len ltac:(lia)). split_and!; done || lia.
Qed.

(** C14: A file is read by its name.  On a sane disk that can be mounted and
    whose root directory, with all entries inside their blocks, lists [name]
    among its first 64 visible entries: [ext4_mount] returns 0, [ext4_lookup]
    then returns the place of the first entry with that name, and
    [ext4_read_file] at this place, into a buffer apart from the objects of the
    file system, delivers the bytes of the file of that inode: as many as it has
    and the buffer takes, or those before the first block that cannot be read.
    This holds for a file whose inode the code can find: the 44 bytes it takes
    for the descriptor of the inode's group lie in one block and show an inode
    table below block 2^32 (with 32-byte descriptors these bytes reach into the
    next descriptor, and the condition fails for all groups but the last), the
    blocks of the inode can be read, its size is below 2^32, and its extent tree
    stays inside the inode and its blocks. *)
Theorem ext4_read_by_name d l k e lf name buf len s :
  super_sane → mounted s = false → mount_result = 0 → super_image = Some d → sup_root d = Some l →
  listing_fits (sup_bs d) (inode_blocks (sup_bs d) l) (inode_len l) →
  list_find (λ e, cstr e.1 = name) (take 64 (root_listing (sup_bs d) l)) = Some (k, e) →
  desc_ok (sup_bs d) (sup_ds d) ((e.2 - 1) / load32 d 40) →
  disk_inode (sup_bs d) (sup_isz d) (sup_ds d) (load32 d 40) e.2 = Some lf → inode_large lf = false → tree_ok (sup_bs d) (image lf) 0 →
  buffer_ok buf len →
  wp ext4_mount (λ r s1, r = 0 ∧
    wp (ext4_lookup name) (λ i s2, i = k ∧
      wp (ext4_read_file i 0 buf len) (λ n s3, bytes_read (sup_bs d) lf 0 len (e_mem s3) buf n) s2) s1) s.
Proof.
  intros Hsane Hmt Hres Hd Hl Hfits Hfind Hdesc Hlf Hlarge Htree (Hb & Hlen & Hbe & Ha).
  eapply wp_mono; [by apply ext4_mount_spec|]. intros r s1 (-> & Hm1 & _ & Hdone). rewrite Hres in *. split; [done|].
  destruct (Hdone eq_refl) as (d' & l' & t & Hd' & Hl' & Hgood & Hok & Hon & Hfill & Hlist).
  assert (d' = d) as -> by congruence. assert (l' = l) as -> by congruence. specialize (Hlist Hfits).
  assert (Hmo : mounted_ok d t s1) by done.
  eapply wp_mono; [by apply (ext4_lookup_spec d t)|]. rewrite Hlist, Hfind. intros i s2 [-> ->]. split; [done|].
  apply list_find_Some in Hfind as (He & _). eapply wp_mono; [eapply (ext4_read_file_spec d t k e); try done; [by rewrite Hlist|by left|by rewrite Hlf; intros ? [= <-]|lia]|].
  rewrite Hlf, Hlarge. by intros n s3 [_ ?].
Qed.
End props.

(** ** A small disk *)

Module Demo.
(** A sector with the given bytes at the given offsets. *)
Definition sector (fields : list (Z * Z)) : list Z := get_bytes (foldr (λ f m, wr m f.1 f.2) ∅ fields) 0 512.
(** Blocks of 1024 bytes: superblock in 1, group descriptors in 2, inodes from 3 on, root directory in 5 with a file "a" of inode 3,
    whose bytes "hi" are in 6; inode 4 has its extents in the leaf block 7. *)
Definition content (k : Z) : list (Z * Z) :=
  match k with
  | 2 => [(4, 64); (33, 32); (40, 16); (56, 83); (57, 239); (88, 128)]
  | 4 => [(8, 3)]
  | 6 => [(133, 4); (168, 10); (169, 243); (170, 1); (184, 1); (188, 5);
          (260, 2); (296, 10); (297, 243); (298, 1); (312, 1); (316, 6);
          (389, 8); (424, 10); (425, 243); (426, 1); (430, 1); (440, 7)]
  | 10 => [(0, 2); (4, 12); (6, 1); (8, 46); (12, 2); (16, 12); (18, 2); (20, 46); (21, 46);
           (24, 3); (28, 232); (29, 3); (30, 1); (31, 1); (32, 97)]
  | 12 => [(0, 104); (1, 105)]
  | 14 => [(0, 10); (1, 243); (2, 2); (16, 1); (20, 6); (24, 5); (28, 2); (32, 20)]
  | _ => []
  end.
#[local] Instance disk : Disk := {| disk_init := 0; disk_read k := (0, sector (content k)) |}.
#[local] Instance disk_ok : DiskOk.
Proof. constructor. intros k. left. cbn [disk_read disk fst snd]. split_and!; [done|unfold sector; by rewrite length_get_bytes|apply get_bytes_is]. Qed.
#[local] Instance spots : Ext4Places :=
  {| sb := 4096; block_buf := 8192; block_buf2 := 12288; inode_buf := 16384; root_files := 24576; gd := 32768;
     sbraw := 33024; root_ino := 36864; name_buf := 37120; file_ino := 37376 |}.
#[local] Instance spots_ok : PlacesOk.
Proof.
  constructor.
  - intros i r H. do 9 (destruct i as [|i]; [injection H as <-; cbn; lia|]). done.
  - intros i j r r' Hi Hj Hne.
    do 9 (destruct i as [|i]; [injection Hi as <-; do 9 (destruct j as [|j]; [injection Hj as <-; (done || (unfold apart; cbn; lia))|]); done|]). done.
  - cbn. lia.
  - cbn. each; unfold apart; cbn; lia.
Qed.
Definition start : ext4_state := Ext4State ∅ 0 0 0 0 false 0.
Definition super : mem := image (sector (content 2) ++ sector (content 3)).
Definition root : list Z := default [] (sup_root super).
Definition file_a : list Z := default [] (disk_inode 1024 128 32 16 3).

Lemma super_is : super_image = Some super.
Proof. reflexivity. Qed.
Lemma sizes_are : sup_bs super = 1024 ∧ sup_isz super = 128 ∧ sup_ds super = 32 ∧ load32 super 32 = 8192 ∧ load32 super 40 = 16 ∧ load32 super 24 = 0.
Proof. vm_compute. done. Qed.
Lemma root_is : sup_root super = Some root.
Proof. vm_compute. reflexivity. Qed.
Lemma root_tree : tree_ok 1024 (image root) 0.
Proof. split; [vm_compute; discriminate|]. intros H. vm_compute in H. discriminate. Qed.
Lemma file_a_is : disk_inode 1024 128 32 16 3 = Some file_a.
Proof. vm_compute. reflexivity. Qed.
Lemma file_a_tree : tree_ok 1024 (image file_a) 0.
Proof. split; [vm_compute; discriminate|]. intros H. vm_compute in H. discriminate. Qed.
Lemma desc0 g : 0 ≤ g < 32 → desc_ok 1024 32 (g / 16).
Proof.
  intros Hg. assert (Hd : g / 16 = 0 ∨ g / 16 = 1) by (Z.div_mod_to_equations; lia). unfold desc_ok, desc_off.
  destruct Hd as [-> | ->]; vm_compute; split_and!; discriminate || done.
Qed.

Lemma super_ok_by d l : sup_bs d = 1024 ∧ sup_isz d = 128 ∧ sup_ds d = 32 ∧ load32 d 32 = 8192 ∧ load32 d 40 = 16 ∧ load32 d 24 = 0 →
  sup_root d = Some l → root_ok 1024 l → super_ok d.
Proof.
  intros (E1 & E2 & E3 & E4 & E5 & E6) Hr Hok. unfold super_ok. rewrite Hr, E1, E2, E3, E4, E5.
  split_and!; [lia..|by apply (desc0 1)|]. intros ? [= <-]. done.
Qed.
Lemma sane : super_sane.
Proof.
  intros d Hd _. rewrite super_is in Hd. apply Some_inj in Hd. subst d. split; [by rewrite (proj2 (proj2 (proj2 (proj2 (proj2 sizes_are)))))|].
  intros _. apply (super_ok_by super root sizes_are root_is). split; [exact root_tree|vm_compute; discriminate].
Qed.

Lemma listing : root_listing 1024 root = [([97], 3)].
Proof. vm_compute. reflexivity. Qed.
Lemma one_block_fits fb b : fb 0 = Some b → dir_fits (part 1024 1024 0 b) 1024 = true → listing_fits 1024 fb 1024.
Proof.
  intros Hfb Hd off b' [H0 H1] Hm Hb. assert (off = 0) as -> by (rewrite Z.mod_small in Hm; lia).
  change (0 / 1024) with 0 in Hb. rewrite Hfb in Hb. by injection Hb as <-.
Qed.
Lemma root_fits : listing_fits 1024 (inode_blocks 1024 root) (inode_len root).
Proof.
  replace (inode_len root) with 1024 by (vm_compute; reflexivity).
  apply (one_block_fits _ (default [] (inode_blocks 1024 root 0))); vm_compute; reflexivity.
Qed.
Lemma mounts : mount_result = 0.
Proof. vm_compute. reflexivity. Qed.

(** The state behind a mount. *)
Definition final {S A} (c : km S A) (s : S) : S := match c s with Done (_, s') => s' | _ => s end.
Lemma wp_final {S A} (c : km S A) (Q : A → S → Prop) s : wp c Q s → ∃ a, Q a (final c s).
Proof. intros H. apply wp_elim in H as (a & s' & Hc & HQ). unfold final. rewrite Hc. by exists a. Qed.
Definition after : ext4_state := final ext4_mount start.
Definition files : list dir_entry := [([97], 3)].

Lemma after_ok : mounted_ok super files after.
Proof.
  destruct (wp_final _ _ _ (ext4_mount_spec start sane eq_refl)) as (r & -> & Hm & _ & Hdone). fold after in Hm, Hdone.
  generalize dependent after. intros s' Hm Hdone. rewrite mounts in *. destruct (Hdone eq_refl) as (d & l & t & Hd & Hl & Hg & Hok & Hon & Hf & Hlist).
  rewrite super_is in Hd. apply Some_inj in Hd. subst d. rewrite root_is in Hl. apply Some_inj in Hl. subst l. rewrite (proj1 sizes_are) in Hlist.
  specialize (Hlist root_fits). rewrite listing in Hlist. subst t. by split_and!.
Qed.

Lemma files_fine : files_ok super files.
Proof.
  intros e He. apply list_elem_of_singleton in He as ->. cbn [snd]. destruct sizes_are as (-> & -> & -> & _ & -> & _). split; [by apply (desc0 2)|].
  rewrite file_a_is. intros l Hl. apply Some_inj in Hl. subst l. exact file_a_tree.
Qed.

(** Inode 4 in memory, with its one leaf. *)
Definition with_tree : ext4_state := Ext4State (put_bytes ∅ 37376 (default [] (disk_inode 1024 128 32 16 4))) 1024 128 1 32 true 0.
Lemma tree_index : indexes (e_mem with_tree) (37376 + 52) 0 (load16 (e_mem with_tree) (37376 + 42)) = [Index 0 7 0].
Proof. vm_compute. reflexivity. Qed.
Lemma tree_leaf : leaf_of 1024 (Index 0 7 0) = [Extent 0 1 0 6; Extent 5 2 0 20].
Proof. vm_compute. reflexivity. Qed.
Lemma tree_fine : tree_ok 1024 (e_mem with_tree) 37376.
Proof.
  split; [vm_compute; discriminate|]. intros _ x l Hx Hl. rewrite tree_index in Hx. apply list_elem_of_singleton in Hx. subst x. cbn [n_lo] in Hl.
  assert (Hb : disk_block 1024 7 = Some (default [] (disk_block 1024 7))) by (vm_compute; reflexivity). rewrite Hb in Hl. apply Some_inj in Hl. subst l.
  vm_compute. discriminate.
Qed.
Lemma tree_in_order : tree_sorted 1024 (e_mem with_tree) 37376.
Proof.
  split; [intros H; vm_compute in H; discriminate|]. intros _. cbn zeta. rewrite tree_index. split; [repeat constructor|].
  intros x Hx. apply list_elem_of_singleton in Hx. subst x. rewrite tree_leaf. split.
  - split; [each; unfold extent_ok, x_end; cbn; lia|]. apply SSorted_cons; [|each; unfold x_end; cbn; lia]. apply SSorted_cons; [apply SSorted_nil|each].
  - intros e He. split; [|intros y Hy; apply list_elem_of_singleton in Hy; subst y; cbn; lia].
    apply elem_of_cons in He as [->|He]; [cbn; lia|]. apply list_elem_of_singleton in He as ->. cbn. lia.
Qed.

(** A directory block with three entries, one of them unused. *)
Definition some_dir : list dirent := [Dirent 3 12 1 [97]; Dirent 0 16 0 [98]; Dirent 7 20 1 [99; 100]].
Definition with_dir : ext4_state := Ext4State (put_bytes ∅ 8192 (encode_dir some_dir)) 1024 128 1 32 true 0.

Lemma buf_ok : buffer_ok 40960 16.
Proof. split_and!; [lia..|]. cbn. each; unfold apart; cbn; lia. Qed.
End Demo.

#[local] Existing Instance Demo.disk.
#[local] Existing Instance Demo.disk_ok.
#[local] Existing Instance Demo.spots.
#[local] Existing Instance Demo.spots_ok.

Lemma ext4_mount_correct_witness : wp ext4_mount (λ r s', r = 0 ∧ mount_done s') Demo.start.
Proof.
  eapply wp_mono; [apply (ext4_mount_correct Demo.start Demo.sane)|]. intros r s' (-> & _ & _ & Hd). split; [exact Demo.mounts|exact (Hd Demo.mounts)].
Defined.

Lemma ext4_stays_mounted_witness :
  wp (run_calls [Lookup [97]; ReadFile 0 0 40960 16; ReadFile 5 0 40960 16; Listdir 40960 16]) (λ _, mounted_ok Demo.super Demo.files) Demo.after.
Proof.
  apply (ext4_stays_mounted _ _ _ _ Demo.after_ok Demo.files_fine). each; cbn [call_ok]; try exact I; try (split; [|lia]); exact Demo.buf_ok.
Defined.

Lemma ext4_listdir_correct_witness :
  wp (ext4_listdir 40960 16) (λ r s', r = 2 ∧ get_bytes (e_mem s') 40960 3 = [97; 10; 0]) Demo.after.
Proof.
  eapply wp_mono; [apply (ext4_listdir_correct _ _ 40960 16 _ Demo.after_ok); [unfold apart; cbn; lia|lia..]|].
  intros r s' (_ & _ & _ & -> & Hg). split; [reflexivity|exact Hg].
Defined.

Lemma ext4_read_by_name_witness :
  wp ext4_mount (λ r s1, r = 0 ∧ wp (ext4_lookup [97]) (λ i s2, i = 0 ∧
    wp (ext4_read_file i 0 40960 16) (λ n s3, n = 2 ∧ rd (e_mem s3) 40960 = 104 ∧ rd (e_mem s3) 40961 = 105) s2) s1) Demo.start.
Proof.
  destruct Demo.sizes_are as (E1 & E2 & E3 & _ & E5 & _).
  eapply wp_mono; [apply (ext4_read_by_name Demo.super Demo.root 0 ([97], 3) Demo.file_a [97] 40960 16 Demo.start Demo.sane eq_refl Demo.mounts Demo.super_is Demo.root_is);
    rewrite ?E1, ?E2, ?E3, ?E5; [exact Demo.root_fits|rewrite Demo.listing; reflexivity|apply (Demo.desc0 2); lia|exact Demo.file_a_is|vm_compute; reflexivity|exact Demo.file_a_tree|exact Demo.buf_ok]|].
  rewrite E1. intros r s1 [-> H]. split; [reflexivity|]. eapply wp_mono; [exact H|]. clear H. intros i s2 [-> H]. split; [reflexivity|].
  eapply wp_mono; [exact H|]. clear H. intros n s3 (Hn & Hk & He).
  assert (Hw : Z.min 16 (Z.max 0 (inode_len Demo.file_a - 0)) = 2) by (vm_compute; reflexivity). rewrite Hw in Hn, He. clear Hw.
  assert (Hb0 : byte_of 1024 (inode_blocks 1024 Demo.file_a) 0 = Some 104) by (vm_compute; reflexivity).
  assert (Hb1 : byte_of 1024 (inode_blocks 1024 Demo.file_a) 1 = Some 105) by (vm_compute; reflexivity).
  destruct He as [->|He].
  - pose proof (Hk 0 ltac:(lia)) as H0. pose proof (Hk 1 ltac:(lia)) as H1. change (0 + 0) with 0 in H0. change (0 + 1) with 1 in H1.
    rewrite Hb0 in H0. rewrite Hb1 in H1. apply Some_inj in H0, H1. change (40960 + 0) with 40960 in H0. change (40960 + 1) with 40961 in H1. split_and!; [reflexivity|exact (eq_sym H0)|exact (eq_sym H1)].
  - exfalso. assert (Hc : n = 0 ∨ n = 1 ∨ n = 2) by (clear -Hn; lia). clear -He Hc. destruct Hc as [E|[E|E]]; rewrite E in He; vm_compute in He; discriminate.
Defined.

Lemma extent_find_physical_correct_witness : wp (extent_find_physical 37376 6) (λ p _, p = Some 21) Demo.with_tree.
Proof.
  eapply wp_mono; [apply (extent_find_physical_correct 37376 6 Demo.with_tree); [by left|cbn; lia..|exact Demo.tree_fine|exact Demo.tree_in_order]|].
  intros p s' (_ & _ & H). apply H. exists (Extent 5 2 0 20). split; [|unfold maps_to, covers, x_end; cbn; lia].
  change (file_extents _ _ _) with (indexes (e_mem Demo.with_tree) (37376 + 52) 0 (load16 (e_mem Demo.with_tree) (37376 + 42)) ≫= leaf_of 1024).
  rewrite Demo.tree_index. cbn [mbind list_bind]. rewrite Demo.tree_leaf. right; left.
Defined.

Lemma scan_block_roundtrip_witness : wp (scan_block 49 48 0) (λ _ s', filled s' [([97], 3); ([99; 100], 7)]) Demo.with_dir.
Proof.
  eapply wp_mono; [apply (scan_block_roundtrip Demo.some_dir [] Demo.with_dir)|].
  - unfold Demo.some_dir, dirent_ok, is_u32, is_bytes. repeat (apply List.Forall_cons || apply List.Forall_nil || split); cbn; lia.
  - vm_compute. lia.
  - vm_compute. reflexivity.
  - split_and!; [by intros i e ?|done|cbn; lia].
  - cbn. lia.
  - intros [] s' (_ & _ & H). exact H.
Defined.
