(* ===== verification/UserUtil.v ===== *)
(** * Helpers of the shell, [src/kernel/apps/user_util.c] and the file table of [user_fm.c]

    A string that is only read is the list of its characters up to the NUL; an array
    that is written is the list of all its bytes. *)

From S2P Require Import Prelude KString Fs FsSpec.

Definition SHELL_MAX_LINE : nat := 128.
Definition SHELL_MAX_ARGS : nat := 12.
Definition HIST_MAX : Z := 16.
Definition HIST_LINE_MAX : nat := 128.
Definition FM_NAME_MAX : nat := 64.
Definition FILE_DB_MAX : Z := 64.

(** The string at the start of an array. *)
Fixpoint str_at (l : list Z) : list Z :=
  match l with
  | [] => []
  | c :: l' => if c =? 0 then [] else c :: str_at l'
  end.

(** ** Strings *)

(** [while (i < max - 1 && src[i]) { dst[i] = src[i]; i++; } dst[i] = '\0';] *)
Fixpoint copy_lim_loop (dst src : list Z) (i max : nat) : list Z :=
  match src with
  | c :: src' => if (i <? max - 1)%nat then copy_lim_loop (<[i := c]> dst) src' (S i) max else <[i := 0]> dst
  | [] => <[i := 0]> dst
  end.
Definition str_copy_lim (dst src : list Z) (max : nat) : list Z :=
  match max with O => dst | _ => copy_lim_loop dst src 0 max end.

(** [str_eq] with null pointers; on strings it is that of [fs.c]. *)
Definition str_eq_ptr (a b : option (list Z)) : bool :=
  match a, b with
  | Some a, Some b => str_eq a b
  | None, None => true
  | _, _ => false
  end.

Definition ascii_lower (c : Z) : Z := if (65 <=? c) && (c <=? 90) then c + (97 - 65) else c.

(** [while ( *s) { if (ascii_lower( *s) != ascii_lower( *suffix)) return 0; s++; suffix++; }] *)
Fixpoint same_ci (s suffix : list Z) : bool :=
  match s with
  | [] => true
  | c :: s' => (ascii_lower c =? ascii_lower (hd 0 suffix)) && same_ci s' (tl suffix)
  end.
Definition str_ends_with_ci (s suffix : list Z) : bool :=
  if (length s <? length suffix)%nat then false else same_ci (drop (length s - length suffix) s) suffix.

(** ** Numbers *)

(** Signed arithmetic of C: no value on overflow. *)
Definition int_ok (x : Z) : option Z := if (-2147483648 <=? x) && (x <=? 2147483647) then Some x else None.

(** The digits of [str_to_int]: [None] for overflow, [Some None] for a character that is no digit. *)
Fixpoint digits_loop (s : list Z) (val : Z) : option (option Z) :=
  match s with
  | [] => Some (Some val)
  | c :: s' =>
      if (c <? 48) || (57 <? c) then Some None
      else v ← int_ok (val * 10); v ← int_ok (v + (c - 48)); digits_loop s' v
  end.
(** The result, with [*out] if it is 0. *)
Definition str_to_int (s : list Z) : option (Z * option Z) :=
  let '(sign, s) := match s with 45 :: s' => (-1, s') | _ => (1, s) end in
  match s with
  | [] => Some (-1, None)
  | _ => r ← digits_loop s 0;
      match r with
      | None => Some (-1, None)
      | Some val => v ← int_ok (val * sign); Some (0, Some v)
      end
  end.

(** [while (v > 0) { buf[i++] = '0' + v % 10; v /= 10; }]: [buf] backwards, as it is printed. *)
Fixpoint dec_digits (fuel : nat) (v : Z) (buf : list Z) : list Z :=
  match fuel with
  | O => buf
  | S fuel' => if 0 <? v then dec_digits fuel' (v / 10) (48 + v mod 10 :: buf) else buf
  end.
(** The characters [put_dec] prints; a number of type [int] has at most 10 digits. *)
Definition put_dec (v : Z) : option (list Z) :=
  let minus := if v <? 0 then [45] else [] in
  w ← (if v <? 0 then int_ok (- v) else Some v);
  if w =? 0 then Some (minus ++ [48]) else Some (minus ++ dec_digits 10 w []).

(** ** Splitting a line *)

Definition is_blank (c : Z) : bool := (c =? 32) || (c =? 9) || (c =? 10) || (c =? 13).

(** The inner loops, on the array from [line] on: how many blanks are overwritten, and the rest; the
    characters of a word, and the rest.  [None] when the array ends without a NUL. *)
Fixpoint skip_blanks (l : list Z) : option (nat * list Z) :=
  match l with
  | [] => None
  | c :: l' => if negb (c =? 0) && is_blank c then '(n, r) ← skip_blanks l'; Some (S n, r) else Some (O, l)
  end.
Fixpoint skip_word (l : list Z) : option (list Z * list Z) :=
  match l with
  | [] => None
  | c :: l' => if negb (c =? 0) && negb (is_blank c) then '(w, r) ← skip_word l'; Some (c :: w, r) else Some ([], l)
  end.
(** [argv] as offsets into the array, and the array from [line] on when the loop is done. *)
Fixpoint split_loop (fuel : nat) (l : list Z) (pos argc max_args : nat) : option (list nat * list Z) :=
  match fuel, l with
  | S fuel', c :: _ =>
      if negb (c =? 0) && (argc <? max_args)%nat then
        '(n, r) ← skip_blanks l;
        match r with
        | [] => None
        | c' :: _ =>
            if c' =? 0 then Some ([], replicate n 0 ++ r)
            else
              '(w, r') ← skip_word r;
              '(argv, out) ← split_loop fuel' r' (pos + n + length w) (S argc) max_args;
              Some ((pos + n)%nat :: argv, replicate n 0 ++ w ++ out)
        end
      else Some ([], l)
  | _, _ => None
  end.
Definition split_args (line : list Z) (max_args : nat) : option (list nat * list Z) := split_loop (S (length line)) line 0 0 max_args.
Definition arg_at (line : list Z) (off : nat) : list Z := str_at (drop off line).

(** ** Text buffer *)

(** [g_textbuf] with [*pos]. *)
Definition append_char (limit : nat) (c : Z) (b : list Z * nat) : list Z * nat :=
  let '(buf, pos) := b in
  if (pos <? limit - 1)%nat then (<[S pos := 0]> (<[pos := c]> buf), S pos) else (buf, pos).
Definition append_str (limit : nat) (s : list Z) (b : list Z * nat) : list Z * nat := foldl (λ b c, append_char limit c b) b s.
(** The digits are those of the value as an [unsigned int]. *)
Definition append_dec (limit : nat) (v : Z) (b : list Z * nat) : option (list Z * nat) :=
  let b := if v <? 0 then append_char limit 45 b else b in
  w ← (if v <? 0 then int_ok (- v) else Some v);
  if w =? 0 then Some (append_char limit 48 b) else Some (append_str limit (dec_digits 10 w []) b).

(** ** History *)

Record shell_history := ShellHistory {
  h_count : Z; h_next : Z; h_browse_pos : Z; h_entries : list (list Z); h_scratch : list Z; h_scratch_valid : bool }.
Definition set_browse p h := ShellHistory (h_count h) (h_next h) p (h_entries h) (h_scratch h) (h_scratch_valid h).
Definition set_scratch l b h := ShellHistory (h_count h) (h_next h) (h_browse_pos h) (h_entries h) l b.

Definition history_init (h : shell_history) : shell_history := ShellHistory 0 0 (-1) (h_entries h) (h_scratch h) false.
Definition history_cancel (h : shell_history) : shell_history := set_scratch (h_scratch h) false (set_browse (-1) h).
Definition entry (h : shell_history) (i : Z) : list Z := str_at (default [] (aget (h_entries h) i)).

(** [None] is [NULL]. *)
Definition history_prev (h : shell_history) (current : list Z) : option (list Z) * shell_history :=
  if h_count h =? 0 then (None, h)
  else if h_browse_pos h <? 0 then
    let h := set_scratch (str_copy_lim (h_scratch h) current HIST_LINE_MAX) true h in
    let h := set_browse ((h_next h + h_count h - 1) mod HIST_MAX) h in
    (Some (entry h (h_browse_pos h)), h)
  else
    let oldest := if h_count h =? HIST_MAX then h_next h else 0 in
    if h_browse_pos h =? oldest then (Some (entry h (h_browse_pos h)), h)
    else
      let h := set_browse ((h_browse_pos h + HIST_MAX - 1) mod HIST_MAX) h in
      (Some (entry h (h_browse_pos h)), h).

Definition history_next (h : shell_history) : option (list Z) * shell_history :=
  if h_browse_pos h <? 0 then (None, h)
  else
    let last := (h_next h + h_count h - 1) mod HIST_MAX in
    if h_browse_pos h =? last then (Some (if h_scratch_valid h then str_at (h_scratch h) else []), set_browse (-1) h)
    else
      let h := set_browse ((h_browse_pos h + 1) mod HIST_MAX) h in
      (Some (entry h (h_browse_pos h)), h).

Definition history_push (h : shell_history) (line : option (list Z)) : shell_history :=
  match line with
  | None | Some [] => h
  | Some line =>
      let prev := (h_next h + h_count h - 1) mod HIST_MAX in
      if (0 <? h_count h) && str_eq (entry h prev) line then h
      else
        let old := default [] (aget (h_entries h) (h_next h)) in
        ShellHistory (if h_count h <? HIST_MAX then h_count h + 1 else h_count h) ((h_next h + 1) mod HIST_MAX) (-1)
          (aset (h_entries h) (h_next h) (str_copy_lim old line HIST_LINE_MAX)) (h_scratch h) false
  end.

(** ** The table of files, [filedb_add] and the like *)

Record file_db := FileDb { db_names : list (list Z); db_count : nat }.
Definition db_entry (t : file_db) (i : nat) : list Z := default [] (db_names t !! i).
(** The first entry below [g_file_db_count] with the name. *)
Definition db_find (t : file_db) (path : list Z) : option nat := find_index (λ e, str_eq (str_at e) path) (take (db_count t) (db_names t)).

Definition filedb_add (path : list Z) (t : file_db) : file_db :=
  match db_find t path with
  | Some _ => t
  | None =>
      if FILE_DB_MAX <=? Z.of_nat (db_count t) then t
      else FileDb (<[db_count t := str_copy_lim (db_entry t (db_count t)) path FM_NAME_MAX]> (db_names t)) (S (db_count t))
  end.
(** [for (int j = i; j < g_file_db_count - 1; j++)] *)
Fixpoint shift_entries (k j : nat) (names : list (list Z)) : list (list Z) :=
  match k with
  | O => names
  | S k' =>
      let dst := default [] (names !! j) in
      let src := default [] (names !! S j) in
      shift_entries k' (S j) (<[j := str_copy_lim dst (str_at src) FM_NAME_MAX]> names)
  end.
Definition filedb_remove (path : list Z) (t : file_db) : file_db :=
  match db_find t path with
  | None => t
  | Some i => FileDb (shift_entries (db_count t - 1 - i) i (db_names t)) (db_count t - 1)
  end.
Definition filedb_rename (old_path new_path : list Z) (t : file_db) : file_db :=
  match db_find t old_path with
  | None => t
  | Some i => FileDb (<[i := str_copy_lim (db_entry t i) new_path FM_NAME_MAX]> (db_names t)) (db_count t)
  end.

(** ** What holds of the helpers of the shell *)

Abbreviation nonzero := (Forall (λ c, c ≠ 0)).

(** ** Strings in arrays *)
Lemma str_at_nonzero l : nonzero (str_at l).
Proof. induction l as [|c l IH]; cbn; [done|]. destruct (Z.eqb_spec c 0); by constructor. Qed.

Lemma str_at_app s l : nonzero s → str_at (s ++ l) = s ++ str_at l.
Proof.
  induction 1 as [|c s Hc _ IH]; cbn; [done|]. replace (c =? 0) with false by lia. by rewrite IH.
Qed.

Lemma str_at_end s l : nonzero s → str_at (s ++ 0 :: l) = s.
Proof. intros Hs. rewrite str_at_app by done. cbn. apply app_nil_r. Qed.

Lemma copy_lim_loop_spec src : ∀ dst i max, (i < max)%nat → (max ≤ length dst)%nat →
  copy_lim_loop dst src i max =
    take i dst ++ take (max - 1 - i) src ++ 0 :: drop (S (i + length (take (max - 1 - i) src))) dst.
Proof.
  induction src as [|c src IH]; intros dst i max Hi Hm; cbn [copy_lim_loop].
  - rewrite take_nil. cbn. rewrite insert_take_drop by lia. by rewrite Nat.add_0_r.
  - destruct (Nat.ltb_spec i (max - 1)).
    + rewrite IH by (rewrite ?length_insert; lia). replace (max - 1 - i)%nat with (S (max - 1 - S i)) by lia. cbn [take length].
      rewrite (take_S_r _ _ c) by (apply list_lookup_insert_eq; lia). rewrite take_insert_ge by lia. rewrite <-app_assoc. cbn. f_equal. f_equal. f_equal. f_equal.
      rewrite drop_insert_lt by lia. f_equal. lia.
    + replace (max - 1 - i)%nat with 0%nat by lia. cbn. rewrite insert_take_drop by lia. by rewrite Nat.add_0_r.
Qed.

(** [str_copy_lim] leaves as much of the string as fits, with its NUL, and the array keeps its length. *)
Lemma str_copy_lim_spec dst src max : nonzero src → (0 < max ≤ length dst)%nat →
  str_at (str_copy_lim dst src max) = take (max - 1) src ∧ length (str_copy_lim dst src max) = length dst.
Proof.
  intros Hs Hm. destruct max as [|max]; [lia|]. unfold str_copy_lim. rewrite copy_lim_loop_spec by lia. rewrite take_0, Nat.sub_0_r. cbn [app]. split.
  - apply str_at_end. by apply Forall_take.
  - rewrite length_app, length_take. cbn. rewrite length_drop. lia.
Qed.

(** ** Words *)

Fixpoint words_of (cur s : list Z) : list (list Z) :=
  match s with
  | [] => match cur with [] => [] | _ => [reverse cur] end
  | c :: s' => if is_blank c then match cur with [] => words_of [] s' | _ => reverse cur :: words_of [] s' end else words_of (c :: cur) s'
  end.
(** The words of a line: the longest stretches without a blank. *)
Definition words (s : list Z) : list (list Z) := words_of [] s.

Definition starts_blank (s : list Z) : Prop := match s with [] => True | c :: _ => is_blank c = true end.

Lemma words_blanks b s : Forall (λ c, is_blank c = true) b → words (b ++ s) = words s.
Proof. induction 1 as [|c b Hc _ IH]; [done|]. cbn. by rewrite Hc. Qed.

Lemma words_of_word w s : ∀ cur, Forall (λ c, is_blank c = false) w → words_of cur (w ++ s) = words_of (reverse w ++ cur) s.
Proof.
  intros cur Hw. revert cur. induction Hw as [|c w Hc _ IH]; intros cur; [done|]. cbn [words_of app]. rewrite Hc, IH. by rewrite reverse_cons, <-app_assoc.
Qed.

Lemma words_word w s : w ≠ [] → Forall (λ c, is_blank c = false) w → starts_blank s → words (w ++ s) = w :: words s.
Proof.
  intros Hne Hw Hs. unfold words. rewrite words_of_word, app_nil_r by done.
  destruct (reverse w) as [|c cur] eqn:E; [by rewrite <-(reverse_involutive w), E in Hne|].
  rewrite <-(reverse_involutive w), E. destruct s as [|x s]; cbn; [done|]. cbn in Hs. by rewrite Hs.
Qed.

Lemma skip_blanks_spec s r : nonzero s → ∃ b s1, s = b ++ s1 ∧ Forall (λ c, is_blank c = true) b ∧
  match s1 with [] => True | c :: _ => is_blank c = false end ∧ skip_blanks (s ++ 0 :: r) = Some (length b, s1 ++ 0 :: r).
Proof.
  induction 1 as [|c s Hc Hs IH]; [by exists [], []|]. cbn [skip_blanks app]. replace (c =? 0) with false by lia. cbn [negb andb].
  destruct (is_blank c) eqn:Eb; [|by exists [], (c :: s)].
  destruct IH as (b & s1 & -> & Hb & Hs1 & ->). exists (c :: b), s1. split_and!; [done|by constructor|done|done].
Qed.

Lemma skip_word_spec s r : nonzero s → ∃ w s1, s = w ++ s1 ∧ Forall (λ c, is_blank c = false) w ∧ starts_blank s1 ∧
  skip_word (s ++ 0 :: r) = Some (w, s1 ++ 0 :: r).
Proof.
  induction 1 as [|c s Hc Hs IH]; [by exists [], []|]. cbn [skip_word app]. replace (c =? 0) with false by lia. cbn [negb andb].
  destruct (is_blank c) eqn:Eb; [by exists [], (c :: s)|].
  destruct IH as (w & s1 & -> & Hw & Hs1 & ->). exists (c :: w), s1. split_and!; [done|by constructor|done|done].
Qed.

(** The loop of [split_args] on an array that holds the string [s] from [pos] on. *)
Lemma split_loop_spec (fuel : nat) max : ∀ s r pos argc, nonzero s → (length s < fuel)%nat →
  ∃ argv out, split_loop fuel (s ++ 0 :: r) pos argc max = Some (argv, out) ∧ length out = length (s ++ 0 :: r) ∧
    length argv = (length (words s) `min` (max - argc))%nat ∧
    ((argc < max)%nat → starts_blank s → str_at out = []) ∧
    ∀ i off, argv !! i = Some off → ∃ w, words s !! i = Some w ∧ (pos ≤ off < pos + length s)%nat ∧
      w `prefix_of` str_at (drop (off - pos) out) ∧ ((S (argc + i) < max)%nat → str_at (drop (off - pos) out) = w).
Proof.
  induction fuel as [|fuel IH]; intros s r pos argc Hs Hf; [lia|]. destruct s as [|c s0].
  { cbn. exists [], (0 :: r). split_and!; try done. }
  set (s := c :: s0) in *. assert (Hc : c ≠ 0) by (by inversion Hs).
  assert (Hdef : split_loop (S fuel) (s ++ 0 :: r) pos argc max =
    if (argc <? max)%nat then
        '(n, r1) ← skip_blanks (s ++ 0 :: r);
        match r1 with
        | [] => None
        | c' :: _ =>
            if c' =? 0 then Some ([], replicate n 0 ++ r1)
            else
              '(w, r') ← skip_word r1;
              '(argv, out) ← split_loop fuel r' (pos + n + length w) (S argc) max;
              Some ((pos + n)%nat :: argv, replicate n 0 ++ w ++ out)
        end
    else Some ([], s ++ 0 :: r)) by (cbn [split_loop app s]; by replace (c =? 0) with false by lia).
  rewrite Hdef. clear Hdef. destruct (Nat.ltb_spec argc max) as [Hlt|Hge].
  2: { exists [], (s ++ 0 :: r). split_and!; [done|done|rewrite Nat.min_r; cbn; lia|lia|done]. }
  destruct (skip_blanks_spec s r Hs) as (b & s1 & Es & Hb & Hs1 & ->). cbn [mbind option_bind]. rewrite Es. rewrite words_blanks by done.
  assert (Hns1 : nonzero s1) by (rewrite Es in Hs; by apply Forall_app in Hs as [_ ?]).
  destruct s1 as [|c1 s1'].
  { cbn [app]. change (0 =? 0) with true. exists [], (replicate (length b) 0 ++ 0 :: r). split_and!; try done.
    - rewrite !length_app, length_replicate. cbn. lia.
    - intros _ _. destruct b; done. }
  set (s1 := c1 :: s1') in *. assert (Hc1 : c1 ≠ 0) by (by inversion Hns1).
  assert (Hm : ∀ X Y : option (list nat * list Z), (match s1 ++ 0 :: r with [] => None | c' :: _ => if c' =? 0 then X else Y end) = Y)
    by (intros X Y; cbn; by replace (c1 =? 0) with false by lia). rewrite Hm. clear Hm.
  destruct (skip_word_spec s1 r Hns1) as (w & s2 & Es1 & Hw & Hs2 & ->). cbn [mbind option_bind].
  assert (Hwne : w ≠ []). { intros ->. cbn in Es1. subst s2. cbn in Hs2. congruence. }
  assert (Hww : nonzero w ∧ nonzero s2) by (rewrite Es1 in Hns1; by apply Forall_app in Hns1). destruct Hww as [Hwz Hs2z].
  assert (Hlen : length s = (length b + length w + length s2)%nat) by (rewrite Es, Es1, !length_app; lia).
  assert (Hwl : (0 < length w)%nat) by (destruct w; cbn; [done|lia]).
  destruct (IH s2 r (pos + length b + length w)%nat (S argc)) as (argv & out & -> & Hol & Hal & Hst & Hargs); [done|lia|]. cbn [mbind option_bind].
  rewrite Es1, words_word by done. eexists _, _. split; [reflexivity|]. split_and!.
  - rewrite !length_app, length_replicate, Hol, length_app. cbn. lia.
  - cbn [length]. rewrite Hal. lia.
  - intros _ Hsb. destruct b as [|x b]; [|done]. cbn [app] in Hsb. destruct w as [|y w]; [done|]. cbn in Hsb. inversion Hw. congruence.
  - intros [|i] off Hoff; cbn in Hoff.
    + injection Hoff as <-. exists w. replace (pos + length b - pos)%nat with (length (replicate (length b) 0%Z)) by (rewrite length_replicate; lia).
      rewrite drop_app_length, str_at_app by done. split_and!; [done|lia|rewrite !length_app; lia|by exists (str_at out)|].
      intros Hm. rewrite Hst by (done || lia). apply app_nil_r.
    + destruct (Hargs i off Hoff) as (v & Hv & Hr & Hp & He). exists v.
      replace (drop (off - pos) (replicate (length b) 0 ++ w ++ out)) with (drop (off - (pos + length b + length w)) out).
      * split_and!; [done|lia|rewrite !length_app; lia|done|]. intros Hm. apply He. lia.
      * rewrite app_assoc. replace (off - pos)%nat with (length (replicate (length b) 0%Z ++ w) + (off - (pos + length b + length w)))%nat by (rewrite length_app, length_replicate; lia).
        by rewrite <-drop_drop, drop_app_length.
Qed.

Lemma split_args_spec s r max : nonzero s →
  ∃ argv out, split_args (s ++ 0 :: r) max = Some (argv, out) ∧ length out = length (s ++ 0 :: r) ∧
    length argv = (length (words s) `min` max)%nat ∧
    ∀ i off, argv !! i = Some off → ∃ w, words s !! i = Some w ∧ (off < length s)%nat ∧
      w `prefix_of` arg_at out off ∧ ((S i < max)%nat → arg_at out off = w).
Proof.
  intros Hs. destruct (split_loop_spec (S (length (s ++ 0 :: r))) max s r 0 0 Hs) as (argv & out & He & Hl & Ha & _ & Hargs); [rewrite length_app; lia|].
  exists argv, out. split_and!; [done|done|by rewrite Nat.sub_0_r in Ha|]. intros i off Hi. destruct (Hargs i off Hi) as (w & Hw & Hr & Hp & Hend).
  exists w. rewrite Nat.sub_0_r in *. split_and!; [done|lia|done|exact Hend].
Qed.

(** [split_args] cuts a line at its blanks: it returns the number of words, at most [max_args], and [argv]
    points to them in order.  Every word but the last one that fits in [argv] is a string of its own in the line; the last one
    is followed by what is left of the line. *)
Theorem split_args_correct s r max : nonzero s →
  ∃ argv out, split_args (s ++ 0 :: r) max = Some (argv, out) ∧ length out = length (s ++ 0 :: r) ∧
    length argv = (length (words s) `min` max)%nat ∧
    ∀ i off, argv !! i = Some off → ∃ w, words s !! i = Some w ∧ (off < length s)%nat ∧
      w `prefix_of` arg_at out off ∧ ((S i < max)%nat → arg_at out off = w).
Proof. apply split_args_spec. Qed.

(** ** Numbers *)
Lemma dec_digits_read (fuel : nat) : ∀ v buf, 0 ≤ v < 10 ^ fuel → v ≤ 2147483647 → digits_loop (dec_digits fuel v buf) 0 = digits_loop buf v.
Proof.
  induction fuel as [|fuel IH]; intros v buf Hv Hmax; cbn [dec_digits].
  { change (10 ^ 0%nat) with 1 in Hv. by replace v with 0 by lia. }
  destruct (Z.ltb_spec 0 v); [|by replace v with 0 by lia].
  assert (Hd : v = 10 * (v / 10) + v mod 10 ∧ 0 ≤ v mod 10 < 10) by (split; [apply Z.div_mod; lia|apply Z.mod_pos_bound; lia]).
  rewrite IH; [|rewrite Nat2Z.inj_succ, Z.pow_succ_r in Hv by lia; lia|lia]. cbn [digits_loop].
  replace ((48 + v mod 10 <? 48) || (57 <? 48 + v mod 10)) with false by lia. unfold int_ok.
  replace ((-2147483648 <=? v / 10 * 10) && (v / 10 * 10 <=? 2147483647)) with true by lia. cbn [mbind option_bind].
  replace (v / 10 * 10 + (48 + v mod 10 - 48)) with v by lia. by replace ((-2147483648 <=? v) && (v <=? 2147483647)) with true by lia.
Qed.

Lemma dec_digits_digits (fuel : nat) : ∀ v buf, Forall (λ c, 48 ≤ c ≤ 57) buf → Forall (λ c, 48 ≤ c ≤ 57) (dec_digits fuel v buf).
Proof.
  induction fuel as [|fuel IH]; intros v buf Hb; cbn; [done|]. destruct (0 <? v); [|done]. apply IH. constructor; [|done].
  pose proof (Z.mod_pos_bound v 10 ltac:(lia)). lia.
Qed.

Lemma dec_digits_nonempty (fuel : nat) v buf : (length buf ≤ length (dec_digits fuel v buf))%nat.
Proof. revert v buf. induction fuel as [|fuel IH]; intros v buf; cbn; [lia|]. destruct (0 <? v); [|lia]. specialize (IH (v / 10) (48 + v mod 10 :: buf)). cbn in IH. lia. Qed.

(** A number that is printed is read back: for every [int] but the least one [put_dec] prints characters that [str_to_int]
    turns into the same number.  (For the least one the negation in [put_dec] overflows.) *)
Theorem put_dec_str_to_int v : -2147483647 ≤ v ≤ 2147483647 → ∃ l, put_dec v = Some l ∧ str_to_int l = Some (0, Some v).
Proof.
  intros Hv.
  assert (Hpos : ∀ w sign, 0 < w ≤ 2147483647 → w * sign = v → ∃ c l, dec_digits 10 w [] = c :: l ∧ c ≠ 45 ∧
    (r ← digits_loop (c :: l) 0; match r with None => Some (-1, None) | Some val => v ← int_ok (val * sign); Some (0, Some v) end) = Some (0, Some v)).
  { intros w sign Hw Hs. pose proof (dec_digits_digits 10 w [] ltac:(done)) as Hd. pose proof (dec_digits_read 10 w [] ltac:(lia) ltac:(lia)) as Hr.
    assert (Hlen : (0 < length (dec_digits 10 w []))%nat).
    { cbn [dec_digits]. replace (0 <? w) with true by lia. eapply Nat.lt_le_trans; [|apply (dec_digits_nonempty 9)]. cbn. lia. }
    destruct (dec_digits 10 w []) as [|c l]; [cbn in Hlen; lia|]. exists c, l. split_and!; [done|by inversion Hd; lia|]. rewrite Hr. cbn. unfold int_ok. rewrite Hs.
    by replace ((-2147483648 <=? v) && (v <=? 2147483647)) with true by lia. }
  unfold put_dec. destruct (Z.ltb_spec v 0).
  - unfold int_ok at 1. replace ((-2147483648 <=? - v) && (- v <=? 2147483647)) with true by lia. cbn [mbind option_bind].
    replace (- v =? 0) with false by lia. destruct (Hpos (- v) (-1)) as (c & l & -> & Hc & Hr); [lia|lia|]. exists ([45] ++ c :: l). split; [done|]. exact Hr.
  - cbn [mbind option_bind]. destruct (Z.eqb_spec v 0) as [->|]; [by exists [48]|].
    destruct (Hpos v 1) as (c & l & -> & Hc & Hr); [lia|lia|]. exists (c :: l). split; [done|]. unfold str_to_int.
    assert (Hm : match c :: l with 45 :: s' => (-1, s') | _ => (1, c :: l) end = (1, c :: l)) by (repeat (case_match; try done)). rewrite Hm. exact Hr.
Qed.

(** ** The table of files *)

Definition db_ok (t : file_db) : Prop :=
  length (db_names t) = 64%nat ∧ Forall (λ e, length e = 64%nat ∧ (length (str_at e) < 64)%nat) (db_names t) ∧ (db_count t ≤ 64)%nat.
Definition db_list (t : file_db) : list (list Z) := str_at <$> take (db_count t) (db_names t).


Lemma db_length t : db_ok t → length (db_list t) = db_count t.
Proof. intros (H1 & _ & H3). unfold db_list. rewrite length_fmap, length_take. lia. Qed.

Lemma find_index_fmap {A B} (f : B → bool) (g : A → B) l : find_index f (g <$> l) = find_index (λ x, f (g x)) l.
Proof. induction l as [|x l IH]; cbn; [done|]. by rewrite IH. Qed.

(** The place of the first entry with the name. *)
Lemma db_find_spec t path :
  match db_find t path with
  | Some i => db_list t !! i = Some path ∧ path ∉ take i (db_list t)
  | None => path ∉ db_list t
  end.
Proof.
  assert (Hrefl : str_eq path path = true) by (by apply str_eq_spec). unfold db_find. rewrite <-(find_index_fmap (λ n, str_eq n path) str_at). fold (db_list t). destruct (find_index _ _) as [i|] eqn:E.
  - apply find_index_Some in E as (v & Hv & ->%str_eq_spec & Hmin). split; [done|]. intros (j & Hj)%list_elem_of_lookup.
    apply lookup_take_Some in Hj as [Hj Hji]. specialize (Hmin j path Hji Hj). cbn beta in Hmin. congruence.
  - intros (j & Hj)%list_elem_of_lookup. pose proof (find_index_None _ _ _ _ E Hj) as H. cbn beta in H. congruence.
Qed.

Lemma copy_entry e src : length e = 64%nat → nonzero src →
  length (str_copy_lim e src FM_NAME_MAX) = 64%nat ∧ str_at (str_copy_lim e src FM_NAME_MAX) = take 63 src ∧
  (length (str_at (str_copy_lim e src FM_NAME_MAX)) < 64)%nat.
Proof.
  intros He Hs. destruct (str_copy_lim_spec e src FM_NAME_MAX Hs) as [H1 H2]; [unfold FM_NAME_MAX; lia|]. rewrite H1, H2. split_and!; [done|done|].
  rewrite length_take. unfold FM_NAME_MAX. lia.
Qed.

Lemma names_insert names i src : Forall (λ e, length e = 64%nat ∧ (length (str_at e) < 64)%nat) names → (i < length names)%nat → nonzero src →
  let names' := <[i := str_copy_lim (default [] (names !! i)) src FM_NAME_MAX]> names in
  Forall (λ e, length e = 64%nat ∧ (length (str_at e) < 64)%nat) names' ∧ str_at <$> names' = <[i := take 63 src]> (str_at <$> names).
Proof.
  intros Hn Hi Hs names'. destruct (lookup_lt_is_Some_2 names i Hi) as [e He]. unfold names'. rewrite He. change (default [] (Some e)) with e.
  assert (Hel : length e = 64%nat) by (rewrite list.Forall_forall in Hn; by apply Hn; eapply list_elem_of_lookup_2).
  destruct (copy_entry e src Hel Hs) as (H1 & H2 & H3). split; [by apply Forall_insert|]. by rewrite list_fmap_insert, H2.
Qed.

Lemma filedb_add_spec t path : db_ok t → nonzero path → db_ok (filedb_add path t) ∧
  db_list (filedb_add path t) = if decide (path ∈ db_list t ∨ length (db_list t) = 64%nat) then db_list t else db_list t ++ [take 63 path].
Proof.
  intros Hok Hp. pose proof Hok as (H1 & H2 & H3). pose proof (db_find_spec t path) as Hf. pose proof (db_length t Hok) as Hl. unfold filedb_add, FILE_DB_MAX.
  destruct (db_find t path) as [i|].
  { split; [done|]. rewrite decide_True; [done|]. left. destruct Hf as [Hf _]. by eapply list_elem_of_lookup_2. }
  destruct (Z.leb_spec 64 (Z.of_nat (db_count t))). { split; [done|]. rewrite decide_True; [done|]. right. lia. }
  rewrite decide_False by (intros [?|?]; [done|lia]). destruct (names_insert (db_names t) (db_count t) path H2) as [HA HB]; [lia|done|].
  split; [split_and!; cbn [db_names db_count]; [by rewrite length_insert|done|lia]|].
  unfold db_list at 1. cbn [db_names db_count]. rewrite fmap_take. unfold db_entry. rewrite HB.
  rewrite (take_S_r _ _ (take 63 path)) by (apply list_lookup_insert_eq; rewrite length_fmap; lia). rewrite take_insert_ge by lia. unfold db_list. by rewrite fmap_take.
Qed.

Lemma shift_entries_spec k : ∀ j names, Forall (λ e, length e = 64%nat ∧ (length (str_at e) < 64)%nat) names → (j + k < length names)%nat →
  Forall (λ e, length e = 64%nat ∧ (length (str_at e) < 64)%nat) (shift_entries k j names) ∧ length (shift_entries k j names) = length names ∧
  str_at <$> shift_entries k j names = take j (str_at <$> names) ++ take k (drop (S j) (str_at <$> names)) ++ drop (j + k) (str_at <$> names).
Proof.
  induction k as [|k IH]; intros j names Hn Hj; cbn [shift_entries].
  { rewrite take_0, Nat.add_0_r. cbn. by rewrite take_drop. }
  destruct (lookup_lt_is_Some_2 names (S j) ltac:(lia)) as [e He]. rewrite He. change (default [] (Some e)) with e. set (L := str_at <$> names) in *.
  assert (HeL : L !! S j = Some (str_at e)) by (unfold L; by rewrite list_lookup_fmap, He).
  assert (Hel : (length (str_at e) < 64)%nat) by (rewrite list.Forall_forall in Hn; by apply Hn; eapply list_elem_of_lookup_2).
  destruct (names_insert names j (str_at e) Hn) as [HA HB]; [lia|apply str_at_nonzero|]. rewrite take_ge in HB by lia. fold L in HB.
  destruct (IH (S j) _ HA) as (H1 & H2 & H3); [rewrite length_insert; lia|]. rewrite length_insert in H2. split_and!; [done|done|]. rewrite H3, HB.
  assert (HlL : length L = length names) by (unfold L; by rewrite length_fmap).
  rewrite (take_S_r _ j (str_at e)) by (apply list_lookup_insert_eq; lia). rewrite take_insert_ge by lia. rewrite !drop_insert_lt by lia.
  rewrite (drop_S L (str_at e) (S j)) by done. cbn [take]. rewrite <-app_assoc. cbn. by replace (j + S k)%nat with (S (j + k)) by lia.
Qed.

Lemma filedb_remove_spec t path : db_ok t → db_ok (filedb_remove path t) ∧
  ∃ l1 l2, path ∉ l1 ∧ (db_list t = l1 ++ path :: l2 ∧ db_list (filedb_remove path t) = l1 ++ l2 ∨ db_list t = l1 ∧ l2 = [] ∧ filedb_remove path t = t).
Proof.
  intros Hok. pose proof Hok as (H1 & H2 & H3). pose proof (db_find_spec t path) as Hf. pose proof (db_length t Hok) as Hl. unfold filedb_remove.
  destruct (db_find t path) as [i|]; [|split; [done|]; exists (db_list t), []; split; [done|by right]].
  destruct Hf as [Hi Hnot]. apply lookup_lt_Some in Hi as Hil. set (n := db_count t) in *.
  destruct (shift_entries_spec (n - 1 - i) i (db_names t) H2) as (HA & HB & HC); [lia|]. split; [split_and!; cbn [db_names db_count]; [by rewrite HB|done|lia]|].
  exists (take i (db_list t)), (drop (S i) (db_list t)). split; [done|]. left. split; [by rewrite take_drop_middle|].
  unfold db_list at 1. cbn [db_names db_count]. rewrite fmap_take, HC. set (L := str_at <$> db_names t) in *.
  assert (HLl : length L = 64%nat) by (unfold L; by rewrite length_fmap). assert (HdL : db_list t = take n L) by (unfold db_list, L; by rewrite fmap_take).
  rewrite HdL, take_take, (Nat.min_l i n) by lia. rewrite take_app, take_take, length_take, HLl. f_equal; [f_equal; lia|].
  rewrite take_app, take_take, length_take, length_drop, HLl. rewrite skipn_firstn_comm.
  replace (n - 1 - i `min` 64 - (n - 1 - i) `min` (64 - S i))%nat with 0%nat by lia. rewrite take_0, app_nil_r. f_equal. lia.
Qed.

(** [filedb_add], [filedb_remove] and [filedb_rename] keep the table well formed. *)
Lemma filedb_rename_spec t old new : db_ok t → nonzero new → db_ok (filedb_rename old new t) ∧
  ∃ l1 l2, old ∉ l1 ∧ (db_list t = l1 ++ old :: l2 ∧ db_list (filedb_rename old new t) = l1 ++ take 63 new :: l2 ∨ db_list t = l1 ∧ l2 = [] ∧ filedb_rename old new t = t).
Proof.
  intros Hok Hn. pose proof Hok as (H1 & H2 & H3). pose proof (db_find_spec t old) as Hf. pose proof (db_length t Hok) as Hl. unfold filedb_rename.
  destruct (db_find t old) as [i|]; [|split; [done|]; exists (db_list t), []; split; [done|by right]].
  destruct Hf as [Hi Hnot]. apply lookup_lt_Some in Hi as Hil. destruct (names_insert (db_names t) i new H2) as [HA HB]; [lia|done|].
  split; [split_and!; cbn [db_names db_count]; [by rewrite length_insert|done|lia]|].
  exists (take i (db_list t)), (drop (S i) (db_list t)). split; [done|]. left. split; [by rewrite take_drop_middle|].
  unfold db_list at 1. cbn [db_names db_count]. rewrite fmap_take. unfold db_entry. rewrite HB. rewrite take_insert_lt by lia. rewrite <-fmap_take. fold (db_list t).
  rewrite insert_take_drop by lia. done.
Qed.

(** The history starts at the wrong place: as long as it holds fewer than 16 lines, [(next + count - 1) % HIST_MAX] is not the entry that was
    pushed last.  After one line, [history_prev] answers with an empty line, and pushing the same line again stores it twice. *)
Theorem history_prev_misses_last :
  let h := history_push (history_init (ShellHistory 0 0 0 (replicate 16 (replicate 128 0)) (replicate 128 0) false)) (Some [108; 115]) in
  entry h 0 = [108; 115] ∧ fst (history_prev h []) = Some [] ∧ h_count (history_push h (Some [108; 115])) = 2.
Proof. vm_compute. done. Qed.

Lemma split_args_correct_witness :
  ∃ argv out, split_args ([32; 97; 98; 32; 99] ++ 0 :: [7; 7]) 12 = Some (argv, out) ∧ arg_at out <$> argv = [[97; 98]; [99]].
Proof.
  destruct (split_args_correct [32; 97; 98; 32; 99] [7; 7] 12) as (argv & out & He & _); [repeat constructor; lia|].
  exists argv, out. split; [exact He|]. vm_compute in He. injection He as <- <-. reflexivity.
Defined.

Lemma put_dec_str_to_int_witness : ∃ l, put_dec (-120) = Some l ∧ str_to_int l = Some (0, Some (-120)).
Proof. apply put_dec_str_to_int. lia. Defined.
