(* ===== verification/Shell.v ===== *)
(** * The shell, [src/kernel/apps/user_init.c], [user_fm.c] and [user_img.c]

    The shell runs in the kernel and calls the file system, the window manager and the event queue
    directly.  [shell_start] is [user_init_entry] up to its loop, [shell_round] one round of the loop. *)

From S2P Require Import Prelude Layout KString PageAlloc PageIface Vm Proc Sched Ring Event Printf Fs Process GpuIface Syscall VirtioInput Wm UserUtil.

Definition newline : string := String (Ascii.ascii_of_nat 10) EmptyString.

(** ** Variables *)

(** [g_input_q] with its indices, and [g_input_shift]. *)
Record input_state := InputState { iq_buf : list Z; iq_head : Z; iq_tail : Z; iq_shift : bool }.
(** [g_term_view] and its length. *)
Record term_state := TermState { tv_buf : list Z; tv_len : nat }.
(** [g_line] and the local [len], [g_iobuf], [g_main_win], the used fields of [g_fm], and the rest. *)
Record shell_vars := ShellVars {
  sv_line : list Z; sv_len : nat; sv_iobuf : list Z; sv_main_win : Z; sv_fm_active : bool; sv_fm_win : Z;
  sv_hist : shell_history; sv_db : file_db; sv_term : term_state; sv_input : input_state }.
Definition set_line l n v := ShellVars l n (sv_iobuf v) (sv_main_win v) (sv_fm_active v) (sv_fm_win v) (sv_hist v) (sv_db v) (sv_term v) (sv_input v).
Definition set_iobuf b v := ShellVars (sv_line v) (sv_len v) b (sv_main_win v) (sv_fm_active v) (sv_fm_win v) (sv_hist v) (sv_db v) (sv_term v) (sv_input v).
Definition set_main_win w v := ShellVars (sv_line v) (sv_len v) (sv_iobuf v) w (sv_fm_active v) (sv_fm_win v) (sv_hist v) (sv_db v) (sv_term v) (sv_input v).
Definition set_fm w v := ShellVars (sv_line v) (sv_len v) (sv_iobuf v) (sv_main_win v) true w (sv_hist v) (sv_db v) (sv_term v) (sv_input v).
Definition set_hist h v := ShellVars (sv_line v) (sv_len v) (sv_iobuf v) (sv_main_win v) (sv_fm_active v) (sv_fm_win v) h (sv_db v) (sv_term v) (sv_input v).
Definition set_db d v := ShellVars (sv_line v) (sv_len v) (sv_iobuf v) (sv_main_win v) (sv_fm_active v) (sv_fm_win v) (sv_hist v) d (sv_term v) (sv_input v).
Definition set_term t v := ShellVars (sv_line v) (sv_len v) (sv_iobuf v) (sv_main_win v) (sv_fm_active v) (sv_fm_win v) (sv_hist v) (sv_db v) t (sv_input v).
Definition set_input i v := ShellVars (sv_line v) (sv_len v) (sv_iobuf v) (sv_main_win v) (sv_fm_active v) (sv_fm_win v) (sv_hist v) (sv_db v) (sv_term v) i.

(** ** Keys *)

Definition INPUT_Q : Z := 16.
Definition input_q_push (ch : Z) (s : input_state) : input_state :=
  let next := (iq_tail s + 1) mod INPUT_Q in
  if next =? iq_head s then s
  else InputState (aset (iq_buf s) (iq_tail s) ch) (iq_head s) next (iq_shift s).
(** The character, or -1. *)
Definition input_q_pop (s : input_state) : Z * input_state :=
  if iq_head s =? iq_tail s then (-1, s)
  else (default 0 (aget (iq_buf s) (iq_head s)), InputState (iq_buf s) ((iq_head s + 1) mod INPUT_Q) (iq_tail s) (iq_shift s)).

Definition VI_EV_KEY : Z := 1.
Definition VI_KEY_LEFTSHIFT : Z := 42.
Definition VI_KEY_RIGHTSHIFT : Z := 54.
Definition VI_KEY_UP : Z := 103.
Definition VI_KEY_DOWN : Z := 108.

(** The cases of the switch: key code, character, character with shift; the codes are those of [virtio_input.h]. *)
Definition key_table : list (Z * (Z * Z)) :=
  [(30, (97, 65)); (48, (98, 66)); (46, (99, 67)); (32, (100, 68)); (18, (101, 69)); (33, (102, 70)); (34, (103, 71)); (35, (104, 72));
   (23, (105, 73)); (36, (106, 74)); (37, (107, 75)); (38, (108, 76)); (50, (109, 77)); (49, (110, 78)); (24, (111, 79)); (25, (112, 80));
   (16, (113, 81)); (19, (114, 82)); (31, (115, 83)); (20, (116, 84)); (22, (117, 85)); (47, (118, 86)); (17, (119, 87)); (45, (120, 88));
   (21, (121, 89)); (44, (122, 90));
   (2, (49, 33)); (3, (50, 64)); (4, (51, 35)); (5, (52, 36)); (6, (53, 37)); (7, (54, 94)); (8, (55, 38)); (9, (56, 42)); (10, (57, 40)); (11, (48, 41));
   (12, (45, 95)); (13, (61, 43)); (57, (32, 32)); (15, (9, 9)); (28, (10, 10)); (14, (8, 8));
   (51, (44, 60)); (52, (46, 62)); (53, (47, 63)); (39, (59, 58)); (40, (39, 34)); (26, (91, 123)); (27, (93, 125)); (43, (92, 124)); (41, (96, 126))].
Definition map_key_ascii (code : Z) (shift : bool) : Z :=
  match list_find (λ e, e.1 = code) key_table with
  | Some (_, (_, (plain, shifted))) => if shift then shifted else plain
  | None => 0
  end.

(** The body of the loop of [u_getchar] for one event. *)
Definition take_event (e : k_event) (s : input_state) : input_state :=
  if negb (ev_type e =? KEVENT_TYPE_INPUT) then s
  else
    let type := ev_a e mod 65536 in
    let code := ev_b e mod 65536 in
    let value := ev_c e in
    if negb (type =? VI_EV_KEY) then s
    else if (code =? VI_KEY_LEFTSHIFT) || (code =? VI_KEY_RIGHTSHIFT) then InputState (iq_buf s) (iq_head s) (iq_tail s) (negb (value =? 0))
    else if value =? 0 then s
    else if code =? VI_KEY_UP then input_q_push 65 (input_q_push 91 (input_q_push 27 s))
    else if code =? VI_KEY_DOWN then input_q_push 66 (input_q_push 91 (input_q_push 27 s))
    else
      let a := map_key_ascii code (iq_shift s) in
      if negb (a =? 0) then input_q_push a s else s.

(** ** The view of the terminal *)

Definition term_view_append_char (c : Z) (t : term_state) : term_state :=
  if (WM_TEXT_MAX <=? S (tv_len t))%nat then t
  else TermState (<[S (tv_len t) := 0]> (<[tv_len t := c]> (tv_buf t))) (S (tv_len t)).
Definition term_view_append (s : list Z) (t : term_state) : term_state := foldl (λ t c, term_view_append_char c t) t s.
Definition term_view_backspace (t : term_state) : term_state :=
  match tv_len t with
  | O => t
  | S n => if default 0 (tv_buf t !! n) =? 10 then t else TermState (<[n := 0]> (tv_buf t)) n
  end.
Definition term_view_clear (t : term_state) : term_state := TermState (<[0%nat := 0]> (tv_buf t)) 0.

(** ** The state *)

Record shell_state (P G D : Type) := ShellState {
  sh_sys : sys_state P G; sh_input : vi_state D; sh_wm : wm_vars; sh_vars : shell_vars }.
Arguments ShellState {P G D} _ _ _ _.
Arguments sh_sys {P G D} _.
Arguments sh_input {P G D} _.
Arguments sh_wm {P G D} _.
Arguments sh_vars {P G D} _.

(** What a round ends with: the next one, or [sbi_shutdown], which does not return. *)
Inductive shell_next := Again | PoweredOff.

Section shell.
Context {L : Layout} {P G D : Type} {PO : PageOps P} {GO : GpuOps P G} {EX : Ext4Ops} {VD : ViDevice D} {VP : ViPlaces}.
Abbreviation HM := (km (shell_state P G D)).
Implicit Types h : shell_state P G D.

Definition set_sh_sys s h : shell_state P G D := ShellState s (sh_input h) (sh_wm h) (sh_vars h).
Definition on_shell_sys {A} (c : km (sys_state P G) A) : HM A := zoom sh_sys set_sh_sys c.
Definition on_shell_fs {A} (c : km fs_state A) : HM A := on_shell_sys (on_kernel (on_fs c)).
(** The window manager works on the pages of the kernel and the display. *)
Definition wm_of h : wm_state P G := WmState (sh_wm h) (vm_pages (k_vm (ss_kernel (sh_sys h)))) (ss_gpu (sh_sys h)).
Definition put_wm (w : wm_state P G) h : shell_state P G D :=
  let s := sh_sys h in
  ShellState (SysState (set_k_vm (set_vm_pages (wm_pages w) (k_vm (ss_kernel s))) (ss_kernel s)) (ss_events s) (ss_kbd s) (ss_console s) (wm_gpu w))
    (sh_input h) (wm w) (sh_vars h).
Definition on_wm {A} (c : km (wm_state P G) A) : HM A := zoom wm_of put_wm c.
Definition my_vars : HM shell_vars := let! h := kget in kret (sh_vars h).
Definition on_my (f : shell_vars → shell_vars) : HM unit :=
  kmodify (λ h, ShellState (sh_sys h) (sh_input h) (sh_wm h) (f (sh_vars h))).

(** ** Output and input *)

Definition print (l : list Z) : sys_state P G → sys_state P G :=
  λ s, SysState (ss_kernel s) (ss_events s) (ss_kbd s) (ss_console s ++ l) (ss_gpu s).
Definition putchar (c : Z) : HM unit := on_shell_sys (kmodify (print [c mod 256])).
Fixpoint u_puts (s : list Z) : HM unit :=
  match s with
  | [] => kret tt
  | c :: s' => do! putchar c in u_puts s'
  end.
Definition say (s : string) : HM unit := u_puts (bytes_of s).
Definition shell_printf (fmt : string) (args : list arg) : HM unit :=
  match printf (bytes_of fmt) args with
  | Some out => on_shell_sys (kmodify (print out))
  | None => knofuel
  end.

Definition pop_key : HM Z :=
  let! v := my_vars in
  let '(ch, i) := input_q_pop (sv_input v) in
  do! on_my (set_input i) in
  kret ch.
(** [for (int i = 0; i < 32; i++)] *)
Fixpoint pull_events (n : nat) : HM unit :=
  match n with
  | O => kret tt
  | S n' =>
      let! e := on_shell_sys (on_events kevent_pop) in
      match e with
      | None => kret tt
      | Some e =>
          do! on_my (λ v, set_input (take_event e (sv_input v)) v) in
          pull_events n'
      end
  end.
(** [getchar] with its debugging output; [console] is what the firmware would answer. *)
Definition shell_getchar (console : Z) : HM Z :=
  let! h := kget in
  let q := ss_kbd (sh_sys h) in
  let '(r, kbd) := getchar console q in
  do! on_shell_sys (kmodify (λ s, SysState (ss_kernel s) (ss_events s) kbd (ss_console s) (ss_gpu s))) in
  match r with
  | Some c =>
      do! (if kbdq_head q =? kbdq_tail q then kret tt else shell_printf ("kbdq:deq ch=%d" ++ newline) [AWord c]) in
      kret c
  | None => kfault
  end.
Definition u_getchar (console : Z) : HM Z :=
  let! ch := pop_key in
  if 0 <=? ch then kret ch
  else
    do! pull_events 32 in
    let! ch := pop_key in
    if 0 <=? ch then kret ch else shell_getchar console.
(** The event, or [None] for a result that is not positive. *)
Definition u_event_poll : HM (option k_event) := on_shell_sys (on_events kevent_pop).

(** ** Windows *)

Definition term_view_sync : HM unit :=
  let! v := my_vars in
  if 0 <? sv_main_win v then do! on_wm (wm_set_text (sv_main_win v) (str_at (tv_buf (sv_term v)))) in kret tt else kret tt.
Definition term_append (s : list Z) : HM unit := on_my (λ v, set_term (term_view_append s (sv_term v)) v).
Definition term_view_reset : HM unit :=
  do! on_my (λ v, set_term (term_view_clear (sv_term v)) v) in
  do! term_append (bytes_of ("kernel:shell integrated (S-mode)" ++ newline)) in
  do! term_append (bytes_of "k> ") in
  term_view_sync.

Definition open_terminal : HM Z := on_wm (wm_create (Some (bytes_of "terminal")) 520 300).

Definition fm_run : HM unit :=
  let! v := my_vars in
  let! r := (if sv_fm_active v then on_wm (wm_focus (sv_fm_win v)) else kret (-1)) in
  if sv_fm_active v && (0 <=? r) then kret tt
  else
    let! id := on_wm (wm_create (Some (bytes_of "FileManager")) 400 300) in
    do! on_my (set_fm id) in
    do! on_wm (wm_set_text id (bytes_of ("File Manager (Direct Kernel Access)" ++ newline ++ "Click to select files."))) in
    on_wm wm_render.

Definition img_open_path (path : list Z) : HM Z :=
  let! win := on_wm (wm_create (Some (bytes_of "ImageViewer")) 320 240) in
  if win <? 0 then kret (-1)
  else
    do! on_wm (wm_set_text win path) in
    do! on_wm wm_render in
    kret win.

(** ** Commands *)

Definition shell_help : HM unit := say ("commands: help, ls, cat, touch, write, rm, gui, img, fm, shutdown" ++ newline).

Definition shell_touch (path : list Z) : HM unit :=
  let! fd := on_shell_fs (fs_open (Some path) (Z.lor O_CREAT O_RDWR)) in
  if fd <? 0 then say ("touch: fail" ++ newline)
  else
    do! on_shell_fs (fs_close fd) in
    on_my (λ v, set_db (filedb_add path (sv_db v)) v).

(** What a call stores goes to [g_iobuf], from where [n] characters are printed. *)
Definition put_iobuf (out : list Z) : HM unit := on_my (λ v, set_iobuf (out ++ drop (length out) (sv_iobuf v)) v).
Definition print_iobuf (n : Z) : HM unit :=
  let! v := my_vars in u_puts (take (Z.to_nat n) (sv_iobuf v)).

Definition shell_ls : HM unit :=
  let! r := on_shell_fs (fs_listdir true 1024) in
  do! put_iobuf r.2 in
  if r.1 <? 0 then say ("ls: fail" ++ newline) else print_iobuf r.1.

(** [while (1)] of [shell_cat]; each round but the last reads at least one byte of a file of at most 1024. *)
Fixpoint cat_loop (fuel : nat) (fd : Z) : HM unit :=
  match fuel with
  | O => knofuel
  | S fuel' =>
      let! r := on_shell_fs (fs_read fd true 1024) in
      do! put_iobuf r.2 in
      if r.1 <=? 0 then kret tt
      else
        do! print_iobuf r.1 in
        cat_loop fuel' fd
  end.
Definition cat_fuel : nat := 1026.
Definition shell_cat (path : list Z) : HM unit :=
  let! fd := on_shell_fs (fs_open (Some path) O_RDONLY) in
  if fd <? 0 then say ("cat: fail" ++ newline)
  else
    do! cat_loop cat_fuel fd in
    do! on_shell_fs (fs_close fd) in
    putchar 10.

(** [read_file_all] of [user_util.c]: the result and what it has read. *)
Fixpoint read_all_loop (fuel : nat) (fd cap : Z) (acc : list Z) : HM (list Z) :=
  if Z.of_nat (length acc) <? cap then
    match fuel with
    | O => knofuel
    | S fuel' =>
        let! r := on_shell_fs (fs_read fd true (cap - length acc)) in
        if r.1 <=? 0 then kret acc else read_all_loop fuel' fd cap (acc ++ take (Z.to_nat r.1) r.2)
    end
  else kret acc.
Definition read_file_all (path : list Z) (cap : Z) : HM (Z * list Z) :=
  let! fd := on_shell_fs (fs_open (Some path) O_RDONLY) in
  if fd <? 0 then kret (-1, [])
  else
    let! acc := read_all_loop cat_fuel fd cap [] in
    do! on_shell_fs (fs_close fd) in
    kret (Z.of_nat (length acc), acc).

Definition shell_rm (path : list Z) : HM unit :=
  let! r := on_shell_fs (fs_unlink (Some path)) in
  if r <? 0 then say ("rm: fail" ++ newline) else on_my (λ v, set_db (filedb_remove path (sv_db v)) v).

(** [for (int i = 2; i < argc; i++)] on the arguments left; [first] is [i == 2]. *)
Fixpoint write_words (fd : Z) (first : bool) (args : list (list Z)) : HM unit :=
  match args with
  | [] => kret tt
  | a :: args' =>
      do! (if first then kret 0 else on_shell_fs (fs_write fd (Some [32]) 1)) in
      do! on_shell_fs (fs_write fd (Some a) (str_len a)) in
      write_words fd false args'
  end.
Definition shell_write (path : list Z) (args : list (list Z)) : HM unit :=
  let! fd := on_shell_fs (fs_open (Some path) (Z.lor (Z.lor O_CREAT O_TRUNC) O_WRONLY)) in
  if fd <? 0 then say ("write: fail" ++ newline)
  else
    do! write_words fd true args in
    do! on_shell_fs (fs_close fd) in
    on_my (λ v, set_db (filedb_add path (sv_db v)) v).

Definition shell_img (path : list Z) : HM unit :=
  let! r := img_open_path path in
  if r <? 0 then say ("img: fail" ++ newline) else kret tt.

Definition shell_gui : HM unit :=
  let! v := my_vars in
  do! (if sv_main_win v <=? 0 then let! w := open_terminal in on_my (set_main_win w) else kret tt) in
  on_wm wm_render.

Definition is_cmd (a : list Z) (name : string) : bool := str_eq a (bytes_of name).

(** A command that needs an argument, or its usage. *)
Definition with_arg (args : list (list Z)) (usage : string) (f : list Z → HM unit) : HM unit :=
  match args with
  | a :: _ => f a
  | [] => say (usage ++ newline)
  end.

(** The chain of comparisons; [cmd] is [argv[0]] and [args] the rest. *)
Definition run_command (cmd : list Z) (args : list (list Z)) : HM shell_next :=
  if is_cmd cmd "help" then do! shell_help in kret Again
  else if is_cmd cmd "ls" then do! shell_ls in kret Again
  else if is_cmd cmd "cat" then do! with_arg args "usage: cat <path>" shell_cat in kret Again
  else if is_cmd cmd "touch" then do! with_arg args "usage: touch <path>" shell_touch in kret Again
  else if is_cmd cmd "gui" then do! shell_gui in kret Again
  else if is_cmd cmd "write" then
    do! match args with
        | path :: a :: rest => shell_write path (a :: rest)
        | _ => say ("usage: write <path> <text>" ++ newline)
        end in
    kret Again
  else if is_cmd cmd "img" then do! with_arg args "usage: img <path>" shell_img in kret Again
  else if is_cmd cmd "fm" then do! fm_run in kret Again
  else if is_cmd cmd "rm" then do! with_arg args "usage: rm <path>" shell_rm in kret Again
  else if is_cmd cmd "shutdown" then kret PoweredOff
  else do! say ("unknown command" ++ newline) in kret Again.

(** ** The loop *)

(** A line feed: [g_line[len] = '\0'], [split_args], the command, the new prompt. *)
Definition enter : HM shell_next :=
  do! putchar 10 in
  do! term_append [10] in
  do! on_my (λ v, set_line (<[sv_len v := 0]> (sv_line v)) (sv_len v) v) in
  let! v := my_vars in
  match split_args (sv_line v) SHELL_MAX_ARGS with
  | None => kfault
  | Some (argv, line) =>
      do! on_my (λ v, set_line line (sv_len v) v) in
      let! next := match arg_at line <$> argv with [] => kret Again | cmd :: args => run_command cmd args end in
      match next with
      | PoweredOff => kret PoweredOff
      | Again =>
          do! on_my (λ v, set_line (sv_line v) 0 v) in
          do! say "k> " in
          do! term_append (bytes_of "k> ") in
          do! term_view_sync in
          kret Again
      end
  end.

Definition erase : HM shell_next :=
  let! v := my_vars in
  if (0 <? sv_len v)%nat then
    do! on_my (λ v, set_line (sv_line v) (sv_len v - 1) v) in
    do! u_puts [8; 32; 8] in
    do! on_my (λ v, set_term (term_view_backspace (sv_term v)) v) in
    do! term_view_sync in
    kret Again
  else kret Again.

Definition type_char (ch : Z) : HM shell_next :=
  let! v := my_vars in
  if (sv_len v + 1 <? SHELL_MAX_LINE)%nat then
    do! on_my (λ v, set_line (<[sv_len v := ch]> (sv_line v)) (S (sv_len v)) v) in
    do! putchar ch in
    do! on_my (λ v, set_term (term_view_append_char ch (sv_term v)) v) in
    do! term_view_sync in
    kret Again
  else kret Again.

(** The body of the loop on the result of [u_getchar]. *)
Definition shell_key (ch : Z) : HM shell_next :=
  if ch <? 0 then do! on_shell_sys (on_kernel do_yield) in kret Again
  else if (ch =? 13) || (ch =? 10) then enter
  else if (ch =? 8) || (ch =? 127) then erase
  else if (32 <=? ch) && (ch <=? 126) then type_char ch
  else kret Again.
Definition shell_round (console : Z) : HM shell_next := let! ch := u_getchar console in shell_key ch.

Definition wm_input_init : HM Z := λ h,
  Done ((virtio_input_init (sh_input h)).1, ShellState (sh_sys h) (virtio_input_init (sh_input h)).2 (sh_wm h) (sh_vars h)).

(** [user_init_entry] in front of its loop. *)
Definition shell_start : HM unit :=
  do! say ("kernel:starting shell..." ++ newline) in
  do! on_my (λ v, set_input (InputState (iq_buf (sv_input v)) 0 0 false) v) in
  do! shell_printf ("shell: calling wm_init..." ++ newline) [] in
  do! on_wm wm_init in
  do! shell_printf ("shell: calling wm_input_init..." ++ newline) [] in
  do! wm_input_init in
  do! on_my (λ v, set_db (FileDb (db_names (sv_db v)) 0) (set_hist (history_init (sv_hist v)) (set_term (term_view_clear (sv_term v)) v))) in
  do! shell_printf ("shell: creating terminal window..." ++ newline) [] in
  let! w := open_terminal in
  do! on_my (set_main_win w) in
  do! (if 0 <? w then do! term_view_reset in do! on_wm (wm_focus w) in kret tt else kret tt) in
  do! shell_printf ("shell: performing initial render..." ++ newline) [] in
  do! on_wm wm_render in
  do! say "kernel> " in
  on_my (λ v, set_line (sv_line v) 0 v).
End shell.
