(* ===== verification/ShellInv.v ===== *)
(** * The queue of typed characters

    The ring [g_input_q] as the sequence of the characters that wait in it, and what each key event adds to it. *)

From S2P Require Import Prelude Layout KString PageAlloc PageAllocSpec PageIface Vm Proc Sched Ring Event Printf Fs FsSpec FsOps FsProps Process ProcessSpec ProcessLife GpuIface Syscall VirtioInput Wm WmEvents WmDraw WmOrder WmScene WmInv WmOps WmLife WmImage WmRender WmProps UserUtil Shell.

Lemma take_app_take {A} (n : nat) (a b : list A) : take n (take n a ++ b) = take n (a ++ b).
Proof.
  destruct (decide (n ≤ length a)%nat).
  - rewrite !take_app_le by (rewrite ?length_take; lia). by rewrite take_take, Nat.min_id.
  - by rewrite (take_ge a) by lia.
Qed.

Record input_ok (i : input_state) : Prop := {
  io_ring : ring_ok INPUT_Q (iq_buf i) (iq_head i) (iq_tail i);
  io_chars : Forall (λ c, 0 ≤ c < 128) (iq_buf i);
}.

Definition input_items (i : input_state) : list Z := ring_items 0 INPUT_Q (iq_buf i) (iq_head i) (iq_tail i).
Lemma input_q_gt1 : 1 < INPUT_Q.
Proof. done. Qed.
Lemma input_items_short i : (length (input_items i) ≤ 15)%nat.
Proof.
  pose proof (length_ring_items 0 INPUT_Q input_q_gt1 (iq_buf i) (iq_head i) (iq_tail i)) as Hl. pose proof (ring_len_bound INPUT_Q input_q_gt1 (iq_head i) (iq_tail i)) as Hb.
  unfold input_items, INPUT_Q in *. lia.
Qed.

(** A character is put last, if less than 15 wait. *)
Lemma input_q_push_spec c i : input_ok i → 0 ≤ c < 128 →
  input_ok (input_q_push c i) ∧ input_items (input_q_push c i) = take 15 (input_items i ++ [c]) ∧ iq_shift (input_q_push c i) = iq_shift i.
Proof.
  intros [H Hc] Hr. pose proof (ring_full_iff 0 INPUT_Q input_q_gt1 _ _ _ H) as Hf. pose proof (input_items_short i) as Hs. unfold input_q_push.
  destruct (Z.eqb_spec ((iq_tail i + 1) mod INPUT_Q) (iq_head i)) as [He|He].
  - apply Hf in He. split; [by split|]. split; [|done]. rewrite take_app_le, take_ge; [done|lia|]. unfold INPUT_Q in He at 2. unfold input_items. lia.
  - destruct (ring_push 0 INPUT_Q input_q_gt1 _ _ _ c H He) as [H' Hi]. split; [split; [done|]|split; [|done]].
    + cbn. unfold aset. destruct (_ <? _); [done|]. by apply Forall_insert.
    + unfold input_items in *. cbn [iq_buf iq_head iq_tail]. rewrite Hi, take_ge; [done|]. rewrite length_app. cbn [length].
      assert (Z.of_nat (length (ring_items 0 INPUT_Q (iq_buf i) (iq_head i) (iq_tail i))) ≠ INPUT_Q - 1) by tauto. unfold INPUT_Q in H0 at 2. lia.
Qed.

(** The first character is taken. *)
Lemma input_q_pop_spec i : input_ok i →
  let '(ch, i') := input_q_pop i in
  input_ok i' ∧ iq_shift i' = iq_shift i ∧
  match input_items i with [] => ch = -1 ∧ i' = i | c :: l => ch = c ∧ 0 ≤ c < 128 ∧ input_items i' = l end.
Proof.
  intros [H Hc]. unfold input_q_pop, input_items. destruct (Z.eqb_spec (iq_head i) (iq_tail i)) as [He|He].
  - rewrite (proj1 (ring_empty_iff 0 INPUT_Q input_q_gt1 _ _ _ H) He). done.
  - destruct (ring_pop 0 INPUT_Q input_q_gt1 _ _ _ H He) as [H' ->]. split; [done|]. split; [done|]. destruct H as [Hl Hh _].
    destruct (aget_in (iq_buf i) (iq_head i)) as [x Hx]; [lia|]. unfold ring_at. rewrite Z.mod_small, Hx by done. cbn [default]. split; [done|]. split; [|done].
    apply aget_nat_ex in Hx as (j & _ & Hj). by apply (Forall_lookup_1 _ _ _ _ Hc Hj).
Qed.

(** The characters of the keys. *)
Lemma map_key_ascii_range code shift : 0 ≤ map_key_ascii code shift < 128.
Proof.
  unfold map_key_ascii. destruct (list_find _ key_table) as [[i [k [a b]]]|] eqn:E; [|lia]. apply list_find_Some in E as (Hi & _ & _).
  assert (Ht : Forall (λ e : Z * (Z * Z), 0 ≤ e.2.1 < 128 ∧ 0 ≤ e.2.2 < 128) key_table) by (repeat (constructor; [cbn; lia|]); constructor).
  destruct (Forall_lookup_1 _ _ _ _ Ht Hi) as [? ?]. cbn in *. by destruct shift.
Qed.

(** What an event adds to the queue, and the shift key after it. *)
Definition key_chars (shift : bool) (e : k_event) : list Z * bool :=
  let code := ev_b e mod 65536 in
  if negb (ev_type e =? KEVENT_TYPE_INPUT) || negb (ev_a e mod 65536 =? VI_EV_KEY) then ([], shift)
  else if (code =? VI_KEY_LEFTSHIFT) || (code =? VI_KEY_RIGHTSHIFT) then ([], negb (ev_c e =? 0))
  else if ev_c e =? 0 then ([], shift)
  else if code =? VI_KEY_UP then ([27; 91; 65], shift)
  else if code =? VI_KEY_DOWN then ([27; 91; 66], shift)
  else ((if map_key_ascii code shift =? 0 then [] else [map_key_ascii code shift]), shift).
Definition feed (s : list Z * bool) (e : k_event) : list Z * bool :=
  let '(cs, shift) := key_chars s.2 e in (take 15 (s.1 ++ cs), shift).

Lemma push_all cs i : input_ok i → Forall (λ c, 0 ≤ c < 128) cs → let i' := foldl (λ i c, input_q_push c i) i cs in
  input_ok i' ∧ input_items i' = take 15 (input_items i ++ cs) ∧ iq_shift i' = iq_shift i.
Proof.
  intros Hi Hcs. revert i Hi. induction Hcs as [|c cs Hc _ IH]; intros i Hi; cbn.
  - rewrite app_nil_r, take_ge by apply input_items_short. done.
  - destruct (input_q_push_spec c i Hi Hc) as (H1 & E1 & S1). destruct (IH _ H1) as (H2 & E2 & S2). split; [done|]. rewrite E2, E1, S2, S1. split; [|done].
    rewrite take_app_take, <-app_assoc. done.
Qed.

Lemma take_event_spec e i : input_ok i → input_ok (take_event e i) ∧ (input_items (take_event e i), iq_shift (take_event e i)) = feed (input_items i, iq_shift i) e.
Proof.
  intros Hi. unfold take_event, feed, key_chars. cbn [fst snd].
  assert (Hsame : take 15 (input_items i ++ []) = input_items i) by (rewrite app_nil_r; apply take_ge, input_items_short).
  assert (Hpush : ∀ cs, Forall (λ c, 0 ≤ c < 128) cs → let i' := foldl (λ i c, input_q_push c i) i cs in
    input_ok i' ∧ (input_items i', iq_shift i') = (take 15 (input_items i ++ cs), iq_shift i)).
  { intros cs Hcs. cbv zeta. destruct (push_all cs i Hi Hcs) as (H & -> & ->). done. }
  destruct (negb (ev_type e =? KEVENT_TYPE_INPUT)); cbn [orb]; [by rewrite Hsame|]. destruct (negb (ev_a e mod 65536 =? VI_EV_KEY)); [by rewrite Hsame|].
  destruct (_ || _); [rewrite Hsame; split; [by destruct Hi|done]|]. destruct (ev_c e =? 0); [by rewrite Hsame|].
  destruct (_ =? VI_KEY_UP); [apply (Hpush [27; 91; 65]); repeat constructor; lia|]. destruct (_ =? VI_KEY_DOWN); [apply (Hpush [27; 91; 66]); repeat constructor; lia|].
  pose proof (map_key_ascii_range (ev_b e mod 65536) (iq_shift i)). destruct (_ =? 0); cbn [negb]; [by rewrite Hsame|].
  apply (Hpush [_]), Forall_singleton, H.
Qed.

Lemma input_q_pop_ok i : input_ok i → input_ok (input_q_pop i).2.
Proof. intros H. pose proof (input_q_pop_spec i H) as Hp. destruct (input_q_pop i). apply Hp. Qed.
Lemma take_event_ok e i : input_ok i → input_ok (take_event e i).
Proof. intros H. apply take_event_spec, H. Qed.

(** ** The shell keeps its buffers and the components it calls in order *)

Create HintDb shell.

(** ** The variables of the shell *)

Record term_ok (t : term_state) : Prop := { to_len : length (tv_buf t) = 4096%nat; to_room : (tv_len t < 4096)%nat }.
Record vars_ok (v : shell_vars) : Prop := {
  vo_line : length (sv_line v) = 128%nat;
  vo_len : (sv_len v < 128)%nat;
  vo_iobuf : length (sv_iobuf v) = 1024%nat;
  vo_db : db_ok (sv_db v);
  vo_term : term_ok (sv_term v);
  vo_input : input_ok (sv_input v);
}.

Lemma term_append_char_ok c t : term_ok t → term_ok (term_view_append_char c t).
Proof.
  intros [H1 H2]. unfold term_view_append_char, WM_TEXT_MAX. destruct (Nat.leb_spec 4096 (S (tv_len t))); [done|].
  split; cbn; [by rewrite !length_insert|lia].
Qed.
#[export] Hint Resolve term_append_char_ok : shell.

Lemma term_append_ok s t : term_ok t → term_ok (term_view_append s t).
Proof. revert t. induction s as [|c s IH]; intros t H; cbn; [done|]. by apply IH, term_append_char_ok. Qed.

Lemma term_backspace_ok t : term_ok t → term_ok (term_view_backspace t).
Proof.
  intros [H1 H2]. unfold term_view_backspace. destruct (tv_len t) as [|n] eqn:E; [by split; rewrite ?E|].
  destruct (_ =? 10); [split; [done|by rewrite E]|]. split; cbn; [by rewrite length_insert|lia].
Qed.

Lemma term_clear_ok t : term_ok t → term_ok (term_view_clear t).
Proof. intros [H1 _]. split; cbn; [by rewrite length_insert|lia]. Qed.
#[export] Hint Resolve input_q_pop_ok take_event_ok term_append_ok term_backspace_ok term_clear_ok : shell.

Lemma str_at_length l : (length (str_at l) ≤ length l)%nat.
Proof. induction l as [|c l IH]; cbn; [lia|]. destruct (c =? 0); cbn; lia. Qed.

(** An array with a NUL holds a string. *)
Lemma str_at_split l i : l !! i = Some 0 → ∃ r, l = str_at l ++ 0 :: r.
Proof.
  revert i. induction l as [|c l IH]; intros [|i] Hi; cbn in *; try done.
  - injection Hi as ->. by exists l.
  - destruct (Z.eqb_spec c 0) as [->|]; [by exists l|]. destruct (IH i Hi) as [r Hr]. exists r. cbn. by rewrite <-Hr.
Qed.

(** Closes the condition of [tame_on_my] below. *)
Ltac keep_vars := intros ? []; split; [split; cbn; auto with shell|done].

(** ** The invariant *)

Section inv.
Context {L : Layout} {LOK : LayoutOk} {P G D : Type} {PO : PageOps P} {POK : PageOpsOk P} {GO : GpuOps P G} {GOK : GpuOpsOk P G}.
Context {EX : Ext4Ops} {VD : ViDevice D} {VP : ViPlaces}.
Abbreviation HM := (km (shell_state P G D)).
Implicit Types h : shell_state P G D.

Definition fs_of h : fs_state := k_fs (ss_kernel (sh_sys h)).
Definition console_of h : list Z := ss_console (sh_sys h).

Record shell_inv h : Prop := {
  si_vars : vars_ok (sh_vars h);
  si_fs : fs_ok (fs_of h);
  si_wm : wm_inv (wm_of h);
  si_cursor : cursor_ok (sh_wm h);
  si_events : kevent_ok (ss_events (sh_sys h));
  si_kbd : kbd_ok (ss_kbd (sh_sys h));
}.

(** What the shell needs to know of the window manager and of its own windows before a command. *)
Definition desk (v : wm_vars) := (wm_screen_w v, wm_screen_h v, wm_gpu_ready v, wm_cursor_x v, wm_cursor_y v, wm_next_id v, wm_next_z v, wm_focus_id v).
Definition quiet h h' : Prop :=
  desk (sh_wm h') = desk (sh_wm h) ∧ sv_fm_active (sh_vars h') = sv_fm_active (sh_vars h) ∧ sv_fm_win (sh_vars h') = sv_fm_win (sh_vars h).
#[export] Instance quiet_po : PreOrder quiet.
Proof. split; [done|]. intros h1 h2 h3 (A1 & A2 & A3) (B1 & B2 & B3). split_and!; congruence. Qed.

(** Nor has the line. *)
Definition still h h' : Prop := quiet h h' ∧ sv_line (sh_vars h') = sv_line (sh_vars h) ∧ sv_len (sh_vars h') = sv_len (sh_vars h).
#[export] Instance still_po : PreOrder still.
Proof. split; [done|]. intros h1 h2 h3 (A1 & A2 & A3) (B1 & B2 & B3). split; [by etrans|split; congruence]. Qed.

(** Code that always returns, keeps the invariant and neither opens a window, moves the focus nor edits the line. *)
Definition tame {A} (c : HM A) (Q : A → Prop) : Prop := ∀ h, shell_inv h → wp c (λ a h', shell_inv h' ∧ still h h' ∧ Q a) h.
(** Code that always returns and keeps the invariant. *)
Definition safe {A} (c : HM A) : Prop := ∀ h, shell_inv h → wp c (λ _ h', shell_inv h') h.

Lemma tame_ret {A} (a : A) (Q : A → Prop) : Q a → tame (kret a) Q.
Proof. intros HQ h Hh. wp_steps. done. Qed.

Lemma tame_bind {A B} (c : HM A) (f : A → HM B) Q R : tame c Q → (∀ a, Q a → tame (f a) R) → tame (kbind c f) R.
Proof.
  intros Hc Hf h Hh. wp_step. eapply wp_mono; [by apply Hc|]. intros a h1 (H1 & Hq1 & HQ). eapply wp_mono; [by apply Hf|].
  intros b h2 (H2 & Hq2 & HR). split_and!; [done|by etrans|done].
Qed.

Lemma tame_weaken {A} (c : HM A) (Q R : A → Prop) : tame c Q → (∀ a, Q a → R a) → tame c R.
Proof. intros Hc HQ h Hh. eapply wp_mono; [by apply Hc|]. intros a h' (H1 & H2 & H3). auto. Qed.

Lemma tame_safe {A} (c : HM A) Q : tame c Q → safe c.
Proof. intros Hc h Hh. eapply wp_mono; [by apply Hc|]. by intros a h' [? _]. Qed.

Lemma safe_ret {A} (a : A) : safe (kret a).
Proof. intros h Hh. by wp_steps. Qed.

Lemma safe_bind {A B} (c : HM A) (f : A → HM B) Q : tame c Q → (∀ a, Q a → safe (f a)) → safe (kbind c f).
Proof. intros Hc Hf h Hh. wp_step. eapply wp_mono; [by apply Hc|]. intros a h1 (H1 & _ & HQ). by apply Hf. Qed.

Lemma safe_then {A B} (c : HM A) (f : A → HM B) : safe c → (∀ a, safe (f a)) → safe (kbind c f).
Proof. intros Hc Hf h Hh. wp_step. eapply wp_mono; [by apply Hc|]. intros a h1 H1. by apply Hf. Qed.

(** ** Steps *)
Lemma tame_vars : tame my_vars vars_ok.
Proof. intros h Hh. unfold my_vars. wp_steps. split_and!; [done|done|apply Hh]. Qed.

Lemma tame_on_my f :
  (∀ v, vars_ok v → vars_ok (f v) ∧ sv_fm_active (f v) = sv_fm_active v ∧ sv_fm_win (f v) = sv_fm_win v ∧
     sv_line (f v) = sv_line v ∧ sv_len (f v) = sv_len v) → tame (on_my f) (λ _, True).
Proof.
  intros Hf h [H1 H2 H3 H4 H5 H6]. unfold on_my. wp_steps. destruct (Hf _ H1) as (Hv & E1 & E2 & E3 & E4). by split_and!.
Qed.

Lemma tame_sys (f : sys_state P G → sys_state P G) :
  (∀ s, ss_kernel (f s) = ss_kernel s ∧ ss_gpu (f s) = ss_gpu s ∧ (kevent_ok (ss_events s) → kevent_ok (ss_events (f s))) ∧ (kbd_ok (ss_kbd s) → kbd_ok (ss_kbd (f s)))) →
  tame (on_shell_sys (kmodify f)) (λ _, True).
Proof.
  intros Hf h [H1 H2 H3 H4 H5 H6]. unfold on_shell_sys. apply wp_zoom. wp_steps. destruct (Hf (sh_sys h)) as (E1 & E2 & E3 & E4).
  split; [|done]. split; cbn [sh_vars sh_sys set_sh_sys]; [done| | |done|by apply E3|by apply E4].
  - unfold fs_of. cbn. by rewrite E1.
  - unfold wm_of. cbn. by rewrite E1, E2.
Qed.

Lemma tame_putchar c : tame (putchar c) (λ _, True).
Proof. by apply tame_sys. Qed.

Lemma tame_puts s : tame (u_puts s) (λ _, True).
Proof.
  induction s as [|c s IH]; cbn [u_puts]; [by apply tame_ret|]. eapply tame_bind; [apply tame_putchar|]. intros [] _. exact IH.
Qed.

Lemma tame_say s : tame (say s) (λ _, True).
Proof. apply tame_puts. Qed.

Lemma tame_fs {A} (c : km fs_state A) Q : (∀ s, fs_ok s → wp c (λ a s', fs_ok s' ∧ Q a) s) → tame (on_shell_fs c) Q.
Proof.
  intros Hc h [H1 H2 H3 H4 H5 H6]. unfold on_shell_fs, on_shell_sys, on_kernel, on_fs. do 3 apply wp_zoom.
  eapply wp_mono; [by apply Hc|]. intros a s' [Hs Ha]. split_and!; [by split|done|done].
Qed.

Lemma tame_events {A} (c : km kevent_state A) Q : (∀ s, kevent_ok s → wp c (λ a s', kevent_ok s' ∧ Q a) s) → tame (on_shell_sys (on_events c)) Q.
Proof.
  intros Hc h [H1 H2 H3 H4 H5 H6]. unfold on_shell_sys, on_events. do 2 apply wp_zoom.
  eapply wp_mono; [by apply Hc|]. intros a s' [Hs Ha]. split_and!; [by split|done|done].
Qed.

Lemma tame_yield : tame (on_shell_sys (on_kernel do_yield)) (λ _, True).
Proof.
  intros h [H1 H2 H3 H4 H5 H6]. unfold on_shell_sys, on_kernel. do 2 apply wp_zoom. apply wp_modify. cbv zeta.
  pose proof (yield_spec (k_sched (ss_kernel (sh_sys h))) (fo_sched _ H2)) as Hy. cbn zeta in Hy. destruct Hy as (Hs & _ & Hb & _).
  pose proof (fs_ok_budget _ _ H2 Hs Hb) as Hf. case_bool_decide; (split; [by split|done]).
Qed.

(** ** Keys *)
Lemma tame_pop_key : tame pop_key (λ _, True).
Proof.
  eapply tame_bind; [apply tame_vars|]. intros v Hv. pose proof (input_q_pop_ok _ (vo_input v Hv)) as Hi. destruct (input_q_pop (sv_input v)) as [ch i].
  eapply tame_bind; [apply tame_on_my; keep_vars|]. intros [] _. by apply tame_ret.
Qed.

Lemma tame_pull_events n : tame (pull_events n) (λ _, True).
Proof.
  induction n as [|n IH]; cbn [pull_events]; [by apply tame_ret|]. apply (tame_bind _ _ (λ _, True)).
  - apply tame_events. intros s Hs. eapply wp_mono; [by apply kevent_pop_spec|]. by intros r s' [? _].
  - intros [e|] _; [|by apply tame_ret]. eapply tame_bind; [apply tame_on_my; keep_vars|]. intros [] _. exact IH.
Qed.

Lemma tame_printf fmt args : (∃ out, printf (bytes_of fmt) args = Some out) → tame (shell_printf fmt args) (λ _, True).
Proof. intros [out E]. unfold shell_printf. rewrite E. by apply tame_sys. Qed.

Lemma printf_deq c : ∃ out, printf (bytes_of ("kbdq:deq ch=%d" ++ newline)) [AWord c] = Some out.
Proof.
  destruct (print_d_spec c) as (out & E & _). eexists.
  let l := eval vm_compute in (bytes_of ("kbdq:deq ch=%d" ++ newline)) in change (bytes_of ("kbdq:deq ch=%d" ++ newline)) with l.
  cbn [printf Z.eqb Pos.eqb]. rewrite E. reflexivity.
Qed.

Lemma tame_shell_getchar console : tame (shell_getchar console) (λ _, True).
Proof.
  intros h Hh. unfold shell_getchar. wp_steps. destruct (kbd_queue_fifo (ss_kbd (sh_sys h)) 0 console (si_kbd h Hh)) as [_ Hk].
  destruct (getchar console (ss_kbd (sh_sys h))) as [r kbd]. destruct Hk as [Hk Hr].
  assert (Hc : ∃ c, r = Some c) by (destruct (kbd_items _); destruct Hr as [-> _]; eauto). destruct Hc as [c ->].
  pose proof (tame_sys (λ s, SysState (ss_kernel s) (ss_events s) kbd (ss_console s) (ss_gpu s))) as Ht.
  wp_step. eapply wp_mono; [by apply Ht|]. intros [] h' (Hh' & Hq & _). wp_step. apply wp_mono with (λ _ h2, shell_inv h2 ∧ still h' h2 ∧ True).
  - destruct (_ =? _); [by wp_steps|]. apply tame_printf; [apply printf_deq|done].
  - intros [] h2 (H2 & Hq2 & _). wp_steps. split; [done|]. by split; [etrans|].
Qed.

Lemma tame_getchar console : tame (u_getchar console) (λ _, True).
Proof.
  eapply tame_bind; [apply tame_pop_key|]. intros ch _. destruct (0 <=? ch); [by apply tame_ret|].
  eapply tame_bind; [apply tame_pull_events|]. intros [] _. eapply tame_bind; [apply tame_pop_key|]. intros c _.
  destruct (0 <=? c); [by apply tame_ret|apply tame_shell_getchar].
Qed.
End inv.
