(* ===== verification/ShellCmds.v ===== *)
(** * Every command of the shell returns and keeps the invariant *)

From S2P Require Import Prelude Layout KString PageAlloc PageAllocSpec PageIface Vm Proc Sched Ring Event Printf Fs FsSpec FsOps FsProps Process ProcessSpec ProcessLife GpuIface Syscall.
From S2P Require Import VirtioInput Wm WmEvents WmDraw WmOrder WmScene WmInv WmOps WmLife WmImage WmRender WmProps UserUtil Shell ShellInv.

(** ** What the calls to the window manager leave alone *)

Section desk.
Context {L : Layout} {P G : Type} {PO : PageOps P} {GO : GpuOps P G}.
Implicit Types s : wm_state P G.

Lemma mark_window_desk w v : desk (wm_mark_dirty_window w v) = desk v.
Proof. unfold wm_mark_dirty_window, wm_mark_dirty_window_box, wm_mark_dirty_rect. by repeat case_match. Qed.
Lemma mark_taskbar_desk v : desk (wm_mark_dirty_taskbar v) = desk v.
Proof. unfold wm_mark_dirty_taskbar, wm_mark_dirty_rect. by repeat case_match. Qed.

Lemma set_text_desk id text s : wlp (wm_set_text id text) (λ _ s', desk (wm s') = desk (wm s)) s.
Proof.
  unfold wm_set_text, with_window, vars, on_vars. wlp_steps. destruct (wm_find _ _); [|by wlp_steps]. destruct (_ !! _); [|done].
  wlp_steps. cbn [wm]. by rewrite mark_window_desk.
Qed.

Definition cursor_of (v : wm_vars) := (wm_cursor_x v, wm_cursor_y v).
Lemma desk_cursor v v' : desk v' = desk v → cursor_of v' = cursor_of v.
Proof. unfold desk, cursor_of. by intros [= _ _ _ -> -> _ _ _]. Qed.

(** A new window leaves the screen, the cursor and the focus. *)
Lemma create_desk title ww hh s : wlp (wm_create title ww hh) (λ _ s', cursor_of (wm s') = cursor_of (wm s) ∧ wm_focus_id (wm s') = wm_focus_id (wm s) ∧
  (wm_next_z (wm s') = wm_next_z (wm s) ∨ wm_next_z (wm s') = iadd (wm_next_z (wm s)) 1)) s.
Proof.
  unfold wm_create, vars, on_vars. wlp_steps. destruct (find_index _ _); [|by wlp_steps; auto]. destruct (c_rem _ _); [|done]. destruct (c_rem _ _); [|done].
  cbv zeta. wlp_steps. cbn [wm].
  match goal with |- context [wm_mark_dirty_taskbar ?v] => pose proof (mark_taskbar_desk v) as Ht; set (v' := wm_mark_dirty_taskbar v) in *; clearbody v' end.
  rewrite mark_window_desk in Ht. unfold desk, cursor_of in *. injection Ht as _ _ _ -> -> _ -> ->. cbn. auto.
Qed.
End desk.

Lemma wp_also {S A} (c : km S A) (Q R : A → S → Prop) s : wp c Q s → wlp c R s → wp c (λ a s', Q a s' ∧ R a s') s.
Proof. unfold wp, wlp. by destruct (c s) as [[a s']| | | |]. Qed.

Section cmds.
Context {L : Layout} {LOK : LayoutOk} {P G D : Type} {PO : PageOps P} {POK : PageOpsOk P} {GO : GpuOps P G} {GOK : GpuOpsOk P G}.
Context {EX : Ext4Ops} {VD : ViDevice D} {VP : ViPlaces}.
Abbreviation HM := (km (shell_state P G D)).
Implicit Types h : shell_state P G D.

(** ** Windows *)
Lemma put_wm_inv w h : shell_inv h → wm_inv w → cursor_of (wm w) = cursor_of (sh_wm h) → shell_inv (put_wm w h).
Proof.
  intros [H1 H2 H3 H4 H5 H6] Hw [= Ex Ey]. split; try done.
  - unfold wm_of, put_wm. cbn. by destruct w.
  - unfold put_wm, cursor_ok in *. cbn. by rewrite Ex, Ey.
Qed.

Lemma tame_set_text id text : tame (P:=P) (G:=G) (D:=D) (on_wm (wm_set_text id text)) (λ _, True).
Proof.
  intros h Hh. apply wp_zoom. eapply wp_mono; [apply wp_also; [apply wm_set_text_spec, Hh|apply set_text_desk]|].
  intros r w [[Hw _] Hd]. split_and!; [apply put_wm_inv; [done|done|by apply desk_cursor]|done..].
Qed.

Lemma tame_sync : tame (P:=P) (G:=G) (D:=D) term_view_sync (λ _, True).
Proof.
  eapply tame_bind; [apply tame_vars|]. intros v _. destruct (0 <? sv_main_win v); [|by apply tame_ret].
  eapply tame_bind; [apply tame_set_text|]. intros r _. by apply tame_ret.
Qed.

Lemma safe_render : safe (P:=P) (G:=G) (D:=D) (on_wm wm_render).
Proof.
  intros h Hh. apply wp_zoom. destruct (wm_gpu_ready (sh_wm h)) eqn:Hr.
  - eapply wp_mono; [apply wm_render_spec; [apply Hh|done|apply Hh]|]. intros [] w [Hw Hn]. apply put_wm_inv; [done|done|].
    by rewrite (rn_vars _ _ Hn).
  - eapply wp_mono; [apply (wp_also _ (λ _ w, wm_inv w) (λ _ w, cursor_of (wm w) = cursor_of (sh_wm h))); [by apply wm_render_text; [apply Hh|]|]|].
    2: { intros [] w [Hw Hc]. by apply put_wm_inv. }
    unfold wm_render, vars, on_vars. wlp_steps. cbn [wm wm_pages wm_gpu].
    change (wm_gpu_ready (wm_repack_z (wm (wm_of h)))) with (wm_gpu_ready (sh_wm h)). rewrite Hr. by wlp_steps.
Qed.

(** No [int] overflows in the next command and no window gets a place modulo zero; the window of the file manager has not the focus. *)
Record round_ok h : Prop := {
  ro_next : wm_next_id (sh_wm h) < 2147483647 ∧ wm_next_z (sh_wm h) < 2147483647;
  ro_width : wm_screen_w (sh_wm h) ∉ [519; 399; 319];
  ro_height : wm_usable_h (sh_wm h) ∉ [299; 239];
  ro_focus : sv_fm_active (sh_vars h) = true → wm_focus_id (sh_wm h) ≠ sv_fm_win (sh_vars h);
}.

Lemma round_ok_quiet h h' : quiet h h' → round_ok h → round_ok h'.
Proof.
  intros (Hd & E1 & E2) [H1 H2 H3 H4]. unfold desk in Hd. injection Hd as Ew Eh Er _ _ Ei Ez Ef.
  split; rewrite ?Ew, ?Ei, ?Ez, ?Ef, ?E1, ?E2; try done. unfold wm_usable_h in *. by rewrite Er, Eh.
Qed.

(** Code that is safe before a command. *)
Definition safe_cmd {A} (c : HM A) : Prop := ∀ h, shell_inv h → round_ok h → wp c (λ _ h', shell_inv h') h.

Lemma safe_cmd_safe {A} (c : HM A) : safe c → safe_cmd c.
Proof. intros Hc h Hh _. by apply Hc. Qed.

Lemma safe_cmd_bind {A B} (c : HM A) (f : A → HM B) Q : tame c Q → (∀ a, Q a → safe_cmd (f a)) → safe_cmd (kbind c f).
Proof.
  intros Hc Hf h Hh Hr. wp_step. eapply wp_mono; [by apply Hc|]. intros a h1 (H1 & [Hq _] & HQ). apply Hf; [done|done|by eapply round_ok_quiet].
Qed.

Lemma safe_cmd_then {A B} (c : HM A) (f : A → HM B) : safe_cmd c → (∀ a, safe (f a)) → safe_cmd (kbind c f).
Proof. intros Hc Hf h Hh Hr. wp_step. eapply wp_mono; [by apply Hc|]. intros a h1 H1. by apply Hf. Qed.

Lemma safe_create title ww hh : 0 ≤ ww ≤ 1024 → 0 ≤ hh ≤ 1024 → ww - 1 ∈ [519; 399; 319] → hh - 1 ∈ [299; 239] →
  safe_cmd (on_wm (wm_create title ww hh)).
Proof.
  intros Hww Hhh Hw Hk h Hh [[N1 N2] N3 N4 _]. apply wp_zoom.
  eapply wp_mono; [apply wp_also; [apply wm_create_spec; [apply Hh|lia|lia| | |done|done]|apply create_desk]|].
  - intros E. apply N3. replace (wm_screen_w (sh_wm h)) with (ww - 1); [done|]. change (wm_screen_w (sh_wm h)) with (wm_screen_w (wm (wm_of h))). lia.
  - intros E. apply N4. replace (wm_usable_h (sh_wm h)) with (hh - 1); [done|]. change (wm_usable_h (sh_wm h)) with (wm_usable_h (wm (wm_of h))). lia.
  - intros r w [[Hw' _] [Hc _]]. by apply put_wm_inv.
Qed.

Lemma safe_terminal : safe_cmd open_terminal.
Proof. apply safe_create; [lia|lia|by left|by left]. Qed.

(** A change of a variable that [quiet] mentions. *)
Lemma safe_on_my f : (∀ v, vars_ok v → vars_ok (f v)) → safe (P:=P) (G:=G) (D:=D) (on_my f).
Proof. intros Hf h [H1 H2 H3 H4 H5 H6]. unfold on_my. wp_steps. split; try done. by apply Hf. Qed.

Lemma safe_fm : safe_cmd fm_run.
Proof.
  intros h Hh Hr. unfold fm_run, my_vars. wp_steps.
  assert (Hnew : safe_cmd (let! id := on_wm (wm_create (Some (bytes_of "FileManager")) 400 300) in
    do! on_my (set_fm id) in
    do! on_wm (wm_set_text id (bytes_of ("File Manager (Direct Kernel Access)" ++ newline ++ "Click to select files."))) in
    on_wm wm_render)).
  { apply safe_cmd_then; [apply safe_create; [lia|lia|right; by left|by left]|]. intros id.
    apply safe_then; [apply safe_on_my; intros ? []; by split|]. intros []. eapply safe_bind; [apply tame_set_text|]. intros r _. apply safe_render. }
  destruct (sv_fm_active (sh_vars h)) eqn:Ha; cbn [andb]; [|wp_step; by apply Hnew].
  apply wp_zoom. eapply wp_mono; [apply wm_focus_spec; [apply Hh|apply Hr]|].
  intros r w (_ & _ & Hc & _ & [Cx Cy] & Hf). destruct (wm_find _ _) as [i|].
  - destruct Hf as (-> & _ & _ & _ & Hcl). change (0 <=? 0) with true. cbn [andb]. wp_steps. apply put_wm_inv; [done| |].
    + split; [done|]. apply Hcl; [by apply Hr|apply Hh].
    + unfold cursor_of. by rewrite Cx, Cy.
  - destruct Hf as [-> ->]. change (0 <=? -1) with false. cbn [andb].
    replace (put_wm (wm_of h) h) with h by (destruct h as [[[[] ? ?] ? ? ? ?] ? ? ?]; done). by apply Hnew.
Qed.

Lemma safe_gui : safe_cmd shell_gui.
Proof.
  eapply safe_cmd_bind; [apply tame_vars|]. intros v _. apply safe_cmd_then; [|intros []; apply safe_render].
  destruct (sv_main_win v <=? 0); [|by apply safe_cmd_safe, safe_ret]. apply safe_cmd_then; [apply safe_terminal|].
  intros w. apply safe_on_my. intros ? []. by split.
Qed.

Lemma safe_img path : safe_cmd (shell_img path).
Proof.
  apply safe_cmd_then.
  - apply safe_cmd_then; [apply safe_create; [lia|lia|right; right; by left|right; by left]|]. intros win.
    destruct (win <? 0); [apply safe_ret|]. eapply safe_bind; [apply tame_set_text|]. intros r _.
    apply safe_then; [apply safe_render|]. intros []. apply safe_ret.
  - intros r. destruct (r <? 0); [eapply tame_safe, tame_say|apply safe_ret].
Qed.
End cmds.
