(* ===== verification/ShellFiles.v ===== *)
(** * What the commands on files print and do to the files *)

From S2P Require Import Prelude Layout KString PageAlloc PageAllocSpec PageIface Vm Proc Sched Ring Event Printf Fs FsSpec FsOps FsProps Process ProcessSpec ProcessLife GpuIface Syscall.
From S2P Require Import VirtioInput Wm WmEvents WmDraw WmOrder WmScene WmInv WmOps WmLife WmImage WmRender WmProps UserUtil Shell ShellInv.

(** ** Files *)
Lemma file_of_short s n c : fs_ok s → file_of s n = Some c → (length c ≤ 1024)%nat.
Proof.
  intros Hs. unfold file_of. destruct (find_index _ _) as [i|]; [|done]. intros (a & Hi & ->)%fmap_Some.
  pose proof (Forall_lookup_1 _ _ _ _ (fo_inodes s Hs) Hi) as [? ? _]. unfold contents. rewrite length_take. lia.
Qed.

(** Storing at the end appends. *)
Lemma stored_append c c' l : stored c c' (length c) l → c' = c ++ l.
Proof.
  intros [Hlen Hg]. apply list_eq_same_length with (length c'); [rewrite length_app; lia|done|].
  intros i x y Hi Hx Hy. destruct (Hg i) as [Hin Hout]. rewrite !aget_of_nat, Hx in *. destruct (decide (i < length c)%nat).
  - rewrite lookup_app_l in Hy by done. rewrite Hy in Hout. specialize (Hout ltac:(lia) ltac:(lia)). congruence.
  - rewrite lookup_app_r in Hy by lia. replace (Z.of_nat i - Z.of_nat (length c)) with (Z.of_nat (i - length c)) in Hin by lia.
    rewrite aget_of_nat, Hy in Hin. specialize (Hin ltac:(lia)). congruence.
Qed.

(** The text of the words, with blanks between them. *)
Fixpoint words_text (first : bool) (ws : list (list Z)) : list Z :=
  match ws with
  | [] => []
  | w :: ws' => (if first then [] else [32]) ++ w ++ words_text false ws'
  end.

Section files.
Context {L : Layout} {LOK : LayoutOk} {P G D : Type} {PO : PageOps P} {POK : PageOpsOk P} {GO : GpuOps P G} {GOK : GpuOpsOk P G}.
Context {EX : Ext4Ops} {VD : ViDevice D} {VP : ViPlaces}.
Abbreviation HM := (km (shell_state P G D)).
Implicit Types h : shell_state P G D.

(** ** Steps *)

Definition chars (l : list Z) : list Z := (λ c, c mod 256) <$> l.

(** What a step leaves: the invariant, the windows and the line, and [out] on the console. *)
Record after h (out : list Z) h' : Prop := {
  af_inv : shell_inv h';
  af_quiet : quiet h h';
  af_out : console_of h' = console_of h ++ chars out;
  af_line : sv_line (sh_vars h') = sv_line (sh_vars h) ∧ sv_len (sh_vars h') = sv_len (sh_vars h);
}.

Lemma after_refl h : shell_inv h → after h [] h.
Proof. intros Hh. split; [done|done|by rewrite app_nil_r|done]. Qed.

Lemma after_trans h1 o1 h2 o2 h3 : after h1 o1 h2 → after h2 o2 h3 → after h1 (o1 ++ o2) h3.
Proof.
  intros [A1 A2 A3 [A4 A5]] [B1 B2 B3 [B4 B5]]. split; [done|by etrans|by rewrite B3, A3; unfold chars; rewrite fmap_app, app_assoc|split; congruence].
Qed.

(** Code that prints [out] and leaves the files. *)
Lemma wp_putchar c h : shell_inv h → wp (putchar c) (λ _ h', after h [c] h' ∧ fs_of h' = fs_of h) h.
Proof.
  intros Hh. apply wp_mono with (λ _ h', (shell_inv h' ∧ still h h' ∧ True) ∧
    console_of h' = console_of h ++ chars [c] ∧ fs_of h' = fs_of h).
  - apply wp_and; [by apply tame_putchar|]. unfold putchar, on_shell_sys. apply wp_zoom. by wp_steps.
  - intros [] h' ((H1 & [H2 Hl] & _) & H3 & H4). by split.
Qed.

Lemma wp_puts l h : shell_inv h → wp (u_puts l) (λ _ h', after h l h' ∧ fs_of h' = fs_of h) h.
Proof.
  revert h. induction l as [|c l IH]; intros h Hh; cbn [u_puts].
  - wp_steps. split; [by apply after_refl|done].
  - wp_step. eapply wp_mono; [by apply wp_putchar|]. intros [] h1 [H1 E1]. eapply wp_mono; [apply IH, H1|].
    intros [] h2 [H2 E2]. split; [exact (after_trans _ _ _ _ _ H1 H2)|congruence].
Qed.

Lemma wp_fs {A} (c : km fs_state A) (R : A → fs_state → Prop) h :
  shell_inv h → wp c R (fs_of h) → (∀ a s', R a s' → fs_ok s') →
  wp (on_shell_fs c) (λ a h', after h [] h' ∧ sh_vars h' = sh_vars h ∧ R a (fs_of h')) h.
Proof.
  intros [H1 H2 H3 H4 H5 H6] Hc HR. unfold on_shell_fs, on_shell_sys, on_kernel, on_fs. do 3 apply wp_zoom.
  eapply wp_mono; [exact Hc|]. intros a s' Hs. split_and!; [|done|done]. split; [|done|cbn; by rewrite app_nil_r|done]. split; try done. by apply (HR a).
Qed.

Lemma wp_my f h : shell_inv h → (∀ v, vars_ok v → vars_ok (f v) ∧ sv_fm_active (f v) = sv_fm_active v ∧ sv_fm_win (f v) = sv_fm_win v ∧
    sv_line (f v) = sv_line v ∧ sv_len (f v) = sv_len v) →
  wp (on_my f) (λ _ h', after h [] h' ∧ sh_vars h' = f (sh_vars h) ∧ fs_of h' = fs_of h) h.
Proof.
  intros Hh Hf. apply wp_mono with (λ _ h', (shell_inv h' ∧ still h h' ∧ True) ∧
    sh_vars h' = f (sh_vars h) ∧ fs_of h' = fs_of h ∧ console_of h' = console_of h).
  - apply wp_and; [by apply (tame_on_my f Hf)|]. unfold on_my. by wp_steps.
  - intros [] h' ((H1 & [H2 Hl] & _) & H3 & H4 & H5). split_and!; [|done|done]. split; [done|done|by rewrite H5, app_nil_r|done].
Qed.

Lemma wp_put_iobuf out h : shell_inv h → (length out ≤ 1024)%nat →
  wp (put_iobuf out) (λ _ h', after h [] h' ∧ take (length out) (sv_iobuf (sh_vars h')) = out ∧ fs_of h' = fs_of h) h.
Proof.
  intros Hh Hl. eapply wp_mono; [apply wp_my; [done|]|].
  - intros v []. split; [|done]. split; cbn; try done. rewrite length_app, length_drop. lia.
  - intros [] h' (H1 & -> & H3). split_and!; [done| |done]. cbn. by rewrite take_app_length.
Qed.

Lemma wp_print_iobuf n out h : shell_inv h → take (Z.to_nat n) (sv_iobuf (sh_vars h)) = out →
  wp (print_iobuf n) (λ _ h', after h out h' ∧ fs_of h' = fs_of h) h.
Proof. intros Hh <-. unfold print_iobuf, my_vars. wp_steps. by apply wp_puts. Qed.

(** ** Listing *)
Lemma shell_ls_spec h : shell_inv h →
  wp shell_ls (λ _ h', ∃ out, listing (used_names (inodes (fs_of h))) 1024 out ∧ after h out h' ∧ fs_of h' = fs_of h) h.
Proof.
  intros Hh. unfold shell_ls. wp_step. eapply wp_mono; [apply wp_fs; [done|by apply fs_listdir_spec; [apply Hh|unfold is_u32; lia]|]|].
  { intros a s' [-> _]. apply Hh. }
  intros r h1 (H1 & _ & Es & out & Hout & ->). cbn [fst snd]. pose proof Hout as (_ & _ & _ & _ & Hlt & _).
  wp_step. eapply wp_mono; [apply wp_put_iobuf; [apply H1|rewrite length_app; cbn; lia]|]. intros [] h2 (H2 & Hb & E2).
  destruct (Z.ltb_spec (length out) 0); [lia|]. eapply wp_mono; [apply (wp_print_iobuf _ out); [apply H2|]|].
  { rewrite Nat2Z.id. apply (f_equal (take (length out))) in Hb. rewrite take_app_length, take_take in Hb. rewrite Nat.min_l in Hb by (rewrite length_app; lia). exact Hb. }
  intros [] h3 (H3 & E3). exists out. split; [done|]. split; [|congruence].
  exact (after_trans _ _ _ _ _ H1 (after_trans _ _ _ _ _ H2 H3)).
Qed.

(** ** Printing a file *)
Lemma cat_loop_spec fuel fd n c : ∀ h off, shell_inv h → opened (fs_of h) (cur (fs_of h)) fd = Some (n, off, O_RDONLY) →
  file_of (fs_of h) n = Some c → 0 ≤ off → ((if decide (drop (Z.to_nat off) c = []) then 1 else 2) ≤ fuel)%nat →
  wp (cat_loop fuel fd) (λ _ h', after h (drop (Z.to_nat off) c) h' ∧ fs_frame (fs_of h) (fs_of h') ∧
    (∀ n', file_of (fs_of h') n' = file_of (fs_of h) n') ∧ ∃ off', opened_becomes (fs_of h) (fs_of h') fd (Some (n, off', O_RDONLY))) h.
Proof.
  induction fuel as [|fuel IH]; intros h off Hh Ho Hc Hoff Hf; [case_decide; lia|]. cbn [cat_loop].
  pose proof (file_of_short _ _ _ (si_fs h Hh) Hc) as Hlc.
  wp_step. eapply wp_mono; [apply wp_fs; [done|by apply fs_read_spec; [apply Hh|unfold is_u32; lia]|by intros a s' [? _]]|].
  intros [n1 buf] h1 (H1 & _ & _ & Hfr & Hfiles & Hr). rewrite Ho in Hr. change (true && negb (Z.land O_RDONLY 3 =? O_WRONLY)) with true in Hr.
  destruct Hr as (c' & Hc' & Hb & Hn & Hbec). cbn [fst snd] in *. rewrite Hc in Hc'. injection Hc' as <-.
  rewrite take_ge in Hb by (rewrite length_drop; lia). subst buf n1.
  wp_step. eapply wp_mono; [apply wp_put_iobuf; [apply H1|rewrite length_drop; lia]|]. intros [] h2 (H2 & Hb2 & E2).
  destruct (Z.leb_spec (length (drop (Z.to_nat off) c)) 0) as [Hz|Hz].
  { assert (Hnil : drop (Z.to_nat off) c = []) by (apply length_zero_iff_nil; lia). wp_steps. rewrite Hnil in *. split_and!.
    - exact (after_trans _ _ _ _ _ H1 H2).
    - by rewrite E2.
    - by rewrite E2.
    - rewrite E2. by eexists. }
  wp_step. eapply wp_mono; [apply (wp_print_iobuf _ (drop (Z.to_nat off) c)); [apply H2|by rewrite Nat2Z.id]|]. intros [] h3 (H3 & E3).
  assert (Hend : drop (Z.to_nat (off + length (drop (Z.to_nat off) c))) c = []) by (apply drop_ge; rewrite length_drop; lia).
  rewrite <-E2, <-E3 in *. eapply wp_mono; [apply (IH h3 (off + length (drop (Z.to_nat off) c)))|].
  - apply H3.
  - by apply (opened_at (fs_of h)).
  - by rewrite Hfiles.
  - lia.
  - rewrite decide_True by done. rewrite decide_False in Hf; [lia|]. intros E. rewrite E in Hz. cbn in Hz. lia.
  - rewrite Hend. intros [] h4 (H4 & F4 & G4 & off' & B4). split_and!.
    + rewrite <-(app_nil_r (drop _ _)). exact (after_trans _ _ _ _ _ (after_trans _ _ _ _ _ H1 (after_trans _ _ _ _ _ H2 H3)) H4).
    + by etrans.
    + intros n'. by rewrite G4, Hfiles.
    + exists off'. intros k fd'. rewrite B4, (ff_cur _ _ Hfr), Hbec. by repeat case_decide.
Qed.

(** A call that opens a file. *)
Lemma wp_open path flags h : shell_inv h →
  wp (on_shell_fs (fs_open (Some path) flags)) (λ r h', after h [] h' ∧ sh_vars h' = sh_vars h ∧ open_post (fs_of h) (Some path) flags r (fs_of h')) h.
Proof. intros Hh. apply wp_fs; [done|apply fs_open_spec, Hh|by intros a s' [? _]]. Qed.

Lemma open_success s path flags r s1 : open_post s (Some path) flags r s1 → 0 ≤ r →
  ∃ n, normalize_name (Some path) = Some n ∧ ¬ open_refused s n flags ∧
    (∀ n', file_of s1 n' = if decide (n' = n) then Some (open_contents s n flags) else file_of s n') ∧
    opened s (cur s) r = None ∧
    opened_becomes s s1 r (Some (n, if has_bits flags O_APPEND then Z.of_nat (length (open_contents s n flags)) else 0, flags)).
Proof.
  intros (_ & _ & Hp) Hr. destruct (normalize_name (Some path)) as [n|]; [|lia]. exists n. split; [done|]. cbv zeta in Hp.
  destruct Hp as [(_ & -> & _)|(Hnr & Hf & [(-> & _)|(_ & Hno & Hb)])]; [lia|lia|done].
Qed.

(** Closing what [open_success] opened, after other calls have moved its offset. *)
Lemma wp_close_opened fd h0 s1 v w h : shell_inv h → opened (fs_of h0) (cur (fs_of h0)) fd = None →
  fs_frame (fs_of h0) s1 → opened_becomes (fs_of h0) s1 fd v → fs_frame s1 (fs_of h) → opened_becomes s1 (fs_of h) fd (Some w) →
  wp (on_shell_fs (fs_close fd)) (λ _ h', after h [] h' ∧ sh_vars h' = sh_vars h ∧ same_fds (fs_of h0) (fs_of h') ∧ ∀ n, file_of (fs_of h') n = file_of (fs_of h) n) h.
Proof.
  intros Hh Hno Hf1 Hb1 Hf2 Hb2. eapply wp_mono; [apply wp_fs; [done|apply fs_close_spec, Hh|by intros a s' [? _]]|].
  intros r h' (H1 & Hv & _ & Hf3 & Hfile & Hcl). rewrite (opened_at _ _ _ _ Hb2 Hf2) in Hcl. destruct Hcl as [_ Hb3].
  split_and!; [done|done| |done]. pose proof (ff_cur _ _ Hf1). pose proof (ff_cur _ _ Hf2). pose proof (ff_cur _ _ Hf3).
  eapply (open_use_close (fs_of h0) s1 (fs_of h)); [congruence..|done|exact Hb1|exact Hb2|exact Hb3].
Qed.

Definition cat_post (path : list Z) h h' : Prop :=
  ∃ r s1, open_post (fs_of h) (Some path) O_RDONLY r s1 ∧
    if r <? 0 then after h (bytes_of ("cat: fail" ++ newline)) h' ∧ fs_of h' = s1
    else ∃ n c, normalize_name (Some path) = Some n ∧ file_of (fs_of h) n = Some c ∧ after h (c ++ [10]) h' ∧
      same_fds (fs_of h) (fs_of h') ∧ ∀ n', file_of (fs_of h') n' = file_of (fs_of h) n'.

Lemma shell_cat_spec path h : shell_inv h → wp (shell_cat path) (λ _ h', cat_post path h h') h.
Proof.
  intros Hh. unfold shell_cat, cat_post. wp_step. eapply wp_mono; [by apply wp_open|]. intros r h1 (H1 & _ & Ho).
  destruct (Z.ltb_spec r 0) as [Hr|Hr].
  { eapply wp_mono; [apply wp_puts, H1|]. intros [] h2 [H2 E2]. exists r, (fs_of h1). rewrite (proj2 (Z.ltb_lt r 0) Hr).
    split_and!; [done|exact (after_trans _ _ _ _ _ H1 H2)|done]. }
  destruct (open_success _ _ _ _ _ Ho Hr) as (n & Hn & Hnr & Hf1 & Hno & Hb1). cbn in Hb1.
  assert (Hc : ∃ c, file_of (fs_of h) n = Some c).
  { destruct (file_of (fs_of h) n) as [c|] eqn:E; [by exists c|]. destruct Hnr. split; [done|by left]. }
  destruct Hc as [c Hc]. unfold open_contents in Hf1. cbn in Hf1. rewrite Hc in Hf1. cbn in Hf1.
  pose proof (proj1 (proj2 Ho)) as Hfr1.
  wp_step. eapply wp_mono; [apply (cat_loop_spec cat_fuel r n c h1 0)|].
  { apply H1. } { by apply (opened_at (fs_of h)). } { by rewrite Hf1, decide_True. } { lia. } { case_decide; unfold cat_fuel; lia. }
  change (Z.to_nat 0) with 0%nat. rewrite drop_0. intros [] h2 (H2 & Hfr2 & Hf2 & off & Hb2).
  wp_step. eapply wp_mono; [apply (wp_close_opened r h (fs_of h1) _ _ h2 (af_inv _ _ _ H2) Hno Hfr1 Hb1 Hfr2 Hb2)|].
  intros r' h3 (H3 & _ & Hsame & Hf3). eapply wp_mono; [apply wp_putchar, H3|]. intros [] h4 [H4 E4].
  exists r, (fs_of h1). split; [done|]. rewrite (proj2 (Z.ltb_ge r 0) Hr). exists n, c. rewrite E4. split; [done|]. split; [done|]. split; [|split; [done|]].
  - exact (after_trans _ _ _ _ _ H1 (after_trans _ _ _ _ _ H2 (after_trans _ _ _ _ _ H3 H4))).
  - intros n'. rewrite Hf3, Hf2, Hf1. by destruct (decide (n' = n)) as [->|].
Qed.

(** ** Writing a file *)

Definition write_flags : Z := Z.lor (Z.lor O_CREAT O_TRUNC) O_WRONLY.

(** The file [n], open for writing as [fd], has become [c], with the offset at its end. *)
Definition appended (fd : Z) (n c : list Z) h h' : Prop :=
  after h [] h' ∧ fs_frame (fs_of h) (fs_of h') ∧ opened_becomes (fs_of h) (fs_of h') fd (Some (n, Z.of_nat (length c), write_flags)) ∧
  ∀ n', file_of (fs_of h') n' = if decide (n' = n) then Some c else file_of (fs_of h) n'.
Definition at_end (fd : Z) (n c : list Z) h : Prop :=
  opened (fs_of h) (cur (fs_of h)) fd = Some (n, Z.of_nat (length c), write_flags) ∧ file_of (fs_of h) n = Some c.

Lemma appended_at_end fd n c h h' : appended fd n c h h' → at_end fd n c h'.
Proof. intros (_ & Hf & Hb & Hfile). split; [by apply (opened_at (fs_of h))|by rewrite Hfile, decide_True]. Qed.

Lemma appended_refl fd n c h : shell_inv h → at_end fd n c h → appended fd n c h h.
Proof.
  intros Hh [Ho Hc]. split; [by apply after_refl|]. split; [done|]. split; [by apply opened_becomes_same|].
  intros n'. by destruct (decide (n' = n)) as [->|].
Qed.

Lemma appended_trans fd n c1 c2 h1 h2 h3 : appended fd n c1 h1 h2 → appended fd n c2 h2 h3 → appended fd n c2 h1 h3.
Proof.
  intros (A1 & A2 & A3 & A4) (B1 & B2 & B3 & B4). split; [exact (after_trans _ _ _ _ _ A1 B1)|]. split; [by etrans|]. split.
  - intros k fd'. rewrite B3, (ff_cur _ _ A2), A3. by repeat case_decide.
  - intros n'. rewrite B4, A4. by case_decide.
Qed.

(** A write at the end of the file. *)
Lemma wp_append fd n c src h : shell_inv h → at_end fd n c h → is_u32 (length src) →
  wp (on_shell_fs (fs_write fd (Some src) (length src))) (λ _ h', appended fd n (take 1024 (c ++ src)) h h') h.
Proof.
  intros Hh [Ho Hc] Hl. set (c' := take 1024 _). pose proof (file_of_short _ _ _ (si_fs h Hh) Hc) as Hlc.
  eapply wp_mono; [apply wp_fs; [done|apply fs_write_spec; [apply Hh|done|by intros ? [= <-]]|by intros a s' [? _]]|].
  intros r h1 (H1 & _ & _ & Hfr & Hw). rewrite Ho in Hw. change (can_write write_flags) with true in Hw. change (has_bits write_flags O_APPEND) with false in Hw.
  destruct Hw as (c0 & c1 & Hc0 & -> & Hb & Hf & Hst). rewrite Hc in Hc0. injection Hc0 as <-.
  assert (E : c1 = c').
  { unfold c'. destruct (Z.leb_spec 1024 (length c)) as [Hge|Hlt].
    - subst c1. rewrite take_app_le by lia. by rewrite take_ge by lia.
    - apply stored_append in Hst as ->. rewrite take_app_ge by lia. f_equal. f_equal. lia. }
  subst c1. split; [done|]. split; [done|]. split; [|done]. replace (Z.of_nat (length c')) with (length c + length (take (Z.to_nat (1024 - length c)) src)); [done|].
  unfold c'. rewrite take_app_ge, length_app by lia. replace (1024 - length c)%nat with (Z.to_nat (1024 - length c)) by lia. lia.
Qed.

Lemma write_words_spec fd n args : ∀ first c h, shell_inv h → at_end fd n c h → Forall (λ a, is_u32 (length a)) args →
  wp (write_words fd first args) (λ _ h', appended fd n (take 1024 (c ++ words_text first args)) h h') h.
Proof.
  induction args as [|a args IH]; intros first c h Hh He Hargs; cbn [write_words words_text].
  { wp_steps. rewrite app_nil_r, take_ge by (eapply file_of_short; [apply Hh|apply He]). by apply appended_refl. }
  apply Forall_cons in Hargs as [Ha Hargs]. set (b := if first then [] else [32]).
  wp_step. apply wp_mono with (λ _ h1, appended fd n (take 1024 (c ++ b)) h h1).
  { unfold b. destruct first; [|by apply (wp_append fd n c [32])]. wp_steps. rewrite app_nil_r, take_ge by (eapply file_of_short; [apply Hh|apply He]). by apply appended_refl. }
  intros _ h1 A1. pose proof (af_inv _ _ _ (proj1 A1)) as Hh1.
  wp_step. eapply wp_mono; [apply (wp_append fd n _ a h1 Hh1 (appended_at_end _ _ _ _ _ A1) Ha)|]. intros ? h2 A2. rewrite take_app_take, <-app_assoc in A2.
  pose proof (af_inv _ _ _ (proj1 A2)) as Hh2.
  eapply wp_mono; [apply (IH false _ h2 Hh2 (appended_at_end _ _ _ _ _ A2) Hargs)|]. intros ? h3 A3. rewrite take_app_take, <-!app_assoc in A3.
  exact (appended_trans _ _ _ _ _ _ _ A1 (appended_trans _ _ _ _ _ _ _ A2 A3)).
Qed.

Definition write_cmd_post (path : list Z) (args : list (list Z)) h h' : Prop :=
  ∃ r s1, open_post (fs_of h) (Some path) write_flags r s1 ∧
    if r <? 0 then after h (bytes_of ("write: fail" ++ newline)) h' ∧ fs_of h' = s1
    else ∃ n, normalize_name (Some path) = Some n ∧ after h [] h' ∧ same_fds (fs_of h) (fs_of h') ∧
      (∀ n', file_of (fs_of h') n' = if decide (n' = n) then Some (take 1024 (words_text true args)) else file_of (fs_of h) n').

Lemma wp_db f h : shell_inv h → (∀ d, db_ok d → db_ok (f d)) →
  wp (on_my (λ v, set_db (f (sv_db v)) v)) (λ _ h', after h [] h' ∧ fs_of h' = fs_of h) h.
Proof.
  intros Hh Hf. eapply wp_mono; [apply wp_my; [done|]|]; [|by intros [] h' (? & _ & ?)].
  intros v []. split; [|done]. split; cbn; auto.
Qed.

Lemma shell_write_spec path args h : shell_inv h → nonzero path → Forall (λ a, is_u32 (length a)) args →
  wp (shell_write path args) (λ _ h', write_cmd_post path args h h') h.
Proof.
  intros Hh Hp Hargs. unfold shell_write, write_cmd_post. wp_step. eapply wp_mono; [by apply wp_open|]. fold write_flags. intros r h1 (H1 & _ & Ho).
  destruct (Z.ltb_spec r 0) as [Hr|Hr].
  { eapply wp_mono; [apply wp_puts, H1|]. intros [] h2 [H2 E2]. exists r, (fs_of h1). rewrite (proj2 (Z.ltb_lt r 0) Hr).
    split_and!; [done|exact (after_trans _ _ _ _ _ H1 H2)|done]. }
  destruct (open_success _ _ _ _ _ Ho Hr) as (n & Hn & _ & Hf1 & Hno & Hb1). change (has_bits write_flags O_APPEND) with false in Hb1.
  change (open_contents (fs_of h) n write_flags) with (@nil Z) in Hf1. pose proof (proj1 (proj2 Ho)) as Hfr1.
  wp_step. eapply wp_mono; [apply (write_words_spec r n args true []); [apply H1| |done]|].
  { split; [by apply (opened_at (fs_of h))|by rewrite Hf1, decide_True]. }
  cbn [app]. intros _ h2 (H2 & Hfr2 & Hb2 & Hf2).
  wp_step. eapply wp_mono; [apply (wp_close_opened r h (fs_of h1) _ _ h2 (af_inv _ _ _ H2) Hno Hfr1 Hb1 Hfr2 Hb2)|].
  intros r' h3 (H3 & _ & Hsame & Hf3). eapply wp_mono; [apply (wp_db (filedb_add path)); [apply H3|]|].
  { intros d Hd. by apply filedb_add_spec. }
  intros [] h4 [H4 E4]. exists r, (fs_of h1). split; [done|]. rewrite (proj2 (Z.ltb_ge r 0) Hr). exists n. rewrite E4.
  split; [done|]. split; [exact (after_trans _ _ _ _ _ H1 (after_trans _ _ _ _ _ H2 (after_trans _ _ _ _ _ H3 H4)))|]. split; [done|].
  intros n'. rewrite Hf3, Hf2, Hf1. by repeat case_decide.
Qed.

(** ** Creating and removing a file *)

Definition touch_post (path : list Z) h h' : Prop :=
  ∃ r s1, open_post (fs_of h) (Some path) (Z.lor O_CREAT O_RDWR) r s1 ∧
    if r <? 0 then after h (bytes_of ("touch: fail" ++ newline)) h' ∧ fs_of h' = s1
    else ∃ n, normalize_name (Some path) = Some n ∧ after h [] h' ∧ same_fds (fs_of h) (fs_of h') ∧
      (∀ n', file_of (fs_of h') n' = if decide (n' = n) then Some (default [] (file_of (fs_of h) n)) else file_of (fs_of h) n').

Lemma shell_touch_spec path h : shell_inv h → nonzero path → wp (shell_touch path) (λ _ h', touch_post path h h') h.
Proof.
  intros Hh Hp. unfold shell_touch, touch_post. wp_step. eapply wp_mono; [by apply wp_open|]. set (flags := Z.lor O_CREAT O_RDWR). intros r h1 (H1 & _ & Ho).
  destruct (Z.ltb_spec r 0) as [Hr|Hr].
  { eapply wp_mono; [apply wp_puts, H1|]. intros [] h2 [H2 E2]. exists r, (fs_of h1). rewrite (proj2 (Z.ltb_lt r 0) Hr).
    split_and!; [done|exact (after_trans _ _ _ _ _ H1 H2)|done]. }
  destruct (open_success _ _ _ _ _ Ho Hr) as (n & Hn & _ & Hf1 & Hno & Hb1). pose proof (proj1 (proj2 Ho)) as Hfr1.
  wp_step. eapply wp_mono; [eapply (wp_close_opened r h (fs_of h1) _ _ h1 (af_inv _ _ _ H1) Hno Hfr1 Hb1); [done|by eapply opened_becomes_same, opened_at]|].
  intros r' h3 (H3 & _ & Hsame & Hf3). eapply wp_mono; [apply (wp_db (filedb_add path)); [apply H3|]|].
  { intros d Hd. by apply filedb_add_spec. }
  intros [] h4 [H4 E4]. exists r, (fs_of h1). split; [done|]. rewrite (proj2 (Z.ltb_ge r 0) Hr). exists n. rewrite E4.
  split; [done|]. split; [exact (after_trans _ _ _ _ _ H1 (after_trans _ _ _ _ _ H3 H4))|]. split; [done|].
  intros n'. by rewrite Hf3, Hf1.
Qed.

Definition rm_post (path : list Z) h h' : Prop :=
  ∃ r, unlink_post (fs_of h) (Some path) r (fs_of h') ∧ after h (if r <? 0 then bytes_of ("rm: fail" ++ newline) else []) h'.

Lemma shell_rm_spec path h : shell_inv h → wp (shell_rm path) (λ _ h', rm_post path h h') h.
Proof.
  intros Hh. unfold shell_rm, rm_post. wp_step. eapply wp_mono; [apply wp_fs; [done|apply fs_unlink_spec, Hh|by intros a s' [? _]]|].
  intros r h1 (H1 & _ & Hu). destruct (r <? 0) eqn:Hr.
  - eapply wp_mono; [apply wp_puts, H1|]. intros [] h2 [H2 E2]. exists r. rewrite E2, Hr. split; [done|exact (after_trans _ _ _ _ _ H1 H2)].
  - eapply wp_mono; [apply (wp_db (filedb_remove path)); [apply H1|by intros d Hd; apply filedb_remove_spec]|].
    intros [] h2 [H2 E2]. exists r. rewrite E2, Hr. split; [done|exact (after_trans _ _ _ _ _ H1 H2)].
Qed.
End files.
