(* ===== verification/ShellLoop.v ===== *)
(** * The loop of the shell: editing the line and running it *)

From S2P Require Import Prelude Layout KString PageAlloc PageAllocSpec PageIface Vm Proc Sched Ring Event Printf Fs FsSpec FsOps FsProps Process ProcessSpec ProcessLife GpuIface Syscall.
From S2P Require Import VirtioInput Wm WmEvents WmDraw WmOrder WmScene WmInv WmOps WmLife WmImage WmRender WmProps UserUtil Shell ShellInv ShellCmds ShellFiles.

(** ** The line *)

Definition printable (c : Z) : bool := (32 <=? c) && (c <=? 126).

(** What a key other than Enter does to a line. *)
Definition edit (l : list Z) (ch : Z) : list Z :=
  if (ch =? 8) || (ch =? 127) then take (length l - 1) l
  else if printable ch && (length l <? 127)%nat then l ++ [ch] else l.

(** What such a key prints. *)
Definition echo (l : list Z) (ch : Z) : list Z :=
  if (ch =? 8) || (ch =? 127) then (if (0 <? length l)%nat then [8; 32; 8] else [])
  else if printable ch && (length l <? 127)%nat then [ch] else [].
Fixpoint echoes (l : list Z) (ks : list Z) : list Z :=
  match ks with
  | [] => []
  | k :: ks' => echo l k ++ echoes (edit l k) ks'
  end.

(** The words hold the characters of the line and are no longer than it. *)
Lemma words_of_Forall (Q : Z → Prop) s : ∀ cur, Forall Q cur → Forall Q s → Forall (Forall Q) (words_of cur s).
Proof.
  induction s as [|c s IH]; intros cur Hc Hs; cbn.
  - destruct cur; constructor; [|done]. by apply Forall_reverse.
  - apply Forall_cons in Hs as [Hx Hs]. destruct (is_blank c).
    + destruct cur; [by apply IH|]. constructor; [by apply Forall_reverse|by apply IH].
    + apply IH; [by constructor|done].
Qed.

Lemma words_of_length s : ∀ cur, (length (words_text false (words_of cur s)) ≤ length cur + length s + 1)%nat.
Proof.
  induction s as [|c s IH]; intros cur; cbn [words_of].
  - destruct cur as [|x cur]; cbn [words_text]; [cbn; lia|]. rewrite !length_app, length_reverse. cbn. lia.
  - destruct (is_blank c).
    + specialize (IH []). cbn [length] in *. destruct cur as [|x cur]; [lia|]. cbn [words_text]. rewrite !length_app, length_reverse. cbn [length]. lia.
    + specialize (IH (c :: cur)). cbn [length] in *. lia.
Qed.

Lemma words_text_Forall (Q : Z → Prop) ws first : Q 32 → Forall (Forall Q) ws → Forall Q (words_text first ws).
Proof.
  intros Hb H. revert first. induction H as [|w ws Hw _ IH]; intros first; cbn; [done|]. apply Forall_app. split; [destruct first; by repeat constructor|].
  apply Forall_app. by split.
Qed.

Lemma words_text_first ws : (length (words_text true ws) ≤ length (words_text false ws))%nat.
Proof. destruct ws; cbn; rewrite ?length_app; lia. Qed.

Lemma words_text_tail w ws : (length (words_text false ws) ≤ length (words_text false (w :: ws)))%nat.
Proof. cbn. rewrite length_app. lia. Qed.

(** The arguments that [split_args] finds in the line [l]. *)
Record args_of (l : list Z) (argv : list (list Z)) : Prop := {
  ao_len : length argv = (length (words l) `min` 12)%nat;
  ao_word : ∀ i a, argv !! i = Some a → (i < 11)%nat → words l !! i = Some a;
  ao_ok : Forall (λ a, nonzero a ∧ is_u32 (length a)) argv;
}.

Lemma args_of_words l argv : args_of l argv → (length (words l) ≤ 11)%nat → argv = words l.
Proof.
  intros [Hl Hw _] Hs. apply list_eq_same_length with (length argv); [lia|done|]. intros i x y Hi Hx Hy.
  rewrite (Hw i x Hx) in Hy by lia. congruence.
Qed.

Lemma split_line line len : length line = 128%nat → (len < 128)%nat → nonzero (take len line) →
  ∃ offs out, split_args (<[len := 0]> line) SHELL_MAX_ARGS = Some (offs, out) ∧ length out = 128%nat ∧
    args_of (take len line) (arg_at out <$> offs).
Proof.
  intros Hl Hlen Hnz. rewrite insert_take_drop by lia.
  destruct (split_args_spec (take len line) (drop (S len) line) SHELL_MAX_ARGS Hnz) as (offs & out & He & Ho & Hn & Hargs).
  assert (Ho' : length out = 128%nat) by (rewrite Ho, length_app, length_take; cbn; rewrite length_drop; lia).
  exists offs, out. split_and!; [done|done|]. split.
  - by rewrite length_fmap, Hn.
  - intros i a (off & -> & Hoff)%list_lookup_fmap_Some Hi. destruct (Hargs i off Hoff) as (w & Hw & _ & _ & He'). rewrite Hw. f_equal. symmetry. apply He'. unfold SHELL_MAX_ARGS. lia.
  - apply Forall_forall. intros a (off & -> & _)%list_elem_of_fmap. unfold arg_at. split; [apply str_at_nonzero|].
    pose proof (str_at_length (drop off out)). rewrite length_drop in *. unfold is_u32. lia.
Qed.

Section loop.
Context {L : Layout} {LOK : LayoutOk} {P G D : Type} {PO : PageOps P} {POK : PageOpsOk P} {GO : GpuOps P G} {GOK : GpuOpsOk P G}.
Context {EX : Ext4Ops} {VD : ViDevice D} {VP : ViPlaces}.
Abbreviation HM := (km (shell_state P G D)).
Implicit Types h : shell_state P G D.

Definition line_of h : list Z := take (sv_len (sh_vars h)) (sv_line (sh_vars h)).
Definition line_ok h : Prop := Forall (λ c, printable c = true) (line_of h).

Lemma line_nonzero h : line_ok h → nonzero (line_of h).
Proof. intros H. eapply Forall_impl; [exact H|]. intros c Hc. unfold printable in Hc. cbn. lia. Qed.

Lemma length_line h : shell_inv h → length (line_of h) = sv_len (sh_vars h).
Proof. intros Hh. destruct (si_vars h Hh). unfold line_of. rewrite length_take. lia. Qed.

(** ** Keys *)
Lemma wp_sync h : shell_inv h → wp term_view_sync (λ _ h', after h [] h' ∧ fs_of h' = fs_of h) h.
Proof.
  intros Hh. apply wp_mono with (λ _ h', (shell_inv h' ∧ still h h' ∧ True) ∧
    console_of h' = console_of h ∧ fs_of h' = fs_of h).
  - apply wp_and; [by apply tame_sync|]. unfold term_view_sync, my_vars. wp_steps. destruct (0 <? _); [|by wp_steps].
    wp_step. apply wp_zoom. eapply wp_mono; [apply wm_set_text_spec, Hh|]. intros r w _. by wp_steps.
  - intros [] h' ((H1 & [H2 Hl] & _) & H3 & H4). split; [|done]. split; [done|done|by rewrite H3, app_nil_r|done].
Qed.

Lemma wp_term f h : shell_inv h → (∀ t, term_ok t → term_ok (f t)) →
  wp (on_my (λ v, set_term (f (sv_term v)) v)) (λ _ h', after h [] h' ∧ fs_of h' = fs_of h) h.
Proof.
  intros Hh Hf. eapply wp_mono; [apply wp_my; [done|]|]; [|by intros [] h' (? & _ & ?)].
  intros v []. split; [|done]. split; cbn; auto.
Qed.

(** A change of the line. *)
Lemma wp_line f n h : shell_inv h → let v := sh_vars h in length (f v) = 128%nat → (n v < 128)%nat →
  wp (on_my (λ v, set_line (f v) (n v) v)) (λ _ h', shell_inv h' ∧ quiet h h' ∧ console_of h' = console_of h ∧ fs_of h' = fs_of h ∧
    sv_line (sh_vars h') = f v ∧ sv_len (sh_vars h') = n v) h.
Proof. intros [[] ? ? ? ? ?] v Hf Hn. unfold on_my. wp_steps. by split_and!. Qed.

(** What a key that edits the line leaves. *)
Definition edited h (ch : Z) h' : Prop :=
  shell_inv h' ∧ quiet h h' ∧ line_ok h' ∧ line_of h' = edit (line_of h) ch ∧ fs_of h' = fs_of h ∧
  console_of h' = console_of h ++ echo (line_of h) ch.

Lemma edited_same h ch : shell_inv h → line_ok h → edit (line_of h) ch = line_of h → echo (line_of h) ch = [] → edited h ch h.
Proof. intros ? ? ? He. unfold edited. rewrite He, app_nil_r. by split_and!. Qed.

Lemma after_line h out h' : after h out h' → line_of h' = line_of h.
Proof. intros [_ _ _ [E1 E2]]. unfold line_of. by rewrite E1, E2. Qed.

(** A new line, and what is shown of it. *)
Lemma edited_shown h h1 out h2 ch : shell_inv h1 → quiet h h1 → fs_of h1 = fs_of h → after h1 out h2 → fs_of h2 = fs_of h1 →
  line_of h1 = edit (line_of h) ch → Forall (λ c, printable c = true) (edit (line_of h) ch) →
  console_of h1 = console_of h → chars out = echo (line_of h) ch → edited h ch h2.
Proof.
  intros H1 Q1 E1 H2 E2 Hl Hp Hc Ho. unfold edited, line_ok. rewrite (after_line _ _ _ H2), Hl. pose proof (af_quiet _ _ _ H2).
  split_and!; [apply H2|by etrans|done|done|congruence|]. by rewrite (af_out _ _ _ H2), Hc, Ho.
Qed.

Lemma erase_spec h ch : shell_inv h → line_ok h → (ch =? 8) || (ch =? 127) = true →
  wp erase (λ next h', next = Again ∧ edited h ch h') h.
Proof.
  intros Hh Hl Hch. pose proof (length_line h Hh) as Hlen. pose proof (si_vars h Hh) as Hv.
  assert (Hed : edit (line_of h) ch = take (length (line_of h) - 1) (line_of h)) by (unfold edit; by rewrite Hch).
  assert (Hec : echo (line_of h) ch = if (0 <? length (line_of h))%nat then [8; 32; 8] else []) by (unfold echo; by rewrite Hch).
  unfold erase, my_vars. do 4 wp_step. rewrite Hlen in Hec. destruct (Nat.ltb_spec 0 (sv_len (sh_vars h))) as [Hpos|Hz].
  2: { wp_steps. split; [done|]. apply edited_same; [done|done| |done]. rewrite Hed. apply take_ge. lia. }
  wp_step. eapply wp_mono; [apply (wp_line (λ v, sv_line v) (λ v, (sv_len v - 1)%nat)); [done|apply Hv|destruct Hv; lia]|].
  intros [] h1 (H1 & Q1 & C1 & E1 & L1 & N1).
  wp_step. eapply wp_mono; [by apply wp_puts|]. intros [] h2 [H2 E2].
  wp_step. eapply wp_mono; [apply (wp_term term_view_backspace); [apply H2|auto with shell]|]. intros [] h3 [H3 E3].
  wp_step. eapply wp_mono; [apply wp_sync, H3|]. intros [] h4 [H4 E4]. wp_step. split; [done|].
  eapply (edited_shown h h1 _ h4); [done|done|done|exact (after_trans _ _ _ _ _ H2 (after_trans _ _ _ _ _ H3 H4))|congruence| | |done|done].
  - rewrite Hed, Hlen. unfold line_of. rewrite L1, N1, take_take. f_equal. lia.
  - rewrite Hed. by apply Forall_take.
Qed.

Lemma type_char_spec h ch : shell_inv h → line_ok h → printable ch = true →
  wp (type_char ch) (λ next h', next = Again ∧ edited h ch h') h.
Proof.
  intros Hh Hl Hch. pose proof (length_line h Hh) as Hlen. pose proof (si_vars h Hh) as Hv.
  assert (Hed : edit (line_of h) ch = if (length (line_of h) <? 127)%nat then line_of h ++ [ch] else line_of h).
  { unfold edit. rewrite Hch. unfold printable in Hch. by replace ((ch =? 8) || (ch =? 127)) with false by lia. }
  assert (Hec : echo (line_of h) ch = if (length (line_of h) <? 127)%nat then [ch] else []).
  { unfold echo. rewrite Hch. unfold printable in Hch. by replace ((ch =? 8) || (ch =? 127)) with false by lia. }
  unfold type_char, my_vars, SHELL_MAX_LINE. do 4 wp_step. destruct (Nat.ltb_spec (sv_len (sh_vars h) + 1) 128) as [Hroom|Hfull].
  2: { wp_steps. split; [done|]. rewrite (proj2 (Nat.ltb_ge _ _)) in Hed, Hec by lia. by apply edited_same. }
  wp_step. eapply wp_mono; [apply (wp_line (λ v, <[sv_len v := ch]> (sv_line v)) (λ v, S (sv_len v))); [done|rewrite length_insert; apply Hv|lia]|].
  intros [] h1 (H1 & Q1 & C1 & E1 & L1 & N1).
  wp_step. eapply wp_mono; [by apply wp_putchar|]. intros [] h2 [H2 E2].
  wp_step. eapply wp_mono; [apply (wp_term (term_view_append_char ch)); [apply H2|auto with shell]|]. intros [] h3 [H3 E3].
  wp_step. eapply wp_mono; [apply wp_sync, H3|]. intros [] h4 [H4 E4]. wp_step. split; [done|].
  rewrite (proj2 (Nat.ltb_lt _ _)) in Hed, Hec by lia.
  eapply (edited_shown h h1 _ h4); [done|done|done|exact (after_trans _ _ _ _ _ H2 (after_trans _ _ _ _ _ H3 H4))|congruence| | |done|].
  - rewrite Hed. unfold line_of. rewrite L1, N1. destruct Hv. rewrite (take_S_r _ _ ch) by (apply list_lookup_insert_eq; lia).
    by rewrite take_insert_ge by lia.
  - rewrite Hed. apply Forall_app. by split; [|constructor].
  - rewrite Hec. unfold printable in Hch. cbn. rewrite Z.mod_small by lia. done.
Qed.

(** Every key but Enter edits the line. *)
Lemma shell_key_edit h ch : shell_inv h → line_ok h → 0 ≤ ch → ch ≠ 13 → ch ≠ 10 →
  wp (shell_key ch) (λ next h', next = Again ∧ edited h ch h') h.
Proof.
  intros Hh Hl H0 H1 H2. unfold shell_key. replace (ch <? 0) with false by lia. replace ((ch =? 13) || (ch =? 10)) with false by lia.
  destruct ((ch =? 8) || (ch =? 127)) eqn:Eb; [by apply erase_spec|]. fold (printable ch).
  destruct (printable ch) eqn:Ep; [by apply type_char_spec|]. wp_steps. split; [done|].
  apply edited_same; [done|done|unfold edit|unfold echo]; by rewrite Eb, Ep.
Qed.

(** The characters that a user types, as [u_getchar] returns them. *)
Fixpoint press_keys (ks : list Z) : HM unit :=
  match ks with
  | [] => kret tt
  | k :: ks' => do! shell_key k in press_keys ks'
  end.
Definition edits (k : Z) : Prop := 0 ≤ k ∧ k ≠ 13 ∧ k ≠ 10.

Lemma press_keys_edit ks h : shell_inv h → line_ok h → Forall edits ks →
  wp (press_keys ks) (λ _ h', shell_inv h' ∧ quiet h h' ∧ line_ok h' ∧ line_of h' = foldl edit (line_of h) ks ∧ fs_of h' = fs_of h ∧
    console_of h' = console_of h ++ echoes (line_of h) ks) h.
Proof.
  intros Hh Hl Hks. revert h Hh Hl. induction Hks as [|k ks (Hk & Hk1 & Hk2) _ IH]; intros h Hh Hl; cbn [press_keys foldl echoes]; [wp_steps; by rewrite app_nil_r|].
  wp_step. eapply wp_mono; [by apply shell_key_edit|]. intros next h1 (_ & H1 & Q1 & L1 & E1 & F1 & C1).
  eapply wp_mono; [by apply IH|]. intros [] h2 (H2 & Q2 & L2 & E2 & F2 & C2). split_and!; [done|by etrans|done|congruence|congruence|].
  by rewrite C2, C1, E1, <-app_assoc.
Qed.

(** A line and Enter. *)
Definition type_line (ks : list Z) : HM shell_next := do! press_keys ks in shell_key 10.

(** ** Enter *)

Definition dispatch (argv : list (list Z)) : HM shell_next := match argv with [] => kret Again | cmd :: args => run_command cmd args end.
(** The prompt: the line is empty. *)
Definition prompted h h' : Prop :=
  shell_inv h' ∧ line_of h' = [] ∧ console_of h' = console_of h ++ bytes_of "k> " ∧ fs_of h' = fs_of h.

Lemma wp_enter_key h (Q : shell_next → shell_state P G D → Prop) : shell_inv h → line_ok h →
  (∀ argv h1, args_of (line_of h) argv → shell_inv h1 → quiet h h1 → console_of h1 = console_of h ++ [10] → fs_of h1 = fs_of h →
     wp (dispatch argv) (λ next h2, match next with PoweredOff => Q PoweredOff h2 | Again => shell_inv h2 ∧ ∀ h3, prompted h2 h3 → Q Again h3 end) h1) →
  wp enter Q h.
Proof.
  intros Hh Hl HQ. pose proof (si_vars h Hh) as Hv. unfold enter.
  wp_step. eapply wp_mono; [by apply wp_putchar|]. intros [] h1 [H1 E1].
  wp_step. eapply wp_mono; [apply (wp_term (term_view_append [10])); [apply H1|auto with shell]|]. intros [] h2 [H2 E2].
  pose proof (after_trans _ _ _ _ _ H1 H2) as H12. destruct (af_line _ _ _ H12) as [L12 N12].
  wp_step. eapply wp_mono; [apply (wp_line (λ v, <[sv_len v := 0]> (sv_line v)) sv_len); [apply H2|rewrite length_insert, L12; apply Hv|rewrite N12; apply Hv]|].
  intros [] h3 (H3 & Q3 & C3 & E3 & L3 & N3). unfold my_vars. do 4 wp_step. rewrite L3, L12, N12.
  destruct (split_line (sv_line (sh_vars h)) (sv_len (sh_vars h))) as (offs & out & -> & Hout & Hargs); [apply Hv|apply Hv|by apply (line_nonzero h)|].
  wp_step. eapply wp_mono; [apply (wp_line (λ _, out) sv_len); [done|done|rewrite N3, N12; apply Hv]|]. intros [] h4 (H4 & Q4 & C4 & E4 & L4 & N4).
  wp_step. eapply wp_mono; [apply (HQ _ h4 Hargs H4)|].
  { etrans; [apply H12|]. by etrans. } { by rewrite C4, C3, (af_out _ _ _ H12). } { congruence. }
  intros [|] h5 Hpost; [|by wp_steps]. destruct Hpost as [H5 Hpost].
  wp_step. eapply wp_mono; [apply (wp_line sv_line (λ _, 0%nat)); [done|apply H5|lia]|]. intros [] h6 (H6 & Q6 & C6 & E6 & L6 & N6).
  wp_step. eapply wp_mono; [by apply wp_puts|]. intros [] h7 [H7 E7].
  wp_step. eapply wp_mono; [apply (wp_term (term_view_append (bytes_of "k> "))); [apply H7|auto with shell]|]. intros [] h8 [H8 E8].
  wp_step. eapply wp_mono; [apply wp_sync, H8|]. intros [] h9 [H9 E9]. wp_step. apply Hpost.
  pose proof (after_trans _ _ _ _ _ H7 (after_trans _ _ _ _ _ H8 H9)) as H69. split; [apply H9|]. split.
  { rewrite (after_line _ _ _ H69). unfold line_of. by rewrite N6. }
  split; [rewrite (af_out _ _ _ H69), C6; done|congruence].
Qed.
End loop.
