(* ===== verification/ShellProps.v ===== *)
(** * Properties of the shell *)

From S2P Require Import Prelude Layout KString PageAlloc PageAllocSpec PageIface PageAllocProps Vm Proc Sched Ring Event Printf Fs FsSpec FsOps FsProps Process ProcessSpec ProcessLife GpuIface Syscall.
From S2P Require Import VirtioInput Wm WmEvents WmDraw WmOrder WmScene WmInv WmOps WmLife WmImage WmRender Virtq VirtioGpu VirtioGpuSpec VirtioGpuProps WmProps VirtioInputProps UserUtil Shell ShellInv ShellCmds ShellFiles ShellLoop.

Section props.
Context {L : Layout} {LOK : LayoutOk} {P G D : Type} {PO : PageOps P} {POK : PageOpsOk P} {GO : GpuOps P G} {GOK : GpuOpsOk P G}.
Context {EX : Ext4Ops} {VD : ViDevice D} {VP : ViPlaces}.
Abbreviation HM := (km (shell_state P G D)).
Implicit Types h : shell_state P G D.

(** ** Commands *)
Lemma after_safe {A} (c : HM A) : (∀ h, shell_inv h → wp c (λ _ h', ∃ out, after h out h') h) → safe_cmd c.
Proof. intros Hc h Hh _. eapply wp_mono; [by apply Hc|]. intros a h' [out H]. apply H. Qed.

Definition arg_ok (a : list Z) : Prop := nonzero a ∧ is_u32 (length a).

Lemma safe_ls : safe_cmd (P:=P) (G:=G) (D:=D) shell_ls.
Proof. apply after_safe. intros h Hh. eapply wp_mono; [by apply shell_ls_spec|]. intros a h' (out & _ & H & _). by exists out. Qed.
Lemma safe_cat path : safe_cmd (P:=P) (G:=G) (D:=D) (shell_cat path).
Proof.
  apply after_safe. intros h Hh. eapply wp_mono; [by apply shell_cat_spec|]. intros a h' (r & s1 & _ & H).
  destruct (r <? 0); [|destruct H as (n & c & _ & _ & H)]; destruct H as [H _]; eauto.
Qed.
Lemma safe_touch path : nonzero path → safe_cmd (P:=P) (G:=G) (D:=D) (shell_touch path).
Proof.
  intros Hp. apply after_safe. intros h Hh. eapply wp_mono; [by apply shell_touch_spec|]. intros a h' (r & s1 & _ & H).
  destruct (r <? 0); [|destruct H as (n & _ & H)]; destruct H as [H _]; eauto.
Qed.
Lemma safe_write path args : nonzero path → Forall arg_ok args → safe_cmd (P:=P) (G:=G) (D:=D) (shell_write path args).
Proof.
  intros Hp Ha. apply after_safe. intros h Hh. eapply wp_mono; [apply shell_write_spec; [done|done|eapply Forall_impl; [exact Ha|by intros ? [_ ?]]]|].
  intros a h' (r & s1 & _ & H). destruct (r <? 0); [|destruct H as (n & _ & H)]; destruct H as [H _]; eauto.
Qed.
Lemma safe_rm path : safe_cmd (P:=P) (G:=G) (D:=D) (shell_rm path).
Proof. apply after_safe. intros h Hh. eapply wp_mono; [by apply shell_rm_spec|]. intros a h' (r & _ & H). eauto. Qed.
Lemma safe_say s : safe_cmd (P:=P) (G:=G) (D:=D) (say s).
Proof. eapply safe_cmd_safe, tame_safe, tame_say. Qed.

Lemma safe_with_arg args usage f : Forall arg_ok args → (∀ a, arg_ok a → safe_cmd (f a)) → safe_cmd (P:=P) (G:=G) (D:=D) (with_arg args usage f).
Proof. intros Ha Hf. destruct Ha as [|a args Ha _]; cbn; [apply safe_say|by apply Hf]. Qed.

Lemma safe_run cmd args : Forall arg_ok args → safe_cmd (P:=P) (G:=G) (D:=D) (run_command cmd args).
Proof.
  intros Ha. unfold run_command.
  assert (Hret : ∀ c : HM unit, safe_cmd c → safe_cmd (do! c in kret Again)) by (intros c Hc; apply safe_cmd_then; [done|intros []; apply safe_ret]).
  destruct (is_cmd cmd "help"); [apply Hret, safe_say|].
  destruct (is_cmd cmd "ls"); [apply Hret, safe_ls|].
  destruct (is_cmd cmd "cat"); [apply Hret, safe_with_arg; [done|]; intros; apply safe_cat|].
  destruct (is_cmd cmd "touch"); [apply Hret, safe_with_arg; [done|]; intros a [? _]; by apply safe_touch|].
  destruct (is_cmd cmd "gui"); [apply Hret, safe_gui|].
  destruct (is_cmd cmd "write").
  { apply Hret. destruct Ha as [|path args Hp Ha]; [apply safe_say|]. destruct Ha as [|a args Ha1 Ha]; [apply safe_say|].
    apply safe_write; [apply Hp|by constructor]. }
  destruct (is_cmd cmd "img"); [apply Hret, safe_with_arg; [done|]; intros; apply safe_img|].
  destruct (is_cmd cmd "fm"); [apply Hret, safe_fm|].
  destruct (is_cmd cmd "rm"); [apply Hret, safe_with_arg; [done|]; intros; apply safe_rm|].
  destruct (is_cmd cmd "shutdown"); [apply safe_cmd_safe, safe_ret|]. apply Hret, safe_say.
Qed.

(** ** Rounds *)
Lemma shell_key_safe ch h : shell_inv h → line_ok h → round_ok h → wp (shell_key ch) (λ next h', shell_inv h' ∧ (next = Again → line_ok h')) h.
Proof.
  intros Hh Hl Hr. destruct (Z.ltb_spec ch 0) as [Hneg|Hpos].
  { unfold shell_key. rewrite (proj2 (Z.ltb_lt _ _) Hneg). wp_step. eapply wp_mono; [by apply tame_yield|].
    intros [] h1 (H1 & (_ & E1 & E2) & _). wp_steps. split; [done|]. intros _. unfold line_ok, line_of. by rewrite E1, E2. }
  destruct (decide (ch = 13 ∨ ch = 10)) as [He|He].
  2: { eapply wp_mono; [apply shell_key_edit; [done|done|done|tauto|tauto]|]. intros next h' (_ & H1 & _ & H2 & _). done. }
  unfold shell_key. replace (ch <? 0) with false by lia. replace ((ch =? 13) || (ch =? 10)) with true by lia.
  apply wp_enter_key; [done|done|]. intros argv h1 Ha H1 Q1 _ _.
  assert (Hd : safe_cmd (dispatch (P:=P) (G:=G) (D:=D) argv)).
  { destruct (ao_ok _ _ Ha) as [|cmd args _ Hargs]; [apply safe_cmd_safe, safe_ret|]. by apply safe_run. }
  eapply wp_mono; [apply Hd; [done|by eapply round_ok_quiet]|]. intros [|] h2 H2; [|done]. split; [done|].
  intros h3 (H3 & E3 & _). split; [done|]. intros _. unfold line_ok. by rewrite E3.
Qed.

Lemma shell_round_safe console h : shell_inv h → line_ok h → round_ok h → wp (shell_round console) (λ next h', shell_inv h' ∧ (next = Again → line_ok h')) h.
Proof.
  intros Hh Hl Hr. unfold shell_round. wp_step. eapply wp_mono; [by apply tame_getchar|]. intros ch h1 (H1 & (Q1 & E1 & E2) & _).
  apply shell_key_safe; [done|unfold line_ok, line_of; by rewrite E1, E2|by eapply round_ok_quiet].
Qed.

(** ** The start *)

(** The state at the entry of the shell: its variables as the program is loaded, the parts of the kernel in order. *)
Record shell_boot h : Prop := {
  sb_vars : vars_ok (sh_vars h);
  sb_fs : fs_ok (fs_of h);
  sb_events : kevent_ok (ss_events (sh_sys h));
  sb_kbd : kbd_ok (ss_kbd (sh_sys h));
  sb_gpu : gpu_ok (wm_pages (wm_of h)) (wm_gpu (wm_of h));
  sb_focus : wm_focus_id (sh_wm h) = 0;
}.

Definition boot_step (c : HM unit) : Prop := ∀ h, shell_boot h → wp c (λ _ h', shell_boot h' ∧ wm_of h' = wm_of h) h.

Lemma boot_print l : boot_step (on_shell_sys (kmodify (print l))).
Proof. intros h [H1 H2 H3 H4 H5 H6]. unfold on_shell_sys. apply wp_zoom. wp_steps. by split; [split|]. Qed.

Lemma boot_then c d : boot_step c → boot_step d → boot_step (do! c in d).
Proof.
  intros Hc Hd h Hh. wp_step. eapply wp_mono; [by apply Hc|]. intros [] h1 [H1 E1]. eapply wp_mono; [by apply Hd|]. intros [] h2 [H2 E2].
  split; [done|congruence].
Qed.

Lemma boot_puts l : boot_step (u_puts l).
Proof.
  induction l as [|c l IH]; cbn [u_puts]; [intros h Hh; by wp_steps|]. apply boot_then; [apply boot_print|exact IH].
Qed.

Lemma boot_printf fmt : (∃ out, printf (bytes_of fmt) [] = Some out) → boot_step (shell_printf fmt []).
Proof. intros [out E]. unfold shell_printf. rewrite E. apply boot_print. Qed.

(** The width or the height for which the place of the terminal is computed modulo zero. *)
Definition bad_size (v : wm_vars) : Prop := wm_screen_w v = 519 ∨ wm_usable_h v = 299.
Definition bad_display h : Prop := ∃ w, wm_init (wm_of h) = Done (tt, w) ∧ bad_size (wm w).

Lemma terminal_fault (w : wm_state P G) title : wm_windows (wm w) = replicate WM_MAX_WINDOWS zero_window → bad_size (wm w) → wm_create title 520 300 w = Fault.
Proof.
  intros Hw Hb. unfold wm_create, kbind, vars, kget, kret. cbn [kbind]. rewrite Hw. cbn [replicate WM_MAX_WINDOWS find_index zero_window w_used negb].
  destruct Hb as [E|E]; rewrite E.
  - by replace (c_rem (imul (wm_next_id (wm w)) 37) (iadd (isub 519 520) 1)) with (@None Z) by done.
  - replace (c_rem (imul (wm_next_id (wm w)) 2) (iadd (isub 299 300) 1)) with (@None Z) by done. by destruct (c_rem _ _).
Qed.

(** The part of the start behind the terminal's window. *)
Definition start_tail (w : Z) : HM unit :=
  do! on_my (set_main_win w) in
  do! (if 0 <? w then do! term_view_reset in do! on_wm (wm_focus w) in kret tt else kret tt) in
  do! shell_printf ("shell: performing initial render..." ++ newline) [] in
  do! on_wm wm_render in
  do! say "kernel> " in
  on_my (λ v, set_line (sv_line v) 0 v).

Lemma tame_reset : tame (P:=P) (G:=G) (D:=D) term_view_reset (λ _, True).
Proof.
  eapply tame_bind; [apply tame_on_my; keep_vars|]. intros [] _. eapply tame_bind; [apply tame_on_my; keep_vars|]. intros [] _.
  eapply tame_bind; [apply tame_on_my; keep_vars|]. intros [] _. apply tame_sync.
Qed.

Lemma start_tail_spec w h : shell_inv h → wm_focus_id (sh_wm h) = 0 → wm_next_z (sh_wm h) < 2147483647 →
  wp (start_tail w) (λ _ h', shell_inv h' ∧ line_of h' = []) h.
Proof.
  intros Hh Hf Hz. unfold start_tail. wp_step. eapply wp_mono; [apply (tame_on_my (set_main_win w)); [by intros ? []|done]|].
  intros [] h1 (H1 & [(D1 & _) _] & _). assert (Hf1 : wm_focus_id (sh_wm h1) = 0 ∧ wm_next_z (sh_wm h1) < 2147483647).
  { unfold desk in D1. injection D1 as _ _ _ _ _ _ E1 E2. by rewrite E1, E2. }
  wp_step. apply wp_mono with (λ _ h', shell_inv h').
  { destruct (Z.ltb_spec 0 w); [|by wp_steps]. wp_step. eapply wp_mono; [by apply tame_reset|]. intros [] h2 (H2 & [(D2 & _) _] & _).
    unfold desk in D2. injection D2 as _ _ _ _ _ _ E1 E2. wp_step. apply wp_zoom.
    eapply wp_mono; [apply wm_focus_spec; [apply H2|cbn; rewrite E1; apply Hf1]|]. intros r w' (_ & _ & Hc & _ & [Cx Cy] & Hfoc). wp_steps.
    apply put_wm_inv; [done| |by unfold cursor_of; rewrite Cx, Cy]. split; [done|]. destruct (wm_find _ _).
    - destruct Hfoc as (_ & _ & _ & _ & Hcl). apply Hcl; [cbn; rewrite E2; destruct Hf1; lia|apply H2].
    - destruct Hfoc as [_ ->]. apply H2. }
  intros [] h2 H2. wp_step. eapply wp_mono; [apply tame_printf; [eexists; vm_compute; reflexivity|done]|]. intros [] h3 (H3 & _).
  wp_step. eapply wp_mono; [by apply safe_render|]. intros [] h4 H4. wp_step. eapply wp_mono; [by apply tame_say|]. intros [] h5 (H5 & _).
  eapply wp_mono; [apply (wp_line sv_line (λ _, 0%nat)); [done|apply H5|lia]|]. intros [] h6 (H6 & _ & _ & _ & _ & N6). split; [done|].
  unfold line_of. by rewrite N6.
Qed.

Lemma start_wm h : shell_boot h → wp (on_wm wm_init) (λ _ h', shell_inv h' ∧ wm_init (wm_of h) = Done (tt, wm_of h') ∧
  wm_windows (sh_wm h') = replicate WM_MAX_WINDOWS zero_window ∧ wm_next_id (sh_wm h') = 1 ∧ wm_next_z (sh_wm h') = 1 ∧ wm_focus_id (sh_wm h') = 0) h.
Proof.
  intros [H1 H2 H3 H4 H5 H6]. apply wp_zoom. destruct (wp_elim _ _ _ (wm_init_spec (wm_of h) H5 H6)) as ([] & w & Hrun & Hi & Hw & N1 & N2 & _ & Cx & Cy & Hf & _).
  eapply wp_done; [exact Hrun|]. assert (Ew : wm_of (put_wm w h) = w) by (unfold wm_of, put_wm; cbn; by destruct w).
  split; [|split; [by rewrite Ew|done]]. split; try done; [by rewrite Ew|]. unfold cursor_ok, is_int. cbn. rewrite Cx, Cy.
  pose proof (vi_screen _ (wi_vars w Hi)). pose proof (usable_h_bound _ (wi_vars w Hi)). 
  assert (Hhalf : ∀ x, 0 ≤ x ≤ 1024 → 0 ≤ x / 2 ≤ 1024) by (intros x Hx; split; [apply Z.div_pos|apply Z.div_le_upper_bound]; lia).
  pose proof (Hhalf (wm_screen_w (wm w)) ltac:(lia)). pose proof (Hhalf (wm_usable_h (wm w)) ltac:(lia)). lia.
Qed.

Definition plain (c : HM unit) : Prop := ∀ h, shell_inv h → wp c (λ _ h', shell_inv h' ∧ wm_of h' = wm_of h) h.

Lemma plain_printf fmt args : (∃ out, printf (bytes_of fmt) args = Some out) → plain (shell_printf fmt args).
Proof.
  intros [out E] h [H1 H2 H3 H4 H5 H6]. unfold shell_printf. rewrite E. unfold on_shell_sys. apply wp_zoom. wp_steps. by split; [split|].
Qed.

Lemma plain_on_my f : (∀ v, vars_ok v → vars_ok (f v)) → plain (on_my f).
Proof. intros Hf h [H1 H2 H3 H4 H5 H6]. unfold on_my. wp_steps. split; [split; cbn; auto|done]. Qed.

(** The terminal's window and the rest of the start. *)
Lemma start_terminal h h0 : shell_inv h → wm_init (wm_of h0) = Done (tt, wm_of h) →
  wm_windows (sh_wm h) = replicate WM_MAX_WINDOWS zero_window → wm_next_id (sh_wm h) = 1 → wm_next_z (sh_wm h) = 1 → wm_focus_id (sh_wm h) = 0 →
  wpf (let! w := open_terminal in start_tail w) (λ _ h', shell_inv h' ∧ line_of h' = []) (bad_display h0) h.
Proof.
  intros Hh Hrun Hw Hid Hz Hf. destruct (decide (wm_screen_w (sh_wm h) = 519 ∨ wm_usable_h (sh_wm h) = 299)) as [Hb|Hb].
  { pose proof (terminal_fault (wm_of h) (Some (bytes_of "terminal")) Hw Hb) as He.
    unfold wpf, kbind, open_terminal, on_wm, zoom. rewrite He. by exists (wm_of h). }
  apply wpf_bind. unfold open_terminal. apply wp_zoom.
  eapply wp_mono; [apply wp_also; [apply wm_create_spec; [apply Hh|lia|lia| | | |]|apply create_desk]|]; cbn [wm wm_of].
  { intros E. apply Hb. left. lia. } { intros E. apply Hb. right. lia. } { lia. } { lia. }
  intros r w [[Hi _] (Hc & Hfo & Hnz)]. cbn in Hfo, Hnz. apply wp_wpf, start_tail_spec; [by apply put_wm_inv|cbn; congruence|].
  cbn. destruct Hnz as [->| ->]; rewrite Hz; [lia|done].
Qed.

Lemma shell_start_spec h : shell_boot h → wpf shell_start (λ _ h', shell_inv h' ∧ line_of h' = []) (bad_display h) h.
Proof.
  intros Hh. unfold shell_start. apply wpf_bind. eapply wp_mono; [apply (boot_puts _ h Hh)|]. intros [] h1 [H1 E1].
  apply wpf_bind. apply wp_mono with (λ _ h', shell_boot h' ∧ wm_of h' = wm_of h1).
  { unfold on_my. wp_steps. destruct H1 as [[] ? ? ? ? ?]. split; [|done]. split; try done. split; try done. cbn. destruct vo_input as [[] ?]. split; [by split|done]. }
  intros [] h2 [H2 E2]. apply wpf_bind. eapply wp_mono; [apply boot_printf; [eexists; vm_compute; reflexivity|done]|]. intros [] h3 [H3 E3].
  apply wpf_bind. eapply wp_mono; [by apply start_wm|]. intros [] h4 (H4 & Hrun & Hw & Hid & Hz & Hf).
  replace (wm_of h3) with (wm_of h) in Hrun by congruence.
  apply wpf_bind. eapply wp_mono; [apply plain_printf; [eexists; vm_compute; reflexivity|done]|].
  intros [] h5 [H5 E5]. cbv beta. apply wpf_bind. unfold wp at 1, wm_input_init at 1. set (h6 := ShellState _ _ _ _).
  assert (H6 : shell_inv h6 ∧ wm_of h6 = wm_of h5) by (destruct H5; by split; [split|]). clearbody h6. destruct H6 as [H6 E6].
  apply wpf_bind. eapply wp_mono; [apply plain_on_my; [|exact H6]|].
  { intros v []. split; cbn; auto with shell. destruct vo_db as (? & ? & ?). split_and!; [done|done|cbn; lia]. }
  intros [] h7 [H7 E7]. apply wpf_bind. eapply wp_mono; [apply plain_printf; [eexists; vm_compute; reflexivity|done]|].
  intros [] h8 [H8 E8]. apply (start_terminal h8); [done|congruence|..]; (replace (sh_wm h8) with (sh_wm h4); [done|]); apply (f_equal wm) in E5, E6, E7, E8; cbn in E5, E6, E7, E8; congruence.
Qed.

(** ** Properties *)
Lemma wpf_elim {S A} (c : km S A) (Q : A → S → Prop) F s : wpf c Q F s → (∃ a s', c s = Done (a, s') ∧ Q a s') ∨ (c s = Fault ∧ F).
Proof. unfold wpf. destruct (c s) as [[a s']| | | |]; try done; [left|right]; eauto. Qed.

Lemma wpf_run {S A} (c : km S A) (Q : A → S → Prop) F s a s' : wpf c Q F s → c s = Done (a, s') → Q a s'.
Proof. unfold wpf. intros H Hc. by rewrite Hc in H. Qed.

(** The states of the shell: after its start, after rounds of its loop, and after other code has run between two rounds. *)
Inductive shell_reachable : shell_state P G D → Prop :=
| ShellStart h0 h : shell_boot h0 → shell_start h0 = Done (tt, h) → shell_reachable h
| ShellRound h console h' : shell_reachable h → round_ok h → shell_round console h = Done (Again, h') → shell_reachable h'
| ShellOther h s : shell_reachable h → fs_ok (k_fs (ss_kernel s)) → kevent_ok (ss_events s) → kbd_ok (ss_kbd s) → wm_inv (wm_of (set_sh_sys s h)) →
    shell_reachable (set_sh_sys s h).

(** C19: In every state that the shell reaches by rounds begun in a safe state, whatever other code does to the files, the queues and the pages
    between two rounds as long as it keeps their invariants, the buffers of the shell are in bounds, the line holds printable characters only,
    and the file system and the window manager are consistent.  If such a state is safe, the next round returns: no key, no character of the
    console and no command makes the shell fault, panic or loop, and the consistency is kept.  A state is safe ([round_ok]) if the next window id
    and stacking place are below 2^31 - 1; the screen is not 519, 399 or 319 wide and the part above the task bar not 299 or 239 high, sizes for
    which [wm_create] computes a remainder modulo zero; and the file manager's window, where there is one, has not the focus, for then [fm]
    would focus it again, which changes the stacking order without marking the window dirty. *)
Theorem shell_always_safe h : shell_reachable h →
  shell_inv h ∧ line_ok h ∧ ∀ console, round_ok h → ∃ next h', shell_round console h = Done (next, h') ∧ shell_inv h'.
Proof.
  intros Hr. assert (H : shell_inv h ∧ line_ok h).
  { induction Hr as [h0 h Hb Hrun|h console h' _ [IH1 IH2] Hok Hrun|h s _ [IH1 IH2] H1 H2 H3 H4].
    - destruct (wpf_run _ _ _ _ _ _ (shell_start_spec h0 Hb) Hrun) as [Hs Hl]. split; [done|]. unfold line_ok. by rewrite Hl.
    - pose proof (wlp_run _ _ _ _ _ (wp_wlp _ _ _ (shell_round_safe console h IH1 IH2 Hok)) Hrun) as [? ?]. auto.
    - split; [|done]. destruct IH1. by split. }
  destruct H as [Hi Hl]. split; [done|]. split; [done|]. intros console Hok.
  destruct (wp_elim _ _ _ (shell_round_safe console h Hi Hl Hok)) as (next & h' & Hrun & H' & _). eauto.
Qed.

(** The shell starts: from the state at its entry it creates the terminal's window and prompts with an empty line; it faults only on a display
    whose width is 519 or whose usable height is 299, for which [wm_create] computes a remainder modulo zero. *)
Theorem shell_start_correct h : shell_boot h →
  (∃ h', shell_start h = Done (tt, h') ∧ shell_inv h' ∧ line_of h' = []) ∨ (shell_start h = Fault ∧ bad_display h).
Proof.
  intros Hb. destruct (wpf_elim _ _ _ _ (shell_start_spec h Hb)) as [([] & h' & Hrun & H')|Hf]; [left; eauto|by right].
Qed.

(** *** Keys *)

(** What waits: the characters of the queue with the shift key, the events, and the characters of the keyboard interrupt. *)
Definition typed_of h : list Z * bool := (input_items (sv_input (sh_vars h)), iq_shift (sv_input (sh_vars h))).
Definition events_of h : list k_event := event_items (ss_events (sh_sys h)).

Lemma pop_key_spec h : shell_inv h → wp pop_key (λ ch h', shell_inv h' ∧ still h h' ∧ sh_sys h' = sh_sys h ∧
  match (typed_of h).1 with [] => ch = -1 ∧ h' = h | c :: l => ch = c ∧ 0 ≤ ch ∧ typed_of h' = (l, (typed_of h).2) end) h.
Proof.
  intros Hh. unfold pop_key, my_vars, on_my. wp_steps. pose proof (input_q_pop_spec _ (vo_input _ (si_vars h Hh))) as Hp.
  destruct (input_q_pop (sv_input (sh_vars h))) as [ch i]. wp_steps. destruct Hp as (Hi & Hs & Hp). unfold typed_of. cbn [fst snd].
  assert (H' : shell_inv (ShellState (sh_sys h) (sh_input h) (sh_wm h) (set_input i (sh_vars h)))).
  { destruct Hh as [[] ? ? ? ? ?]. by split; [split|..]. }
  split; [done|]. split; [done|]. split; [done|]. destruct (input_items (sv_input (sh_vars h))) as [|c l].
  - destruct Hp as [-> ->]. split; [done|]. by destruct h as [? ? ? []].
  - destruct Hp as (-> & Hr & <-). split; [done|]. split; [lia|]. cbn. by rewrite Hs.
Qed.

Lemma pull_events_spec n : ∀ h, shell_inv h → wp (pull_events n) (λ _ h', shell_inv h' ∧ still h h' ∧ ss_kbd (sh_sys h') = ss_kbd (sh_sys h) ∧
  typed_of h' = foldl feed (typed_of h) (take n (events_of h)) ∧ events_of h' = drop n (events_of h)) h.
Proof.
  induction n as [|n IH]; intros h Hh; cbn [pull_events]; [by wp_steps|].
  wp_step. unfold on_shell_sys at 1, on_events at 1. do 2 apply wp_zoom. eapply wp_mono; [apply kevent_pop_spec, Hh|]. intros e ev [Hev Hsp]. cbv beta.
  set (h1 := set_sh_sys _ h). assert (H1 : shell_inv h1) by (destruct Hh; by split). unfold spec_pop, event_abs in Hsp. cbn [es_items es_seq] in Hsp.
  change (event_items (ss_events (sh_sys h))) with (events_of h) in Hsp. change (event_items ev) with (events_of h1) in Hsp.
  destruct (events_of h) as [|e0 es] eqn:Ee; injection Hsp as -> Es Hseq; [by wp_steps|].
  destruct (take_event_spec e0 _ (vo_input _ (si_vars h Hh))) as [Hi Hf].
  wp_step. unfold on_my. wp_steps. set (h2 := ShellState _ _ _ _).
  assert (H2 : shell_inv h2) by (destruct H1 as [[] ? ? ? ? ?]; by split; [split|..]). eapply wp_mono; [by apply IH|].
  intros [] h3 (H3 & S3 & K3 & T3 & E3). split; [done|]. split; [exact S3|]. split; [exact K3|]. rewrite T3, E3.
  change (events_of h2) with (events_of h1). rewrite Es. split; [|done]. cbn [take foldl]. f_equal. exact Hf.
Qed.

(** C20: [u_getchar] gives the characters of the keys in the order in which they were pressed, with the shift key as it was then: first those that
    already wait, then those of the next 32 events, of which the queue keeps 15, and only then the keyboard interrupt's and the firmware's. *)
Theorem u_getchar_correct console h : shell_inv h → wp (u_getchar console) (λ ch h', shell_inv h' ∧ still h h' ∧
  match (typed_of h).1 with
  | c :: l => ch = c ∧ typed_of h' = (l, (typed_of h).2) ∧ events_of h' = events_of h ∧ ss_kbd (sh_sys h') = ss_kbd (sh_sys h)
  | [] =>
      let '(q, shift) := foldl feed (typed_of h) (take 32 (events_of h)) in
      events_of h' = drop 32 (events_of h) ∧
      match q with
      | c :: l => ch = c ∧ typed_of h' = (l, shift) ∧ ss_kbd (sh_sys h') = ss_kbd (sh_sys h)
      | [] => typed_of h' = ([], shift) ∧
          match kbd_items (ss_kbd (sh_sys h)) with
          | c :: l => ch = c mod 256 ∧ kbd_items (ss_kbd (sh_sys h')) = l
          | [] => ch = to_int console ∧ ss_kbd (sh_sys h') = ss_kbd (sh_sys h)
          end
      end
  end) h.
Proof.
  intros Hh. unfold u_getchar. wp_step. eapply wp_mono; [by apply pop_key_spec|]. intros ch h1 (H1 & S1 & E1 & Hp).
  destruct (typed_of h).1 as [|c l] eqn:Et.
  2: { destruct Hp as (-> & Hc & T1). rewrite (proj2 (Z.leb_le _ _) Hc). wp_steps. unfold events_of. by rewrite E1. }
  destruct Hp as [-> ->]. change (0 <=? -1) with false. cbv iota. clear H1 S1 E1.
  wp_step. eapply wp_mono; [by apply pull_events_spec|]. intros [] h2 (H2 & S2 & K2 & T2 & E2).
  destruct (foldl feed (typed_of h) (take 32 (events_of h))) as [q shift] eqn:Eq.
  wp_step. eapply wp_mono; [by apply pop_key_spec|]. intros ch h3 (H3 & S3 & E3 & Hp). rewrite T2 in Hp. cbn [fst snd] in Hp.
  destruct q as [|c l].
  2: { destruct Hp as (-> & Hc & T3). rewrite (proj2 (Z.leb_le _ _) Hc). wp_steps. unfold events_of in *. rewrite E3. split; [done|]. split; [by etrans|]. split; [done|]. done. }
  destruct Hp as [-> ->]. change (0 <=? -1) with false. cbv iota. unfold shell_getchar. do 2 wp_step. rewrite K2.
  destruct (kbd_queue_fifo (ss_kbd (sh_sys h)) 0 console (si_kbd h Hh)) as [_ Hk]. destruct (getchar console (ss_kbd (sh_sys h))) as [r kbd]. destruct Hk as [Hk Hr].
  wp_step. unfold on_shell_sys. apply wp_zoom, wp_modify. set (h4 := set_sh_sys _ h2).
  assert (H4 : shell_inv h4) by (destruct H2; by split).
  assert (Hend : ∀ c, wp (do! (if kbdq_head (ss_kbd (sh_sys h)) =? kbdq_tail (ss_kbd (sh_sys h)) then kret tt else shell_printf ("kbdq:deq ch=%d" ++ newline) [AWord c]) in kret c)
    (λ ch h', ch = c ∧ shell_inv h' ∧ still h h' ∧ events_of h' = events_of h2 ∧ typed_of h' = typed_of h2 ∧ ss_kbd (sh_sys h') = kbd) h4).
  { intros c. wp_step. destruct (_ =? _); [wp_steps; by split_and!|]. unfold shell_printf. destruct (printf_deq c) as [out ->].
    unfold on_shell_sys. apply wp_zoom. wp_steps. destruct H4. by split_and!. }
  destruct (kbd_items (ss_kbd (sh_sys h))) as [|c l]; destruct Hr as [-> Hr]; (eapply wp_mono; [apply Hend|]); intros ch h5 (-> & H5 & S5 & E5 & T5 & K5);
    (split; [done|]; split; [done|]; split; [congruence|]; split; [congruence|]; split; [done|congruence]).
Qed.

(** *** A file that is written is shown *)
Lemma open_succeeds s path n flags r s1 : open_post s (Some path) flags r s1 → normalize_name (Some path) = Some n →
  ¬ open_refused s n flags → ¬ no_free_fd s → 0 ≤ r.
Proof.
  intros (_ & _ & Hp) Hn Hnr Hfree. rewrite Hn in Hp. cbv zeta in Hp. destruct Hp as [[? _]|(_ & _ & [(_ & ? & _)|(? & _)])]; [done|done|lia].
Qed.

(** A line typed at the prompt runs the command of its words. *)
Lemma type_line_spec h ks cmd args (Q : shell_next → shell_state P G D → Prop) : shell_inv h → line_of h = [] → Forall edits ks →
  words (foldl edit [] ks) = cmd :: args → (length (cmd :: args) ≤ 11)%nat →
  (∀ h1, shell_inv h1 → console_of h1 = console_of h ++ echoes [] ks ++ [10] → fs_of h1 = fs_of h → Forall arg_ok args →
     wp (run_command cmd args) (λ next h2, match next with PoweredOff => Q PoweredOff h2 | Again => shell_inv h2 ∧ ∀ h3, prompted h2 h3 → Q Again h3 end) h1) →
  wp (type_line ks) Q h.
Proof.
  intros Hh Hl Hks Hw Hlen HQ. unfold type_line. wp_step.
  eapply wp_mono; [apply press_keys_edit; [done|unfold line_ok; by rewrite Hl|done]|]. rewrite Hl. intros [] h1 (H1 & Q1 & L1 & E1 & F1 & C1).
  change (shell_key 10) with (enter (P:=P) (G:=G) (D:=D)). apply wp_enter_key; [done|done|]. rewrite E1. intros argv h2 Ha H2 _ C2 F2.
  assert (argv = cmd :: args) as -> by (rewrite <-Hw; apply args_of_words; [done|by rewrite Hw]).
  apply HQ; [done|by rewrite C2, C1, <-app_assoc|congruence|]. by apply ao_ok in Ha as [_ ?]%Forall_cons.
Qed.

Lemma line_chars ks (ws : list (list Z)) : Forall edits ks → Forall (λ w, w ∈ words (foldl edit [] ks)) ws → chars (words_text true ws) = words_text true ws.
Proof.
  intros Hks Hws. assert (Hl : Forall (λ c, printable c = true) (foldl edit [] ks)).
  { assert (H0 : Forall (λ c, printable c = true) []) by done. revert H0. generalize (@nil Z). clear Hws. induction Hks as [|k ks _ _ IH]; intros l Hl; cbn; [done|].
    apply IH. unfold edit. destruct (_ || _); [by apply Forall_take|]. destruct (printable k) eqn:Ek; cbn [andb]; [|done]. destruct (_ <? _)%nat; [|done].
    apply Forall_app. by split; [|constructor]. }
  assert (Hp : Forall (λ c, printable c = true) (words_text true ws)).
  { apply words_text_Forall; [done|]. pose proof (words_of_Forall _ _ [] (Forall_nil_2 _) Hl) as Hf. rewrite Forall_forall in Hf, Hws |- *. intros w Hw. by apply Hf, Hws. }
  unfold chars. rewrite <-(list_fmap_id (words_text true ws)) at 2. apply list_fmap_ext. intros i c Hc. apply (Forall_lookup_1 _ _ _ _ Hp) in Hc.
  cbn beta in Hc. unfold printable in Hc. apply Z.mod_small. unfold id. lia.
Qed.

Lemma run_write path a args : run_command (P:=P) (G:=G) (D:=D) (bytes_of "write") (path :: a :: args) = (do! shell_write path (a :: args) in kret Again).
Proof. reflexivity. Qed.
Lemma run_cat path args : run_command (P:=P) (G:=G) (D:=D) (bytes_of "cat") (path :: args) = (do! shell_cat path in kret Again).
Proof. reflexivity. Qed.

(** Typing [write path w1 ... wn] stores the words. *)
Lemma type_write h ks path a ws n : shell_inv h → line_of h = [] → Forall edits ks →
  words (foldl edit [] ks) = bytes_of "write" :: path :: a :: ws → (length ws ≤ 8)%nat → normalize_name (Some path) = Some n →
  ¬ no_free_fd (fs_of h) → ¬ (file_of (fs_of h) n = None ∧ table_full (fs_of h)) →
  wp (type_line ks) (λ next h', next = Again ∧ shell_inv h' ∧ line_of h' = [] ∧ same_fds (fs_of h) (fs_of h') ∧
    (∀ n', file_of (fs_of h') n' = if decide (n' = n) then Some (words_text true (a :: ws)) else file_of (fs_of h) n') ∧
    console_of h' = console_of h ++ echoes [] ks ++ [10] ++ bytes_of "k> ") h.
Proof.
  intros Hh Hl Hks Hw Hlen Hn Hfree Hroom. eapply type_line_spec; [done|done|done|exact Hw|cbn; lia|]. intros h1 H1 C1 F1 Hargs. rewrite run_write.
  apply Forall_cons in Hargs as [[Hp _] Hargs].
  wp_step. eapply wp_mono; [apply shell_write_spec; [done|done|eapply Forall_impl; [exact Hargs|by intros ? [_ ?]]]|].
  intros [] h2 (r & s1 & Ho & Hpost). wp_step. rewrite F1 in *.
  rewrite (proj2 (Z.ltb_ge r 0)) in Hpost. 2: { eapply open_succeeds; [exact Ho|exact Hn| |done]. intros [Hnone [Hc|Hfull]]; [done|by apply Hroom]. }
  destruct Hpost as (n0 & Hn0 & Haf & Hsame & Hfile). rewrite Hn in Hn0. injection Hn0 as <-. split; [apply Haf|].
  intros h3 (H3 & L3 & C3 & F3). rewrite F3. split; [done|]. split; [done|]. split; [done|]. split; [done|].
  split; [|by rewrite C3, (af_out _ _ _ Haf), C1, app_nil_r, <-!app_assoc].
  rewrite take_ge in Hfile; [done|]. pose proof (words_of_length (foldl edit [] ks) []) as Hwl. fold (words (foldl edit [] ks)) in Hwl. rewrite Hw in Hwl.
  assert (Hll : (length (foldl edit [] ks) ≤ 127)%nat).
  { assert (H0 : (length (@nil Z) ≤ 127)%nat) by (cbn; lia). revert H0. generalize (@nil Z). clear. induction ks as [|k ks IH]; intros l Hl; cbn; [done|].
    apply IH. unfold edit. destruct (_ || _); [rewrite length_take; lia|]. destruct (Nat.ltb_spec (length l) 127); [|by rewrite andb_false_r].
    destruct (printable k); cbn [andb]; [rewrite length_app; cbn|]; lia. }
  pose proof (words_text_first (a :: ws)). pose proof (words_text_tail path (a :: ws)). pose proof (words_text_tail (bytes_of "write") (path :: a :: ws)).
  cbn [length] in Hwl. lia.
Qed.

(** Typing [cat path] prints the file. *)
Lemma type_cat h ks path n c : shell_inv h → line_of h = [] → Forall edits ks → words (foldl edit [] ks) = [bytes_of "cat"; path] →
  normalize_name (Some path) = Some n → ¬ no_free_fd (fs_of h) → file_of (fs_of h) n = Some c →
  wp (type_line ks) (λ next h', next = Again ∧ shell_inv h' ∧ line_of h' = [] ∧ same_fds (fs_of h) (fs_of h') ∧
    (∀ n', file_of (fs_of h') n' = file_of (fs_of h) n') ∧ 
    console_of h' = console_of h ++ echoes [] ks ++ [10] ++ chars c ++ [10] ++ bytes_of "k> ") h.
Proof.
  intros Hh Hl Hks Hw Hn Hfree Hc. eapply type_line_spec; [done|done|done|exact Hw|cbn; lia|]. intros h1 H1 C1 F1 _. rewrite run_cat.
  wp_step. eapply wp_mono; [by apply shell_cat_spec|]. intros [] h2 (r & s1 & Ho & Hpost). wp_step. rewrite F1 in *.
  rewrite (proj2 (Z.ltb_ge r 0)) in Hpost. 2: { eapply open_succeeds; [exact Ho|exact Hn| |done]. intros [Hnone _]. congruence. }
  destruct Hpost as (n0 & c0 & Hn0 & Hc0 & Haf & Hsame & Hfile). rewrite Hn in Hn0. injection Hn0 as <-. rewrite Hc in Hc0. injection Hc0 as <-.
  split; [apply Haf|]. intros h3 (H3 & L3 & C3 & F3). rewrite F3. split; [done|]. split; [done|]. split; [done|]. split; [done|]. split; [done|].
  rewrite C3, (af_out _ _ _ Haf), C1. unfold chars. rewrite fmap_app, <-!app_assoc. done.
Qed.

(** C18: From the keyboard to the file system and back: at an empty line, typing [write path w1 ... wn] with any corrections by backspace and
    then [cat path] stores the words with one blank between them in the file and shows them.  The console gets exactly the echo of the typed
    keys, a line feed and the prompt for the first line, and the echo, a line feed, this text, a line feed and the prompt for the second.  The
    other files and the descriptors are as before.  The name must be valid, a descriptor and room for the file free, and the first line has
    one to nine words to store, eleven words in all (a twelfth argument would run to the end of the line). *)
Theorem shell_write_then_cat h ks1 ks2 path a ws n :
  shell_inv h → line_of h = [] → Forall edits ks1 → Forall edits ks2 →
  words (foldl edit [] ks1) = bytes_of "write" :: path :: a :: ws → (length ws ≤ 8)%nat → words (foldl edit [] ks2) = [bytes_of "cat"; path] →
  normalize_name (Some path) = Some n → ¬ no_free_fd (fs_of h) → ¬ (file_of (fs_of h) n = None ∧ table_full (fs_of h)) →
  wp (do! type_line ks1 in type_line ks2) (λ next h', next = Again ∧ shell_inv h' ∧ line_of h' = [] ∧ same_fds (fs_of h) (fs_of h') ∧
    (∀ n', file_of (fs_of h') n' = if decide (n' = n) then Some (words_text true (a :: ws)) else file_of (fs_of h) n') ∧
    console_of h' = console_of h ++ echoes [] ks1 ++ [10] ++ bytes_of "k> " ++
      echoes [] ks2 ++ [10] ++ words_text true (a :: ws) ++ [10] ++ bytes_of "k> ") h.
Proof.
  intros Hh Hl Hk1 Hk2 Hw1 Hlen Hw2 Hn Hfree Hroom. wp_step. eapply wp_mono; [by eapply (type_write h ks1 path a ws n)|].
  intros next h1 (_ & H1 & L1 & [C1 O1] & F1 & T1). eapply wp_mono; [eapply (type_cat h1 ks2 path n (words_text true (a :: ws))); try done|].
  { intros Hno. apply Hfree. by apply (no_free_fd_ext (fs_of h) (fs_of h1)). } { by rewrite F1, decide_True. }
  rewrite (line_chars ks1). 2: done. 2: { rewrite Hw1. apply Forall_forall. intros w Hin. by do 2 right. }
  intros next' h2 (-> & H2 & L2 & [C2 O2] & F2 & Hout). split; [done|]. split; [done|]. split; [done|]. split; [split; [congruence|by intros; rewrite O2]|].
  split; [intros n'; by rewrite F2, F1|]. by rewrite Hout, T1, <-!app_assoc.
Qed.
End props.

(** ** A shell *)

Section demo.
#[local] Existing Instance demo_layout.
#[local] Existing Instance demo_layout_ok.
#[local] Existing Instance no_ext4.
#[local] Existing Instance VirtioGpuProps.demo_mmio.
#[local] Existing Instance VirtioGpuProps.demo_gpu_device.
#[local] Existing Instance VirtioGpuProps.demo_places.
#[local] Existing Instance VirtioInputProps.demo_input_device.
#[local] Existing Instance VirtioInputProps.demo_places.

Definition zero_history : shell_history := ShellHistory 0 0 0 (replicate 16 (replicate 128 0)) (replicate 128 0) false.
(** The variables of the shell as the program is loaded. *)
Definition zero_shell : shell_vars :=
  ShellVars (replicate 128 0) 0 (replicate 1024 0) 0 false 0 zero_history (FileDb (replicate 64 (replicate 64 0)) 0)
    (TermState (replicate 4096 0) 0) (InputState (replicate 16 0) 0 0 false).
Definition demo_shell (f : fs_state) : shell_state alloc_state (vg_state demo_dev) unit :=
  ShellState (SysState (KernelState (VmState (boot_alloc_state ∅) 0 0 0) f 0) (KeventState (replicate 128 zero_event) 0 0 0 0) demo_kbd [] boot_gpu)
    VirtioInputProps.demo_boot boot_wm zero_shell.

Lemma zero_shell_ok : vars_ok zero_shell.
Proof.
  split; cbn [zero_shell sv_line sv_len sv_iobuf sv_db sv_term sv_input]; [by rewrite length_replicate|lia|by rewrite length_replicate| | |].
  - split_and!; cbn [db_names db_count]; [by rewrite length_replicate| |lia]. apply Forall_replicate. split; [done|]. apply Nat.ltb_lt. reflexivity.
  - split; cbn [tv_buf tv_len]; [by rewrite length_replicate|lia].
  - split; [by split|]. by apply (Forall_replicate _ 16 0).
Qed.

Lemma demo_shell_boot f : fs_ok f → shell_boot (demo_shell f).
Proof.
  intros Hf. split; [exact zero_shell_ok|exact Hf|by split; [split|]|by split|exact boot_gpu_ok|done].
Qed.

Lemma demo_not_bad f : ¬ bad_display (demo_shell f).
Proof.
  intros (w & Hrun & Hb). change (wm_init boot_desktop = Done (tt, w)) in Hrun. pose proof demo_desktop_runs as Hv. rewrite Hrun in Hv. unfold small_vars in Hv.
  apply andb_true_iff in Hv as [[[[Hr Hsw%Z.eqb_eq]%andb_true_iff Hsh%Z.eqb_eq]%andb_true_iff _]%andb_true_iff _].
  unfold bad_size, wm_usable_h in Hb. rewrite Hr, Hsw, Hsh in Hb. vm_compute in Hb. by destruct Hb.
Qed.

(** The file system after [fs_init]. *)
Definition demo_files : fs_state := match fs_init FsProps.demo_boot with Done (_, s) => s | _ => FsProps.demo_boot end.
Lemma demo_files_ok : fs_ok demo_files.
Proof.
  destruct (wp_elim _ _ _ (fs_init_spec FsProps.demo_boot demo_boot_ok)) as (a & s & Hrun & Hok & _). unfold demo_files. by rewrite Hrun.
Qed.

Definition round_okb (h : shell_state alloc_state (vg_state demo_dev) unit) : bool :=
  let v := sh_wm h in
  (wm_next_id v <? 2147483647) && (wm_next_z v <? 2147483647) && (wm_screen_w v =? 8) && (wm_usable_h v <? 200) && negb (sv_fm_active (sh_vars h)).
Lemma round_okb_ok h : round_okb h = true → round_ok h.
Proof.
  unfold round_okb. intros [[[[H1%Z.ltb_lt H2%Z.ltb_lt]%andb_true_iff H3%Z.eqb_eq]%andb_true_iff H4%Z.ltb_lt]%andb_true_iff H5%negb_true_iff]%andb_true_iff.
  split; [done| | |by rewrite H5].
  - rewrite H3. rewrite !not_elem_of_cons. split_and!; [lia|lia|lia|apply not_elem_of_nil].
  - rewrite !not_elem_of_cons. split_and!; [lia|lia|apply not_elem_of_nil].
Qed.

Lemma demo_start_runs : match shell_start (demo_shell demo_files) with Done (_, h) => round_okb h | _ => false end = true.
Proof. vm_compute. reflexivity. Qed.

Lemma started h0 : shell_boot h0 → ¬ bad_display h0 → match shell_start h0 with Done (_, h) => round_okb h | _ => false end = true →
  ∃ h : shell_state alloc_state (vg_state demo_dev) unit, shell_reachable h ∧ round_ok h.
Proof.
  intros Hb Hnb Hr. destruct (wpf_elim _ _ _ _ (shell_start_spec _ Hb)) as [([] & h & Hrun & _)|[_ Hx]]; [|destruct (Hnb Hx)].
  rewrite Hrun in Hr. exists h. split; [exact (ShellStart _ _ Hb Hrun)|by apply round_okb_ok].
Qed.

Lemma demo_started : ∃ h : shell_state alloc_state (vg_state demo_dev) unit, shell_reachable h ∧ round_ok h.
Proof. exact (started _ (demo_shell_boot demo_files demo_files_ok) (demo_not_bad _) demo_start_runs). Qed.

Lemma shell_always_safe_witness : ∃ h : shell_state alloc_state (vg_state demo_dev) unit, shell_reachable h ∧ round_ok h ∧
  shell_inv h ∧ line_ok h ∧ ∀ console, round_ok h → ∃ next h', shell_round console h = Done (next, h') ∧ shell_inv h'.
Proof.
  destruct demo_started as (h & Hr & Hok). exists h. split; [exact Hr|]. split; [exact Hok|]. exact (shell_always_safe h Hr).
Defined.

Lemma shell_start_correct_witness : shell_boot (demo_shell demo_files) ∧
  ((∃ h', shell_start (demo_shell demo_files) = Done (tt, h') ∧ shell_inv h' ∧ line_of h' = []) ∨
   (shell_start (demo_shell demo_files) = Fault ∧ bad_display (demo_shell demo_files))).
Proof.
  split; [exact (demo_shell_boot demo_files demo_files_ok)|]. exact (shell_start_correct _ (demo_shell_boot demo_files demo_files_ok)).
Defined.

(** A shell at its prompt with the files [f] and the events [ev]. *)
Lemma demo_prompt f ev : fs_ok f → kevent_ok ev → ∃ h : shell_state alloc_state (vg_state demo_dev) unit,
  shell_inv h ∧ line_of h = [] ∧ fs_of h = f ∧ ss_events (sh_sys h) = ev ∧ sh_vars h = zero_shell.
Proof.
  intros Hf He. destruct demo_desktop as (s & _ & Hi & _ & _ & _ & Hc & _).
  set (h0 := put_wm s (demo_shell f)). exists (set_sh_sys (SysState (ss_kernel (sh_sys h0)) ev (ss_kbd (sh_sys h0)) (ss_console (sh_sys h0)) (ss_gpu (sh_sys h0))) h0).
  split; [|done]. split; [exact zero_shell_ok|exact Hf| |exact Hc|exact He|by split]. unfold wm_of, h0, put_wm. cbn. by destruct s.
Qed.

(** The left shift key and A go down. *)
Definition demo_typing : kevent_state :=
  KeventState (KEvent KEVENT_TYPE_INPUT VI_EV_KEY VI_KEY_LEFTSHIFT 1 0 0 :: KEvent KEVENT_TYPE_INPUT VI_EV_KEY 30 1 0 1 :: replicate 126 zero_event) 0 2 2 0.
Lemma demo_typing_ok : kevent_ok demo_typing.
Proof. split; [|done]. split; [reflexivity|unfold KEVENT_Q_CAP; cbn; lia..]. Qed.

Lemma u_getchar_correct_witness : ∃ h : shell_state alloc_state (vg_state demo_dev) unit,
  shell_inv h ∧ wp (u_getchar 4294967295) (λ ch h', ch = 65 ∧ shell_inv h' ∧ typed_of h' = ([], true) ∧ events_of h' = []) h.
Proof.
  destruct (demo_prompt demo_files demo_typing demo_files_ok demo_typing_ok) as (h & Hi & _ & _ & Ev & Vs). exists h. split; [exact Hi|].
  eapply wp_mono; [exact (u_getchar_correct 4294967295 h Hi)|]. intros ch h' (H' & _ & Hp). unfold typed_of at 1, events_of at 2 in Hp. rewrite Vs in Hp.
  unfold typed_of, events_of in *. rewrite Vs, Ev in Hp. vm_compute in Hp. destruct Hp as (Hev & -> & Ht & _). split; [reflexivity|]. split; [exact H'|]. split; assumption.
Defined.

(** [write /README helo], a backspace, [lo  you] and [cat /README]. *)
Definition demo_write : list Z := bytes_of "write /README helo" ++ [8] ++ bytes_of "lo  you ".
Definition demo_cat : list Z := bytes_of " cat /README".

Lemma demo_edits : Forall edits demo_write ∧ Forall edits demo_cat.
Proof. unfold edits. split; repeat (constructor; [split_and!; [by vm_compute|done|done]|]); constructor. Qed.

Lemma shell_write_then_cat_witness : ∃ h : shell_state alloc_state (vg_state demo_dev) unit,
  wp (do! type_line demo_write in type_line demo_cat) (λ next h', next = Again ∧ shell_inv h' ∧ line_of h' = [] ∧ same_fds (fs_of h) (fs_of h') ∧
    (∀ n', file_of (fs_of h') n' = if decide (n' = README) then Some (words_text true [bytes_of "hello"; bytes_of "you"]) else file_of (fs_of h) n') ∧
    console_of h' = console_of h ++ echoes [] demo_write ++ [10] ++ bytes_of "k> " ++
      echoes [] demo_cat ++ [10] ++ words_text true [bytes_of "hello"; bytes_of "you"] ++ [10] ++ bytes_of "k> ") h.
Proof.
  destruct demo_fs as (f & Hok & Ho & Hfile). destruct (demo_prompt f demo_typing Hok demo_typing_ok) as (h & Hi & Hl & Ef & _). exists h.
  apply (shell_write_then_cat h demo_write demo_cat (bytes_of "/README") (bytes_of "hello") [bytes_of "you"] README).
  - exact Hi.
  - exact Hl.
  - apply demo_edits.
  - apply demo_edits.
  - vm_compute. reflexivity.
  - cbn. lia.
  - vm_compute. reflexivity.
  - vm_compute. reflexivity.
  - rewrite Ef. by apply demo_free.
  - rewrite Ef. intros [Hnone _]. rewrite Hfile, decide_True in Hnone by done. discriminate Hnone.
Defined.
End demo.
