(* ===== verification/Asm.v ===== *)
(** * The assembly of the kernel: [trap/entry.c], [trap/resume.c] and [context.c]

    The instructions that these functions use, as steps on registers, CSRs and byte memory, and the three functions
    as lists of instructions.  The loads, stores, [li], [la], [mv] and branches are those of RV32I; a branch only goes
    forward to a label.  [handle_trap], which [kernel_entry] calls, is a parameter. *)

From S2P Require Import Prelude KString Proc.

(** ** The machine *)

Inductive reg :=
| X0 | RA | SP | GP | TP
| T0 | T1 | T2 | T3 | T4 | T5 | T6
| A0 | A1 | A2 | A3 | A4 | A5 | A6 | A7
| S0 | S1 | S2 | S3 | S4 | S5 | S6 | S7 | S8 | S9 | S10 | S11.
#[export] Instance reg_eq_dec : EqDecision reg.
Proof. solve_decision. Defined.

Inductive csr := CSR_SSTATUS | CSR_SEPC | CSR_SSCRATCH.
#[export] Instance csr_eq_dec : EqDecision csr.
Proof. solve_decision. Defined.

Record machine := Machine { m_regs : reg → Z; m_csrs : csr → Z; m_mem : mem }.

Definition upd {K} `{EqDecision K} (f : K → Z) (k : K) (v : Z) : K → Z := λ k', if decide (k' = k) then v else f k'.
(** [x0] stays zero. *)
Definition set_reg (r : reg) (v : Z) (m : machine) : machine :=
  match r with X0 => m | _ => Machine (upd (m_regs m) r v) (m_csrs m) (m_mem m) end.
Definition set_csr (c : csr) (v : Z) (m : machine) : machine := Machine (m_regs m) (upd (m_csrs m) c v) (m_mem m).
Definition set_mem (mm : mem) (m : machine) : machine := Machine (m_regs m) (m_csrs m) mm.

Inductive instr :=
| Csrrw (rd : reg) (c : csr) (rs : reg)
| Csrrci (rd : reg) (c : csr) (imm : Z)
| Csrr (rd : reg) (c : csr)
| Csrw (c : csr) (rs : reg)
| Addi (rd rs : reg) (imm : Z)
| Andi (rd rs : reg) (imm : Z)
| Add (rd rs1 rs2 : reg)
| Li (rd : reg) (imm : Z)
| La (rd : reg) (address : Z)
| Mv (rd rs : reg)
| Lw (rd : reg) (off : Z) (base : reg)
| Sw (rs : reg) (off : Z) (base : reg)
| Lab (l : nat)
| Bnez (rs : reg) (l : nat)
| Call
| Sret
| Ret.

(** The instructions that go on with the next one. *)
Definition step (i : instr) (m : machine) : machine :=
  let r := m_regs m in
  match i with
  | Csrrw rd c rs => set_reg rd (m_csrs m c) (set_csr c (r rs) m)
  | Csrrci rd c imm => set_reg rd (m_csrs m c) (set_csr c (Z.ldiff (m_csrs m c) imm) m)
  | Csrr rd c => set_reg rd (m_csrs m c) m
  | Csrw c rs => set_csr c (r rs) m
  | Addi rd rs imm => set_reg rd (wrap32 (r rs + imm)) m
  | Andi rd rs imm => set_reg rd (Z.land (r rs) imm) m
  | Add rd rs1 rs2 => set_reg rd (wrap32 (r rs1 + r rs2)) m
  | Li rd imm => set_reg rd imm m
  | La rd a => set_reg rd a m
  | Mv rd rs => set_reg rd (r rs) m
  | Lw rd off base => set_reg rd (load32 (m_mem m) (wrap32 (r base + off))) m
  | Sw rs off base => set_mem (store32 (m_mem m) (wrap32 (r base + off)) (r rs)) m
  | _ => m
  end.

(** How a function ends: [ret] to an address, or [sret]. *)
Inductive leave := Returned (pc : Z) | TrapReturn.

Section exec.
(** What a call does, the link register included; [None] when it does not come back. *)
Context (callee : machine → option machine).

(** With [skip = Some l] a branch to the label [l] is under way. *)
Fixpoint exec (prog : list instr) (skip : option nat) (m : machine) : option (leave * machine) :=
  match prog with
  | [] => None
  | i :: prog' =>
      match skip with
      | Some l => match i with Lab l' => exec prog' (if (l =? l')%nat then None else Some l) m | _ => exec prog' (Some l) m end
      | None =>
          match i with
          | Bnez rs l => exec prog' (if m_regs m rs =? 0 then None else Some l) m
          | Call => match callee m with Some m' => exec prog' None m' | None => None end
          | Sret => Some (TrapReturn, m)
          | Ret => Some (Returned (m_regs m RA), m)
          | _ => exec prog' None (step i m)
          end
      end
  end.
End exec.

(** ** [struct trap_frame] and [struct process] in memory *)

(** [sizeof(struct trap_frame)], of 33 words and aligned to 16. *)
Definition frame_size : Z := 144.
Definition sepc_offset : Z := 124.
Definition sstatus_offset : Z := 128.
Definition align16 (x : Z) : Z := (x + 15) / 16 * 16.
(** [offsetof(struct process, stack)]: six [int]s, the aligned [bool] and four words before it. *)
Definition stack_offset : Z := align16 (6 * 4 + 4 + 4 * 4).
Definition stack_top_offset : Z := stack_offset + 32768.
(** [offsetof(struct process, trap_frame)]: the stack, the aligned [bool] and two words before it. *)
Definition tf_offset : Z := align16 (stack_top_offset + 4 + 2 * 4).

(** ** [kernel_entry] *)

Definition save_registers : list instr :=
  [Sw RA (4 * 0) SP; Sw GP (4 * 1) SP; Sw TP (4 * 2) SP;
   Sw T0 (4 * 3) SP; Sw T1 (4 * 4) SP; Sw T2 (4 * 5) SP; Sw T3 (4 * 6) SP; Sw T4 (4 * 7) SP; Sw T5 (4 * 8) SP; Sw T6 (4 * 9) SP;
   Sw A0 (4 * 10) SP; Sw A1 (4 * 11) SP; Sw A2 (4 * 12) SP; Sw A3 (4 * 13) SP; Sw A4 (4 * 14) SP; Sw A5 (4 * 15) SP; Sw A6 (4 * 16) SP; Sw A7 (4 * 17) SP;
   Sw S0 (4 * 18) SP; Sw S1 (4 * 19) SP; Sw S2 (4 * 20) SP; Sw S3 (4 * 21) SP; Sw S4 (4 * 22) SP; Sw S5 (4 * 23) SP; Sw S6 (4 * 24) SP;
   Sw S7 (4 * 25) SP; Sw S8 (4 * 26) SP; Sw S9 (4 * 27) SP; Sw S10 (4 * 28) SP; Sw S11 (4 * 29) SP].
Definition load_registers : list instr :=
  [Lw RA (4 * 0) SP; Lw GP (4 * 1) SP; Lw TP (4 * 2) SP;
   Lw T0 (4 * 3) SP; Lw T1 (4 * 4) SP; Lw T2 (4 * 5) SP; Lw T3 (4 * 6) SP; Lw T4 (4 * 7) SP; Lw T5 (4 * 8) SP; Lw T6 (4 * 9) SP;
   Lw A0 (4 * 10) SP; Lw A1 (4 * 11) SP; Lw A2 (4 * 12) SP; Lw A3 (4 * 13) SP; Lw A4 (4 * 14) SP; Lw A5 (4 * 15) SP; Lw A6 (4 * 16) SP; Lw A7 (4 * 17) SP;
   Lw S0 (4 * 18) SP; Lw S1 (4 * 19) SP; Lw S2 (4 * 20) SP; Lw S3 (4 * 21) SP; Lw S4 (4 * 22) SP; Lw S5 (4 * 23) SP; Lw S6 (4 * 24) SP;
   Lw S7 (4 * 25) SP; Lw S8 (4 * 26) SP; Lw S9 (4 * 27) SP; Lw S10 (4 * 28) SP; Lw S11 (4 * 29) SP].

(** Up to the call. *)
Definition entry_front : list instr :=
  [Csrrw SP CSR_SSCRATCH SP; Bnez SP 1; Csrrw SP CSR_SSCRATCH SP; Lab 1; Addi SP SP (- frame_size)] ++
  save_registers ++
  [Csrr T0 CSR_SSCRATCH; Bnez T0 2; Addi T0 SP frame_size; Lab 2; Sw T0 (4 * 30) SP;
   Csrr T0 CSR_SEPC; Sw T0 sepc_offset SP; Csrr T0 CSR_SSTATUS; Sw T0 sstatus_offset SP; Csrw CSR_SSCRATCH X0; Mv A0 SP].
(** Behind it. *)
Definition entry_back : list instr :=
  [Lw T0 sepc_offset SP; Csrw CSR_SEPC T0; Lw T0 sstatus_offset SP; Csrw CSR_SSTATUS T0; Andi T0 T0 256; Bnez T0 3;
   Addi T0 SP frame_size; Csrw CSR_SSCRATCH T0; Lab 3] ++
  load_registers ++
  [Lw SP (4 * 30) SP; Sret].
Definition kernel_entry : list instr := entry_front ++ [Call] ++ entry_back.

(** ** [arch_resume_from_trap] *)

(** [current_proc] is the address of the variable. *)
Definition arch_resume_from_trap (current_proc : Z) : list instr :=
  [La A6 current_proc; Lw A6 0 A6; Li T0 tf_offset; Add A6 A6 T0; Lw T0 sepc_offset A6; Csrw CSR_SEPC T0; Lw T0 sstatus_offset A6; Csrw CSR_SSTATUS T0;
   La T0 current_proc; Lw T0 0 T0; Li T1 stack_top_offset; Add T0 T0 T1; Csrw CSR_SSCRATCH T0;
   Lw RA 0 A6; Lw GP 4 A6; Lw TP 8 A6; Lw T0 12 A6; Lw T1 16 A6; Lw T2 20 A6; Lw T3 24 A6; Lw T4 28 A6; Lw T5 32 A6; Lw T6 36 A6;
   Lw A0 40 A6; Lw A1 44 A6; Lw A2 48 A6; Lw A3 52 A6; Lw A4 56 A6; Lw A5 60 A6; Lw A7 68 A6;
   Lw S0 72 A6; Lw S1 76 A6; Lw S2 80 A6; Lw S3 84 A6; Lw S4 88 A6; Lw S5 92 A6; Lw S6 96 A6; Lw S7 100 A6; Lw S8 104 A6; Lw S9 108 A6;
   Lw S10 112 A6; Lw S11 116 A6; Lw SP 120 A6; Lw A6 64 A6; Sret].

(** ** [switch_context] *)

Definition switch_context : list instr :=
  [Csrrci T0 CSR_SSTATUS 2; Addi SP SP (-16 * 4);
   Sw RA (0 * 4) SP; Sw S0 (1 * 4) SP; Sw S1 (2 * 4) SP; Sw S2 (3 * 4) SP; Sw S3 (4 * 4) SP; Sw S4 (5 * 4) SP; Sw S5 (6 * 4) SP; Sw S6 (7 * 4) SP;
   Sw S7 (8 * 4) SP; Sw S8 (9 * 4) SP; Sw S9 (10 * 4) SP; Sw S10 (11 * 4) SP; Sw S11 (12 * 4) SP; Sw T0 (13 * 4) SP;
   Sw SP 0 A0; Lw SP 0 A1;
   Lw T0 (13 * 4) SP; Csrw CSR_SSTATUS T0;
   Lw RA (0 * 4) SP; Lw S0 (1 * 4) SP; Lw S1 (2 * 4) SP; Lw S2 (3 * 4) SP; Lw S3 (4 * 4) SP; Lw S4 (5 * 4) SP; Lw S5 (6 * 4) SP; Lw S6 (7 * 4) SP;
   Lw S7 (8 * 4) SP; Lw S8 (9 * 4) SP; Lw S9 (10 * 4) SP; Lw S10 (11 * 4) SP; Lw S11 (12 * 4) SP;
   Addi SP SP (16 * 4); Ret].

(** ** Traps *)

(** A hart that runs code: its mode ([true] for supervisor) and program counter. *)
Record hart := Hart { h_supervisor : bool; h_pc : Z; h_machine : machine }.

Definition SIE_BIT : Z := 1.
Definition SPIE_BIT : Z := 5.
Definition SPP_BIT : Z := 8.
Definition put_bit (s : Z) (b : Z) (v : bool) : Z := if v then Z.setbit s b else Z.clearbit s b.

(** What the hart does to take a trap: the mode and the interrupt enable go to [sstatus], the place to [sepc]. *)
Definition take_trap (h : hart) : machine :=
  let m := h_machine h in
  let s := m_csrs m CSR_SSTATUS in
  let s := put_bit (put_bit (put_bit s SPIE_BIT (Z.testbit s SIE_BIT)) SIE_BIT false) SPP_BIT (h_supervisor h) in
  set_csr CSR_SSTATUS s (set_csr CSR_SEPC (h_pc h) m).
(** [sret] *)
Definition trap_return (m : machine) : hart :=
  let s := m_csrs m CSR_SSTATUS in
  let s' := put_bit (put_bit (put_bit s SIE_BIT (Z.testbit s SPIE_BIT)) SPIE_BIT true) SPP_BIT false in
  Hart (Z.testbit s SPP_BIT) (m_csrs m CSR_SEPC) (set_csr CSR_SSTATUS s' m).

(** A trap, its handler and the return from it. *)
Definition serve_trap (handle_trap : machine → option machine) (h : hart) : option hart :=
  match exec handle_trap kernel_entry None (take_trap h) with
  | Some (TrapReturn, m) => Some (trap_return m)
  | _ => None
  end.
