(* ===== verification/AsmProps.v ===== *)
(** * Registers survive traps and context switches *)

From S2P Require Import Prelude KString Proc Process Asm.

(** Decides which of two concrete registers is meant. *)
Ltac which_regs := repeat first [rewrite decide_True by done|rewrite decide_False by done].

(** ** Runs of loads and stores *)

Definition plain (i : instr) : bool := match i with Bnez _ _ | Call | Sret | Ret => false | _ => true end.
Abbreviation steps := (foldl (λ m i, step i m)).

Lemma exec_plain callee l rest m : forallb plain l = true → exec callee (l ++ rest) None m = exec callee rest None (steps m l).
Proof.
  revert m. induction l as [|i l IH]; intros m Hp; [done|]. cbn in Hp. apply andb_true_iff in Hp as [Hi Hl]. cbn [app exec foldl].
  rewrite <-IH by done. by destruct i.
Qed.

(** Consecutive words. *)
Fixpoint store_words (mm : mem) (a : Z) (vs : list Z) : mem :=
  match vs with
  | [] => mm
  | v :: vs' => store_words (store32 mm a v) (a + 4) vs'
  end.
Definition words_at (mm : mem) (a : Z) (n : nat) : list Z := (λ i : nat, load32 mm (a + 4 * i)) <$> seq 0 n.

Lemma store_words_outside vs : ∀ mm a b, ¬ (a ≤ b < a + 4 * length vs) → rd (store_words mm a vs) b = rd mm b.
Proof.
  induction vs as [|v vs IH]; intros mm a b Hb; cbn [store_words length] in *; [done|]. rewrite IH by lia. rewrite rd_store32.
  destruct (Z.leb_spec a b), (Z.ltb_spec b (a + 4)); cbn; (lia || done).
Qed.

Lemma words_at_cons mm a n : words_at mm a (S n) = load32 mm a :: words_at mm (a + 4) n.
Proof.
  unfold words_at. cbn [seq fmap list_fmap]. f_equal; [f_equal; lia|]. rewrite <-fmap_S_seq, <-list_fmap_compose. apply list_fmap_ext. intros i j _.
  cbn. f_equal. lia.
Qed.

Lemma words_at_ext mm mm' a (n : nat) : (∀ b, a ≤ b < a + 4 * n → rd mm' b = rd mm b) → words_at mm' a n = words_at mm a n.
Proof.
  intros He. unfold words_at. apply list_fmap_ext. intros i j Hj%lookup_seq. apply load32_ext. intros b Hb. apply He. lia.
Qed.

Lemma store_words_read vs : ∀ mm a, Forall is_u32 vs → words_at (store_words mm a vs) a (length vs) = vs.
Proof.
  induction vs as [|v vs IH]; intros mm a Hv; [done|]. apply Forall_cons in Hv as [Hv Hvs]. cbn [length]. rewrite words_at_cons. cbn [store_words]. f_equal; [|by apply IH].
  rewrite <-(load32_store32_eq mm a v Hv) at 2. apply load32_ext. intros b Hb. apply store_words_outside. lia.
Qed.

(** [sw] of the registers [l] to the words from [4 * k] on, and [lw] of them. *)
Fixpoint saves (k : Z) (l : list reg) : list instr := match l with [] => [] | r :: l' => Sw r (4 * k) SP :: saves (k + 1) l' end.
Fixpoint loads (k : Z) (base : reg) (l : list reg) : list instr := match l with [] => [] | r :: l' => Lw r (4 * k) base :: loads (k + 1) base l' end.

Lemma steps_saves l : ∀ k m, 0 ≤ k → 0 ≤ m_regs m SP → m_regs m SP + 4 * k + 4 * length l ≤ 4294967296 →
  steps m (saves k l) = set_mem (store_words (m_mem m) (m_regs m SP + 4 * k) (m_regs m <$> l)) m.
Proof.
  induction l as [|r l IH]; intros k m Hk H0 Hb; cbn [saves foldl store_words fmap list_fmap]; [by destruct m|]. cbn [length] in Hb.
  cbn [step]. rewrite wrap32_small by (unfold is_u32; lia). rewrite IH by (cbn [set_mem m_regs]; lia). unfold set_mem. cbn [m_regs m_csrs m_mem]. f_equal. f_equal. lia.
Qed.

Lemma set_reg_get r v m : r ≠ X0 → m_regs (set_reg r v m) r = v.
Proof. intros Hr. destruct r; try done; cbn; unfold upd; by rewrite decide_True. Qed.
Lemma set_reg_other r r' v m : r' ≠ r → m_regs (set_reg r v m) r' = m_regs m r'.
Proof. intros Hr. destruct r; try done; cbn; unfold upd; by rewrite decide_False. Qed.
Lemma set_reg_rest r v m : m_csrs (set_reg r v m) = m_csrs m ∧ m_mem (set_reg r v m) = m_mem m.
Proof. by destruct r. Qed.

(** After the loads every register of the list has its word, the others their old value. *)
Lemma steps_loads base l : ∀ k m, 0 ≤ k → 0 ≤ m_regs m base → m_regs m base + 4 * k + 4 * length l ≤ 4294967296 → base ∉ l → X0 ∉ l → NoDup l →
  let m' := steps m (loads k base l) in
  m_csrs m' = m_csrs m ∧ m_mem m' = m_mem m ∧ (∀ r, r ∉ l → m_regs m' r = m_regs m r) ∧
  (m_regs m' <$> l) = words_at (m_mem m) (m_regs m base + 4 * k) (length l).
Proof.
  induction l as [|r l IH]; intros k m Hk H0 Hb Hbase Hx Hnd; cbn [loads foldl]; [done|]. cbn [length] in Hb.
  apply not_elem_of_cons in Hbase as [Hb1 Hb2], Hx as [Hx1 Hx2]. apply NoDup_cons in Hnd as [Hr Hnd].
  cbn [step]. rewrite wrap32_small by (unfold is_u32; lia). set (v := load32 _ _). destruct (set_reg_rest r v m) as [Ec Em].
  assert (Eb : m_regs (set_reg r v m) base = m_regs m base) by (by apply set_reg_other).
  destruct (IH (k + 1) (set_reg r v m)) as (E1 & E2 & E3 & E4); [lia|lia|lia|done|done|done|]. rewrite Ec in E1. rewrite Em, Eb in *. cbn [length]. rewrite words_at_cons.
  split; [done|]. split; [done|]. split.
  - intros r' [Hne Hnin]%not_elem_of_cons. rewrite E3 by done. by apply set_reg_other.
  - cbn [fmap list_fmap]. rewrite E4, E3 by done. rewrite set_reg_get by done. f_equal. f_equal. lia.
Qed.

Lemma store_words_app vs ws : ∀ mm a, store_words mm a (vs ++ ws) = store_words (store_words mm a vs) (a + 4 * length vs) ws.
Proof. induction vs as [|v vs IH]; intros mm a; cbn [app store_words length]; [f_equal; lia|]. rewrite IH. f_equal. lia. Qed.

(** ** Trap frames *)

(** The registers of [struct trap_frame] in front of [sp]. *)
Definition frame_order : list reg :=
  [RA; GP; TP; T0; T1; T2; T3; T4; T5; T6; A0; A1; A2; A3; A4; A5; A6; A7; S0; S1; S2; S3; S4; S5; S6; S7; S8; S9; S10; S11].

(** The frame at an address. *)
Definition frame_at (mm : mem) (a : Z) : trap_frame :=
  let w (i : nat) := load32 mm (a + 4 * i) in
  TrapFrame (w 0%nat) (w 1%nat) (w 2%nat) [w 3%nat; w 4%nat; w 5%nat; w 6%nat; w 7%nat; w 8%nat; w 9%nat] [w 10%nat; w 11%nat; w 12%nat; w 13%nat; w 14%nat; w 15%nat; w 16%nat; w 17%nat]
    [w 18%nat; w 19%nat; w 20%nat; w 21%nat; w 22%nat; w 23%nat; w 24%nat; w 25%nat; w 26%nat; w 27%nat; w 28%nat; w 29%nat] (w 30%nat) (w 31%nat) (w 32%nat).
(** The frame of a context. *)
Definition context_frame (r : reg → Z) (pc status : Z) : trap_frame :=
  TrapFrame (r RA) (r GP) (r TP) [r T0; r T1; r T2; r T3; r T4; r T5; r T6] [r A0; r A1; r A2; r A3; r A4; r A5; r A6; r A7]
    [r S0; r S1; r S2; r S3; r S4; r S5; r S6; r S7; r S8; r S9; r S10; r S11] (r SP) pc status.

Lemma frame_at_words mm a r sp pc status :
  words_at mm a 33 = (r <$> frame_order) ++ [sp; pc; status] → frame_at mm a = context_frame (upd r SP sp) pc status.
Proof.
  unfold words_at, frame_at, frame_order, context_frame. cbn [seq fmap list_fmap app]. intros H. injection H. intros. subst sp pc status.
  repeat match goal with E : load32 mm _ = r _ |- _ => rewrite E; clear E end. done.
Qed.
Lemma context_frame_inj r r' pc pc' s s' : context_frame r pc s = context_frame r' pc' s' → pc = pc' ∧ s = s' ∧ ∀ x, x ≠ X0 → r x = r' x.
Proof. unfold context_frame. intros H. injection H. intros. split; [done|]. split; [done|]. intros x Hx. by destruct x. Qed.
Lemma context_frame_ext r r' pc s : (∀ x, x ≠ X0 → r x = r' x) → context_frame r pc s = context_frame r' pc s.
Proof. intros H. unfold context_frame. by rewrite !H. Qed.

(** ** Taking a trap *)

Definition u32_machine (m : machine) : Prop := (∀ r, is_u32 (m_regs m r)) ∧ (∀ c, is_u32 (m_csrs m c)) ∧ m_regs m X0 = 0.

(** [K] is the stack pointer of the kernel for the trap: in user mode it is in [sscratch], which the kernel keeps zero for itself. *)
Definition stack_at (supervisor : bool) (m : machine) (K : Z) : Prop :=
  if supervisor then m_csrs m CSR_SSCRATCH = 0 ∧ m_regs m SP = K else m_csrs m CSR_SSCRATCH = K ∧ m_regs m SP ≠ 0.

(** What [handle_trap] finds when it is called. *)
Record called (m : machine) (K : Z) (m1 : machine) : Prop := {
  ca_args : m_regs m1 SP = K - 144 ∧ m_regs m1 A0 = K - 144;
  ca_frame : frame_at (m_mem m1) (K - 144) = context_frame (m_regs m) (m_csrs m CSR_SEPC) (m_csrs m CSR_SSTATUS);
  ca_csrs : m_csrs m1 CSR_SSCRATCH = 0 ∧ m_csrs m1 CSR_SEPC = m_csrs m CSR_SEPC ∧ m_csrs m1 CSR_SSTATUS = m_csrs m CSR_SSTATUS;
  ca_rest : ∀ a, ¬ (K - 144 ≤ a < K - 12) → rd (m_mem m1) a = rd (m_mem m) a;
}.

Lemma entry_stack callee rest supervisor m K : stack_at supervisor m K → 144 ≤ K < 4294967296 →
  ∃ m1, exec callee ([Csrrw SP CSR_SSCRATCH SP; Bnez SP 1; Csrrw SP CSR_SSCRATCH SP; Lab 1; Addi SP SP (- frame_size)] ++ rest) None m = exec callee rest None m1 ∧
    m_regs m1 SP = K - 144 ∧ (∀ r, r ≠ SP → m_regs m1 r = m_regs m r) ∧ m_mem m1 = m_mem m ∧
    (∀ c, c ≠ CSR_SSCRATCH → m_csrs m1 c = m_csrs m c) ∧ m_csrs m1 CSR_SSCRATCH = if supervisor then 0 else m_regs m SP.
Proof.
  intros Hs HK. destruct supervisor; destruct Hs as [H1 H2]; cbn [app exec step].
  - cbn [set_reg set_csr m_regs m_csrs m_mem]. unfold upd at 1. rewrite decide_True by done. rewrite H1. cbn [exec step Z.eqb set_reg set_csr m_regs m_csrs m_mem].
    eexists. split; [reflexivity|]. cbn [m_regs m_csrs m_mem]. unfold upd. split; [|split; [|split; [|split]]]; try done.
    + repeat (rewrite decide_True by done). rewrite H2. apply wrap32_small. unfold is_u32, frame_size. lia.
    + intros r Hr. by rewrite !decide_False.
    + intros c Hc. by rewrite !decide_False.
  - cbn [set_reg set_csr m_regs m_csrs m_mem]. unfold upd at 1. rewrite decide_True by done. rewrite H1, (proj2 (Z.eqb_neq K 0)) by lia.
    cbn [exec step Nat.eqb set_reg set_csr m_regs m_csrs m_mem].
    eexists. split; [reflexivity|]. cbn [m_regs m_csrs m_mem]. unfold upd. split; [|split; [|split; [|split]]]; try done.
    + repeat (rewrite decide_True by done). rewrite ?H1. apply wrap32_small. unfold is_u32, frame_size. lia.
    + intros r Hr. by rewrite !decide_False.
    + intros c Hc. by rewrite !decide_False.
Qed.

(** The stack pointer of the interrupted code comes to [t0]. *)
Lemma entry_sp callee rest (supervisor : bool) m K v : m_regs m SP = K - 144 → 144 ≤ K < 4294967296 →
  m_csrs m CSR_SSCRATCH = (if supervisor then 0 else v) → (if supervisor then v = K else v ≠ 0) →
  ∃ m1, exec callee ([Csrr T0 CSR_SSCRATCH; Bnez T0 2; Addi T0 SP frame_size; Lab 2] ++ rest) None m = exec callee rest None m1 ∧
    m_regs m1 T0 = v ∧ (∀ r, r ≠ T0 → m_regs m1 r = m_regs m r) ∧ m_csrs m1 = m_csrs m ∧ m_mem m1 = m_mem m.
Proof.
  intros Hsp HK Hc Hv. cbn [app exec step]. rewrite Hc. rewrite set_reg_get by done. destruct supervisor.
  - cbn [Z.eqb exec step]. eexists. split; [reflexivity|]. cbn [set_reg m_regs m_csrs m_mem]. unfold upd. split; [|split; [|done]].
    + rewrite decide_True by done. rewrite decide_False by done. rewrite Hsp, Hv. rewrite wrap32_small by (unfold is_u32, frame_size; lia). unfold frame_size. lia.
    + intros r Hr. by rewrite !decide_False.
  - rewrite (proj2 (Z.eqb_neq v 0)) by done. cbn [Nat.eqb exec step]. eexists. split; [reflexivity|]. split; [done|]. split; [|done].
    intros r Hr. by rewrite set_reg_other.
Qed.

Definition front_tail : list instr :=
  [Sw T0 (4 * 30) SP; Csrr T0 CSR_SEPC; Sw T0 sepc_offset SP; Csrr T0 CSR_SSTATUS; Sw T0 sstatus_offset SP; Csrw CSR_SSCRATCH X0; Mv A0 SP].

Lemma front_tail_spec m b : m_regs m SP = b → 0 ≤ b → b + 144 < 4294967296 → m_regs m X0 = 0 →
  let m' := steps m front_tail in
  m_regs m' SP = b ∧ m_regs m' A0 = b ∧ m_csrs m' CSR_SSCRATCH = 0 ∧ m_csrs m' CSR_SEPC = m_csrs m CSR_SEPC ∧ m_csrs m' CSR_SSTATUS = m_csrs m CSR_SSTATUS ∧
  m_mem m' = store_words (m_mem m) (b + 120) [m_regs m T0; m_csrs m CSR_SEPC; m_csrs m CSR_SSTATUS].
Proof.
  intros Hb H0 H1 Hx. cbn -[store32 Z.mul Z.add wrap32]. unfold upd. which_regs. rewrite Hb, Hx. unfold sepc_offset, sstatus_offset.
  rewrite !wrap32_small by (unfold is_u32; lia). split_and!; try done. by replace (b + 120 + 4 + 4) with (b + 128) by lia; replace (b + 120 + 4) with (b + 124) by lia.
Qed.

Lemma entry_front_spec callee rest supervisor m K : u32_machine m → stack_at supervisor m K → 144 ≤ K < 4294967296 →
  ∃ m1, exec callee (entry_front ++ rest) None m = exec callee rest None m1 ∧ called m K m1.
Proof.
  intros (Hr & Hc & Hx) Hs HK.
  change (entry_front ++ rest) with ([Csrrw SP CSR_SSCRATCH SP; Bnez SP 1; Csrrw SP CSR_SSCRATCH SP; Lab 1; Addi SP SP (- frame_size)] ++
    saves 0 frame_order ++ [Csrr T0 CSR_SSCRATCH; Bnez T0 2; Addi T0 SP frame_size; Lab 2] ++ front_tail ++ rest).
  destruct (entry_stack callee (saves 0 frame_order ++ [Csrr T0 CSR_SSCRATCH; Bnez T0 2; Addi T0 SP frame_size; Lab 2] ++ front_tail ++ rest)
    supervisor m K Hs HK) as (m1 & -> & Sp1 & R1 & M1 & C1 & Sc1).
  rewrite exec_plain by done. rewrite steps_saves by (rewrite ?Sp1; cbn [length frame_order]; lia).
  rewrite Sp1, Z.mul_0_r, Z.add_0_r. assert (Ev : m_regs m1 <$> frame_order = m_regs m <$> frame_order).
  { unfold frame_order. cbn [fmap list_fmap]. by rewrite !R1. }
  rewrite Ev. set (m2 := set_mem _ m1).
  destruct (entry_sp callee (front_tail ++ rest) supervisor m2 K (m_regs m SP) Sp1 HK Sc1) as (m3 & -> & T3 & R3 & C3 & M3).
  { destruct supervisor; destruct Hs; done. }
  rewrite exec_plain by done. destruct (front_tail_spec m3 (K - 144)) as (F1 & F2 & F3 & F4 & F5 & F6); [by rewrite R3|lia|lia|rewrite R3 by done; change (m_regs m1 X0 = 0); by rewrite R1|].
  set (m4 := steps m3 front_tail) in *. clearbody m4. exists m4. split; [done|].
  assert (Em : m_mem m4 = store_words (m_mem m) (K - 144) ((m_regs m <$> frame_order) ++ [m_regs m SP; m_csrs m CSR_SEPC; m_csrs m CSR_SSTATUS])).
  { rewrite store_words_app, F6, M3, T3, C3. unfold m2. cbn [set_mem m_mem m_csrs]. rewrite M1, !C1 by done. reflexivity. }
  split; [done| | |].
  - rewrite (frame_at_words _ _ (m_regs m) (m_regs m SP) (m_csrs m CSR_SEPC) (m_csrs m CSR_SSTATUS)).
    + apply context_frame_ext. intros x _. unfold upd. by destruct (decide (x = SP)) as [->|].
    + rewrite Em. set (vs := (m_regs m <$> frame_order) ++ _). change 33%nat with (length vs). apply store_words_read.
      apply Forall_app. split; [apply Forall_fmap, Forall_true; intros; apply Hr|]. repeat constructor; apply Hr || apply Hc.
  - rewrite F4, F5, C3. unfold m2. cbn. by rewrite !C1.
  - intros a Ha. rewrite Em. apply store_words_outside. rewrite length_app, length_fmap. cbn [length frame_order]. lia.
Qed.

(** ** Returning from a trap *)
Lemma land_bit s : (Z.land s 256 =? 0) = negb (Z.testbit s SPP_BIT).
Proof.
  unfold SPP_BIT. destruct (Z.testbit s 8) eqn:E; cbn [negb].
  - apply Z.eqb_neq. intros H. assert (Ht : Z.testbit (Z.land s 256) 8 = true) by (by rewrite Z.land_spec, E). by rewrite H in Ht.
  - apply Z.eqb_eq. apply Z.bits_inj'. intros n Hn. rewrite Z.land_spec, Z.bits_0. change 256 with (2 ^ 8). rewrite Z.pow2_bits_eqb by lia.
    destruct (Z.eqb_spec 8 n) as [<-|]; [by rewrite E|apply andb_false_r].
Qed.

Definition back_head : list instr :=
  [Lw T0 sepc_offset SP; Csrw CSR_SEPC T0; Lw T0 sstatus_offset SP; Csrw CSR_SSTATUS T0; Andi T0 T0 256; Bnez T0 3;
   Addi T0 SP frame_size; Csrw CSR_SSCRATCH T0; Lab 3].

Lemma back_head_spec callee rest m K : m_regs m SP = K - 144 → 144 ≤ K < 4294967296 →
  let f := frame_at (m_mem m) (K - 144) in
  ∃ m1, exec callee (back_head ++ rest) None m = exec callee rest None m1 ∧ m_regs m1 SP = K - 144 ∧ m_mem m1 = m_mem m ∧
    m_csrs m1 CSR_SEPC = tf_sepc f ∧ m_csrs m1 CSR_SSTATUS = tf_sstatus f ∧
    m_csrs m1 CSR_SSCRATCH = if Z.testbit (tf_sstatus f) SPP_BIT then m_csrs m CSR_SSCRATCH else K.
Proof.
  intros Hsp HK f. unfold back_head.
  assert (Epc : load32 (m_mem m) (wrap32 (m_regs m SP + sepc_offset)) = tf_sepc f).
  { rewrite Hsp, wrap32_small by (unfold is_u32, sepc_offset; lia). unfold f. cbn [frame_at tf_sepc]. f_equal. }
  assert (Est : load32 (m_mem m) (wrap32 (m_regs m SP + sstatus_offset)) = tf_sstatus f).
  { rewrite Hsp, wrap32_small by (unfold is_u32, sstatus_offset; lia). unfold f. cbn [frame_at tf_sstatus]. f_equal. }
  cbn [app exec step set_reg set_csr m_regs m_csrs m_mem]. unfold upd. which_regs. rewrite Epc, Est, land_bit.
  destruct (Z.testbit (tf_sstatus f) SPP_BIT); cbn [negb app exec step set_reg set_csr m_regs m_csrs m_mem Nat.eqb]; unfold upd; which_regs;
    (eexists; split; [reflexivity|]; cbn [m_regs m_csrs m_mem]; which_regs); (split; [done|]; split; [done|]; split; [done|]; split; [done|]); [done|].
  rewrite Hsp, wrap32_small by (unfold is_u32, frame_size; lia). unfold frame_size. cbn [set_csr m_csrs]. unfold upd. which_regs. lia.
Qed.

(** The last part: every register comes from the frame. *)
Lemma back_tail_spec callee m b : m_regs m SP = b → 0 ≤ b → b + 144 ≤ 4294967296 →
  ∃ m1, exec callee (loads 0 SP frame_order ++ [Lw SP (4 * 30) SP; Sret]) None m = Some (TrapReturn, m1) ∧ m_csrs m1 = m_csrs m ∧ m_mem m1 = m_mem m ∧
    frame_at (m_mem m) b = context_frame (m_regs m1) (tf_sepc (frame_at (m_mem m) b)) (tf_sstatus (frame_at (m_mem m) b)).
Proof.
  intros Hb H0 H1. rewrite exec_plain by done.
  destruct (steps_loads SP frame_order 0 m) as (E1 & E2 & E3 & E4); rewrite ?Hb; [lia|lia|cbn [length frame_order]; lia|..].
  { unfold frame_order. set_solver. } { unfold frame_order. set_solver. } { apply (bool_decide_eq_true_1 (NoDup frame_order)). vm_compute. reflexivity. }
  set (m1 := steps m (loads 0 SP frame_order)) in *. clearbody m1. rewrite Hb, Z.mul_0_r, Z.add_0_r in E4.
  assert (Sp1 : m_regs m1 SP = b) by (rewrite E3; [done|unfold frame_order; set_solver]).
  cbn [exec step]. rewrite Sp1, E2, wrap32_small by (unfold is_u32; lia). eexists. split; [reflexivity|]. cbn [set_reg m_csrs m_mem m_regs]. split; [done|]. split; [done|].
  rewrite <-(frame_at_words (m_mem m) b (m_regs m1) (load32 (m_mem m) (b + 4 * 30))); [done|]. rewrite E4. reflexivity.
Qed.

Lemma put_bit_get s b v c : 0 ≤ b → 0 ≤ c → Z.testbit (put_bit s b v) c = if decide (c = b) then v else Z.testbit s c.
Proof.
  intros Hb Hc. unfold put_bit. destruct v, (decide (c = b)) as [->|Hne]; by rewrite ?Z.setbit_eq, ?Z.clearbit_eq, ?Z.setbit_neq, ?Z.clearbit_neq by lia.
Qed.

Lemma put_bit_u32 s b v : is_u32 s → 0 ≤ b < 32 → is_u32 (put_bit s b v).
Proof.
  intros Hs Hb. assert (E : put_bit s b v mod 2 ^ 32 = put_bit s b v); [|rewrite <-E; apply Z.mod_pos_bound; lia].
  apply Z.bits_inj'. intros n Hn. destruct (Z.ltb_spec n 32) as [Hl|Hl]; [by rewrite Z.mod_pow2_bits_low|]. rewrite Z.mod_pow2_bits_high by lia.
  rewrite put_bit_get, decide_False by lia. symmetry. unfold is_u32 in Hs. rewrite <-(Z.mod_small s (2 ^ 32)) by lia. apply Z.mod_pow2_bits_high. lia.
Qed.

(** ** Traps *)
Lemma take_trap_u32 h : u32_machine (h_machine h) → is_u32 (h_pc h) → u32_machine (take_trap h).
Proof.
  intros (Hr & Hc & Hx) Hp. split; [done|]. split; [|done]. intros c. unfold take_trap, SIE_BIT, SPIE_BIT, SPP_BIT. cbn [set_csr m_csrs]. unfold upd.
  destruct (decide (c = CSR_SSTATUS)); [repeat apply put_bit_u32; (lia || apply Hc)|]. by destruct (decide (c = CSR_SEPC)).
Qed.

(** C21: A trap is transparent, unless it comes from user code whose stack pointer is zero.  The condition is that the trap finds the kernel's
    stack: in supervisor mode [sscratch] is zero, in user mode [sscratch] holds that stack's address and the user's [sp] is not zero, and there
    are 144 bytes below it.  Then [kernel_entry] calls [handle_trap] with a frame on the kernel's stack that holds all registers, the place and
    the status of the interrupted code, and writes nothing else; when the handler comes back with its stack pointer, the hart goes on at the
    place, in the mode and with the registers that the frame then holds, the kernel's stack again in [sscratch] for user code.  If the handler
    leaves the frame, the interrupted code sees no difference.  (With [sp] zero the code takes the user for the kernel, and user code gets the
    address of its kernel stack in [sp]: [kernel_entry_leaks_stack].) *)
Theorem kernel_entry_correct handle_trap h K :
  u32_machine (h_machine h) → is_u32 (h_pc h) → stack_at (h_supervisor h) (h_machine h) K → 144 ≤ K < 4294967296 →
  ∃ m1, called (take_trap h) K m1 ∧
    match handle_trap m1 with
    | None => serve_trap handle_trap h = None
    | Some m2 => m_regs m2 SP = m_regs m1 SP →
        ∃ h', serve_trap handle_trap h = Some h' ∧ m_mem (h_machine h') = m_mem m2 ∧
          let f := frame_at (m_mem m2) (K - 144) in
          f = context_frame (m_regs (h_machine h')) (h_pc h') (tf_sstatus f) ∧ h_supervisor h' = Z.testbit (tf_sstatus f) SPP_BIT ∧
          m_csrs (h_machine h') CSR_SSCRATCH = (if h_supervisor h' then m_csrs m2 CSR_SSCRATCH else K) ∧
          (f = frame_at (m_mem m1) (K - 144) →
             (∀ r, r ≠ X0 → m_regs (h_machine h') r = m_regs (h_machine h) r) ∧ h_pc h' = h_pc h ∧ h_supervisor h' = h_supervisor h ∧
             Z.testbit (m_csrs (h_machine h') CSR_SSTATUS) SIE_BIT = Z.testbit (m_csrs (h_machine h) CSR_SSTATUS) SIE_BIT)
    end.
Proof.
  intros Hm Hp Hs HK. unfold serve_trap. change kernel_entry with (entry_front ++ [Call] ++ entry_back).
  destruct (entry_front_spec handle_trap ([Call] ++ entry_back) (h_supervisor h) (take_trap h) K) as (m1 & -> & Hc); [by apply take_trap_u32|done|done|].
  exists m1. split; [done|]. cbn [app exec]. destruct (handle_trap m1) as [m2|]; [|done]. rewrite (proj1 (ca_args _ _ _ Hc)). intros Hsp.
  change entry_back with (back_head ++ loads 0 SP frame_order ++ [Lw SP (4 * 30) SP; Sret]).
  destruct (back_head_spec handle_trap (loads 0 SP frame_order ++ [Lw SP (4 * 30) SP; Sret]) m2 K Hsp HK) as (m3 & -> & Sp3 & M3 & Cp & Cs & Csc).
  destruct (back_tail_spec handle_trap m3 (K - 144) Sp3) as (m4 & -> & C4 & M4 & Hf); [lia|lia|]. rewrite M3 in *. set (f := frame_at (m_mem m2) (K - 144)) in *.
  eexists. split; [reflexivity|]. unfold trap_return. cbn [h_machine h_pc h_supervisor set_csr m_mem m_regs m_csrs]. rewrite C4, Cp, Cs. unfold upd. which_regs.
  split; [done|]. split; [done|]. split; [done|]. split; [exact Csc|]. intros Hsame.
  rewrite (ca_frame _ _ _ Hc) in Hsame. rewrite Hsame in Hf. apply context_frame_inj in Hf as (_ & _ & Hregs). rewrite Hsame. cbn [context_frame tf_sepc tf_sstatus].
  unfold take_trap. cbn [set_csr m_csrs]. unfold upd, SIE_BIT, SPIE_BIT, SPP_BIT. which_regs. rewrite !put_bit_get by lia. cbn [decide]. which_regs.
  split; [intros r Hr; rewrite <-Hregs by done; done|done].
Qed.

(** ** [arch_resume_from_trap] *)
Lemma words_at_app mm a (n k : nat) : words_at mm a (n + k) = words_at mm a n ++ words_at mm (a + 4 * n) k.
Proof.
  revert a. induction n as [|n IH]; intros a; cbn [Nat.add]; [by replace (a + 4 * 0%nat) with a by lia|]. rewrite !words_at_cons, IH. cbn [app]. do 3 f_equal. lia.
Qed.

Definition resume_head (current_proc : Z) : list instr :=
  [La A6 current_proc; Lw A6 0 A6; Li T0 tf_offset; Add A6 A6 T0; Lw T0 sepc_offset A6; Csrw CSR_SEPC T0; Lw T0 sstatus_offset A6; Csrw CSR_SSTATUS T0;
   La T0 current_proc; Lw T0 0 T0; Li T1 stack_top_offset; Add T0 T0 T1; Csrw CSR_SSCRATCH T0].
Definition low_order : list reg := [RA; GP; TP; T0; T1; T2; T3; T4; T5; T6; A0; A1; A2; A3; A4; A5].
Definition high_order : list reg := [A7; S0; S1; S2; S3; S4; S5; S6; S7; S8; S9; S10; S11; SP].

Lemma resume_head_spec m cp p : is_u32 cp → load32 (m_mem m) cp = p → p + tf_offset + 144 ≤ 4294967296 →
  let m1 := steps m (resume_head cp) in let f := frame_at (m_mem m) (p + tf_offset) in
  m_regs m1 A6 = p + tf_offset ∧ m_mem m1 = m_mem m ∧ m_csrs m1 CSR_SEPC = tf_sepc f ∧ m_csrs m1 CSR_SSTATUS = tf_sstatus f ∧
  m_csrs m1 CSR_SSCRATCH = p + stack_top_offset.
Proof.
  intros Hcp Hp Hb. pose proof (load32_range (m_mem m) cp) as Hr. rewrite Hp in Hr. unfold is_u32 in Hr.
  assert (Et : tf_offset = 32832) by reflexivity. assert (Es : stack_top_offset = 32816) by reflexivity. rewrite Et, Es in *.
  cbn [foldl resume_head step set_reg set_csr m_regs m_csrs m_mem]. unfold upd. which_regs. rewrite !Z.add_0_r, !(wrap32_small cp) by done. rewrite !Hp, Et, Es.
  unfold sepc_offset, sstatus_offset. rewrite !(wrap32_small (p + 32832)) by (unfold is_u32; lia). rewrite !wrap32_small by (unfold is_u32; lia).
  split_and!; try done; cbn [frame_at tf_sepc tf_sstatus]; f_equal; lia.
Qed.

(** The words of a frame from the parts in which they are loaded. *)
Lemma frame_words_parts mm b r : r <$> low_order = words_at mm b 16 → r <$> high_order = words_at mm (b + 4 * 17) 14 →
  frame_at mm b = context_frame (upd r A6 (load32 mm (b + 64))) (tf_sepc (frame_at mm b)) (tf_sstatus (frame_at mm b)).
Proof.
  intros Hl Hh. rewrite (frame_at_words mm b (upd r A6 (load32 mm (b + 64))) (r SP) (tf_sepc (frame_at mm b)) (tf_sstatus (frame_at mm b))) at 1.
  - apply context_frame_ext. intros x _. unfold upd. by destruct (decide (x = SP)) as [->|].
  - pose proof (words_at_app mm b 16 17) as E. cbn [Nat.add] in E. rewrite E. clear E.
    pose proof (words_at_app mm (b + 4 * 16%nat) 1 16) as E. cbn [Nat.add] in E. rewrite E. clear E.
    pose proof (words_at_app mm (b + 4 * 16%nat + 4 * 1%nat) 14 2) as E. cbn [Nat.add] in E. rewrite E, <-Hl. clear E.
    replace (b + 4 * 16%nat + 4 * 1%nat) with (b + 4 * 17) by lia. rewrite <-Hh.
    replace (words_at mm (b + 4 * 16%nat) 1) with [load32 mm (b + 64)] by (unfold words_at; cbn [seq fmap list_fmap]; do 2 f_equal; lia).
    replace (words_at mm (b + 4 * 17 + 4 * 14%nat) 2) with [tf_sepc (frame_at mm b); tf_sstatus (frame_at mm b)]; [reflexivity|].
    unfold words_at. cbn [seq fmap list_fmap frame_at tf_sepc tf_sstatus]. f_equal; [f_equal; lia|]. do 2 f_equal. lia.
Qed.

Lemma resume_tail_spec callee m b : m_regs m A6 = b → 0 ≤ b → b + 144 ≤ 4294967296 →
  ∃ m1, exec callee (loads 0 A6 low_order ++ loads 17 A6 high_order ++ [Lw A6 64 A6; Sret]) None m = Some (TrapReturn, m1) ∧
    m_csrs m1 = m_csrs m ∧ m_mem m1 = m_mem m ∧
    frame_at (m_mem m) b = context_frame (m_regs m1) (tf_sepc (frame_at (m_mem m) b)) (tf_sstatus (frame_at (m_mem m) b)).
Proof.
  intros R1 H0 Hb. rewrite exec_plain by done.
  destruct (steps_loads A6 low_order 0 m) as (D1 & D2 & D3 & D4); rewrite ?R1; [lia|lia|cbn [length low_order]; lia|unfold low_order; set_solver|unfold low_order; set_solver|
    apply (bool_decide_eq_true_1 (NoDup low_order)); vm_compute; reflexivity|].
  set (m2 := steps m (loads 0 A6 low_order)) in *. clearbody m2. assert (R2 : m_regs m2 A6 = b) by (rewrite D3; [done|unfold low_order; set_solver]).
  rewrite exec_plain by done.
  destruct (steps_loads A6 high_order 17 m2) as (E1 & E2 & E3 & E4); rewrite ?R2; [lia|lia|cbn [length high_order]; lia|unfold high_order; set_solver|unfold high_order; set_solver|
    apply (bool_decide_eq_true_1 (NoDup high_order)); vm_compute; reflexivity|].
  set (m3 := steps m2 (loads 17 A6 high_order)) in *. clearbody m3. assert (R3 : m_regs m3 A6 = b) by (rewrite E3; [done|unfold high_order; set_solver]).
  cbn [exec step]. rewrite R3, E2, D2, wrap32_small by (unfold is_u32; lia). eexists. split; [reflexivity|]. cbn [set_reg m_mem m_csrs m_regs].
  split; [congruence|]. split; [congruence|]. rewrite R1, Z.mul_0_r, Z.add_0_r in D4. rewrite R2, D2 in E4. apply frame_words_parts; [|exact E4].
  change 16%nat with (length low_order). rewrite <-D4. apply list_fmap_ext. intros i r Hi. apply E3. apply list_elem_of_lookup_2 in Hi. unfold low_order, high_order in *. set_solver.
Qed.

(** A process goes on with what its [trap_frame] holds: [arch_resume_from_trap] loads every register, the place and the status from the frame of
    [*current_proc], keeps the top of the process's kernel stack in [sscratch] for its next trap, and writes no memory. *)
Theorem resume_correct callee cp m : let p := load32 (m_mem m) cp in let f := frame_at (m_mem m) (p + tf_offset) in
  is_u32 cp → p + tf_offset + 144 ≤ 4294967296 →
  ∃ m', exec callee (arch_resume_from_trap cp) None m = Some (TrapReturn, m') ∧ m_mem m' = m_mem m ∧ m_csrs m' CSR_SSCRATCH = p + stack_top_offset ∧
    f = context_frame (m_regs m') (h_pc (trap_return m')) (tf_sstatus f) ∧ h_supervisor (trap_return m') = Z.testbit (tf_sstatus f) SPP_BIT.
Proof.
  intros p f Hcp Hb. pose proof (load32_range (m_mem m) cp) as Hr. fold p in Hr. unfold is_u32 in Hr.
  change (arch_resume_from_trap cp) with (resume_head cp ++ loads 0 A6 low_order ++ loads 17 A6 high_order ++ [Lw A6 64 A6; Sret]). rewrite exec_plain by done.
  destruct (resume_head_spec m cp p Hcp eq_refl Hb) as (R1 & M1 & C1 & C2 & C3). set (m1 := steps m (resume_head cp)) in *. clearbody m1. fold f in C1, C2.
  assert (Hpos : 0 ≤ tf_offset) by (vm_compute; discriminate).
  destruct (resume_tail_spec callee m1 (p + tf_offset) R1) as (m2 & -> & D1 & D2 & D3); [lia|done|]. rewrite M1 in D3. fold f in D3.
  exists m2. unfold trap_return. cbn [h_pc h_supervisor set_csr]. rewrite D1, C1, C2, C3. split; [done|]. split; [congruence|]. done.
Qed.

(** ** [switch_context] *)

Definition callee_saved : list reg := [S0; S1; S2; S3; S4; S5; S6; S7; S8; S9; S10; S11].
(** The words that a switch saves: [ra], [s0] to [s11] and [sstatus]. *)
Definition switch_words (m : machine) : list Z := (m_regs m <$> RA :: callee_saved) ++ [m_csrs m CSR_SSTATUS].
(** The memory after the saving half: the words below the stack pointer, and the new stack pointer in the slot that [a0] points to. *)
Definition switched_mem (m : machine) : mem :=
  store32 (store_words (m_mem m) (m_regs m SP - 64) (switch_words m)) (m_regs m A0) (m_regs m SP - 64).

Definition switch_save : list instr := [Csrrci T0 CSR_SSTATUS 2; Addi SP SP (-16 * 4)] ++ saves 0 ((RA :: callee_saved) ++ [T0]) ++ [Sw SP 0 A0; Lw SP 0 A1].
Definition switch_load : list instr := [Lw T0 (13 * 4) SP; Csrw CSR_SSTATUS T0] ++ loads 0 SP (RA :: callee_saved) ++ [Addi SP SP (16 * 4)].

Lemma switch_head_spec m : is_u32 (m_regs m SP) → 64 ≤ m_regs m SP →
  let m1 := steps m [Csrrci T0 CSR_SSTATUS 2; Addi SP SP (-16 * 4)] in
  m_regs m1 SP = m_regs m SP - 64 ∧ m_regs m1 T0 = m_csrs m CSR_SSTATUS ∧ m_mem m1 = m_mem m ∧ ∀ r, r ≠ SP → r ≠ T0 → m_regs m1 r = m_regs m r.
Proof.
  intros Hu Hsp. unfold is_u32 in Hu. cbn [foldl step set_reg set_csr m_regs m_csrs m_mem]. unfold upd. which_regs.
  rewrite wrap32_small by (unfold is_u32; lia). split; [lia|]. split; [done|]. split; [done|]. intros r H1 H2. by rewrite !decide_False.
Qed.

Lemma switch_save_spec m : u32_machine m → 64 ≤ m_regs m SP →
  let m1 := steps m switch_save in
  m_mem m1 = switched_mem m ∧ m_regs m1 SP = load32 (switched_mem m) (m_regs m A1).
Proof.
  intros (Hr & Hc & Hx) Hsp. unfold switch_save. rewrite !foldl_app.
  destruct (switch_head_spec m (Hr SP) Hsp) as (Sp1 & T1 & M1 & R1). set (m1 := steps m _) in *. clearbody m1. pose proof (Hr SP) as Hu. unfold is_u32 in Hu.
  rewrite steps_saves by (rewrite ?Sp1; cbn [length app callee_saved]; lia). rewrite Sp1, Z.mul_0_r, Z.add_0_r.
  assert (Ev : m_regs m1 <$> (RA :: callee_saved) ++ [T0] = switch_words m).
  { unfold switch_words, callee_saved. cbn [fmap list_fmap app]. by rewrite T1, !R1. }
  rewrite Ev, M1. set (mm := store_words _ _ _). cbn [foldl step set_mem set_reg m_regs m_mem]. unfold upd. which_regs. rewrite !Z.add_0_r, !R1, Sp1 by done.
  rewrite !wrap32_small by apply Hr. rewrite (R1 A1), wrap32_small by (done || apply Hr). done.
Qed.

Lemma switch_status_spec m N : m_regs m SP = N → 0 ≤ N → N + 64 < 4294967296 →
  let m1 := steps m [Lw T0 (13 * 4) SP; Csrw CSR_SSTATUS T0] in
  m_regs m1 SP = N ∧ m_mem m1 = m_mem m ∧ m_csrs m1 CSR_SSTATUS = load32 (m_mem m) (N + 52).
Proof.
  intros Hsp H0 Hb. cbn [foldl step set_reg set_csr m_regs m_csrs m_mem]. unfold upd. which_regs. rewrite Hsp, wrap32_small by (unfold is_u32; lia). done.
Qed.

Lemma switch_load_spec callee m N : m_regs m SP = N → 0 ≤ N → N + 64 < 4294967296 →
  ∃ m1, exec callee (switch_load ++ [Ret]) None m = Some (Returned (m_regs m1 RA), m1) ∧ m_mem m1 = m_mem m ∧ m_regs m1 SP = N + 64 ∧
    switch_words m1 = words_at (m_mem m) N 14.
Proof.
  intros Hsp H0 Hb. unfold switch_load. rewrite <-!app_assoc. rewrite (exec_plain _ [Lw T0 (13 * 4) SP; Csrw CSR_SSTATUS T0]) by done.
  destruct (switch_status_spec m N Hsp H0 Hb) as (Sp1 & M1 & C1). set (m1 := steps m _) in *. clearbody m1.
  rewrite (exec_plain _ (loads 0 SP (RA :: callee_saved))) by done.
  destruct (steps_loads SP (RA :: callee_saved) 0 m1) as (E1 & E2 & E3 & E4); rewrite ?Sp1; [lia|lia|cbn [length callee_saved]; lia|unfold callee_saved; set_solver|unfold callee_saved; set_solver|
    apply (bool_decide_eq_true_1 (NoDup (RA :: callee_saved))); vm_compute; reflexivity|].
  set (m2 := steps m1 _) in *. clearbody m2. assert (Sp2 : m_regs m2 SP = N) by (rewrite E3; [done|unfold callee_saved; set_solver]).
  cbn [app exec step]. exists (set_reg SP (wrap32 (m_regs m2 SP + 16 * 4)) m2). split; [done|]. cbn [set_reg m_mem]. split; [congruence|].
  split; [cbn [m_regs]; unfold upd; which_regs; rewrite Sp2, wrap32_small by (unfold is_u32; lia); lia|].
  rewrite Sp1, Z.mul_0_r, Z.add_0_r, M1 in E4. change (length (RA :: callee_saved)) with 13%nat in E4.
  pose proof (words_at_app (m_mem m) N 13 1) as Ew. cbn [Nat.add] in Ew. rewrite Ew, <-E4. unfold switch_words. cbn [m_csrs]. rewrite E1, C1. f_equal.
  unfold words_at. cbn [seq fmap list_fmap]. do 2 f_equal. lia.
Qed.

(** What a switch does: it saves, takes the stack pointer from the slot that [a1] points to, loads, and returns to the loaded address. *)
Lemma switch_spec callee m N : u32_machine m → 64 ≤ m_regs m SP → load32 (switched_mem m) (m_regs m A1) = N → N + 64 < 4294967296 →
  ∃ m1, exec callee switch_context None m = Some (Returned (m_regs m1 RA), m1) ∧ m_mem m1 = switched_mem m ∧ m_regs m1 SP = N + 64 ∧
    switch_words m1 = words_at (switched_mem m) N 14.
Proof.
  intros Hm Hsp HN Hb. change switch_context with (switch_save ++ switch_load ++ [Ret]). rewrite exec_plain by done.
  destruct (switch_save_spec m Hm Hsp) as [M1 S1]. rewrite HN in S1. pose proof (load32_range (switched_mem m) (m_regs m A1)) as Hr. rewrite HN in Hr. unfold is_u32 in Hr.
  destruct (switch_load_spec callee (steps m switch_save) N S1) as (m2 & -> & E1 & E2 & E3); [lia|done|]. rewrite M1 in *. exists m2. done.
Qed.

(** Where a switch writes: below the stack pointer and in its slot. *)
Definition saved_area (m : machine) (x : Z) : Prop := m_regs m SP - 64 ≤ x < m_regs m SP - 8 ∨ m_regs m A0 ≤ x < m_regs m A0 + 4.

Record can_switch (m : machine) : Prop := {
  cs_values : u32_machine m;
  cs_room : 64 ≤ m_regs m SP;
  cs_slot : m_regs m A0 + 4 ≤ m_regs m SP - 64 ∨ m_regs m SP - 8 ≤ m_regs m A0;
}.

Lemma switched_outside m x : ¬ saved_area m x → rd (switched_mem m) x = rd (m_mem m) x.
Proof.
  unfold saved_area. intros Hx. unfold switched_mem. rewrite rd_store32. assert (E : (m_regs m A0 <=? x) && (x <? m_regs m A0 + 4) = false) by lia. rewrite E.
  apply store_words_outside. cbn [switch_words callee_saved length app fmap list_fmap]. lia.
Qed.

Lemma switched_frame m : can_switch m → words_at (switched_mem m) (m_regs m SP - 64) 14 = switch_words m ∧ load32 (switched_mem m) (m_regs m A0) = m_regs m SP - 64.
Proof.
  intros [(Hr & Hc & Hx) Hsp Hs]. pose proof (Hr SP) as Hu. unfold is_u32 in Hu. unfold switched_mem. split; [|apply load32_store32_eq; unfold is_u32; lia].
  set (vs := switch_words m). change 14%nat with (length vs).
  rewrite <-(store_words_read vs (m_mem m) (m_regs m SP - 64)) at 3 by (unfold vs, switch_words; apply Forall_app; split; [apply Forall_fmap, Forall_true; intros; apply Hr|repeat constructor; apply Hc]).
  apply words_at_ext. intros b Hb. rewrite rd_store32. change (length vs) with 14%nat in Hb. assert (E : (m_regs m A0 <=? b) && (b <? m_regs m A0 + 4) = false) by lia. by rewrite E.
Qed.

Lemma switch_words_inj m m' : switch_words m = switch_words m' →
  m_regs m RA = m_regs m' RA ∧ (∀ r, r ∈ callee_saved → m_regs m r = m_regs m' r) ∧ m_csrs m CSR_SSTATUS = m_csrs m' CSR_SSTATUS.
Proof.
  unfold switch_words, callee_saved. cbn [fmap list_fmap app]. intros H. injection H. intros. split; [done|]. split; [|done].
  intros r Hr. rewrite !elem_of_cons in Hr. destruct_or! Hr; try (subst; done). by apply not_elem_of_nil in Hr.
Qed.

(** C22: The process that called [switch_context] goes on as if the call had just returned: whatever runs in between, if it leaves the words that the
    call saved, a later switch to the slot in which the call left its stack pointer returns behind the first call, with the stack pointer, the
    saved registers and the interrupt state of that moment. *)
Theorem switch_context_roundtrip callee m1 : can_switch m1 → load32 (switched_mem m1) (m_regs m1 A1) + 64 < 4294967296 →
  ∃ pc m1', exec callee switch_context None m1 = Some (Returned pc, m1') ∧
    ∀ m2, can_switch m2 → m_regs m2 A1 = m_regs m1 A0 → (∀ x, saved_area m1 x → ¬ saved_area m2 x ∧ rd (m_mem m2) x = rd (m_mem m1') x) →
    ∃ m2', exec callee switch_context None m2 = Some (Returned (m_regs m1 RA), m2') ∧ m_regs m2' SP = m_regs m1 SP ∧
      (∀ r, r ∈ callee_saved → m_regs m2' r = m_regs m1 r) ∧ m_csrs m2' CSR_SSTATUS = m_csrs m1 CSR_SSTATUS.
Proof.
  intros H1 Hn. destruct (switch_spec callee m1 _ (cs_values m1 H1) (cs_room m1 H1) eq_refl Hn) as (m1' & Hrun & M1 & _ & _).
  exists (m_regs m1' RA), m1'. split; [exact Hrun|]. clear Hrun. intros m2 H2 Ha Hkeep. rewrite M1 in Hkeep.
  assert (Hsame : ∀ x, saved_area m1 x → rd (switched_mem m2) x = rd (switched_mem m1) x).
  { intros x Hx. destruct (Hkeep x Hx) as [Hno <-]. by apply switched_outside. }
  destruct (switched_frame m1 H1) as [Hw Hs]. destruct H1 as [(Hr & Hc & Hx) Hsp Hsl]. pose proof (Hr SP) as Hu. unfold is_u32 in Hu.
  assert (HN : load32 (switched_mem m2) (m_regs m2 A1) = m_regs m1 SP - 64).
  { rewrite Ha, <-Hs. apply load32_ext. intros b Hb. apply Hsame. by right. }
  destruct (switch_spec callee m2 _ (cs_values m2 H2) (cs_room m2 H2) HN ltac:(lia)) as (m2' & Hrun & _ & Sp2 & W2).
  assert (W : switch_words m2' = switch_words m1).
  { rewrite W2, <-Hw. apply words_at_ext. intros b Hb. apply Hsame. left. lia. }
  apply switch_words_inj in W as (W1 & W3 & W4). exists m2'. rewrite Hrun, W1. split; [done|]. split; [lia|]. done.
Qed.

(** The first switch to a new process starts it at its entry: with the frame that [arch_init_switch_context] has put on its stack, the call
    returns to [entry] on an empty stack, with the saved registers zero and the status that was chosen for the process. *)
Theorem switch_to_new callee m N status p entry : can_switch m → load32 (m_mem m) (m_regs m A1) = N → N + 64 < 4294967296 →
  words_at (m_mem m) N 16 = switch_frame (arch_init_switch_context status p entry) →
  (∀ x, N ≤ x < N + 56 ∨ m_regs m A1 ≤ x < m_regs m A1 + 4 → ¬ saved_area m x) →
  ∃ m', exec callee switch_context None m = Some (Returned entry, m') ∧ m_regs m' SP = N + 64 ∧ (∀ r, r ∈ callee_saved → m_regs m' r = 0) ∧
    m_csrs m' CSR_SSTATUS = (let s := Z.land status (not32 (Z.lor SSTATUS_SIE SSTATUS_SUM)) in if is_user p then s else Z.lor s SSTATUS_SIE).
Proof.
  intros [Hm Hsp Hsl] HN Hb Hw Hno.
  assert (HN' : load32 (switched_mem m) (m_regs m A1) = N) by (rewrite <-HN; apply load32_ext; intros b Hb'; apply switched_outside, Hno; by right).
  destruct (switch_spec callee m N Hm Hsp HN' Hb) as (m' & Hrun & _ & Sp' & W).
  rewrite (words_at_ext (m_mem m)) in W by (intros b Hb'; apply switched_outside, Hno; left; lia).
  pose proof (words_at_app (m_mem m) N 14 2) as Ew. cbn [Nat.add] in Ew. rewrite Ew in Hw. apply (f_equal (take 14)) in Hw. rewrite take_app_length' in Hw by done. rewrite Hw in W.
  unfold switch_words, callee_saved, arch_init_switch_context, set_switch in W. cbn in W. injection W. intros. exists m'. rewrite Hrun. split; [congruence|]. split; [done|]. split; [|done].
  intros r Hr. unfold callee_saved in Hr. rewrite !elem_of_cons in Hr. destruct_or! Hr; try (subst; done). by apply not_elem_of_nil in Hr.
Qed.

(** ** Concrete machines *)

Definition demo_regs (sp a0 a1 : Z) : reg → Z := λ r, match r with X0 => 0 | SP => sp | A0 => a0 | A1 => a1 | _ => 7 end.
Definition demo_csrs (status scratch : Z) : csr → Z := λ c, match c with CSR_SSTATUS => status | CSR_SEPC => 0 | CSR_SSCRATCH => scratch end.
Lemma demo_u32 sp a0 a1 status scratch mm : is_u32 sp → is_u32 a0 → is_u32 a1 → is_u32 status → is_u32 scratch → u32_machine (Machine (demo_regs sp a0 a1) (demo_csrs status scratch) mm).
Proof. intros. split; [|split; [|done]]; intros []; cbn; done || (unfold is_u32; lia). Qed.

(** User code at 65536 with interrupts enabled; the top of its kernel stack is 40960. *)
Definition demo_user (sp : Z) : hart := Hart false 65536 (Machine (demo_regs sp 1 2) (demo_csrs 2 40960) ∅).

Lemma kernel_entry_correct_witness : ∃ h', serve_trap Some (demo_user 8192) = Some h' ∧
  (∀ r, r ≠ X0 → m_regs (h_machine h') r = m_regs (h_machine (demo_user 8192)) r) ∧ h_pc h' = 65536 ∧ h_supervisor h' = false.
Proof.
  destruct (kernel_entry_correct Some (demo_user 8192) 40960) as (m1 & _ & H).
  - apply demo_u32; unfold is_u32; lia.
  - unfold is_u32. cbn. lia.
  - split; [reflexivity|]. discriminate.
  - lia.
  - destruct (H eq_refl) as (h' & Hrun & _ & _ & _ & _ & Hsame). destruct (Hsame eq_refl) as (H1 & H2 & H3 & _). exists h'. split_and!; assumption.
Defined.

(** A stack pointer of zero is taken for the mark of supervisor mode: user code that traps with [sp] zero gets the address of its kernel stack in [sp]. *)
Lemma kernel_entry_leaks_stack : match serve_trap Some (demo_user 0) with Some h' => m_regs (h_machine h') SP = 40960 ∧ h_supervisor h' = false | None => False end.
Proof. vm_compute. done. Qed.

(** [current_proc], at 1000, points to a process at 8192. *)
Lemma resume_correct_witness : let m := Machine (demo_regs 4096 0 0) (demo_csrs 0 0) (store32 ∅ 1000 8192) in
  ∃ m', exec Some (arch_resume_from_trap 1000) None m = Some (TrapReturn, m') ∧ m_mem m' = m_mem m ∧ m_csrs m' CSR_SSCRATCH = 8192 + stack_top_offset.
Proof.
  intros m. destruct (resume_correct Some 1000 m) as (m' & H1 & H2 & H3 & _).
  - unfold is_u32. lia.
  - vm_compute. discriminate.
  - exists m'. split; [exact H1|]. split; [exact H2|]. rewrite H3. vm_compute. reflexivity.
Defined.

(** A process on the stack below 20000, and another one that has left its stack pointer, 30000, at 1004. *)
Definition demo_switch (frame : list Z) : machine := Machine (demo_regs 20000 1000 1004) (demo_csrs 2 0) (store_words (store32 ∅ 1004 30000) 30000 frame).
Lemma demo_can_switch frame : can_switch (demo_switch frame).
Proof. split; [apply demo_u32; unfold is_u32; lia|cbn; lia|cbn; lia]. Qed.

Lemma switch_context_roundtrip_witness : ∃ pc m1', exec Some switch_context None (demo_switch []) = Some (Returned pc, m1') ∧
    ∀ m2, can_switch m2 → m_regs m2 A1 = 1000 → (∀ x, saved_area (demo_switch []) x → ¬ saved_area m2 x ∧ rd (m_mem m2) x = rd (m_mem m1') x) →
    ∃ m2', exec Some switch_context None m2 = Some (Returned 7, m2') ∧ m_regs m2' SP = 20000 ∧
      (∀ r, r ∈ callee_saved → m_regs m2' r = m_regs (demo_switch []) r) ∧ m_csrs m2' CSR_SSTATUS = 2.
Proof. apply (switch_context_roundtrip Some (demo_switch [])); [apply demo_can_switch|vm_compute; reflexivity]. Defined.

Definition demo_new : list Z := switch_frame (arch_init_switch_context 0 zero_process 50000).
Lemma switch_to_new_witness : ∃ m', exec Some switch_context None (demo_switch demo_new) = Some (Returned 50000, m') ∧ m_regs m' SP = 30064 ∧
  (∀ r, r ∈ callee_saved → m_regs m' r = 0) ∧ m_csrs m' CSR_SSTATUS = 2.
Proof.
  apply (switch_to_new Some (demo_switch demo_new) 30000 0 zero_process 50000).
  - apply demo_can_switch.
  - vm_compute. reflexivity.
  - lia.
  - vm_compute. reflexivity.
  - intros x Hx. unfold saved_area. cbn in *. lia.
Defined.
